(* ===== verification/_CoqProject ===== *)
-Q . S2P
Prelude.v
Words.v
CString.v
Protocol.v
Integrity.v
Memory.v
Payload.v
Arena.v
Routes.v
RoutesConc.v
Scheduler.v
Net.v
Client.v
Connection.v
ConnInv.v
Server.v
Lifecycle.v
ServerInv.v
ServerLoop.v
LifecycleInv.v
ServerProps.v
BackendWorld.v
Uring.v
UringKernel.v
UringInv.v
UringOps.v
UringCalls.v
UringProps.v
Kqueue.v
KqueueProps.v
Windows.v
WindowsProps.v
Trace.v
Machine.v
Switch.v
SwitchProps.v
Minicoro.v
MinicoroProps.v
TraceDump.v
AsyncDemo.v
WinPlatform.v
Bench.v
BenchRun.v
Demos.v
