(* ===== verification/Prelude.v ===== *)
(** * wirecall: a verification development for the wirecall C RPC library

    wirecall is a C library for remote procedure calls over TCP.  A client
    (src/client.c) sends packets; a server (src/server.c) has a table of
    procedures (src/routes.c) and workers, each with an event loop, that parse
    the packets, run handlers and send answers.  This development translates the
    library's C code into executable Rocq definitions, with the names of the
    source, and proves what makes each part and their composition correct.

    ** How C is modelled

    A C function is a function in the state monad [M] of this file: [Ok] with
    its results for status 0, [Err] for the status -1, and [UB] for an access
    the code must not make: outside a buffer, to a slot that is not in use, to an
    uninitialised cell, through NULL.  No value is made up for such an access,
    so that memory safety is a theorem.  The state is returned on every path:
    what a failed call leaves behind is visible.  Integers are [Z] with the
    width written out where the code computes ([u32], [u64], [usize]); size_t
    has the width [size_bits] of the class [Host], which also has the byte order.
    Byte strings are [list Z].

    Memory is modelled by what owns it.  A heap block is its address; the class
    [Heap] (Memory.v) has the set of live blocks, and the contents are in the
    structure that owns the block.  Objects that several structures refer to by
    pointer (connections, calls, deferred calls) are in the slots of the arenas
    they are allocated from, as a map from addresses ([arena_state], Arena.v), so
    that aliasing and dangling pointers are those of the code.

    Loops that the data bounds are structural.  Loops that the outside drives
    (recv, send, accept) have fuel [net_work], a bound on the data, interrupts
    and connections of the run that is considered, which can be any number, and
    the loops never run out of it.  Parsing has one unit of fuel for each byte,
    doubling of capacities 64 units, the benchmark's
    loops one for each request, and they are proved enough; the routines that
    switch stacks are executed for up to 200 instructions, and end before.  Two loops need
    not end: run_ready, when a call keeps yielding, and the event loop; there the
    fuel is an argument and running out of it is a result of its own.

    ** The parts

    - Prelude.v (this file): outcomes, the state monad and its rules ([wp]),
      lists of bytes, automation.  Words.v: arithmetic of 32- and 64-bit words.
      CString.v: C strings.
    - Protocol.v, Integrity.v: src/protocol.c and include/wirecall/protocol.h.
      The header codec, procedure ids, checksum and MAC.
    - Memory.v: src/memory.c, the allocator hooks, and the class [Heap] the other
      parts allocate through; memory.c is shown to implement it.
    - Payload.v: src/payload.c, writers and the decoder of typed values.
    - Arena.v: include/arena.h.  Pages come from the class [Pages] (mmap).
    - Routes.v: src/routes.c, the table of procedures, one operation at a time;
      RoutesConc.v: lookups interleaved with writers, by single accesses.
    - Scheduler.v: src/scheduler.c, asynchronous calls on coroutines, of which
      it uses create, resume, yield, status and destroy.
    - Machine.v, Switch.v: include/minicoro.h, the assembly that switches stacks
      on x86-64 (System V and Windows), i386, ARM, AArch64 and RISC-V, as
      programs of small machines, and what prepares the first switch;
      SwitchProps.v: what they do.  Minicoro.v: the rest of the library, blocks,
      create, resume, yield, end, destroy and the storage, over the back end of
      Switch.v; MinicoroProps.v: its properties and what Scheduler.v takes from it.
    - Net.v: the socket calls, a class [Net] with the laws of POSIX, and the
      wrappers of include/platform.h that have logic of their own.
    - Client.v: src/client.c, the whole client.
    - Connection.v: the half of src/server.c that owns sockets and buffers:
      struct wirecall_connection and wirecall_deferred, queueing and flushing of
      packets, closing, hand-over of accepted sockets, completed calls.  Server.v:
      the other half, from received bytes to handlers, handle_packet and its
      callees, connection_read, and the loop worker_run.  Lifecycle.v: the public
      calls that create, configure, bind, run, stop and destroy a server.
      The state of a worker is that of its scheduler (Scheduler.v) whose client is
      the [side] of Connection.v; a server (Lifecycle.v) holds its workers as the
      fields of their C structure, and [focus] is the view of one of them.
    - ConnInv.v, ServerInv.v, ServerLoop.v: the invariant of a worker and a rule
      for every operation that keeps it; LifecycleInv.v: the same for a server
      that is being set up.  ServerProps.v: what follows for the server.

    - BackendWorld.v: what the three event backends (include/backend.h) share, a
      heap, a kernel and one backend, and the backends of the workers.
    - Uring.v: src/backend/io_uring.c, the event backend of Linux, over the
      class [Uring] of what the kernel does with the rings; UringKernel.v: the
      queues as lists, and a scripted kernel; UringInv.v, UringOps.v and
      UringCalls.v: what a backend owns and what each of its calls does;
      UringProps.v: the properties, and a server run on the backend.
    - Kqueue.v, KqueueProps.v: src/backend/kqueue.c, that of macOS and the BSDs,
      over the class [Kqueue]; also the batches of this backend and the event
      loop, and a server run on it.
    - Windows.v, WindowsProps.v: src/backend/windows.c, over the class [Winsock].
    - Trace.v: src/trace.c and include/wirecall/trace.h, the counters, one
      operation at a time and by single atomic accesses; TraceDump.v:
      wirecall_trace_dump and format_duration, the text they print.
    - WinPlatform.v: the Windows halves of include/platform.h and src/client.c.
    - AsyncDemo.v: demos/async/server.c, its queue, thread, handler and shutdown,
      step by step.  Bench.v: the arithmetic of demos/bench.c, arguments, shares
      and figures; BenchRun.v: its client threads and the gate they start at.
      Demos.v: the handlers, clients and server set-ups of the examples.

    Classes are the interfaces: [Host], [Heap], [Pages], [Net], [Uring], [Kqueue],
    [Winsock] (for the backend, in Windows.v, and for the client, in WinPlatform.v),
    [BenchIO] and [Backend] (include/backend.h), which Uring.v, Kqueue.v and
    Windows.v implement.  Each has a scripted instance ([toy_heap], [toy_pages],
    [toynet], [toyuring], [toy_kqueue], [toy_winsock], [toybackend]) in which the
    models are evaluated.

    ** What is shown

    - Protocol: decoding is the inverse of encoding and accepts exactly the
      encodings; what is signed verifies, verification is characterised, the
      streaming MAC is SipHash-2-4, the checksum's mixing loses nothing; packets
      do not travel between hosts of different byte order.
    - Memory, payload, arena: allocation through the hooks keeps the laws of
      [Heap], and every block goes back to the allocator it came from, which is
      the one set last; writers append exactly the encoding of a value; the decoder accepts
      exactly encodings, on any input without leak or stray access; an arena is a
      map with fresh, zeroed slots.
    - Procedures: the table is a map from ids to routes and finalizers run once,
      but for the chains that a failing writer loses while a lookup is under way;
      lookups are safe under sequential consistency, and not with the orderings
      the code asks for.
    - Scheduler: a submission has three outcomes that keep everything accounted
      for; when handlers return, running the queue ends with every callback run
      once, and blocks and coroutines given back.
    - Client: what is sent, what is received from any chunking of the stream, that
      a call returns the answer to its own request and gives back what it took.
    - Server, when its procedures are synchronous or deferred: in every state that
      setting up and any turns of one worker lead to, its next turn ends without
      an undefined access and keeps the invariant, if the backend reports live
      watches, each once in a batch, or the two directions of a connection one by
      one when it has data to send (see the backends for where they do not); what is received is
      answered packet by packet; a client's call is answered by the packet this
      client takes for the answer; setting up and destroying balance on every
      path.  Two defects are shown on the model: the answer of an asynchronous
      call outlives its connection, and a connection to be closed whose socket is
      full is never closed.

    - Event backends: the watches implement a map from descriptors to what is
      registered for them, on every path, and creation and destruction balance.
      For io_uring completions never lead to freed memory, however late they
      come, but a batch can name one connection twice: a server run on it is shown
      to use a freed connection.  The batches of kqueue are among those the event
      loop is safe for while its filters are in step with the connections; a
      change of them that fails half-way is shown to lead to the same use.  The
      Windows backend never reports a watch behind the
      first 63.
    - Counters: however updates interleave, a counter ends as if they had run one
      after the other; a dump prints one line for each counter with something to
      show, durations rounded to nearest.
    - Coroutines: on every architecture a switch saves the registers a call
      preserves (on x86 not the control registers of the floating-point units),
      so that switching away and back is a call that returns, and the first switch
      enters the coroutine's main on its own aligned stack; the parts of a block
      do not overlap; the library refines nested calls, and its storage a bounded
      stack of bytes; what Scheduler.v assumes of coroutines is what it does.
    - The Windows client sends exactly its buffers or a prefix of them, and
      connecting and closing balance.
    - Examples: the queue of the asynchronous server is first in first out, loses
      no wake-up and touches no dead frame until main shuts down with jobs under
      way; the benchmark's threads end and store the times of their own calls, its
      gate is a barrier, its shares fill the array of latencies; the example
      client ends with everything given back and prints the sum it has received;
      the servers of the benchmark and of the embedding example add; every server of the
      examples is set up or gives back what it took.

    ** Not modelled, and why

    - The kernel, sockets, libc, threads and the embedding program's handlers are
      parameters with laws.
    - Of include/minicoro.h, the back ends that are not assembly of its own
      (ucontext, Windows fibers, Emscripten's asyncify), the hooks for sanitizers
      and the debug log.  The machines of Switch.v have the registers and
      instructions these routines use, and a memory of bytes.
    - A mutex is a step: what the code does under a lock is one step of the model
      (RoutesConc.v goes below that for the one lock-free structure).  The threads
      of a server are turns of their loops in any order.
    - Asynchronous procedures are outside the invariant of the server, because of
      the defect above, and with them the servers of demos/server.c and
      demos/async/server.c once they run; their model is complete.  A worker's
      invariant is shown for its own turns; the effect other threads' turns have
      on a server's shared fields in between is not.
    - The counter of readers in RoutesConc.v does not wrap: fewer than 2^32
      threads are inside lookups.
    - The calls of the trace functions are left out of the other parts, of which
      they change no state.
    - wirecall_ctx_call_id and wirecall_ctx_proc_id of src/scheduler.c run inside
      a handler, which is a parameter: it gets both numbers as arguments.
    - SO_REUSEADDR and freeaddrinfo, which have no effect on the state of the
      library.
    - Of the programs under demos/: signals, the handler echo_string, which suspends
      itself, what demos/bench.c asks of the system (current_memory, getrusage)
      and its report, and printing other than the client's result; tests/. *)

From Stdlib Require Export ZArith Lia.
From stdpp Require Export base tactics numbers list gmap option.

#[export] Set Default Goal Selector "!".
#[global] Open Scope Z_scope.

Declare Scope wire_scope.
Delimit Scope wire_scope with wire.
#[global] Open Scope wire_scope.

(** ** Outcomes of C functions

    [Ok a] is a normal return (status 0, with the out-parameters in [a]),
    [Err] is the status -1 that the library returns for every failure, and
    [UB] is an access outside the object it is meant for: the model never
    invents a value for such an access, so that memory safety of the code
    that reads untrusted bytes is a theorem and not a modelling choice. *)
Inductive res (A : Type) : Type :=
| Ok (a : A)
| Err
| UB.
Arguments Ok {A} a.
Arguments Err {A}.
Arguments UB {A}.

#[global] Instance res_eq_dec `{EqDecision A} : EqDecision (res A).
Proof. solve_decision. Defined.

Definition res_bind {A B} (r : res A) (f : A -> res B) : res B :=
  match r with
  | Ok a => f a
  | Err => Err
  | UB => UB
  end.

Notation "'let?' x := r 'in' k" := (res_bind r (fun x => k))
  (at level 10, x binder, r at level 100, k at level 200) : wire_scope.

(** ** State passing

    [M S A] is a C function with the state [S] it reads and writes: the state
    is returned on every path, so that what a failing call leaves behind is
    visible. *)
Definition M (S A : Type) : Type := S -> res A * S.

Definition ret {S A} (a : A) : M S A := fun s => (Ok a, s).
Definition fail {S A} : M S A := fun s => (Err, s).
Definition ub {S A} : M S A := fun s => (UB, s).
Definition bind {S A B} (m : M S A) (f : A -> M S B) : M S B :=
  fun s => match m s with
           | (Ok a, s') => f a s'
           | (Err, s') => (Err, s')
           | (UB, s') => (UB, s')
           end.
Definition gets {S A} (f : S -> A) : M S A := fun s => (Ok (f s), s).
Definition modify {S} (f : S -> S) : M S unit := fun s => (Ok tt, f s).
Definition lift {S A} (r : res A) : M S A := fun s => (r, s).

(** [attempt m] is a caller that tests the status of [m] and goes on. *)
Definition attempt {S A} (m : M S A) : M S (option A) :=
  fun s => match m s with
           | (Ok a, s') => (Ok (Some a), s')
           | (Err, s') => (Ok None, s')
           | (UB, s') => (UB, s')
           end.

Notation "x <- m ;; k" := (bind m (fun x => k))
  (at level 100, m at next level, right associativity) : wire_scope.
Notation "m ;;; k" := (bind m (fun _ => k))
  (at level 100, right associativity) : wire_scope.

(** ** Machine integers *)
Definition u8 (x : Z) : Z := x mod 2 ^ 8.
Definition u32 (x : Z) : Z := x mod 2 ^ 32.
Definition u64 (x : Z) : Z := x mod 2 ^ 64.
(** two's complement reading of a 64-bit and of a 32-bit pattern *)
Definition s64 (x : Z) : Z := if u64 x <? 2 ^ 63 then u64 x else u64 x - 2 ^ 64.
Definition s32 (x : Z) : Z := if u32 x <? 2 ^ 31 then u32 x else u32 x - 2 ^ 32.

(** ** The host the library is compiled for: byte order and width of size_t *)
Inductive endian := LittleEndian | BigEndian.
#[global] Instance endian_eq_dec : EqDecision endian.
Proof. solve_decision. Defined.
Class Host := {
  host_endian : endian;
  size_bits : Z;
}.
Definition usize `{Host} (x : Z) : Z := x mod 2 ^ size_bits.
Definition SIZE_MAX `{Host} : Z := 2 ^ size_bits - 1.

Definition host_lp64 : Host := {| host_endian := LittleEndian; size_bits := 64 |}.
Definition host_ilp32 : Host := {| host_endian := LittleEndian; size_bits := 32 |}.
Definition host_lp64_be : Host := {| host_endian := BigEndian; size_bits := 64 |}.

(** ** Bytes *)
Definition byte_ok (b : Z) : Prop := 0 <= b < 256.
Definition bytes_ok (l : list Z) : Prop := Forall byte_ok l.
Definition zlen {A} (l : list A) : Z := Z.of_nat (length l).
Definition ztake {A} (n : Z) (l : list A) : list A := take (Z.to_nat n) l.
Definition zdrop {A} (n : Z) (l : list A) : list A := drop (Z.to_nat n) l.
Definition zreplicate {A} (n : Z) (x : A) : list A := replicate (Z.to_nat n) x.

#[global] Instance byte_ok_dec b : Decision (byte_ok b).
Proof. unfold byte_ok. apply _. Defined.
#[global] Instance bytes_ok_dec l : Decision (bytes_ok l).
Proof. unfold bytes_ok. apply _. Defined.

(** ** Automation *)
Create HintDb wire.
Create Rewrite HintDb wlen.

(** [split_ifs]: case on every boolean test in the goal. *)
Ltac split_ifs :=
  repeat match goal with
         | |- context [if ?b then _ else _] => destruct b eqn:?
         end.

(** [zb]: turn boolean comparisons of the hypotheses into propositions. *)
Ltac zb :=
  repeat match goal with
         | H : (_ && _)%bool = true |- _ => apply andb_prop in H as [? ?]
         | H : (_ || _)%bool = false |- _ => apply orb_false_elim in H as [? ?]
         | H : negb _ = true |- _ => apply negb_true_iff in H
         | H : negb _ = false |- _ => apply negb_false_iff in H
         | H : (_ <? _) = true |- _ => apply Z.ltb_lt in H
         | H : (_ <? _) = false |- _ => apply Z.ltb_ge in H
         | H : (_ <=? _) = true |- _ => apply Z.leb_le in H
         | H : (_ <=? _) = false |- _ => apply Z.leb_gt in H
         | H : (_ =? _) = true |- _ => apply Z.eqb_eq in H
         | H : (_ =? _) = false |- _ => apply Z.eqb_neq in H
         end.

(** [by_compute]: a closed decidable goal, by evaluation. *)
Ltac by_compute := refine (bool_decide_eq_true_1 _ _); vm_compute; reflexivity.

(** [runM]: unfold the monadic plumbing of a model function. *)
Ltac runM := cbn [bind ret fail ub gets modify lift attempt res_bind fst snd] in *.

(** ** Reasoning about state passing

    [wp m Q E s]: run from [s], the function does nothing undefined, a normal
    return satisfies [Q] and a failing one [E]. *)
Definition wp {S A} (m : M S A) (Q : A -> S -> Prop) (E : S -> Prop) (s : S) : Prop :=
  match m s with
  | (Ok a, s') => Q a s'
  | (Err, s') => E s'
  | (UB, _) => False
  end.

Section Wp.
Context {S : Type}.

Lemma wp_bind {A B} (m : M S A) (f : A -> M S B) Q E s : wp m (fun a => wp (f a) Q E) E s -> wp (bind m f) Q E s.
Proof. unfold wp, bind. by destruct (m s) as [[] ?]. Qed.

Lemma wp_attempt {A} (m : M S A) Q E s : wp m (fun a => Q (Some a)) (Q None) s -> wp (attempt m) Q E s.
Proof. unfold wp, attempt. by destruct (m s) as [[] ?]. Qed.

Lemma wp_mono {A} (m : M S A) Q Q' (E E' : S -> Prop) s :
  wp m Q E s -> (forall a s', Q a s' -> Q' a s') -> (forall s', E s' -> E' s') -> wp m Q' E' s.
Proof. unfold wp. destruct (m s) as [[] ?]; auto. Qed.

Lemma wp_ret {A} (a : A) (Q : A -> S -> Prop) E s : Q a s -> wp (ret a) Q E s.
Proof. done. Qed.

Lemma wp_fail {A} (Q : A -> S -> Prop) (E : S -> Prop) s : E s -> wp fail Q E s.
Proof. done. Qed.

Lemma wp_if {A} (b : bool) (m n : M S A) Q E s :
  (b = true -> wp m Q E s) -> (b = false -> wp n Q E s) -> wp (if b then m else n) Q E s.
Proof. destruct b; auto. Qed.

(** a run that is known *)
Lemma wp_run {A} (m : M S A) Q E s r s' :
  m s = (r, s') -> wp m Q E s -> match r with Ok a => Q a s' | Err => E s' | UB => False end.
Proof. unfold wp. intros ->. by destruct r. Qed.

Lemma wp_total {A} (m : M S A) Q E s : wp m Q E s -> exists r s', m s = (r, s') /\ r <> UB.
Proof. unfold wp. destruct (m s) as [[] s']; [by eexists _, _ | by eexists _, _ | done]. Qed.
End Wp.


(** ** Machine integers: ranges *)
Lemma u8_range x : 0 <= u8 x < 256.
Proof. unfold u8. apply Z.mod_pos_bound. lia. Qed.
Lemma u32_range x : 0 <= u32 x < 2 ^ 32.
Proof. unfold u32. apply Z.mod_pos_bound. lia. Qed.
Lemma u64_range x : 0 <= u64 x < 2 ^ 64.
Proof. unfold u64. apply Z.mod_pos_bound. lia. Qed.
Lemma u8_small x : 0 <= x < 256 -> u8 x = x.
Proof. intros. unfold u8. apply Z.mod_small. lia. Qed.
Lemma u32_small x : 0 <= x < 2 ^ 32 -> u32 x = x.
Proof. apply Z.mod_small. Qed.
Lemma u64_small x : 0 <= x < 2 ^ 64 -> u64 x = x.
Proof. apply Z.mod_small. Qed.
Lemma s64_range x : - 2 ^ 63 <= s64 x < 2 ^ 63.
Proof. unfold s64. pose proof (u64_range x). split_ifs; zb; lia. Qed.
Lemma u64_s64 x : u64 (s64 x) = u64 x.
Proof.
  unfold s64, u64. split_ifs.
  - apply Z.mod_mod. lia.
  - rewrite <- (Z.mod_add (x mod 2 ^ 64 - 2 ^ 64) 1) by lia.
    replace (x mod 2 ^ 64 - 2 ^ 64 + 1 * 2 ^ 64) with (x mod 2 ^ 64) by lia.
    apply Z.mod_mod. lia.
Qed.
Lemma s64_u64 x : - 2 ^ 63 <= x < 2 ^ 63 -> s64 (u64 x) = x.
Proof.
  intros Hx. unfold s64, u64. rewrite Z.mod_mod by lia.
  destruct (Z_lt_le_dec x 0).
  - replace (x mod 2 ^ 64) with (x + 2 ^ 64).
    + split_ifs; zb; lia.
    + rewrite <- (Z.mod_add x 1) by lia. symmetry. apply Z.mod_small. lia.
  - rewrite Z.mod_small by lia. split_ifs; zb; lia.
Qed.
Lemma usize_small `{Host} x : 0 <= x < 2 ^ size_bits -> usize x = x.
Proof. apply Z.mod_small. Qed.

#[export] Hint Resolve u8_range u32_range u64_range s64_range : wire.

(** ** Lists indexed by integers *)
Section Lists.
Context {A : Type}.
Implicit Types l k : list A.

Lemma zlen_length l : zlen l = Z.of_nat (length l).
Proof. reflexivity. Qed.
Lemma zlen_nonneg l : 0 <= zlen l.
Proof. unfold zlen. lia. Qed.
Lemma zlen_nil : zlen (@nil A) = 0.
Proof. reflexivity. Qed.
Lemma zlen_cons x l : zlen (x :: l) = 1 + zlen l.
Proof. unfold zlen. cbn [length]. lia. Qed.
Lemma zlen_app l k : zlen (l ++ k) = zlen l + zlen k.
Proof. unfold zlen. rewrite length_app. lia. Qed.
Lemma zlen_ztake n l : 0 <= n <= zlen l -> zlen (ztake n l) = n.
Proof. unfold zlen, ztake. rewrite length_take. lia. Qed.
Lemma zlen_zdrop n l : 0 <= n <= zlen l -> zlen (zdrop n l) = zlen l - n.
Proof. unfold zlen, zdrop. rewrite length_drop. lia. Qed.
Lemma zlen_zreplicate n (x : A) : 0 <= n -> zlen (zreplicate n x) = n.
Proof. unfold zlen, zreplicate. rewrite length_replicate. lia. Qed.
Lemma ztake_zdrop n l : ztake n l ++ zdrop n l = l.
Proof. apply take_drop. Qed.
Lemma ztake_app_all l k : ztake (zlen l) (l ++ k) = l.
Proof. unfold ztake, zlen. rewrite Nat2Z.id. apply take_app_length. Qed.
Lemma zdrop_app_all l k : zdrop (zlen l) (l ++ k) = k.
Proof. unfold zdrop, zlen. rewrite Nat2Z.id. apply drop_app_length. Qed.
Lemma ztake_app_eq n l k : n = zlen l -> ztake n (l ++ k) = l.
Proof. intros ->. apply ztake_app_all. Qed.
Lemma zdrop_app_eq n l k : n = zlen l -> zdrop n (l ++ k) = k.
Proof. intros ->. apply zdrop_app_all. Qed.
Lemma ztake_ge n l : zlen l <= n -> ztake n l = l.
Proof. unfold ztake, zlen. intros. apply take_ge. lia. Qed.
Lemma zdrop_ge n l : zlen l <= n -> zdrop n l = [].
Proof. unfold zdrop, zlen. intros. apply drop_ge. lia. Qed.
Lemma zdrop_0 l : zdrop 0 l = l.
Proof. reflexivity. Qed.
Lemma ztake_0 l : ztake 0 l = [].
Proof. reflexivity. Qed.
Lemma zdrop_zdrop n m l : 0 <= n -> 0 <= m -> zdrop n (zdrop m l) = zdrop (m + n) l.
Proof. unfold zdrop. intros. rewrite drop_drop. f_equal. lia. Qed.
Lemma zdrop_app_le n l k : 0 <= n <= zlen l -> zdrop n (l ++ k) = zdrop n l ++ k.
Proof. unfold zdrop, zlen. intros. apply drop_app_le. lia. Qed.
Lemma ztake_app_le n l k : 0 <= n <= zlen l -> ztake n (l ++ k) = ztake n l.
Proof. unfold ztake, zlen. intros. apply take_app_le. lia. Qed.
Lemma ztake_ztake n m l : n <= m -> ztake n (ztake m l) = ztake n l.
Proof. unfold ztake. intros. rewrite take_take. f_equal. lia. Qed.
Lemma zlen_0_nil l : zlen l = 0 -> l = [].
Proof. destruct l; [done |]. rewrite zlen_cons. pose proof (zlen_nonneg l). lia. Qed.
End Lists.

#[export] Hint Rewrite @zlen_nil @zlen_cons @zlen_app : wlen.

Lemma bytes_ok_nil : bytes_ok [].
Proof. by apply Forall_nil. Qed.
Lemma bytes_ok_cons b l : bytes_ok (b :: l) <-> byte_ok b /\ bytes_ok l.
Proof. split; [apply Forall_cons_1 | intros [? ?]; by apply Forall_cons]. Qed.
Lemma bytes_ok_app l k : bytes_ok (l ++ k) <-> bytes_ok l /\ bytes_ok k.
Proof. unfold bytes_ok. apply Forall_app. Qed.
Lemma bytes_ok_ztake n l : bytes_ok l -> bytes_ok (ztake n l).
Proof. unfold bytes_ok, ztake. apply Forall_take. Qed.
Lemma bytes_ok_zdrop n l : bytes_ok l -> bytes_ok (zdrop n l).
Proof. unfold bytes_ok, zdrop. apply Forall_drop. Qed.
#[export] Hint Resolve bytes_ok_nil bytes_ok_ztake bytes_ok_zdrop : wire.

(** ** Growing a buffer: [while (cap < need) cap *= 2] on size_t

    [None] is a loop that does not come to an end: the product wraps to 0. *)
Fixpoint double_until `{Host} (fuel : nat) (cap need : Z) : option Z :=
  if cap <? need then
    match fuel with
    | O => None
    | S fuel => double_until fuel (usize (cap * 2)) need
    end
  else Some cap.

Lemma double_until_spec `{Host} fuel cap need :
  1 <= cap -> 2 * need < 2 ^ size_bits -> need <= cap * 2 ^ Z.of_nat fuel ->
  exists cap', double_until fuel cap need = Some cap' /\ need <= cap' /\ cap <= cap' <= Z.max cap (2 * need).
Proof.
  revert cap. induction fuel as [|fuel IH]; intros cap Hc Hn Hf; cbn [double_until].
  - change (Z.of_nat 0) with 0 in Hf. rewrite Z.pow_0_r in Hf.
    replace (cap <? need) with false by (symmetry; apply Z.ltb_ge; lia). exists cap. split; [done | lia].
  - destruct (cap <? need) eqn:E; zb; [| exists cap; split; [done | lia]].
    rewrite usize_small by lia. destruct (IH (cap * 2)) as (cap' & -> & ? & ?); [lia | lia | | exists cap'; split; [done | lia]].
    rewrite Nat2Z.inj_succ, Z.pow_succ_r in Hf by lia. lia.
Qed.

(** ** Collecting over a finite map *)
Section Collect.
Context `{Countable K} {C B : Type} (dflt : C) (f : C -> list B).
Hypothesis f_dflt : f dflt = [].

(** everything the values hold, in some order *)
Definition collect (m : gmap K C) : list B := concat (map (fun kc => f kc.2) (map_to_list m)).

Lemma concat_perm {A} (l k : list (list A)) : l ≡ₚ k -> concat l ≡ₚ concat k.
Proof. induction 1; cbn; [done | by f_equiv | rewrite !app_assoc; f_equiv; apply Permutation_app_comm | by etrans]. Qed.

Lemma collect_insert_new m k c : m !! k = None -> collect (<[k := c]> m) ≡ₚ f c ++ collect m.
Proof.
  intros Hk. unfold collect. rewrite (concat_perm _ (map (fun kc => f kc.2) ((k, c) :: map_to_list m))); [done |].
  by rewrite map_to_list_insert.
Qed.

Lemma collect_insert m k c : collect (<[k := c]> m) ≡ₚ f c ++ collect (delete k m).
Proof. rewrite <- insert_delete_eq. apply collect_insert_new. apply lookup_delete_eq. Qed.

Lemma collect_lookup m k c : m !! k = Some c -> collect m ≡ₚ f c ++ collect (delete k m).
Proof. intros Hk. rewrite <- (insert_id m k c) at 1 by done. apply collect_insert. Qed.

Lemma collect_split m k : collect m ≡ₚ f (default dflt (m !! k)) ++ collect (delete k m).
Proof.
  destruct (m !! k) as [c|] eqn:E; cbn [default from_option].
  - rewrite <- (insert_id m k c) at 1 by done. apply collect_insert.
  - unfold id. rewrite f_dflt, delete_id by done. done.
Qed.

(** visiting every key once visits everything *)
Lemma collect_visit m (ks : list K) :
  NoDup ks -> (forall k, is_Some (m !! k) -> k ∈ ks) ->
  concat (map (fun k => f (default dflt (m !! k))) ks) ≡ₚ collect m.
Proof.
  revert m. induction ks as [|k ks IH]; intros m Hnd Hin.
  - cbn. assert (m = ∅) as ->.
    { apply map_eq. intros k. rewrite lookup_empty. apply eq_None_not_Some. intros Hs. by apply Hin, elem_of_nil in Hs. }
    unfold collect. by rewrite map_to_list_empty.
  - apply list.NoDup_cons in Hnd as [Hk Hnd]. cbn [map concat]. rewrite (collect_split m k). f_equiv.
    rewrite <- (IH (delete k m)); [| done |].
    + apply eq_subrelation; [apply _ |]. f_equal. apply map_ext_in. intros k' Hk'.
      rewrite lookup_delete_ne; [done |]. intros ->. apply Hk. by apply list_elem_of_In.
    + intros k' [c Hc]. apply lookup_delete_Some in Hc as [Hne Hc].
      assert (k' ∈ k :: ks) as Hin' by (apply Hin; eauto). apply elem_of_cons in Hin' as [-> | ?]; done.
Qed.
End Collect.
