(* ===== verification/Words.v ===== *)
(** * Words: arithmetic of 32- and 64-bit words and of byte strings

    The lemmas the protocol files share: disjoint [lor] as addition,
    injectivity of the word operations the hash functions are built from
    (xor-shift, multiplication by an odd constant, rotation), and the
    little- and big-endian readings of byte strings with their inverses. *)

From S2P Require Import Prelude.

(** ** Definitions *)

(** the value of a byte string, least and most significant byte first *)
Fixpoint le_combine (l : list Z) : Z :=
  match l with
  | [] => 0
  | b :: t => b + 256 * le_combine t
  end.

Definition be_combine (l : list Z) : Z := fold_left (fun acc b => acc * 256 + b) l 0.

(** the [n] big-endian bytes of a value *)
Fixpoint be_split (n : nat) (v : Z) : list Z :=
  match n with
  | O => []
  | S n => be_split n (v / 256) ++ [v mod 256]
  end.

(** ** Disjoint lor *)
Lemma testbit_high x n i : 0 <= x < 2 ^ n -> 0 <= n <= i -> Z.testbit x i = false.
Proof.
  intros Hx Hi. rewrite <- (Z.mod_small x (2 ^ n)) by done.
  apply Z.mod_pow2_bits_high. lia.
Qed.

Lemma land_shiftl_low a b n : 0 <= n -> 0 <= b < 2 ^ n -> Z.land (Z.shiftl a n) b = 0.
Proof.
  intros Hn Hb. apply Z.bits_inj'. intros i Hi. rewrite Z.land_spec, Z.bits_0.
  destruct (Z_lt_le_dec i n) as [Hlt|Hge].
  - rewrite Z.shiftl_spec_low by done. done.
  - rewrite (testbit_high b n i) by lia. apply andb_false_r.
Qed.

Lemma lor_shiftl_add a b n : 0 <= n -> 0 <= b < 2 ^ n -> Z.lor (Z.shiftl a n) b = a * 2 ^ n + b.
Proof.
  intros Hn Hb. pose proof (land_shiftl_low a b n Hn Hb) as Hl.
  rewrite <- Z.lxor_lor by done. rewrite <- Z.add_nocarry_lxor by done.
  rewrite Z.shiftl_mul_pow2 by done. done.
Qed.

Lemma lor_mul_add a b n : 0 <= n -> 0 <= b < 2 ^ n -> Z.lor (a * 2 ^ n) b = a * 2 ^ n + b.
Proof. intros. rewrite <- lor_shiftl_add, Z.shiftl_mul_pow2 by lia. done. Qed.

Lemma lor_add_high a b n : 0 <= n -> 0 <= b < 2 ^ n -> Z.lor b (Z.shiftl a n) = b + a * 2 ^ n.
Proof. intros. rewrite Z.lor_comm, lor_shiftl_add by done. lia. Qed.

(** ** Bounds of bitwise operations *)
Lemma bits_bound x n : 0 <= n -> (forall i, n <= i -> Z.testbit x i = false) -> 0 <= x < 2 ^ n.
Proof.
  intros Hn Hb.
  assert (Hx : x = x mod 2 ^ n).
  { apply Z.bits_inj'. intros i Hi. destruct (Z_lt_le_dec i n).
    - rewrite Z.mod_pow2_bits_low by lia. done.
    - rewrite Z.mod_pow2_bits_high by lia. apply Hb. lia. }
  rewrite Hx. apply Z.mod_pos_bound. apply Z.pow_pos_nonneg; lia.
Qed.

Lemma lxor_range n x y : 0 <= n -> 0 <= x < 2 ^ n -> 0 <= y < 2 ^ n -> 0 <= Z.lxor x y < 2 ^ n.
Proof.
  intros Hn Hx Hy. apply bits_bound; [done |]. intros i Hi.
  rewrite Z.lxor_spec, (testbit_high x n), (testbit_high y n) by lia. done.
Qed.

Lemma lor_range n x y : 0 <= n -> 0 <= x < 2 ^ n -> 0 <= y < 2 ^ n -> 0 <= Z.lor x y < 2 ^ n.
Proof.
  intros Hn Hx Hy. apply bits_bound; [done |]. intros i Hi.
  rewrite Z.lor_spec, (testbit_high x n), (testbit_high y n) by lia. done.
Qed.

Lemma shiftr_range n x k : 0 <= k -> 0 <= x < 2 ^ n -> 0 <= Z.shiftr x k < 2 ^ n.
Proof.
  intros Hk Hx. rewrite Z.shiftr_div_pow2 by lia. split.
  - apply Z.div_pos; [lia |]. apply Z.pow_pos_nonneg; lia.
  - apply Z.le_lt_trans with x; [| lia]. apply Z.div_le_upper_bound.
    + apply Z.pow_pos_nonneg; lia.
    + assert (1 <= 2 ^ k) by (apply (Z.pow_le_mono_r 2 0 k); lia). nia.
Qed.

(** ** Injectivity *)
Lemma lxor_cancel_r x y z : Z.lxor x z = Z.lxor y z -> x = y.
Proof.
  intros H. apply (f_equal (fun w => Z.lxor w z)) in H.
  rewrite !Z.lxor_assoc, Z.lxor_nilpotent, !Z.lxor_0_r in H. done.
Qed.
Lemma lxor_cancel_l x y z : Z.lxor z x = Z.lxor z y -> x = y.
Proof. rewrite !(Z.lxor_comm z). apply lxor_cancel_r. Qed.

(** a number equal to its own right shift is zero *)
Lemma shiftr_fixed z k : 0 <= z -> 0 < k -> Z.shiftr z k = z -> z = 0.
Proof.
  intros Hz Hk H. rewrite Z.shiftr_div_pow2 in H by lia.
  destruct (Z.eq_dec z 0); [done | exfalso].
  assert (2 <= 2 ^ k) by (apply (Z.pow_le_mono_r 2 1 k); lia).
  assert (z / 2 ^ k < z) by (apply Z.div_lt; lia). lia.
Qed.

(** [x ^= x >> k] loses nothing *)
Lemma xorshift_inj x y k :
  0 <= x -> 0 <= y -> 0 < k ->
  Z.lxor x (Z.shiftr x k) = Z.lxor y (Z.shiftr y k) -> x = y.
Proof.
  intros Hx Hy Hk H. apply Z.lxor_eq.
  apply (shiftr_fixed _ k); [by apply Z.lxor_nonneg; split; intros | done |].
  rewrite Z.shiftr_lxor. apply Z.lxor_eq.
  rewrite (Z.lxor_comm x y), <- (Z.lxor_assoc _ y x), (Z.lxor_assoc (Z.shiftr x k)), (Z.lxor_comm (Z.shiftr y k) y).
  rewrite <- H, (Z.lxor_comm x (Z.shiftr x k)), <- Z.lxor_assoc, Z.lxor_nilpotent, Z.lxor_0_l.
  apply Z.lxor_nilpotent.
Qed.

(** multiplication by a unit of Z/2^64, addition and xor of a constant *)
Lemma u64_mul_inj c c' x y :
  (c * c') mod 2 ^ 64 = 1 ->
  0 <= x < 2 ^ 64 -> 0 <= y < 2 ^ 64 -> u64 (x * c) = u64 (y * c) -> x = y.
Proof.
  intros Hc Hx Hy H. unfold u64 in H.
  assert (E : forall z, 0 <= z < 2 ^ 64 -> ((z * c) mod 2 ^ 64 * c') mod 2 ^ 64 = z).
  { intros z Hz. rewrite Z.mul_mod_idemp_l by lia.
    rewrite <- Z.mul_assoc, <- Z.mul_mod_idemp_r, Hc, Z.mul_1_r by lia.
    apply Z.mod_small. done. }
  rewrite <- (E x Hx), <- (E y Hy), H. done.
Qed.

Lemma u64_add_inj c x y :
  0 <= x < 2 ^ 64 -> 0 <= y < 2 ^ 64 -> u64 (x + c) = u64 (y + c) -> x = y.
Proof.
  intros Hx Hy H. unfold u64 in H.
  assert (E : forall z, 0 <= z < 2 ^ 64 -> ((z + c) mod 2 ^ 64 - c) mod 2 ^ 64 = z).
  { intros z Hz. rewrite Zminus_mod_idemp_l.
    replace (z + c - c) with z by lia. apply Z.mod_small. done. }
  rewrite <- (E x Hx), <- (E y Hy), H. done.
Qed.

(** ** Byte strings as numbers *)
Lemma le_combine_range l : bytes_ok l -> 0 <= le_combine l < 256 ^ zlen l.
Proof.
  induction 1 as [|b l Hb _ IH]; cbn [le_combine].
  - change (256 ^ zlen []) with 1. lia.
  - rewrite zlen_cons, Z.pow_add_r by (pose proof (zlen_nonneg l); lia).
    unfold byte_ok in Hb. lia.
Qed.

Lemma le_combine_inj l k :
  bytes_ok l -> bytes_ok k -> length l = length k -> le_combine l = le_combine k -> l = k.
Proof.
  intros Hl. revert k. induction Hl as [|b l Hb _ IH]; intros [|c k] Hk Hlen H; try done.
  apply Forall_cons_1 in Hk as [Hc Hk]. cbn [le_combine] in H. unfold byte_ok in *.
  assert (b = c /\ le_combine l = le_combine k) as [-> Hr] by lia.
  f_equal. apply IH; [done | cbn in Hlen; lia | done].
Qed.

Lemma le_combine_app l k : le_combine (l ++ k) = le_combine l + 256 ^ zlen l * le_combine k.
Proof.
  induction l as [|b l IH]; cbn [app le_combine].
  - change (zlen []) with 0. lia.
  - rewrite IH, zlen_cons, Z.pow_add_r by (pose proof (zlen_nonneg l); lia). lia.
Qed.

Lemma be_combine_snoc l b : be_combine (l ++ [b]) = be_combine l * 256 + b.
Proof. unfold be_combine. rewrite fold_left_app. done. Qed.

Lemma be_combine_cons b l : be_combine (b :: l) = b * 256 ^ zlen l + be_combine l.
Proof.
  induction l as [|c l IH] using rev_ind.
  - change (256 ^ zlen []) with 1. unfold be_combine. cbn [fold_left]. lia.
  - change (b :: l ++ [c]) with ((b :: l) ++ [c]).
    rewrite !be_combine_snoc, IH, zlen_app, Z.pow_add_r by (pose proof (zlen_nonneg l); change (zlen [c]) with 1; lia).
    change (zlen [c]) with 1. lia.
Qed.

Lemma be_combine_range l : bytes_ok l -> 0 <= be_combine l < 256 ^ zlen l.
Proof.
  induction 1 as [|b l Hb _ IH].
  - change (be_combine []) with 0. change (256 ^ zlen []) with 1. lia.
  - rewrite be_combine_cons, zlen_cons, Z.pow_add_r by (pose proof (zlen_nonneg l); lia).
    unfold byte_ok in Hb. nia.
Qed.

Lemma length_be_split n v : length (be_split n v) = n.
Proof. revert v. induction n; intros v; cbn [be_split]; [done |]. rewrite length_app, IHn. cbn. lia. Qed.

Lemma zlen_be_split n v : zlen (be_split n v) = Z.of_nat n.
Proof. rewrite zlen_length, length_be_split. done. Qed.

Lemma be_split_ok n v : bytes_ok (be_split n v).
Proof.
  revert v. induction n; intros v; cbn [be_split]; [constructor |].
  apply bytes_ok_app. split; [apply IHn |].
  repeat constructor; apply Z.mod_pos_bound; lia.
Qed.

(** the bytes of a value that fits, read back *)
Lemma be_combine_split n v : be_combine (be_split n v) = v mod 256 ^ Z.of_nat n.
Proof.
  revert v. induction n; intros v; cbn [be_split].
  - rewrite Z.pow_0_r, Z.mod_1_r. done.
  - rewrite be_combine_snoc, IHn, Nat2Z.inj_succ, Z.pow_succ_r by lia.
    rewrite (Z.rem_mul_r v 256) by (apply Z.pow_nonzero || lia; lia). lia.
Qed.

(** every byte string is the split of its value *)
Lemma be_split_combine l : bytes_ok l -> be_split (length l) (be_combine l) = l.
Proof.
  induction l as [|b l IH] using rev_ind; intros Hl; [done |].
  apply bytes_ok_app in Hl as [Hl Hb]. apply Forall_cons_1 in Hb as [Hb _]. unfold byte_ok in Hb.
  rewrite length_app, be_combine_snoc, Nat.add_comm. cbn [length Nat.add be_split].
  replace ((be_combine l * 256 + b) / 256) with (be_combine l) by (Z.div_mod_to_equations; lia).
  replace ((be_combine l * 256 + b) mod 256) with b by (Z.div_mod_to_equations; lia).
  rewrite IH by done. done.
Qed.
#[export] Hint Resolve be_split_ok : wire.
#[export] Hint Rewrite zlen_be_split : wlen.
