(* ===== verification/CString.v ===== *)
(** * CString: the C strings the library formats and copies

    A C string is the list of its bytes before the terminator; a char buffer
    that was filled by other means is cut at its first zero by [c_str]. *)

From stdpp Require Import strings pretty.
From S2P Require Import Prelude.
#[global] Open Scope Z_scope.

Definition cstring (s : string) : list Z := map (fun a => Z.of_nat (Ascii.nat_of_ascii a)) (String.list_ascii_of_string s).

(** [snprintf(out, size, "%s", s)] *)
Definition snprintf_s (size : Z) (s : list Z) : list Z := ztake (size - 1) s.

(** the "%d" of an int *)
Definition decimal (z : Z) : list Z := cstring (pretty z).

(** what a reader of a C string sees of a buffer *)
Fixpoint c_str (buf : list Z) : list Z :=
  match buf with
  | [] => []
  | b :: rest => if b =? 0 then [] else b :: c_str rest
  end.

Lemma cstring_ok s : bytes_ok (cstring s).
Proof.
  apply Forall_map, Forall_true. intros a. unfold byte_ok. pose proof (Ascii.nat_ascii_bounded a). lia.
Qed.

Lemma c_str_length buf : zlen (c_str buf) <= zlen buf.
Proof. induction buf as [|b buf IH]; cbn [c_str]; [done |]. destruct (b =? 0); autorewrite with wlen; [pose proof (zlen_nonneg buf)|]; lia. Qed.

Lemma snprintf_s_length size s : 1 <= size -> zlen (snprintf_s size s) < size.
Proof.
  intros Hs. unfold snprintf_s, zlen, ztake. rewrite length_take. lia.
Qed.

Lemma bytes_ok_c_str buf : bytes_ok buf -> bytes_ok (c_str buf).
Proof.
  induction 1 as [|b buf Hb _ IH]; cbn [c_str]; [apply bytes_ok_nil |].
  destruct (b =? 0); [apply bytes_ok_nil | by apply bytes_ok_cons].
Qed.
#[export] Hint Resolve cstring_ok bytes_ok_c_str : wire.
