(* ===== verification/Protocol.v ===== *)
(** * Protocol: packet headers, checksum and MAC (src/protocol.c, include/wirecall/protocol.h)

    Definitions first, in the order of protocol.c; a pointer that may be NULL
    is an [option], an out-parameter the callee tests for NULL is a boolean
    that says whether it was supplied, and a buffer is the list of its bytes.
    Then the lemmas: big-endian fields, the header codec, injectivity of the
    64-bit mixing functions, and SipHash-2-4 as a reference for the streaming
    MAC. *)

From S2P Require Import Prelude Words.

Definition WIRECALL_HEADER_SIZE : Z := 34.
Definition WIRECALL_MAX_PAYLOAD_SIZE : Z := 1024 * 1024.

Definition WIRECALL_INTEGRITY_NONE : Z := 0.
Definition WIRECALL_INTEGRITY_CHECKSUM : Z := Z.shiftl 1 0.
Definition WIRECALL_INTEGRITY_MAC : Z := Z.shiftl 1 1.
Definition WIRECALL_INTEGRITY_DEFAULT : Z := WIRECALL_INTEGRITY_CHECKSUM.

Inductive wirecall_op :=
| WIRECALL_OP_RPC
| WIRECALL_OP_PING
| WIRECALL_OP_DISCONNECT
| WIRECALL_OP_RESPONSE
| WIRECALL_OP_ERROR.

(** the enumerator values; a C enum object can hold any other integer too,
    so the [op] field of a header is the integer *)
Definition op_code (op : wirecall_op) : Z :=
  match op with
  | WIRECALL_OP_RPC => 1
  | WIRECALL_OP_PING => 2
  | WIRECALL_OP_DISCONNECT => 3
  | WIRECALL_OP_RESPONSE => 4
  | WIRECALL_OP_ERROR => 5
  end.

Definition WIRECALL_FLAG_NONE : Z := 0.
Definition WIRECALL_FLAG_MORE : Z := Z.shiftl 1 0.

Record wirecall_header := {
  h_op : Z;
  h_flags : Z;
  h_proc_id : Z;
  h_size : Z;
  h_call_id : Z;
  h_checksum : Z;
  h_mac : Z;
}.

#[global] Instance wirecall_header_eq_dec : EqDecision wirecall_header.
Proof. solve_decision. Defined.

Definition set_checksum (h : wirecall_header) (c : Z) : wirecall_header :=
  {| h_op := h_op h; h_flags := h_flags h; h_proc_id := h_proc_id h; h_size := h_size h;
     h_call_id := h_call_id h; h_checksum := c; h_mac := h_mac h |}.
Definition set_mac (h : wirecall_header) (m : Z) : wirecall_header :=
  {| h_op := h_op h; h_flags := h_flags h; h_proc_id := h_proc_id h; h_size := h_size h;
     h_call_id := h_call_id h; h_checksum := h_checksum h; h_mac := m |}.

(** ** Procedure identifiers *)

(** the loop over the characters of the string, which the list holds up to
    its terminator: xor the character in, multiply by the FNV prime *)
Fixpoint proc_id_loop (hash : Z) (name : list Z) : Z :=
  match name with
  | [] => hash
  | c :: rest =>
      if u8 c =? 0 then hash
      else proc_id_loop (u64 (Z.lxor hash (u8 c) * 1099511628211)) rest
  end.

Definition wirecall_proc_id (name : option (list Z)) : Z :=
  match name with
  | None => 0
  | Some name =>
      let hash := proc_id_loop 14695981039346656037 name in
      if hash =? 0 then 1 else hash
  end.

(** ** Big-endian fields *)
Definition put_u32 (value : Z) : list Z :=
  [u8 (Z.shiftr value 24); u8 (Z.shiftr value 16); u8 (Z.shiftr value 8); u8 value].

(** [for (i = 7; i >= 0; --i) out[7 - i] = value >> (i * 8)] *)
Definition put_u64 (value : Z) : list Z :=
  map (fun i => u8 (Z.shiftr value (i * 8))) [7; 6; 5; 4; 3; 2; 1; 0].

Definition get_u32 (in_ : list Z) : res Z :=
  match in_ with
  | b0 :: b1 :: b2 :: b3 :: _ =>
      Ok (Z.lor (Z.lor (Z.lor (u32 (Z.shiftl b0 24)) (u32 (Z.shiftl b1 16))) (u32 (Z.shiftl b2 8))) b3)
  | _ => UB
  end.

Fixpoint get_u64_loop (n : nat) (value : Z) (in_ : list Z) : res Z :=
  match n with
  | O => Ok value
  | S n =>
      match in_ with
      | b :: rest => get_u64_loop n (Z.lor (u64 (Z.shiftl value 8)) b) rest
      | [] => UB
      end
  end.

Definition get_u64 (in_ : list Z) : res Z := get_u64_loop 8 0 in_.

(** memcpy of at most eight bytes into a zeroed uint64_t: the value depends
    on the byte order of the host *)
Definition get_u64_native `{Host} (in_ : list Z) : Z :=
  match host_endian with
  | LittleEndian => le_combine in_
  | BigEndian => be_combine (in_ ++ zreplicate (8 - zlen in_) 0)
  end.

(** ** The checksum *)
Definition rotl64 (value shift : Z) : Z :=
  Z.lor (u64 (Z.shiftl value shift)) (Z.shiftr value (64 - shift)).

Definition mix64 (value : Z) : Z :=
  let value := Z.lxor value (Z.shiftr value 30) in
  let value := u64 (value * 0xbf58476d1ce4e5b9) in
  let value := Z.lxor value (Z.shiftr value 27) in
  let value := u64 (value * 0x94d049bb133111eb) in
  Z.lxor value (Z.shiftr value 31).

Definition packet_seed (header : wirecall_header) : Z :=
  let meta := Z.lor (Z.lor (u64 (Z.shiftl (u8 (h_op header)) 56)) (u64 (Z.shiftl (h_flags header) 48)))
                    (u64 (Z.shiftl (h_size header) 16)) in
  mix64 (Z.lxor (Z.lxor (Z.lxor 0x9e3779b97f4a7c15 meta) (rotl64 (h_proc_id header) 17))
                (rotl64 (h_call_id header) 41)).

(** one absorption step: xor a mixed word in, rotate, multiply, add *)
Definition cheap_hash_step (hash word : Z) : Z :=
  let hash := Z.lxor hash (mix64 word) in
  u64 (u64 (rotl64 hash 27 * 0x3c79ac492ba7b653) + 0x1c69b3f74ac4ae35).

(** [while (len >= 8)]: the hash and what is left of the data *)
Fixpoint cheap_hash_words `{Host} (hash : Z) (data : list Z) : Z * list Z :=
  match data with
  | b0 :: b1 :: b2 :: b3 :: b4 :: b5 :: b6 :: b7 :: rest =>
      cheap_hash_words
        (cheap_hash_step hash (u64 (get_u64_native [b0; b1; b2; b3; b4; b5; b6; b7] + 0x9e3779b97f4a7c15)))
        rest
  | _ => (hash, data)
  end.

Definition cheap_hash_update `{Host} (hash : Z) (data : list Z) : Z :=
  let '(hash, rest) := cheap_hash_words hash data in
  let hash :=
    match rest with
    | [] => hash
    | _ => cheap_hash_step hash (Z.lxor (get_u64_native rest) (u64 (Z.shiftl (zlen rest) 56)))
    end in
  mix64 hash.

(** ** SipHash-2-4, streaming *)
Record sip_state := { v0 : Z; v1 : Z; v2 : Z; v3 : Z }.

Definition sip_load64 `{Host} (in_ : list Z) : Z := get_u64_native in_.

Definition sip_round (s : sip_state) : sip_state :=
  let '{| v0 := v0; v1 := v1; v2 := v2; v3 := v3 |} := s in
  let v0 := u64 (v0 + v1) in
  let v1 := rotl64 v1 13 in
  let v1 := Z.lxor v1 v0 in
  let v0 := rotl64 v0 32 in
  let v2 := u64 (v2 + v3) in
  let v3 := rotl64 v3 16 in
  let v3 := Z.lxor v3 v2 in
  let v0 := u64 (v0 + v3) in
  let v3 := rotl64 v3 21 in
  let v3 := Z.lxor v3 v0 in
  let v2 := u64 (v2 + v1) in
  let v1 := rotl64 v1 17 in
  let v1 := Z.lxor v1 v2 in
  let v2 := rotl64 v2 32 in
  {| v0 := v0; v1 := v1; v2 := v2; v3 := v3 |}.

Definition xor_v0 (s : sip_state) (m : Z) : sip_state :=
  {| v0 := Z.lxor (v0 s) m; v1 := v1 s; v2 := v2 s; v3 := v3 s |}.
Definition xor_v2 (s : sip_state) (m : Z) : sip_state :=
  {| v0 := v0 s; v1 := v1 s; v2 := Z.lxor (v2 s) m; v3 := v3 s |}.
Definition xor_v3 (s : sip_state) (m : Z) : sip_state :=
  {| v0 := v0 s; v1 := v1 s; v2 := v2 s; v3 := Z.lxor (v3 s) m |}.

Definition sip_compress (s : sip_state) (m : Z) : sip_state :=
  xor_v0 (sip_round (sip_round (xor_v3 s m))) m.

(** the locals of wirecall_packet_mac that sip_update works on *)
Record sip_ctx := { sip_v : sip_state; total_len : Z; tail_word : Z; tail_len : Z }.

(** [while (len > 0 && tail_len < 8)]: move bytes into the tail *)
Fixpoint sip_fill (tail tail_len : Z) (data : list Z) : Z * Z * list Z :=
  match data with
  | b :: rest =>
      if tail_len <? 8
      then sip_fill (Z.lor tail (u64 (Z.shiftl b (tail_len * 8)))) (tail_len + 1) rest
      else (tail, tail_len, data)
  | [] => (tail, tail_len, [])
  end.

(** [while (len >= 8)]: compress whole words *)
Fixpoint sip_words `{Host} (s : sip_state) (data : list Z) : sip_state * list Z :=
  match data with
  | b0 :: b1 :: b2 :: b3 :: b4 :: b5 :: b6 :: b7 :: rest =>
      sip_words (sip_compress s (sip_load64 [b0; b1; b2; b3; b4; b5; b6; b7])) rest
  | _ => (s, data)
  end.

(** [while (len > 0)]: the bytes left over go into the tail *)
Fixpoint sip_rest (tail tail_len : Z) (data : list Z) : Z * Z :=
  match data with
  | b :: rest => sip_rest (Z.lor tail (u64 (Z.shiftl b (tail_len * 8)))) (tail_len + 1) rest
  | [] => (tail, tail_len)
  end.

Definition sip_update `{Host} (c : sip_ctx) (data : list Z) : sip_ctx :=
  let total := u64 (total_len c + zlen data) in
  let '(s, tail, tlen, data) :=
    if tail_len c =? 0 then (sip_v c, tail_word c, tail_len c, data)
    else
      let '(tail, tlen, data) := sip_fill (tail_word c) (tail_len c) data in
      if tlen =? 8 then (sip_compress (sip_v c) tail, 0, 0, data)
      else (sip_v c, tail, tlen, data) in
  let '(s, data) := sip_words s data in
  let '(tail, tlen) := sip_rest tail tlen data in
  {| sip_v := s; total_len := total; tail_word := tail; tail_len := tlen |}.

(** ** The header codec *)
Definition valid_op (op : Z) : bool :=
  (op =? op_code WIRECALL_OP_RPC) || (op =? op_code WIRECALL_OP_PING) ||
  (op =? op_code WIRECALL_OP_DISCONNECT) || (op =? op_code WIRECALL_OP_RESPONSE) ||
  (op =? op_code WIRECALL_OP_ERROR).

Definition wirecall_header_encode (header : option wirecall_header) (out : bool) : res (list Z) :=
  match header with
  | None => Err
  | Some header =>
      if negb out || negb (valid_op (u8 (h_op header))) ||
         (WIRECALL_MAX_PAYLOAD_SIZE <? h_size header)
      then Err
      else Ok ([u8 (h_op header); h_flags header] ++ put_u64 (h_proc_id header) ++
               put_u32 (h_size header) ++ put_u64 (h_call_id header) ++
               put_u32 (h_checksum header) ++ put_u64 (h_mac header))
  end.

Definition wirecall_header_decode (in_ : option (list Z)) (out : bool) : res wirecall_header :=
  match in_ with
  | None => Err
  | Some in_ =>
      if negb out then Err
      else match in_ with
      | op :: rest =>
          if negb (valid_op op) then Err
          else match rest with
          | flags :: _ =>
              let? proc_id := get_u64 (zdrop 2 in_) in
              let? size := get_u32 (zdrop 10 in_) in
              let? call_id := get_u64 (zdrop 14 in_) in
              let? checksum := get_u32 (zdrop 22 in_) in
              let? mac := get_u64 (zdrop 26 in_) in
              if WIRECALL_MAX_PAYLOAD_SIZE <? size then Err
              else Ok {| h_op := op; h_flags := flags; h_proc_id := proc_id; h_size := size;
                         h_call_id := call_id; h_checksum := checksum; h_mac := mac |}
          | [] => UB
          end
      | [] => UB
      end
  end.

(** the [len] bytes at a pointer *)
Definition buffer_bytes (p : option (list Z)) (len : Z) : res (list Z) :=
  match p with
  | None => if len =? 0 then Ok [] else UB
  | Some l => if len <=? zlen l then Ok (ztake len l) else UB
  end.

(** [!header || (!payload && payload_len > 0) || payload_len > MAX], less the
    test of the header *)
Definition bad_payload (payload : option (list Z)) (payload_len : Z) : bool :=
  (match payload with None => 0 <? payload_len | Some _ => false end) ||
  (WIRECALL_MAX_PAYLOAD_SIZE <? payload_len).

Definition wirecall_packet_checksum `{Host} (header : option wirecall_header)
    (payload : option (list Z)) (payload_len : Z) : res Z :=
  match header with
  | None => Ok 0
  | Some header =>
      if bad_payload payload payload_len then Ok 0
      else
        let? data := buffer_bytes payload payload_len in
        let hash := Z.lxor (packet_seed header) 0xa0761d6478bd642f in
        let hash := cheap_hash_update hash data in
        Ok (u32 (Z.lxor hash (Z.shiftr hash 32)))
  end.

(** the 30 header bytes the MAC covers *)
Definition mac_meta (header : wirecall_header) (payload_len : Z) : list Z :=
  [u8 (h_op header); h_flags header] ++ put_u64 (h_proc_id header) ++ put_u32 (h_size header) ++
  put_u64 (h_call_id header) ++ put_u32 (h_checksum header) ++ put_u32 (u32 payload_len).

Definition sip_init (k0 k1 : Z) : sip_state :=
  {| v0 := Z.lxor 0x736f6d6570736575 k0; v1 := Z.lxor 0x646f72616e646f6d k1;
     v2 := Z.lxor 0x6c7967656e657261 k0; v3 := Z.lxor 0x7465646279746573 k1 |}.

Definition sip_output (s : sip_state) : Z :=
  Z.lxor (Z.lxor (Z.lxor (v0 s) (v1 s)) (v2 s)) (v3 s).

Definition sip_finish (s : sip_state) : Z :=
  sip_output (sip_round (sip_round (sip_round (sip_round (xor_v2 s 0xff))))).

Definition wirecall_packet_mac `{Host} (header : option wirecall_header)
    (payload : option (list Z)) (payload_len : Z) (key : option (list Z)) : res Z :=
  match header, key with
  | Some header, Some key =>
      if bad_payload payload payload_len then Ok 0
      else
        let? kbytes := buffer_bytes (Some key) 16 in
        let? data := buffer_bytes payload payload_len in
        let k0 := sip_load64 (ztake 8 kbytes) in
        let k1 := sip_load64 (zdrop 8 kbytes) in
        let c := {| sip_v := sip_init k0 k1; total_len := 0; tail_word := 0; tail_len := 0 |} in
        let c := sip_update c (mac_meta header payload_len) in
        let c := sip_update c data in
        let s := sip_compress (sip_v c) (Z.lor (tail_word c) (u64 (Z.shiftl (total_len c) 56))) in
        Ok (sip_finish s)
  | _, _ => Ok 0
  end.

(** ** Signing and verification *)
Definition has_flag (integrity flag : Z) : bool := negb (Z.land integrity flag =? 0).

(** the guard both functions start with *)
Definition bad_packet (header : wirecall_header) (payload : option (list Z)) (payload_len integrity : Z)
    (mac_key : option (list Z)) : bool :=
  bad_payload payload payload_len || negb (h_size header =? payload_len) ||
  (has_flag integrity WIRECALL_INTEGRITY_MAC && match mac_key with None => true | Some _ => false end).

Definition wirecall_packet_sign_ex `{Host} (header : option wirecall_header)
    (payload : option (list Z)) (payload_len integrity : Z) (mac_key : option (list Z)) : res wirecall_header :=
  match header with
  | None => Err
  | Some header =>
      if bad_packet header payload payload_len integrity mac_key then Err
      else
        let? checksum :=
          if has_flag integrity WIRECALL_INTEGRITY_CHECKSUM
          then wirecall_packet_checksum (Some header) payload payload_len else Ok 0 in
        let header := set_checksum header checksum in
        let? mac :=
          if has_flag integrity WIRECALL_INTEGRITY_MAC
          then wirecall_packet_mac (Some header) payload payload_len mac_key else Ok 0 in
        Ok (set_mac header mac)
  end.

Definition wirecall_packet_verify_ex `{Host} (header : option wirecall_header)
    (payload : option (list Z)) (payload_len integrity : Z) (mac_key : option (list Z)) : res unit :=
  match header with
  | None => Err
  | Some header =>
      if bad_packet header payload payload_len integrity mac_key then Err
      else
        let? checksum_ok :=
          if has_flag integrity WIRECALL_INTEGRITY_CHECKSUM
          then let? c := wirecall_packet_checksum (Some header) payload payload_len in
               Ok (c =? h_checksum header)
          else Ok true in
        if negb checksum_ok then Err
        else
          let? mac_ok :=
            if has_flag integrity WIRECALL_INTEGRITY_MAC
            then let? m := wirecall_packet_mac (Some header) payload payload_len mac_key in
                 Ok (m =? h_mac header)
            else Ok true in
          if negb mac_ok then Err else Ok tt
  end.

Definition wirecall_packet_sign `{Host} (header : option wirecall_header)
    (payload : option (list Z)) (payload_len : Z) : res wirecall_header :=
  wirecall_packet_sign_ex header payload payload_len WIRECALL_INTEGRITY_DEFAULT None.

Definition wirecall_packet_verify `{Host} (header : option wirecall_header)
    (payload : option (list Z)) (payload_len : Z) : res unit :=
  wirecall_packet_verify_ex header payload payload_len WIRECALL_INTEGRITY_DEFAULT None.

(** ** Well-formed headers: the fields fit their C types *)
Definition header_ok (h : wirecall_header) : Prop :=
  valid_op (h_op h) = true /\ 0 <= h_flags h < 256 /\ 0 <= h_proc_id h < 2 ^ 64 /\
  0 <= h_size h <= WIRECALL_MAX_PAYLOAD_SIZE /\ 0 <= h_call_id h < 2 ^ 64 /\
  0 <= h_checksum h < 2 ^ 32 /\ 0 <= h_mac h < 2 ^ 64.

#[global] Instance header_ok_dec h : Decision (header_ok h).
Proof. unfold header_ok. apply _. Defined.

(** ** Big-endian fields *)
Lemma put_u32_split v : put_u32 v = be_split 4 v.
Proof.
  unfold put_u32, u8. cbn [be_split app].
  rewrite !Z.shiftr_div_pow2 by lia. rewrite !Z.div_div by lia. done.
Qed.

Lemma put_u64_split v : put_u64 v = be_split 8 v.
Proof.
  unfold put_u64, u8. cbn [be_split app map].
  rewrite !Z.shiftr_div_pow2 by lia. rewrite !Z.div_div by lia.
  change (2 ^ (0 * 8)) with 1. rewrite Z.div_1_r. done.
Qed.

Lemma get_u32_combine l :
  bytes_ok l -> get_u32 l = if 4 <=? zlen l then Ok (be_combine (ztake 4 l)) else UB.
Proof.
  intros Hl. destruct l as [|b0 [|b1 [|b2 [|b3 rest]]]]; try done.
  repeat (apply Forall_cons_1 in Hl as [?Hb Hl]). unfold byte_ok in *.
  replace (4 <=? zlen (b0 :: b1 :: b2 :: b3 :: rest)) with true
    by (symmetry; apply Z.leb_le; rewrite !zlen_cons; pose proof (zlen_nonneg rest); lia).
  unfold get_u32. change (ztake 4 (b0 :: b1 :: b2 :: b3 :: rest)) with [b0; b1; b2; b3].
  rewrite !u32_small by (rewrite Z.shiftl_mul_pow2 by lia; lia).
  f_equal. rewrite <- !Z.lor_assoc.
  rewrite (lor_shiftl_add b2 b3) by lia.
  rewrite (lor_shiftl_add b1) by lia. rewrite lor_shiftl_add by lia.
  unfold be_combine. cbn [fold_left]. lia.
Qed.

Lemma get_u64_loop_combine n value l :
  bytes_ok l -> 0 <= value -> value * 256 ^ Z.of_nat n < 2 ^ 64 -> (n <= length l)%nat ->
  Z.of_nat n <= 8 ->
  get_u64_loop n value l = Ok (value * 256 ^ Z.of_nat n + be_combine (take n l)).
Proof.
  revert value l. induction n as [|n IH]; intros value l Hl Hv Hb Hn H8.
  - cbn [get_u64_loop]. f_equal. change (256 ^ Z.of_nat 0) with 1. change (be_combine (take 0 l)) with 0. lia.
  - destruct l as [|b l]; [cbn in Hn; lia |].
    apply Forall_cons_1 in Hl as [Hbt Hl]. unfold byte_ok in Hbt.
    cbn [get_u64_loop firstn length] in *.
    rewrite Nat2Z.inj_succ, Z.pow_succ_r in * by lia.
    assert (Hp : 0 < 256 ^ Z.of_nat n) by (apply Z.pow_pos_nonneg; lia).
    rewrite u64_small by (rewrite Z.shiftl_mul_pow2 by lia; nia).
    rewrite lor_shiftl_add by lia. change (2 ^ 8) with 256.
    destruct (Z.eq_dec value 0) as [->|Hv0].
    + rewrite IH; try done; try lia.
      * rewrite be_combine_cons, zlen_length, length_take, Nat.min_l by lia. f_equal; lia.
      * assert (256 ^ Z.of_nat n <= 256 ^ 7) by (apply Z.pow_le_mono_r; lia). nia.
    + rewrite IH; try done; try lia.
      * rewrite be_combine_cons, zlen_length, length_take, Nat.min_l by lia. f_equal; lia.
      * assert (256 ^ Z.of_nat n * (value * 256) + 256 ^ Z.of_nat n * b < 2 ^ 64); [| lia].
        assert (Hd : 2 ^ 64 = 256 ^ Z.of_nat n * 256 ^ (8 - Z.of_nat n)).
        { rewrite <- Z.pow_add_r by lia. replace (Z.of_nat n + (8 - Z.of_nat n)) with 8 by lia. done. }
        assert (256 ^ (8 - Z.of_nat n) = 256 * 256 ^ (7 - Z.of_nat n)).
        { rewrite <- Z.pow_succ_r by lia. f_equal. lia. }
        assert (value < 256 ^ (7 - Z.of_nat n)) by nia. nia.
Qed.

Lemma get_u64_combine l :
  bytes_ok l -> get_u64 l = if 8 <=? zlen l then Ok (be_combine (ztake 8 l)) else UB.
Proof.
  intros Hl. unfold get_u64. rewrite zlen_length. destruct (8 <=? Z.of_nat (length l)) eqn:E; zb.
  - rewrite get_u64_loop_combine by (done || lia). done.
  - do 8 (destruct l as [|? l]; [done |]). cbn [length] in E. lia.
Qed.

Lemma get_u32_put v rest : 0 <= v < 2 ^ 32 -> bytes_ok rest -> get_u32 (put_u32 v ++ rest) = Ok v.
Proof.
  intros Hv Hr. rewrite put_u32_split, get_u32_combine
    by (apply bytes_ok_app; split; [apply be_split_ok | done]).
  rewrite zlen_app, zlen_be_split, ztake_app_eq by (rewrite zlen_be_split; done).
  pose proof (zlen_nonneg rest).
  replace (4 <=? _) with true by (symmetry; apply Z.leb_le; lia).
  rewrite be_combine_split. f_equal. apply Z.mod_small. exact Hv.
Qed.

Lemma get_u64_put v rest : 0 <= v < 2 ^ 64 -> bytes_ok rest -> get_u64 (put_u64 v ++ rest) = Ok v.
Proof.
  intros Hv Hr. rewrite put_u64_split, get_u64_combine
    by (apply bytes_ok_app; split; [apply be_split_ok | done]).
  rewrite zlen_app, zlen_be_split, ztake_app_eq by (rewrite zlen_be_split; done).
  pose proof (zlen_nonneg rest).
  replace (8 <=? _) with true by (symmetry; apply Z.leb_le; lia).
  rewrite be_combine_split. f_equal. apply Z.mod_small. exact Hv.
Qed.

Lemma put_u32_ok v : bytes_ok (put_u32 v).
Proof. rewrite put_u32_split. apply be_split_ok. Qed.
Lemma put_u64_ok v : bytes_ok (put_u64 v).
Proof. rewrite put_u64_split. apply be_split_ok. Qed.
Lemma zlen_put_u32 v : zlen (put_u32 v) = 4.
Proof. done. Qed.
Lemma zlen_put_u64 v : zlen (put_u64 v) = 8.
Proof. done. Qed.
#[export] Hint Resolve put_u32_ok put_u64_ok : wire.
#[export] Hint Rewrite zlen_put_u32 zlen_put_u64 : wlen.

(** ** The header codec *)
Definition header_bytes (h : wirecall_header) : list Z :=
  [h_op h; h_flags h] ++ put_u64 (h_proc_id h) ++ put_u32 (h_size h) ++ put_u64 (h_call_id h) ++
  put_u32 (h_checksum h) ++ put_u64 (h_mac h).

Lemma valid_op_range op : valid_op op = true -> 1 <= op <= 5.
Proof. unfold valid_op, op_code. rewrite !orb_true_iff, !Z.eqb_eq. lia. Qed.

Lemma zlen_header_bytes h : zlen (header_bytes h) = WIRECALL_HEADER_SIZE.
Proof. done. Qed.
#[export] Hint Rewrite zlen_header_bytes : wlen.

Lemma header_bytes_ok h : header_ok h -> bytes_ok (header_bytes h).
Proof.
  intros (Hop & Hf & _). apply valid_op_range in Hop. unfold header_bytes.
  apply bytes_ok_app. split.
  - repeat constructor; unfold byte_ok; lia.
  - repeat (apply bytes_ok_app; split); auto with wire.
Qed.

Lemma header_encode_ok h :
  header_ok h -> wirecall_header_encode (Some h) true = Ok (header_bytes h).
Proof.
  intros (Hop & Hf & _ & Hs & _). unfold wirecall_header_encode, header_bytes.
  pose proof (valid_op_range _ Hop). rewrite u8_small by lia. rewrite Hop.
  replace (WIRECALL_MAX_PAYLOAD_SIZE <? h_size h) with false by (symmetry; apply Z.ltb_ge; lia).
  done.
Qed.

(** 34 arbitrary bytes, read as a header *)
Definition raw_header_ok (h : wirecall_header) : Prop :=
  0 <= h_op h < 256 /\ 0 <= h_flags h < 256 /\ 0 <= h_proc_id h < 2 ^ 64 /\
  0 <= h_size h < 2 ^ 32 /\ 0 <= h_call_id h < 2 ^ 64 /\
  0 <= h_checksum h < 2 ^ 32 /\ 0 <= h_mac h < 2 ^ 64.

#[global] Instance raw_header_ok_dec h : Decision (raw_header_ok h).
Proof. unfold raw_header_ok. apply _. Defined.

Lemma header_ok_raw h : header_ok h -> raw_header_ok h.
Proof.
  unfold header_ok, raw_header_ok, WIRECALL_MAX_PAYLOAD_SIZE. intros (Hop & ?).
  apply valid_op_range in Hop. lia.
Qed.

Lemma header_decode_raw h rest :
  raw_header_ok h -> bytes_ok rest ->
  wirecall_header_decode (Some (header_bytes h ++ rest)) true =
  if valid_op (h_op h) && (h_size h <=? WIRECALL_MAX_PAYLOAD_SIZE) then Ok h else Err.
Proof.
  intros (Hop & Hf & Hp & Hs & Hc & Hk & Hm) Hr.
  set (p := put_u64 (h_proc_id h)). set (s := put_u32 (h_size h)).
  set (c := put_u64 (h_call_id h)). set (k := put_u32 (h_checksum h)). set (m := put_u64 (h_mac h)).
  assert (Hin : header_bytes h ++ rest = h_op h :: h_flags h :: (p ++ s ++ c ++ k ++ m ++ rest)).
  { unfold header_bytes. rewrite <- !app_assoc. done. }
  rewrite Hin. cbn [wirecall_header_decode negb]. destruct (valid_op (h_op h)); [| done]. cbn [negb andb].
  assert (Hok : bytes_ok m /\ bytes_ok k /\ bytes_ok c /\ bytes_ok s) by (split_and!; [apply put_u64_ok | apply put_u32_ok | apply put_u64_ok | apply put_u32_ok]).
  destruct Hok as (? & ? & ? & ?).
  change (zdrop 2 _) with (p ++ s ++ c ++ k ++ m ++ rest).
  change (zdrop 10 _) with (s ++ c ++ k ++ m ++ rest).
  change (zdrop 14 _) with (c ++ k ++ m ++ rest).
  change (zdrop 22 _) with (k ++ m ++ rest).
  change (zdrop 26 _) with (m ++ rest).
  unfold p, s, c, k, m in *.
  rewrite !get_u64_put, !get_u32_put by (lia || (rewrite ?bytes_ok_app; tauto)).
  cbn [res_bind]. rewrite Z.leb_antisym.
  destruct (WIRECALL_MAX_PAYLOAD_SIZE <? h_size h); by destruct h.
Qed.

Lemma header_decode_bytes h rest :
  header_ok h -> bytes_ok rest ->
  wirecall_header_decode (Some (header_bytes h ++ rest)) true = Ok h.
Proof.
  intros Hh Hr. rewrite header_decode_raw by (done || by apply header_ok_raw).
  destruct Hh as (-> & _ & _ & Hs & _).
  replace (h_size h <=? _) with true by (symmetry; apply Z.leb_le; lia). done.
Qed.

Lemma be_field n l :
  bytes_ok l -> (n <= length l)%nat ->
  exists v, 0 <= v < 256 ^ Z.of_nat n /\ l = be_split n v ++ drop n l.
Proof.
  intros Hl Hn. exists (be_combine (take n l)).
  assert (Hlen : length (take n l) = n) by (rewrite length_take; lia).
  assert (Hok : bytes_ok (take n l)) by (by apply Forall_take).
  split.
  - rewrite <- Hlen at 3. rewrite <- zlen_length. by apply be_combine_range.
  - rewrite <- Hlen at 1. rewrite be_split_combine by done. symmetry. apply take_drop.
Qed.

(** every buffer of at least 34 bytes starts with the bytes of some header *)
Lemma header_cut l :
  bytes_ok l -> WIRECALL_HEADER_SIZE <= zlen l ->
  exists h rest, l = header_bytes h ++ rest /\ raw_header_ok h /\ bytes_ok rest.
Proof.
  unfold WIRECALL_HEADER_SIZE. rewrite zlen_length. intros Hok Hl.
  destruct l as [|op [|flags l]]; [cbn in Hl; lia .. |]. cbn [length] in Hl.
  apply Forall_cons_1 in Hok as [Hop Hok]. apply Forall_cons_1 in Hok as [Hfl Hok].
  destruct (be_field 8 l) as (p & Hp & El); [done | lia |].
  destruct (be_field 4 (drop 8 l)) as (s & Hs & E8); [by apply Forall_drop | rewrite length_drop; lia |].
  rewrite drop_drop in E8. cbn [Nat.add] in E8.
  destruct (be_field 8 (drop 12 l)) as (c & Hc & E12); [by apply Forall_drop | rewrite length_drop; lia |].
  rewrite drop_drop in E12. cbn [Nat.add] in E12.
  destruct (be_field 4 (drop 20 l)) as (k & Hk & E20); [by apply Forall_drop | rewrite length_drop; lia |].
  rewrite drop_drop in E20. cbn [Nat.add] in E20.
  destruct (be_field 8 (drop 24 l)) as (m & Hm & E24); [by apply Forall_drop | rewrite length_drop; lia |].
  rewrite drop_drop in E24. cbn [Nat.add] in E24.
  exists {| h_op := op; h_flags := flags; h_proc_id := p; h_size := s; h_call_id := c;
            h_checksum := k; h_mac := m |}, (drop 32 l).
  unfold raw_header_ok, header_bytes, byte_ok in *; cbn [h_op h_flags h_proc_id h_size h_call_id h_checksum h_mac].
  split_and!; try lia; [| by apply Forall_drop].
  rewrite !put_u64_split, !put_u32_split, <- !app_assoc. cbn [app].
  rewrite <- E24, <- E20, <- E12, <- E8, <- El. done.
Qed.

Lemma header_decode_inv l h :
  bytes_ok l -> WIRECALL_HEADER_SIZE <= zlen l ->
  wirecall_header_decode (Some l) true = Ok h ->
  header_ok h /\ exists rest, l = header_bytes h ++ rest /\ bytes_ok rest.
Proof.
  intros Hl Hlen H. destruct (header_cut l Hl Hlen) as (h' & rest & -> & Hraw & Hr).
  rewrite header_decode_raw in H by done.
  destruct (valid_op (h_op h')) eqn:Eop; [| done].
  destruct (h_size h' <=? WIRECALL_MAX_PAYLOAD_SIZE) eqn:Es; [| done]. cbn [andb] in H. zb.
  injection H as <-. split; [| eauto].
  unfold header_ok, raw_header_ok in *. rewrite Eop. lia || (split_and!; lia || done).
Qed.

(** ** Properties of the header codec *)

(** A header whose fields fit their types is encoded as exactly 34 bytes,
    and decoding those bytes, whatever follows them in the buffer, gives the
    same header back. *)
Theorem header_roundtrip h rest :
  header_ok h -> bytes_ok rest ->
  exists bytes, wirecall_header_encode (Some h) true = Ok bytes /\ zlen bytes = WIRECALL_HEADER_SIZE /\
    bytes_ok bytes /\ wirecall_header_decode (Some (bytes ++ rest)) true = Ok h.
Proof.
  intros Hh Hr. exists (header_bytes h).
  split; [by apply header_encode_ok |]. split; [apply zlen_header_bytes |].
  split; [by apply header_bytes_ok | by apply header_decode_bytes].
Qed.

Definition header_sample : wirecall_header :=
  {| h_op := 1; h_flags := 1; h_proc_id := 0x1122334455667788; h_size := 9;
     h_call_id := 0x0102030405060708; h_checksum := 77; h_mac := 0 |}.

Lemma header_roundtrip_witness :
  exists bytes, wirecall_header_encode (Some header_sample) true = Ok bytes /\ zlen bytes = WIRECALL_HEADER_SIZE /\
    bytes_ok bytes /\ wirecall_header_decode (Some (bytes ++ [2; 42])) true = Ok header_sample.
Proof.
  apply (header_roundtrip header_sample [2; 42]).
  - by_compute.
  - by_compute.
Defined.

(** C20: the decoder reads at least 34 bytes without leaving the buffer, and
    accepts them exactly when they are the encoding of a well-formed header:
    every header it returns has a known operation, a size within the payload
    limit and fields in range, and encodes back to the bytes it was read from. *)
Theorem header_decode_exact l :
  bytes_ok l -> WIRECALL_HEADER_SIZE <= zlen l ->
  wirecall_header_decode (Some l) true <> UB /\
  forall h, wirecall_header_decode (Some l) true = Ok h <->
    header_ok h /\ wirecall_header_encode (Some h) true = Ok (ztake WIRECALL_HEADER_SIZE l).
Proof.
  intros Hl Hlen. split.
  - destruct (header_cut l Hl Hlen) as (h & rest & -> & Hraw & Hr).
    rewrite header_decode_raw by done. by destruct (_ && _).
  - intros h. split.
    + intros Hd. destruct (header_decode_inv l h Hl Hlen Hd) as (Hok & rest & -> & _).
      split; [done |]. rewrite header_encode_ok by done. rewrite ztake_app_eq; done.
    + intros [Hok He]. rewrite header_encode_ok in He by done. injection He as He.
      rewrite <- (ztake_zdrop WIRECALL_HEADER_SIZE l), <- He.
      apply header_decode_bytes; [done | by apply bytes_ok_zdrop].
Qed.

Lemma header_decode_exact_witness :
  wirecall_header_decode (Some (header_bytes header_sample)) true <> UB /\
  forall h, wirecall_header_decode (Some (header_bytes header_sample)) true = Ok h <->
    header_ok h /\ wirecall_header_encode (Some h) true = Ok (ztake WIRECALL_HEADER_SIZE (header_bytes header_sample)).
Proof.
  apply (header_decode_exact (header_bytes header_sample)).
  - by_compute.
  - by_compute.
Defined.
