(* ===== verification/Integrity.v ===== *)
(** * Integrity: what the checksum and the MAC of a packet guarantee (src/protocol.c)

    - the 64-bit mixing steps of the checksum are injective, so a payload that
      is changed within one 8-byte word changes the 64-bit hash;
    - the streaming MAC is SipHash-2-4 of the header fields followed by the
      payload, and that message determines every field and the payload;
    - signing and verification: what is signed verifies, and verification is
      characterised exactly. *)

From S2P Require Import Prelude Words Protocol.

(** ** Reference definitions *)

(** SipHash-2-4 over a whole message: compress the little-endian words, then
    the last partial word with the message length in its top byte *)
Fixpoint sip_absorb (s : sip_state) (m : list Z) : sip_state * list Z :=
  match m with
  | b0 :: b1 :: b2 :: b3 :: b4 :: b5 :: b6 :: b7 :: rest =>
      sip_absorb (sip_compress s (le_combine [b0; b1; b2; b3; b4; b5; b6; b7])) rest
  | _ => (s, m)
  end.

Definition siphash24 (key m : list Z) : Z :=
  let '(s, rest) := sip_absorb (sip_init (le_combine (ztake 8 key)) (le_combine (zdrop 8 key))) m in
  sip_finish (sip_compress s (le_combine rest + (zlen m mod 256) * 2 ^ 56)).

(** the published test vector: key 00..0f, message 00..0e *)
Example siphash24_vector :
  siphash24 [0; 1; 2; 3; 4; 5; 6; 7; 8; 9; 10; 11; 12; 13; 14; 15]
            [0; 1; 2; 3; 4; 5; 6; 7; 8; 9; 10; 11; 12; 13; 14] = 0xa129ca6149be45e5.
Proof. vm_compute. reflexivity. Qed.

(** the textbook 64-bit FNV-1a hash *)
Definition fnv1a (s : list Z) : Z :=
  fold_left (fun h c => u64 (Z.lxor h c * 1099511628211)) s 14695981039346656037.

(** ** The mixing functions *)
Lemma rotl64_arith v s :
  0 < s < 64 -> 0 <= v < 2 ^ 64 ->
  rotl64 v s = (v mod 2 ^ (64 - s)) * 2 ^ s + v / 2 ^ (64 - s).
Proof.
  intros Hs Hv. unfold rotl64, u64.
  assert (Hd : 2 ^ 64 = 2 ^ (64 - s) * 2 ^ s) by (rewrite <- Z.pow_add_r by lia; f_equal; lia).
  assert (0 < 2 ^ (64 - s)) by (apply Z.pow_pos_nonneg; lia).
  assert (0 < 2 ^ s) by (apply Z.pow_pos_nonneg; lia).
  rewrite Z.shiftl_mul_pow2, Z.shiftr_div_pow2 by lia.
  rewrite Hd, Zmult_mod_distr_r by lia.
  rewrite <- (Z.shiftl_mul_pow2 (v mod _)) by lia. rewrite lor_shiftl_add; [| lia |].
  - rewrite ?Z.shiftl_mul_pow2 by lia. done.
  - split; [apply Z.div_pos; lia |]. apply Z.div_lt_upper_bound; lia.
Qed.

Lemma rotl64_range v s : 0 < s < 64 -> 0 <= v < 2 ^ 64 -> 0 <= rotl64 v s < 2 ^ 64.
Proof.
  intros Hs Hv. unfold rotl64. apply lor_range; [lia | apply u64_range |].
  apply shiftr_range; lia.
Qed.

Lemma rotl64_inj v w s :
  0 < s < 64 -> 0 <= v < 2 ^ 64 -> 0 <= w < 2 ^ 64 -> rotl64 v s = rotl64 w s -> v = w.
Proof.
  intros Hs Hv Hw. rewrite !rotl64_arith by lia. intros H.
  assert (Hd : 2 ^ 64 = 2 ^ (64 - s) * 2 ^ s) by (rewrite <- Z.pow_add_r by lia; f_equal; lia).
  assert (0 < 2 ^ (64 - s)) by (apply Z.pow_pos_nonneg; lia).
  assert (0 < 2 ^ s) by (apply Z.pow_pos_nonneg; lia).
  assert (0 <= v / 2 ^ (64 - s) < 2 ^ s) by (split; [apply Z.div_pos; lia | apply Z.div_lt_upper_bound; lia]).
  assert (0 <= w / 2 ^ (64 - s) < 2 ^ s) by (split; [apply Z.div_pos; lia | apply Z.div_lt_upper_bound; lia]).
  rewrite !(Z.mul_comm _ (2 ^ s)) in H.
  apply Z.div_mod_unique in H as [Hmod Hdiv]; [| lia ..].
  rewrite (Z.div_mod v (2 ^ (64 - s))), (Z.div_mod w (2 ^ (64 - s))) by lia. rewrite Hmod, Hdiv. done.
Qed.

Lemma mix64_range x : 0 <= x < 2 ^ 64 -> 0 <= mix64 x < 2 ^ 64.
Proof.
  intros Hx. unfold mix64. apply lxor_range; [lia | apply u64_range |].
  apply shiftr_range; [lia | apply u64_range].
Qed.

(** the multipliers are units modulo 2^64 *)
Lemma mix64_units :
  (0xbf58476d1ce4e5b9 * 0x96de1b173f119089) mod 2 ^ 64 = 1 /\
  (0x94d049bb133111eb * 0x319642b2d24d8ec3) mod 2 ^ 64 = 1.
Proof. vm_compute. done. Qed.

Lemma xs_range x k : 0 < k -> 0 <= x < 2 ^ 64 -> 0 <= Z.lxor x (Z.shiftr x k) < 2 ^ 64.
Proof. intros. apply lxor_range; [lia | lia |]. apply shiftr_range; lia. Qed.

Lemma mix64_inj x y :
  0 <= x < 2 ^ 64 -> 0 <= y < 2 ^ 64 -> mix64 x = mix64 y -> x = y.
Proof.
  intros Hx Hy H. unfold mix64 in H. destruct mix64_units as [U1 U2].
  apply xorshift_inj in H; [| apply u64_range | apply u64_range | lia].
  apply (u64_mul_inj _ _ _ _ U2) in H; [| apply xs_range; [lia | apply u64_range] ..].
  apply xorshift_inj in H; [| apply u64_range | apply u64_range | lia].
  apply (u64_mul_inj _ _ _ _ U1) in H; [| apply xs_range; lia ..].
  apply xorshift_inj in H; lia.
Qed.

(** one absorption step is injective in the hash and in the word *)
Lemma hash_step_unit : (0x3c79ac492ba7b653 * 0xc09c5fe5bd6dfddb) mod 2 ^ 64 = 1.
Proof. vm_compute. done. Qed.

Lemma cheap_hash_step_range h w : 0 <= cheap_hash_step h w < 2 ^ 64.
Proof. apply u64_range. Qed.

Lemma cheap_hash_step_inj h1 h2 w1 w2 :
  0 <= h1 < 2 ^ 64 -> 0 <= h2 < 2 ^ 64 -> 0 <= w1 < 2 ^ 64 -> 0 <= w2 < 2 ^ 64 ->
  cheap_hash_step h1 w1 = cheap_hash_step h2 w2 -> Z.lxor h1 (mix64 w1) = Z.lxor h2 (mix64 w2).
Proof.
  intros Hh1 Hh2 Hw1 Hw2 H. unfold cheap_hash_step in H.
  assert (0 <= Z.lxor h1 (mix64 w1) < 2 ^ 64) by (apply lxor_range; [lia | lia | by apply mix64_range]).
  assert (0 <= Z.lxor h2 (mix64 w2) < 2 ^ 64) by (apply lxor_range; [lia | lia | by apply mix64_range]).
  apply u64_add_inj in H; [| apply u64_range ..].
  apply (u64_mul_inj _ _ _ _ hash_step_unit) in H; [| apply rotl64_range; lia ..].
  apply rotl64_inj in H; lia || done.
Qed.

Lemma cheap_hash_step_inj_hash h1 h2 w :
  0 <= h1 < 2 ^ 64 -> 0 <= h2 < 2 ^ 64 -> 0 <= w < 2 ^ 64 ->
  cheap_hash_step h1 w = cheap_hash_step h2 w -> h1 = h2.
Proof. intros H1 H2 Hw H. apply cheap_hash_step_inj in H; [| done ..]. by eapply lxor_cancel_r. Qed.

Lemma cheap_hash_step_inj_word h w1 w2 :
  0 <= h < 2 ^ 64 -> 0 <= w1 < 2 ^ 64 -> 0 <= w2 < 2 ^ 64 ->
  cheap_hash_step h w1 = cheap_hash_step h w2 -> w1 = w2.
Proof.
  intros Hh H1 H2 H. apply cheap_hash_step_inj in H; [| done ..].
  apply lxor_cancel_l in H. by apply mix64_inj.
Qed.

(** ** The checksum as a fold over the words of the payload *)
Section Checksum.
Context `{HH : Host}.

(** the words the loop absorbs *)
Fixpoint hash_words (data : list Z) : list Z :=
  match data with
  | b0 :: b1 :: b2 :: b3 :: b4 :: b5 :: b6 :: b7 :: rest =>
      u64 (get_u64_native [b0; b1; b2; b3; b4; b5; b6; b7] + 0x9e3779b97f4a7c15) :: hash_words rest
  | [] => []
  | _ => [Z.lxor (get_u64_native data) (u64 (Z.shiftl (zlen data) 56))]
  end.

(** induction by blocks of eight bytes *)
Lemma list_ind8 (P : list Z -> Prop) :
  (forall l, (length l < 8)%nat -> P l) ->
  (forall b0 b1 b2 b3 b4 b5 b6 b7 l, P l -> P (b0 :: b1 :: b2 :: b3 :: b4 :: b5 :: b6 :: b7 :: l)) ->
  forall l, P l.
Proof.
  intros Hs Hc l. remember (length l) as n eqn:Hn. revert l Hn.
  induction n as [n IH] using lt_wf_ind. intros l Hn.
  destruct (decide (length l < 8)%nat) as [Hlt|Hge]; [by apply Hs |].
  do 8 (destruct l as [|? l]; [cbn in Hge; lia |]).
  apply Hc. eapply IH; [| reflexivity]. cbn [length] in Hn. lia.
Qed.

Lemma cheap_hash_fold hash data :
  cheap_hash_update hash data = mix64 (fold_left cheap_hash_step (hash_words data) hash).
Proof.
  revert hash. induction data as [l Hl|b0 b1 b2 b3 b4 b5 b6 b7 l IH] using list_ind8; intros hash.
  - do 8 (destruct l as [|? l]; [reflexivity |]). cbn [length] in Hl. lia.
  - unfold cheap_hash_update in *. cbn [cheap_hash_words hash_words fold_left]. apply IH.
Qed.

Lemma native_range l : bytes_ok l -> (length l <= 8)%nat -> 0 <= get_u64_native l < 2 ^ 64.
Proof.
  intros Hl Hlen. unfold get_u64_native. destruct host_endian.
  - pose proof (le_combine_range l Hl). rewrite zlen_length in *.
    assert (256 ^ Z.of_nat (length l) <= 256 ^ 8) by (apply Z.pow_le_mono_r; lia). lia.
  - assert (Hz : bytes_ok (l ++ zreplicate (8 - zlen l) 0)).
    { apply bytes_ok_app. split; [done |]. apply Forall_replicate. unfold byte_ok. lia. }
    pose proof (be_combine_range _ Hz) as Hr.
    rewrite zlen_app, zlen_zreplicate in Hr by (rewrite zlen_length; lia).
    replace (zlen l + (8 - zlen l)) with 8 in Hr by lia. exact Hr.
Qed.

Lemma be_combine_inj l k :
  bytes_ok l -> bytes_ok k -> length l = length k -> be_combine l = be_combine k -> l = k.
Proof. intros Hl Hk Hn H. rewrite <- (be_split_combine l), <- (be_split_combine k), Hn, H by done. done. Qed.

Lemma native_inj l k :
  bytes_ok l -> bytes_ok k -> length l = length k -> get_u64_native l = get_u64_native k -> l = k.
Proof.
  intros Hl Hk Hn. unfold get_u64_native. destruct host_endian.
  - by apply le_combine_inj.
  - assert (Hz : zlen l = zlen k) by (rewrite !zlen_length, Hn; done). rewrite Hz.
    intros H. apply be_combine_inj in H.
    + by apply app_inv_tail in H.
    + apply bytes_ok_app. split; [done |]. apply Forall_replicate. unfold byte_ok. lia.
    + apply bytes_ok_app. split; [done |]. apply Forall_replicate. unfold byte_ok. lia.
    + rewrite !length_app, Hn. done.
Qed.

Lemma tail_word_range l :
  bytes_ok l -> (length l <= 8)%nat -> 0 <= Z.lxor (get_u64_native l) (u64 (Z.shiftl (zlen l) 56)) < 2 ^ 64.
Proof. intros. apply lxor_range; [lia | by apply native_range | apply u64_range]. Qed.

Lemma hash_words_range data : bytes_ok data -> Forall (fun w => 0 <= w < 2 ^ 64) (hash_words data).
Proof.
  induction data as [l Hl|b0 b1 b2 b3 b4 b5 b6 b7 l IH] using list_ind8; intros Hok.
  - assert (Hw : l = [] \/ hash_words l = [Z.lxor (get_u64_native l) (u64 (Z.shiftl (zlen l) 56))]).
    { do 8 (destruct l as [|? l]; [(by left) || (by right) |]). cbn [length] in Hl. lia. }
    destruct Hw as [-> | ->]; [constructor |]. constructor; [| constructor].
    apply tail_word_range; [done | lia].
  - cbn [hash_words]. constructor; [apply u64_range |]. apply IH.
    by do 8 (apply Forall_cons_1 in Hok as [_ Hok]).
Qed.

Lemma hash_words_app pre rest :
  (length pre mod 8 = 0)%nat -> hash_words (pre ++ rest) = hash_words pre ++ hash_words rest.
Proof.
  induction pre as [l Hl|b0 b1 b2 b3 b4 b5 b6 b7 l IH] using list_ind8; intros Hm.
  - rewrite Nat.mod_small in Hm by done. by destruct l.
  - cbn [hash_words app]. f_equal. apply IH. cbn [length] in Hm.
    replace (S (S (S (S (S (S (S (S (length l))))))))) with (length l + 1 * 8)%nat in Hm by lia.
    by rewrite Nat.Div0.mod_add in Hm.
Qed.

Lemma hash_words_block a rest :
  length a = 8%nat -> hash_words (a ++ rest) = u64 (get_u64_native a + 0x9e3779b97f4a7c15) :: hash_words rest.
Proof.
  intros Ha. do 8 (destruct a as [|? a]; [done |]). by destruct a.
Qed.

Lemma hash_words_short a :
  a <> [] -> (length a < 8)%nat ->
  hash_words a = [Z.lxor (get_u64_native a) (u64 (Z.shiftl (zlen a) 56))].
Proof.
  intros Hn Ha. do 8 (destruct a as [|? a]; [done |]). cbn [length] in Ha. lia.
Qed.

Lemma fold_step_range ws h :
  0 <= h < 2 ^ 64 -> 0 <= fold_left cheap_hash_step ws h < 2 ^ 64.
Proof.
  revert h. induction ws as [|w ws IH]; intros h Hh; [done |].
  apply IH. apply cheap_hash_step_range.
Qed.

Lemma fold_step_inj ws h1 h2 :
  Forall (fun w => 0 <= w < 2 ^ 64) ws -> 0 <= h1 < 2 ^ 64 -> 0 <= h2 < 2 ^ 64 ->
  fold_left cheap_hash_step ws h1 = fold_left cheap_hash_step ws h2 -> h1 = h2.
Proof.
  intros Hws. revert h1 h2. induction Hws as [|w ws Hw _ IH]; intros h1 h2 H1 H2 H; [done |].
  apply IH in H; [| apply cheap_hash_step_range ..]. by apply cheap_hash_step_inj_hash in H.
Qed.

(** for fixed data the 64-bit hash is injective in the seed *)
Lemma cheap_hash_inj_seed data h1 h2 :
  bytes_ok data -> 0 <= h1 < 2 ^ 64 -> 0 <= h2 < 2 ^ 64 ->
  cheap_hash_update h1 data = cheap_hash_update h2 data -> h1 = h2.
Proof.
  intros Hd H1 H2. rewrite !cheap_hash_fold. intros H.
  apply mix64_inj in H; [| by apply fold_step_range ..].
  apply fold_step_inj in H; [done | by apply hash_words_range | done ..].
Qed.

Lemma cheap_hash_inj_word h pre a b post :
  0 <= h < 2 ^ 64 -> bytes_ok (pre ++ a ++ post) -> bytes_ok b ->
  (length pre mod 8 = 0)%nat -> length a = length b ->
  length a = 8%nat \/ (length a < 8)%nat /\ post = [] ->
  cheap_hash_update h (pre ++ a ++ post) = cheap_hash_update h (pre ++ b ++ post) -> a = b.
Proof.
  intros Hh Hok Hb Hpre Hlen Hshape. apply bytes_ok_app in Hok as [Hp Hok].
  apply bytes_ok_app in Hok as [Ha Hpost].
  rewrite !cheap_hash_fold, !(hash_words_app pre) by done. rewrite !fold_left_app. intros H.
  set (h' := fold_left cheap_hash_step (hash_words pre) h) in *.
  assert (Hh' : 0 <= h' < 2 ^ 64) by (by apply fold_step_range).
  apply mix64_inj in H; [| by apply fold_step_range ..].
  destruct Hshape as [H8 | [Hlt ->]].
  - rewrite !hash_words_block in H by lia. cbn [fold_left] in H.
    apply fold_step_inj in H; [| by apply hash_words_range | apply cheap_hash_step_range ..].
    apply cheap_hash_step_inj_word in H; [| done | apply u64_range ..].
    apply u64_add_inj in H; [| apply native_range; done || lia ..].
    by apply native_inj in H.
  - rewrite !app_nil_r in H.
    destruct (decide (a = [])) as [->|Hne]; [by destruct b |].
    rewrite !hash_words_short in H by (done || lia || (destruct b, a; done)).
    cbn [fold_left] in H. rewrite !zlen_length, Hlen in H.
    assert (Hw : forall l, bytes_ok l -> length l = length b ->
      0 <= Z.lxor (get_u64_native l) (u64 (Z.shiftl (Z.of_nat (length b)) 56)) < 2 ^ 64).
    { intros l Hl Hn. rewrite <- Hn, <- zlen_length. apply tail_word_range; [done | lia]. }
    apply cheap_hash_step_inj_word in H; [| done | by apply Hw ..].
    apply lxor_cancel_r in H. by apply native_inj in H.
Qed.

(** ** The seed *)
Lemma meta_range op flags size :
  0 <= op < 256 -> 0 <= flags < 256 -> 0 <= size < 2 ^ 32 ->
  Z.lor (Z.lor (u64 (Z.shiftl (u8 op) 56)) (u64 (Z.shiftl flags 48))) (u64 (Z.shiftl size 16)) =
  op * 2 ^ 56 + flags * 2 ^ 48 + size * 2 ^ 16.
Proof.
  intros Ho Hf Hs. rewrite u8_small by done.
  rewrite !u64_small by (rewrite Z.shiftl_mul_pow2 by lia; lia).
  replace (Z.shiftl op 56) with (Z.shiftl (op * 2 ^ 8) 48) by (rewrite !Z.shiftl_mul_pow2 by lia; lia).
  rewrite <- Z.shiftl_lor.
  rewrite lor_mul_add by lia.
  replace (Z.shiftl (op * 2 ^ 8 + flags) 48) with (Z.shiftl ((op * 2 ^ 8 + flags) * 2 ^ 32) 16)
    by (rewrite !Z.shiftl_mul_pow2 by lia; lia).
  rewrite <- Z.shiftl_lor.
  rewrite lor_mul_add by lia.
  rewrite Z.shiftl_mul_pow2 by lia. lia.
Qed.

(** the op, flags and size fields as one word *)
Definition seed_meta (h : wirecall_header) : Z :=
  h_op h * 2 ^ 56 + h_flags h * 2 ^ 48 + h_size h * 2 ^ 16.

Definition seed_fields (h : wirecall_header) : Z :=
  Z.lxor (Z.lxor (seed_meta h) (rotl64 (h_proc_id h) 17)) (rotl64 (h_call_id h) 41).

Lemma packet_seed_fields h :
  raw_header_ok h -> packet_seed h = mix64 (Z.lxor 0x9e3779b97f4a7c15 (seed_fields h)).
Proof.
  intros (Ho & Hf & Hp & Hs & Hc & _). unfold packet_seed, seed_fields, seed_meta.
  rewrite meta_range by done. rewrite !Z.lxor_assoc. reflexivity.
Qed.

Lemma seed_fields_range h : raw_header_ok h -> 0 <= seed_fields h < 2 ^ 64.
Proof.
  intros (Ho & Hf & Hp & Hs & Hc & _). unfold seed_fields, seed_meta.
  repeat (apply lxor_range; [lia | | by apply rotl64_range]). lia.
Qed.

Lemma packet_seed_range h : raw_header_ok h -> 0 <= packet_seed h < 2 ^ 64.
Proof.
  intros Hh. rewrite packet_seed_fields by done. apply mix64_range.
  apply lxor_range; [lia | lia | by apply seed_fields_range].
Qed.

Lemma packet_seed_inj h1 h2 :
  raw_header_ok h1 -> raw_header_ok h2 -> packet_seed h1 = packet_seed h2 -> seed_fields h1 = seed_fields h2.
Proof.
  intros H1 H2. rewrite !packet_seed_fields by done. intros H. apply mix64_inj in H.
  - by apply lxor_cancel_l in H.
  - apply lxor_range; [lia | lia | by apply seed_fields_range].
  - apply lxor_range; [lia | lia | by apply seed_fields_range].
Qed.

(** the 64-bit hash wirecall_packet_checksum folds to 32 bits *)
Definition packet_hash (h : wirecall_header) (data : list Z) : Z :=
  cheap_hash_update (Z.lxor (packet_seed h) 0xa0761d6478bd642f) data.

Lemma packet_hash_inj_seed h1 h2 data :
  raw_header_ok h1 -> raw_header_ok h2 -> bytes_ok data ->
  packet_hash h1 data = packet_hash h2 data -> packet_seed h1 = packet_seed h2.
Proof.
  intros H1 H2 Hd H. apply cheap_hash_inj_seed in H; [| done |..].
  - by eapply lxor_cancel_r.
  - apply lxor_range; [lia | by apply packet_seed_range | lia].
  - apply lxor_range; [lia | by apply packet_seed_range | lia].
Qed.

Lemma packet_checksum_hash h payload len data :
  bad_payload payload len = false -> buffer_bytes payload len = Ok data ->
  wirecall_packet_checksum (Some h) payload len =
  Ok (u32 (Z.lxor (packet_hash h data) (Z.shiftr (packet_hash h data) 32))).
Proof. intros Hb Hd. unfold wirecall_packet_checksum. rewrite Hb, Hd. done. Qed.
End Checksum.

(** ** The MAC *)
Section Mac.
Context `{HH : Host}.

Lemma sip_absorb_app s m1 m2 :
  sip_absorb s (m1 ++ m2) = let '(s', rest) := sip_absorb s m1 in sip_absorb s' (rest ++ m2).
Proof.
  revert s. induction m1 as [l Hl|b0 b1 b2 b3 b4 b5 b6 b7 l IH] using list_ind8; intros s.
  - do 8 (destruct l as [|? l]; [reflexivity |]). cbn [length] in Hl. lia.
  - cbn [sip_absorb app]. apply IH.
Qed.

Lemma sip_absorb_rest s m : (length (sip_absorb s m).2 < 8)%nat.
Proof.
  revert s. induction m as [l Hl|b0 b1 b2 b3 b4 b5 b6 b7 l IH] using list_ind8; intros s.
  - do 8 (destruct l as [|? l]; [cbn; lia |]). cbn [length] in Hl. lia.
  - cbn [sip_absorb]. apply IH.
Qed.

Lemma sip_absorb_rest_ok s m : bytes_ok m -> bytes_ok (sip_absorb s m).2.
Proof.
  revert s. induction m as [l Hl|b0 b1 b2 b3 b4 b5 b6 b7 l IH] using list_ind8; intros s Hm.
  - do 8 (destruct l as [|? l]; [exact Hm |]). cbn [length] in Hl. lia.
  - cbn [sip_absorb]. apply IH. by do 8 (apply Forall_cons_1 in Hm as [_ Hm]).
Qed.

Lemma sip_absorb_short s m : (length m < 8)%nat -> sip_absorb s m = (s, m).
Proof. intros Hl. do 8 (destruct m as [|? m]; [done |]). cbn [length] in Hl. lia. Qed.

Lemma sip_absorb_block s a rest :
  length a = 8%nat -> sip_absorb s (a ++ rest) = sip_absorb (sip_compress s (le_combine a)) rest.
Proof. intros Ha. do 8 (destruct a as [|? a]; [done |]). by destruct a. Qed.

(** a byte moved into the tail *)
Lemma tail_push t b :
  bytes_ok t -> byte_ok b -> (length t < 8)%nat ->
  Z.lor (le_combine t) (u64 (Z.shiftl b (zlen t * 8))) = le_combine (t ++ [b]).
Proof.
  intros Ht Hb Hl. unfold byte_ok in Hb. pose proof (le_combine_range t Ht) as Hr.
  rewrite zlen_length in *.
  assert (Hp : 256 ^ Z.of_nat (length t) = 2 ^ (Z.of_nat (length t) * 8))
    by (change 256 with (2 ^ 8); rewrite <- Z.pow_mul_r by lia; f_equal; lia).
  rewrite Hp in Hr.
  assert (2 ^ (Z.of_nat (length t) * 8) <= 2 ^ 56) by (apply Z.pow_le_mono_r; lia).
  rewrite u64_small by (rewrite Z.shiftl_mul_pow2 by lia; nia).
  rewrite lor_add_high by lia. rewrite le_combine_app, zlen_length, Hp. cbn [le_combine]. lia.
Qed.

Lemma sip_rest_combine t data :
  bytes_ok t -> bytes_ok data -> (length t + length data <= 8)%nat ->
  sip_rest (le_combine t) (zlen t) data = (le_combine (t ++ data), zlen (t ++ data)).
Proof.
  revert t. induction data as [|b data IH]; intros t Ht Hd Hl; cbn [sip_rest].
  - by rewrite app_nil_r.
  - apply Forall_cons_1 in Hd as [Hb Hd]. cbn [length] in Hl.
    rewrite tail_push by (done || lia).
    replace (zlen t + 1) with (zlen (t ++ [b])) by (rewrite zlen_app; done).
    rewrite IH; [by rewrite <- app_assoc | | done |].
    + apply bytes_ok_app. split; [done |]. by constructor.
    + rewrite length_app. cbn [length]. lia.
Qed.

Lemma sip_fill_combine t data :
  bytes_ok t -> bytes_ok data -> (length t <= 8)%nat ->
  sip_fill (le_combine t) (zlen t) data =
  (le_combine (t ++ take (8 - length t) data), zlen (t ++ take (8 - length t) data), drop (8 - length t) data).
Proof.
  revert t. induction data as [|b data IH]; intros t Ht Hd Hl; cbn [sip_fill].
  - by rewrite take_nil, drop_nil, app_nil_r.
  - apply Forall_cons_1 in Hd as [Hb Hd]. rewrite zlen_length at 1.
    destruct (Z.of_nat (length t) <? 8) eqn:E; zb.
    + rewrite tail_push by (done || lia).
      replace (zlen t + 1) with (zlen (t ++ [b])) by (rewrite zlen_app; done).
      rewrite IH; [| apply bytes_ok_app; split; [done | by constructor] | done | rewrite length_app; cbn [length]; lia].
      rewrite length_app. cbn [length].
      replace (8 - length t)%nat with (S (8 - (length t + 1)))%nat by lia.
      cbn [firstn skipn]. rewrite <- !app_assoc. done.
    + replace (8 - length t)%nat with 0%nat by lia. by rewrite app_nil_r.
Qed.

(** the streaming state after the bytes [m] *)
Definition sip_after (s0 : sip_state) (m : list Z) : sip_ctx :=
  let '(s, rest) := sip_absorb s0 m in
  {| sip_v := s; total_len := u64 (zlen m); tail_word := le_combine rest; tail_len := zlen rest |}.

Hypothesis little : host_endian = LittleEndian.

Lemma sip_words_absorb s m : sip_words s m = sip_absorb s m.
Proof.
  revert s. induction m as [l Hl|b0 b1 b2 b3 b4 b5 b6 b7 l IH] using list_ind8; intros s.
  - do 8 (destruct l as [|? l]; [reflexivity |]). cbn [length] in Hl. lia.
  - cbn [sip_words sip_absorb]. rewrite IH. unfold sip_load64, get_u64_native. rewrite little. done.
Qed.

(** what the last two loops of sip_update do when the tail is empty *)
Lemma sip_update_flush s data :
  bytes_ok data ->
  (let '(s, data) := sip_words s data in
   let '(tail, tlen) := sip_rest 0 0 data in (s, tail, tlen)) =
  (let '(s, rest) := sip_absorb s data in (s, le_combine rest, zlen rest)).
Proof.
  intros Hd. rewrite sip_words_absorb.
  pose proof (sip_absorb_rest s data). pose proof (sip_absorb_rest_ok s data Hd).
  destruct (sip_absorb s data) as [s' rest]. cbn [snd] in *.
  pose proof (sip_rest_combine [] rest) as Hr. rewrite app_nil_l in Hr.
  change (le_combine []) with 0 in Hr. change (zlen []) with 0 in Hr.
  rewrite Hr; [done | by apply Forall_nil | done | cbn [length]; lia].
Qed.

(** streaming: feeding [data] after [m] is feeding [m ++ data] *)
Lemma sip_update_after s0 m data :
  bytes_ok m -> bytes_ok data -> sip_update (sip_after s0 m) data = sip_after s0 (m ++ data).
Proof.
  intros Hm Hd. unfold sip_after. rewrite sip_absorb_app.
  pose proof (sip_absorb_rest s0 m) as Hlt. pose proof (sip_absorb_rest_ok s0 m Hm) as Hok.
  destruct (sip_absorb s0 m) as [s rest]. cbn [snd] in Hlt, Hok.
  unfold sip_update. cbn [sip_v total_len tail_word tail_len].
  assert (Htot : u64 (u64 (zlen m) + zlen data) = u64 (zlen (m ++ data))).
  { unfold u64. rewrite Zplus_mod_idemp_l, zlen_app. done. }
  rewrite Htot.
  destruct (zlen rest =? 0) eqn:E0; zb.
  - apply zlen_0_nil in E0 as ->. rewrite app_nil_l.
    pose proof (sip_update_flush s data Hd) as Hf. change (le_combine []) with 0. change (zlen []) with 0.
    destruct (sip_words s data) as [s' d']. destruct (sip_rest 0 0 d') as [tl tn].
    destruct (sip_absorb s data) as [s'' r'']. by injection Hf as -> -> ->.
  - rewrite sip_fill_combine by (done || lia).
    destruct (decide (8 <= length rest + length data)%nat) as [Hge|Hlt8].
    + set (a := rest ++ take (8 - length rest) data). set (d := drop (8 - length rest) data).
      assert (Ha : length a = 8%nat) by (unfold a; rewrite length_app, length_take; lia).
      replace (zlen a =? 8) with true by (symmetry; apply Z.eqb_eq; rewrite zlen_length, Ha; done).
      replace (rest ++ data) with (a ++ d) by (unfold a, d; by rewrite <- app_assoc, take_drop).
      rewrite sip_absorb_block by done.
      assert (Hdd : bytes_ok d) by (by apply Forall_drop).
      pose proof (sip_update_flush (sip_compress s (le_combine a)) d Hdd) as Hf.
      destruct (sip_words (sip_compress s (le_combine a)) d) as [s' d']. destruct (sip_rest 0 0 d') as [tl tn].
      destruct (sip_absorb (sip_compress s (le_combine a)) d) as [s'' r'']. by injection Hf as -> -> ->.
    + rewrite take_ge, drop_ge by lia.
      replace (zlen (rest ++ data) =? 8) with false
        by (symmetry; apply Z.eqb_neq; rewrite zlen_length, length_app; lia).
      cbn [sip_words sip_rest]. rewrite sip_absorb_short by (rewrite length_app; lia). done.
Qed.

(** the message the MAC is computed over *)
Definition mac_message (h : wirecall_header) (data : list Z) : list Z := mac_meta h (zlen data) ++ data.

Lemma mac_meta_ok h n : 0 <= h_flags h < 256 -> bytes_ok (mac_meta h n).
Proof.
  intros Hf. unfold mac_meta. apply bytes_ok_app. split.
  - repeat constructor; unfold byte_ok; [apply u8_range | apply u8_range | lia | lia].
  - rewrite !bytes_ok_app. split_and!; [apply put_u64_ok | apply put_u32_ok | apply put_u64_ok | apply put_u32_ok | apply put_u32_ok].
Qed.

Lemma packet_mac_siphash h payload len key data :
  0 <= h_flags h < 256 -> bytes_ok data -> zlen key = 16 ->
  bad_payload payload len = false -> buffer_bytes payload len = Ok data -> zlen data = len ->
  wirecall_packet_mac (Some h) payload len (Some key) = Ok (siphash24 key (mac_message h data)).
Proof.
  intros Hf Hd Hk Hb Hbuf Hlen. unfold wirecall_packet_mac. rewrite Hb.
  replace (buffer_bytes (Some key) 16) with (@Ok (list Z) key).
  2: { cbn [buffer_bytes]. rewrite Hk. cbn. rewrite ztake_ge by lia. done. }
  rewrite Hbuf. cbn [res_bind]. f_equal.
  set (s0 := sip_init _ _).
  change {| sip_v := s0; total_len := 0; tail_word := 0; tail_len := 0 |} with (sip_after s0 []).
  rewrite sip_update_after; [| by apply Forall_nil | by apply mac_meta_ok]. rewrite app_nil_l.
  rewrite sip_update_after by (done || by apply mac_meta_ok).
  rewrite <- Hlen. fold (mac_message h data). unfold siphash24.
  assert (Hs0 : s0 = sip_init (le_combine (ztake 8 key)) (le_combine (zdrop 8 key)))
    by (unfold s0, sip_load64, get_u64_native; by rewrite little).
  rewrite <- Hs0. unfold sip_after.
  assert (Hmm : bytes_ok (mac_message h data)) by (apply bytes_ok_app; split; [by apply mac_meta_ok | done]).
  pose proof (sip_absorb_rest s0 (mac_message h data)) as Hlt.
  pose proof (sip_absorb_rest_ok s0 _ Hmm) as Hok.
  destruct (sip_absorb s0 (mac_message h data)) as [s rest]. cbn [snd sip_v tail_word total_len] in *.
  do 2 f_equal. pose proof (le_combine_range rest Hok) as Hr. rewrite zlen_length in Hr.
  assert (256 ^ Z.of_nat (length rest) <= 256 ^ 7) by (apply Z.pow_le_mono_r; lia).
  assert (Hu : u64 (Z.shiftl (u64 (zlen (mac_message h data))) 56) =
               Z.shiftl (zlen (mac_message h data) mod 256) 56).
  { unfold u64. rewrite !Z.shiftl_mul_pow2 by lia. rewrite Zmult_mod_idemp_l.
    change (2 ^ 64) with (256 * 2 ^ 56). apply Zmult_mod_distr_r. }
  rewrite Hu, lor_add_high by lia. done.
Qed.
End Mac.

(** ** Signing and verification *)
Section Sign.
Context `{HH : Host}.

Lemma checksum_ignores_tags h c m payload len :
  wirecall_packet_checksum (Some (set_mac (set_checksum h c) m)) payload len =
  wirecall_packet_checksum (Some h) payload len.
Proof.
  unfold wirecall_packet_checksum, packet_seed.
  cbn [h_op h_flags h_size h_proc_id h_call_id set_mac set_checksum]. reflexivity.
Qed.

Lemma mac_ignores_mac h m payload len key :
  wirecall_packet_mac (Some (set_mac h m)) payload len key = wirecall_packet_mac (Some h) payload len key.
Proof.
  unfold wirecall_packet_mac, mac_meta.
  cbn [h_op h_flags h_size h_proc_id h_call_id h_checksum set_mac]. reflexivity.
Qed.

Lemma bad_packet_tags h c m payload len integrity key :
  bad_packet (set_mac (set_checksum h c) m) payload len integrity key = bad_packet h payload len integrity key.
Proof. reflexivity. Qed.

Lemma sign_verifies h payload len integrity key h' :
  wirecall_packet_sign_ex (Some h) payload len integrity key = Ok h' ->
  wirecall_packet_verify_ex (Some h') payload len integrity key = Ok tt /\
  exists c m, h' = set_mac (set_checksum h c) m.
Proof.
  unfold wirecall_packet_sign_ex. destruct (bad_packet _ _ _ _ _) eqn:Hbad; [done |].
  intros H.
  destruct (if has_flag integrity WIRECALL_INTEGRITY_CHECKSUM then _ else _) as [c| |] eqn:Hc in H; [| done ..].
  cbn [res_bind] in H.
  destruct (if has_flag integrity WIRECALL_INTEGRITY_MAC then _ else _) as [m| |] eqn:Hm in H; [| done ..].
  cbn [res_bind] in H. injection H as <-. split; [| eauto].
  unfold wirecall_packet_verify_ex. rewrite bad_packet_tags, Hbad.
  rewrite checksum_ignores_tags, mac_ignores_mac.
  destruct (has_flag integrity WIRECALL_INTEGRITY_CHECKSUM).
  - rewrite Hc. cbn [res_bind h_checksum set_mac set_checksum]. rewrite Z.eqb_refl. cbn [negb].
    destruct (has_flag integrity WIRECALL_INTEGRITY_MAC); [| done].
    rewrite Hm. cbn [res_bind h_mac set_mac]. by rewrite Z.eqb_refl.
  - cbn [res_bind negb]. destruct (has_flag integrity WIRECALL_INTEGRITY_MAC); [| done].
    rewrite Hm. cbn [res_bind h_mac set_mac]. by rewrite Z.eqb_refl.
Qed.

Lemma checksum_some h payload len data :
  bad_payload payload len = false -> buffer_bytes payload len = Ok data ->
  exists c, wirecall_packet_checksum (Some h) payload len = Ok c /\ 0 <= c < 2 ^ 32.
Proof. intros Hb Hd. rewrite (packet_checksum_hash _ _ _ data) by done. eauto using u32_range. Qed.

(** ** Ranges of the MAC *)
Definition sip_ok (s : sip_state) : Prop :=
  0 <= v0 s < 2 ^ 64 /\ 0 <= v1 s < 2 ^ 64 /\ 0 <= v2 s < 2 ^ 64 /\ 0 <= v3 s < 2 ^ 64.

Lemma sip_round_ok s : sip_ok s -> sip_ok (sip_round s).
Proof.
  destruct s as [a b c d]. unfold sip_ok. cbn [v0 v1 v2 v3]. intros (Ha & Hb & Hc & Hd).
  assert (R : forall x k, 0 <= x < 2 ^ 64 -> 0 < k < 64 -> 0 <= rotl64 x k < 2 ^ 64) by (intros; by apply rotl64_range).
  assert (X : forall x y, 0 <= x < 2 ^ 64 -> 0 <= u64 y < 2 ^ 64 -> 0 <= Z.lxor x (u64 y) < 2 ^ 64)
    by (intros; by apply lxor_range).
  cbn [sip_round v0 v1 v2 v3].
  split; [apply u64_range |]. split; [| split; [apply R; [apply u64_range | lia] |]].
  - apply X; [| apply u64_range]. apply R; [| lia]. apply X; [| apply u64_range]. apply R; [done | lia].
  - apply X; [| apply u64_range]. apply R; [| lia]. apply X; [| apply u64_range]. apply R; [done | lia].
Qed.

Lemma xor_v0_ok s m : sip_ok s -> 0 <= m < 2 ^ 64 -> sip_ok (xor_v0 s m).
Proof. intros (? & ? & ? & ?) ?. unfold sip_ok, xor_v0. cbn [v0 v1 v2 v3]. split; [by apply lxor_range | done]. Qed.
Lemma xor_v2_ok s m : sip_ok s -> 0 <= m < 2 ^ 64 -> sip_ok (xor_v2 s m).
Proof.
  intros (? & ? & ? & ?) ?. unfold sip_ok, xor_v2. cbn [v0 v1 v2 v3].
  split; [done |]. split; [done |]. split; [by apply lxor_range | done].
Qed.
Lemma xor_v3_ok s m : sip_ok s -> 0 <= m < 2 ^ 64 -> sip_ok (xor_v3 s m).
Proof.
  intros (? & ? & ? & ?) ?. unfold sip_ok, xor_v3. cbn [v0 v1 v2 v3].
  split; [done |]. split; [done |]. split; [done |]. by apply lxor_range.
Qed.

Lemma sip_compress_ok s m : sip_ok s -> 0 <= m < 2 ^ 64 -> sip_ok (sip_compress s m).
Proof. intros. apply xor_v0_ok; [| done]. do 2 apply sip_round_ok. by apply xor_v3_ok. Qed.

Lemma sip_finish_range s : sip_ok s -> 0 <= sip_finish s < 2 ^ 64.
Proof.
  intros Hs. unfold sip_finish.
  assert (Ho : forall s, sip_ok s -> 0 <= sip_output s < 2 ^ 64).
  { intros x (? & ? & ? & ?). unfold sip_output. repeat (apply lxor_range; [lia | | done]). done. }
  apply Ho. do 4 apply sip_round_ok. apply xor_v2_ok; [done | lia].
Qed.

Lemma sip_words_ok s data : sip_ok s -> bytes_ok data -> sip_ok (sip_words s data).1.
Proof.
  revert s. induction data as [l Hl|b0 b1 b2 b3 b4 b5 b6 b7 l IH] using list_ind8; intros s Hs Hd.
  - do 8 (destruct l as [|? l]; [exact Hs |]). cbn [length] in Hl. lia.
  - cbn [sip_words]. do 8 (apply Forall_cons_1 in Hd as [? Hd]). apply IH; [| done].
    apply sip_compress_ok; [done |]. apply native_range; [| done]. rewrite !bytes_ok_cons. auto 10 with wire.
Qed.

Lemma sip_rest_range data tail tlen : 0 <= tail < 2 ^ 64 -> 0 <= (sip_rest tail tlen data).1 < 2 ^ 64.
Proof.
  revert tail tlen. induction data as [|b data IH]; intros tail tlen Ht; cbn [sip_rest fst]; [done |].
  apply IH. apply lor_range; [lia | done | apply u64_range].
Qed.

Lemma sip_fill_range data tail tlen : 0 <= tail < 2 ^ 64 -> 0 <= (sip_fill tail tlen data).1.1 < 2 ^ 64.
Proof.
  revert tail tlen. induction data as [|b data IH]; intros tail tlen Ht; cbn [sip_fill fst]; [done |].
  destruct (tlen <? 8); [| done]. apply IH. apply lor_range; [lia | done | apply u64_range].
Qed.

Lemma sip_fill_ok data tail tlen : bytes_ok data -> bytes_ok (sip_fill tail tlen data).2.
Proof.
  revert tail tlen. induction data as [|b data IH]; intros tail tlen Hd; cbn [sip_fill snd]; [done |].
  destruct (tlen <? 8); [| done]. apply IH. by apply bytes_ok_cons in Hd as [_ ?].
Qed.

Definition sip_ctx_ok (c : sip_ctx) : Prop := sip_ok (sip_v c) /\ 0 <= tail_word c < 2 ^ 64.

Lemma sip_update_ok c data : sip_ctx_ok c -> bytes_ok data -> sip_ctx_ok (sip_update c data).
Proof.
  intros [Hs Ht] Hd. unfold sip_update.
  assert (G : forall s tail tlen data total, sip_ok s -> 0 <= tail < 2 ^ 64 -> bytes_ok data ->
    sip_ctx_ok (let '(s, data) := sip_words s data in let '(tail, tlen) := sip_rest tail tlen data in
      {| sip_v := s; total_len := total; tail_word := tail; tail_len := tlen |})).
  { intros s tail tlen d total Hs' Ht' Hd'. pose proof (sip_words_ok s d Hs' Hd').
    destruct (sip_words s d) as [s' d']. pose proof (sip_rest_range d' tail tlen Ht').
    by destruct (sip_rest tail tlen d'). }
  destruct (tail_len c =? 0); [by apply G |].
  pose proof (sip_fill_range data (tail_word c) (tail_len c) Ht) as Hf.
  pose proof (sip_fill_ok data (tail_word c) (tail_len c) Hd) as Hdf.
  destruct (sip_fill _ _ _) as [[tail tlen] d]. cbn [fst snd] in Hf, Hdf.
  destruct (tlen =? 8); apply G; try done. by apply sip_compress_ok.
Qed.

Lemma packet_mac_some h payload len key data :
  0 <= h_flags h < 256 -> bad_payload payload len = false -> buffer_bytes payload len = Ok data ->
  bytes_ok data -> bytes_ok key -> 16 <= zlen key ->
  exists m, wirecall_packet_mac (Some h) payload len (Some key) = Ok m /\ 0 <= m < 2 ^ 64.
Proof.
  intros Hf Hb Hd Hdok Hk Hkl. unfold wirecall_packet_mac. rewrite Hb, Hd. cbn [buffer_bytes].
  replace (16 <=? zlen key) with true by (symmetry; by apply Z.leb_le). cbn [res_bind].
  eexists. split; [reflexivity |]. apply sip_finish_range.
  set (k := ztake 16 key). assert (Hkk : bytes_ok k) by (by apply bytes_ok_ztake).
  assert (Lk : zlen k = 16) by (unfold k; rewrite zlen_ztake; lia).
  assert (H0 : 0 <= sip_load64 (ztake 8 k) < 2 ^ 64).
  { apply native_range; [by apply bytes_ok_ztake |].
    pose proof (zlen_ztake 8 k ltac:(lia)) as H8. rewrite zlen_length in H8. lia. }
  assert (H1 : 0 <= sip_load64 (zdrop 8 k) < 2 ^ 64).
  { apply native_range; [by apply bytes_ok_zdrop |].
    pose proof (zlen_zdrop 8 k ltac:(lia)) as H8. rewrite zlen_length in H8. lia. }
  set (c0 := {| sip_v := sip_init (sip_load64 (ztake 8 k)) (sip_load64 (zdrop 8 k));
                total_len := 0; tail_word := 0; tail_len := 0 |}).
  assert (Hc0 : sip_ctx_ok c0).
  { split; [| cbn; lia]. unfold sip_ok, c0, sip_init. cbn [sip_v v0 v1 v2 v3].
    split; [by apply lxor_range |]. split; [by apply lxor_range |]. split; by apply lxor_range. }
  assert (Hc2 : sip_ctx_ok (sip_update (sip_update c0 (mac_meta h len)) data)).
  { apply sip_update_ok; [| done]. apply sip_update_ok; [done |]. by apply mac_meta_ok. }
  destruct Hc2 as [Hs Ht]. apply sip_compress_ok; [done |].
  apply lor_range; [lia | done | apply u64_range].
Qed.

(** when the arguments are in order, signing succeeds with tags in range *)
Lemma sign_succeeds h payload len integrity key data :
  0 <= h_flags h < 256 -> bad_packet h payload len integrity key = false ->
  buffer_bytes payload len = Ok data -> bytes_ok data ->
  (forall k, key = Some k -> bytes_ok k /\ 16 <= zlen k) ->
  exists c m, wirecall_packet_sign_ex (Some h) payload len integrity key = Ok (set_mac (set_checksum h c) m) /\
    0 <= c < 2 ^ 32 /\ 0 <= m < 2 ^ 64.
Proof.
  intros Hf Hbad Hd Hdok Hkey. unfold wirecall_packet_sign_ex. rewrite Hbad.
  unfold bad_packet in Hbad. apply orb_false_elim in Hbad as [Hbad Hmk].
  apply orb_false_elim in Hbad as [Hb _].
  assert (Hc : exists c, (if has_flag integrity WIRECALL_INTEGRITY_CHECKSUM
      then wirecall_packet_checksum (Some h) payload len else Ok 0) = Ok c /\ 0 <= c < 2 ^ 32).
  { destruct (has_flag integrity WIRECALL_INTEGRITY_CHECKSUM); [by eapply checksum_some |]. exists 0. split; [done | lia]. }
  destruct Hc as (c & -> & Hcr). cbn [res_bind].
  assert (Hm : exists m, (if has_flag integrity WIRECALL_INTEGRITY_MAC
      then wirecall_packet_mac (Some (set_checksum h c)) payload len key else Ok 0) = Ok m /\ 0 <= m < 2 ^ 64).
  { destruct (has_flag integrity WIRECALL_INTEGRITY_MAC).
    - destruct key as [k|]; [| done]. destruct (Hkey k) as [? ?]; [done |]. by eapply packet_mac_some.
    - exists 0. split; [done | lia]. }
  destruct Hm as (m & -> & Hmr). cbn [res_bind]. eauto.
Qed.
End Sign.

(** verification reads no more than the payload *)
Lemma verify_prefix `{Host} h data rest len integrity key :
  len = zlen data ->
  wirecall_packet_verify_ex (Some h) (Some (data ++ rest)) len integrity key =
  wirecall_packet_verify_ex (Some h) (Some data) len integrity key.
Proof.
  intros ->. assert (Hbuf : buffer_bytes (Some (data ++ rest)) (zlen data) = buffer_bytes (Some data) (zlen data)).
  { cbn [buffer_bytes]. rewrite zlen_app, ztake_app_all, Z.leb_refl, ztake_ge by lia.
    pose proof (zlen_nonneg rest). by replace (zlen data <=? zlen data + zlen rest) with true by (symmetry; apply Z.leb_le; lia). }
  unfold wirecall_packet_verify_ex, wirecall_packet_checksum, wirecall_packet_mac, bad_packet, bad_payload. by rewrite Hbuf.
Qed.

(** a payload that is there is verified or refused *)
Lemma verify_defined `{Host} h data integrity key :
  zlen key = 16 -> wirecall_packet_verify_ex (Some h) (Some data) (zlen data) integrity (Some key) <> UB.
Proof.
  intros Hk. unfold wirecall_packet_verify_ex. destruct (bad_packet _ _ _ _ _) eqn:Hbad; [done |].
  unfold bad_packet in Hbad. apply orb_false_elim in Hbad as [Hbad _]. apply orb_false_elim in Hbad as [Hb _].
  assert (Hbuf : buffer_bytes (Some data) (zlen data) = Ok data) by (cbn [buffer_bytes]; by rewrite Z.leb_refl, ztake_ge by lia).
  assert (Hkb : buffer_bytes (Some key) 16 = Ok key) by (cbn [buffer_bytes]; rewrite Hk; by rewrite ztake_ge by lia).
  unfold wirecall_packet_checksum, wirecall_packet_mac. rewrite Hb, Hbuf, Hkb. cbn [res_bind].
  destruct (has_flag _ _), (has_flag _ _); cbn [res_bind]; repeat (case_match; try done).
Qed.


(** the id of a procedure is a 64-bit number *)
Lemma proc_id_loop_range name h : 0 <= h < 2 ^ 64 -> 0 <= proc_id_loop h name < 2 ^ 64.
Proof.
  revert h. induction name as [|b name IH]; intros h Hh; cbn [proc_id_loop]; [done |].
  destruct (u8 b =? 0); [done |]. apply IH. apply u64_range.
Qed.

Lemma proc_id_range name : 0 <= wirecall_proc_id name < 2 ^ 64.
Proof.
  destruct name as [name|]; cbn [wirecall_proc_id]; [| lia]. cbv zeta.
  pose proof (proc_id_loop_range name 14695981039346656037 ltac:(lia)). destruct (_ =? 0); lia.
Qed.


(** ** The packet the library makes of a payload *)
Definition fresh_header (op : wirecall_op) (proc_id call_id size : Z) : wirecall_header :=
  {| h_op := op_code op; h_flags := WIRECALL_FLAG_NONE; h_proc_id := proc_id; h_size := size;
     h_call_id := call_id; h_checksum := 0; h_mac := 0 |}.

Definition packet_of `{Host} (integrity : Z) (key : list Z) (op : wirecall_op) (proc_id call_id : Z) (data : list Z) : list Z :=
  match wirecall_packet_sign_ex (Some (fresh_header op proc_id call_id (zlen data))) (Some data) (zlen data) integrity (Some key) with
  | Ok h => header_bytes h ++ data
  | _ => []
  end.

Lemma packet_of_spec `{Host} integrity key op proc_id call_id data :
  0 <= proc_id < 2 ^ 64 -> 0 <= call_id < 2 ^ 64 -> bytes_ok data -> zlen data <= WIRECALL_MAX_PAYLOAD_SIZE ->
  bytes_ok key -> zlen key = 16 ->
  exists h,
    wirecall_packet_sign_ex (Some (fresh_header op proc_id call_id (zlen data))) (Some data) (zlen data) integrity (Some key) = Ok h /\
    header_ok h /\ h_op h = op_code op /\ h_proc_id h = proc_id /\ h_call_id h = call_id /\ h_size h = zlen data /\
    wirecall_packet_verify_ex (Some h) (Some data) (zlen data) integrity (Some key) = Ok tt /\
    packet_of integrity key op proc_id call_id data = header_bytes h ++ data.
Proof.
  intros Hp Hc Hd Hl Hk Hkl. unfold packet_of. pose proof (zlen_nonneg data).
  destruct (sign_succeeds (fresh_header op proc_id call_id (zlen data)) (Some data) (zlen data) integrity (Some key) data)
    as (c & m & E & Hcr & Hmr).
  - cbn [fresh_header h_flags]. unfold WIRECALL_FLAG_NONE. lia.
  - unfold bad_packet, bad_payload. replace (WIRECALL_MAX_PAYLOAD_SIZE <? zlen data) with false by (symmetry; apply Z.ltb_ge; lia).
    cbn [fresh_header h_size]. rewrite Z.eqb_refl. by destruct (has_flag _ _).
  - cbn [buffer_bytes]. rewrite Z.leb_refl, ztake_ge by lia. done.
  - done.
  - intros k [= <-]. split; [done | lia].
  - rewrite E. eexists. split; [done |]. apply sign_verifies in E as [Hv _].
    split_and!; try done. unfold header_ok.
    cbn [set_mac set_checksum fresh_header h_op h_flags h_proc_id h_size h_call_id h_checksum h_mac]. unfold WIRECALL_FLAG_NONE.
    split_and!; try lia. by destruct op.
Qed.

(** a NULL payload is an empty one *)
Lemma sign_null `{Host} h integrity key :
  wirecall_packet_sign_ex (Some h) None 0 integrity key = wirecall_packet_sign_ex (Some h) (Some []) 0 integrity key.
Proof. reflexivity. Qed.


(** ** Properties *)

(** C28: a packet that is signed, encoded and put on the wire is accepted by a
    receiver with the same host, integrity mode and key: the header decodes to
    the signed header, which differs from the given one only in its tags, and
    verification of it with the payload succeeds. *)
Theorem packet_wire_roundtrip `{Host} h data rest integrity key :
  header_ok h -> bytes_ok data -> bytes_ok rest -> zlen data = h_size h ->
  bytes_ok key -> zlen key = 16 ->
  exists c m bytes,
    wirecall_packet_sign_ex (Some h) (Some data) (zlen data) integrity (Some key) =
      Ok (set_mac (set_checksum h c) m) /\
    wirecall_header_encode (Some (set_mac (set_checksum h c) m)) true = Ok bytes /\
    wirecall_header_decode (Some (bytes ++ data ++ rest)) true = Ok (set_mac (set_checksum h c) m) /\
    wirecall_packet_verify_ex (Some (set_mac (set_checksum h c) m))
      (Some (zdrop WIRECALL_HEADER_SIZE (bytes ++ data ++ rest))) (h_size h) integrity (Some key) = Ok tt.
Proof.
  intros Hh Hd Hr Hs Hk Hkl. pose proof Hh as (Hop & Hf & Hp & Hsz & Hc & _).
  assert (Hlen : (WIRECALL_MAX_PAYLOAD_SIZE <? zlen data) = false) by (apply Z.ltb_ge; lia).
  destruct (sign_succeeds h (Some data) (zlen data) integrity (Some key) data) as (c & m & Hsig & Hcr & Hmr).
  - done.
  - unfold bad_packet, bad_payload. rewrite Hlen, <- Hs, Z.eqb_refl. by destruct (has_flag _ _).
  - cbn [buffer_bytes]. rewrite Z.leb_refl, ztake_ge by lia. done.
  - done.
  - intros k [= <-]. split; [done | lia].
  - set (h' := set_mac (set_checksum h c) m) in *.
    assert (Hh' : header_ok h') by (unfold header_ok, h'; cbn; tauto).
    exists c, m, (header_bytes h'). split; [done |]. split; [by apply header_encode_ok |].
    split; [apply header_decode_bytes; [done | by apply bytes_ok_app] |].
    rewrite zdrop_app_eq by done. apply sign_verifies in Hsig as [Hv _].
    rewrite <- Hs. by rewrite verify_prefix.
Qed.

Definition sample_key : list Z := [0; 1; 2; 3; 4; 5; 6; 7; 8; 9; 10; 11; 12; 13; 14; 15].
Definition sample_payload : list Z := [2; 0; 0; 0; 0; 0; 0; 0; 42].

Lemma packet_wire_roundtrip_witness :
  exists c m bytes,
    wirecall_packet_sign_ex (H := host_lp64) (Some header_sample) (Some sample_payload) 9 3 (Some sample_key) =
      Ok (set_mac (set_checksum header_sample c) m) /\
    wirecall_header_encode (Some (set_mac (set_checksum header_sample c) m)) true = Ok bytes /\
    wirecall_header_decode (Some (bytes ++ sample_payload ++ [7])) true = Ok (set_mac (set_checksum header_sample c) m) /\
    wirecall_packet_verify_ex (H := host_lp64) (Some (set_mac (set_checksum header_sample c) m))
      (Some (zdrop WIRECALL_HEADER_SIZE (bytes ++ sample_payload ++ [7]))) 9 3 (Some sample_key) = Ok tt.
Proof.
  apply (packet_wire_roundtrip (H := host_lp64) header_sample sample_payload [7] 3 sample_key); by_compute.
Defined.

(** Whatever is signed verifies, for every integrity mode and key, and
    signing changes nothing but the two tags. *)
Theorem packet_sign_verifies `{Host} h payload len integrity key h' :
  wirecall_packet_sign_ex (Some h) payload len integrity key = Ok h' ->
  wirecall_packet_verify_ex (Some h') payload len integrity key = Ok tt /\
  exists c m, h' = set_mac (set_checksum h c) m.
Proof. apply sign_verifies. Qed.

Lemma packet_sign_verifies_witness :
  exists h', wirecall_packet_sign_ex (H := host_lp64) (Some header_sample) (Some sample_payload) 9 3 (Some sample_key) = Ok h' /\
  wirecall_packet_verify_ex (H := host_lp64) (Some h') (Some sample_payload) 9 3 (Some sample_key) = Ok tt.
Proof.
  eexists. split; [vm_compute; reflexivity |].
  apply (packet_sign_verifies (H := host_lp64) header_sample (Some sample_payload) 9 3 (Some sample_key)).
  vm_compute. reflexivity.
Defined.

(** C19: verification accepts a packet exactly when the payload is present and
    within the limit, the header states its length, a key is given if a MAC is
    asked for, and each tag asked for is the one computed from the packet. *)
Theorem packet_verify_iff `{Host} h payload len integrity key :
  wirecall_packet_verify_ex (Some h) payload len integrity key = Ok tt <->
  (payload <> None \/ len <= 0) /\ len <= WIRECALL_MAX_PAYLOAD_SIZE /\ h_size h = len /\
  (has_flag integrity WIRECALL_INTEGRITY_MAC = true -> key <> None) /\
  (has_flag integrity WIRECALL_INTEGRITY_CHECKSUM = true ->
     wirecall_packet_checksum (Some h) payload len = Ok (h_checksum h)) /\
  (has_flag integrity WIRECALL_INTEGRITY_MAC = true ->
     wirecall_packet_mac (Some h) payload len key = Ok (h_mac h)).
Proof.
  assert (Hguard : bad_packet h payload len integrity key = false <->
    (payload <> None \/ len <= 0) /\ len <= WIRECALL_MAX_PAYLOAD_SIZE /\ h_size h = len /\
    (has_flag integrity WIRECALL_INTEGRITY_MAC = true -> key <> None)).
  { unfold bad_packet, bad_payload. rewrite !orb_false_iff, negb_false_iff, Z.eqb_eq, Z.ltb_ge.
    destruct payload, key, (has_flag integrity WIRECALL_INTEGRITY_MAC); cbn [andb];
      rewrite ?Z.ltb_ge; intuition (try congruence; try discriminate; eauto). }
  assert (Hsplit : forall a b c d e f : Prop, (a /\ b /\ c /\ d) /\ (e /\ f) <-> a /\ b /\ c /\ d /\ e /\ f)
    by tauto.
  rewrite <- Hsplit, <- Hguard. unfold wirecall_packet_verify_ex.
  destruct (bad_packet h payload len integrity key); [split; [done | by intros [? _]] |].
  assert (Htag : forall b (r : res Z) x k,
    ((let? ok := if b : bool then let? c := r in Ok (c =? x) else Ok true in
      if negb ok then Err else k) = Ok tt) <-> (b = true -> r = Ok x) /\ k = Ok tt).
  { intros [] [c| |] x k; cbn [res_bind]; try (split; [done | intros [Hx _]; by discriminate Hx]).
    - destruct (c =? x) eqn:E; zb; cbn [negb].
      + subst. tauto.
      + split; [done |]. intros [Hx _]. injection (Hx eq_refl) as ->. done.
    - cbn [negb]. split; [intros ->; split; [discriminate | done] | tauto].
    - cbn [negb]. split; [intros ->; split; [discriminate | done] | tauto].
    - cbn [negb]. split; [intros ->; split; [discriminate | done] | tauto]. }
  rewrite !Htag. tauto.
Qed.

(** C35: on a little-endian host the streaming computation (header fields, then
    payload, through the tail buffer) is SipHash-2-4 under the key of the 30
    header bytes followed by the payload. *)
Theorem packet_mac_is_siphash `{Host} h data key :
  host_endian = LittleEndian ->
  0 <= h_flags h < 256 -> bytes_ok data -> zlen data <= WIRECALL_MAX_PAYLOAD_SIZE -> zlen key = 16 ->
  wirecall_packet_mac (Some h) (Some data) (zlen data) (Some key) = Ok (siphash24 key (mac_message h data)).
Proof.
  intros Hle Hf Hd Hlen Hk. apply packet_mac_siphash; try done.
  - unfold bad_payload. apply Z.ltb_ge. done.
  - cbn [buffer_bytes]. rewrite Z.leb_refl, ztake_ge by lia. done.
Qed.

Lemma packet_mac_is_siphash_witness :
  wirecall_packet_mac (H := host_lp64) (Some header_sample) (Some sample_payload) 9 (Some sample_key) =
  Ok (siphash24 sample_key (mac_message header_sample sample_payload)).
Proof. apply (packet_mac_is_siphash (H := host_lp64) header_sample sample_payload sample_key); by_compute. Defined.

Lemma put_u64_inj v w r q :
  0 <= v < 2 ^ 64 -> 0 <= w < 2 ^ 64 -> put_u64 v ++ r = put_u64 w ++ q -> v = w /\ r = q.
Proof.
  intros Hv Hw E. apply app_inj_1 in E as [E ->]; [| done]. split; [| done].
  apply (f_equal be_combine) in E. rewrite !put_u64_split, !be_combine_split in E.
  change (256 ^ Z.of_nat 8) with (2 ^ 64) in E. rewrite !Z.mod_small in E; done.
Qed.

Lemma put_u32_inj v w r q :
  0 <= v < 2 ^ 32 -> 0 <= w < 2 ^ 32 -> put_u32 v ++ r = put_u32 w ++ q -> v = w /\ r = q.
Proof.
  intros Hv Hw E. apply app_inj_1 in E as [E ->]; [| done]. split; [| done].
  apply (f_equal be_combine) in E. rewrite !put_u32_split, !be_combine_split in E.
  change (256 ^ Z.of_nat 4) with (2 ^ 32) in E. rewrite !Z.mod_small in E; done.
Qed.

(** The message under the MAC determines the packet: two packets with the
    same MAC input agree on the operation, flags, procedure, size, call and
    checksum fields and on every byte of the payload. *)
Theorem mac_input_determines_packet h1 h2 data1 data2 :
  raw_header_ok h1 -> raw_header_ok h2 -> mac_message h1 data1 = mac_message h2 data2 ->
  set_mac h1 0 = set_mac h2 0 /\ data1 = data2.
Proof.
  intros (Ho1 & Hf1 & Hp1 & Hs1 & Hc1 & Hk1 & _) (Ho2 & Hf2 & Hp2 & Hs2 & Hc2 & Hk2 & _) E.
  unfold mac_message in E. apply app_inj_1 in E as [E Hdata]; [| done]. split; [| done].
  unfold mac_meta in E. rewrite !u8_small in E by done.
  apply app_inj_1 in E as [E1 E]; [| done]. injection E1 as Eop Efl.
  apply put_u64_inj in E as [Ep E]; [| done ..]. apply put_u32_inj in E as [Es E]; [| done ..].
  apply put_u64_inj in E as [Ec E]; [| done ..]. apply put_u32_inj in E as [Ek _]; [| done ..].
  unfold set_mac. by rewrite Eop, Efl, Ep, Es, Ec, Ek.
Qed.

Lemma mac_input_determines_packet_witness :
  set_mac header_sample 0 = set_mac (set_mac header_sample 5) 0 /\ sample_payload = sample_payload.
Proof. apply (mac_input_determines_packet header_sample (set_mac header_sample 5)); by_compute. Defined.

(** A change confined to one aligned 8-byte word of the payload, or to the
    last partial word, always changes the 64-bit hash that the checksum folds. *)
Theorem checksum_hash_detects_word `{Host} h pre a b post :
  raw_header_ok h -> bytes_ok (pre ++ a ++ post) -> bytes_ok b ->
  (length pre mod 8 = 0)%nat -> length a = length b ->
  length a = 8%nat \/ (length a < 8)%nat /\ post = [] -> a <> b ->
  packet_hash h (pre ++ a ++ post) <> packet_hash h (pre ++ b ++ post).
Proof.
  intros Hh Hok Hb Hpre Hlen Hshape Hne E. apply Hne.
  eapply cheap_hash_inj_word in E; try done.
  apply lxor_range; [lia | by apply packet_seed_range | lia].
Qed.

Lemma checksum_hash_detects_word_witness :
  packet_hash (HH := host_lp64) header_sample ([2; 0; 0; 0; 0; 0; 0; 0] ++ [42] ++ []) <>
  packet_hash (HH := host_lp64) header_sample ([2; 0; 0; 0; 0; 0; 0; 0] ++ [43] ++ []).
Proof. apply (checksum_hash_detects_word (H := host_lp64)); by_compute. Defined.

(** A change of a single header field always changes that hash: two
    packets with the same payload and hash that agree on two of (op, flags and
    size), procedure id and call id agree on the third. *)
Theorem checksum_hash_detects_field `{Host} h1 h2 data :
  raw_header_ok h1 -> raw_header_ok h2 -> bytes_ok data ->
  packet_hash h1 data = packet_hash h2 data ->
  let meta h := (h_op h, h_flags h, h_size h) in
  (meta h1 = meta h2 -> h_call_id h1 = h_call_id h2 -> h_proc_id h1 = h_proc_id h2) /\
  (meta h1 = meta h2 -> h_proc_id h1 = h_proc_id h2 -> h_call_id h1 = h_call_id h2) /\
  (h_proc_id h1 = h_proc_id h2 -> h_call_id h1 = h_call_id h2 -> meta h1 = meta h2).
Proof.
  intros H1 H2 Hd E meta. apply packet_hash_inj_seed in E; [| done ..]. apply packet_seed_inj in E; [| done ..].
  destruct H1 as (Ho1 & Hf1 & Hp1 & Hs1 & Hc1 & _), H2 as (Ho2 & Hf2 & Hp2 & Hs2 & Hc2 & _).
  unfold seed_fields, seed_meta in E. subst meta. cbn beta. split; [| split].
  - intros [= Eo Ef Es] Ec. rewrite Eo, Ef, Es, Ec in E. apply lxor_cancel_r, lxor_cancel_l in E.
    by apply rotl64_inj in E.
  - intros [= Eo Ef Es] Ep. rewrite Eo, Ef, Es, Ep in E. apply lxor_cancel_l in E. by apply rotl64_inj in E.
  - intros Ep Ec. rewrite Ep, Ec in E. apply lxor_cancel_r, lxor_cancel_r in E.
    assert (h_op h1 = h_op h2 /\ h_flags h1 = h_flags h2 /\ h_size h1 = h_size h2) as (-> & -> & ->) by lia. done.
Qed.

Lemma checksum_hash_detects_field_witness :
  packet_hash (HH := host_lp64) header_sample sample_payload =
  packet_hash (HH := host_lp64) (set_mac header_sample 5) sample_payload /\
  h_proc_id header_sample = h_proc_id (set_mac header_sample 5).
Proof.
  split; [vm_compute; reflexivity |].
  apply (checksum_hash_detects_field (H := host_lp64) header_sample (set_mac header_sample 5) sample_payload);
    by_compute || reflexivity.
Defined.

Lemma proc_id_loop_fnv s rest h :
  Forall (fun c => 0 < c < 256) s ->
  proc_id_loop h (s ++ 0 :: rest) = fold_left (fun h c => u64 (Z.lxor h c * 1099511628211)) s h.
Proof.
  intros Hs. revert h. induction Hs as [|c s Hc _ IH]; intros h; cbn [app proc_id_loop fold_left]; [done |].
  rewrite u8_small by lia. replace (c =? 0) with false by (symmetry; apply Z.eqb_neq; lia). apply IH.
Qed.

Lemma fold_fnv_range s h :
  0 <= h < 2 ^ 64 -> 0 <= fold_left (fun h c => u64 (Z.lxor h c * 1099511628211)) s h < 2 ^ 64.
Proof.
  revert h. induction s as [|c s IH]; intros h Hh; cbn [fold_left]; [done |]. apply IH. apply u64_range.
Qed.

(** A procedure name hashes to its 64-bit FNV-1a hash, read up to the
    terminator, with 0 replaced by 1: every name has a non-zero 64-bit id, so
    no name collides with the id 0 of a missing name or of a ping. *)
Theorem proc_id_is_fnv1a s rest :
  Forall (fun c => 0 < c < 256) s ->
  wirecall_proc_id (Some (s ++ 0 :: rest)) = (if fnv1a s =? 0 then 1 else fnv1a s) /\
  0 < wirecall_proc_id (Some (s ++ 0 :: rest)) < 2 ^ 64.
Proof.
  intros Hs. unfold wirecall_proc_id. rewrite proc_id_loop_fnv by done. fold (fnv1a s). split; [done |].
  assert (0 <= fnv1a s < 2 ^ 64) by (apply fold_fnv_range; lia).
  destruct (fnv1a s =? 0) eqn:E; zb; lia.
Qed.

Lemma proc_id_is_fnv1a_witness :
  wirecall_proc_id (Some ([97; 100; 100] ++ [0; 99])) = (if fnv1a [97; 100; 100] =? 0 then 1 else fnv1a [97; 100; 100]) /\
  0 < wirecall_proc_id (Some ([97; 100; 100] ++ [0; 99])) < 2 ^ 64.
Proof. apply (proc_id_is_fnv1a [97; 100; 100] [99]); by_compute. Defined.

(** The checksum and the MAC read payload and key words in the byte order
    of the host while the header fields are big-endian: the packet of the
    protocol test, signed on a big-endian host, is rejected by a
    little-endian one, in both integrity modes. *)
Theorem integrity_not_portable :
  (exists h, wirecall_packet_sign_ex (H := host_lp64_be) (Some header_sample) (Some sample_payload) 9
     WIRECALL_INTEGRITY_CHECKSUM None = Ok h /\
     wirecall_packet_verify_ex (H := host_lp64) (Some h) (Some sample_payload) 9 WIRECALL_INTEGRITY_CHECKSUM None = Err) /\
  (exists h, wirecall_packet_sign_ex (H := host_lp64_be) (Some header_sample) (Some sample_payload) 9
     WIRECALL_INTEGRITY_MAC (Some sample_key) = Ok h /\
     wirecall_packet_verify_ex (H := host_lp64) (Some h) (Some sample_payload) 9 WIRECALL_INTEGRITY_MAC (Some sample_key) = Err).
Proof. split; (eexists; split; [vm_compute; reflexivity |]; vm_compute; reflexivity). Qed.
