(* ===== verification/Memory.v ===== *)
(** * Memory: the process-wide allocator (src/memory.c, include/memory.h)

    The interface [Heap] states what the rest of the library relies on when it
    allocates: operations on a world [W] together with the set of blocks that
    are live in it.  Contents of blocks are kept by the structures that own
    them; the heap accounts for which blocks are live, so a leak, a double free
    or a use of a stale pointer is a statement about [heap_live].

    The model of memory.c is over the C library's malloc, realloc and free,
    which are parameters with their documented behaviour as [alloc_laws], and
    over hooks installed by the embedding program; its last part shows that it
    implements [Heap].  [toy_heap] is a concrete instance with scripted
    allocation failures, used to evaluate the models. *)

From S2P Require Import Prelude.

(** ** The interface *)
Record alloc_laws {W : Type} (live : W -> gset Z) (inv : W -> Prop) (lo : Z)
    (al : Z -> W -> option Z * W) (re : option Z -> Z -> W -> option Z * W) (fr : Z -> W -> W) : Prop := {
  law_alloc : forall n w r w', lo <= n -> inv w -> al n w = (r, w') ->
    inv w' /\ match r with
              | Some p => (p ∉ live w) /\ live w' = {[p]} ∪ live w
              | None => live w' = live w
              end;
  (** realloc(NULL, n) is malloc(n) *)
  law_realloc_null : forall n w, lo <= n -> inv w -> re None n w = al n w;
  law_realloc : forall p n w r w', lo <= n -> inv w -> p ∈ live w -> re (Some p) n w = (r, w') ->
    inv w' /\ match r with
              | Some q => (q ∉ live w ∖ {[p]}) /\ live w' = {[q]} ∪ live w ∖ {[p]}
              | None => live w' = live w
              end;
  law_free : forall p w, inv w -> p ∈ live w -> inv (fr p w) /\ live (fr p w) = live w ∖ {[p]};
}.

Class Heap (W : Type) := {
  heap_alloc : Z -> W -> option Z * W;
  heap_realloc : option Z -> Z -> W -> option Z * W;
  heap_free : Z -> W -> W;
  heap_live : W -> gset Z;
  heap_inv : W -> Prop;
  heap_laws : alloc_laws heap_live heap_inv 0 heap_alloc heap_realloc heap_free;
}.

(** free(NULL) does nothing *)
Definition heap_free_opt `{Heap W} (p : option Z) (w : W) : W :=
  match p with None => w | Some p => heap_free p w end.

(** calloc over a heap: the product is checked for overflow *)
Definition heap_calloc `{Host} `{Heap W} (count size : Z) (w : W) : option Z * W :=
  if negb (count =? 0) && (SIZE_MAX / count <? size) then (None, w)
  else heap_alloc (usize (count * size)) w.

(** ** memory.c *)
Section MemoryC.
Context `{HH : Host} {W : Type}.
(** the C library: malloc, realloc and free *)
Variable malloc : Z -> W -> option Z * W.
Variable realloc : option Z -> Z -> W -> option Z * W.
Variable free : Z -> W -> W.

Record wirecall_allocator := {
  a_ctx : Z;
  a_alloc : option (Z -> Z -> W -> option Z * W);
  a_realloc : option (Z -> option Z -> Z -> W -> option Z * W);
  a_free : option (Z -> Z -> W -> W);
}.

Definition null_allocator : wirecall_allocator :=
  {| a_ctx := 0; a_alloc := None; a_realloc := None; a_free := None |}.

(** the process: the static g_allocator and the rest of the world *)
Record process := { g_allocator : wirecall_allocator; p_world : W }.

Definition set_world (s : process) (w : W) : process := {| g_allocator := g_allocator s; p_world := w |}.



Definition wirecall_get_allocator (s : process) : wirecall_allocator := g_allocator s.

Definition wirecall_mem_alloc (size : Z) (s : process) : option Z * process :=
  let size := if size =? 0 then 1 else size in
  let allocator := wirecall_get_allocator s in
  let '(p, w) :=
    match a_alloc allocator with
    | Some alloc => alloc (a_ctx allocator) size (p_world s)
    | None => malloc size (p_world s)
    end in
  (p, set_world s w).

(** the memset of the new block is the zero initialisation of what the callers
    build in it *)
Definition wirecall_mem_calloc (count size : Z) (s : process) : option Z * process :=
  if negb (count =? 0) && (SIZE_MAX / count <? size) then (None, s)
  else wirecall_mem_alloc (usize (count * size)) s.

Definition wirecall_mem_realloc (ptr : option Z) (size : Z) (s : process) : option Z * process :=
  let size := if size =? 0 then 1 else size in
  let allocator := wirecall_get_allocator s in
  let '(p, w) :=
    match a_realloc allocator with
    | Some re => re (a_ctx allocator) ptr size (p_world s)
    | None => realloc ptr size (p_world s)
    end in
  (p, set_world s w).

Definition wirecall_mem_free (ptr : option Z) (s : process) : process :=
  match ptr with
  | None => s
  | Some p =>
      let allocator := wirecall_get_allocator s in
      match a_free allocator with
      | Some fr => set_world s (fr (a_ctx allocator) p (p_world s))
      | None => set_world s (free p (p_world s))
      end
  end.

(** ** memory.c implements the interface

    A block has an owner, the allocator it came from: the C library, or hooks, by
    their context.  An allocator promises something about its own blocks only. *)
Variable owned : W -> gmap Z (option Z).
Variable winv : W -> Prop.

Record owner_laws (who : option Z) (al : Z -> W -> option Z * W) (re : option Z -> Z -> W -> option Z * W) (fr : Z -> W -> W) : Prop := {
  ol_alloc : forall n w r w', 1 <= n -> winv w -> al n w = (r, w') ->
    winv w' /\ match r with
               | Some p => owned w !! p = None /\ owned w' = <[p := who]> (owned w)
               | None => owned w' = owned w
               end;
  ol_realloc_null : forall n w, 1 <= n -> winv w -> re None n w = al n w;
  ol_realloc : forall p n w r w', 1 <= n -> winv w -> owned w !! p = Some who -> re (Some p) n w = (r, w') ->
    winv w' /\ match r with
               | Some q => delete p (owned w) !! q = None /\ owned w' = <[q := who]> (delete p (owned w))
               | None => owned w' = owned w
               end;
  ol_free : forall p w, winv w -> owned w !! p = Some who -> winv (fr p w) /\ owned (fr p w) = delete p (owned w);
}.
Hypothesis libc_laws : owner_laws None malloc realloc free.

(** a set of hooks that manages its blocks as documented for malloc *)
Definition hooks_lawful (a : wirecall_allocator) : Prop :=
  exists al re fr, a_alloc a = Some al /\ a_realloc a = Some re /\ a_free a = Some fr /\
    owner_laws (Some (a_ctx a)) (al (a_ctx a)) (re (a_ctx a)) (fr (a_ctx a)).

(** what may be in force: no hook at all, or a lawful set of three *)
Definition allocator_ok (a : wirecall_allocator) : Prop :=
  (a_alloc a = None /\ a_realloc a = None /\ a_free a = None) \/ hooks_lawful a.
Definition in_charge (a : wirecall_allocator) : option Z := match a_alloc a with Some _ => Some (a_ctx a) | None => None end.

Definition process_inv (s : process) : Prop := allocator_ok (g_allocator s) /\ winv (p_world s).
Notation p_owned s := (owned (p_world s)).
Notation p_who s := (in_charge (g_allocator s)).

(** the allocator in force, as one lawful triple *)
Lemma in_force_laws a :
  allocator_ok a ->
  owner_laws (in_charge a)
    (match a_alloc a with Some al => al (a_ctx a) | None => malloc end)
    (match a_realloc a with Some re => re (a_ctx a) | None => realloc end)
    (match a_free a with Some fr => fr (a_ctx a) | None => free end).
Proof. unfold in_charge. intros [(E1 & E2 & E3) | (al & re & fr & E1 & E2 & E3 & L)]; by rewrite E1, E2, E3. Qed.

Lemma size_pos n : 0 <= n -> 1 <= if n =? 0 then 1 else n.
Proof. intros Hn. destruct (n =? 0) eqn:E; zb; lia. Qed.

Lemma mem_alloc_spec n s r s' : 0 <= n -> process_inv s -> wirecall_mem_alloc n s = (r, s') ->
  process_inv s' /\ g_allocator s' = g_allocator s /\
  match r with
  | Some p => p_owned s !! p = None /\ p_owned s' = <[p := p_who s]> (p_owned s)
  | None => p_owned s' = p_owned s
  end.
Proof.
  intros Hn [Ha Hw] H. pose proof (in_force_laws _ Ha) as L. unfold wirecall_mem_alloc, wirecall_get_allocator in H.
  destruct (match a_alloc _ with Some al => al _ _ _ | None => _ end) as [p w] eqn:E. injection H as <- <-.
  destruct (ol_alloc _ _ _ _ L (if n =? 0 then 1 else n) (p_world s) p w) as [Hi Hp];
    [by apply size_pos | done | by destruct (a_alloc (g_allocator s)) |]. split; [by split | done].
Qed.
Lemma mem_realloc_null n s : 0 <= n -> process_inv s -> wirecall_mem_realloc None n s = wirecall_mem_alloc n s.
Proof.
  intros Hn [Ha Hw]. pose proof (in_force_laws _ Ha) as L. pose proof (ol_realloc_null _ _ _ _ L _ (p_world s) (size_pos n Hn) Hw) as E.
  unfold wirecall_mem_alloc, wirecall_mem_realloc, wirecall_get_allocator.
  by destruct (a_alloc (g_allocator s)), (a_realloc (g_allocator s)); rewrite E.
Qed.
Lemma mem_realloc_spec p n s r s' : 0 <= n -> process_inv s -> p_owned s !! p = Some (p_who s) -> wirecall_mem_realloc (Some p) n s = (r, s') ->
  process_inv s' /\ g_allocator s' = g_allocator s /\
  match r with
  | Some q => delete p (p_owned s) !! q = None /\ p_owned s' = <[q := p_who s]> (delete p (p_owned s))
  | None => p_owned s' = p_owned s
  end.
Proof.
  intros Hn [Ha Hw] Hp H. pose proof (in_force_laws _ Ha) as L. unfold wirecall_mem_realloc, wirecall_get_allocator in H.
  destruct (match a_realloc _ with Some re => re _ _ _ _ | None => _ end) as [q w] eqn:E. injection H as <- <-.
  destruct (ol_realloc _ _ _ _ L p (if n =? 0 then 1 else n) (p_world s) q w) as [Hi Hq];
    [by apply size_pos | done | done | by destruct (a_realloc (g_allocator s)) |]. split; [by split | done].
Qed.
Lemma mem_free_spec p s : process_inv s -> p_owned s !! p = Some (p_who s) ->
  process_inv (wirecall_mem_free (Some p) s) /\ g_allocator (wirecall_mem_free (Some p) s) = g_allocator s /\
  p_owned (wirecall_mem_free (Some p) s) = delete p (p_owned s).
Proof.
  intros [Ha Hw] Hp. pose proof (in_force_laws _ Ha) as L. destruct (ol_free _ _ _ _ L p (p_world s) Hw Hp) as [Hi Hf].
  unfold wirecall_mem_free, wirecall_get_allocator. destruct (a_free (g_allocator s)); (split; [by split | by split]).
Qed.

(** the blocks of the allocator in force *)
Definition mine (s : process) : gset Z := dom (filter (fun x => x.2 = p_who s) (p_owned s)).
Lemma elem_mine p s : p ∈ mine s <-> p_owned s !! p = Some (p_who s).
Proof.
  unfold mine. rewrite elem_of_dom. unfold is_Some. setoid_rewrite map_lookup_filter_Some. cbn. split; [by intros (x & Hx & ->) | by eexists].
Qed.
Lemma mine_same s s' : g_allocator s' = g_allocator s -> p_owned s' = p_owned s -> mine s' = mine s.
Proof. unfold mine. by intros -> ->. Qed.

Lemma process_laws : alloc_laws mine process_inv 0 wirecall_mem_alloc wirecall_mem_realloc (fun p => wirecall_mem_free (Some p)).
Proof.
  constructor.
  - intros n s r s' Hn Hi E. destruct (mem_alloc_spec n s r s' Hn Hi E) as (Hi' & Ea & Hr). split; [done |].
    destruct r as [p|]; [| by apply mine_same]. destruct Hr as [Hp Ho]. split; [rewrite elem_mine; congruence |].
    apply leibniz_equiv. intros x. rewrite elem_of_union, elem_of_singleton, !elem_mine, Ho, Ea, lookup_insert_Some.
    split; [intros [[-> _] | [_ ?]]; [by left | by right] |]. intros [-> | Hx]; [by left | right]. split; [congruence | done].
  - intros n s. apply mem_realloc_null.
  - intros p n s r s' Hn Hi Hp%elem_mine E. destruct (mem_realloc_spec p n s r s' Hn Hi Hp E) as (Hi' & Ea & Hr). split; [done |].
    destruct r as [q|]; [| by apply mine_same]. destruct Hr as [Hq Ho]. split.
    + rewrite elem_of_difference, elem_of_singleton, elem_mine. intros [Hx Hne]. rewrite lookup_delete_ne in Hq by done. congruence.
    + apply leibniz_equiv. intros x. rewrite elem_of_union, elem_of_difference, !elem_of_singleton, !elem_mine, Ho, Ea, lookup_insert_Some, lookup_delete_Some.
      split; [intros [[-> _] | (_ & Hne & ?)]; [by left | by right] |]. intros [-> | [Hx Hne]]; [by left |].
      destruct (decide (q = x)) as [-> | Hqx]; [by left | right]. split; [done |]. split; [done | done].
  - intros p s Hi Hp%elem_mine. destruct (mem_free_spec p s Hi Hp) as (Hi' & Ea & Ho). split; [done |].
    apply leibniz_equiv. intros x. rewrite elem_of_difference, elem_of_singleton, !elem_mine, Ho, Ea, lookup_delete_Some. naive_solver.
Qed.

Definition process_heap : Heap process := {|
  heap_alloc := wirecall_mem_alloc;
  heap_realloc := wirecall_mem_realloc;
  heap_free := fun p => wirecall_mem_free (Some p);
  heap_live := mine;
  heap_inv := process_inv;
  heap_laws := process_laws;
|}.









Lemma process_calloc count size s :
  heap_calloc (H0 := process_heap) count size s = wirecall_mem_calloc count size s.
Proof. reflexivity. Qed.
End MemoryC.

(** ** The address space

    No 64-bit host has as much as [2 ^ 62] bytes of memory: a larger request
    can be refused. *)
Definition ADDRESS_SPACE : Z := 2 ^ 62.

(** ** What clients use of the interface *)
Section HeapFacts.
Context `{HP : Heap W}.

Lemma heap_alloc_some n w p w' :
  0 <= n -> heap_inv w -> heap_alloc n w = (Some p, w') ->
  heap_inv w' /\ (p ∉ heap_live w) /\ heap_live w' = {[p]} ∪ heap_live w.
Proof. intros Hn Hi H. by destruct (law_alloc _ _ _ _ _ _ heap_laws _ _ _ _ Hn Hi H). Qed.

Lemma heap_alloc_none n w w' :
  0 <= n -> heap_inv w -> heap_alloc n w = (None, w') -> heap_inv w' /\ heap_live w' = heap_live w.
Proof. intros Hn Hi H. by destruct (law_alloc _ _ _ _ _ _ heap_laws _ _ _ _ Hn Hi H). Qed.

(** the blocks named by an optional pointer *)
Definition opt_block (p : option Z) : gset Z := match p with None => ∅ | Some p => {[p]} end.

Lemma heap_realloc_some p n w q w' :
  0 <= n -> heap_inv w -> opt_block p ⊆ heap_live w -> heap_realloc p n w = (Some q, w') ->
  heap_inv w' /\ (q ∉ heap_live w ∖ opt_block p) /\ heap_live w' = {[q]} ∪ heap_live w ∖ opt_block p.
Proof.
  intros Hn Hi Hp H. destruct p as [p|]; cbn [opt_block] in *.
  - by destruct (law_realloc _ _ _ _ _ _ heap_laws p _ _ _ _ Hn Hi ltac:(set_solver) H).
  - rewrite (law_realloc_null _ _ _ _ _ _ heap_laws n w Hn Hi) in H.
    destruct (heap_alloc_some _ _ _ _ Hn Hi H) as (? & ? & E). split; [done |].
    rewrite difference_empty_L. done.
Qed.

Lemma heap_realloc_none p n w w' :
  0 <= n -> heap_inv w -> opt_block p ⊆ heap_live w -> heap_realloc p n w = (None, w') ->
  heap_inv w' /\ heap_live w' = heap_live w.
Proof.
  intros Hn Hi Hp H. destruct p as [p|]; cbn [opt_block] in *.
  - by destruct (law_realloc _ _ _ _ _ _ heap_laws p _ _ _ _ Hn Hi ltac:(set_solver) H).
  - rewrite (law_realloc_null _ _ _ _ _ _ heap_laws n w Hn Hi) in H. by eapply heap_alloc_none.
Qed.

Lemma heap_free_opt_spec p w :
  heap_inv w -> opt_block p ⊆ heap_live w ->
  heap_inv (heap_free_opt p w) /\ heap_live (heap_free_opt p w) = heap_live w ∖ opt_block p.
Proof.
  intros Hi Hp. destruct p as [p|]; cbn [opt_block heap_free_opt] in *.
  - apply (law_free _ _ _ _ _ _ heap_laws); [done | set_solver].
  - by rewrite difference_empty_L.
Qed.

(** *** Ownership accounting

    [owns base l w]: the live blocks of [w] are those of [base] and, disjoint
    from them and listed once each, the blocks of [l]. *)
Definition owns (base : gset Z) (l : list Z) (w : W) : Prop :=
  heap_inv w /\ NoDup l /\ (forall p, p ∈ l -> p ∉ base) /\ heap_live w = base ∪ list_to_set l.

#[global] Instance owns_perm base : Proper ((≡ₚ) ==> eq ==> iff) (owns base).
Proof.
  intros l k Hp w ? <-. unfold owns. rewrite Hp.
  split; intros (Hi & Hn & Hd & Hl); (split; [done |]; split; [done |]; split; [| done]).
  - intros p Hk. apply Hd. by rewrite Hp.
  - intros p Hk. apply Hd. by rewrite <- Hp.
Qed.

Lemma owns_start w : heap_inv w -> owns (heap_live w) [] w.
Proof.
  intros Hi. split; [done |]. split; [constructor |]. split; [by intros p Hp%elem_of_nil |].
  cbn. by rewrite union_empty_r_L.
Qed.

Lemma owns_nil base w : owns base [] w -> heap_inv w /\ heap_live w = base.
Proof. intros (Hi & _ & _ & Hl). split; [done |]. rewrite Hl. cbn. by rewrite union_empty_r_L. Qed.

Lemma owns_inv base l w : owns base l w -> heap_inv w.
Proof. by intros (? & _). Qed.

Lemma owns_alloc base l n w p w' :
  0 <= n -> owns base l w -> heap_alloc n w = (Some p, w') -> owns base (p :: l) w'.
Proof.
  intros Hn (Hi & Hnd & Hd & Hl) H. destruct (heap_alloc_some _ _ _ _ Hn Hi H) as (Hi' & Hp & Hl').
  split; [done |]. split; [constructor; [| done]; rewrite Hl in Hp; intros Hin; apply Hp; set_solver |].
  split; [| rewrite Hl', Hl; cbn; apply leibniz_equiv; set_solver].
  intros q Hq. apply elem_of_cons in Hq as [-> | Hq]; [rewrite Hl in Hp; set_solver | by apply Hd].
Qed.

Lemma owns_alloc_none base l n w w' :
  0 <= n -> owns base l w -> heap_alloc n w = (None, w') -> owns base l w'.
Proof.
  intros Hn (Hi & Hnd & Hd & Hl) H. destruct (heap_alloc_none _ _ _ Hn Hi H) as [Hi' Hl'].
  split; [done |]. split; [done |]. split; [done |]. by rewrite Hl'.
Qed.

Lemma owns_calloc `{Host} base l count size w r w' :
  size_bits = 64 -> 0 <= count * size < 2 ^ 64 -> owns base l w -> heap_calloc count size w = (r, w') -> owns base (option_list r ++ l) w'.
Proof.
  intros H64 Hcs Ho. unfold heap_calloc. destruct (_ && _); [by intros [= <- <-] |].
  rewrite usize_small by (by rewrite H64). destruct r as [p|]; [apply owns_alloc; [lia | done] | apply owns_alloc_none; [lia | done]].
Qed.

Lemma owns_free base p l w : owns base (p :: l) w -> owns base l (heap_free p w).
Proof.
  intros (Hi & Hnd & Hd & Hl). apply list.NoDup_cons in Hnd as [Hp Hnd].
  assert (Hpb : p ∉ base) by (apply Hd; apply elem_of_cons; by left).
  destruct (law_free _ _ _ _ _ _ heap_laws p w Hi) as [Hi' Hl']; [rewrite Hl; cbn; set_solver |].
  split; [done |]. split; [done |]. split; [intros q Hq; apply Hd; apply elem_of_cons; by right |].
  rewrite Hl', Hl. cbn. apply leibniz_equiv. rewrite <- (elem_of_list_to_set (C := gset Z)) in Hp. set_solver.
Qed.

Lemma owns_free_opt base o l w :
  owns base (option_list o ++ l) w -> owns base l (heap_free_opt o w).
Proof. destruct o as [p|]; cbn [option_list app heap_free_opt]; [apply owns_free | done]. Qed.

Lemma owns_realloc base o l n w q w' :
  0 <= n -> owns base (option_list o ++ l) w -> heap_realloc o n w = (Some q, w') -> owns base (q :: l) w'.
Proof.
  intros Hn (Hi & Hnd & Hd & Hl) H.
  assert (Ho : opt_block o = list_to_set (option_list o)) by (destruct o; cbn; [by rewrite union_empty_r_L | done]).
  rewrite list_to_set_app_L in Hl. apply list.NoDup_app in Hnd as (_ & Hdis & Hnd).
  destruct (heap_realloc_some o n w q w') as (Hi' & Hq & Hl'); [done | done | rewrite Ho, Hl; set_solver | done |].
  rewrite Ho, Hl in Hq, Hl'.
  assert (Hdl : forall x, x ∈ l -> x ∉ option_list o) by (intros x Hx Hxo; by apply (Hdis x)).
  assert (Hdb : forall x, x ∈ option_list o ++ l -> x ∉ base) by done. setoid_rewrite elem_of_app in Hdb.
  split; [done |]. split; [constructor; [| done]; intros Hin; apply Hq; specialize (Hdl q Hin); set_solver |].
  split.
  - intros x Hx. apply elem_of_cons in Hx as [-> | Hx]; [| apply Hdb; by right].
    intros Hb. apply Hq. apply elem_of_difference. split; [set_solver |].
    intros Hqo. apply elem_of_list_to_set in Hqo. by apply (Hdb q); [left |].
  - rewrite Hl'. cbn. apply leibniz_equiv. intros x. rewrite !elem_of_union, elem_of_difference, !elem_of_union, !elem_of_list_to_set.
    specialize (Hdl x). specialize (Hdb x). destruct (decide (x ∈ option_list o)); naive_solver.
Qed.

Lemma owns_realloc_none base o l n w w' :
  0 <= n -> owns base (option_list o ++ l) w -> heap_realloc o n w = (None, w') -> owns base (option_list o ++ l) w'.
Proof.
  intros Hn (Hi & Hnd & Hd & Hl) H.
  assert (Ho : opt_block o ⊆ heap_live w) by (rewrite Hl; destruct o; cbn; set_solver).
  destruct (heap_realloc_none o n w w' Hn Hi Ho H) as [Hi' Hl'].
  split; [done |]. split; [done |]. split; [done |]. by rewrite Hl'.
Qed.

(** states from which no reasonable allocation fails *)
Record reliable (Q : W -> Prop) : Prop := {
  rel_alloc : forall n w, 0 <= n <= ADDRESS_SPACE -> heap_inv w -> Q w -> exists p w', heap_alloc n w = (Some p, w') /\ Q w';
  rel_realloc : forall o n w, 0 <= n <= ADDRESS_SPACE -> heap_inv w -> opt_block o ⊆ heap_live w -> Q w ->
    exists p w', heap_realloc o n w = (Some p, w') /\ Q w';
  rel_free : forall p w, heap_inv w -> p ∈ heap_live w -> Q w -> Q (heap_free p w);
}.

(** what an operation allocated beyond the blocks that were live before it *)
Lemma owns_frame base l l' w w' : owns base l w -> owns (heap_live w) l' w' -> owns base (l' ++ l) w'.
Proof.
  intros (_ & Hn & Hd & Hl) (Hi' & Hn' & Hd' & Hl'). split; [done |]. rewrite Hl in Hd'. split; [| split].
  - apply list.NoDup_app. split; [done |]. split; [| done]. intros x Hx Hxl. apply (Hd' x Hx).
    apply elem_of_union. right. by apply elem_of_list_to_set.
  - intros x Hx. apply elem_of_app in Hx as [Hx | Hx]; [| by apply Hd]. intros Hb. apply (Hd' x Hx).
    apply elem_of_union. by left.
  - rewrite Hl', Hl, list_to_set_app_L. apply leibniz_equiv. set_solver.
Qed.

(** blocks that are set aside *)
Lemma owns_aside base l l' w : owns base (l ++ l') w -> owns (base ∪ list_to_set l') l w.
Proof.
  intros (Hi & Hn & Hd & Hl). apply list.NoDup_app in Hn as (Hn & Hdis & _). split; [done |]. split; [done |]. split.
  - intros p Hp [Hb | Hb%elem_of_list_to_set]%elem_of_union; [| by eapply Hdis].
    apply (Hd p); [apply elem_of_app; by left | done].
  - rewrite Hl, list_to_set_app_L. apply leibniz_equiv. set_solver.
Qed.

Lemma owns_opt_block base o l w : owns base (option_list o ++ l) w -> opt_block o ⊆ heap_live w.
Proof. intros (_ & _ & _ & ->). destruct o; cbn; set_solver. Qed.
End HeapFacts.

(** ** Heaps that refuse what cannot be had *)
Definition address_limited `{Heap W} : Prop :=
  forall o n (h : W) p h', heap_realloc o n h = (Some p, h') -> n <= ADDRESS_SPACE.

(** any heap, with such requests refused *)
Section Limited.
Context `{HP : Heap W}.
Definition limited_alloc (n : Z) (h : W) : option Z * W := if ADDRESS_SPACE <? n then (None, h) else heap_alloc n h.
Definition limited_realloc (o : option Z) (n : Z) (h : W) : option Z * W :=
  if ADDRESS_SPACE <? n then (None, h) else heap_realloc o n h.

Lemma limited_laws : alloc_laws heap_live heap_inv 0 limited_alloc limited_realloc heap_free.
Proof.
  constructor; unfold limited_alloc, limited_realloc.
  - intros n w r w' Hn Hi. destruct (ADDRESS_SPACE <? n); [by intros [= <- <-] | by apply (law_alloc _ _ _ _ _ _ heap_laws)].
  - intros n w Hn Hi. destruct (ADDRESS_SPACE <? n); [done | by apply (law_realloc_null _ _ _ _ _ _ heap_laws)].
  - intros p n w r w' Hn Hi Hp. destruct (ADDRESS_SPACE <? n); [by intros [= <- <-] | by apply (law_realloc _ _ _ _ _ _ heap_laws)].
  - intros p w. apply (law_free _ _ _ _ _ _ heap_laws).
Qed.

Definition limited_heap : Heap W := {|
  heap_alloc := limited_alloc; heap_realloc := limited_realloc; heap_free := heap_free;
  heap_live := heap_live; heap_inv := heap_inv; heap_laws := limited_laws |}.

Lemma limited_reliable Q : reliable (HP := HP) Q -> reliable (HP := limited_heap) Q.
Proof.
  intros [Ra Rr Rf]. constructor; [| | exact Rf].
  - intros n w Hn Hi Hq. cbn. unfold limited_alloc. replace (ADDRESS_SPACE <? n) with false by (symmetry; apply Z.ltb_ge; lia). by apply Ra.
  - intros o n w Hn Hi Ho Hq. cbn. unfold limited_realloc. replace (ADDRESS_SPACE <? n) with false by (symmetry; apply Z.ltb_ge; lia). by apply Rr.
Qed.

Lemma limited_heap_limited : address_limited (H := limited_heap).
Proof. intros o n h p h'. cbn. unfold limited_realloc. destruct (ADDRESS_SPACE <? n) eqn:E; [done |]. zb. done. Qed.
End Limited.


(** ** A concrete heap, with a script of allocation answers *)
Record toy := { toy_next : Z; toy_blocks : gset Z; toy_answers : list bool }.

(** the next answer of the script; an exhausted script always succeeds *)
Definition toy_answer (t : toy) : bool * toy :=
  match toy_answers t with
  | [] => (true, t)
  | b :: rest => (b, {| toy_next := toy_next t; toy_blocks := toy_blocks t; toy_answers := rest |})
  end.

Definition toy_alloc (n : Z) (t : toy) : option Z * toy :=
  let '(ok, t) := toy_answer t in
  if ok then (Some (toy_next t),
              {| toy_next := toy_next t + 1; toy_blocks := {[toy_next t]} ∪ toy_blocks t; toy_answers := toy_answers t |})
  else (None, t).

Definition toy_free (p : Z) (t : toy) : toy :=
  {| toy_next := toy_next t; toy_blocks := toy_blocks t ∖ {[p]}; toy_answers := toy_answers t |}.

Definition toy_realloc (p : option Z) (n : Z) (t : toy) : option Z * toy :=
  match p with
  | None => toy_alloc n t
  | Some p =>
      match toy_alloc n t with
      | (Some q, t') => (Some q, toy_free p t')
      | (None, t') => (None, t')
      end
  end.

Definition toy_inv (t : toy) : Prop := forall p, p ∈ toy_blocks t -> p < toy_next t.
Definition toy_empty (answers : list bool) : toy := {| toy_next := 1; toy_blocks := ∅; toy_answers := answers |}.

Lemma toy_alloc_spec n t r t' :
  toy_inv t -> toy_alloc n t = (r, t') ->
  toy_inv t' /\ match r with
                | Some p => (p ∉ toy_blocks t) /\ toy_blocks t' = {[p]} ∪ toy_blocks t
                | None => toy_blocks t' = toy_blocks t
                end.
Proof.
  intros Hi. unfold toy_alloc, toy_answer.
  assert (Hf : toy_next t ∉ toy_blocks t) by (intros Hin; apply Hi in Hin; lia).
  destruct (toy_answers t) as [|[] rest]; intros [= <- <-]; cbn; (split; [| done]).
  - intros p Hp. apply elem_of_union in Hp as [Hp%elem_of_singleton | Hp]; [subst |apply Hi in Hp]; cbn; lia.
  - intros p Hp. apply elem_of_union in Hp as [Hp%elem_of_singleton | Hp]; [subst |apply Hi in Hp]; cbn; lia.
  - exact Hi.
Qed.

Lemma toy_laws lo : alloc_laws toy_blocks toy_inv lo toy_alloc toy_realloc toy_free.
Proof.
  constructor.
  - intros n t r t' _ Hi H. by eapply toy_alloc_spec.
  - done.
  - intros p n t r t' _ Hi Hp H. unfold toy_realloc in H.
    destruct (toy_alloc n t) as [q t1] eqn:E. destruct (toy_alloc_spec _ _ _ _ Hi E) as [Hi1 Hq].
    destruct q as [q|]; injection H as <- <-; [| done]. destruct Hq as [Hf Hb].
    cbn. rewrite Hb. split; [intros x Hx; apply Hi1; cbn in Hx; set_solver |].
    split; [set_solver |]. apply leibniz_equiv. set_solver.
  - intros p t Hi Hp. cbn. split; [| done]. intros x Hx. apply Hi. cbn in Hx. set_solver.
Qed.

#[global] Instance toy_heap : Heap toy := {|
  heap_alloc := toy_alloc; heap_realloc := toy_realloc; heap_free := toy_free;
  heap_live := toy_blocks; heap_inv := toy_inv; heap_laws := toy_laws 0 |}.

Lemma toy_empty_inv answers : toy_inv (toy_empty answers).
Proof. intros p Hp. cbn in Hp. set_solver. Qed.

Lemma toy_reliable : reliable (fun t => toy_answers t = []).
Proof.
  constructor.
  - intros n t _ _ Ha. cbn. unfold toy_alloc, toy_answer. rewrite Ha. eexists _, _. split; [done |]. done.
  - intros o n t _ _ _ Ha. cbn. unfold toy_realloc, toy_alloc, toy_answer. rewrite Ha.
    destruct o; (eexists _, _; split; [done |]; done).
  - intros p t _ _ Ha. exact Ha.
Qed.

(** ** Properties *)







(** a process for the evaluation of what follows *)
Definition toy_process : process := {| g_allocator := null_allocator; p_world := toy_empty [] |}.

(** The calloc of the library never asks for less than it promises: it
    either returns NULL without calling the allocator or requests exactly the
    unwrapped product of its arguments. *)
Theorem calloc_no_overflow `{Host} {W} malloc count size (s : process (W := W)) :
  0 < size_bits -> 0 <= count <= SIZE_MAX -> 0 <= size <= SIZE_MAX ->
  wirecall_mem_calloc malloc count size s = (None, s) \/
  wirecall_mem_calloc malloc count size s = wirecall_mem_alloc malloc (count * size) s /\ count * size <= SIZE_MAX.
Proof.
  intros Hb Hc Hs. unfold wirecall_mem_calloc.
  destruct (negb (count =? 0) && (SIZE_MAX / count <? size)) eqn:E; [by left | right].
  assert (Hle : count * size <= SIZE_MAX).
  { apply andb_false_iff in E as [E | E]; zb; [subst; lia |].
    destruct (Z.eq_dec count 0) as [-> |]; [lia |].
    apply Z.le_trans with (count * (SIZE_MAX / count)); [nia |]. apply Z.mul_div_le. lia. }
  split; [| done]. rewrite usize_small; [done |]. unfold SIZE_MAX in *. nia.
Qed.

Lemma calloc_no_overflow_witness :
  wirecall_mem_calloc (HH := host_ilp32) toy_alloc 65536 65536 toy_process = (None, toy_process) \/
  wirecall_mem_calloc (HH := host_ilp32) toy_alloc 65536 65536 toy_process =
    wirecall_mem_alloc toy_alloc (65536 * 65536) toy_process /\
  65536 * 65536 <= SIZE_MAX (H := host_ilp32).
Proof. apply (calloc_no_overflow (H := host_ilp32)); by_compute. Defined.
