(* ===== verification/Payload.v ===== *)
(** * Payload: typed values, writers and the decoder (src/payload.c)

    A writer owns one heap block and is represented by the pointer, the
    initialised bytes and the capacity.  The array of decoded values is
    represented by its pointer and its cells, among them the uninitialised
    ones and the sentinel that wirecall_values_free looks for.  Reads and
    writes outside a buffer, and reads of an uninitialised cell, are [UB].

    The second half gives the wire format as a pure specification
    ([encode_values]) and shows that writers produce it, that the decoder
    accepts exactly it, and that no path of the decoder leaks, frees twice or
    leaves its buffers. *)

From S2P Require Import Prelude Words Protocol Memory.

(** ** Data *)
Inductive wirecall_type :=
| WIRECALL_TYPE_NULL
| WIRECALL_TYPE_BOOL
| WIRECALL_TYPE_I64
| WIRECALL_TYPE_U64
| WIRECALL_TYPE_F64
| WIRECALL_TYPE_BYTES
| WIRECALL_TYPE_STRING.

Definition type_code (t : wirecall_type) : Z :=
  match t with
  | WIRECALL_TYPE_NULL => 0
  | WIRECALL_TYPE_BOOL => 1
  | WIRECALL_TYPE_I64 => 2
  | WIRECALL_TYPE_U64 => 3
  | WIRECALL_TYPE_F64 => 4
  | WIRECALL_TYPE_BYTES => 5
  | WIRECALL_TYPE_STRING => 6
  end.

(** a tagged value; a double is its 64-bit pattern, and bytes and strings have
    the pointer to their copy, the length field and the bytes copied (without
    the terminator of a string) *)
Inductive wirecall_value :=
| VNull
| VBool (b : bool)
| VI64 (z : Z)
| VU64 (z : Z)
| VF64 (bits : Z)
| VBytes (data : option Z) (len : Z) (bytes : list Z)
| VString (data : option Z) (len : Z) (chars : list Z).

#[global] Instance wirecall_value_eq_dec : EqDecision wirecall_value.
Proof. solve_decision. Defined.

Record wirecall_writer := { w_data : option Z; w_bytes : list Z; w_cap : Z }.
Definition w_len (w : wirecall_writer) : Z := zlen (w_bytes w).

(** a cell of the array of decoded values *)
Inductive cell := CUninit | CSentinel | CValue (v : wirecall_value).
Record value_array := { va_ptr : option Z; va_cells : list cell; va_count : Z }.

Definition sizeof_wirecall_value `{Host} : Z := if size_bits =? 64 then 24 else 16.

(** ** Writers *)
Section Writer.
Context `{HH : Host} `{HP : Heap W}.

(** [while (cap < need)]: double, up to the payload limit *)
Fixpoint reserve_loop (fuel : nat) (cap need : Z) : option Z :=
  if cap <? need then
    match fuel with
    | O => None
    | S fuel =>
        if WIRECALL_MAX_PAYLOAD_SIZE / 2 <? cap then Some WIRECALL_MAX_PAYLOAD_SIZE
        else reserve_loop fuel (cap * 2) need
    end
  else Some cap.

Definition writer_reserve (extra : Z) : M (wirecall_writer * W) unit := fun '(w, h) =>
  if (WIRECALL_MAX_PAYLOAD_SIZE <? extra) || (WIRECALL_MAX_PAYLOAD_SIZE - extra <? w_len w) then (Err, (w, h))
  else
    let need := w_len w + extra in
    if need <=? w_cap w then (Ok tt, (w, h))
    else
      match reserve_loop 32 (if w_cap w =? 0 then 64 else w_cap w) need with
      | None => (UB, (w, h))
      | Some cap =>
          match heap_realloc (w_data w) cap h with
          | (None, h) => (Err, (w, h))
          | (Some next, h) => (Ok tt, ({| w_data := Some next; w_bytes := w_bytes w; w_cap := cap |}, h))
          end
      end.

(** the memcpy of [data] behind the bytes already written *)
Definition writer_copy (data : list Z) : M (wirecall_writer * W) unit := fun '(w, h) =>
  match data with
  | [] => (Ok tt, (w, h))
  | _ =>
      if (w_cap w <? w_len w + zlen data) || (match w_data w with None => true | Some _ => false end)
      then (UB, (w, h))
      else (Ok tt, ({| w_data := w_data w; w_bytes := w_bytes w ++ data; w_cap := w_cap w |}, h))
  end.

Definition writer_push (data : list Z) : M (wirecall_writer * W) unit :=
  writer_reserve (zlen data) ;;; writer_copy data.

Definition wirecall_writer_init : wirecall_writer := {| w_data := None; w_bytes := []; w_cap := 0 |}.

Definition wirecall_writer_reset (w : wirecall_writer) : wirecall_writer :=
  {| w_data := w_data w; w_bytes := []; w_cap := w_cap w |}.

Definition wirecall_writer_free (w : wirecall_writer) (h : W) : wirecall_writer * W :=
  (wirecall_writer_init, heap_free_opt (w_data w) h).

Definition wirecall_writer_null : M (wirecall_writer * W) unit :=
  writer_push [type_code WIRECALL_TYPE_NULL].

Definition wirecall_writer_bool (value : bool) : M (wirecall_writer * W) unit :=
  writer_push [type_code WIRECALL_TYPE_BOOL; if value then 1 else 0].

Definition wirecall_writer_i64 (value : Z) : M (wirecall_writer * W) unit :=
  writer_push (type_code WIRECALL_TYPE_I64 :: put_u64 (u64 value)).

Definition wirecall_writer_u64 (value : Z) : M (wirecall_writer * W) unit :=
  writer_push (type_code WIRECALL_TYPE_U64 :: put_u64 value).

Definition wirecall_writer_f64 (bits : Z) : M (wirecall_writer * W) unit :=
  writer_push (type_code WIRECALL_TYPE_F64 :: put_u64 bits).

Definition wirecall_writer_bytes (data : option (list Z)) (len : Z) : M (wirecall_writer * W) unit :=
  if (0 <? len) && (match data with None => true | Some _ => false end) then fail
  else
    writer_push (type_code WIRECALL_TYPE_BYTES :: put_u32 len) ;;;
    bytes <- lift (buffer_bytes data len) ;;
    writer_push bytes.

Definition wirecall_writer_string (data : option (list Z)) (len : Z) : M (wirecall_writer * W) unit :=
  if (0 <? len) && (match data with None => true | Some _ => false end) then fail
  else
    writer_push (type_code WIRECALL_TYPE_STRING :: put_u32 len) ;;;
    bytes <- lift (buffer_bytes data len) ;;
    writer_push bytes.
End Writer.

(** ** The decoder *)
Section Decode.
Context `{HH : Host} `{HP : Heap W}.

(** the copy a value owns *)
Definition value_copy (v : wirecall_value) : option Z :=
  match v with
  | VBytes p _ _ => p
  | VString p _ _ => p
  | _ => None
  end.

Fixpoint cleanup_cells (n : nat) (cells : list cell) : M W unit :=
  match n with
  | O => ret tt
  | S n =>
      match cells with
      | CValue v :: rest => modify (heap_free_opt (value_copy v)) ;;; cleanup_cells n rest
      | _ => ub
      end
  end.

(** [values_cleanup(values, count)] *)
Definition values_cleanup (values : option Z) (cells : list cell) (count : Z) : M W unit :=
  match values with
  | None => ret tt
  | Some _ => cleanup_cells (Z.to_nat count) cells
  end.

(** the locals of wirecall_payload_decode *)
Record decode_state := { ds_values : option Z; ds_cells : list cell; ds_count : Z; ds_cap : Z; ds_off : Z }.

(** both failure exits of the loop *)
Definition decode_abandon {A} (d : decode_state) : M W A :=
  values_cleanup (ds_values d) (ds_cells d) (ds_count d) ;;;
  modify (heap_free_opt (ds_values d)) ;;;
  fail.

(** [if (count == cap)]: the array is doubled, with one more cell for the sentinel *)
Definition decode_grow (d : decode_state) : M W decode_state :=
  if ds_count d =? ds_cap d then
    let next_cap := if ds_cap d =? 0 then 4 else usize (ds_cap d * 2) in
    fun h =>
      match heap_realloc (ds_values d) (usize (usize (next_cap + 1) * sizeof_wirecall_value)) h with
      | (None, h) => decode_abandon d h
      | (Some next, h) =>
          let cells := take (Z.to_nat (next_cap + 1)) (ds_cells d) ++
                       replicate (Z.to_nat (next_cap + 1) - length (ds_cells d)) CUninit in
          (Ok {| ds_values := Some next; ds_cells := <[Z.to_nat (ds_count d) := CSentinel]> cells;
                 ds_count := ds_count d; ds_cap := next_cap; ds_off := ds_off d |}, h)
      end
  else ret d.

(** a byte of the input *)
Definition read_byte (data : list Z) (off : Z) : res Z :=
  match data !! Z.to_nat off with
  | Some b => Ok b
  | None => UB
  end.

(** an 8-byte field at [off]: the value and the next offset *)
Definition decode_u64 (data : list Z) (len off : Z) : res (Z * Z) :=
  if len <? usize (off + 8) then Err
  else let? v := get_u64 (zdrop off data) in Ok (v, usize (off + 8)).

(** type_bytes and type_string *)
Definition decode_blob (is_string : bool) (data : list Z) (len off : Z) : M W (wirecall_value * Z) :=
  if len <? usize (off + 4) then fail
  else
    value_len <- lift (get_u32 (zdrop off data)) ;;
    let off := usize (off + 4) in
    if len <? usize (off + value_len) then fail
    else
      let copy_len := if is_string then usize (value_len + 1) else value_len in
      copy <- (if 0 <? copy_len then
                 fun h => match heap_alloc copy_len h with
                          | (None, h) => (Err, h)
                          | (Some p, h) =>
                              (** memcpy, then the terminator *)
                              if (zlen data <? off + value_len) || (copy_len <? value_len + (if is_string then 1 else 0))
                              then (UB, h) else (Ok (Some p, ztake value_len (zdrop off data)), h)
                          end
               else ret (None, [])) ;;
      ret (if is_string then VString copy.1 value_len copy.2 else VBytes copy.1 value_len copy.2,
           usize (off + value_len)).

(** the computed goto on the type byte; [off] is behind it *)
Definition decode_value (type : Z) (data : list Z) (len off : Z) : M W (wirecall_value * Z) :=
  if type =? 0 then ret (VNull, off)
  else if type =? 1 then
    if len <? usize (off + 1) then fail
    else
      b <- lift (read_byte data off) ;;
      if negb (b =? 0) && negb (b =? 1) then fail
      else ret (VBool (negb (b =? 0)), usize (off + 1))
  else if type =? 2 then
    r <- lift (decode_u64 data len off) ;; ret (VI64 (s64 r.1), r.2)
  else if type =? 3 then
    r <- lift (decode_u64 data len off) ;; ret (VU64 r.1, r.2)
  else if type =? 4 then
    r <- lift (decode_u64 data len off) ;; ret (VF64 r.1, r.2)
  else if type =? 5 then decode_blob false data len off
  else if type =? 6 then decode_blob true data len off
  else fail.

(** [values[count++] = value; values[count].type = SENTINEL] *)
Definition decode_store (v : wirecall_value) (off : Z) (d : decode_state) : res decode_state :=
  let n := Z.to_nat (ds_count d) in
  if ds_count d + 1 <? zlen (ds_cells d) then
    Ok {| ds_values := ds_values d;
          ds_cells := <[Z.to_nat (ds_count d + 1) := CSentinel]> (<[n := CValue v]> (ds_cells d));
          ds_count := ds_count d + 1; ds_cap := ds_cap d; ds_off := off |}
  else UB.

(** one turn of the loop *)
Definition decode_step (data : list Z) (len : Z) (d : decode_state) : M W decode_state :=
  d <- decode_grow d ;;
  type <- lift (read_byte data (ds_off d)) ;;
  r <- attempt (decode_value type data len (usize (ds_off d + 1))) ;;
  match r with
  | None => decode_abandon d
  | Some (v, off) => lift (decode_store v off d)
  end.

Fixpoint decode_loop (fuel : nat) (data : list Z) (len : Z) (d : decode_state) : M W decode_state :=
  if ds_off d <? len then
    match fuel with
    | O => ub
    | S fuel => d <- decode_step data len d ;; decode_loop fuel data len d
    end
  else ret d.

(** every turn consumes at least the type byte, so [len] turns are enough *)
Definition wirecall_payload_decode (data : option (list Z)) (len : Z) (out_values out_count : bool)
    : M W value_array :=
  if (match data with None => 0 <? len | Some _ => false end) || negb out_values || negb out_count then fail
  else
    d <- decode_loop (Z.to_nat len) (default [] data) len
           {| ds_values := None; ds_cells := []; ds_count := 0; ds_cap := 0; ds_off := 0 |} ;;
    ret {| va_ptr := ds_values d; va_cells := ds_cells d; va_count := ds_count d |}.

(** [while (values[count].type != SENTINEL) count++] *)
Fixpoint find_sentinel (cells : list cell) : res Z :=
  match cells with
  | CSentinel :: _ => Ok 0
  | CValue _ :: rest => let? n := find_sentinel rest in Ok (n + 1)
  | _ => UB
  end.

Definition wirecall_values_free (values : option Z) (cells : list cell) : M W unit :=
  match values with
  | None => ret tt
  | Some p =>
      count <- lift (find_sentinel cells) ;;
      values_cleanup values cells count ;;;
      modify (heap_free p)
  end.
End Decode.

(** ** The wire format, as a specification *)
Inductive pvalue :=
| PNull
| PBool (b : bool)
| PI64 (z : Z)
| PU64 (z : Z)
| PF64 (bits : Z)
| PBytes (l : list Z)
| PString (l : list Z).

Definition encode_value (v : pvalue) : list Z :=
  match v with
  | PNull => [0]
  | PBool b => [1; if b then 1 else 0]
  | PI64 z => 2 :: be_split 8 (u64 z)
  | PU64 z => 3 :: be_split 8 z
  | PF64 bits => 4 :: be_split 8 bits
  | PBytes l => 5 :: be_split 4 (zlen l) ++ l
  | PString l => 6 :: be_split 4 (zlen l) ++ l
  end.

Definition encode_values (vs : list pvalue) : list Z := concat (map encode_value vs).

(** values that fit their C types *)
Definition pvalue_ok (v : pvalue) : Prop :=
  match v with
  | PNull | PBool _ => True
  | PI64 z => - 2 ^ 63 <= z < 2 ^ 63
  | PU64 z | PF64 z => 0 <= z < 2 ^ 64
  | PBytes l | PString l => bytes_ok l /\ zlen l < 2 ^ 32
  end.

#[global] Instance pvalue_ok_dec v : Decision (pvalue_ok v).
Proof. destruct v; cbn; apply _. Defined.

(** a decoded value without its pointers *)
Definition erase (v : wirecall_value) : pvalue :=
  match v with
  | VNull => PNull
  | VBool b => PBool b
  | VI64 z => PI64 z
  | VU64 z => PU64 z
  | VF64 z => PF64 z
  | VBytes _ _ l => PBytes l
  | VString _ _ l => PString l
  end.

(** a value as the decoder builds it: lengths agree with the copies, and only
    an empty byte string has no copy *)
Definition value_good (v : wirecall_value) : Prop :=
  match v with
  | VBytes p len l => len = zlen l /\ (p = None <-> l = [])
  | VString p len l => len = zlen l /\ p <> None
  | _ => True
  end.

(** the writer call for a value *)
Definition write_value `{Host} `{Heap W} (v : pvalue) : M (wirecall_writer * W) unit :=
  match v with
  | PNull => wirecall_writer_null
  | PBool b => wirecall_writer_bool b
  | PI64 z => wirecall_writer_i64 z
  | PU64 z => wirecall_writer_u64 z
  | PF64 z => wirecall_writer_f64 z
  | PBytes l => wirecall_writer_bytes (Some l) (zlen l)
  | PString l => wirecall_writer_string (Some l) (zlen l)
  end.

Fixpoint write_values `{Host} `{Heap W} (vs : list pvalue) : M (wirecall_writer * W) unit :=
  match vs with
  | [] => ret tt
  | v :: vs => write_value v ;;; write_values vs
  end.

Lemma encode_values_app vs ws : encode_values (vs ++ ws) = encode_values vs ++ encode_values ws.
Proof. unfold encode_values. by rewrite map_app, concat_app. Qed.

Lemma encode_value_ok v : pvalue_ok v -> bytes_ok (encode_value v).
Proof.
  destruct v; cbn [pvalue_ok encode_value]; intros Hv; rewrite ?bytes_ok_cons;
    unfold byte_ok; repeat split; try lia; try apply be_split_ok; try apply bytes_ok_nil.
  - by destruct b.
  - by destruct b.
  - apply bytes_ok_app. split; [apply be_split_ok | tauto].
  - apply bytes_ok_app. split; [apply be_split_ok | tauto].
Qed.

(** ** Writers *)
Lemma reserve_loop_spec fuel cap need :
  1 <= cap <= WIRECALL_MAX_PAYLOAD_SIZE -> need <= WIRECALL_MAX_PAYLOAD_SIZE ->
  need <= cap * 2 ^ Z.of_nat fuel ->
  exists cap', reserve_loop fuel cap need = Some cap' /\ cap <= cap' <= WIRECALL_MAX_PAYLOAD_SIZE /\ need <= cap'.
Proof.
  revert cap. induction fuel as [|fuel IH]; intros cap Hc Hn Hf; cbn [reserve_loop].
  - change (2 ^ Z.of_nat 0) with 1 in Hf. replace (cap <? need) with false by (symmetry; apply Z.ltb_ge; lia).
    exists cap. split; [done | lia].
  - destruct (cap <? need) eqn:E; zb; [| exists cap; split; [done | lia]].
    destruct (WIRECALL_MAX_PAYLOAD_SIZE / 2 <? cap) eqn:E2; zb.
    + eexists. split; [done | lia].
    + assert (cap * 2 <= WIRECALL_MAX_PAYLOAD_SIZE).
      { pose proof (Z.mul_div_le WIRECALL_MAX_PAYLOAD_SIZE 2 ltac:(lia)). lia. }
      rewrite Nat2Z.inj_succ, Z.pow_succ_r in Hf by lia.
      destruct (IH (cap * 2)) as (cap' & Hr & Hb & Hge); [lia | lia | lia |].
      exists cap'. split; [done | lia].
Qed.

Section WriterFacts.
Context `{HH : Host} `{HP : Heap W}.
Implicit Types (w : wirecall_writer) (h : W).

(** the invariant of a writer: its bytes fit its block, which is no larger
    than the payload limit, and there is a block as soon as there is room *)
Definition writer_ok (w : wirecall_writer) : Prop :=
  w_len w <= w_cap w <= WIRECALL_MAX_PAYLOAD_SIZE /\ (w_data w = None -> w_cap w = 0) /\ bytes_ok (w_bytes w).

Lemma writer_init_ok : writer_ok wirecall_writer_init.
Proof. split; [by_compute |]. split; [done | apply bytes_ok_nil]. Qed.

Lemma writer_reset_ok w : writer_ok w -> writer_ok (wirecall_writer_reset w).
Proof.
  intros (Hl & Hd & Hb). unfold writer_ok, w_len, wirecall_writer_reset in *. cbn [w_data w_bytes w_cap].
  pose proof (zlen_nonneg (w_bytes w)). split; [change (zlen []) with 0; lia |]. split; [done | apply bytes_ok_nil].
Qed.

Lemma writer_reserve_spec base l extra w h r w' h' :
  0 <= extra -> writer_ok w -> owns base (option_list (w_data w) ++ l) h ->
  writer_reserve extra (w, h) = (r, (w', h')) ->
  writer_ok w' /\ owns base (option_list (w_data w') ++ l) h' /\ w_bytes w' = w_bytes w /\
  match r with
  | Ok _ => w_len w + extra <= w_cap w' /\ (0 < extra -> w_data w' <> None)
  | Err => w' = w
  | UB => False
  end.
Proof.
  intros He Hw Ho. unfold writer_reserve. pose proof Hw as (Hl & Hd & Hb).
  pose proof (zlen_nonneg (w_bytes w)) as Hnn. fold (w_len w) in Hnn.
  destruct (_ || _) eqn:Eg; [by intros [= <- <- <-] |].
  apply orb_false_elim in Eg as [Eg1 Eg2]. zb.
  destruct (w_len w + extra <=? w_cap w) eqn:Ec; zb.
  - intros [= <- <- <-]. split; [done |]. split; [done |]. split; [done |]. split; [done |].
    intros Hpos Hnone. apply Hd in Hnone. lia.
  - assert (Hcap : 1 <= (if w_cap w =? 0 then 64 else w_cap w) <= WIRECALL_MAX_PAYLOAD_SIZE).
    { destruct (w_cap w =? 0) eqn:E0; zb; unfold WIRECALL_MAX_PAYLOAD_SIZE in *; lia. }
    destruct (reserve_loop_spec 32 _ (w_len w + extra) Hcap) as (cap & -> & Hc1 & Hc2);
      [lia | unfold WIRECALL_MAX_PAYLOAD_SIZE in *; lia |].
    destruct (heap_realloc (w_data w) cap h) as [[q|] h1] eqn:Er; intros [= <- <- <-].
    + eapply owns_realloc in Er; [| lia | done]. split; [| split; [done |]; split; [done |]; split; [cbn [w_cap]; lia | done]].
      unfold writer_ok, w_len in *. cbn [w_data w_bytes w_cap]. split; [lia |]. split; [done | done].
    + eapply owns_realloc_none in Er; [| lia | done]. done.
Qed.

Lemma writer_push_spec base l data w h r w' h' :
  bytes_ok data -> writer_ok w -> owns base (option_list (w_data w) ++ l) h ->
  writer_push data (w, h) = (r, (w', h')) ->
  writer_ok w' /\ owns base (option_list (w_data w') ++ l) h' /\
  match r with
  | Ok _ => w_bytes w' = w_bytes w ++ data
  | Err => w' = w
  | UB => False
  end.
Proof.
  intros Hdata Hw Ho. unfold writer_push, bind.
  destruct (writer_reserve (zlen data) (w, h)) as [r1 [w1 h1]] eqn:E1.
  destruct (writer_reserve_spec base l _ _ _ _ _ _ (zlen_nonneg data) Hw Ho E1) as (Hw1 & Ho1 & Hb1 & Hr1).
  destruct r1 as [u| |]; [| by intros [= <- <- <-] | done]. destruct Hr1 as [Hroom Hptr].
  unfold writer_copy. destruct data as [|b data].
  - intros [= <- <- <-]. rewrite app_nil_r. done.
  - rewrite zlen_cons in *. pose proof (zlen_nonneg data).
    unfold w_len in *. rewrite <- Hb1 in Hroom.
    replace (w_cap w1 <? _) with false by (symmetry; apply Z.ltb_ge; lia).
    destruct (w_data w1) as [p|] eqn:Ep; [| by exfalso; apply Hptr; [lia |]].
    cbn [orb]. intros [= <- <- <-]. split; [| split; [done |]; cbn; by rewrite Hb1].
    destruct Hw1 as (? & ? & ?). unfold writer_ok, w_len. cbn [w_data w_bytes w_cap]. rewrite zlen_app, zlen_cons.
    split; [lia |]. split; [done |]. by apply bytes_ok_app.
Qed.

(** with a reliable allocator a push fails only at the payload limit *)
Lemma writer_push_reliable Q base l data w h :
  reliable Q -> Q h -> writer_ok w -> owns base (option_list (w_data w) ++ l) h ->
  w_len w + zlen data <= WIRECALL_MAX_PAYLOAD_SIZE ->
  exists w' h', writer_push data (w, h) = (Ok tt, (w', h')) /\ Q h'.
Proof.
  intros HQ Hq Hw Ho Hlen. pose proof (zlen_nonneg data) as Hn. pose proof (zlen_nonneg (w_bytes w)) as Hnw.
  fold (w_len w) in Hnw.
  assert (Hres : exists w1 h1, writer_reserve (zlen data) (w, h) = (Ok tt, (w1, h1)) /\ Q h1).
  { unfold writer_reserve.
    replace (_ || _) with false by (symmetry; apply orb_false_intro; apply Z.ltb_ge; lia).
    destruct (w_len w + zlen data <=? w_cap w); [by eauto |].
    assert (Hcap : 1 <= (if w_cap w =? 0 then 64 else w_cap w) <= WIRECALL_MAX_PAYLOAD_SIZE).
    { destruct Hw as (? & _). destruct (w_cap w =? 0) eqn:E0; zb; unfold WIRECALL_MAX_PAYLOAD_SIZE in *; lia. }
    destruct (reserve_loop_spec 32 _ (w_len w + zlen data) Hcap) as (cap & -> & Hc1 & Hc2);
      [lia | unfold WIRECALL_MAX_PAYLOAD_SIZE in *; lia |].
    destruct (rel_realloc Q HQ (w_data w) cap h) as (p & h1 & -> & Hq1);
      [unfold ADDRESS_SPACE, WIRECALL_MAX_PAYLOAD_SIZE in *; lia | by eapply owns_inv | by eapply owns_opt_block | done |]. eauto. }
  destruct Hres as (w1 & h1 & E1 & Hq1).
  destruct (writer_reserve_spec base l _ _ _ _ _ _ Hn Hw Ho E1) as (Hw1 & Ho1 & Hb1 & Hroom & Hptr).
  unfold writer_push, bind. rewrite E1. unfold writer_copy. destruct data as [|b data]; [by eauto |].
  unfold w_len in *. rewrite <- Hb1 in Hroom.
  replace (w_cap w1 <? _) with false by (symmetry; apply Z.ltb_ge; lia).
  rewrite zlen_cons in *. pose proof (zlen_nonneg data).
  destruct (w_data w1) eqn:Ep; [| by exfalso; apply Hptr; [lia |]]. eauto.
Qed.

(** the length-prefixed values are written with two pushes *)
Definition blob_prefix (v : pvalue) : list Z :=
  match v with
  | PBytes l => 5 :: be_split 4 (zlen l)
  | PString l => 6 :: be_split 4 (zlen l)
  | _ => []
  end.

Definition blob_bytes (v : pvalue) : list Z :=
  match v with
  | PBytes l | PString l => l
  | v => encode_value v
  end.

Lemma blob_split v : encode_value v = blob_prefix v ++ blob_bytes v.
Proof. by destruct v. Qed.

(** every writer call is a push of the prefix and a push of the rest *)
Lemma write_value_pushes v (s : wirecall_writer * W) :
  write_value v s =
  match v with
  | PBytes _ | PString _ => (writer_push (blob_prefix v) ;;; writer_push (blob_bytes v)) s
  | _ => writer_push (encode_value v) s
  end.
Proof.
  destruct v; cbn [write_value encode_value blob_prefix blob_bytes];
    unfold wirecall_writer_null, wirecall_writer_bool, wirecall_writer_i64, wirecall_writer_u64,
      wirecall_writer_f64, wirecall_writer_bytes, wirecall_writer_string;
    cbn [type_code]; rewrite ?put_u64_split, ?put_u32_split; try done.
  - rewrite andb_false_r. unfold bind, lift. destruct (writer_push _ s) as [[] s1]; [| done | done].
    cbn [buffer_bytes]. rewrite Z.leb_refl, ztake_ge by lia. done.
  - rewrite andb_false_r. unfold bind, lift. destruct (writer_push _ s) as [[] s1]; [| done | done].
    cbn [buffer_bytes]. rewrite Z.leb_refl, ztake_ge by lia. done.
Qed.

Lemma write_value_spec base l v w h r w' h' :
  pvalue_ok v -> writer_ok w -> owns base (option_list (w_data w) ++ l) h ->
  write_value v (w, h) = (r, (w', h')) ->
  writer_ok w' /\ owns base (option_list (w_data w') ++ l) h' /\
  match r with
  | Ok _ => w_bytes w' = w_bytes w ++ encode_value v
  | Err => w_bytes w' = w_bytes w \/ w_bytes w' = w_bytes w ++ blob_prefix v
  | UB => False
  end.
Proof.
  intros Hv Hw Ho. rewrite write_value_pushes.
  pose proof (encode_value_ok v Hv) as Hok. pose proof Hok as Hok2. rewrite blob_split, bytes_ok_app in Hok2.
  assert (Hsingle : writer_push (encode_value v) (w, h) = (r, (w', h')) ->
    writer_ok w' /\ owns base (option_list (w_data w') ++ l) h' /\
    match r with
    | Ok _ => w_bytes w' = w_bytes w ++ encode_value v
    | Err => w_bytes w' = w_bytes w \/ w_bytes w' = w_bytes w ++ blob_prefix v
    | UB => False
    end).
  { intros E. destruct (writer_push_spec base l _ _ _ _ _ _ Hok Hw Ho E) as (? & ? & Hr).
    split; [done |]. split; [done |]. destruct r; [done | left; by subst | done]. }
  assert (Hdouble : (writer_push (blob_prefix v) ;;; writer_push (blob_bytes v)) (w, h) = (r, (w', h')) ->
    writer_ok w' /\ owns base (option_list (w_data w') ++ l) h' /\
    match r with
    | Ok _ => w_bytes w' = w_bytes w ++ encode_value v
    | Err => w_bytes w' = w_bytes w \/ w_bytes w' = w_bytes w ++ blob_prefix v
    | UB => False
    end).
  { unfold bind. destruct (writer_push (blob_prefix v) (w, h)) as [r1 [w1 h1]] eqn:E1.
    destruct (writer_push_spec base l _ _ _ _ _ _ (proj1 Hok2) Hw Ho E1) as (Hw1 & Ho1 & Hr1).
    destruct r1 as [u| |]; [| intros [= <- <- <-]; subst; by split_and!; [| | left] | done].
    intros E2. destruct (writer_push_spec base l _ _ _ _ _ _ (proj2 Hok2) Hw1 Ho1 E2) as (Hw2 & Ho2 & Hr2).
    split; [done |]. split; [done |]. destruct r; [| right; by subst | done].
    by rewrite Hr2, Hr1, blob_split, <- app_assoc. }
  by destruct v.
Qed.

Lemma write_value_reliable Q base l v w h :
  reliable Q -> Q h -> pvalue_ok v -> writer_ok w -> owns base (option_list (w_data w) ++ l) h ->
  w_len w + zlen (encode_value v) <= WIRECALL_MAX_PAYLOAD_SIZE ->
  exists w' h', write_value v (w, h) = (Ok tt, (w', h')) /\ Q h'.
Proof.
  intros HQ Hq Hv Hw Ho Hlen. rewrite write_value_pushes.
  assert (Hdouble : exists w' h', (writer_push (blob_prefix v) ;;; writer_push (blob_bytes v)) (w, h) = (Ok tt, (w', h')) /\ Q h').
  { pose proof (encode_value_ok v Hv) as Hok. rewrite blob_split in Hlen, Hok.
    rewrite zlen_app in Hlen. apply bytes_ok_app in Hok as [Hp Hb].
    pose proof (zlen_nonneg (blob_bytes v)) as Hnn.
    destruct (writer_push_reliable Q base l (blob_prefix v) w h) as (w1 & h1 & E1 & Hq1); [done.. | lia |].
    destruct (writer_push_spec base l _ _ _ _ _ _ Hp Hw Ho E1) as (Hw1 & Ho1 & Hb1).
    unfold bind. rewrite E1. apply writer_push_reliable with base l; try done.
    unfold w_len in *. rewrite Hb1, zlen_app. lia. }
  destruct v; try (by apply writer_push_reliable with base l); done.
Qed.

Lemma write_values_reliable Q base l vs w h :
  reliable Q -> Q h -> Forall pvalue_ok vs -> writer_ok w -> owns base (option_list (w_data w) ++ l) h ->
  w_len w + zlen (encode_values vs) <= WIRECALL_MAX_PAYLOAD_SIZE ->
  exists w' h', write_values vs (w, h) = (Ok tt, (w', h')) /\ Q h' /\ writer_ok w' /\
    owns base (option_list (w_data w') ++ l) h' /\ w_bytes w' = w_bytes w ++ encode_values vs.
Proof.
  intros HQ. revert w h. induction vs as [|v vs IH]; intros w h Hq Hvs Hw Ho Hlen.
  - exists w, h. cbn. by rewrite app_nil_r.
  - apply Forall_cons_1 in Hvs as [Hv Hvs].
    change (encode_values (v :: vs)) with (encode_value v ++ encode_values vs) in *.
    rewrite zlen_app in Hlen. pose proof (zlen_nonneg (encode_values vs)).
    destruct (write_value_reliable Q base l v w h) as (w1 & h1 & E1 & Hq1); [done.. | lia |].
    destruct (write_value_spec base l _ _ _ _ _ _ Hv Hw Ho E1) as (Hw1 & Ho1 & Hb1).
    destruct (IH w1 h1) as (w2 & h2 & E2 & Hq2 & Hw2 & Ho2 & Hb2); try done.
    { unfold w_len in *. rewrite Hb1, zlen_app. lia. }
    exists w2, h2. cbn [write_values]. unfold bind. rewrite E1, E2.
    split_and!; try done. by rewrite Hb2, Hb1, <- app_assoc.
Qed.
End WriterFacts.

(** ** The decoder on hosts with a 64-bit size_t *)
Section DecodeFacts.
Context `{HH : Host} `{HP : Heap W}.
Hypothesis H64 : size_bits = 64.
Variable data : list Z.
Variable len : Z.
Hypothesis Hdata : bytes_ok data.
Hypothesis Hlen : 0 <= len <= zlen data.
Hypothesis Hbig : len < 2 ^ 56.
Implicit Types (h : W) (d : decode_state) (base : gset Z) (l : list Z).

Local Ltac usz := rewrite ?(usize_small (H := HH)) by (rewrite H64; lia).

(** what a step may return: a value whose encoding is the bytes consumed *)
Definition consumed (type off : Z) (v : wirecall_value) (off' : Z) : Prop :=
  off <= off' <= len /\ value_good v /\ pvalue_ok (erase v) /\
  type :: ztake (off' - off) (zdrop off data) = encode_value (erase v).

Lemma decode_u64_spec off :
  0 <= off <= len ->
  decode_u64 data len off = Err /\ len < off + 8 \/
  exists v, decode_u64 data len off = Ok (v, off + 8) /\ off + 8 <= len /\ 0 <= v < 2 ^ 64 /\
    ztake 8 (zdrop off data) = be_split 8 v.
Proof.
  intros Hoff. unfold decode_u64. usz. destruct (len <? off + 8) eqn:E; zb; [by left | right].
  rewrite get_u64_combine by auto with wire. rewrite zlen_zdrop by lia.
  replace (8 <=? zlen data - off) with true by (symmetry; apply Z.leb_le; lia). cbn [res_bind].
  eexists. split; [done |]. split; [done |].
  assert (Hz : zlen (ztake 8 (zdrop off data)) = 8) by (rewrite zlen_ztake; [done | rewrite zlen_zdrop; lia]).
  pose proof (be_combine_range (ztake 8 (zdrop off data))) as Hr. rewrite Hz in Hr.
  split; [apply Hr; auto with wire |].
  symmetry. apply (f_equal Z.to_nat) in Hz. unfold zlen in Hz. rewrite Nat2Z.id in Hz.
  change 8%nat with (Z.to_nat 8). rewrite <- Hz at 1. apply be_split_combine. auto with wire.
Qed.

Lemma read_byte_spec off : 0 <= off < len -> exists b, read_byte data off = Ok b /\ byte_ok b /\ data !! Z.to_nat off = Some b.
Proof.
  intros Hoff. unfold read_byte. destruct (data !! Z.to_nat off) as [b|] eqn:E.
  - exists b. split; [done |]. split; [| done]. unfold bytes_ok in Hdata. rewrite Forall_lookup in Hdata. by eapply Hdata.
  - apply lookup_ge_None in E. unfold zlen in Hlen. lia.
Qed.

Lemma zdrop_lookup off b : 0 <= off -> data !! Z.to_nat off = Some b -> zdrop off data = b :: zdrop (off + 1) data.
Proof.
  intros Ho Hb. unfold zdrop. rewrite (drop_S _ _ _ Hb). do 2 f_equal. lia.
Qed.

(** the length field of a byte string or string *)
Lemma blob_header off :
  0 <= off -> off + 4 <= len ->
  exists n, get_u32 (zdrop off data) = Ok n /\ 0 <= n < 2 ^ 32 /\ ztake 4 (zdrop off data) = be_split 4 n.
Proof.
  intros H0 H4. rewrite get_u32_combine by auto with wire. rewrite zlen_zdrop by lia.
  replace (4 <=? zlen data - off) with true by (symmetry; apply Z.leb_le; lia).
  eexists. split; [done |].
  assert (Hz : zlen (ztake 4 (zdrop off data)) = 4) by (rewrite zlen_ztake; [done | rewrite zlen_zdrop; lia]).
  pose proof (be_combine_range (ztake 4 (zdrop off data))) as Hr. rewrite Hz in Hr.
  split; [apply Hr; auto with wire |].
  symmetry. apply (f_equal Z.to_nat) in Hz. unfold zlen in Hz. rewrite Nat2Z.id in Hz.
  change 4%nat with (Z.to_nat 4). rewrite <- Hz at 1. apply be_split_combine. auto with wire.
Qed.

Definition blob_value (is_string : bool) (p : option Z) (n : Z) (bytes : list Z) : wirecall_value :=
  if is_string then VString p n bytes else VBytes p n bytes.

Lemma blob_consumed (s : bool) off n p :
  0 <= off -> off + 4 + n <= len -> 0 <= n < 2 ^ 32 -> ztake 4 (zdrop off data) = be_split 4 n ->
  (p = None <-> n = 0 /\ s = false) ->
  consumed (if s then 6 else 5) off (blob_value s p n (ztake n (zdrop (off + 4) data))) (off + 4 + n).
Proof.
  intros H0 Hn Hr Hs Hp.
  assert (Hz : zlen (ztake n (zdrop (off + 4) data)) = n) by (rewrite zlen_ztake; [done | rewrite zlen_zdrop; lia]).
  split; [lia |]. split; [| split].
  - destruct s; cbn [blob_value value_good]; (split; [by rewrite Hz |]).
    + intros E. apply Hp in E as [_ ?]. done.
    + rewrite Hp. split; [intros [-> _]; done |]. intros E. rewrite E in Hz.
      change (zlen []) with 0 in Hz. done.
  - destruct s; cbn [blob_value erase pvalue_ok]; rewrite Hz; (split; [auto with wire | lia]).
  - assert (Hcut : ztake (off + 4 + n - off) (zdrop off data) = be_split 4 n ++ ztake n (zdrop (off + 4) data)).
    { rewrite <- (ztake_zdrop 4 (zdrop off data)) at 1. rewrite Hs, zdrop_zdrop by lia.
      rewrite <- (ztake_zdrop n (zdrop (off + 4) data)) at 1. rewrite app_assoc.
      apply ztake_app_eq. rewrite zlen_app, zlen_be_split, Hz. lia. }
    rewrite Hcut. destruct s; cbn [blob_value erase encode_value]; rewrite Hz; done.
Qed.

Lemma decode_blob_spec (s : bool) off base l h r h' :
  0 <= off <= len -> owns base l h -> decode_blob s data len off h = (r, h') ->
  match r with
  | Ok (v, off') => consumed (if s then 6 else 5) off v off' /\ owns base (option_list (value_copy v) ++ l) h'
  | Err => owns base l h'
  | UB => False
  end.
Proof.
  intros Hoff Ho. unfold decode_blob. usz. destruct (len <? off + 4) eqn:E4; zb; [by intros [= <- <-] |].
  destruct (blob_header off) as (n & -> & Hn & Hs); [lia.. |]. unfold bind at 1, lift. usz.
  destruct (len <? off + 4 + n) eqn:En; zb; [by intros [= <- <-] |].
  assert (Hval : forall p, (if s then VString p n (ztake n (zdrop (off + 4) data)) else VBytes p n (ztake n (zdrop (off + 4) data)))
    = blob_value s p n (ztake n (zdrop (off + 4) data))) by done.
  destruct (0 <? _) eqn:Ec; zb; unfold bind.
  - destruct (heap_alloc _ h) as [[p|] h1] eqn:Ea.
    + replace (_ || _) with false by (symmetry; apply orb_false_intro; apply Z.ltb_ge; [| destruct s]; lia).
      intros [= <- <-]. cbn [fst snd]. eapply owns_alloc in Ea; [| destruct s; lia | done].
      split; [| by destruct s]. rewrite Hval. apply blob_consumed; try lia; try done.
      split; [done |]. destruct s; [by intros [_ ?] |]. lia.
    + intros [= <- <-]. eapply owns_alloc_none; [| done | done]. destruct s; lia.
  - assert (Hs0 : s = false /\ n = 0) by (destruct s; [lia |]; split; [done | lia]). destruct Hs0 as [-> ->].
    intros [= <- <-]. cbn [fst snd]. split; [| done].
    apply (blob_consumed false off 0 None); try lia; done.
Qed.

Lemma decode_value_spec type off base l h r h' :
  byte_ok type -> 0 <= off <= len -> owns base l h -> decode_value type data len off h = (r, h') ->
  match r with
  | Ok (v, off') => consumed type off v off' /\ owns base (option_list (value_copy v) ++ l) h'
  | Err => owns base l h'
  | UB => False
  end.
Proof.
  intros Ht Hoff Ho. unfold decode_value.
  assert (Hword : forall (mk : Z -> wirecall_value), (forall v, 0 <= v < 2 ^ 64 ->
      value_good (mk v) /\ pvalue_ok (erase (mk v)) /\ type :: be_split 8 v = encode_value (erase (mk v)) /\ value_copy (mk v) = None) ->
    (r0 <- lift (decode_u64 data len off) ;; ret (mk r0.1, r0.2)) h = (r, h') ->
    match r with
    | Ok (v, off') => consumed type off v off' /\ owns base (option_list (value_copy v) ++ l) h'
    | Err => owns base l h'
    | UB => False
    end).
  { intros mk Hmk. destruct (decode_u64_spec off Hoff) as [[-> _] | (v & -> & H8 & Hv & Hs)]; unfold bind, lift, ret.
    - by intros [= <- <-].
    - intros [= <- <-]. cbn [fst snd]. destruct (Hmk v Hv) as (Hg & Hp & He & Hc). rewrite Hc.
      split; [| done]. split; [lia |]. split; [done |]. split; [done |].
      replace (off + 8 - off) with 8 by lia. by rewrite Hs. }
  destruct (type =? 0) eqn:E0; zb.
  { subst type. intros [= <- <-]. split; [| done]. split; [lia |]. split; [done |]. split; [done |].
    replace (off - off) with 0 by lia. done. }
  destruct (type =? 1) eqn:E1; zb.
  { subst type. usz. destruct (len <? off + 1) eqn:El; zb; [by intros [= <- <-] |].
    destruct (read_byte_spec off) as (b & -> & Hb & Hlk); [lia |]. unfold bind, lift.
    destruct (_ && _) eqn:Eb; [by intros [= <- <-] |]. intros [= <- <-].
    split; [| done]. split; [lia |]. split; [done |]. split; [done |].
    replace (off + 1 - off) with 1 by lia. rewrite (zdrop_lookup off b) by (done || lia).
    cbn [erase encode_value]. apply andb_false_iff in Eb as [Eb | Eb]; zb; by subst b. }
  destruct (type =? 2) eqn:E2; zb.
  { subst type. apply (Hword (fun v => VI64 (s64 v))). intros v Hv. split; [done |].
    split; [apply s64_range |]. cbn [erase encode_value]. by rewrite u64_s64, u64_small. }
  destruct (type =? 3) eqn:E3; zb; [subst type; by apply (Hword VU64) |].
  destruct (type =? 4) eqn:E5; zb; [subst type; by apply (Hword VF64) |].
  destruct (type =? 5) eqn:E6; zb; [subst type; by apply (decode_blob_spec false) |].
  destruct (type =? 6) eqn:E7; zb; [subst type; by apply (decode_blob_spec true) |].
  by intros [= <- <-].
Qed.


(** *** The loop invariant *)
Definition copies (vals : list wirecall_value) : list Z := omap value_copy vals.

(** the array holds [vals], then the sentinel; it does not exist before the
    first value *)
Definition array_ok (values : option Z) (cells : list cell) (cap : Z) (vals : list wirecall_value) : Prop :=
  match values with
  | None => cells = [] /\ cap = 0 /\ vals = []
  | Some _ => 0 < cap /\ zlen cells = cap + 1 /\ exists junk, cells = map CValue vals ++ CSentinel :: junk
  end.

Record decode_ok (base : gset Z) (vals : list wirecall_value) (d : decode_state) (h : W) : Prop := {
  dk_array : array_ok (ds_values d) (ds_cells d) (ds_cap d) vals;
  dk_count : ds_count d = zlen vals;
  dk_room : zlen vals <= ds_cap d <= 4 + 2 * zlen vals;
  dk_off : zlen vals <= ds_off d <= len;
  dk_bytes : ztake (ds_off d) data = encode_values (map erase vals);
  dk_good : Forall (fun v => value_good v /\ pvalue_ok (erase v)) vals;
  dk_owns : owns base (option_list (ds_values d) ++ copies vals) h;
}.

Lemma cleanup_cells_spec base l vals rest h :
  owns base (copies vals ++ l) h ->
  exists h', cleanup_cells (length vals) (map CValue vals ++ rest) h = (Ok tt, h') /\ owns base l h'.
Proof.
  revert h. induction vals as [|v vals IH]; intros h Ho; [by exists h |].
  cbn [length map app cleanup_cells]. unfold bind, modify.
  apply IH. apply owns_free_opt. unfold copies in *. cbn [omap list_omap] in Ho.
  destruct (value_copy v); exact Ho.
Qed.

Lemma array_cleanup base vals values cells cap h :
  array_ok values cells cap vals -> owns base (option_list values ++ copies vals) h ->
  exists h', values_cleanup values cells (zlen vals) h = (Ok tt, h') /\ owns base (option_list values) h'.
Proof.
  intros Ha Ho. destruct values as [p|]; cbn [values_cleanup array_ok option_list app] in *.
  - destruct Ha as (_ & _ & junk & ->). unfold zlen. rewrite Nat2Z.id.
    apply cleanup_cells_spec. by rewrite Permutation_app_comm.
  - destruct Ha as (_ & _ & ->). by exists h.
Qed.

Lemma decode_abandon_spec {A} base vals d h :
  decode_ok base vals d h -> exists h', decode_abandon (A := A) d h = (Err, h') /\ owns base [] h'.
Proof.
  intros Hd. unfold decode_abandon, bind, modify. rewrite (dk_count _ _ _ _ Hd).
  destruct (array_cleanup base vals _ _ _ h (dk_array _ _ _ _ Hd) (dk_owns _ _ _ _ Hd)) as (h1 & -> & Ho).
  eexists. split; [done |]. apply owns_free_opt. by rewrite app_nil_r.
Qed.

Lemma map_CValue_insert vals v x junk :
  <[length vals := CValue v]> (map CValue vals ++ x :: junk) = map CValue (vals ++ [v]) ++ junk.
Proof.
  rewrite insert_app_r_alt by (by rewrite length_map). rewrite length_map, Nat.sub_diag. cbn.
  by rewrite map_app, <- app_assoc.
Qed.

Lemma decode_grow_spec base vals d h r h' :
  decode_ok base vals d h -> ds_off d < len -> decode_grow d h = (r, h') ->
  match r with
  | Ok d' => decode_ok base vals d' h' /\ zlen vals < ds_cap d' /\ ds_values d' <> None /\ ds_off d' = ds_off d
  | Err => owns base [] h'
  | UB => False
  end.
Proof.
  intros Hd Hlt. pose proof Hd as [Ha Hc Hr Hoff Hb Hg Ho]. unfold decode_grow. rewrite Hc.
  destruct (zlen vals =? ds_cap d) eqn:Eq; zb.
  - pose proof (zlen_nonneg vals) as Hnn. rewrite Eq in *.
    set (next_cap := if ds_cap d =? 0 then 4 else usize (ds_cap d * 2)).
    assert (Hnc : next_cap = if ds_cap d =? 0 then 4 else ds_cap d * 2).
    { subst next_cap. by rewrite (usize_small (H := HH)) by (rewrite H64; lia). }
    assert (Hnb : ds_cap d < next_cap <= 4 + 2 * ds_cap d) by (rewrite Hnc; destruct (ds_cap d =? 0) eqn:?; zb; lia).
    clearbody next_cap.
    assert (Hsize : 0 <= sizeof_wirecall_value <= 24) by (unfold sizeof_wirecall_value; destruct (size_bits =? 64); lia).
    destruct (heap_realloc _ _ h) as [[next|] h1] eqn:Er.
    + intros [= <- <-]. cbn [ds_values ds_cells ds_count ds_cap ds_off].
      eapply owns_realloc in Er; [| apply Z.mod_pos_bound; rewrite H64; lia | done].
      split; [| split; [lia |]; done].
      constructor; cbn [ds_values ds_cells ds_count ds_cap ds_off]; try done; try lia.
      split; [lia |]. rewrite zlen_length, length_insert, length_app, length_take, length_replicate.
      assert (Hcl : zlen (ds_cells d) <= ds_cap d + 1).
      { destruct (ds_values d); cbn [array_ok] in Ha; [lia |]. destruct Ha as (-> & -> & _). by_compute. }
      unfold zlen in Hcl. split; [lia |].
      assert (Htake : take (Z.to_nat (next_cap + 1)) (ds_cells d) = ds_cells d) by (apply take_ge; lia).
      rewrite Htake. destruct (ds_values d); cbn [array_ok] in Ha.
      * destruct Ha as (_ & Hz & junk & E). rewrite E in *.
        exists (junk ++ replicate (Z.to_nat (next_cap + 1) - length (map CValue vals ++ CSentinel :: junk)) CUninit).
        rewrite <- app_assoc. replace (Z.to_nat (ds_cap d)) with (length vals) by (unfold zlen in Eq; lia).
        rewrite insert_app_r_alt by (by rewrite length_map). by rewrite length_map, Nat.sub_diag.
      * destruct Ha as (-> & E0 & ->). rewrite E0 in *. cbn [map app length].
        destruct (Z.to_nat (next_cap + 1) - 0)%nat as [|k] eqn:Ek; [lia |]. by exists (replicate k CUninit).
    + eapply owns_realloc_none in Er; [| apply Z.mod_pos_bound; rewrite H64; lia | done].
      intros E. destruct (decode_abandon_spec (A := decode_state) base vals d h1) as (h2 & E2 & Ho2).
      { constructor; rewrite ?Eq; done. }
      rewrite E2 in E. by injection E as <- <-.
  - intros [= <- <-]. split; [done |]. split; [lia |]. split; [| done].
    intros En. rewrite En in Ha. cbn in Ha. destruct Ha as (_ & E0 & ->). change (zlen []) with 0 in *. lia.
Qed.

Lemma decode_store_spec base vals d type v off h h' :
  decode_ok base vals d h -> zlen vals < ds_cap d -> ds_values d <> None ->
  data !! Z.to_nat (ds_off d) = Some type -> consumed type (ds_off d + 1) v off ->
  owns base (option_list (value_copy v) ++ option_list (ds_values d) ++ copies vals) h' ->
  exists d', decode_store v off d = Ok d' /\ decode_ok base (vals ++ [v]) d' h' /\ ds_off d < ds_off d'.
Proof.
  intros [Ha Hc Hr Hoff Hb Hg Ho] Hroom Hptr Hlk (Ho1 & Hgv & Hpv & He) Hown.
  destruct (ds_values d) as [p|] eqn:Ev; [| done]. destruct Ha as (Hcap & Hz & junk & Ecells).
  unfold decode_store. rewrite Hz. replace (ds_count d + 1 <? ds_cap d + 1) with true by (symmetry; apply Z.ltb_lt; lia).
  pose proof (zlen_nonneg vals) as Hnn.
  eexists. split; [done |]. split; [| cbn [ds_off]; lia].
  constructor; cbn [ds_values ds_cells ds_count ds_cap ds_off]; rewrite ?Ev.
  - split; [lia |]. split; [by rewrite zlen_length, !length_insert |].
    rewrite Ecells in *. replace (Z.to_nat (ds_count d)) with (length vals) by (unfold zlen in Hc; lia).
    rewrite map_CValue_insert. destruct junk as [|x junk].
    + exfalso. rewrite zlen_app, zlen_cons, (zlen_length (map _ _)), length_map in Hz.
      change (zlen []) with 0 in Hz. unfold zlen in *. lia.
    + exists junk. replace (Z.to_nat (ds_count d + 1)) with (length (vals ++ [v]))
        by (rewrite length_app; unfold zlen in Hc; cbn; lia).
      rewrite insert_app_r_alt by (by rewrite length_map). by rewrite length_map, Nat.sub_diag.
  - rewrite zlen_app. change (zlen [v]) with 1. lia.
  - rewrite zlen_app. change (zlen [v]) with 1. lia.
  - rewrite zlen_app. change (zlen [v]) with 1. lia.
  - rewrite map_app, encode_values_app, <- Hb. unfold encode_values. cbn [map concat]. rewrite app_nil_r, <- He.
    rewrite <- (ztake_zdrop (ds_off d) data) at 1.
    rewrite (zdrop_lookup (ds_off d) _ ltac:(lia) Hlk).
    assert (Hzt : zlen (ztake (ds_off d) data) = ds_off d) by (apply zlen_ztake; lia).
    replace off with (zlen (ztake (ds_off d) data) + (1 + (off - (ds_off d + 1)))) at 1 by lia.
    unfold ztake at 1. rewrite take_app_ge by (unfold zlen in *; lia).
    f_equal. replace (Z.to_nat _ - _)%nat with (S (Z.to_nat (off - (ds_off d + 1)))) by (unfold zlen in *; lia). done.
  - apply Forall_app. split; [done |]. by repeat constructor.
  - unfold copies in *. rewrite omap_app. cbn [omap list_omap].
    rewrite Permutation_app_comm, <- app_assoc in Hown. destruct (value_copy v); exact Hown.
Qed.

Lemma decode_step_spec base vals d h r h' :
  decode_ok base vals d h -> ds_off d < len -> decode_step data len d h = (r, h') ->
  match r with
  | Ok d' => exists v, decode_ok base (vals ++ [v]) d' h' /\ ds_off d < ds_off d'
  | Err => owns base [] h'
  | UB => False
  end.
Proof.
  intros Hd Hlt. unfold decode_step, bind.
  destruct (decode_grow d h) as [r1 h1] eqn:E1. pose proof (decode_grow_spec _ _ _ _ _ _ Hd Hlt E1) as H1.
  destruct r1 as [d1| |]; [| by intros [= <- <-] | done]. destruct H1 as (Hd1 & Hroom & Hptr & Eo).
  pose proof (dk_off _ _ _ _ Hd) as Hoff. pose proof (zlen_nonneg vals) as Hnn.
  destruct (read_byte_spec (ds_off d1)) as (type & -> & Htype & Hlk); [lia |]. unfold lift, attempt.
  rewrite (usize_small (H := HH)) by (rewrite H64; lia).
  destruct (decode_value type data len (ds_off d1 + 1) h1) as [r2 h2] eqn:E2.
  apply (decode_value_spec _ _ base (option_list (ds_values d1) ++ copies vals)) in E2;
    [| done | lia | apply (dk_owns _ _ _ _ Hd1)].
  destruct r2 as [[v off]| |]; [| | done].
  - destruct E2 as [Hcons Hown]. destruct (decode_store_spec base vals d1 type v off h1 h2) as (d2 & -> & Hd2 & Hlt2); try done.
    intros [= <- <-]. exists v. split; [done | lia].
  - destruct (decode_abandon_spec (A := decode_state) base vals d1 h2) as (h3 & -> & Ho3).
    { destruct Hd1. by constructor. }
    by intros [= <- <-].
Qed.

Lemma decode_loop_spec fuel base vals d h r h' :
  decode_ok base vals d h -> len - ds_off d <= Z.of_nat fuel -> decode_loop fuel data len d h = (r, h') ->
  match r with
  | Ok d' => exists vals', decode_ok base vals' d' h' /\ ds_off d' = len
  | Err => owns base [] h'
  | UB => False
  end.
Proof.
  revert vals d h. induction fuel as [|fuel IH]; intros vals d h Hd Hf; cbn [decode_loop];
    pose proof (dk_off _ _ _ _ Hd) as Hoff; destruct (ds_off d <? len) eqn:El; zb; try lia.
  - intros [= <- <-]. exists vals. split; [done | lia].
  - unfold bind. destruct (decode_step data len d h) as [r1 h1] eqn:E1.
    pose proof (decode_step_spec _ _ _ _ _ _ Hd El E1) as H1.
    destruct r1 as [d1| |]; [| by intros [= <- <-] | done]. destruct H1 as (v & Hd1 & Hlt).
    apply (IH _ _ _ Hd1). lia.
  - intros [= <- <-]. exists vals. split; [done | lia].
Qed.

Definition decode_start : decode_state :=
  {| ds_values := None; ds_cells := []; ds_count := 0; ds_cap := 0; ds_off := 0 |}.

Lemma decode_start_ok h : heap_inv h -> decode_ok (heap_live h) [] decode_start h.
Proof.
  intros Hi. constructor; cbn [decode_start ds_values ds_cells ds_count ds_cap ds_off]; change (@zlen wirecall_value []) with 0;
    try lia; try done. by apply owns_start.
Qed.

(** what the caller gets: an array that holds [vals], with their copies, in
    blocks of its own *)
Record decoded (base : gset Z) (vals : list wirecall_value) (a : value_array) (h : W) : Prop := {
  dc_array : exists cap, array_ok (va_ptr a) (va_cells a) cap vals;
  dc_count : va_count a = zlen vals;
  dc_good : Forall (fun v => value_good v /\ pvalue_ok (erase v)) vals;
  dc_owns : owns base (option_list (va_ptr a) ++ copies vals) h;
}.

Lemma decode_spec h r h' :
  heap_inv h -> wirecall_payload_decode (Some data) len true true h = (r, h') ->
  match r with
  | Ok a => exists vals, decoded (heap_live h) vals a h' /\ ztake len data = encode_values (map erase vals)
  | Err => owns (heap_live h) [] h'
  | UB => False
  end.
Proof.
  intros Hi. unfold wirecall_payload_decode. cbn [orb negb default from_option]. fold decode_start. unfold bind.
  destruct (decode_loop _ _ _ _ h) as [r1 h1] eqn:E.
  apply (decode_loop_spec _ (heap_live h) []) in E; [| by apply decode_start_ok | cbn [decode_start ds_off]; lia].
  destruct r1 as [d| |]; [| by intros [= <- <-] | done]. destruct E as (vals & Hd & Hoff).
  intros [= <- <-]. exists vals. rewrite <- Hoff. destruct Hd.
  split; [| done]. constructor; cbn [va_ptr va_cells va_count]; by eauto.
Qed.

Lemma find_sentinel_spec vals junk : find_sentinel (map CValue vals ++ CSentinel :: junk) = Ok (zlen vals).
Proof.
  induction vals as [|v vals IH]; [done |]. cbn [map app find_sentinel]. rewrite IH, zlen_cons. cbn [res_bind].
  f_equal. lia.
Qed.

Lemma values_free_spec base vals a h :
  decoded base vals a h ->
  exists h', wirecall_values_free (va_ptr a) (va_cells a) h = (Ok tt, h') /\ owns base [] h'.
Proof.
  intros [[cap Ha] Hc _ Ho]. destruct (array_cleanup _ _ _ _ _ _ Ha Ho) as (h1 & E & Ho1).
  unfold wirecall_values_free. destruct (va_ptr a) as [p|]; [| by exists h; injection E as <-].
  destruct Ha as (_ & _ & junk & Ecells). unfold bind, lift. rewrite Ecells, find_sentinel_spec, <- Ecells, E.
  eexists. split; [done |]. by apply owns_free.
Qed.

(** *** Completeness *)
Lemma be_split_eq n v w : 0 <= v < 256 ^ Z.of_nat n -> 0 <= w < 256 ^ Z.of_nat n -> be_split n v = be_split n w -> v = w.
Proof.
  intros Hv Hw E. apply (f_equal be_combine) in E. rewrite !be_combine_split in E.
  by rewrite !Z.mod_small in E by done.
Qed.

Lemma ztake_cut k off l : 0 <= off -> off + k <= len -> 0 <= k -> ztake k (zdrop off data) = l -> k = zlen l.
Proof. intros. subst l. rewrite zlen_ztake; [done | rewrite zlen_zdrop; lia]. Qed.

Lemma decode_word_complete off v k :
  0 <= off -> off + k <= len -> 0 <= k -> 0 <= v < 2 ^ 64 -> ztake k (zdrop off data) = be_split 8 v ->
  k = 8 /\ decode_u64 data len off = Ok (v, off + 8).
Proof.
  intros H0 Hk Hkn Hv E. pose proof (ztake_cut _ _ _ H0 Hk Hkn E) as Hk8. rewrite zlen_be_split in Hk8.
  change (Z.of_nat 8) with 8 in Hk8.
  split; [done |]. subst k. destruct (decode_u64_spec off) as [[_ ?] | (w & -> & _ & Hw & Es)]; [lia.. |].
  rewrite E in Es. apply be_split_eq in Es; [by subst | done | done].
Qed.

Lemma decode_blob_complete Q (s : bool) off l k h :
  reliable Q -> heap_inv h -> Q h -> 0 <= off -> off + k <= len -> 0 <= k -> zlen l < 2 ^ 32 ->
  ztake k (zdrop off data) = be_split 4 (zlen l) ++ l ->
  exists p h', decode_blob s data len off h = (Ok (blob_value s p (zlen l) l, off + k), h') /\ Q h'.
Proof.
  intros HQ Hi Hq H0 Hk Hkn Hl E. pose proof (zlen_nonneg l) as Hnn.
  pose proof (ztake_cut _ _ _ H0 Hk Hkn E) as Hke. rewrite zlen_app, zlen_be_split in Hke.
  destruct (blob_header off) as (n & En & Hn & Es); [lia.. |].
  assert (E4 : ztake 4 (ztake k (zdrop off data)) = be_split 4 (zlen l))
    by (rewrite E; apply ztake_app_eq; by rewrite zlen_be_split).
  rewrite ztake_ztake in E4 by lia. rewrite Es in E4. apply be_split_eq in E4; [| done | done]. subst n.
  assert (El : ztake (zlen l) (zdrop (off + 4) data) = l).
  { assert (Ed : zdrop 4 (ztake k (zdrop off data)) = l) by (rewrite E; apply zdrop_app_eq; by rewrite zlen_be_split).
    rewrite <- Ed at 2. unfold ztake, zdrop. rewrite <- skipn_firstn_comm || rewrite skipn_firstn_comm.
    rewrite drop_drop. f_equal; [lia |]. f_equal. lia. }
  unfold decode_blob. usz. replace (len <? off + 4) with false by (symmetry; apply Z.ltb_ge; lia).
  rewrite En. unfold bind, lift. usz. replace (len <? off + 4 + zlen l) with false by (symmetry; apply Z.ltb_ge; lia).
  replace (off + k) with (off + 4 + zlen l) by lia.
  destruct (0 <? _) eqn:Ec; zb.
  - destruct (rel_alloc Q HQ (if s then zlen l + 1 else zlen l) h) as (p & h1 & -> & Hq1); [unfold ADDRESS_SPACE; destruct s; lia | done | done |].
    replace (_ || _) with false by (symmetry; apply orb_false_intro; apply Z.ltb_ge; [| destruct s]; lia).
    exists (Some p), h1. cbn [fst snd]. by rewrite El.
  - destruct s; [lia |]. assert (l = []) as -> by (apply zlen_0_nil; lia). by exists None, h.
Qed.

Lemma decode_value_complete Q pv type off k h :
  reliable Q -> heap_inv h -> Q h -> 0 <= off -> off + k <= len -> 0 <= k -> pvalue_ok pv ->
  type :: ztake k (zdrop off data) = encode_value pv ->
  exists v h', decode_value type data len off h = (Ok (v, off + k), h') /\ Q h' /\ erase v = pv.
Proof.
  intros HQ Hi Hq H0 Hk Hkn Hv. destruct pv as [|b|z|z|z|l|l]; cbn [encode_value pvalue_ok] in *; intros [= -> E].
  - apply ztake_cut in E; [| done..]. change (zlen []) with 0 in E. subst k. exists VNull, h. by rewrite Z.add_0_r.
  - pose proof (ztake_cut _ _ _ H0 Hk Hkn E) as E1. rewrite zlen_cons in E1. change (zlen []) with 0 in E1.
    assert (k = 1) as -> by lia. destruct (read_byte_spec off) as (c & Hc & Hcb & Hlk); [lia |].
    rewrite (zdrop_lookup off c) in E by done. injection E as Ec. exists (VBool b), h.
    unfold decode_value. cbn [Z.eqb Pos.eqb]. usz. replace (len <? off + 1) with false by (symmetry; apply Z.ltb_ge; lia).
    rewrite Hc. unfold bind, lift. subst c. by destruct b.
  - destruct (decode_word_complete off (u64 z) k) as [-> Ew]; try done; try lia; [apply u64_range |].
    exists (VI64 z), h. unfold decode_value. cbn [Z.eqb Pos.eqb]. rewrite Ew. unfold bind, lift, ret. cbn [fst snd].
    by rewrite s64_u64.
  - destruct (decode_word_complete off z k) as [-> Ew]; try done; try lia.
    exists (VU64 z), h. unfold decode_value. cbn [Z.eqb Pos.eqb]. by rewrite Ew.
  - destruct (decode_word_complete off z k) as [-> Ew]; try done; try lia.
    exists (VF64 z), h. unfold decode_value. cbn [Z.eqb Pos.eqb]. by rewrite Ew.
  - destruct (decode_blob_complete Q false off l k h) as (p & h1 & Eb & Hq1); try done; try lia.
    by exists (VBytes p (zlen l) l), h1.
  - destruct (decode_blob_complete Q true off l k h) as (p & h1 & Eb & Hq1); try done; try lia.
    by exists (VString p (zlen l) l), h1.
Qed.

(** the size decode_grow asks for *)
Lemma grow_size cap : 0 <= cap <= len ->
  0 <= usize (usize ((if cap =? 0 then 4 else usize (cap * 2)) + 1) * sizeof_wirecall_value) <= ADDRESS_SPACE.
Proof.
  intros Hc. unfold sizeof_wirecall_value, ADDRESS_SPACE. rewrite H64. cbn [Z.eqb Pos.eqb].
  assert (Hc2 : 0 <= (if cap =? 0 then 4 else usize (cap * 2)) <= 4 + 2 * len).
  { destruct (cap =? 0); [lia |]. rewrite usize_small by (rewrite H64; lia). lia. }
  rewrite (usize_small (_ + 1)) by (rewrite H64; lia). rewrite usize_small by (rewrite H64; lia). lia.
Qed.

Lemma decode_grow_complete Q base vals d h :
  reliable Q -> Q h -> decode_ok base vals d h -> exists d' h', decode_grow d h = (Ok d', h') /\ Q h'.
Proof.
  intros HQ Hq Hd. unfold decode_grow. destruct (_ =? _) eqn:Ecap; [| by eauto]. zb.
  destruct (rel_realloc Q HQ (ds_values d) (usize (usize ((if ds_cap d =? 0 then 4 else usize (ds_cap d * 2)) + 1) * sizeof_wirecall_value)) h)
    as (p & h1 & -> & Hq1); [apply grow_size; pose proof (zlen_nonneg vals); destruct Hd; lia | | | done |].
  - eapply owns_inv. apply (dk_owns _ _ _ _ Hd).
  - eapply owns_opt_block. apply (dk_owns _ _ _ _ Hd).
  - eauto.
Qed.

Lemma decode_step_complete Q base vals d h pv rest :
  reliable Q -> Q h -> decode_ok base vals d h -> pvalue_ok pv ->
  zdrop (ds_off d) (ztake len data) = encode_value pv ++ rest ->
  exists d' h' v, decode_step data len d h = (Ok d', h') /\ Q h' /\ decode_ok base (vals ++ [v]) d' h' /\
    erase v = pv /\ zdrop (ds_off d') (ztake len data) = rest.
Proof.
  intros HQ Hq Hd Hv E. pose proof (dk_off _ _ _ _ Hd) as Hoff. pose proof (zlen_nonneg vals) as Hnn.
  pose proof (zlen_nonneg rest) as Hnr.
  assert (Hz : len - ds_off d = zlen (encode_value pv) + zlen rest).
  { rewrite <- zlen_app, <- E, zlen_zdrop; rewrite zlen_ztake; lia. }
  destruct (encode_value pv) as [|type body] eqn:Epv; [by destruct pv |].
  rewrite zlen_cons in Hz. pose proof (zlen_nonneg body) as Hnb.
  destruct (decode_grow_complete Q base vals d h HQ Hq Hd) as (d1 & h1 & E1 & Hq1).
  destruct (decode_grow_spec _ _ _ _ _ _ Hd ltac:(lia) E1) as (Hd1 & Hroom & Hptr & Eo).
  assert (Hsplit : zdrop (ds_off d) data = type :: body ++ rest ++ zdrop len data).
  { rewrite <- (ztake_zdrop len data) at 1. rewrite zdrop_app_le by (rewrite zlen_ztake; lia).
    rewrite E. cbn [app]. by rewrite <- app_assoc. }
  assert (Hlk : data !! Z.to_nat (ds_off d1) = Some type).
  { rewrite Eo. pose proof (lookup_drop data (Z.to_nat (ds_off d)) 0) as L. rewrite Nat.add_0_r in L.
    rewrite <- L. unfold zdrop in Hsplit. rewrite Hsplit. done. }
  assert (Hbody : ztake (zlen body) (zdrop (ds_off d1 + 1) data) = body).
  { pose proof (zdrop_lookup (ds_off d1) type ltac:(lia) Hlk) as L. rewrite Eo in L |- *. rewrite Hsplit in L.
    injection L as <-. apply ztake_app_all. }
  destruct (decode_value_complete Q pv type (ds_off d1 + 1) (zlen body) h1) as (v & h2 & E2 & Hq2 & Ev); try done; try lia.
  { eapply owns_inv. apply (dk_owns _ _ _ _ Hd1). }
  { by rewrite Hbody. }
  pose proof E2 as Es. apply (decode_value_spec _ _ (base) (option_list (ds_values d1) ++ copies vals)) in Es as [Hcons Hown];
    [| unfold bytes_ok in Hdata; rewrite Forall_lookup in Hdata; by eapply Hdata | lia | apply (dk_owns _ _ _ _ Hd1)].
  destruct (decode_store_spec base vals d1 type v (ds_off d1 + 1 + zlen body) h1 h2) as (d2 & E3 & Hd2 & Hlt2); try done.
  exists d2, h2, v. unfold decode_step, bind, lift, attempt. rewrite E1. unfold read_byte. rewrite Hlk. usz.
  rewrite E2, E3. split_and!; try done.
  unfold decode_store in E3. destruct (_ <? _); [| done]. injection E3 as <-. cbn [ds_off]. rewrite Eo.
  replace (ds_off d + 1 + zlen body) with (ds_off d + (1 + zlen body)) by lia.
  rewrite <- zdrop_zdrop by lia. rewrite E. apply zdrop_app_eq. by rewrite zlen_cons.
Qed.

Lemma decode_loop_complete Q base pvs fuel vals d h :
  reliable Q -> Q h -> decode_ok base vals d h -> Forall pvalue_ok pvs -> len - ds_off d <= Z.of_nat fuel ->
  zdrop (ds_off d) (ztake len data) = encode_values pvs ->
  exists d' h' vals', decode_loop fuel data len d h = (Ok d', h') /\ Q h' /\ decode_ok base (vals ++ vals') d' h' /\
    map erase vals' = pvs.
Proof.
  intros HQ. revert fuel vals d h. induction pvs as [|pv pvs IH]; intros fuel vals d h Hq Hd Hok Hf E.
  - exists d, h, []. rewrite app_nil_r. split; [| done].
    assert (Hz : zlen (zdrop (ds_off d) (ztake len data)) = 0) by (by rewrite E).
    pose proof (dk_off _ _ _ _ Hd). pose proof (zlen_nonneg vals).
    rewrite zlen_zdrop in Hz by (rewrite zlen_ztake; lia). rewrite zlen_ztake in Hz by lia.
    destruct fuel; cbn [decode_loop]; (replace (ds_off d <? len) with false by (symmetry; apply Z.ltb_ge; lia)); done.
  - apply Forall_cons_1 in Hok as [Hv Hvs].
    change (encode_values (pv :: pvs)) with (encode_value pv ++ encode_values pvs) in E.
    destruct (decode_step_complete Q base vals d h pv _ HQ Hq Hd Hv E) as (d1 & h1 & v & E1 & Hq1 & Hd1 & Ev & E2).
    pose proof (dk_off _ _ _ _ Hd) as Hoff. pose proof (zlen_nonneg vals) as Hnn.
    assert (Hlt : ds_off d < len).
    { apply (f_equal zlen) in E. rewrite zlen_zdrop in E by (rewrite zlen_ztake; lia). rewrite zlen_ztake, zlen_app in E by lia.
      pose proof (zlen_nonneg (encode_values pvs)). assert (0 < zlen (encode_value pv)).
      { destruct pv; cbn [encode_value]; rewrite zlen_cons; match goal with |- context [zlen ?x] => pose proof (zlen_nonneg x) end; lia. }
      lia. }
    destruct fuel as [|fuel]; [lia |].
    pose proof (decode_step_spec _ _ _ _ _ _ Hd Hlt E1) as (v' & _ & Hlt1).
    destruct (IH fuel (vals ++ [v]) d1 h1) as (d2 & h2 & vs & E3 & Hq2 & Hd2 & Evs); try done; [lia |].
    exists d2, h2, (v :: vs). cbn [decode_loop]. replace (ds_off d <? len) with true by (symmetry; apply Z.ltb_lt; lia).
    unfold bind. rewrite E1, E3. split; [done |]. split; [done |]. split; [by rewrite <- app_assoc in Hd2 |].
    cbn. by rewrite Ev, Evs.
Qed.

Lemma decode_complete Q h pvs :
  reliable Q -> Q h -> heap_inv h -> Forall pvalue_ok pvs -> ztake len data = encode_values pvs ->
  exists a vals h', wirecall_payload_decode (Some data) len true true h = (Ok a, h') /\ Q h' /\
    decoded (heap_live h) vals a h' /\ map erase vals = pvs.
Proof.
  intros HQ Hq Hi Hok E. unfold wirecall_payload_decode. cbn [orb negb default from_option]. fold decode_start. unfold bind.
  destruct (decode_loop_complete Q (heap_live h) pvs (Z.to_nat len) [] decode_start h) as (d & h1 & vals & E1 & Hq1 & Hd & Ev); try done.
  - by apply decode_start_ok.
  - cbn [decode_start ds_off]. lia.
  - cbn [id]. rewrite E1. eexists _, vals, h1. split; [done |]. split; [done |]. split; [| done].
    destruct Hd. constructor; cbn [va_ptr va_cells va_count]; by eauto.
Qed.
End DecodeFacts.

(** ** Arrays of decoded values, in a heap that holds other blocks *)
Definition no_values : value_array := {| va_ptr := None; va_cells := []; va_count := 0 |}.

(** the initialised values of an array *)
Fixpoint cell_values (cells : list cell) : list wirecall_value :=
  match cells with
  | CValue v :: rest => v :: cell_values rest
  | _ => []
  end.

Lemma cell_values_array vals junk : cell_values (map CValue vals ++ CSentinel :: junk) = vals.
Proof. induction vals as [|v vals IH]; [done |]. cbn. by rewrite IH. Qed.

Definition array_blocks (a : value_array) : list Z := option_list (va_ptr a) ++ copies (cell_values (va_cells a)).

(** an array as the decoder leaves it *)
Definition array_wf (a : value_array) : Prop :=
  exists cap vals, array_ok (va_ptr a) (va_cells a) cap vals /\ va_count a = zlen vals /\
    Forall (fun v => value_good v /\ pvalue_ok (erase v)) vals.

Lemma array_values a cap vals : array_ok (va_ptr a) (va_cells a) cap vals -> cell_values (va_cells a) = vals.
Proof.
  destruct (va_ptr a); cbn.
  - intros (_ & _ & junk & ->). apply cell_values_array.
  - by intros (-> & _ & ->).
Qed.

Section ArrayFacts.
Context `{HH : Host} `{HP : Heap W}.
Hypothesis H64 : size_bits = 64.
Implicit Types h : W.

(** freeing an array of values *)
Lemma values_free_blocks a base l h :
  array_wf a -> owns base (array_blocks a ++ l) h ->
  exists h', wirecall_values_free (va_ptr a) (va_cells a) h = (Ok tt, h') /\ owns base l h'.
Proof.
  intros (cap & vals & Ha & _) Ho. unfold array_blocks in Ho. rewrite (array_values a cap vals Ha) in Ho.
  unfold wirecall_values_free. destruct (va_ptr a) as [p|] eqn:Ep; cbn [option_list option_rect app] in Ho.
  - cbn in Ha. destruct Ha as (_ & _ & junk & Ec). rewrite Ec, find_sentinel_spec.
    unfold bind, lift. cbn [values_cleanup]. unfold zlen. rewrite Nat2Z.id.
    destruct (cleanup_cells_spec base (p :: l) vals (CSentinel :: junk) h) as (h1 & -> & Ho1).
    { by rewrite <- Permutation_middle. }
    eexists. split; [done |]. by apply owns_free.
  - cbn in Ha. destruct Ha as (_ & _ & ->). by exists h.
Qed.

Lemma no_values_wf : array_wf no_values.
Proof. by exists 0, []. Qed.

Lemma decode_null h : wirecall_payload_decode None 0 true true h = (Ok no_values, h).
Proof. reflexivity. Qed.

(** the decoder, in a heap that holds other blocks *)
Lemma decode_framed base l h (data : option (list Z)) n r h' :
  owns base l h ->
  match data with
  | None => n = 0
  | Some d => bytes_ok d /\ 0 <= n <= zlen d /\ n < 2 ^ 56
  end ->
  wirecall_payload_decode data n true true h = (r, h') ->
  match r with
  | Ok a => array_wf a /\ owns base (array_blocks a ++ l) h' /\
      ztake n (default [] data) = encode_values (map erase (cell_values (va_cells a)))
  | Err => owns base l h'
  | UB => False
  end.
Proof.
  intros Ho Hd E. destruct data as [d|].
  - destruct Hd as (Hb & Hn & Hbig). apply (decode_spec H64 d n Hb Hn Hbig) in E; [| by eapply owns_inv].
    destruct r as [a| |]; [| by apply (owns_frame base l [] h h' Ho) | done].
    destruct E as (vals & [[cap Ha] Hc Hg Hown] & Ee).
    split; [by exists cap, vals |]. unfold array_blocks. rewrite (array_values a cap vals Ha).
    split; [by apply (owns_frame base l _ h) | done].
  - subst n. rewrite decode_null in E. injection E as <- <-. split; [apply no_values_wf | done].
Qed.

(** and when allocation succeeds, it returns the values that were encoded *)
Lemma decode_framed_complete Q base l h data pvs :
  reliable Q -> Q h -> owns base l h -> bytes_ok data -> zlen data < 2 ^ 56 -> Forall pvalue_ok pvs ->
  data = encode_values pvs ->
  exists a h', wirecall_payload_decode (Some data) (zlen data) true true h = (Ok a, h') /\ Q h' /\
    map erase (cell_values (va_cells a)) = pvs.
Proof.
  intros HQ Hq Ho Hb Hl Hok ->. pose proof (zlen_nonneg (encode_values pvs)).
  destruct (decode_complete H64 (encode_values pvs) (zlen (encode_values pvs)) Hb ltac:(lia) Hl Q h pvs)
    as (a & vals & h' & E & Hq' & [[cap Ha] _ _ _] & Ev); try done; [by eapply owns_inv | by apply ztake_ge |].
  exists a, h'. by rewrite (array_values a cap vals Ha).
Qed.
End ArrayFacts.

(** ** Properties *)

(** Every writer call keeps the writer well formed (its bytes fit its
    block, which never exceeds the payload limit) and accounts for its block;
    on success it has appended exactly the encoding of the value, and on
    failure the bytes are the old ones, except that a byte string or string
    may have left its five-byte prefix behind. *)
Theorem writer_appends_encoding `{Host} `{Heap W} base l v w (h : W) r w' h' :
  pvalue_ok v -> writer_ok w -> owns base (option_list (w_data w) ++ l) h ->
  write_value v (w, h) = (r, (w', h')) ->
  writer_ok w' /\ owns base (option_list (w_data w') ++ l) h' /\
  (r = Ok tt /\ w_bytes w' = w_bytes w ++ encode_value v \/
   r = Err /\ (w_bytes w' = w_bytes w \/ w_bytes w' = w_bytes w ++ blob_prefix v)).
Proof.
  intros Hv Hw Ho E. destruct (write_value_spec base l _ _ _ _ _ _ Hv Hw Ho E) as (Hw' & Ho' & Hr).
  split; [done |]. split; [done |]. destruct r as [[]| |]; [by left | by right | done].
Qed.

Definition sample_values : list pvalue :=
  [PNull; PBool true; PI64 (-2); PU64 18446744073709551615; PF64 4607182418800017408;
   PBytes [1; 2; 255]; PBytes []; PString [104; 105]; PString []].

(** a writer into which the first sample values were written *)
Definition sample_writer : wirecall_writer * toy :=
  (write_values (H := host_lp64) (take 3 sample_values) (wirecall_writer_init, toy_empty [])).2.

Lemma writer_appends_encoding_witness :
  writer_ok (write_value (H := host_lp64) (PBytes [7; 8]) sample_writer).2.1 /\
  owns ∅ (option_list (w_data (write_value (H := host_lp64) (PBytes [7; 8]) sample_writer).2.1) ++ [])
    (write_value (H := host_lp64) (PBytes [7; 8]) sample_writer).2.2 /\
  ((write_value (H := host_lp64) (PBytes [7; 8]) sample_writer).1 = Ok tt /\
   w_bytes (write_value (H := host_lp64) (PBytes [7; 8]) sample_writer).2.1 =
     w_bytes sample_writer.1 ++ encode_value (PBytes [7; 8]) \/
   (write_value (H := host_lp64) (PBytes [7; 8]) sample_writer).1 = Err /\
   (w_bytes (write_value (H := host_lp64) (PBytes [7; 8]) sample_writer).2.1 = w_bytes sample_writer.1 \/
    w_bytes (write_value (H := host_lp64) (PBytes [7; 8]) sample_writer).2.1 =
      w_bytes sample_writer.1 ++ blob_prefix (PBytes [7; 8]))).
Proof.
  apply (writer_appends_encoding (H := host_lp64) ∅ [] (PBytes [7; 8]) sample_writer.1 sample_writer.2).
  - by_compute.
  - split; [by_compute |]. split; [by_compute |]. by_compute.
  - split; [intros p Hp; vm_compute in Hp |].
    { assert (p ∈ ({[1]} : gset Z)) as Hp1 by exact Hp. apply elem_of_singleton in Hp1. subst. by_compute. }
    split; [by_compute |]. split; [set_solver | by_compute].
  - reflexivity.
Defined.

(** C16: the decoder is memory safe, leak free and exact on every input: on a
    host with a 64-bit size_t, for any bytes and any behaviour of the
    allocator, it stops without an access outside the input or the array.  A
    refusal has released every block it took; otherwise the array holds values
    whose encoding is the input, byte for byte, and wirecall_values_free
    releases exactly what was allocated. *)
Theorem payload_decode_safe `{Host} `{Heap W} data (h : W) r h' :
  size_bits = 64 -> bytes_ok data -> zlen data < 2 ^ 56 -> heap_inv h ->
  wirecall_payload_decode (Some data) (zlen data) true true h = (r, h') ->
  r = Err /\ heap_live h' = heap_live h \/
  exists a vals h'', r = Ok a /\ decoded (heap_live h) vals a h' /\ encode_values (map erase vals) = data /\
    wirecall_values_free (va_ptr a) (va_cells a) h' = (Ok tt, h'') /\ heap_live h'' = heap_live h.
Proof.
  intros H64 Hd Hl Hi E. pose proof (zlen_nonneg data).
  apply (decode_spec H64 data (zlen data) Hd) in E; [| lia | done | done].
  destruct r as [a| |]; [| by left; split; [| apply owns_nil in E as [_ ?]] | done].
  right. destruct E as (vals & Hdec & E). destruct (values_free_spec _ _ _ _ Hdec) as (h'' & Ef & Ho).
  exists a, vals, h''. split; [done |]. split; [done |]. split; [by rewrite <- E, ztake_ge by lia |].
  split; [done |]. by apply owns_nil in Ho as [_ ?].
Qed.

Definition sample_bytes : list Z := encode_values sample_values.
Definition sample_decoded := wirecall_payload_decode (HH := host_lp64) (Some sample_bytes) (zlen sample_bytes) true true (toy_empty []).
Definition truncated_decoded := wirecall_payload_decode (HH := host_lp64) (Some (ztake 40 sample_bytes)) 40 true true (toy_empty []).

Lemma payload_decode_safe_witness :
  truncated_decoded.1 = Err /\ heap_live truncated_decoded.2 = heap_live (toy_empty []) \/
  exists a vals h'', truncated_decoded.1 = Ok a /\ decoded (heap_live (toy_empty [])) vals a truncated_decoded.2 /\
    encode_values (map erase vals) = ztake 40 sample_bytes /\
    wirecall_values_free (va_ptr a) (va_cells a) truncated_decoded.2 = (Ok tt, h'') /\
    heap_live h'' = heap_live (toy_empty []).
Proof.
  apply (payload_decode_safe (H := host_lp64) (ztake 40 sample_bytes) (toy_empty [])).
  - reflexivity.
  - by_compute.
  - by_compute.
  - apply toy_empty_inv.
  - vm_compute. reflexivity.
Defined.

(** C27: round trip: when allocation succeeds, values that fit their C types
    and the payload limit are written by the writers and decoded back to
    themselves, and after freeing the array and the writer no block is left. *)
Theorem payload_roundtrip `{Host} `{Heap W} (Q : W -> Prop) vs (h : W) :
  size_bits = 64 -> reliable Q -> Q h -> heap_inv h -> Forall pvalue_ok vs ->
  zlen (encode_values vs) <= WIRECALL_MAX_PAYLOAD_SIZE ->
  exists w h1 a vals h2 h3,
    write_values vs (wirecall_writer_init, h) = (Ok tt, (w, h1)) /\
    wirecall_payload_decode (Some (w_bytes w)) (w_len w) true true h1 = (Ok a, h2) /\
    decoded (heap_live h1) vals a h2 /\ map erase vals = vs /\
    wirecall_values_free (va_ptr a) (va_cells a) h2 = (Ok tt, h3) /\
    heap_live (wirecall_writer_free w h3).2 = heap_live h.
Proof.
  intros H64 HQ Hq Hi Hvs Hlen.
  destruct (write_values_reliable Q (heap_live h) [] vs wirecall_writer_init h) as (w & h1 & E1 & Hq1 & Hw & Ho & Hb); try done.
  { apply writer_init_ok. }
  { by apply owns_start. }
  cbn [wirecall_writer_init w_bytes app] in Hb. rewrite app_nil_r in Ho.
  assert (Hz : w_len w = zlen (encode_values vs)) by (unfold w_len; by rewrite Hb).
  pose proof (zlen_nonneg (encode_values vs)). unfold WIRECALL_MAX_PAYLOAD_SIZE in *. destruct Hw as (_ & _ & Hbo).
  destruct (decode_complete H64 (w_bytes w) (w_len w) Hbo ltac:(unfold w_len in *; lia) ltac:(lia) Q h1 vs)
    as (a & vals & h2 & E2 & Hq2 & Hdec & Ev); try done.
  { by eapply owns_inv. }
  { rewrite ztake_ge by (unfold w_len; lia). done. }
  destruct (values_free_spec _ _ _ _ Hdec) as (h3 & E3 & Ho3).
  exists w, h1, a, vals, h2, h3. split_and!; try done.
  apply owns_nil in Ho3 as [Hi3 Hl3]. cbn [wirecall_writer_free snd].
  assert (Ho4 : owns (heap_live h) (option_list (w_data w)) h3).
  { destruct Ho as (_ & Hnd & Hdis & Hl). split; [done |]. split; [done |]. split; [done |]. by rewrite Hl3. }
  rewrite <- (app_nil_r (option_list _)) in Ho4. apply owns_free_opt in Ho4. by apply owns_nil in Ho4 as [_ ?].
Qed.

Lemma payload_roundtrip_witness :
  exists w h1 a vals h2 h3,
    write_values (H := host_lp64) sample_values (wirecall_writer_init, toy_empty []) = (Ok tt, (w, h1)) /\
    wirecall_payload_decode (HH := host_lp64) (Some (w_bytes w)) (w_len w) true true h1 = (Ok a, h2) /\
    decoded (heap_live h1) vals a h2 /\ map erase vals = sample_values /\
    wirecall_values_free (va_ptr a) (va_cells a) h2 = (Ok tt, h3) /\
    heap_live (wirecall_writer_free w h3).2 = heap_live (toy_empty []).
Proof.
  apply (payload_roundtrip (H := host_lp64) (fun t => toy_answers t = []) sample_values (toy_empty [])).
  - reflexivity.
  - apply toy_reliable.
  - reflexivity.
  - apply toy_empty_inv.
  - by_compute.
  - by_compute.
Defined.

(** A failing wirecall_writer_bytes is not atomic: when the second of its
    pushes fails the prefix stays, so that a caller that goes on with another
    value produces a payload the decoder refuses although every value it
    accepted was written. *)
Theorem writer_bytes_not_atomic :
  exists w h w' h',
    write_value (H := host_lp64) (PBytes (zreplicate 100 1)) (wirecall_writer_init, toy_empty [true; false]) = (Err, (w, h)) /\
    write_value (H := host_lp64) PNull (w, h) = (Ok tt, (w', h')) /\
    w_bytes w' <> encode_value PNull /\
    (wirecall_payload_decode (HH := host_lp64) (Some (w_bytes w')) (w_len w') true true h').1 = Err.
Proof.
  eexists _, _, _, _. split; [vm_compute; reflexivity |]. split; [vm_compute; reflexivity |].
  split; [vm_compute; discriminate |]. vm_compute. reflexivity.
Qed.

(** With a 32-bit size_t the bounds test of a byte string wraps: a
    five-byte payload passes it and the copy reads outside the input. *)
Theorem payload_decode_wraps_ilp32 :
  (wirecall_payload_decode (HH := host_ilp32) (Some [5; 255; 255; 255; 251]) 5 true true (toy_empty [])).1 = UB.
Proof. vm_compute. reflexivity. Qed.
