(* ===== verification/Arena.v ===== *)
(** * Arena: fixed-size object arenas (include/arena.h)

    An arena is one run of pages cut into slots of equal size.  The free list
    is threaded through the slots: freeing a slot overwrites its first word
    with the previous head.  [slot] keeps that overlay visible: a [Free] slot
    has a link in its first word and the stale rest of the object, and using
    it as an object, or a used object as a link, is [UB].

    The page allocator of include/platform.h (mmap or VirtualAlloc) is the
    interface [Pages]. *)

From S2P Require Import Prelude.

(** ** Pages: what the platform layer promises *)
Class Pages (W : Type) := {
  pages_alloc : Z -> W -> option Z * W;
  pages_free : Z -> Z -> W -> W;
  (** the mapped runs: start address and size *)
  pages_live : W -> gmap Z Z;
  pages_inv : W -> Prop;
  pages_alloc_law : forall n w r w', 0 < n -> pages_inv w -> pages_alloc n w = (r, w') ->
    pages_inv w' /\ match r with
                    | Some p => 0 < p /\ p + n <= 2 ^ 64 /\ p mod 4096 = 0 /\ pages_live w !! p = None /\
                                pages_live w' = <[p := n]> (pages_live w)
                    | None => pages_live w' = pages_live w
                    end;
  pages_free_law : forall p n w, pages_inv w -> pages_live w !! p = Some n ->
    pages_inv (pages_free p n w) /\ pages_live (pages_free p n w) = delete p (pages_live w);
}.

(** page accounting: the mapped runs are those of [base] and the ones of [l] *)
Section PagesFacts.
Context `{PP : Pages P}.
Implicit Types (l : list (Z * Z)) (base : gmap Z Z) (w : P).

Definition pages_own base l w : Prop :=
  pages_inv w /\ NoDup (map fst l) /\ (forall p, p ∈ map fst l -> base !! p = None) /\
  pages_live w = list_to_map l ∪ base.

Lemma pages_own_start w : pages_inv w -> pages_own (pages_live w) [] w.
Proof.
  intros Hi. split; [done |]. split; [constructor |]. split; [by intros p Hp%elem_of_nil |].
  cbn. by rewrite map_empty_union.
Qed.

Lemma pages_own_nil base w : pages_own base [] w -> pages_live w = base.
Proof. intros (_ & _ & _ & ->). cbn. by rewrite map_empty_union. Qed.

Lemma pages_own_perm base l l' w : l ≡ₚ l' -> pages_own base l w -> pages_own base l' w.
Proof.
  intros Hp (Hi & Hn & Hd & Hl).
  assert (Hpf : map fst l ≡ₚ map fst l') by (by rewrite Hp).
  split; [done |]. split; [by rewrite <- Hpf |]. split; [intros p Hin; apply Hd; by rewrite Hpf |].
  rewrite Hl. f_equal. by apply list_to_map_proper.
Qed.

#[global] Instance pages_own_proper base : Proper ((≡ₚ) ==> eq ==> iff) (pages_own base).
Proof. intros l l' Hp w ? <-. split; apply pages_own_perm; by rewrite Hp. Qed.

Lemma pages_own_alloc base l n w r w' :
  0 < n -> pages_own base l w -> pages_alloc n w = (r, w') ->
  pages_own base (match r with Some p => (p, n) :: l | None => l end) w'.
Proof.
  intros Hn (Hi & Hnd & Hd & Hl) E. apply pages_alloc_law in E as [Hi' Hr]; [| done | done].
  destruct r as [p|].
  - destruct Hr as (_ & _ & _ & Hf & Hl'). rewrite Hl in Hf. apply lookup_union_None in Hf as [Hf1 Hf2].
    split; [done |]. split; [| split].
    + cbn. apply list.NoDup_cons. split; [by apply not_elem_of_list_to_map_2 | done].
    + intros q. cbn. rewrite elem_of_cons. intros [-> | Hq]; [done | by apply Hd].
    + rewrite Hl', Hl. cbn. by rewrite insert_union_l.
  - split; [done |]. split; [done |]. split; [done |]. by rewrite Hr.
Qed.

Lemma pages_own_free base p n l w : pages_own base ((p, n) :: l) w -> pages_own base l (pages_free p n w).
Proof.
  intros (Hi & Hnd & Hd & Hl). cbn in Hnd, Hd, Hl. apply list.NoDup_cons in Hnd as [Hp Hnd].
  destruct (pages_free_law p n w Hi) as [Hi' Hl'].
  { rewrite Hl. apply lookup_union_Some_l. by rewrite lookup_insert_eq. }
  split; [done |]. split; [done |]. split; [intros q Hq; apply Hd; apply elem_of_cons; by right |].
  rewrite Hl', Hl. rewrite <- insert_union_l.
  rewrite delete_insert_id; [done |]. apply lookup_union_None. split; [by apply not_elem_of_list_to_map_1 |].
  apply Hd. apply elem_of_cons. by left.
Qed.
End PagesFacts.

Section Arena.
Context `{HH : Host} {E : Type} (zero : E).

(** a slot in use holds an object; a free one has its first word overwritten
    by the link to the next free slot *)
Inductive slot := Used (e : E) | Free (link : option Z) (stale : E).

Record wirecall_fixed_arena := {
  ar_base : option Z;
  elem_size : Z;
  capacity : Z;
  watermark : Z;
  ar_bytes : Z;
  free_list : option Z;
}.

(** the arena and the contents of the slots it has handed out *)
Definition arena_state : Type := wirecall_fixed_arena * gmap Z slot.

Definition sizeof_ptr : Z := size_bits / 8.

Definition wirecall_arena_align (n : Z) : Z :=
  Z.land (usize (usize (n + sizeof_ptr) - 1)) (Z.lnot (sizeof_ptr - 1) mod 2 ^ size_bits).

Definition arena_zero : wirecall_fixed_arena :=
  {| ar_base := None; elem_size := 0; capacity := 0; watermark := 0; ar_bytes := 0; free_list := None |}.

Definition wirecall_fixed_arena_init `{Pages W} (size cap : Z) (w : W) : res unit * (arena_state * W) :=
  let elem := wirecall_arena_align (if size <? sizeof_ptr then sizeof_ptr else size) in
  let bytes := usize (elem * cap) in
  match pages_alloc bytes w with
  | (None, w) => (Err, ((arena_zero, ∅), w))
  | (Some base, w) =>
      (Ok tt, (({| ar_base := Some base; elem_size := elem; capacity := cap; watermark := 0; ar_bytes := bytes;
                   free_list := None |}, ∅), w))
  end.

Definition wirecall_fixed_arena_destroy `{Pages W} (s : arena_state) (w : W) : arena_state * W :=
  ((arena_zero, ∅), match ar_base s.1 with Some base => pages_free base (ar_bytes s.1) w | None => w end).

(** [memset(p, 0, elem_size)], inside the pages of the arena *)
Definition arena_clear (p : Z) : M arena_state unit := fun '(a, m) =>
  match ar_base a with
  | Some base =>
      if (base <=? p) && (p + elem_size a <=? base + ar_bytes a) then (Ok tt, (a, <[p := Used zero]> m))
      else (UB, (a, m))
  | None => (UB, (a, m))
  end.

Definition wirecall_fixed_arena_alloc : M arena_state (option Z) := fun '(a, m) =>
  match free_list a with
  | Some p =>
      match m !! p with
      | Some (Free link _) =>
          (arena_clear p ;;; ret (Some p))
            ({| ar_base := ar_base a; elem_size := elem_size a; capacity := capacity a; watermark := watermark a;
                ar_bytes := ar_bytes a; free_list := link |}, m)
      | _ => (UB, (a, m))
      end
  | None =>
      if watermark a <? capacity a then
        match ar_base a with
        | None => (UB, (a, m))
        | Some base =>
            let p := base + watermark a * elem_size a in
            (arena_clear p ;;; ret (Some p))
              ({| ar_base := ar_base a; elem_size := elem_size a; capacity := capacity a;
                  watermark := watermark a + 1; ar_bytes := ar_bytes a; free_list := free_list a |}, m)
        end
      else (Ok None, (a, m))
  end.

(** the store of the link works on whatever the slot holds, a free one included *)
Definition wirecall_fixed_arena_free (p : option Z) : M arena_state unit := fun '(a, m) =>
  match p with
  | None => (Ok tt, (a, m))
  | Some p =>
      match m !! p with
      | None => (UB, (a, m))
      | Some (Used e) | Some (Free _ e) =>
          (Ok tt, ({| ar_base := ar_base a; elem_size := elem_size a; capacity := capacity a; watermark := watermark a;
                      ar_bytes := ar_bytes a; free_list := Some p |}, <[p := Free (free_list a) e]> m))
      end
  end.
End Arena.
Arguments Used {E} e.
Arguments Free {E} link stale.
Arguments slot : clear implicits.

(** ** Alignment *)
Lemma align_spec `{HH : Host} n :
  size_bits = 64 -> 0 <= n -> n + 8 < 2 ^ 64 -> wirecall_arena_align n = (n + 7) / 8 * 8.
Proof.
  intros H64 Hn Hb. unfold wirecall_arena_align, sizeof_ptr. rewrite H64. change (64 / 8) with 8.
  rewrite !(usize_small (H := HH)) by (rewrite ?usize_small; rewrite H64; lia).
  replace (n + 8 - 1) with (n + 7) by lia.
  transitivity (Z.ldiff (n + 7) (Z.ones 3)).
  - apply Z.bits_inj'. intros i Hi. rewrite Z.land_spec, Z.ldiff_spec. change (8 - 1) with (Z.ones 3).
    destruct (Z_lt_le_dec i 64).
    + by rewrite Z.mod_pow2_bits_low, Z.lnot_spec by lia.
    + replace (Z.testbit (n + 7) i) with false; [done |].
      symmetry. apply Z.bits_above_log2; [lia |]. apply Z.lt_le_trans with 64; [| lia].
      apply Z.log2_lt_pow2; lia.
  - rewrite Z.ldiff_ones_r by lia. rewrite Z.shiftl_mul_pow2, Z.shiftr_div_pow2 by lia. done.
Qed.

(** ** The abstract arena: a finite map from slots in use to their objects *)
Section ArenaFacts.
Context `{HH : Host} {E : Type} (zero : E).
Implicit Types (a : wirecall_fixed_arena) (m : gmap Z (slot E)) (p : Z) (fl : list Z).

Definition slot_object (s : slot E) : option E := match s with Used e => Some e | Free _ _ => None end.
Definition in_use m : gmap Z E := omap slot_object m.

(** the list of slots that starts at [head] *)
Fixpoint chain m (head : option Z) fl : Prop :=
  match fl with
  | [] => head = None
  | p :: fl => head = Some p /\ exists link e, m !! p = Some (Free link e) /\ chain m link fl
  end.

Definition is_slot a p : Prop := exists base i, ar_base a = Some base /\ 0 <= i < watermark a /\ p = base + i * elem_size a.

Record arena_wf a m fl : Prop := {
  wf_size : 0 < elem_size a;
  wf_bytes : ar_bytes a = elem_size a * capacity a;
  wf_base : ar_base a <> None;
  wf_mark : 0 <= watermark a <= capacity a;
  wf_chain : chain m (free_list a) fl;
  wf_nodup : NoDup fl;
  wf_dom : forall p, is_Some (m !! p) <-> is_slot a p;
  wf_free : forall p link e, m !! p = Some (Free link e) -> p ∈ fl;
  wf_count : Z.of_nat (size (in_use m)) + zlen fl = watermark a;
}.

Definition arena_ok (s : @arena_state E) : Prop := exists fl, arena_wf s.1 s.2 fl.

Lemma in_use_lookup m p e : in_use m !! p = Some e <-> m !! p = Some (Used e).
Proof.
  unfold in_use. rewrite lookup_omap. destruct (m !! p) as [[]|]; cbn; naive_solver.
Qed.

Lemma in_use_insert_used m p e : in_use (<[p := Used e]> m) = <[p := e]> (in_use m).
Proof. unfold in_use. by rewrite (omap_insert_Some _ _ _ _ e). Qed.

Lemma in_use_insert_free m p link e : in_use (<[p := Free link e]> m) = delete p (in_use m).
Proof. unfold in_use. by rewrite omap_insert_None. Qed.

Lemma chain_insert m head fl p s : p ∉ fl -> chain m head fl -> chain (<[p := s]> m) head fl.
Proof.
  revert head. induction fl as [|q fl IH]; intros head Hp; cbn [chain]; [done |].
  apply not_elem_of_cons in Hp as [Hq Hp]. intros (-> & link & e & Hl & Hc).
  split; [done |]. exists link, e. rewrite lookup_insert_ne by done. split; [done | by apply IH].
Qed.

Lemma chain_free m head fl p : chain m head fl -> p ∈ fl -> exists link e, m !! p = Some (Free link e).
Proof.
  revert head. induction fl as [|q fl IH]; intros head; cbn [chain]; [by intros _ ?%elem_of_nil |].
  intros (-> & link & e & Hl & Hc) Hp. apply elem_of_cons in Hp as [-> | Hp]; [eauto | by eapply IH].
Qed.

Lemma is_slot_bounds a base p :
  0 < elem_size a -> ar_bytes a = elem_size a * capacity a -> ar_base a = Some base -> watermark a <= capacity a ->
  is_slot a p -> base <= p /\ p + elem_size a <= base + ar_bytes a.
Proof.
  intros Hs Hb Hbase Hw (b & i & Eb & Hi & ->). rewrite Hbase in Eb. injection Eb as <-. rewrite Hb. nia.
Qed.

(** the two ways [alloc] takes a slot *)
Lemma alloc_spec a m fl r s' :
  arena_wf a m fl -> wirecall_fixed_arena_alloc zero (a, m) = (r, s') ->
  (r = Ok None /\ s' = (a, m) /\ Z.of_nat (size (in_use m)) = capacity a) \/
  exists p, r = Ok (Some p) /\ in_use m !! p = None /\ in_use s'.2 = <[p := zero]> (in_use m) /\
    Z.of_nat (size (in_use m)) < capacity a /\ is_slot s'.1 p /\ arena_ok s' /\
    ar_base s'.1 = ar_base a /\ elem_size s'.1 = elem_size a /\ capacity s'.1 = capacity a /\ ar_bytes s'.1 = ar_bytes a.
Proof.
  intros Hwf. pose proof Hwf as [Hs Hb Hba Hm Hc Hnd Hd Hf Hn]. unfold wirecall_fixed_arena_alloc.
  destruct (ar_base a) as [base|] eqn:Ebase; [| done].
  destruct fl as [|p fl]; cbn [chain] in Hc.
  - rewrite Hc. change (@zlen Z []) with 0 in Hn. destruct (watermark a <? capacity a) eqn:Ew; zb.
    + set (p := base + watermark a * elem_size a).
      assert (Hnone : m !! p = None).
      { apply eq_None_not_Some. rewrite Hd. intros (b & i & Eb & Hi & Ep). subst p. rewrite Ebase in Eb.
        injection Eb as <-. nia. }
      assert (Hu : in_use m !! p = None) by (unfold in_use; by rewrite lookup_omap, Hnone).
      unfold bind, arena_clear, ret. cbn [ar_base elem_size ar_bytes].
      replace ((base <=? p) && (p + elem_size a <=? base + ar_bytes a)) with true
        by (symmetry; apply andb_true_iff; rewrite !Z.leb_le, Hb; subst p; nia).
      intros [= <- <-]. right. exists p. cbn [fst snd]. rewrite in_use_insert_used.
      split_and!; try done; try lia.
      * exists base, (watermark a). cbn. split_and!; try done; lia.
      * exists []. constructor; cbn [fst snd ar_base elem_size capacity watermark ar_bytes free_list chain]; try done; try lia.
        -- intros q. rewrite lookup_insert_is_Some. split.
           ++ intros [<- | [Hne Hq]]; [by exists base, (watermark a); cbn [ar_base watermark elem_size]; split_and!; try done; lia |].
              apply Hd in Hq as (b & i & Eb & Hi & ->). rewrite Ebase in Eb. injection Eb as <-.
              exists base, i. cbn [ar_base watermark elem_size]. split_and!; try done; lia.
           ++ intros (b & i & Eb & Hi & ->). cbn [ar_base watermark elem_size] in *. injection Eb as <-.
              destruct (decide (i = watermark a)) as [-> | Hne]; [by left | right].
              split; [subst p; nia |]. apply Hd. exists base, i. split_and!; try done; lia.
        -- intros q link e. rewrite lookup_insert_Some. intros [[_ ?] | [_ Hq]]; [done | by eapply Hf].
        -- rewrite in_use_insert_used, map_size_insert_None by done. change (@zlen Z []) with 0. lia.
    + intros [= <- <-]. left. split_and!; try done. lia.
  - destruct Hc as (Hh & link & e & Hp & Hc). rewrite Hh, Hp. rewrite zlen_cons in Hn.
    pose proof (zlen_nonneg fl) as Hnn.
    assert (Hsl : is_slot a p) by (apply Hd; by rewrite Hp).
    destruct (is_slot_bounds a base p) as [Hlo Hhi]; try done; [lia |].
    assert (Hu : in_use m !! p = None) by (unfold in_use; by rewrite lookup_omap, Hp).
    unfold bind, arena_clear, ret. cbn [ar_base elem_size ar_bytes].
    replace (_ && _) with true by (symmetry; apply andb_true_iff; by rewrite !Z.leb_le).
    intros [= <- <-]. right. exists p. cbn [fst snd]. rewrite in_use_insert_used.
    apply list.NoDup_cons in Hnd as [Hpf Hnd]. split_and!; try done; try lia.
    + destruct Hsl as (b & i & Eb & Hi & ->). exists b, i. cbn. by rewrite <- Ebase, Eb.
    + exists fl. constructor; cbn [fst snd ar_base elem_size capacity watermark ar_bytes free_list]; try done.
      * by apply chain_insert.
      * intros q. rewrite lookup_insert_is_Some, Hd. unfold is_slot. cbn [ar_base watermark elem_size]. rewrite Ebase.
        split; [intros [<- | [_ Hq]]; [| done] | intros Hq; destruct (decide (p = q)); auto].
        destruct Hsl as (b & i & Eb & Hi & ->). exists b, i. by rewrite <- Ebase, Eb.
      * intros q l0 e0. rewrite lookup_insert_Some. intros [[_ ?] | [Hne Hq]]; [done |].
        apply Hf in Hq. apply elem_of_cons in Hq as [-> | ?]; done.
      * rewrite in_use_insert_used, map_size_insert_None by done. lia.
Qed.

Lemma free_spec a m fl p e :
  arena_wf a m fl -> in_use m !! p = Some e ->
  exists s', wirecall_fixed_arena_free (Some p) (a, m) = (Ok tt, s') /\ arena_ok s' /\
    in_use s'.2 = delete p (in_use m) /\
    ar_base s'.1 = ar_base a /\ elem_size s'.1 = elem_size a /\ capacity s'.1 = capacity a /\ ar_bytes s'.1 = ar_bytes a.
Proof.
  intros [Hs Hb Hba Hm Hc Hnd Hd Hf Hn] Hp. pose proof Hp as Hu. apply in_use_lookup in Hu.
  unfold wirecall_fixed_arena_free. rewrite Hu. eexists. split; [done |]. cbn [fst snd].
  assert (Hpf : p ∉ fl) by (intros Hin; destruct (chain_free _ _ _ _ Hc Hin) as (? & ? & ?); congruence).
  split; [| rewrite in_use_insert_free; done].
  exists (p :: fl). constructor; cbn [fst snd ar_base elem_size capacity watermark ar_bytes free_list chain]; try done.
  - split; [done |]. eexists _, _. rewrite lookup_insert_eq. split; [done |]. by apply chain_insert.
  - by constructor.
  - intros q. rewrite lookup_insert_is_Some. unfold is_slot in *. cbn [ar_base watermark elem_size]. rewrite <- Hd.
    split; [intros [<- | [_ Hq]]; [by rewrite Hu | done] | intros Hq; destruct (decide (p = q)); auto].
  - intros q l0 e0. rewrite lookup_insert_Some. intros [[-> _] | [_ Hq]]; apply elem_of_cons; [by left |].
    right. by eapply Hf.
  - rewrite in_use_insert_free, zlen_cons, map_size_delete_Some by (by rewrite Hp).
    assert (size (in_use m) <> 0%nat).
    { intros E0. apply map_size_empty_iff in E0. rewrite E0 in Hp. done. }
    lia.
Qed.

Lemma store_ok a m fl p e e' :
  arena_wf a m fl -> in_use m !! p = Some e -> arena_wf a (<[p := Used e']> m) fl.
Proof.
  intros [Hs Hb Hba Hm Hc Hnd Hd Hf Hn] Hp. pose proof Hp as Hu. apply in_use_lookup in Hu.
  assert (Hpf : p ∉ fl) by (intros Hin; destruct (chain_free _ _ _ _ Hc Hin) as (? & ? & ?); congruence).
  constructor; try done.
  - by apply chain_insert.
  - intros q. rewrite lookup_insert_is_Some, <- Hd.
    split; [intros [<- | [_ Hq]]; [by rewrite Hu | done] | intros Hq; destruct (decide (p = q)); auto].
  - intros q l0 e0. rewrite lookup_insert_Some. intros [[-> ?] | [_ Hq]]; [done | by eapply Hf].
  - rewrite in_use_insert_used, map_size_insert_Some by (by rewrite Hp). done.
Qed.

(** *** Clients: what they may do, and the abstract arena they see *)
Inductive arena_op := AAlloc | AFree (p : Z) | AStore (p : Z) (e : E).

Definition arena_exec (op : arena_op) : M (@arena_state E) (option Z) :=
  match op with
  | AAlloc => wirecall_fixed_arena_alloc zero
  | AFree p => wirecall_fixed_arena_free (Some p) ;;; ret None
  | AStore p e => fun '(a, m) =>
      match m !! p with
      | Some (Used _) => (Ok None, (a, <[p := Used e]> m))
      | _ => (UB, (a, m))
      end
  end.

(** a client frees and writes only what it holds *)
Definition client_may (op : arena_op) (u : gmap Z E) : Prop :=
  match op with
  | AAlloc => True
  | AFree p | AStore p _ => is_Some (u !! p)
  end.

Inductive spec_step (cap : Z) (u : gmap Z E) : arena_op -> option Z -> gmap Z E -> Prop :=
| spec_alloc p : u !! p = None -> Z.of_nat (size u) < cap -> spec_step cap u AAlloc (Some p) (<[p := zero]> u)
| spec_full : Z.of_nat (size u) = cap -> spec_step cap u AAlloc None u
| spec_free p : is_Some (u !! p) -> spec_step cap u (AFree p) None (delete p u)
| spec_store p e : is_Some (u !! p) -> spec_step cap u (AStore p e) None (<[p := e]> u).

Inductive arena_reach (s0 : @arena_state E) : @arena_state E -> Prop :=
| reach_start : arena_reach s0 s0
| reach_op s op r s' : arena_reach s0 s -> client_may op (in_use s.2) -> arena_exec op s = (r, s') -> arena_reach s0 s'.

(** the geometry of an arena never changes *)
Definition same_pages (a a' : wirecall_fixed_arena) : Prop :=
  ar_base a' = ar_base a /\ elem_size a' = elem_size a /\ capacity a' = capacity a /\ ar_bytes a' = ar_bytes a.

Lemma exec_spec s op r s' :
  arena_ok s -> client_may op (in_use s.2) -> arena_exec op s = (r, s') ->
  arena_ok s' /\ same_pages s.1 s'.1 /\ exists o, r = Ok o /\ spec_step (capacity s.1) (in_use s.2) op o (in_use s'.2).
Proof.
  destruct s as [a m]. intros [fl Hwf] Hmay. cbn [fst snd] in *.
  destruct op as [|p|p e]; cbn [arena_exec client_may] in *.
  - intros E0. destruct (alloc_spec _ _ _ _ _ Hwf E0) as [(-> & -> & Hfull) | (p & -> & Hnone & Hu & Hlt & _ & Hok & ?)].
    + split; [by exists fl |]. split; [done |]. exists None. split; [done | by apply spec_full].
    + split; [done |]. split; [done |]. exists (Some p). split; [done |]. rewrite Hu. by apply spec_alloc.
  - destruct Hmay as [e He]. destruct (free_spec _ _ _ _ _ Hwf He) as (s1 & E1 & Hok & Hu & Hsame).
    unfold bind. rewrite E1. intros [= <- <-]. split; [done |]. split; [done |]. exists None. split; [done |].
    rewrite Hu. by apply spec_free.
  - destruct Hmay as [e0 He]. pose proof He as Hu. apply in_use_lookup in Hu. rewrite Hu. intros [= <- <-].
    split; [exists fl; by eapply store_ok |]. split; [done |]. exists None. split; [done |]. cbn [snd].
    rewrite in_use_insert_used. by apply spec_store.
Qed.

Lemma reach_ok s0 s : arena_ok s0 -> arena_reach s0 s -> arena_ok s /\ same_pages s0.1 s.1.
Proof.
  intros H0. induction 1 as [|s op r s' _ [IHok IHp] Hmay E0]; [done |].
  destruct (exec_spec _ _ _ _ IHok Hmay E0) as (Hok & Hp & _). split; [done |].
  unfold same_pages in *. intuition congruence.
Qed.

Lemma init_arena_ok `{Pages W} sz cap (w : W) r s w' :
  size_bits = 64 -> 0 <= sz < 2 ^ 24 -> 0 < cap < 2 ^ 24 -> wirecall_fixed_arena_init sz cap w = (r, (s, w')) ->
  match r with
  | Ok _ => arena_ok s /\ in_use s.2 = ∅ /\ capacity s.1 = cap
  | Err => s = (arena_zero, ∅)
  | UB => False
  end.
Proof.
  intros H64 Hsz Hcap. unfold wirecall_fixed_arena_init. set (n := if sz <? sizeof_ptr then sizeof_ptr else sz).
  assert (Hn : n = Z.max 8 sz). { subst n. unfold sizeof_ptr. rewrite H64. change (64 / 8) with 8. split_ifs; zb; lia. }
  rewrite (align_spec n) by lia. clearbody n. assert (Hel : n <= (n + 7) / 8 * 8 <= n + 7) by (Z.div_mod_to_equations; lia).
  rewrite (usize_small (H := HH)) by (rewrite H64; nia).
  destruct (pages_alloc _ w) as [[base|] w1]; intros [= <- <- <-]; [| done]. split; [| done].
  exists []. constructor; cbn [fst snd ar_base elem_size capacity watermark ar_bytes free_list chain]; try done; try lia.
  { by constructor. }
  intros p. rewrite lookup_empty. split; [by intros [? ?] |].
  intros (b & i & _ & Hi2 & _). cbn [watermark] in Hi2. lia.
Qed.

Lemma init_spec `{Pages W} sz cap (w : W) r s w' :
  size_bits = 64 -> 0 <= sz < 2 ^ 24 -> 0 < cap < 2 ^ 24 -> pages_inv w ->
  wirecall_fixed_arena_init sz cap w = (r, (s, w')) ->
  match r with
  | Ok _ => arena_ok s /\ in_use s.2 = ∅ /\ capacity s.1 = cap /\ Z.max 8 sz <= elem_size s.1 /\ elem_size s.1 mod 8 = 0 /\
      exists base, ar_base s.1 = Some base /\ base mod 8 = 0 /\ 0 < base /\ base + ar_bytes s.1 <= 2 ^ 64 /\
        pages_live w' = <[base := ar_bytes s.1]> (pages_live w) /\
        forall b l, pages_own b l w -> pages_own b ((base, ar_bytes s.1) :: l) w'
  | Err => forall b l, pages_own b l w -> pages_own b l w'
  | UB => False
  end.
Proof.
  intros H64 Hsz Hcap Hi E0. pose proof (init_arena_ok _ _ _ _ _ _ H64 Hsz Hcap E0) as Hok. revert E0. unfold wirecall_fixed_arena_init.
  set (n := if sz <? sizeof_ptr then sizeof_ptr else sz).
  assert (Hn : n = Z.max 8 sz). { subst n. unfold sizeof_ptr. rewrite H64. change (64 / 8) with 8. split_ifs; zb; lia. }
  rewrite (align_spec n) by lia. clearbody n.
  assert (Hel : n <= (n + 7) / 8 * 8 <= n + 7) by (Z.div_mod_to_equations; lia).
  rewrite (usize_small (H := HH)) by (rewrite H64; nia).
  destruct (pages_alloc _ w) as [[base|] w1] eqn:Ep;
    pose proof (fun b l Ho => pages_own_alloc b l ((n + 7) / 8 * 8 * cap) w _ w1 ltac:(nia) Ho Ep) as Hown;
    apply pages_alloc_law in Ep as [Hi1 Hp]; try done; try nia; intros [= <- <- <-]; cbn [fst snd ar_base elem_size capacity ar_bytes].
  - destruct Hp as (Hpos & Hend & Hal & Hfresh & Hlive). destruct Hok as [Hok _].
    split_and!; try done; try lia; [apply Z.mod_mul; lia | exists base; split_and!; try done; Z.div_mod_to_equations; lia].
  - done.
Qed.
End ArenaFacts.

(** ** A concrete page allocator, to evaluate *)
Record toy_pages := { tp_next : Z; tp_live : gmap Z Z }.
Definition toy_pages_inv (t : toy_pages) : Prop :=
  0 < tp_next t <= 2 ^ 40 /\ tp_next t mod 4096 = 0 /\ forall p n, tp_live t !! p = Some n -> p < tp_next t.
Definition round_page (n : Z) : Z := (n + 4095) / 4096 * 4096.
Definition toy_pages_alloc (n : Z) (t : toy_pages) : option Z * toy_pages :=
  if tp_next t + round_page n <=? 2 ^ 40 then
    (Some (tp_next t), {| tp_next := tp_next t + round_page n; tp_live := <[tp_next t := n]> (tp_live t) |})
  else (None, t).
Definition toy_pages_free (p n : Z) (t : toy_pages) : toy_pages :=
  {| tp_next := tp_next t; tp_live := delete p (tp_live t) |}.
Definition toy_pages_empty : toy_pages := {| tp_next := 4096; tp_live := ∅ |}.

Lemma toy_pages_empty_inv : toy_pages_inv toy_pages_empty.
Proof. split; [cbn; lia |]. split; [done |]. intros p n. cbn. by rewrite lookup_empty. Qed.

#[global] Program Instance toy_pages_pages : Pages toy_pages := {|
  pages_alloc := toy_pages_alloc; pages_free := toy_pages_free; pages_live := tp_live; pages_inv := toy_pages_inv |}.
Next Obligation.
  intros n t r t' Hn (Hb & Hm & Hl). unfold toy_pages_alloc.
  assert (Hr : n <= round_page n) by (unfold round_page; Z.div_mod_to_equations; lia).
  assert (Hr2 : round_page n mod 4096 = 0) by (unfold round_page; apply Z.mod_mul; lia).
  destruct (_ <=? _) eqn:El; zb; intros [= <- <-]; [| done].
  split.
  - split; [cbn [tp_next]; lia |]. split; [cbn [tp_next]; by rewrite Z.add_mod, Hm, Hr2 by lia |].
    intros p k. cbn [tp_next tp_live]. rewrite lookup_insert_Some.
    intros [[<- _] | [_ Hp]]; [lia |]. apply Hl in Hp. lia.
  - split_and!; try done; try lia. apply eq_None_not_Some. intros [k Hk]. apply Hl in Hk. lia.
Qed.
Next Obligation.
  intros p n t (Hb & Hm & Hl) _. split; [| done]. split; [done |]. split; [done |].
  intros q k. cbn. rewrite lookup_delete_Some. intros [_ Hq]. by eapply Hl.
Qed.

(** ** Properties *)

(** C21: the arena implements a bounded map from slots to objects.  From a
    successful init, whatever a client does that frees and writes only slots
    it holds, every operation returns without touching memory outside the
    arena and acts on the map of slots in use as the specification says: an
    allocation gives a zeroed slot that is not in use and is refused exactly
    when [capacity] slots are in use.  Every slot in use lies inside the mapped
    pages, aligned for any object, and two of them never overlap. *)
Theorem arena_refines_map `{Host} `{Pages W} {E} (zero : E) sz cap (w : W) s0 w' s op r s' :
  size_bits = 64 -> 0 <= sz < 2 ^ 24 -> 0 < cap < 2 ^ 24 -> pages_inv w ->
  wirecall_fixed_arena_init sz cap w = (Ok tt, (s0, w')) ->
  arena_reach zero s0 s -> client_may op (in_use s.2) -> arena_exec zero op s = (r, s') ->
  (exists o, r = Ok o /\ spec_step zero cap (in_use s.2) op o (in_use s'.2)) /\
  exists base size, pages_live w' !! base = Some size /\
    forall p, is_Some (in_use s'.2 !! p) ->
      base <= p /\ p + Z.max 8 sz <= base + size /\ p mod 8 = 0 /\
      forall q, is_Some (in_use s'.2 !! q) -> p <> q -> p + Z.max 8 sz <= q \/ q + Z.max 8 sz <= p.
Proof.
  intros H64 Hsz Hcap Hi Einit Hreach Hmay Eop.
  destruct (init_spec _ _ _ _ _ _ H64 Hsz Hcap Hi Einit) as (Hok0 & _ & Ecap & Hel & Hel8 & base & Eb & Hb8 & _ & _ & Hlive & _).
  destruct (reach_ok _ _ _ Hok0 Hreach) as [Hok (Eb1 & Ee1 & Ec1 & Eby1)].
  destruct (exec_spec _ _ _ _ _ Hok Hmay Eop) as (Hok' & (Eb2 & Ee2 & Ec2 & Eby2) & Hstep).
  split; [by rewrite <- Ecap, <- Ec1 |].
  exists base, (ar_bytes s0.1). split; [by rewrite Hlive, lookup_insert_eq |].
  destruct Hok' as [fl Hwf]. rewrite Eb1, Eb in Eb2. rewrite Ee1 in Ee2. rewrite Eby1 in Eby2.
  assert (Hslot : forall p, is_Some (in_use s'.2 !! p) -> exists i, 0 <= i < watermark s'.1 /\ p = base + i * elem_size s0.1).
  { intros p [e He]. apply in_use_lookup in He.
    destruct (proj1 (wf_dom _ _ _ Hwf p)) as (b & i & Eb' & Hi' & ->); [by rewrite He |].
    rewrite Eb2 in Eb'. injection Eb' as <-. rewrite Ee2. by exists i. }
  pose proof (wf_bytes _ _ _ Hwf) as Hby. pose proof (wf_mark _ _ _ Hwf) as Hmk. rewrite Eby2, Ee2 in Hby.
  intros p Hp. destruct (Hslot p Hp) as (i & Hi2 & ->). split; [nia |]. split; [nia |]. split.
  - rewrite Z.add_mod, Hb8, Z.mul_mod, Hel8, Z.mul_0_r by lia. done.
  - intros q Hq Hne. destruct (Hslot q Hq) as (j & Hj & ->).
    assert (i <> j) by (intros ->; done). destruct (Z_lt_le_dec i j); [left | right]; nia.
Qed.

(** an arena of two 20-byte objects, with one slot taken, freed and taken again *)
Definition arena_sample := (wirecall_fixed_arena_init (HH := host_lp64) (E := Z) 20 2 toy_pages_empty).2.
Definition arena_sample_1 := (arena_exec 0 AAlloc arena_sample.1).2.
Definition arena_sample_2 := (arena_exec 0 (AFree 4096) arena_sample_1).2.
Definition arena_sample_3 := arena_exec 0 AAlloc arena_sample_2.

Lemma arena_refines_map_witness :
  (exists o, arena_sample_3.1 = Ok o /\ spec_step 0 2 (in_use arena_sample_2.2) AAlloc o (in_use arena_sample_3.2.2)) /\
  exists base size, pages_live arena_sample.2 !! base = Some size /\
    forall p, is_Some (in_use arena_sample_3.2.2 !! p) ->
      base <= p /\ p + Z.max 8 20 <= base + size /\ p mod 8 = 0 /\
      forall q, is_Some (in_use arena_sample_3.2.2 !! q) -> p <> q -> p + Z.max 8 20 <= q \/ q + Z.max 8 20 <= p.
Proof.
  apply (arena_refines_map (H := host_lp64) 0 20 2 toy_pages_empty arena_sample.1 arena_sample.2 arena_sample_2 AAlloc).
  - reflexivity.
  - lia.
  - lia.
  - apply toy_pages_empty_inv.
  - vm_compute. reflexivity.
  - apply (reach_op 0 _ arena_sample_1 (AFree 4096) (Ok None)); [| by_compute | vm_compute; reflexivity].
    apply (reach_op 0 _ arena_sample.1 AAlloc (Ok (Some 4096))); [constructor | done | vm_compute; reflexivity].
  - done.
  - vm_compute. reflexivity.
Defined.
