(* ===== verification/Routes.v ===== *)
(** * Routes: the procedure table (src/routes.c, include/routes.h)

    Routes hang off a two-level table indexed by a hash of the procedure id.
    A slot holds a chain of immutable nodes; writers copy the chain under the
    lock, publish the copy and retire the old chain, which is freed at once
    when no reader is inside a lookup and put on the retired list otherwise.

    A chain is the list of its nodes, each with its heap block; [next] is the
    order of the list (no node is ever shared between two chains).  Slots are
    keyed by page and position, and [pages] has the pages that exist.  The
    finalizers of the embedding program are calls recorded in [env_log].  An
    operation is a step under the lock, with [active_readers] the number of
    lookups other threads have under way; the interleavings of lookups with
    writers are the subject of RoutesConc. *)

From S2P Require Import Prelude Words Memory Arena.

(** ** Data *)
Record wirecall_route := {
  rt_proc_id : Z;
  rt_handler : option Z;
  rt_deferred_handler : option Z;
  rt_user_data : Z;
  rt_finalizer : option Z;
  rt_is_async : bool;
  rt_is_deferred : bool;
}.
#[global] Instance wirecall_route_eq_dec : EqDecision wirecall_route.
Proof. solve_decision. Defined.

(** a node: its block and its contents *)
Definition route_chain : Type := list (Z * wirecall_route).

Record wirecall_retired_route := {
  re_block : Z;
  re_route : route_chain;
  re_finalize_proc_id : Z;
  re_finalize_all : bool;
  re_finalize_one : bool;
}.

Record wirecall_routes := {
  root : option Z;
  pages : gmap Z Z;
  slots : gmap (Z * Z) route_chain;
  active_readers : Z;
  retired : list wirecall_retired_route;
}.

Definition WIRECALL_ROUTE_PAGE_BITS : Z := 16.
Definition WIRECALL_ROUTE_PAGE_SIZE : Z := 2 ^ 16.
Definition WIRECALL_ROUTE_PAGE_MASK : Z := WIRECALL_ROUTE_PAGE_SIZE - 1.
Definition WIRECALL_ROUTE_ROOT_SIZE : Z := 2 ^ (32 - 16).

(** sizes of the structures on LP64 *)
Definition sizeof_wirecall_route : Z := 56.
Definition sizeof_wirecall_retired_route : Z := 32.
Definition sizeof_slot : Z := 8.
Definition root_bytes : Z := WIRECALL_ROUTE_ROOT_SIZE * sizeof_slot.
Definition page_bytes : Z := WIRECALL_ROUTE_PAGE_SIZE * sizeof_slot.

Definition route_index (proc_id : Z) : Z :=
  let proc_id := Z.lxor proc_id (Z.shiftr proc_id 33) in
  let proc_id := u64 (proc_id * 0xff51afd7ed558ccd) in
  let proc_id := Z.lxor proc_id (Z.shiftr proc_id 33) in
  let proc_id := u64 (proc_id * 0xc4ceb9fe1a85ec53) in
  let proc_id := Z.lxor proc_id (Z.shiftr proc_id 33) in
  u32 proc_id.

(** page and position of a procedure id *)
Definition route_key (proc_id : Z) : Z * Z :=
  let index := route_index proc_id in
  (Z.shiftr index WIRECALL_ROUTE_PAGE_BITS, Z.land index WIRECALL_ROUTE_PAGE_MASK).

Section Routes.
Context `{HH : Host} `{HP : Heap W} `{PP : Pages P}.

Record routes_env := {
  env_routes : wirecall_routes;
  env_heap : W;
  env_pages : P;
  env_log : list (Z * Z);
}.

Definition upd_routes (f : wirecall_routes -> wirecall_routes) (s : routes_env) : routes_env :=
  {| env_routes := f (env_routes s); env_heap := env_heap s; env_pages := env_pages s; env_log := env_log s |}.
Definition upd_heap (f : W -> W) (s : routes_env) : routes_env :=
  {| env_routes := env_routes s; env_heap := f (env_heap s); env_pages := env_pages s; env_log := env_log s |}.
Definition set_pages_world (p : P) (s : routes_env) : routes_env :=
  {| env_routes := env_routes s; env_heap := env_heap s; env_pages := p; env_log := env_log s |}.
Definition add_log (l : list (Z * Z)) (s : routes_env) : routes_env :=
  {| env_routes := env_routes s; env_heap := env_heap s; env_pages := env_pages s; env_log := env_log s ++ l |}.

Definition set_slot (k : Z * Z) (c : route_chain) (r : wirecall_routes) : wirecall_routes :=
  {| root := root r; pages := pages r; slots := <[k := c]> (slots r); active_readers := active_readers r; retired := retired r |}.
Definition set_page (i p : Z) (r : wirecall_routes) : wirecall_routes :=
  {| root := root r; pages := <[i := p]> (pages r); slots := slots r; active_readers := active_readers r; retired := retired r |}.
Definition set_retired (l : list wirecall_retired_route) (r : wirecall_routes) : wirecall_routes :=
  {| root := root r; pages := pages r; slots := slots r; active_readers := active_readers r; retired := l |}.
Definition set_readers (n : Z) (r : wirecall_routes) : wirecall_routes :=
  {| root := root r; pages := pages r; slots := slots r; active_readers := n; retired := retired r |}.

(** [route_finalize]: the call of a finalizer, if there is one *)
Definition route_finalize (route : wirecall_route) (s : routes_env) : routes_env :=
  match rt_finalizer route with
  | Some f => add_log [(f, rt_user_data route)] s
  | None => s
  end.

Fixpoint route_chain_free (route : route_chain) (finalize_all finalize_one : bool) (finalize_proc_id : Z)
    (s : routes_env) : routes_env :=
  match route with
  | [] => s
  | (block, r) :: next =>
      let s := if finalize_all || (finalize_one && (rt_proc_id r =? finalize_proc_id)) then route_finalize r s else s in
      route_chain_free next finalize_all finalize_one finalize_proc_id (upd_heap (heap_free block) s)
  end.

Fixpoint free_retired_loop (node : list wirecall_retired_route) (s : routes_env) : routes_env :=
  match node with
  | [] => s
  | n :: next =>
      let s := route_chain_free (re_route n) (re_finalize_all n) (re_finalize_one n) (re_finalize_proc_id n) s in
      free_retired_loop next (upd_heap (heap_free (re_block n)) s)
  end.

Definition free_retired (s : routes_env) : routes_env :=
  if negb (active_readers (env_routes s) =? 0) then s
  else
    let node := retired (env_routes s) in
    free_retired_loop node (upd_routes (set_retired []) s).

(** a call of wirecall_mem_calloc *)
Definition env_calloc (count size : Z) (s : routes_env) : option Z * routes_env :=
  let '(p, h) := heap_calloc count size (env_heap s) in (p, upd_heap (fun _ => h) s).

Definition retire_route (route : route_chain) (finalize_one : bool) (finalize_proc_id : Z) : M routes_env unit := fun s =>
  match route with
  | [] => (Ok tt, s)
  | _ =>
      if active_readers (env_routes s) =? 0 then
        (Ok tt, route_chain_free route false finalize_one finalize_proc_id s)
      else
        match env_calloc 1 sizeof_wirecall_retired_route s with
        | (None, s) => (Err, s)
        | (Some node, s) =>
            let n := {| re_block := node; re_route := route; re_finalize_proc_id := finalize_proc_id;
                        re_finalize_all := false; re_finalize_one := finalize_one |} in
            (Ok tt, free_retired (upd_routes (fun r => set_retired (n :: retired r) r) s))
        end
  end.

Definition routes_zero : wirecall_routes :=
  {| root := None; pages := ∅; slots := ∅; active_readers := 0; retired := [] |}.

(** [mutex_ok] is the answer of wirecall_mutex_init *)
Definition wirecall_routes_init (mutex_ok : bool) : M routes_env unit := fun s =>
  let s := upd_routes (fun _ => routes_zero) s in
  match pages_alloc root_bytes (env_pages s) with
  | (None, p) => (Err, set_pages_world p s)
  | (Some base, p) =>
      if negb mutex_ok then (Err, set_pages_world (pages_free base root_bytes p) s)
      else (Ok tt, upd_routes (fun r => {| root := Some base; pages := pages r; slots := slots r;
                                           active_readers := 0; retired := retired r |}) (set_pages_world p s))
  end.

(** the slot of a key: NULL when the page is missing or the slot is empty *)
Definition slot_chain (r : wirecall_routes) (k : Z * Z) : route_chain :=
  match pages r !! k.1 with
  | None => []
  | Some _ => default [] (slots r !! k)
  end.

(** the copy loop of the writers: [copied] is the chain under construction
    (the new node included), [replaced] whether [proc_id] was met *)
Fixpoint copy_loop (it : route_chain) (proc_id : Z) (copied : route_chain) (replaced : bool)
    : M routes_env (route_chain * bool) := fun s =>
  match it with
  | [] => (Ok (copied, replaced), s)
  | (_, r) :: next =>
      if rt_proc_id r =? proc_id then copy_loop next proc_id copied true s
      else
        match env_calloc 1 sizeof_wirecall_route s with
        | (None, s) => (Err, route_chain_free copied false false 0 s)
        | (Some copy, s) => copy_loop next proc_id (copied ++ [(copy, r)]) replaced s
        end
  end.

(** [route]: the node built by the caller *)
Definition routes_add_route (block : Z) (route : wirecall_route) : M routes_env unit := fun s =>
  let proc_id := rt_proc_id route in
  let k := route_key proc_id in
  match root (env_routes s) with
  | None => (UB, s)
  | Some _ =>
      let page :=
        match pages (env_routes s) !! k.1 with
        | Some page => (Some page, s)
        | None =>
            match pages_alloc page_bytes (env_pages s) with
            | (None, p) => (None, set_pages_world p s)
            | (Some page, p) => (Some page, upd_routes (set_page k.1 page) (set_pages_world p s))
            end
        end in
      match page with
      | (None, s) => (Err, upd_heap (heap_free block) s)
      | (Some _, s) =>
          let old := slot_chain (env_routes s) k in
          match copy_loop old proc_id [(block, route)] false s with
          | (Ok (copy_head, replaced), s) =>
              retire_route old replaced proc_id (upd_routes (set_slot k copy_head) s)
          | (Err, s) => (Err, s)
          | (UB, s) => (UB, s)
          end
      end
  end.

Definition wirecall_routes_add_ex (proc_id : Z) (handler : option Z) (user_data : Z) (finalizer : option Z)
    (is_async : bool) : M routes_env unit := fun s =>
  match handler with
  | None => (Err, s)
  | Some _ =>
      match env_calloc 1 sizeof_wirecall_route s with
      | (None, s) => (Err, s)
      | (Some block, s) =>
          routes_add_route block
            {| rt_proc_id := proc_id; rt_handler := handler; rt_deferred_handler := None; rt_user_data := user_data;
               rt_finalizer := finalizer; rt_is_async := is_async; rt_is_deferred := false |} s
      end
  end.

Definition wirecall_routes_add (proc_id : Z) (handler : option Z) (user_data : Z) : M routes_env unit :=
  wirecall_routes_add_ex proc_id handler user_data None false.

Definition wirecall_routes_add_deferred_ex (proc_id : Z) (handler : option Z) (user_data : Z) (finalizer : option Z)
    : M routes_env unit := fun s =>
  match handler with
  | None => (Err, s)
  | Some _ =>
      match env_calloc 1 sizeof_wirecall_route s with
      | (None, s) => (Err, s)
      | (Some block, s) =>
          routes_add_route block
            {| rt_proc_id := proc_id; rt_handler := None; rt_deferred_handler := handler; rt_user_data := user_data;
               rt_finalizer := finalizer; rt_is_async := false; rt_is_deferred := true |} s
      end
  end.

Definition wirecall_routes_remove (proc_id : Z) : M routes_env unit := fun s =>
  let k := route_key proc_id in
  match root (env_routes s) with
  | None => (UB, s)
  | Some _ =>
      let page := pages (env_routes s) !! k.1 in
      let old := slot_chain (env_routes s) k in
      match copy_loop old proc_id [] false s with
      | (Ok (copy_head, removed), s) =>
          let s := match page with
                   | Some _ => if removed then upd_routes (set_slot k copy_head) s
                               else route_chain_free copy_head false false 0 s
                   | None => route_chain_free copy_head false false 0 s
                   end in
          if removed then retire_route old true proc_id s else (Err, s)
      | (Err, s) => (Err, s)
      | (UB, s) => (UB, s)
      end
  end.

(** [while (route && route->proc_id != proc_id)] *)
Fixpoint chain_find (c : route_chain) (proc_id : Z) : option wirecall_route :=
  match c with
  | [] => None
  | (_, r) :: next => if rt_proc_id r =? proc_id then Some r else chain_find next proc_id
  end.

Definition wirecall_routes_lookup (proc_id : Z) : M routes_env wirecall_route := fun s =>
  match root (env_routes s) with
  | None => (UB, s)
  | Some _ =>
      let s := upd_routes (fun r => set_readers (u32 (active_readers r + 1)) r) s in
      let route := chain_find (slot_chain (env_routes s) (route_key proc_id)) proc_id in
      let old := active_readers (env_routes s) in
      let s := upd_routes (fun r => set_readers (u32 (active_readers r - 1)) r) s in
      let s := if old =? 1 then free_retired s else s in
      match route with
      | Some r => (Ok r, s)
      | None => (Err, s)
      end
  end.

(** [i < WIRECALL_ROUTE_PAGE_SIZE] and [page_idx < WIRECALL_ROUTE_ROOT_SIZE] *)
Definition page_positions : list nat := seq 0 (Z.to_nat WIRECALL_ROUTE_PAGE_SIZE).
Definition root_positions : list nat := seq 0 (Z.to_nat WIRECALL_ROUTE_ROOT_SIZE).

(** the loops of destroy over the slots of a page and over the pages *)
Definition destroy_slot (page_idx i : Z) (s : routes_env) : routes_env :=
  route_chain_free (default [] (slots (env_routes s) !! (page_idx, i))) true false 0 s.

Definition destroy_page (positions : list nat) (page_idx : Z) (s : routes_env) : routes_env :=
  match pages (env_routes s) !! page_idx with
  | None => s
  | Some page =>
      let s := foldl (fun s i => destroy_slot page_idx (Z.of_nat i) s) s positions in
      set_pages_world (pages_free page page_bytes (env_pages s)) s
  end.

Definition wirecall_routes_destroy (s : routes_env) : routes_env :=
  let s :=
    match root (env_routes s) with
    | None => s
    | Some base =>
        let s := foldl (fun s i => destroy_page page_positions (Z.of_nat i) s) s root_positions in
        set_pages_world (pages_free base root_bytes (env_pages s)) s
    end in
  let node := retired (env_routes s) in
  upd_routes (set_retired []) (free_retired_loop node s).
End Routes.
Arguments routes_env : clear implicits.

(** ** Keys *)
Lemma route_index_range id : 0 <= route_index id < 2 ^ 32.
Proof. unfold route_index. apply u32_range. Qed.

Lemma route_key_range id :
  0 <= (route_key id).1 < WIRECALL_ROUTE_ROOT_SIZE /\ 0 <= (route_key id).2 < WIRECALL_ROUTE_PAGE_SIZE.
Proof.
  pose proof (route_index_range id). unfold route_key. cbn [fst snd].
  unfold WIRECALL_ROUTE_PAGE_BITS, WIRECALL_ROUTE_PAGE_MASK, WIRECALL_ROUTE_PAGE_SIZE, WIRECALL_ROUTE_ROOT_SIZE.
  change (2 ^ 16 - 1) with (Z.ones 16). rewrite Z.land_ones by lia. rewrite Z.shiftr_div_pow2 by lia.
  change (2 ^ (32 - 16)) with 65536. change (2 ^ 16) with 65536. Z.div_mod_to_equations. lia.
Qed.

(** ** Blocks and finalizers of chains *)
Definition chain_blocks (c : route_chain) : list Z := map fst c.
Definition fin (r : wirecall_route) : list (Z * Z) :=
  match rt_finalizer r with Some f => [(f, rt_user_data r)] | None => [] end.
(** the finalizer calls freeing a chain makes *)
Definition finals_of (all one : bool) (id : Z) (c : route_chain) : list (Z * Z) :=
  concat (map (fun n => if all || (one && (rt_proc_id n.2 =? id)) then fin n.2 else []) c).
Definition chain_finals (c : route_chain) : list (Z * Z) := concat (map (fun n => fin n.2) c).
Definition retired_blocks (n : wirecall_retired_route) : list Z := re_block n :: chain_blocks (re_route n).
Definition retired_finals (n : wirecall_retired_route) : list (Z * Z) :=
  finals_of (re_finalize_all n) (re_finalize_one n) (re_finalize_proc_id n) (re_route n).

(** the blocks the table owns and the finalizer calls it still owes *)
Definition table_blocks (r : wirecall_routes) : list Z :=
  collect chain_blocks (slots r) ++ concat (map retired_blocks (retired r)).
Definition table_finals (r : wirecall_routes) : list (Z * Z) :=
  collect chain_finals (slots r) ++ concat (map retired_finals (retired r)).

Lemma finals_of_all one id c : finals_of true one id c = chain_finals c.
Proof. done. Qed.

Lemma finals_of_none id c : finals_of false false id c = [].
Proof. unfold finals_of. induction c; [done |]. by cbn. Qed.

(** the chain without the nodes of a procedure *)
Definition without (id : Z) (rs : list wirecall_route) : list wirecall_route :=
  List.filter (fun r => negb (rt_proc_id r =? id)) rs.

Lemma chain_finals_map c : chain_finals c = concat (map fin (map snd c)).
Proof. unfold chain_finals. by rewrite map_map. Qed.

Lemma chain_finals_split id c c' :
  map snd c' = without id (map snd c) -> chain_finals c ≡ₚ finals_of false true id c ++ chain_finals c'.
Proof.
  rewrite (chain_finals_map c'). intros ->. unfold chain_finals, finals_of, without.
  induction c as [|[b r] c IH]; [done |]. cbn [map concat snd List.filter orb andb].
  destruct (rt_proc_id r =? id); cbn [negb map concat]; rewrite IH; [by rewrite app_assoc |].
  cbn [app]. rewrite !app_assoc. f_equiv. apply Permutation_app_comm.
Qed.

Lemma perm_exchange {A} (f t t' n c o : list A) : c ++ t ≡ₚ o ++ t' -> f ++ c ≡ₚ n ++ o -> f ++ t' ≡ₚ n ++ t.
Proof.
  intros H1 H2. apply (Permutation_app_inv_l o).
  transitivity (f ++ c ++ t); [rewrite H1, !app_assoc; by rewrite (Permutation_app_comm o f) |].
  rewrite app_assoc, H2, <- app_assoc, !app_assoc. by rewrite (Permutation_app_comm n o).
Qed.

Section RoutesFacts.
Context `{HH : Host} `{HP : Heap W} `{PP : Pages P}.
Implicit Types (s : routes_env W P) (c it : route_chain) (base : gset Z) (l : list Z).
Implicit Types (ns : list wirecall_retired_route).

Lemma chain_free_spec c all one id s base l :
  owns base (chain_blocks c ++ l) (env_heap s) ->
  env_routes (route_chain_free c all one id s) = env_routes s /\
  env_pages (route_chain_free c all one id s) = env_pages s /\
  env_log (route_chain_free c all one id s) = env_log s ++ finals_of all one id c /\
  owns base l (env_heap (route_chain_free c all one id s)).
Proof.
  revert s. induction c as [|[b r] c IH]; intros s Ho.
  - cbn. by rewrite app_nil_r.
  - cbn [route_chain_free]. unfold chain_blocks in Ho. cbn [map fst app] in Ho.
    set (s1 := if all || (one && (rt_proc_id r =? id)) then route_finalize r s else s).
    assert (Hs1 : env_routes s1 = env_routes s /\ env_pages s1 = env_pages s /\ env_heap s1 = env_heap s /\
      env_log s1 = env_log s ++ (if all || (one && (rt_proc_id r =? id)) then fin r else [])).
    { subst s1. destruct (all || _); [| by rewrite app_nil_r]. unfold route_finalize, fin.
      destruct (rt_finalizer r); cbn; [done | by rewrite app_nil_r]. }
    clearbody s1. destruct Hs1 as (E1 & E2 & E3 & E4).
    destruct (IH (upd_heap (heap_free b) s1)) as (I1 & I2 & I3 & I4).
    { cbn [env_heap upd_heap]. rewrite E3. by apply owns_free. }
    rewrite I1, I2, I3. cbn [upd_heap env_routes env_pages env_log]. rewrite E1, E2, E4.
    split; [done |]. split; [done |]. split; [| done]. by rewrite <- app_assoc.
Qed.

Lemma free_retired_loop_spec ns s base l :
  owns base (concat (map retired_blocks ns) ++ l) (env_heap s) ->
  env_routes (free_retired_loop ns s) = env_routes s /\
  env_pages (free_retired_loop ns s) = env_pages s /\
  env_log (free_retired_loop ns s) = env_log s ++ concat (map retired_finals ns) /\
  owns base l (env_heap (free_retired_loop ns s)).
Proof.
  revert s. induction ns as [|n ns IH]; intros s Ho; [by cbn; rewrite app_nil_r |].
  cbn [free_retired_loop map concat] in *. unfold retired_blocks at 1 in Ho. cbn [app] in Ho.
  rewrite <- app_assoc, Permutation_middle in Ho.
  destruct (chain_free_spec (re_route n) (re_finalize_all n) (re_finalize_one n) (re_finalize_proc_id n) s _ _ Ho)
    as (E1 & E2 & E3 & E4).
  destruct (IH (upd_heap (heap_free (re_block n)) (route_chain_free (re_route n) (re_finalize_all n) (re_finalize_one n) (re_finalize_proc_id n) s)))
    as (I1 & I2 & I3 & I4).
  { cbn [upd_heap env_heap]. by apply owns_free. }
  rewrite I1, I2, I3. cbn [upd_heap env_routes env_pages env_log]. rewrite E1, E2, E3, <- app_assoc. done.
Qed.

Lemma env_calloc_spec n s r s' base l :
  0 <= n < 2 ^ 31 -> 32 <= size_bits -> owns base l (env_heap s) -> env_calloc 1 n s = (r, s') ->
  env_routes s' = env_routes s /\ env_pages s' = env_pages s /\ env_log s' = env_log s /\
  owns base (option_list r ++ l) (env_heap s').
Proof.
  intros Hn Hb Ho. unfold env_calloc, heap_calloc.
  pose proof (Z.pow_le_mono_r 2 32 size_bits ltac:(lia) Hb) as Hp.
  rewrite Z.div_1_r. unfold SIZE_MAX. replace (2 ^ size_bits - 1 <? n) with false by (symmetry; apply Z.ltb_ge; lia).
  rewrite andb_false_r. rewrite (usize_small (H := HH)) by lia.
  destruct (heap_alloc (1 * n) (env_heap s)) as [p h] eqn:E. intros [= <- <-].
  cbn [upd_heap env_routes env_pages env_log env_heap]. split; [done |]. split; [done |]. split; [done |].
  destruct p; [eapply owns_alloc | eapply owns_alloc_none]; [| done | done | | done | done]; lia.
Qed.

Definition same_but_heap s s' : Prop :=
  env_routes s' = env_routes s /\ env_pages s' = env_pages s /\ env_log s' = env_log s.

Lemma copy_loop_spec it id c b s r s' base l :
  32 <= size_bits -> owns base (chain_blocks c ++ l) (env_heap s) -> copy_loop it id c b s = (r, s') ->
  same_but_heap s s' /\
  match r with
  | Ok (c', b') => map snd c' = map snd c ++ without id (map snd it) /\
      b' = b || existsb (fun n => rt_proc_id n =? id) (map snd it) /\
      owns base (chain_blocks c' ++ l) (env_heap s')
  | Err => owns base l (env_heap s')
  | UB => False
  end.
Proof.
  intros Hbits. revert c b s. induction it as [|[bl rt] it IH]; intros c b s Ho; cbn [copy_loop].
  - intros [= <- <-]. split; [done |]. cbn. by rewrite app_nil_r, orb_false_r.
  - cbn [map snd without List.filter existsb]. destruct (rt_proc_id rt =? id) eqn:Eid.
    + intros E. destruct (IH _ _ _ Ho E) as [Hs Hr]. split; [done |]. destruct r as [[c' b']| |]; try done.
      cbn [negb]. destruct Hr as (? & -> & ?). split_and!; try done. cbn. by rewrite orb_true_r.
    + destruct (env_calloc 1 sizeof_wirecall_route s) as [o s1] eqn:Ec.
      destruct (env_calloc_spec sizeof_wirecall_route s o s1 base _ ltac:(unfold sizeof_wirecall_route; lia) Hbits Ho Ec) as (E1 & E2 & E3 & Ho1).
      destruct o as [copy|]; cbn [option_list app negb] in *.
      * intros E. destruct (IH (c ++ [(copy, rt)]) b s1) as [Hs Hr]; [| done |].
        { unfold chain_blocks in *. rewrite map_app. cbn [map fst]. rewrite <- app_assoc. cbn [app].
          by rewrite <- Permutation_middle. }
        split; [unfold same_but_heap in *; destruct Hs as (-> & -> & ->); done |].
        destruct r as [[c' b']| |]; try done. rewrite map_app in Hr. cbn [map snd] in Hr.
        rewrite <- app_assoc in Hr. done.
      * intros [= <- <-]. destruct (chain_free_spec c false false 0 s1 base l Ho1) as (F1 & F2 & F3 & F4).
        split; [| done]. unfold same_but_heap. rewrite F1, F2, F3, finals_of_none, app_nil_r. done.
Qed.

(** ** The invariant and the abstract table *)

(** what a lookup of [id] finds *)
Definition route_of (r : wirecall_routes) (id : Z) : option wirecall_route :=
  chain_find (slot_chain r (route_key id)) id.

(** a chain of the slot [k]: one node per procedure, all of them hashed to [k] *)
Definition chain_ok (k : Z * Z) (c : route_chain) : Prop :=
  NoDup (map rt_proc_id (map snd c)) /\ Forall (fun r => route_key (rt_proc_id r) = k) (map snd c).

(** [extra]: blocks held by the operation under way, or lost by earlier ones *)
Record routes_ok base (extra : list Z) s : Prop := {
  ro_root : root (env_routes s) <> None;
  ro_chain : forall k c, slots (env_routes s) !! k = Some c -> is_Some (pages (env_routes s) !! k.1) /\ chain_ok k c;
  ro_keys : forall k, is_Some (slots (env_routes s) !! k) -> exists id, k = route_key id;
  ro_readers : 0 <= active_readers (env_routes s) < 2 ^ 32 - 1;
  ro_owns : owns base (table_blocks (env_routes s) ++ extra) (env_heap s);
}.

Lemma chain_find_list c id : chain_find c id = List.find (fun r => rt_proc_id r =? id) (map snd c).
Proof. induction c as [|[b r] c IH]; [done |]. cbn. by destruct (_ =? _). Qed.

Lemma slot_chain_default base extra s k :
  routes_ok base extra s -> slot_chain (env_routes s) k = default [] (slots (env_routes s) !! k).
Proof.
  intros Hs. unfold slot_chain. destruct (pages _ !! k.1) eqn:E; [done |].
  destruct (slots (env_routes s) !! k) as [c|] eqn:Ek; [| done].
  destruct (ro_chain _ _ _ Hs _ _ Ek) as [[p Hp] _]. congruence.
Qed.

Lemma slot_chain_ok base extra s k : routes_ok base extra s -> chain_ok k (slot_chain (env_routes s) k).
Proof.
  intros Hs. rewrite (slot_chain_default base extra) by done.
  destruct (slots (env_routes s) !! k) as [c|] eqn:Ek; cbn.
  - by destruct (ro_chain _ _ _ Hs _ _ Ek).
  - split; constructor.
Qed.

Lemma find_without id id' rs :
  List.find (fun r => rt_proc_id r =? id') (without id rs) =
  if id' =? id then None else List.find (fun r => rt_proc_id r =? id') rs.
Proof.
  induction rs as [|r rs IH]; cbn [without List.filter List.find]; [by destruct (_ =? _) |].
  fold (without id rs). destruct (rt_proc_id r =? id) eqn:E1; cbn [negb].
  - rewrite IH. destruct (id' =? id) eqn:E2; [done |]. zb. replace (rt_proc_id r =? id') with false; [done |].
    symmetry. apply Z.eqb_neq. lia.
  - cbn [List.find]. rewrite IH. destruct (rt_proc_id r =? id') eqn:E3; [| done]. zb.
    replace (id' =? id) with false; [done |]. symmetry. apply Z.eqb_neq. lia.
Qed.

Lemma find_existsb id rs : existsb (fun r => rt_proc_id r =? id) rs = false <-> List.find (fun r => rt_proc_id r =? id) rs = None.
Proof. induction rs as [|r rs IH]; [done |]. cbn. destruct (_ =? _); [done | apply IH]. Qed.

Lemma without_all id rs : existsb (fun r => rt_proc_id r =? id) rs = false -> without id rs = rs.
Proof.
  induction rs as [|r rs IH]; [done |]. cbn [existsb without List.filter].
  fold (without id rs). destruct (_ =? _); [done |]. cbn. intros H. by rewrite IH.
Qed.

Lemma without_chain_ok k id rs :
  NoDup (map rt_proc_id rs) /\ Forall (fun r => route_key (rt_proc_id r) = k) rs ->
  NoDup (map rt_proc_id (without id rs)) /\ Forall (fun r => route_key (rt_proc_id r) = k) (without id rs) /\
  id ∉ map rt_proc_id (without id rs).
Proof.
  induction rs as [|r rs IH]; cbn [map without List.filter]; [intros _; split_and!; [constructor | constructor | by intros ?%elem_of_nil] |].
  fold (without id rs). intros [Hn Hf]. apply list.NoDup_cons in Hn as [Hr Hn]. apply Forall_cons_1 in Hf as [Hk Hf].
  destruct IH as (I1 & I2 & I3); [done |]. destruct (rt_proc_id r =? id) eqn:E; cbn [negb map]; [done |]. zb.
  split_and!.
  - apply list.NoDup_cons. split; [| done]. intros Hin. apply Hr. apply list_elem_of_In. apply list_elem_of_In in Hin. apply in_map_iff in Hin as (x & <- & Hx).
    apply in_map_iff. exists x. split; [done |]. unfold without in Hx. by apply filter_In in Hx as [? _].
  - by constructor.
  - intros Hin. apply elem_of_cons in Hin as [? | ?]; [lia | done].
Qed.

(** publishing a chain under [k] *)
Lemma publish_blocks r k c :
  chain_blocks c ++ table_blocks r ≡ₚ chain_blocks (default [] (slots r !! k)) ++ table_blocks (set_slot k c r).
Proof.
  unfold table_blocks. cbn [set_slot slots retired].
  rewrite (collect_insert chain_blocks (slots r) k c), (collect_split [] chain_blocks eq_refl (slots r) k), !app_assoc.
  by rewrite (Permutation_app_comm (chain_blocks c)).
Qed.

Lemma publish_finals r k c :
  chain_finals c ++ table_finals r ≡ₚ chain_finals (default [] (slots r !! k)) ++ table_finals (set_slot k c r).
Proof.
  unfold table_finals. cbn [set_slot slots retired].
  rewrite (collect_insert chain_finals (slots r) k c), (collect_split [] chain_finals eq_refl (slots r) k), !app_assoc.
  by rewrite (Permutation_app_comm (chain_finals c)).
Qed.

Lemma route_of_publish r k c id :
  is_Some (pages r !! k.1) ->
  route_of (set_slot k c r) id = if decide (route_key id = k) then chain_find c id else route_of r id.
Proof.
  intros [p Hp]. unfold route_of, slot_chain. cbn [set_slot pages slots].
  destruct (decide (route_key id = k)) as [-> | Hne].
  - rewrite Hp. by rewrite lookup_insert_eq.
  - by rewrite lookup_insert_ne by done.
Qed.

Lemma free_retired_busy s : active_readers (env_routes s) <> 0 -> free_retired s = s.
Proof. intros H. unfold free_retired. by rewrite (proj2 (Z.eqb_neq _ _) H). Qed.

Lemma retire_spec c one id s r s' base extra :
  32 <= size_bits -> routes_ok base (chain_blocks c ++ extra) s -> retire_route c one id s = (r, s') ->
  (forall i, route_of (env_routes s') i = route_of (env_routes s) i) /\
  env_pages s' = env_pages s /\
  match r with
  | Ok _ => routes_ok base extra s' /\
      (exists log, env_log s' = env_log s ++ log) /\
      env_log s' ++ table_finals (env_routes s') ≡ₚ env_log s ++ finals_of false one id c ++ table_finals (env_routes s)
  | Err => active_readers (env_routes s) <> 0 /\ routes_ok base (chain_blocks c ++ extra) s' /\ same_but_heap s s' /\ c <> []
  | UB => False
  end.
Proof.
  intros Hbits Hok. unfold retire_route. destruct c as [|n c']; [intros [= <- <-]; split; [done |]; split; [done |]; split; [done |]; split; [exists []; by rewrite app_nil_r | done] |].
  set (c := n :: c') in *. assert (Hne : c <> []) by done. clearbody c. destruct Hok as [Hroot Hch Hks Hrd Ho].
  rewrite app_assoc, (Permutation_app_comm (table_blocks _)), <- app_assoc in Ho.
  destruct (active_readers (env_routes s) =? 0) eqn:Er; zb.
  - intros [= <- <-]. destruct (chain_free_spec c false one id s _ _ Ho) as (E1 & E2 & E3 & E4). rewrite E1, E2.
    split; [done |]. split; [done |]. split; [| split; [by eauto | by rewrite E3, <- app_assoc]].
    constructor; rewrite ?E1; done.
  - destruct (env_calloc 1 sizeof_wirecall_retired_route s) as [o s1] eqn:Ec.
    destruct (env_calloc_spec sizeof_wirecall_retired_route s o s1 base _ ltac:(unfold sizeof_wirecall_retired_route; lia) Hbits Ho Ec) as (E1 & E2 & E3 & Ho1).
    destruct o as [node|]; intros [= <- <-].
    + rewrite free_retired_busy by (cbn; by rewrite E1).
      cbn [upd_routes env_routes env_pages env_log env_heap]. rewrite E1. split; [done |]. split; [by rewrite E2 |].
      split; [| split; [by exists []; rewrite app_nil_r, E3 |]].
      * constructor; cbn [upd_routes env_routes set_retired root pages slots active_readers retired env_heap]; rewrite ?E1; try done.
        cbn [option_list app] in Ho1. revert Ho1. apply owns_perm; [| done].
        unfold table_blocks. cbn [set_retired slots retired map concat option_list]. unfold retired_blocks at 1. cbn [re_block re_route app].
        rewrite <- Permutation_middle. cbn [app]. constructor.
        rewrite !app_assoc. by rewrite (Permutation_app_comm (collect _ _)).
      * rewrite E3. f_equiv. unfold table_finals. cbn [slots retired map concat set_retired].
        unfold retired_finals at 1. cbn [re_route re_finalize_all re_finalize_one re_finalize_proc_id].
        rewrite !app_assoc. f_equiv. apply Permutation_app_comm.
    + cbn [option_list app] in Ho1. rewrite E1, E2. split; [done |]. split; [done |]. split; [done |].
      split; [| by split]. constructor; rewrite ?E1; try done.
      by rewrite app_assoc, (Permutation_app_comm (table_blocks _)), <- app_assoc.
Qed.

(** the table with the route of one procedure changed *)
Definition updated (r r' : wirecall_routes) (id : Z) (new : option wirecall_route) : Prop :=
  forall i, route_of r' i = if i =? id then new else route_of r i.

Lemma publish_ok k c s base extra :
  routes_ok base (chain_blocks c ++ extra) s -> is_Some (pages (env_routes s) !! k.1) -> chain_ok k c -> (exists id, k = route_key id) ->
  routes_ok base (chain_blocks (slot_chain (env_routes s) k) ++ extra) (upd_routes (set_slot k c) s).
Proof.
  intros Hok Hp Hc Hid. rewrite (slot_chain_default base _ s k Hok). destruct Hok as [Hroot Hch Hks Hrd Ho].
  constructor; cbn [upd_routes env_routes env_heap set_slot root pages slots active_readers]; try done.
  - intros k' c'. rewrite lookup_insert_Some. intros [[<- <-] | [_ Hk]]; [done | by apply Hch].
  - intros k'. rewrite lookup_insert_is_Some. intros [<- | [_ Hk]]; [done | by apply Hks].
  - revert Ho. apply owns_perm; [| done]. rewrite !app_assoc. f_equiv.
    rewrite Permutation_app_comm, <- publish_blocks. apply Permutation_app_comm.
Qed.

Lemma updated_publish base extra s k c id new rest :
  routes_ok base extra s -> is_Some (pages (env_routes s) !! k.1) -> k = route_key id ->
  (forall r, new = Some r -> rt_proc_id r = id) ->
  map snd c = option_list new ++ rest -> rest = without id (map snd (slot_chain (env_routes s) k)) ->
  updated (env_routes s) (set_slot k c (env_routes s)) id new.
Proof.
  intros Hok Hp -> Hnew Hc -> i. rewrite route_of_publish by done. rewrite chain_find_list, Hc.
  destruct (i =? id) eqn:Ei; zb.
  - subst i. rewrite decide_True by done. destruct new as [r|]; cbn [option_list option_rect app List.find].
    + by rewrite (proj2 (Z.eqb_eq _ _) (Hnew r eq_refl)).
    + by rewrite find_without, Z.eqb_refl.
  - destruct (decide _) as [Ek | Hne]; [| done]. unfold route_of. rewrite Ek, chain_find_list.
    transitivity (List.find (fun r => rt_proc_id r =? i) (without id (map snd (slot_chain (env_routes s) (route_key id))))).
    + destruct new as [r|]; [| done]. cbn [option_list option_rect app List.find].
      rewrite (Hnew r eq_refl). by rewrite (proj2 (Z.eqb_neq id i)) by lia.
    + rewrite find_without. by rewrite (proj2 (Z.eqb_neq i id)).
Qed.

Lemma add_page_ok i p pw s base extra :
  routes_ok base extra s -> pages (env_routes s) !! i = None ->
  routes_ok base extra (upd_routes (set_page i p) (set_pages_world pw s)) /\
  forall id, route_of (set_page i p (env_routes s)) id = route_of (env_routes s) id.
Proof.
  intros [Hroot Hch Hks Hrd Ho] Hi. split.
  - constructor; cbn [upd_routes set_pages_world env_routes env_heap set_page root pages slots active_readers]; try done.
    intros k c Hk. destruct (Hch k c Hk) as [Hp Hc]. split; [| done]. apply lookup_insert_is_Some'. by right.
  - intros id. unfold route_of, slot_chain. cbn [set_page pages slots].
    destruct (decide (i = (route_key id).1)) as [-> | Hne].
    + rewrite lookup_insert_eq, Hi. destruct (slots (env_routes s) !! route_key id) as [c|] eqn:Ek; [| done].
      destruct (Hch _ _ Ek) as [[q Hq] _]. congruence.
    + by rewrite lookup_insert_ne by done.
Qed.

Lemma map_snd_tag (rs : list wirecall_route) : map snd (map (fun r => (0, r)) rs) = rs.
Proof. induction rs as [|r rs IH]; [done |]. cbn. by f_equal. Qed.

(** a procedure that is in a chain keeps its finalizer call: the chain that
    replaces it, and what retiring it runs *)
Lemma replaced_finals id c c' (new : option wirecall_route) :
  map snd c' = option_list new ++ without id (map snd c) ->
  forall b, b = existsb (fun n => rt_proc_id n =? id) (map snd c) ->
  finals_of false b id c ++ chain_finals c' ≡ₚ from_option fin [] new ++ chain_finals c.
Proof.
  intros Hc b ->.
  assert (Hc2 : chain_finals c' = from_option fin [] new ++ concat (map fin (without id (map snd c)))).
  { rewrite chain_finals_map, Hc. destruct new; done. }
  assert (Hold : chain_finals c ≡ₚ finals_of false (existsb (fun n => rt_proc_id n =? id) (map snd c)) id c ++ concat (map fin (without id (map snd c)))).
  { destruct (existsb _ _) eqn:E.
    - rewrite (chain_finals_split id c (map (fun r => (0, r)) (without id (map snd c)))).
      + by rewrite chain_finals_map, map_snd_tag.
      + apply map_snd_tag.
    - by rewrite finals_of_none, without_all, chain_finals_map. }
  rewrite Hc2, Hold, !app_assoc. by rewrite (Permutation_app_comm (from_option _ _ _)).
Qed.

Lemma finals_of_met id c b : b = existsb (fun n => rt_proc_id n =? id) (map snd c) -> finals_of false true id c = finals_of false b id c.
Proof.
  intros ->. destruct (existsb _ _) eqn:E; [done |]. rewrite finals_of_none. unfold finals_of.
  induction c as [|[bl r] c IH]; [done |]. cbn in *. apply orb_false_iff in E as [E1 E2]. by rewrite E1, IH.
Qed.

(** a chain made of new nodes is not the chain it replaces *)
Lemma publish_differs k c s base extra :
  routes_ok base (chain_blocks c ++ extra) s -> slot_chain (env_routes s) k <> [] ->
  slots (set_slot k c (env_routes s)) <> slots (env_routes s).
Proof.
  intros Hok Hne Heq. rewrite (slot_chain_default base _ s k Hok) in Hne. pose proof (ro_owns _ _ _ Hok) as (_ & Hnd & _ & _).
  assert (Hk : slots (env_routes s) !! k = Some c) by (rewrite <- Heq; cbn; by rewrite lookup_insert_eq).
  destruct c as [|[b r] c]; [apply Hne; unfold route_chain in *; by rewrite Hk |].
  apply list.NoDup_app in Hnd as (_ & Hnd & _). apply (Hnd b); [| by left].
  unfold table_blocks. rewrite (collect_split ([] : route_chain) chain_blocks eq_refl (slots (env_routes s)) k), Hk. by left.
Qed.

(** the part of the writers after the copy: publish, then retire *)
Lemma publish_retire_spec k c id new b s r s' base extra :
  32 <= size_bits -> routes_ok base (chain_blocks c ++ extra) s -> is_Some (pages (env_routes s) !! k.1) ->
  k = route_key id -> (forall r, new = Some r -> rt_proc_id r = id) ->
  map snd c = option_list new ++ without id (map snd (slot_chain (env_routes s) k)) ->
  b = existsb (fun n => rt_proc_id n =? id) (map snd (slot_chain (env_routes s) k)) ->
  retire_route (slot_chain (env_routes s) k) b id (upd_routes (set_slot k c) s) = (r, s') ->
  updated (env_routes s) (env_routes s') id new /\
  match r with
  | Ok _ => routes_ok base extra s' /\
      (exists log, env_log s' = env_log s ++ log) /\
      env_log s' ++ table_finals (env_routes s') ≡ₚ
        env_log s ++ from_option fin [] new ++ table_finals (env_routes s)
  | Err => active_readers (env_routes s) <> 0 /\
      routes_ok base (chain_blocks (slot_chain (env_routes s) k) ++ extra) s' /\ env_log s' = env_log s /\
      finals_of false true id (slot_chain (env_routes s) k) ++ table_finals (env_routes s') ≡ₚ from_option fin [] new ++ table_finals (env_routes s) /\
      slots (env_routes s') <> slots (env_routes s)
  | UB => False
  end.
Proof.
  intros Hbits Hok Hp Hk Hnew Hc Hb E.
  assert (Hcok : chain_ok k c).
  { unfold chain_ok. rewrite Hc. destruct (without_chain_ok k id _ (slot_chain_ok _ _ _ k Hok)) as (H1 & H2 & H3).
    destruct new as [n|]; [| done]. cbn [option_list option_rect app map]. rewrite (Hnew n eq_refl).
    split; [by constructor | constructor; [by rewrite (Hnew n eq_refl) | done]]. }
  pose proof (publish_ok k c s base extra Hok Hp Hcok ltac:(eauto)) as Hok1.
  destruct (retire_spec _ _ _ _ _ _ _ _ Hbits Hok1 E) as (Hsame & Hpg & Hr).
  split.
  { intros i. rewrite Hsame. cbn [upd_routes env_routes].
    by apply (updated_publish base _ s k c id new _ Hok Hp Hk Hnew Hc eq_refl). }
  destruct r as [u| |]; [| | done]; cbn [upd_routes env_routes env_log] in Hr.
  - destruct Hr as (Hok' & Hlog & Hf). split; [done |]. split; [done |]. rewrite Hf. f_equiv.
    pose proof (replaced_finals id _ _ new Hc b Hb) as Hrf.
    pose proof (publish_finals (env_routes s) k c) as Hpf. rewrite <- (slot_chain_default base _ s k Hok) in Hpf.
    by eapply perm_exchange.
  - destruct Hr as (Hrd & Hok' & Hs & Hne). destruct Hs as (-> & _ & ->). split; [done |]. split; [done |]. split; [done |]. split.
    + rewrite (finals_of_met id _ b Hb).
      pose proof (replaced_finals id _ _ new Hc b Hb) as Hrf.
      pose proof (publish_finals (env_routes s) k c) as Hpf. rewrite <- (slot_chain_default base _ s k Hok) in Hpf.
      by eapply perm_exchange.
    + by eapply publish_differs.
Qed.

Lemma add_route_spec block route s r s' base extra :
  32 <= size_bits -> routes_ok base (block :: extra) s -> routes_add_route block route s = (r, s') ->
  match r with
  | Ok _ => routes_ok base extra s' /\ updated (env_routes s) (env_routes s') (rt_proc_id route) (Some route) /\
      (exists log, env_log s' = env_log s ++ log) /\
      env_log s' ++ table_finals (env_routes s') ≡ₚ env_log s ++ fin route ++ table_finals (env_routes s)
  | Err =>
      (routes_ok base extra s' /\ (forall i, route_of (env_routes s') i = route_of (env_routes s) i) /\
       env_log s' = env_log s /\ table_finals (env_routes s') = table_finals (env_routes s) /\ slots (env_routes s') = slots (env_routes s)) \/
      (active_readers (env_routes s) <> 0 /\ updated (env_routes s) (env_routes s') (rt_proc_id route) (Some route) /\
       routes_ok base (chain_blocks (slot_chain (env_routes s) (route_key (rt_proc_id route))) ++ extra) s' /\
       env_log s' = env_log s /\
       finals_of false true (rt_proc_id route) (slot_chain (env_routes s) (route_key (rt_proc_id route))) ++ table_finals (env_routes s') ≡ₚ
         fin route ++ table_finals (env_routes s) /\
       slots (env_routes s') <> slots (env_routes s))
  | UB => False
  end.
Proof.
  intros Hbits Hok. unfold routes_add_route. set (id := rt_proc_id route). set (k := route_key id).
  destruct (root (env_routes s)) eqn:Eroot; [| by destruct (ro_root _ _ _ Hok)].
  assert (Hmain : forall s1, routes_ok base (block :: extra) s1 -> is_Some (pages (env_routes s1) !! k.1) ->
    (forall i, route_of (env_routes s1) i = route_of (env_routes s) i) ->
    slot_chain (env_routes s1) k = slot_chain (env_routes s) k ->
    active_readers (env_routes s1) = active_readers (env_routes s) ->
    env_log s1 = env_log s -> table_finals (env_routes s1) = table_finals (env_routes s) -> slots (env_routes s1) = slots (env_routes s) ->
    match copy_loop (slot_chain (env_routes s1) k) id [(block, route)] false s1 with
    | (Ok (copy_head, replaced), s) => retire_route (slot_chain (env_routes s1) k) replaced id (upd_routes (set_slot k copy_head) s)
    | (Err, s) => (Err, s)
    | (UB, s) => (UB, s)
    end = (r, s') ->
    match r with
    | Ok _ => routes_ok base extra s' /\ updated (env_routes s) (env_routes s') id (Some route) /\
        (exists log, env_log s' = env_log s ++ log) /\
        env_log s' ++ table_finals (env_routes s') ≡ₚ env_log s ++ fin route ++ table_finals (env_routes s)
    | Err =>
        (routes_ok base extra s' /\ (forall i, route_of (env_routes s') i = route_of (env_routes s) i) /\
         env_log s' = env_log s /\ table_finals (env_routes s') = table_finals (env_routes s) /\ slots (env_routes s') = slots (env_routes s)) \/
        (active_readers (env_routes s) <> 0 /\ updated (env_routes s) (env_routes s') id (Some route) /\
         routes_ok base (chain_blocks (slot_chain (env_routes s) k) ++ extra) s' /\ env_log s' = env_log s /\
         finals_of false true id (slot_chain (env_routes s) k) ++ table_finals (env_routes s') ≡ₚ fin route ++ table_finals (env_routes s) /\
         slots (env_routes s') <> slots (env_routes s))
    | UB => False
    end).
  { intros s1 Hok1 Hpage Hsame Hslot Hrd1 Elog Efin Eslots.
    destruct (copy_loop _ _ _ _ s1) as [rc s2] eqn:Ec.
    pose proof (ro_owns _ _ _ Hok1) as Ho1.
    rewrite Permutation_app_comm in Ho1. cbn [app] in Ho1.
    destruct (copy_loop_spec _ _ [(block, route)] _ _ _ _ base (extra ++ table_blocks (env_routes s1)) Hbits Ho1 Ec)
      as [(E1 & E2 & E3) Hrc].
    destruct rc as [[c b]| |]; [| | done].
    - destruct Hrc as (Hc & Hb & Ho2). cbn [map snd app orb] in Hc, Hb. rewrite <- E1.
      assert (Hok2 : routes_ok base (chain_blocks c ++ extra) s2).
      { destruct Hok1 as [? ? ? ? _]. constructor; rewrite ?E1; try done.
        rewrite Permutation_app_comm, <- app_assoc. done. }
      rewrite <- E1 in Hc, Hb, Hpage. intros Hret.
      destruct (publish_retire_spec k c id (Some route) b s2 r s' base extra Hbits Hok2 Hpage eq_refl ltac:(by intros ? [= <-]) Hc Hb Hret)
        as (Hup & Hr). rewrite E1 in Hup.
      assert (Hup' : updated (env_routes s) (env_routes s') id (Some route)) by (intros i; rewrite Hup; by rewrite Hsame).
      rewrite ?E1, ?E3, ?Hslot, ?Hrd1, ?Elog, ?Efin, ?Eslots in Hr.
      destruct r as [u| |]; [| | done].
      + destruct Hr as (? & ? & ?). done.
      + right. by destruct Hr as (? & ? & ? & ? & ?).
    - intros [= <- <-]. left. rewrite E1, E3, Elog, Efin, Eslots. split_and!; try done.
      destruct Hok1 as [? ? ? ? _]. constructor; rewrite ?E1; try done. by rewrite Permutation_app_comm. }
  destruct (pages (env_routes s) !! k.1) as [page|] eqn:Epage.
  - apply Hmain; done.
  - destruct (pages_alloc page_bytes (env_pages s)) as [[page|] pw] eqn:Ep.
    + destruct (add_page_ok k.1 page pw s base _ Hok Epage) as [Hok1 Hsame].
      apply Hmain; try done.
      * cbn [upd_routes env_routes set_page pages]. by rewrite lookup_insert_eq.
      * rewrite (slot_chain_default _ _ _ _ Hok1), (slot_chain_default _ _ _ _ Hok). done.
    + intros [= <- <-]. left. split_and!; try done. destruct Hok as [? ? ? ? Ho].
      constructor; try done. cbn [upd_heap set_pages_world env_routes env_heap] in *.
      apply owns_free. by rewrite Permutation_middle.
Qed.

Lemma remove_spec id s r s' base extra :
  32 <= size_bits -> routes_ok base extra s -> wirecall_routes_remove id s = (r, s') ->
  match r with
  | Ok _ => route_of (env_routes s) id <> None /\ routes_ok base extra s' /\ updated (env_routes s) (env_routes s') id None /\
      (exists log, env_log s' = env_log s ++ log) /\
      env_log s' ++ table_finals (env_routes s') ≡ₚ env_log s ++ table_finals (env_routes s)
  | Err =>
      (routes_ok base extra s' /\ (forall i, route_of (env_routes s') i = route_of (env_routes s) i) /\
       env_log s' = env_log s /\ table_finals (env_routes s') = table_finals (env_routes s) /\ slots (env_routes s') = slots (env_routes s)) \/
      (active_readers (env_routes s) <> 0 /\ updated (env_routes s) (env_routes s') id None /\
       routes_ok base (chain_blocks (slot_chain (env_routes s) (route_key id)) ++ extra) s' /\
       env_log s' = env_log s /\
       finals_of false true id (slot_chain (env_routes s) (route_key id)) ++ table_finals (env_routes s') ≡ₚ table_finals (env_routes s) /\
       slots (env_routes s') <> slots (env_routes s) /\ route_of (env_routes s) id <> None)
  | UB => False
  end.
Proof.
  intros Hbits Hok. unfold wirecall_routes_remove. set (k := route_key id).
  destruct (root (env_routes s)) eqn:Eroot; [| by destruct (ro_root _ _ _ Hok)].
  destruct (copy_loop _ _ _ _ s) as [rc s2] eqn:Ec.
  pose proof (ro_owns _ _ _ Hok) as Ho.
  destruct (copy_loop_spec _ _ [] _ _ _ _ base (table_blocks (env_routes s) ++ extra) Hbits Ho Ec) as [(E1 & E2 & E3) Hrc].
  destruct rc as [[c b]| |]; [| | done].
  - destruct Hrc as (Hc & Hb & Ho2). cbn [map snd app orb] in Hc, Hb.
    assert (Hok2 : routes_ok base (chain_blocks c ++ extra) s2).
    { destruct Hok as [? ? ? ? _]. constructor; rewrite ?E1; try done.
      rewrite app_assoc, (Permutation_app_comm (table_blocks _)), <- app_assoc. done. }
    destruct b.
    + assert (Hpage : is_Some (pages (env_routes s) !! k.1)).
      { unfold slot_chain in Hb. destruct (pages (env_routes s) !! k.1); [by eauto | done]. }
      destruct Hpage as [page Epage]. rewrite Epage. rewrite <- E1. intros Hret.
      rewrite <- E1 in Hc, Hb, Epage. 
      destruct (publish_retire_spec k c id None true s2 r s' base extra Hbits Hok2 ltac:(by rewrite Epage) eq_refl ltac:(done) Hc Hb Hret)
        as (Hup & Hr). rewrite E1 in Hup, Hb |- *. rewrite ?E1, ?E3 in Hr. cbn [from_option app] in Hr.
      destruct r as [u| |]; [| | done].
      * destruct Hr as (? & ? & ?). split_and!; try done. unfold route_of. rewrite chain_find_list.
        intros Hn. apply find_existsb in Hn. fold k in Hn. congruence.
      * right. destruct Hr as (Hr1 & Hr2 & Hr3 & Hr4 & Hr5). split_and!; try done. unfold route_of. rewrite chain_find_list.
        intros Hn. apply find_existsb in Hn. fold k in Hn. congruence.
    + intros E.
      assert (s' = route_chain_free c false false 0 s2 /\ r = Err) as [-> ->]
        by (destruct (pages (env_routes s) !! k.1); by injection E as <- <-).
      left. destruct (chain_free_spec c false false 0 s2 base (table_blocks (env_routes s) ++ extra) Ho2) as (F1 & F2 & F3 & F4).
      rewrite F1, F3, E1, E3, finals_of_none, app_nil_r. split_and!; try done.
      destruct Hok as [? ? ? ? _]. constructor; rewrite ?F1, ?E1; done.
  - intros [= <- <-]. left. rewrite E1, E3. split_and!; try done.
    destruct Hok as [? ? ? ? _]. constructor; rewrite ?E1; done.
Qed.

Lemma free_retired_spec s base extra :
  routes_ok base extra s ->
  routes_ok base extra (free_retired s) /\
  (forall i, route_of (env_routes (free_retired s)) i = route_of (env_routes s) i) /\
  (exists log, env_log (free_retired s) = env_log s ++ log) /\
  env_log (free_retired s) ++ table_finals (env_routes (free_retired s)) ≡ₚ env_log s ++ table_finals (env_routes s) /\
  (active_readers (env_routes s) = 0 -> retired (env_routes (free_retired s)) = []).
Proof.
  intros Hok. destruct (decide (active_readers (env_routes s) = 0)) as [E0 | Hne].
  - unfold free_retired. rewrite E0. cbn [Z.eqb negb].
    set (s0 := upd_routes (set_retired []) s).
    assert (Ho : owns base (concat (map retired_blocks (retired (env_routes s))) ++ collect chain_blocks (slots (env_routes s)) ++ extra) (env_heap s0)).
    { subst s0. cbn [upd_routes env_heap]. pose proof (ro_owns _ _ _ Hok) as Ho. unfold table_blocks in Ho.
      rewrite (Permutation_app_comm (collect _ _)), <- app_assoc in Ho. done. }
    destruct (free_retired_loop_spec _ s0 base _ Ho) as (F1 & F2 & F3 & F4). rewrite F1, F3. subst s0.
    cbn [upd_routes env_routes env_log set_retired retired]. split_and!; try done.
    + destruct Hok as [? ? ? ? _]. constructor; rewrite ?F1; cbn [upd_routes env_routes set_retired root pages slots active_readers]; try done.
      unfold table_blocks. cbn [slots retired map concat set_retired]. by rewrite app_nil_r.
    + by eauto.
    + unfold table_finals. cbn [set_retired slots retired map concat]. rewrite app_nil_r, <- app_assoc. f_equiv.
      apply Permutation_app_comm.
  - rewrite free_retired_busy by done. split_and!; try done. exists []. by rewrite app_nil_r.
Qed.

Lemma lookup_spec id s r s' base extra :
  routes_ok base extra s -> wirecall_routes_lookup id s = (r, s') ->
  routes_ok base extra s' /\
  r = match route_of (env_routes s) id with Some rt => Ok rt | None => Err end /\
  (forall i, route_of (env_routes s') i = route_of (env_routes s) i) /\
  (exists log, env_log s' = env_log s ++ log) /\
  env_log s' ++ table_finals (env_routes s') ≡ₚ env_log s ++ table_finals (env_routes s) /\
  active_readers (env_routes s') = active_readers (env_routes s) /\
  (active_readers (env_routes s) = 0 -> retired (env_routes s') = []).
Proof.
  intros Hok. pose proof Hok as [Hroot Hch Hks Hrd Ho]. unfold wirecall_routes_lookup.
  destruct (root (env_routes s)) eqn:Eroot; [| done].
  set (s2 := upd_routes (fun r => set_readers (u32 (active_readers r - 1)) r) (upd_routes (fun r => set_readers (u32 (active_readers r + 1)) r) s)).
  assert (Hok2 : routes_ok base extra s2 /\ active_readers (env_routes s2) = active_readers (env_routes s)).
  { subst s2. cbn [upd_routes env_routes set_readers active_readers].
    rewrite (u32_small (active_readers (env_routes s) + 1)) by lia. rewrite Z.add_simpl_r, u32_small by lia.
    split; [| done]. constructor; try done; cbn [upd_routes env_routes set_readers root active_readers]; [by rewrite Eroot |].
    rewrite (u32_small (active_readers (env_routes s) + 1)) by lia. rewrite Z.add_simpl_r, u32_small by lia. done. }
  assert (Ert : chain_find (slot_chain (env_routes (upd_routes (fun r => set_readers (u32 (active_readers r + 1)) r) s)) (route_key id)) id
    = route_of (env_routes s) id) by done.
  rewrite Ert. cbn [upd_routes env_routes set_readers active_readers].
  rewrite u32_small by lia. fold s2. destruct Hok2 as [Hok2 Hrd2].
  assert (Hsame2 : (forall i, route_of (env_routes s2) i = route_of (env_routes s) i) /\ env_log s2 = env_log s /\
    table_finals (env_routes s2) = table_finals (env_routes s) /\ retired (env_routes s2) = retired (env_routes s)) by done.
  clearbody s2. destruct Hsame2 as (G1 & G2 & G3 & G4).
  intros E.
  assert (s' = (if active_readers (env_routes s) + 1 =? 1 then free_retired s2 else s2) /\
          r = match route_of (env_routes s) id with Some rt => Ok rt | None => Err end) as [-> ->]
    by (destruct (route_of (env_routes s) id); by injection E as <- <-).
  destruct (active_readers (env_routes s) + 1 =? 1) eqn:E1; zb.
  - destruct (free_retired_spec s2 base extra Hok2) as (F1 & F2 & (log & F3) & F4 & F5).
    rewrite G2 in F3, F4. rewrite G3 in F4. split_and!; try done.
    + intros i. by rewrite F2, G1.
    + by eauto.
    + unfold free_retired in *. destruct (negb _); [done |].
      pose proof (free_retired_loop_spec (retired (env_routes s2)) (upd_routes (set_retired []) s2) base (collect chain_blocks (slots (env_routes s2)) ++ extra)) as L.
      destruct L as (L & _); [| by rewrite L].
      pose proof (ro_owns _ _ _ Hok2) as Ho2. unfold table_blocks in Ho2. cbn [upd_routes env_heap].
      rewrite (Permutation_app_comm (collect _ _)), <- app_assoc in Ho2. done.
    + intros _. apply F5. lia.
  - split_and!; try done; [exists []; by rewrite app_nil_r | by rewrite G2, G3 | lia].
Qed.

(** what the two registration calls share: a node for [route], if its handler
    is not NULL *)
Definition add_node (route : wirecall_route) : M (routes_env W P) unit := fun s =>
  match env_calloc 1 sizeof_wirecall_route s with
  | (None, s) => (Err, s)
  | (Some block, s) => routes_add_route block route s
  end.

Definition sync_route (id : Z) (handler user_data : Z) (finalizer : option Z) (is_async : bool) : wirecall_route :=
  {| rt_proc_id := id; rt_handler := Some handler; rt_deferred_handler := None; rt_user_data := user_data;
     rt_finalizer := finalizer; rt_is_async := is_async; rt_is_deferred := false |}.
Definition deferred_route (id : Z) (handler user_data : Z) (finalizer : option Z) : wirecall_route :=
  {| rt_proc_id := id; rt_handler := None; rt_deferred_handler := Some handler; rt_user_data := user_data;
     rt_finalizer := finalizer; rt_is_async := false; rt_is_deferred := true |}.

Lemma add_ex_node id h ud f a s : wirecall_routes_add_ex id (Some h) ud f a s = add_node (sync_route id h ud f a) s.
Proof. done. Qed.
Lemma add_deferred_node id h ud f s : wirecall_routes_add_deferred_ex id (Some h) ud f s = add_node (deferred_route id h ud f) s.
Proof. done. Qed.

(** *** Writers are no readers *)
Definition readers s : Z := active_readers (env_routes s).
Lemma readers_chain_free c a o id s : readers (route_chain_free c a o id s) = readers s.
Proof.
  revert s. induction c as [|[b r] c IH]; intros s; [done |]. cbn [route_chain_free]. rewrite IH. unfold route_finalize.
  by destruct (_ || _), (rt_finalizer r).
Qed.
Lemma readers_free_retired s : readers (free_retired s) = readers s.
Proof.
  unfold free_retired. destruct (negb _); [done |]. generalize (retired (env_routes s)) as ns.
  assert (H : forall ns s', readers (free_retired_loop ns s') = readers s'); [| intros ns; by rewrite H].
  induction ns as [|n ns IH]; intros s'; [done |]. cbn [free_retired_loop]. rewrite IH. apply readers_chain_free.
Qed.
Lemma readers_calloc n size s : readers (env_calloc n size s).2 = readers s.
Proof. unfold env_calloc. by destruct (heap_calloc n size (env_heap s)). Qed.
Lemma readers_retire c o id s : readers (retire_route c o id s).2 = readers s.
Proof.
  unfold retire_route. destruct c; [done |]. destruct (_ =? 0); [apply readers_chain_free |].
  destruct (env_calloc _ _ s) as [[n|] s'] eqn:E; (assert (readers s' = readers s) as <- by (by rewrite <- (readers_calloc 1 sizeof_wirecall_retired_route s), E)); [| done].
  cbn [snd]. by rewrite readers_free_retired.
Qed.
Lemma readers_copy it id copied replaced s : readers (copy_loop it id copied replaced s).2 = readers s.
Proof.
  revert copied replaced s. induction it as [|[b r] it IH]; intros copied replaced s; [done |]. cbn [copy_loop]. destruct (_ =? id); [apply IH |].
  destruct (env_calloc _ _ s) as [[n|] s'] eqn:E; (assert (readers s' = readers s) as <- by (by rewrite <- (readers_calloc 1 sizeof_wirecall_route s), E)); [apply IH | apply readers_chain_free].
Qed.
Lemma readers_add_node route s : readers (add_node route s).2 = readers s.
Proof.
  unfold add_node. destruct (env_calloc _ _ s) as [[block|] s1] eqn:E;
    (assert (readers s1 = readers s) as <- by (by rewrite <- (readers_calloc 1 sizeof_wirecall_route s), E)); [| done].
  clear E. unfold routes_add_route. destruct (root _); [| done].
  assert (Hgo : forall s', readers s' = readers s1 -> readers (match copy_loop (slot_chain (env_routes s') (route_key (rt_proc_id route))) (rt_proc_id route) [(block, route)] false s' with
     | (Ok (copy_head, replaced), s) => retire_route (slot_chain (env_routes s') (route_key (rt_proc_id route))) replaced (rt_proc_id route)
                                          (upd_routes (set_slot (route_key (rt_proc_id route)) copy_head) s)
     | (Err, s) => (Err, s) | (UB, s) => (UB, s) end).2 = readers s1).
  { intros s' <-. pose proof (readers_copy (slot_chain (env_routes s') (route_key (rt_proc_id route))) (rt_proc_id route) [(block, route)] false s') as Hc.
    destruct (copy_loop _ _ _ _ s') as [[[hd rep]| |] s2]; [| done | done]. by rewrite readers_retire. }
  destruct (pages _ !! _) as [page|]; [by apply Hgo |]. destruct (pages_alloc _ _) as [[page|] w]; [by apply Hgo | done].
Qed.

Lemma add_node_spec route s r s' base extra :
  32 <= size_bits -> routes_ok base extra s -> add_node route s = (r, s') ->
  match r with
  | Ok _ => routes_ok base extra s' /\ updated (env_routes s) (env_routes s') (rt_proc_id route) (Some route) /\
      (exists log, env_log s' = env_log s ++ log) /\
      env_log s' ++ table_finals (env_routes s') ≡ₚ env_log s ++ fin route ++ table_finals (env_routes s)
  | Err =>
      (routes_ok base extra s' /\ (forall i, route_of (env_routes s') i = route_of (env_routes s) i) /\
       env_log s' = env_log s /\ table_finals (env_routes s') = table_finals (env_routes s) /\ slots (env_routes s') = slots (env_routes s)) \/
      (active_readers (env_routes s) <> 0 /\ updated (env_routes s) (env_routes s') (rt_proc_id route) (Some route) /\
       routes_ok base (chain_blocks (slot_chain (env_routes s) (route_key (rt_proc_id route))) ++ extra) s' /\
       env_log s' = env_log s /\
       finals_of false true (rt_proc_id route) (slot_chain (env_routes s) (route_key (rt_proc_id route))) ++ table_finals (env_routes s') ≡ₚ
         fin route ++ table_finals (env_routes s) /\
       slots (env_routes s') <> slots (env_routes s))
  | UB => False
  end.
Proof.
  intros Hbits Hok. unfold add_node. destruct (env_calloc 1 sizeof_wirecall_route s) as [o s1] eqn:Ec.
  destruct (env_calloc_spec sizeof_wirecall_route s o s1 base _ ltac:(unfold sizeof_wirecall_route; lia) Hbits (ro_owns _ _ _ Hok) Ec)
    as (E1 & E2 & E3 & Ho1).
  destruct o as [block|].
  - intros E. apply (add_route_spec block route s1 r s' base extra) in E; [by rewrite ?E1, ?E3 in E | done |].
    destruct Hok. constructor; rewrite ?E1; try done. revert Ho1. apply owns_perm; [| done].
    cbn [option_list option_rect app]. by rewrite Permutation_middle.
  - intros [= <- <-]. left. rewrite E1, E3. split_and!; try done.
    destruct Hok. constructor; rewrite ?E1; done.
Qed.

(** *** Destruction *)
Lemma page_positions_spec : NoDup page_positions /\ forall j, 0 <= j < WIRECALL_ROUTE_PAGE_SIZE -> In (Z.to_nat j) page_positions.
Proof. unfold page_positions. split; [apply NoDup_seq |]. intros j Hj. apply in_seq. lia. Qed.
Lemma root_positions_spec : NoDup root_positions /\ forall i, 0 <= i < WIRECALL_ROUTE_ROOT_SIZE -> In (Z.to_nat i) root_positions.
Proof. unfold root_positions. split; [apply NoDup_seq |]. intros i Hi. apply in_seq. lia. Qed.
Section DestroyLoops.
Variable r : wirecall_routes.
Variables js idxs : list nat.

Definition slot_of (k : Z * Z) : route_chain := default [] (slots r !! k).

Lemma destroy_slots_spec i s base l :
  env_routes s = r ->
  owns base (concat (map (fun j => chain_blocks (slot_of (i, Z.of_nat j))) js) ++ l) (env_heap s) ->
  env_routes (foldl (fun s j => destroy_slot i (Z.of_nat j) s) s js) = r /\
  env_log (foldl (fun s j => destroy_slot i (Z.of_nat j) s) s js) =
    env_log s ++ concat (map (fun j => chain_finals (slot_of (i, Z.of_nat j))) js) /\
  owns base l (env_heap (foldl (fun s j => destroy_slot i (Z.of_nat j) s) s js)).
Proof.
  revert s. induction js as [|j ks IH]; intros s Es Ho; [by cbn; rewrite app_nil_r |].
  cbn [foldl map concat] in *. rewrite <- app_assoc in Ho.
  destruct (chain_free_spec (slot_of (i, Z.of_nat j)) true false 0 s base _ Ho) as (E1 & E2 & E3 & E4).
  assert (Ed : destroy_slot i (Z.of_nat j) s = route_chain_free (slot_of (i, Z.of_nat j)) true false 0 s)
    by (unfold destroy_slot, slot_of; by rewrite Es).
  rewrite <- Ed in E1, E3, E4. destruct (IH (destroy_slot i (Z.of_nat j) s)) as (I1 & I2 & I3); [congruence | done |].
  split; [done |]. split; [| done]. by rewrite I2, E3, finals_of_all, <- app_assoc.
Qed.

Hypothesis Hpages : forall k c, slots r !! k = Some c -> is_Some (pages r !! k.1).

Lemma slot_of_no_page i j : pages r !! i = None -> slot_of (i, j) = [].
Proof.
  intros Hi. unfold slot_of. destruct (slots r !! (i, j)) as [c|] eqn:E; [| done].
  apply Hpages in E as [p Hp]. cbn in Hp. congruence.
Qed.

Lemma concat_nil {A B} (f : A -> list B) (xs : list A) : (forall x, f x = []) -> concat (map f xs) = [].
Proof. intros H. induction xs as [|x xs IH]; [done |]. cbn. by rewrite H. Qed.

Definition page_all {B} (f : route_chain -> list B) (i : nat) : list B :=
  concat (map (fun j => f (slot_of (Z.of_nat i, Z.of_nat j))) js).

Lemma destroy_page_spec i s base l :
  env_routes s = r -> owns base (page_all chain_blocks i ++ l) (env_heap s) ->
  env_routes (destroy_page js (Z.of_nat i) s) = r /\
  env_log (destroy_page js (Z.of_nat i) s) = env_log s ++ page_all chain_finals i /\
  owns base l (env_heap (destroy_page js (Z.of_nat i) s)).
Proof.
  intros Es Ho. unfold destroy_page. rewrite Es. destruct (pages r !! Z.of_nat i) as [page|] eqn:Ep.
  - destruct (destroy_slots_spec (Z.of_nat i) s base l Es Ho) as (E1 & E2 & E3). done.
  - assert (Hnil : forall {B} (f : route_chain -> list B), f [] = [] -> page_all f i = []).
    { intros B f Hf. apply concat_nil. intros j. by rewrite slot_of_no_page. }
    rewrite Hnil in Ho by done. by rewrite Hnil, app_nil_r by done.
Qed.

Lemma destroy_pages_spec s base l :
  env_routes s = r -> owns base (concat (map (page_all chain_blocks) idxs) ++ l) (env_heap s) ->
  env_routes (foldl (fun s i => destroy_page js (Z.of_nat i) s) s idxs) = r /\
  env_log (foldl (fun s i => destroy_page js (Z.of_nat i) s) s idxs) = env_log s ++ concat (map (page_all chain_finals) idxs) /\
  owns base l (env_heap (foldl (fun s i => destroy_page js (Z.of_nat i) s) s idxs)).
Proof.
  revert s. induction idxs as [|i is' IH]; intros s Es Ho; [by cbn; rewrite app_nil_r |].
  cbn [foldl map concat] in *. rewrite <- app_assoc in Ho.
  destruct (destroy_page_spec i s base _ Es Ho) as (E1 & E2 & E3).
  destruct (IH _ E1 E3) as (I1 & I2 & I3). split; [done |]. split; [| done]. by rewrite I2, E2, <- app_assoc.
Qed.

(** the keys the loops reach *)
Definition all_keys : list (Z * Z) := idxs ≫= fun i => map (fun j => (Z.of_nat i, Z.of_nat j)) js.

Lemma concat_map_bind {A B C} (g : B -> list C) (f : A -> list B) (xs : list A) :
  concat (map g (xs ≫= f)) = concat (map (fun x => concat (map g (f x))) xs).
Proof. induction xs as [|x xs IH]; [done |]. cbn. by rewrite map_app, concat_app, IH. Qed.

Hypothesis js_all : NoDup js /\ forall j, 0 <= j < WIRECALL_ROUTE_PAGE_SIZE -> In (Z.to_nat j) js.
Hypothesis idxs_all : NoDup idxs /\ forall i, 0 <= i < WIRECALL_ROUTE_ROOT_SIZE -> In (Z.to_nat i) idxs.

Lemma all_keys_nodup : NoDup all_keys.
Proof.
  unfold all_keys. apply NoDup_bind.
  - intros i1 i2 y _ _ H1 H2. apply list_elem_of_In, in_map_iff in H1 as (j1 & <- & _).
    apply list_elem_of_In, in_map_iff in H2 as (j2 & E & _). injection E as E1 E2. lia.
  - intros i _. apply NoDup_fmap_2; [| apply js_all]. intros j1 j2 [= E]. lia.
  - apply idxs_all.
Qed.

Lemma all_keys_in id : route_key id ∈ all_keys.
Proof.
  destruct (route_key_range id) as [H1 H2]. unfold all_keys. apply list_elem_of_bind.
  exists (Z.to_nat (route_key id).1). split.
  - apply list_elem_of_In, in_map_iff. exists (Z.to_nat (route_key id).2). split.
    + rewrite !Z2Nat.id by lia. by destruct (route_key id).
    + by apply js_all.
  - apply list_elem_of_In. by apply idxs_all.
Qed.

Lemma destroy_visits {B} (f : route_chain -> list B) :
  f [] = [] -> (forall k, is_Some (slots r !! k) -> exists id, k = route_key id) ->
  concat (map (page_all f) idxs) ≡ₚ collect f (slots r).
Proof.
  intros Hf Hk. rewrite <- (collect_visit [] f Hf (slots r) all_keys all_keys_nodup).
  - unfold all_keys. rewrite concat_map_bind. apply eq_subrelation; [apply _ |]. f_equal.
    apply map_ext. intros i. unfold page_all. by rewrite map_map.
  - intros k Hs. apply Hk in Hs as [id ->]. apply all_keys_in.
Qed.
End DestroyLoops.

(** the two loops, over any lists of positions that reach every key *)
Definition destroy_over (js idxs : list nat) (s : routes_env W P) : routes_env W P :=
  let s :=
    match root (env_routes s) with
    | None => s
    | Some b =>
        let s := foldl (fun s i => destroy_page js (Z.of_nat i) s) s idxs in
        set_pages_world (pages_free b root_bytes (env_pages s)) s
    end in
  let node := retired (env_routes s) in
  upd_routes (set_retired []) (free_retired_loop node s).

Lemma destroy_over_spec js idxs s base extra :
  NoDup js /\ (forall j, 0 <= j < WIRECALL_ROUTE_PAGE_SIZE -> In (Z.to_nat j) js) ->
  NoDup idxs /\ (forall i, 0 <= i < WIRECALL_ROUTE_ROOT_SIZE -> In (Z.to_nat i) idxs) ->
  routes_ok base extra s ->
  env_log (destroy_over js idxs s) ≡ₚ env_log s ++ table_finals (env_routes s) /\
  owns base extra (env_heap (destroy_over js idxs s)).
Proof.
  intros Hjs Hidxs [Hroot Hch Hks _ Ho]. unfold destroy_over.
  destruct (root (env_routes s)) as [rb|]; [| done].
  set (r := env_routes s) in *. unfold table_blocks in Ho. rewrite <- app_assoc in Ho.
  rewrite <- (destroy_visits r js idxs Hjs Hidxs chain_blocks eq_refl Hks) in Ho.
  destruct (destroy_pages_spec r js idxs (fun k c Hk => proj1 (Hch k c Hk)) s base _ eq_refl Ho) as (E1 & E2 & E3).
  set (s1 := foldl _ s idxs) in *. clearbody s1.
  cbn [set_pages_world env_routes]. rewrite E1.
  destruct (free_retired_loop_spec (retired r) (set_pages_world (pages_free rb root_bytes (env_pages s1)) s1) base extra E3)
    as (F1 & F2 & F3 & F4).
  cbn [upd_routes env_log env_heap]. rewrite F3. split; [| done]. cbn [set_pages_world env_log]. rewrite E2.
  unfold table_finals. rewrite <- app_assoc. f_equiv. f_equiv. by apply destroy_visits.
Qed.

Lemma destroy_spec s base extra :
  routes_ok base extra s ->
  env_log (wirecall_routes_destroy s) ≡ₚ env_log s ++ table_finals (env_routes s) /\
  owns base extra (env_heap (wirecall_routes_destroy s)).
Proof. exact (destroy_over_spec _ _ s base extra page_positions_spec root_positions_spec). Qed.

(** *** Runs of the table *)
Inductive routes_op :=
| RAdd (id handler user_data : Z) (finalizer : option Z) (is_async : bool)
| RAddDeferred (id handler user_data : Z) (finalizer : option Z)
| RRemove (id : Z)
| RLookup (id : Z)
(** another thread enters or leaves a lookup *)
| REnter
| RLeave.

Definition routes_exec (op : routes_op) : M (routes_env W P) (option wirecall_route) :=
  match op with
  | RAdd id h ud f a => wirecall_routes_add_ex id (Some h) ud f a ;;; ret None
  | RAddDeferred id h ud f => wirecall_routes_add_deferred_ex id (Some h) ud f ;;; ret None
  | RRemove id => wirecall_routes_remove id ;;; ret None
  | RLookup id => r <- wirecall_routes_lookup id ;; ret (Some r)
  | REnter => modify (upd_routes (fun r => set_readers (u32 (active_readers r + 1)) r)) ;;; ret None
  | RLeave =>
      old <- gets (fun s => active_readers (env_routes s)) ;;
      modify (upd_routes (fun r => set_readers (u32 (active_readers r - 1)) r)) ;;;
      (if old =? 1 then modify free_retired else ret tt) ;;;
      ret None
  end.

Definition op_may (op : routes_op) s : Prop :=
  match op with
  | REnter => active_readers (env_routes s) + 1 < 2 ^ 32 - 1
  | RLeave => 0 < active_readers (env_routes s)
  | _ => True
  end.

(** the finalizer calls a successful registration obliges the table to *)
Definition op_finals (op : routes_op) : list (Z * Z) :=
  match op with
  | RAdd id h ud f a => fin (sync_route id h ud f a)
  | RAddDeferred id h ud f => fin (deferred_route id h ud f)
  | _ => []
  end.

Definition same_table (r r' : wirecall_routes) : Prop := forall i, route_of r' i = route_of r i.

(** what an operation does to the map of procedures.  A writer that fails
    changes nothing unless, with a reader inside, it has published the new chain
    ([late]) before it failed to retire the old one *)
Definition map_step (op : routes_op) (r : res (option wirecall_route)) (late : bool) (t t' : wirecall_routes) : Prop :=
  let failed id new := if late then active_readers t <> 0 /\ updated t t' id new else same_table t t' in
  match op, r with
  | RAdd id h ud f a, Ok _ => updated t t' id (Some (sync_route id h ud f a))
  | RAdd id h ud f a, Err => failed id (Some (sync_route id h ud f a))
  | RAddDeferred id h ud f, Ok _ => updated t t' id (Some (deferred_route id h ud f))
  | RAddDeferred id h ud f, Err => failed id (Some (deferred_route id h ud f))
  | RRemove id, Ok _ => route_of t id <> None /\ updated t t' id None
  | RRemove id, Err => failed id None /\ (late = true -> route_of t id <> None)
  | RLookup id, _ => r = match route_of t id with Some rt => Ok (Some rt) | None => Err end /\ same_table t t'
  | _, UB => False
  | _, _ => same_table t t'
  end.

(** whether an operation has published a chain *)
Definition published s s' : bool := negb (bool_decide (slots (env_routes s') = slots (env_routes s))).
(** the finalizer calls it obliges the table to: those of a registration that
    has taken effect, whatever it returns *)
Definition owed (op : routes_op) (r : res (option wirecall_route)) s s' : list (Z * Z) :=
  match r with Ok _ => op_finals op | _ => if published s s' then op_finals op else [] end.
(** the chain it has lost: replaced, and not retired.  With it is the procedure
    whose node the new chain does not have *)
Definition lost_by (op : routes_op) (r : res (option wirecall_route)) s s' : list (Z * route_chain) :=
  match op, r with
  | RAdd id _ _ _ _, Err | RAddDeferred id _ _ _, Err | RRemove id, Err =>
      if published s s' then [(id, slot_chain (env_routes s) (route_key id))] else []
  | _, _ => []
  end.
Definition lost_blocks (lost : list (Z * route_chain)) : list Z := concat (map (fun n => chain_blocks n.2) lost).
Definition lost_finals (lost : list (Z * route_chain)) : list (Z * Z) := concat (map (fun n => finals_of false true n.1 n.2) lost).

Lemma readers_ok n s base extra :
  routes_ok base extra s -> 0 <= n < 2 ^ 32 - 1 -> routes_ok base extra (upd_routes (set_readers n) s).
Proof. intros [] Hn. by constructor. Qed.

Lemma published_no s s' : slots (env_routes s') = slots (env_routes s) -> published s s' = false.
Proof. intros E. unfold published. by rewrite bool_decide_true. Qed.
Lemma published_yes s s' : slots (env_routes s') <> slots (env_routes s) -> published s s' = true.
Proof. intros E. unfold published. by rewrite bool_decide_false. Qed.

(** what a writer that publishes [new] for [id] leads to; [lost]: the chain it has lost *)
Lemma add_exec_spec (route : wirecall_route) s (r : res (option wirecall_route)) s' base extra :
  32 <= size_bits -> routes_ok base extra s ->
  (add_node route ;;; ret None) s = (r, s') ->
  let lost := match r with Err => if published s s' then [(rt_proc_id route, slot_chain (env_routes s) (route_key (rt_proc_id route)))] else [] | _ => [] end in
  let owed := match r with Ok _ => fin route | _ => if published s s' then fin route else [] end in
  routes_ok base (lost_blocks lost ++ extra) s' /\
  match r with
  | Ok _ => updated (env_routes s) (env_routes s') (rt_proc_id route) (Some route)
  | Err =>
      if published s s' then active_readers (env_routes s) <> 0 /\ updated (env_routes s) (env_routes s') (rt_proc_id route) (Some route)
      else same_table (env_routes s) (env_routes s')
  | UB => False
  end /\
  env_log s' ++ lost_finals lost ++ table_finals (env_routes s') ≡ₚ owed ++ env_log s ++ table_finals (env_routes s).
Proof.
  intros Hbits Hok. unfold bind. destruct (add_node route s) as [r1 s1] eqn:E.
  pose proof (add_node_spec route s r1 s1 base extra Hbits Hok E) as Hs.
  destruct r1 as [u| |]; intros [= <- <-]; [| | done]; cbv zeta.
  - destruct Hs as (Hok' & Hup & _ & Hf). split; [done |]. split; [done |]. unfold lost_finals. cbn [map concat app]. rewrite Hf, !app_assoc.
    by rewrite (Permutation_app_comm (env_log s)).
  - destruct Hs as [(Hok' & Hsame & Elog & Ef & Es) | (Hrd & Hup & Hok' & Elog & Hf & Es)].
    + rewrite (published_no s s1 Es). split; [done |]. split; [done |]. unfold lost_finals. cbn [map concat app]. by rewrite Elog, Ef.
    + rewrite (published_yes s s1 Es). unfold lost_blocks, lost_finals. cbn [map concat fst snd]. rewrite !app_nil_r.
      split; [done |]. split; [done |]. rewrite Elog, Hf. apply Permutation_app_swap_app.
Qed.

Lemma exec_op_spec op s r s' base extra :
  32 <= size_bits -> routes_ok base extra s -> op_may op s -> routes_exec op s = (r, s') ->
  routes_ok base (lost_blocks (lost_by op r s s') ++ extra) s' /\ map_step op r (published s s') (env_routes s) (env_routes s') /\
  env_log s' ++ lost_finals (lost_by op r s s') ++ table_finals (env_routes s') ≡ₚ
    owed op r s s' ++ env_log s ++ table_finals (env_routes s).
Proof.
  intros Hbits Hok Hmay E.
  assert (Hnone : forall op, op_finals op = [] -> owed op r s s' = []) by (intros o Ho; unfold owed; rewrite Ho; by destruct r, (published s s')).
  destruct op as [id h ud f a|id h ud f|id|id| |]; cbn [routes_exec op_may map_step lost_by] in *.
  - pose proof (add_exec_spec (sync_route id h ud f a) s r s' base extra Hbits Hok E) as (H1 & H2 & H3). by destruct r.
  - pose proof (add_exec_spec (deferred_route id h ud f) s r s' base extra Hbits Hok E) as (H1 & H2 & H3). by destruct r.
  - rewrite Hnone by done. unfold bind in E. destruct (wirecall_routes_remove id s) as [r1 s1] eqn:E1.
    pose proof (remove_spec id s r1 s1 base extra Hbits Hok E1) as Hs.
    destruct r1 as [u| |]; injection E as <- <-; [| | done].
    + by destruct Hs as (Hn & Hok' & Hup & _ & Hf).
    + destruct Hs as [(Hok' & Hsame & Elog & Ef & Es) | (Hrd & Hup & Hok' & Elog & Hf & Es & Hn)].
      * rewrite (published_no s s1 Es). split; [done |]. split; [done |]. unfold lost_finals. cbn [map concat app]. by rewrite Elog, Ef.
      * rewrite (published_yes s s1 Es). unfold lost_blocks, lost_finals. cbn [map concat fst snd app]. rewrite !app_nil_r.
        split; [done |]. split; [done |]. by rewrite Elog, Hf.
  - rewrite Hnone by done. unfold bind in E. destruct (wirecall_routes_lookup id s) as [r1 s1] eqn:E1.
    destruct (lookup_spec id s r1 s1 base extra Hok E1) as (Hok' & -> & Hsame & _ & Hf & _).
    destruct (route_of (env_routes s) id) as [rt|] eqn:Ert; injection E as <- <-; (split; [done |]; split; [done |]; exact Hf).
  - rewrite Hnone by done. injection E as <- <-. pose proof (ro_readers _ _ _ Hok). split; [| done].
    apply (readers_ok (u32 (active_readers (env_routes s) + 1))); [done |]. rewrite u32_small by lia. lia.
  - rewrite Hnone by done. pose proof (ro_readers _ _ _ Hok) as Hrd. unfold bind, gets, modify in E.
    set (s0 := upd_routes _ s) in E.
    assert (Hok0 : routes_ok base extra s0).
    { apply (readers_ok (u32 (active_readers (env_routes s) - 1))); [done |]. rewrite u32_small by lia. lia. }
    assert (H0 : same_table (env_routes s) (env_routes s0) /\ env_log s0 = env_log s /\
      table_finals (env_routes s0) = table_finals (env_routes s)) by done.
    clearbody s0. destruct H0 as (G1 & G2 & G3). destruct (_ =? 1); injection E as <- <-.
    + destruct (free_retired_spec s0 base extra Hok0) as (F1 & F2 & _ & F4 & _).
      rewrite G2, G3 in F4. split; [done |]. split; [| done]. intros i. by rewrite F2, G1.
    + split; [done |]. split; [done |]. unfold lost_finals. cbn [map concat app]. by rewrite G2, G3.
Qed.

(** no reader inside, nothing lost: a failed writer has changed nothing *)
Lemma nothing_lost op s r s' base extra :
  32 <= size_bits -> routes_ok base extra s -> routes_exec op s = (r, s') -> r <> Err \/ active_readers (env_routes s) = 0 -> lost_by op r s s' = [].
Proof.
  intros Hbits Hok E [Hr | Hr]; [by destruct op, r |].
  destruct op as [id h ud f a|id h ud f|id|id| |]; cbn [routes_exec lost_by] in *; try done; unfold bind in E.
  - destruct (wirecall_routes_add_ex _ _ _ _ _ s) as [r1 s1] eqn:E1. pose proof (add_node_spec (sync_route id h ud f a) s r1 s1 base extra Hbits Hok E1) as Hs.
    destruct r1; injection E as <- <-; [done | | done]. destruct Hs as [(_ & _ & _ & _ & Es) | (Hrd & _)]; [| by destruct Hrd]. by rewrite (published_no s s1 Es).
  - destruct (wirecall_routes_add_deferred_ex _ _ _ _ s) as [r1 s1] eqn:E1. pose proof (add_node_spec (deferred_route id h ud f) s r1 s1 base extra Hbits Hok E1) as Hs.
    destruct r1; injection E as <- <-; [done | | done]. destruct Hs as [(_ & _ & _ & _ & Es) | (Hrd & _)]; [| by destruct Hrd]. by rewrite (published_no s s1 Es).
  - destruct (wirecall_routes_remove id s) as [r1 s1] eqn:E1. pose proof (remove_spec id s r1 s1 base extra Hbits Hok E1) as Hs.
    destruct r1; injection E as <- <-; [done | | done]. destruct Hs as [(_ & _ & _ & _ & Es) | (Hrd & _)]; [| by destruct Hrd]. by rewrite (published_no s s1 Es).
Qed.

(** the states of a run, with the finalizer calls its registrations oblige to
    and the chains it has lost *)
Inductive routes_reach (s0 : routes_env W P) : list (Z * Z) -> list (Z * route_chain) -> routes_env W P -> Prop :=
| routes_start : routes_reach s0 [] [] s0
| routes_step regs lost s op r s' :
    routes_reach s0 regs lost s -> op_may op s -> routes_exec op s = (r, s') ->
    routes_reach s0 (owed op r s s' ++ regs) (lost_by op r s s' ++ lost) s'.

Lemma routes_step_to s0 regs lost s op r s' regs' lost' :
  routes_reach s0 regs lost s -> op_may op s -> routes_exec op s = (r, s') -> owed op r s s' ++ regs = regs' -> lost_by op r s s' ++ lost = lost' ->
  routes_reach s0 regs' lost' s'.
Proof. intros Hs Hm E <- <-. by eapply routes_step. Qed.

Lemma routes_init_spec mutex_ok s r s' :
  heap_inv (env_heap s) -> wirecall_routes_init mutex_ok s = (r, s') ->
  env_log s' = env_log s /\ env_heap s' = env_heap s /\
  match r with
  | Ok _ => routes_ok (heap_live (env_heap s)) [] s' /\ (forall i, route_of (env_routes s') i = None) /\ table_finals (env_routes s') = []
  | Err => True
  | UB => False
  end.
Proof.
  intros Hi. unfold wirecall_routes_init. cbn [upd_routes env_pages].
  destruct (pages_alloc root_bytes (env_pages s)) as [[b|] p]; [destruct mutex_ok |]; intros [= <- <-]; cbn [negb]; try done.
  split; [done |]. split; [done |]. split; [| done].
  constructor; cbn [upd_routes set_pages_world env_routes env_heap routes_zero root pages slots active_readers]; try done.
  - intros k [c Hc]. by rewrite lookup_empty in Hc.
  - by apply owns_start.
Qed.

Lemma routes_reach_ok s0 regs lost s base :
  32 <= size_bits -> routes_ok base [] s0 -> routes_reach s0 regs lost s ->
  routes_ok base (lost_blocks lost) s /\
  env_log s ++ lost_finals lost ++ table_finals (env_routes s) ≡ₚ regs ++ env_log s0 ++ table_finals (env_routes s0).
Proof.
  intros Hbits Hok0. induction 1 as [|regs lost s op r s' _ [IHok IHf] Hmay E]; [done |].
  destruct (exec_op_spec op s r s' base _ Hbits IHok Hmay E) as (Hok' & _ & Hf).
  unfold lost_blocks, lost_finals in *. rewrite !map_app, !concat_app. split; [done |].
  rewrite <- !app_assoc, <- IHf. rewrite (Permutation_app_swap_app (env_log s)), (Permutation_app_swap_app (owed _ _ _ _)), <- Hf. solve_Permutation.
Qed.
End RoutesFacts.

(** ** Properties *)

(** C7: the table implements a map from procedure ids to routes.  In every
    state a run reaches, with other threads entering and leaving lookups,
    allocations failing and hashes colliding as they may, a lookup returns the
    route last published for the id and not removed since, and a registration
    or removal that succeeds changes that one entry.  One that fails has changed
    nothing and lost nothing, unless a lookup was under way: then it may have
    published its change of that one entry and failed to retire the old chain,
    which is what is lost. *)
Theorem routes_refine_map `{Host} `{Heap W} `{Pages P} mutex_ok (s s0 s1 : routes_env W P) regs lost op r s2 :
  32 <= size_bits -> heap_inv (env_heap s) -> wirecall_routes_init mutex_ok s = (Ok tt, s0) ->
  routes_reach s0 regs lost s1 -> op_may op s1 -> routes_exec op s1 = (r, s2) ->
  (forall i, route_of (env_routes s0) i = None) /\ map_step op r (published s1 s2) (env_routes s1) (env_routes s2) /\
  (r <> Err \/ active_readers (env_routes s1) = 0 -> lost_by op r s1 s2 = []).
Proof.
  intros Hb Hi Einit Hreach Hmay E. destruct (routes_init_spec _ _ _ _ Hi Einit) as (_ & _ & Hok0 & Hnone & _).
  destruct (routes_reach_ok _ _ _ _ _ Hb Hok0 Hreach) as [Hok _].
  destruct (exec_op_spec op s1 r s2 _ _ Hb Hok Hmay E) as (_ & Hstep & _).
  split; [done |]. split; [exact Hstep |]. by eapply nothing_lost.
Qed.

Definition toy_env (answers : list bool) : routes_env toy toy_pages :=
  {| env_routes := routes_zero; env_heap := toy_empty answers; env_pages := toy_pages_empty; env_log := [] |}.
Definition routes_sample_0 := (wirecall_routes_init true (toy_env [])).2.
Definition routes_sample_1 := (routes_exec (HH := host_lp64) (RAdd 7 100 1 (Some 50) false) routes_sample_0).2.
Definition routes_sample_2 := (routes_exec (HH := host_lp64) REnter routes_sample_1).2.
Definition routes_sample_3 := (routes_exec (HH := host_lp64) (RAdd 7 200 2 (Some 50) true) routes_sample_2).2.
Definition routes_sample_4 := (routes_exec (HH := host_lp64) RLeave routes_sample_3).2.

Lemma routes_refine_map_witness :
  map_step (RLookup 7) (routes_exec (HH := host_lp64) (RLookup 7) routes_sample_4).1 false (env_routes routes_sample_4)
    (env_routes (routes_exec (HH := host_lp64) (RLookup 7) routes_sample_4).2).
Proof.
  destruct (routes_refine_map (H := host_lp64) true (toy_env []) routes_sample_0 routes_sample_4 [(50, 2); (50, 1)] [] (RLookup 7)
    (routes_exec (HH := host_lp64) (RLookup 7) routes_sample_4).1 (routes_exec (HH := host_lp64) (RLookup 7) routes_sample_4).2) as (_ & Hstep & _).
  - by_compute.
  - apply toy_empty_inv.
  - vm_compute. reflexivity.
  - apply (routes_step_to (HH := host_lp64) _ [(50, 2); (50, 1)] [] routes_sample_3 RLeave (Ok None)); [| vm_compute; reflexivity ..].
    apply (routes_step_to (HH := host_lp64) _ [(50, 1)] [] routes_sample_2 (RAdd 7 200 2 (Some 50) true) (Ok None)); [| done | vm_compute; reflexivity ..].
    apply (routes_step_to (HH := host_lp64) _ [(50, 1)] [] routes_sample_1 REnter (Ok None)); [| vm_compute; reflexivity ..].
    apply (routes_step_to (HH := host_lp64) _ [] [] routes_sample_0 (RAdd 7 100 1 (Some 50) false) (Ok None)); [| done | vm_compute; reflexivity ..].
    constructor.
  - done.
  - apply surjective_pairing.
  - exact Hstep.
Defined.

(** C24: what finalizers are called and what is released, after any run,
    whatever fails in it: destroying the table has called the finalizer of every
    registration that took effect exactly once, and no other, and has released
    every block allocated since the init, but for the chains that failing writers
    have lost while a lookup was under way: their nodes stay allocated, and the
    finalizer of the node they were to replace or remove is never called. *)
Theorem routes_finalize_once `{Host} `{Heap W} `{Pages P} mutex_ok (s s0 s1 : routes_env W P) regs lost :
  32 <= size_bits -> heap_inv (env_heap s) -> wirecall_routes_init mutex_ok s = (Ok tt, s0) ->
  routes_reach s0 regs lost s1 ->
  env_log (wirecall_routes_destroy s1) ++ lost_finals lost ≡ₚ env_log s ++ regs /\
  heap_live (env_heap (wirecall_routes_destroy s1)) = heap_live (env_heap s) ∪ list_to_set (lost_blocks lost) /\
  NoDup (lost_blocks lost) /\ (forall p, p ∈ lost_blocks lost -> p ∉ heap_live (env_heap s)).
Proof.
  intros Hb Hi Einit Hreach. destruct (routes_init_spec _ _ _ _ Hi Einit) as (El & Eh & Hok0 & _ & Ef0).
  destruct (routes_reach_ok _ _ _ _ _ Hb Hok0 Hreach) as [Hok Hf].
  destruct (destroy_spec s1 _ _ Hok) as [Hd (_ & Hnd & Hout & Hlive)]. split; [| done].
  rewrite Hd, <- app_assoc, (Permutation_app_comm (table_finals _)), Hf, El, Ef0, app_nil_r. apply Permutation_app_comm.
Qed.

(** the same run, with the allocation of the retired node refused *)
Definition routes_lost_1 := (routes_exec (HH := host_lp64) (RAdd 7 100 1 (Some 50) false) (wirecall_routes_init true (toy_env [true; true; false])).2).2.
Definition routes_lost_2 := (routes_exec (HH := host_lp64) REnter routes_lost_1).2.
Definition routes_lost_3 := routes_exec (HH := host_lp64) (RAdd 7 200 2 (Some 50) true) routes_lost_2.
Definition routes_lost_4 := (routes_exec (HH := host_lp64) RLeave routes_lost_3.2).2.

Lemma routes_finalize_once_witness :
  env_log (wirecall_routes_destroy routes_lost_4) ++ [(50, 1)] ≡ₚ [] ++ [(50, 2); (50, 1)] /\
  heap_live (env_heap (wirecall_routes_destroy routes_lost_4)) = ∅ ∪ {[1]} /\ NoDup [1] /\ (forall p, p ∈ [1] -> p ∉ (∅ : gset Z)).
Proof.
  destruct (routes_finalize_once (H := host_lp64) true (toy_env [true; true; false]) (wirecall_routes_init true (toy_env [true; true; false])).2 routes_lost_4
    [(50, 2); (50, 1)] [(7, [(1, sync_route 7 100 1 (Some 50) false)])]) as (Hl & Hh & Hrest).
  - by_compute.
  - apply toy_empty_inv.
  - vm_compute. reflexivity.
  - apply (routes_step_to (HH := host_lp64) _ [(50, 2); (50, 1)] [(7, [(1, sync_route 7 100 1 (Some 50) false)])] routes_lost_3.2 RLeave (Ok None));
      [| vm_compute; reflexivity ..].
    apply (routes_step_to (HH := host_lp64) _ [(50, 1)] [] routes_lost_2 (RAdd 7 200 2 (Some 50) true) Err); [| done | vm_compute; reflexivity ..].
    apply (routes_step_to (HH := host_lp64) _ [(50, 1)] [] routes_lost_1 REnter (Ok None)); [| vm_compute; reflexivity ..].
    apply (routes_step_to (HH := host_lp64) _ [] [] (wirecall_routes_init true (toy_env [true; true; false])).2 (RAdd 7 100 1 (Some 50) false) (Ok None));
      [| done | vm_compute; reflexivity ..].
    constructor.
  - split; [exact Hl |]. split; [transitivity (heap_live (env_heap (toy_env [true; true; false])) ∪ list_to_set [1]); [exact Hh | vm_compute; reflexivity] | exact Hrest].
Defined.

(** With a reader inside a lookup, a registration whose retired node
    cannot be allocated returns -1 although the new route is already
    published; the node of the route it replaced stays allocated with nothing
    in the table referring to it, and its finalizer is neither run nor owed. *)
Theorem routes_retire_failure_loses :
  routes_lost_3.1 = Err /\
  route_of (env_routes routes_lost_3.2) 7 = Some (sync_route 7 200 2 (Some 50) true) /\
  env_log routes_lost_4 = [] /\ table_finals (env_routes routes_lost_4) = [(50, 2)] /\
  heap_live (env_heap routes_lost_4) = {[1; 2]} /\ table_blocks (env_routes routes_lost_4) = [2].
Proof. split_and!; vm_compute; reflexivity. Qed.
