(* ===== verification/RoutesConc.v ===== *)
(** * RoutesConc: lookups interleaved with writers (src/routes.c)

    One slot of the procedure table, any number of threads inside
    wirecall_routes_lookup, and the holder of the lock: a writer
    (wirecall_routes_add_ex or wirecall_routes_remove) or a thread that leaves a
    lookup and reclaims.  A step is one atomic access of the code.  Chains are
    numbered by publication; [freed] are the ones whose nodes were freed and
    whose replaced route was finalized.  The counter active_readers is an integer
    here and an atomic_uint in the code: they agree while fewer than 2^32 threads
    are inside lookups at a time.

    The store that publishes a chain is a release store and the load of
    active_readers behind it an acquire load, which does not order the two.
    The model has both readings: under [SC] a store is visible at once; under
    [TSO], the order x86 processors give those accesses, it waits in the
    writer's store buffer while the writer goes on, until it is drained, at the
    latest when the lock is released. *)

From S2P Require Import Prelude.

Inductive memory_model := SC | TSO.

(** a thread: outside; inside with the counter raised; inside with the chain
    it loaded; outside again, about to take the lock as the last reader or
    running the handler of the route it copied *)
Inductive reader :=
| RIdle
| RIn
| RHold (v : nat)
| ROut (v : nat)
| RRun (v : nat).

(** the lock: free; a writer that has copied the chain [old]; that has stored
    the new one; free_retired, before its test; freeing chains *)
Inductive lock_state :=
| LNone
| LCopy (old : nat)
| LPub (old : nat)
| LCheck
| LFreeing (l : list nat).

Record cstate := {
  c_slot : nat;              (** the chain in memory *)
  c_buf : option nat;        (** a store that has not reached memory *)
  c_next : nat;
  c_active : Z;              (** active_readers *)
  c_retired : list nat;
  c_freed : list nat;
  c_lock : lock_state;
  c_readers : list reader;
}.

Inductive caction :=
| AEnter (t : nat)           (** atomic_fetch_add(&active_readers, 1) *)
| ALoad (t : nat)            (** route = page[slot_idx] *)
| ALeave (t : nat)           (** copy out, then atomic_fetch_sub *)
| AReclaim (t : nat)         (** lock, as the last reader *)
| AReturn (t : nat)          (** the handler returns *)
| ALock                      (** a writer takes the lock, loads and copies *)
| APublish                   (** atomic_store(&page[slot_idx], copy_head) *)
| ADrain                     (** the store reaches memory *)
| ARetire                    (** retire_route: test active_readers *)
| ACheck                     (** free_retired: test active_readers *)
| AFreeOne                   (** route_chain_free of one chain *)
| AUnlock.

Definition set_reader (t : nat) (r : reader) (s : cstate) : cstate :=
  {| c_slot := c_slot s; c_buf := c_buf s; c_next := c_next s; c_active := c_active s; c_retired := c_retired s;
     c_freed := c_freed s; c_lock := c_lock s; c_readers := <[t := r]> (c_readers s) |}.
Definition set_active (n : Z) (s : cstate) : cstate :=
  {| c_slot := c_slot s; c_buf := c_buf s; c_next := c_next s; c_active := n; c_retired := c_retired s;
     c_freed := c_freed s; c_lock := c_lock s; c_readers := c_readers s |}.
Definition set_lock (k : lock_state) (s : cstate) : cstate :=
  {| c_slot := c_slot s; c_buf := c_buf s; c_next := c_next s; c_active := c_active s; c_retired := c_retired s;
     c_freed := c_freed s; c_lock := k; c_readers := c_readers s |}.
Definition set_memory (slot : nat) (buf : option nat) (s : cstate) : cstate :=
  {| c_slot := slot; c_buf := buf; c_next := c_next s; c_active := c_active s; c_retired := c_retired s;
     c_freed := c_freed s; c_lock := c_lock s; c_readers := c_readers s |}.
Definition set_lists (retired freed : list nat) (s : cstate) : cstate :=
  {| c_slot := c_slot s; c_buf := c_buf s; c_next := c_next s; c_active := c_active s; c_retired := retired;
     c_freed := freed; c_lock := c_lock s; c_readers := c_readers s |}.
Definition bump_next (s : cstate) : cstate :=
  {| c_slot := c_slot s; c_buf := c_buf s; c_next := S (c_next s); c_active := c_active s; c_retired := c_retired s;
     c_freed := c_freed s; c_lock := c_lock s; c_readers := c_readers s |}.

(** one access; [None] when it is not enabled *)
Definition cstep (mm : memory_model) (a : caction) (s : cstate) : option cstate :=
  match a with
  | AEnter t =>
      match c_readers s !! t with
      | Some RIdle => Some (set_active (c_active s + 1) (set_reader t RIn s))
      | _ => None
      end
  | ALoad t =>
      match c_readers s !! t with
      | Some RIn => Some (set_reader t (RHold (c_slot s)) s)
      | _ => None
      end
  | ALeave t =>
      match c_readers s !! t with
      | Some (RHold v) =>
          Some (set_active (c_active s - 1) (set_reader t (if c_active s =? 1 then ROut v else RRun v) s))
      | _ => None
      end
  | AReclaim t =>
      match c_readers s !! t, c_lock s with
      | Some (ROut v), LNone => Some (set_lock LCheck (set_reader t (RRun v) s))
      | _, _ => None
      end
  | AReturn t =>
      match c_readers s !! t with
      | Some (RRun _) => Some (set_reader t RIdle s)
      | _ => None
      end
  | ALock =>
      match c_lock s with
      | LNone => Some (set_lock (LCopy (c_slot s)) s)
      | _ => None
      end
  | APublish =>
      match c_lock s with
      | LCopy old =>
          let s := set_lock (LPub old) s in
          Some (bump_next (match mm with
                           | SC => set_memory (c_next s) None s
                           | TSO => set_memory (c_slot s) (Some (c_next s)) s
                           end))
      | _ => None
      end
  | ADrain =>
      match c_buf s with
      | Some v => Some (set_memory v None s)
      | None => None
      end
  | ARetire =>
      match c_lock s with
      | LPub old =>
          if c_active s =? 0 then Some (set_lock (LFreeing [old]) s)
          else Some (set_lock LCheck (set_lists (old :: c_retired s) (c_freed s) s))
      | _ => None
      end
  | ACheck =>
      match c_lock s with
      | LCheck =>
          if c_active s =? 0 then Some (set_lock (LFreeing (c_retired s)) (set_lists [] (c_freed s) s))
          else Some (set_lock (LFreeing []) s)
      | _ => None
      end
  | AFreeOne =>
      match c_lock s with
      | LFreeing (v :: l) => Some (set_lock (LFreeing l) (set_lists (c_retired s) (v :: c_freed s) s))
      | _ => None
      end
  | AUnlock =>
      match c_lock s, c_buf s with
      | LFreeing [], None => Some (set_lock LNone s)
      | _, _ => None
      end
  end.

Fixpoint crun (mm : memory_model) (acts : list caction) (s : cstate) : option cstate :=
  match acts with
  | [] => Some s
  | a :: acts => match cstep mm a s with Some s' => crun mm acts s' | None => None end
  end.

(** [n] threads, the first chain published *)
Definition cstart (n : nat) : cstate :=
  {| c_slot := 0; c_buf := None; c_next := 1; c_active := 0; c_retired := []; c_freed := []; c_lock := LNone;
     c_readers := replicate n RIdle |}.

Inductive creach (mm : memory_model) (n : nat) : cstate -> Prop :=
| creach_start : creach mm n (cstart n)
| creach_step s a s' : creach mm n s -> cstep mm a s = Some s' -> creach mm n s'.

Lemma crun_reach mm n acts s s' : creach mm n s -> crun mm acts s = Some s' -> creach mm n s'.
Proof.
  revert s. induction acts as [|a acts IH]; intros s Hs; cbn [crun]; [by intros [= <-] |].
  destruct (cstep mm a s) as [s1|] eqn:E; [| done]. apply IH. by eapply creach_step.
Qed.

(** ** The invariant of sequentially consistent runs *)
Definition inside (r : reader) : Z := match r with RIn | RHold _ => 1 | _ => 0 end.
Definition count_inside (l : list reader) : Z := foldr (fun r n => inside r + n) 0 l.

Lemma count_insert l t r r' :
  l !! t = Some r -> count_inside (<[t := r']> l) = count_inside l - inside r + inside r'.
Proof.
  revert t. induction l as [|x l IH]; intros t; [done |]. destruct t as [|t]; cbn.
  - intros [= ->]. lia.
  - intros E. change (foldr (fun r n => inside r + n) 0 (<[t:=r']> l)) with (count_inside (<[t:=r']> l)).
    rewrite (IH t E). unfold count_inside. lia.
Qed.

Lemma count_inside_nonneg l : 0 <= count_inside l.
Proof. induction l as [|r l IH]; cbn; [lia |]. unfold count_inside in IH. destruct r; cbn; lia. Qed.

Lemma count_zero l t r : count_inside l = 0 -> l !! t = Some r -> inside r = 0.
Proof.
  revert t. induction l as [|x l IH]; intros t; [done |].
  cbn. change (foldr (fun r n => inside r + n) 0 l) with (count_inside l). pose proof (count_inside_nonneg l).
  assert (0 <= inside x) by (destruct x; cbn; lia). destruct t as [|t]; cbn.
  - intros E [= <-]. lia.
  - intros E. apply IH. lia.
Qed.

(** the chains a lock holder is about to free or to retire *)
Definition doomed (k : lock_state) : list nat :=
  match k with
  | LPub old => [old]
  | LFreeing l => l
  | _ => []
  end.

Record csafe (s : cstate) : Prop := {
  cs_buf : c_buf s = None;
  cs_count : c_active s = count_inside (c_readers s);
  cs_next : (c_slot s < c_next s)%nat;
  cs_old : forall v, v ∈ c_retired s ++ c_freed s ++ doomed (c_lock s) -> v <> c_slot s /\ (v < c_next s)%nat;
  cs_copy : forall old, c_lock s = LCopy old -> old = c_slot s;
  cs_hold : forall t v, c_readers s !! t = Some (RHold v) -> v ∉ c_freed s;
  cs_freeing : forall t v l, c_readers s !! t = Some (RHold v) -> c_lock s = LFreeing l -> v ∉ l;
}.

Lemma csafe_start n : csafe (cstart n).
Proof.
  constructor; cbn; try done; try lia.
  - induction n as [|n IH]; cbn; [done |]. unfold count_inside in *. lia.
  - intros v Hv. by apply elem_of_nil in Hv.
  - intros t v H. apply lookup_replicate in H as [? _]. done.
Qed.

(** moving a reader between states that hold no chain, or to the current one *)
Lemma csafe_reader s t r r' :
  csafe s -> c_readers s !! t = Some r ->
  (forall v, r' = RHold v -> v = c_slot s) ->
  csafe (set_active (c_active s - inside r + inside r') (set_reader t r' s)).
Proof.
  intros [Hb Hc Hn Ho Hcp Hh Hf] Ht Hv. constructor; cbn; try done.
  - rewrite (count_insert _ _ _ _ Ht). lia.
  - intros t' v. rewrite list_lookup_insert_Some. intros [(_ & -> & _) | (_ & Ht')]; [| by eapply Hh].
    rewrite (Hv v eq_refl). intros Hin. apply (Ho (c_slot s)); [| done].
    apply elem_of_app. right. apply elem_of_app. by left.
  - intros t' v l. rewrite list_lookup_insert_Some. intros [(_ & -> & _) | (_ & Ht')] Hl; [| by eapply Hf].
    rewrite (Hv v eq_refl). intros Hin. apply (Ho (c_slot s)); [| done].
    rewrite Hl. apply elem_of_app. right. apply elem_of_app. by right.
Qed.

Lemma csafe_reader_same s t r r' :
  csafe s -> c_readers s !! t = Some r -> inside r = inside r' -> (forall v, r' = RHold v -> v = c_slot s) ->
  csafe (set_reader t r' s).
Proof.
  intros Hs Ht Hi Hv. pose proof (csafe_reader s t r r' Hs Ht Hv) as H. rewrite Hi, Z.sub_add in H.
  by destruct s.
Qed.

Lemma csafe_step s a s' : csafe s -> cstep SC a s = Some s' -> csafe s'.
Proof.
  intros Hs. pose proof Hs as [Hb Hc Hn Ho Hcp Hh Hf]. destruct a as [t|t|t|t|t| | | | | | |]; cbn [cstep].
  - destruct (c_readers s !! t) as [[]|] eqn:Et; try done. intros [= <-].
    pose proof (csafe_reader s t RIdle RIn Hs Et ltac:(done)) as H. cbn [inside] in H. by rewrite Z.sub_0_r in H.
  - destruct (c_readers s !! t) as [[]|] eqn:Et; try done. intros [= <-].
    apply (csafe_reader_same s t RIn); [done | done | done |]. by intros v [= ->].
  - destruct (c_readers s !! t) as [[| |v| |]|] eqn:Et; try done. intros [= <-].
    destruct (c_active s =? 1).
    + pose proof (csafe_reader s t (RHold v) (ROut v) Hs Et ltac:(done)) as H. cbn [inside] in H. by rewrite Z.add_0_r in H.
    + pose proof (csafe_reader s t (RHold v) (RRun v) Hs Et ltac:(done)) as H. cbn [inside] in H. by rewrite Z.add_0_r in H.
  - destruct (c_readers s !! t) as [[| | |v|]|] eqn:Et; try done. destruct (c_lock s) eqn:El; try done. intros [= <-].
    destruct (csafe_reader_same s t (ROut v) (RRun v) Hs Et eq_refl ltac:(done)) as [Gb Gc Gn Go Gcp Gh Gf].
    constructor; cbn in *; try done; by rewrite El in Go.
  - destruct (c_readers s !! t) as [[| | | |v]|] eqn:Et; try done. intros [= <-].
    by apply (csafe_reader_same s t (RRun v)).
  - destruct (c_lock s) eqn:El; try done. intros [= <-]. constructor; cbn; try done. by intros old [= ->].
  - destruct (c_lock s) as [|old| | |] eqn:El; try done. intros [= <-].
    pose proof (Hcp old eq_refl) as ->.
    constructor; cbn; try done; try lia.
    intros v. rewrite !elem_of_app, list_elem_of_singleton. intros [Hv | [Hv | ->]]; [| | lia];
      (destruct (Ho v) as [_ ?]; [set_solver | lia]).
  - by rewrite Hb.
  - destruct (c_lock s) as [| |old| |] eqn:El; try done. destruct (c_active s =? 0) eqn:E0; zb; intros [= <-].
    + constructor; cbn; try done. intros t v l Ht [= <-]. rewrite E0 in Hc.
      pose proof (count_zero _ _ _ (eq_sym Hc) Ht) as Hin. done.
    + constructor; cbn; try done. intros v Hv. apply Ho. cbn [doomed]. set_solver.
  - destruct (c_lock s) eqn:El; try done. destruct (c_active s =? 0) eqn:E0; zb; intros [= <-].
    + constructor; cbn; try done.
      * intros v Hv. apply Ho. cbn [doomed]. set_solver.
      * intros t v l Ht [= <-]. rewrite E0 in Hc. pose proof (count_zero _ _ _ (eq_sym Hc) Ht) as Hin. done.
    + constructor; cbn; try done. intros t v l _ [= <-]. by intros ?%elem_of_nil.
  - destruct (c_lock s) as [| | | |[|v l]] eqn:El; try done. intros [= <-]. constructor; cbn; try done.
    + intros v' Hv'. apply Ho. cbn [doomed]. set_solver.
    + intros t v' Ht Hin. apply elem_of_cons in Hin as [-> | Hin]; [| by eapply Hh].
      eapply Hf; [exact Ht | done |]. apply elem_of_cons. by left.
    + intros t v' l' Ht [= <-] Hin. eapply Hf; [exact Ht | done |]. apply elem_of_cons. by right.
  - destruct (c_lock s) as [| | | |[|v l]] eqn:El; try done. rewrite Hb. intros [= <-]. constructor; cbn; try done.
Qed.

(** ** Properties *)

(** C26: if the accesses were sequentially consistent no thread inside a
    lookup would ever hold a chain that has been freed, whatever the
    interleaving of any number of lookups with the writers and with the
    reclaiming of the last reader. *)
Theorem lookup_safe_sc n s t v :
  creach SC n s -> c_readers s !! t = Some (RHold v) -> v ∉ c_freed s.
Proof.
  intros Hr. assert (Hs : csafe s).
  { induction Hr as [|s a s' _ IH E]; [apply csafe_start | by eapply csafe_step]. }
  by apply (cs_hold s Hs).
Qed.

(** two readers, one of which holds the old chain while the writer retires it *)
Definition sc_trace : list caction :=
  [AEnter 0; ALoad 0; ALock; APublish; ARetire; ACheck; AEnter 1; ALoad 1; AUnlock].
Definition sc_state : cstate := default (cstart 0) (crun SC sc_trace (cstart 2)).

Lemma lookup_safe_sc_witness : 0%nat ∉ c_freed sc_state.
Proof.
  apply (lookup_safe_sc 2 sc_state 0).
  - apply (crun_reach SC 2 sc_trace (cstart 2)); [constructor | vm_compute; reflexivity].
  - vm_compute. reflexivity.
Defined.

(** With the release store and acquire load the code uses, the test of
    active_readers can be done before the new chain is visible: the writer
    reads zero, a reader enters and loads the old chain, and the writer frees
    it under the reader. *)
Theorem lookup_unsafe_tso :
  exists s t v, creach TSO 1 s /\ c_readers s !! t = Some (RHold v) /\ v ∈ c_freed s.
Proof.
  exists (default (cstart 0) (crun TSO [ALock; APublish; ARetire; AEnter 0; ALoad 0; AFreeOne] (cstart 1))), 0%nat, 0%nat.
  split; [| split; [vm_compute; reflexivity | apply list_elem_of_singleton; reflexivity]].
  apply (crun_reach TSO 1 [ALock; APublish; ARetire; AEnter 0; ALoad 0; AFreeOne] (cstart 1)); [constructor | vm_compute; reflexivity].
Qed.

(** Leaving the lookup ends the protection of the route, not of its use:
    even under sequential consistency the finalizer of a route can have run
    while the handler it was looked up for is still running on its user data. *)
Theorem handler_outlives_finalizer :
  exists s t v, creach SC 1 s /\ c_readers s !! t = Some (RRun v) /\ v ∈ c_freed s.
Proof.
  exists (default (cstart 0) (crun SC [AEnter 0; ALoad 0; ALeave 0; ALock; APublish; ARetire; AFreeOne; AUnlock; AReclaim 0] (cstart 1))), 0%nat, 0%nat.
  split; [| split; [vm_compute; reflexivity | apply list_elem_of_singleton; reflexivity]].
  apply (crun_reach SC 1 [AEnter 0; ALoad 0; ALeave 0; ALock; APublish; ARetire; AFreeOne; AUnlock; AReclaim 0] (cstart 1));
    [constructor | vm_compute; reflexivity].
Qed.
