(* ===== verification/Scheduler.v ===== *)
(** * Scheduler: asynchronous calls on coroutines (src/scheduler.c)

    A call is an object of the scheduler's arena; the ready queue is linked
    through the [next_ready] fields of the calls.  Of coroutines this file has
    the state machine (create, resume, yield, status, destroy); that the library
    of include/minicoro.h behaves like this is scheduler_coroutines_sound of
    MinicoroProps.v.  The handler of the embedding program is a parameter,
    [segment]: what it does from one resume to the next yield or to its return.
    The completion callback, also a parameter, acts on a client state [X] and
    the heap. *)

From stdpp Require Import strings.
From S2P Require Import Prelude Words CString Protocol Memory Payload Arena.
#[global] Open Scope Z_scope.

(** ** Coroutines (include/minicoro.h) *)
Inductive mco_state := MCO_DEAD | MCO_NORMAL | MCO_RUNNING | MCO_SUSPENDED.
Inductive mco_result :=
| MCO_SUCCESS
| MCO_GENERIC_ERROR
| MCO_INVALID_POINTER
| MCO_INVALID_COROUTINE
| MCO_NOT_SUSPENDED
| MCO_NOT_RUNNING
| MCO_MAKE_CONTEXT_ERROR
| MCO_SWITCH_CONTEXT_ERROR
| MCO_NOT_ENOUGH_SPACE
| MCO_OUT_OF_MEMORY
| MCO_INVALID_ARGUMENTS
| MCO_INVALID_OPERATION
| MCO_STACK_OVERFLOW.

#[global] Instance mco_state_eq_dec : EqDecision mco_state.
Proof. solve_decision. Defined.

Definition mco_result_description (r : mco_result) : list Z :=
  match r with
  | MCO_SUCCESS => cstring "No error"
  | MCO_GENERIC_ERROR => cstring "Generic error"
  | MCO_INVALID_POINTER => cstring "Invalid pointer"
  | MCO_INVALID_COROUTINE => cstring "Invalid coroutine"
  | MCO_NOT_SUSPENDED => cstring "Coroutine not suspended"
  | MCO_NOT_RUNNING => cstring "Coroutine not running"
  | MCO_MAKE_CONTEXT_ERROR => cstring "Make context error"
  | MCO_SWITCH_CONTEXT_ERROR => cstring "Switch context error"
  | MCO_NOT_ENOUGH_SPACE => cstring "Not enough space"
  | MCO_OUT_OF_MEMORY => cstring "Out of memory"
  | MCO_INVALID_ARGUMENTS => cstring "Invalid arguments"
  | MCO_INVALID_OPERATION => cstring "Invalid operation"
  | MCO_STACK_OVERFLOW => cstring "Stack overflow"
  end.

(** [co_steps]: how often it has been resumed *)
Record mco_coro := { co_block : Z; co_state : mco_state; co_steps : nat }.

Definition mco_status (co : option mco_coro) : mco_state :=
  match co with Some c => co_state c | None => MCO_DEAD end.

Section Coro.
Context `{PP : Pages P} (coro_size : Z).

Definition mco_create (w : P) : mco_result * option mco_coro * P :=
  match pages_alloc coro_size w with
  | (None, w) => (MCO_OUT_OF_MEMORY, None, w)
  | (Some b, w) => (MCO_SUCCESS, Some {| co_block := b; co_state := MCO_SUSPENDED; co_steps := 0 |}, w)
  end.

Definition mco_destroy (co : mco_coro) (w : P) : mco_result * P :=
  match co_state co with
  | MCO_SUSPENDED | MCO_DEAD => (MCO_SUCCESS, pages_free (co_block co) coro_size w)
  | _ => (MCO_INVALID_OPERATION, w)
  end.
End Coro.

(** ** Calls *)
Record wirecall_call := {
  c_co : option mco_coro;
  c_call_id : Z;
  c_proc_id : Z;
  c_handler : Z;
  c_handler_data : Z;
  c_payload : option Z;
  c_payload_len : Z;
  c_args : value_array;
  c_response : wirecall_writer;
  c_result : Z;
  c_error : list Z;
  c_completed : bool;
  c_done : bool;
  c_done_data : Z;
  c_next_ready : option Z;
}.

Definition zero_call : wirecall_call :=
  {| c_co := None; c_call_id := 0; c_proc_id := 0; c_handler := 0; c_handler_data := 0; c_payload := None;
     c_payload_len := 0; c_args := no_values; c_response := wirecall_writer_init; c_result := 0; c_error := [];
     c_completed := false; c_done := false; c_done_data := 0; c_next_ready := None |}.

Definition set_next_ready (n : option Z) (c : wirecall_call) : wirecall_call :=
  {| c_co := c_co c; c_call_id := c_call_id c; c_proc_id := c_proc_id c; c_handler := c_handler c;
     c_handler_data := c_handler_data c; c_payload := c_payload c; c_payload_len := c_payload_len c; c_args := c_args c;
     c_response := c_response c; c_result := c_result c; c_error := c_error c; c_completed := c_completed c;
     c_done := c_done c; c_done_data := c_done_data c; c_next_ready := n |}.
Definition set_co (co : option mco_coro) (c : wirecall_call) : wirecall_call :=
  {| c_co := co; c_call_id := c_call_id c; c_proc_id := c_proc_id c; c_handler := c_handler c;
     c_handler_data := c_handler_data c; c_payload := c_payload c; c_payload_len := c_payload_len c; c_args := c_args c;
     c_response := c_response c; c_result := c_result c; c_error := c_error c; c_completed := c_completed c;
     c_done := c_done c; c_done_data := c_done_data c; c_next_ready := c_next_ready c |}.
Definition set_payload (p : option Z) (c : wirecall_call) : wirecall_call :=
  {| c_co := c_co c; c_call_id := c_call_id c; c_proc_id := c_proc_id c; c_handler := c_handler c;
     c_handler_data := c_handler_data c; c_payload := p; c_payload_len := c_payload_len c; c_args := c_args c;
     c_response := c_response c; c_result := c_result c; c_error := c_error c; c_completed := c_completed c;
     c_done := c_done c; c_done_data := c_done_data c; c_next_ready := c_next_ready c |}.
Definition set_args (a : value_array) (c : wirecall_call) : wirecall_call :=
  {| c_co := c_co c; c_call_id := c_call_id c; c_proc_id := c_proc_id c; c_handler := c_handler c;
     c_handler_data := c_handler_data c; c_payload := c_payload c; c_payload_len := c_payload_len c; c_args := a;
     c_response := c_response c; c_result := c_result c; c_error := c_error c; c_completed := c_completed c;
     c_done := c_done c; c_done_data := c_done_data c; c_next_ready := c_next_ready c |}.
Definition set_response (w : wirecall_writer) (c : wirecall_call) : wirecall_call :=
  {| c_co := c_co c; c_call_id := c_call_id c; c_proc_id := c_proc_id c; c_handler := c_handler c;
     c_handler_data := c_handler_data c; c_payload := c_payload c; c_payload_len := c_payload_len c; c_args := c_args c;
     c_response := w; c_result := c_result c; c_error := c_error c; c_completed := c_completed c;
     c_done := c_done c; c_done_data := c_done_data c; c_next_ready := c_next_ready c |}.
(** [result], [error] and [completed] at the end of a call *)
Definition set_outcome (result : Z) (error : list Z) (c : wirecall_call) : wirecall_call :=
  {| c_co := c_co c; c_call_id := c_call_id c; c_proc_id := c_proc_id c; c_handler := c_handler c;
     c_handler_data := c_handler_data c; c_payload := c_payload c; c_payload_len := c_payload_len c; c_args := c_args c;
     c_response := c_response c; c_result := result; c_error := error; c_completed := true;
     c_done := c_done c; c_done_data := c_done_data c; c_next_ready := c_next_ready c |}.

Definition ERROR_SIZE : Z := 160.
Definition WIRECALL_CALL_ARENA_CAPACITY : Z := 262144.
Definition sizeof_wirecall_call : Z := 296.
Definition sizeof_wirecall_scheduler : Z := 64.

(** accessors of the public interface; NULL is [None] *)
Definition wirecall_call_result (c : option wirecall_call) : Z := match c with Some c => c_result c | None => -1 end.
Definition wirecall_call_error (c : option wirecall_call) : list Z :=
  match c with
  | Some c => match c_error c with [] => cstring "procedure failed" | e => e end
  | None => cstring "procedure failed"
  end.
Definition wirecall_call_id (c : option wirecall_call) : Z := match c with Some c => c_call_id c | None => 0 end.
Definition wirecall_call_proc_id (c : option wirecall_call) : Z := match c with Some c => c_proc_id c | None => 0 end.
Definition wirecall_call_response (c : option wirecall_call) : option wirecall_writer :=
  match c with Some c => Some (c_response c) | None => None end.

Section Scheduler.
Context `{HH : Host} `{HP : Heap W} `{PP : Pages P} {X : Type}.
Variable coro_size : Z.
(** the handler of the embedding program: what its [n]-th resume does to the
    response writer and the heap, and its result when it returns *)
Variable segment : forall (handler data call_id proc_id : Z) (args : value_array) (n : nat),
  wirecall_writer -> W -> option Z * wirecall_writer * W.
(** the completion callback: it reads the call and acts on the client *)
Variable done_cb : wirecall_call -> Z -> X -> W -> X * W.

Record sched := {
  s_head : option Z;
  s_tail : option Z;
  s_arena : @arena_state wirecall_call;
  s_heap : W;
  s_pages : P;
  s_client : X;
  (** the calls whose callback has run, in order *)
  s_trace : list wirecall_call;
}.

Definition set_queue (h t : option Z) (s : sched) : sched :=
  {| s_head := h; s_tail := t; s_arena := s_arena s; s_heap := s_heap s; s_pages := s_pages s; s_client := s_client s; s_trace := s_trace s |}.
Definition set_arena (a : @arena_state wirecall_call) (s : sched) : sched :=
  {| s_head := s_head s; s_tail := s_tail s; s_arena := a; s_heap := s_heap s; s_pages := s_pages s; s_client := s_client s; s_trace := s_trace s |}.
Definition set_heap (h : W) (s : sched) : sched :=
  {| s_head := s_head s; s_tail := s_tail s; s_arena := s_arena s; s_heap := h; s_pages := s_pages s; s_client := s_client s; s_trace := s_trace s |}.
Definition set_spages (p : P) (s : sched) : sched :=
  {| s_head := s_head s; s_tail := s_tail s; s_arena := s_arena s; s_heap := s_heap s; s_pages := p; s_client := s_client s; s_trace := s_trace s |}.
Definition set_client (x : X) (s : sched) : sched :=
  {| s_head := s_head s; s_tail := s_tail s; s_arena := s_arena s; s_heap := s_heap s; s_pages := s_pages s; s_client := x; s_trace := s_trace s |}.

Definition add_trace (c : wirecall_call) (s : sched) : sched :=
  {| s_head := s_head s; s_tail := s_tail s; s_arena := s_arena s; s_heap := s_heap s; s_pages := s_pages s;
     s_client := s_client s; s_trace := s_trace s ++ [c] |}.

(** access to a call: [UB] unless the pointer is to an object in use *)
Definition get_call (p : Z) : M sched wirecall_call := fun s =>
  match (s_arena s).2 !! p with
  | Some (Used c) => (Ok c, s)
  | _ => (UB, s)
  end.
Definition put_call (p : Z) (c : wirecall_call) : M sched unit := fun s =>
  match (s_arena s).2 !! p with
  | Some (Used _) => (Ok tt, set_arena ((s_arena s).1, <[p := Used c]> (s_arena s).2) s)
  | _ => (UB, s)
  end.
Definition on_heap {A} (m : M W A) : M sched A := fun s =>
  let '(r, h) := m (s_heap s) in (r, set_heap h s).
Definition on_arena {A} (m : M (@arena_state wirecall_call) A) : M sched A := fun s =>
  let '(r, a) := m (s_arena s) in (r, set_arena a s).

Definition call_free (p : option Z) : M sched unit :=
  match p with
  | None => ret tt
  | Some p =>
      c <- get_call p ;;
      (match c_co c with
       | Some co => modify (fun s => set_spages (mco_destroy coro_size co (s_pages s)).2 s)
       | None => ret tt
       end) ;;;
      on_heap (wirecall_values_free (va_ptr (c_args c)) (va_cells (c_args c))) ;;;
      on_heap (modify (fun h => (wirecall_writer_free (c_response c) h).2)) ;;;
      on_heap (modify (heap_free_opt (c_payload c))) ;;;
      on_arena (wirecall_fixed_arena_free (Some p))
  end.

Definition enqueue (p : Z) : M sched unit :=
  c <- get_call p ;;
  put_call p (set_next_ready None c) ;;;
  tail <- gets s_tail ;;
  (match tail with
   | Some t => ct <- get_call t ;; put_call t (set_next_ready (Some p) ct)
   | None => modify (fun s => set_queue (Some p) (s_tail s) s)
   end) ;;;
  modify (fun s => set_queue (s_head s) (Some p) s).

Definition dequeue : M sched (option Z) :=
  head <- gets s_head ;;
  match head with
  | None => ret None
  | Some p =>
      c <- get_call p ;;
      modify (fun s => set_queue (c_next_ready c) (match c_next_ready c with None => None | Some _ => s_tail s end) s) ;;;
      put_call p (set_next_ready None c) ;;;
      ret (Some p)
  end.

(** the end of call_entry, once the handler has returned [r] *)
Definition call_entry_end (r : Z) (c : wirecall_call) : wirecall_call :=
  set_outcome r
    (match c_error c with
     | [] => if r =? 0 then [] else snprintf_s ERROR_SIZE (cstring "procedure returned " ++ decimal r)
     | e => e
     end) c.

(** [mco_resume] of the coroutine of a call, and what call_entry does in it *)
Definition mco_resume (p : Z) : M sched mco_result :=
  c <- get_call p ;;
  match c_co c with
  | None => ret MCO_INVALID_COROUTINE
  | Some co =>
      match co_state co with
      | MCO_SUSPENDED => fun s =>
          let '(r, w, h) := segment (c_handler c) (c_handler_data c) (c_call_id c) (c_proc_id c) (c_args c) (co_steps co)
                              (c_response c) (s_heap s) in
          let co st := Some {| co_block := co_block co; co_state := st; co_steps := S (co_steps co) |} in
          let c := set_response w c in
          let c := match r with
                   | None => set_co (co MCO_SUSPENDED) c
                   | Some r => set_co (co MCO_DEAD) (call_entry_end r c)
                   end in
          (put_call p c ;;; ret MCO_SUCCESS) (set_heap h s)
      | _ => ret MCO_NOT_SUSPENDED
      end
  end.

Definition call_resume (p : Z) : M sched bool :=
  rc <- mco_resume p ;;
  match rc with
  | MCO_SUCCESS => ret true
  | rc =>
      c <- get_call p ;;
      put_call p (set_outcome (-1) (snprintf_s ERROR_SIZE (cstring "coroutine resume failed: " ++ mco_result_description rc)) c) ;;;
      ret false
  end.

(** the call of the completion callback *)
Definition run_done (p : Z) : M sched unit :=
  c <- get_call p ;;
  fun s => let '(x, h) := done_cb c (c_done_data c) (s_client s) (s_heap s) in
           (Ok tt, add_trace c (set_client x (set_heap h s))).

Definition call_finish (p : Z) : M sched unit :=
  c <- get_call p ;;
  (if c_done c then run_done p else ret tt) ;;;
  call_free (Some p).

(** both failures of submit after the call exists: the callback is called
    without the test call_finish makes *)
Definition submit_failed (p : Z) (message : list Z) : M sched unit :=
  c <- get_call p ;;
  put_call p (set_outcome (-1) (snprintf_s ERROR_SIZE message) c) ;;;
  (if c_done c then run_done p else ub) ;;;
  call_free (Some p).

(** the fields submit fills in *)
Definition new_call (call_id proc_id handler handler_data payload_len : Z) (has_done : bool) (done_data : Z) : wirecall_call :=
  {| c_co := None; c_call_id := call_id; c_proc_id := proc_id; c_handler := handler; c_handler_data := handler_data;
     c_payload := None; c_payload_len := payload_len; c_args := no_values; c_response := wirecall_writer_init;
     c_result := 0; c_error := []; c_completed := false; c_done := has_done; c_done_data := done_data;
     c_next_ready := None |}.

(** [if (payload_len > 0)]: the call gets a copy of the payload *)
Definition copy_payload (p : Z) (payload : option (list Z)) (payload_len : Z) : M sched (option (list Z)) :=
  if 0 <? payload_len then
    block <- (fun s => let '(b, h) := heap_alloc payload_len (s_heap s) in (Ok b, set_heap h s)) ;;
    match block with
    | None => call_free (Some p) ;;; fail
    | Some b =>
        bytes <- lift (buffer_bytes payload payload_len) ;;
        c <- get_call p ;;
        put_call p (set_payload (Some b) c) ;;;
        ret (Some bytes)
    end
  else ret None.

(** the rest of submit, once the arguments are decoded *)
Definition start_call (p : Z) (a : value_array) : M sched unit :=
  c <- get_call p ;;
  put_call p (set_args a c) ;;;
  made <- (fun s => let '(rc, co, w) := mco_create coro_size (s_pages s) in (Ok (rc, co), set_spages w s)) ;;
  match made with
  | (MCO_SUCCESS, co) =>
      c <- get_call p ;;
      put_call p (set_co co c) ;;;
      enqueue p
  | (rc, _) => submit_failed p (cstring "coroutine create failed: " ++ mco_result_description rc)
  end.

Definition wirecall_scheduler_submit (call_id proc_id : Z) (handler : option Z) (handler_data : Z)
    (payload : option (list Z)) (payload_len : Z) (has_done : bool) (done_data : Z) : M sched unit :=
  match handler with
  | None => fail
  | Some handler =>
      if (match payload with None => 0 <? payload_len | Some _ => false end) then fail
      else
        slot <- on_arena (wirecall_fixed_arena_alloc zero_call) ;;
        match slot with
        | None => fail
        | Some p =>
            put_call p (new_call call_id proc_id handler handler_data payload_len has_done done_data) ;;;
            copied <- copy_payload p payload payload_len ;;
            args <- attempt (on_heap (wirecall_payload_decode copied payload_len true true)) ;;
            match args with
            | None => submit_failed p (cstring "malformed payload")
            | Some a => start_call p a
            end
        end
  end.

(** one turn of the loop of run_ready; [false] when the queue is empty *)
Definition run_one : M sched bool :=
  next <- dequeue ;;
  match next with
  | None => ret false
  | Some p =>
      call_resume p ;;;
      c <- get_call p ;;
      (if negb (c_completed c) && bool_decide (mco_status (c_co c) = MCO_SUSPENDED) then enqueue p
       else call_finish p) ;;;
      ret true
  end.

(** [fuel]: the number of turns; [None] when it is spent with work left *)
Fixpoint run_ready (fuel : nat) : M sched (option unit) :=
  match fuel with
  | O => ret None
  | S fuel => more <- run_one ;; (if more then run_ready fuel else ret (Some tt))
  end.

Fixpoint destroy_loop (fuel : nat) : M sched unit :=
  match fuel with
  | O => ub
  | S fuel =>
      next <- dequeue ;;
      match next with
      | None => ret tt
      | Some p => call_free (Some p) ;;; destroy_loop fuel
      end
  end.

Definition wirecall_scheduler_init (x : X) (h : W) (w : P) : option (Z * sched) * (W * P) :=
  match heap_calloc 1 sizeof_wirecall_scheduler h with
  | (None, h) => (None, (h, w))
  | (Some block, h) =>
      match wirecall_fixed_arena_init sizeof_wirecall_call WIRECALL_CALL_ARENA_CAPACITY w with
      | (Ok _, (a, w)) =>
          (Some (block, {| s_head := None; s_tail := None; s_arena := a; s_heap := h; s_pages := w; s_client := x;
                           s_trace := [] |}), (h, w))
      | (_, (_, w)) => (None, (heap_free block h, w))
      end
  end.

(** the queue holds at most as many calls as the arena has slots *)
Definition wirecall_scheduler_destroy (block : Z) : M sched unit :=
  destroy_loop (S (Z.to_nat WIRECALL_CALL_ARENA_CAPACITY)) ;;;
  modify (fun s => let '(a, w) := wirecall_fixed_arena_destroy (s_arena s) (s_pages s) in set_spages w (set_arena a s)) ;;;
  on_heap (modify (heap_free block)).
End Scheduler.
Arguments sched : clear implicits.

(** ** The invariant *)

Definition call_blocks (c : wirecall_call) : list Z :=
  array_blocks (c_args c) ++ option_list (w_data (c_response c)) ++ option_list (c_payload c).
Definition call_pages (size : Z) (c : wirecall_call) : list (Z * Z) :=
  match c_co c with Some co => [(co_block co, size)] | None => [] end.

Definition call_wf (c : wirecall_call) : Prop :=
  array_wf (c_args c) /\ writer_ok (c_response c) /\ mco_status (c_co c) <> MCO_RUNNING /\ mco_status (c_co c) <> MCO_NORMAL.
Definition call_ready (c : wirecall_call) : Prop :=
  c_completed c = false /\ mco_status (c_co c) = MCO_SUSPENDED /\ c_done c = true.

(** the queue threaded through the calls *)
Fixpoint queue_seg (m : gmap Z wirecall_call) (head : option Z) (q : list Z) : Prop :=
  match q with
  | [] => head = None
  | p :: q => head = Some p /\ exists c, m !! p = Some c /\ queue_seg m (c_next_ready c) q
  end.

Lemma queue_seg_insert m head q p c :
  p ∉ q -> queue_seg m head q -> queue_seg (<[p := c]> m) head q.
Proof.
  revert head. induction q as [|x q IH]; intros head Hp; cbn; [done |].
  apply not_elem_of_cons in Hp as [Hx Hp]. intros (-> & cx & Hl & Hs). split; [done |]. exists cx.
  rewrite lookup_insert_ne by done. split; [done | by apply IH].
Qed.

Lemma queue_seg_delete m head q p : p ∉ q -> queue_seg m head q -> queue_seg (delete p m) head q.
Proof.
  revert head. induction q as [|x q IH]; intros head Hp; cbn; [done |].
  apply not_elem_of_cons in Hp as [Hx Hp]. intros (-> & cx & Hl & Hs). split; [done |]. exists cx.
  rewrite lookup_delete_ne by done. split; [done | by apply IH].
Qed.

(** linking a new last element *)
Lemma queue_seg_snoc m head q t ct p c :
  NoDup (q ++ [t]) -> p ∉ q ++ [t] -> queue_seg m head (q ++ [t]) -> m !! t = Some ct -> m !! p = Some c ->
  c_next_ready c = None ->
  queue_seg (<[t := set_next_ready (Some p) ct]> m) head (q ++ [t; p]).
Proof.
  revert head. induction q as [|x q IH]; intros head Hn Hp; cbn.
  - intros (-> & c0 & Hl & _) Ht Hc Hcn. split; [done |]. exists (set_next_ready (Some p) ct).
    rewrite lookup_insert_eq. split; [done |]. cbn. split; [done |]. exists c.
    rewrite lookup_insert_ne by (intros ->; apply Hp; by left). done.
  - apply list.NoDup_cons in Hn as [Hx Hn]. apply not_elem_of_cons in Hp as [Hpx Hp].
    intros (-> & cx & Hl & Hs) Ht Hc Hcn. split; [done |]. exists cx.
    rewrite lookup_insert_ne; [split; [done | by apply IH] |]. intros ->. apply Hx. apply elem_of_app. right. by left.
Qed.

Section SchedulerFacts.
Context `{HH : Host} `{HP : Heap W} `{PP : Pages P} {X : Type}.
Variable coro_size : Z.
Variable segment : forall (handler data call_id proc_id : Z) (args : value_array) (n : nat),
  wirecall_writer -> W -> option Z * wirecall_writer * W.
Variable done_cb : wirecall_call -> Z -> X -> W -> X * W.
Hypothesis coro_size_pos : 0 < coro_size.
Hypothesis H64 : size_bits = 64.

(** handlers reach the heap only through the response writer, or leave it as
    they found it *)
Definition segment_lawful : Prop :=
  forall hd dt ci pi a n w h r w' h' base l,
    writer_ok w -> owns base (option_list (w_data w) ++ l) h -> segment hd dt ci pi a n w h = (r, w', h') ->
    writer_ok w' /\ owns base (option_list (w_data w') ++ l) h'.
Hypothesis Hsegment : segment_lawful.

(** the callback reads the call and keeps the client's own blocks in order *)
Variable client_blocks : X -> list Z.
Definition done_lawful : Prop :=
  forall c d x h x' h' base l,
    owns base (client_blocks x ++ l) h -> done_cb c d x h = (x', h') -> owns base (client_blocks x' ++ l) h'.
Hypothesis Hdone : done_lawful.

Implicit Types (s : sched W P X) (q extra : list Z) (p : Z) (c : wirecall_call).

Definition calls s : gmap Z wirecall_call := in_use (s_arena s).2.

(** [q]: the ready queue; [extra]: calls an operation is working on *)
Record sched_ok (base : gset Z) (pbase : gmap Z Z) (pl : list (Z * Z)) q extra s : Prop := {
  so_arena : arena_ok (s_arena s);
  so_dom : forall p, is_Some (calls s !! p) <-> p ∈ q ++ extra;
  so_nodup : NoDup (q ++ extra);
  so_seg : queue_seg (calls s) (s_head s) q;
  so_tail : s_tail s = list.last q;
  so_calls : forall p c, calls s !! p = Some c -> call_wf c;
  so_ready : forall p c, p ∈ q -> calls s !! p = Some c -> call_ready c;
  so_owns : owns base (collect call_blocks (calls s) ++ client_blocks (s_client s)) (s_heap s);
  so_pages : pages_own pbase (collect (call_pages coro_size) (calls s) ++ pl) (s_pages s);
}.

Lemma get_call_ok s p c : calls s !! p = Some c -> get_call p s = (Ok c, s).
Proof. unfold calls, get_call. intros Hc. apply in_use_lookup in Hc. by rewrite Hc. Qed.

(** storing a call: the arena keeps its shape and the map is updated *)
Definition with_call p c s : sched W P X := set_arena ((s_arena s).1, <[p := Used c]> (s_arena s).2) s.

Lemma put_call_ok s p c c0 : calls s !! p = Some c0 -> put_call p c s = (Ok tt, with_call p c s).
Proof. unfold calls, put_call. intros Hc. apply in_use_lookup in Hc. by rewrite Hc. Qed.

Lemma calls_with s p c : calls (with_call p c s) = <[p := c]> (calls s).
Proof. unfold calls, with_call. cbn. apply in_use_insert_used. Qed.

Lemma arena_with s p c c0 : calls s !! p = Some c0 -> arena_ok (s_arena s) -> arena_ok (s_arena (with_call p c s)).
Proof. intros Hc [fl Hwf]. exists fl. by eapply store_ok. Qed.

Lemma dom_with s p c c0 q0 : calls s !! p = Some c0 ->
  (forall x, is_Some (calls s !! x) <-> x ∈ q0) -> forall x, is_Some (calls (with_call p c s) !! x) <-> x ∈ q0.
Proof.
  intros Hc Hd x. rewrite calls_with, lookup_insert_is_Some, <- Hd. split.
  - intros [<- | [_ ?]]; [by rewrite Hc | done].
  - intros Hx. destruct (decide (p = x)); auto.
Qed.

(** a change of a call that is not queued, with what it changed of the heap and
    of the pages *)
Lemma with_call_ok base pbase pl q extra s p c c0 h w :
  sched_ok base pbase pl q extra s -> calls s !! p = Some c0 -> p ∉ q -> call_wf c ->
  (forall l, owns base (call_blocks c0 ++ l) (s_heap s) -> owns base (call_blocks c ++ l) h) ->
  (forall l, pages_own pbase (call_pages coro_size c0 ++ l) (s_pages s) -> pages_own pbase (call_pages coro_size c ++ l) w) ->
  sched_ok base pbase pl q extra (with_call p c (set_spages w (set_heap h s))).
Proof.
  intros [Ha Hd Hn Hs Ht Hc Hr Ho Hp] Hp0 Hpq Hwf Hown Hpown.
  pose proof (calls_with (set_spages w (set_heap h s)) p c) as Hcw. change (calls (set_spages w (set_heap h s))) with (calls s) in Hcw.
  constructor; rewrite ?Hcw; try done.
  - exact (arena_with (set_spages w (set_heap h s)) p c c0 Hp0 Ha).
  - intros y. rewrite lookup_insert_is_Some, <- Hd.
    split; [intros [<- | [_ ?]]; [by rewrite Hp0 | done] | intros Hx; destruct (decide (p = y)); auto].
  - by apply queue_seg_insert.
  - intros y cy. rewrite lookup_insert_Some. intros [[<- <-] | [_ Hy]]; [done | by eapply Hc].
  - intros y cy Hyq. rewrite lookup_insert_Some. intros [[<- <-] | [_ Hy]]; [done | by eapply Hr].
  - cbn [with_call set_arena set_spages set_heap s_heap s_client].
    rewrite (collect_lookup call_blocks (calls s) p c0 Hp0), <- app_assoc in Ho.
    rewrite (collect_insert call_blocks), <- app_assoc. by apply Hown.
  - cbn [with_call set_arena set_spages set_heap s_pages].
    rewrite (collect_lookup (call_pages coro_size) (calls s) p c0 Hp0), <- app_assoc in Hp.
    rewrite (collect_insert (call_pages coro_size)), <- app_assoc. by apply Hpown.
Qed.

Lemma lookup_with s p c c0 : calls s !! p = Some c0 -> calls (with_call p c s) !! p = Some c.
Proof. intros _. by rewrite calls_with, lookup_insert_eq. Qed.

Lemma collect_same {B} (f : wirecall_call -> list B) (m : gmap Z wirecall_call) p c c0 :
  m !! p = Some c0 -> f c = f c0 -> collect f (<[p := c]> m) ≡ₚ collect f m.
Proof. intros Hp Hf. rewrite (collect_insert f), (collect_lookup f m p c0 Hp). by rewrite Hf. Qed.

(** changing only the link of a call *)
Lemma relink_ok base pbase pl q extra s p c n hd tl q' :
  sched_ok base pbase pl q extra s -> calls s !! p = Some c ->
  queue_seg (<[p := set_next_ready n c]> (calls s)) hd q' -> tl = list.last q' ->
  forall extra', q' ++ extra' ≡ₚ q ++ extra ->
  (forall x cx, x ∈ q' -> calls s !! x = Some cx -> call_ready cx) ->
  sched_ok base pbase pl q' extra' (with_call p (set_next_ready n c) (set_queue hd tl s)).
Proof.
  intros [Ha Hd Hn Hs Ht Hc Hr Ho Hp] Hp0 Hseg -> extra' Hperm Hready.
  assert (Hcw : calls (with_call p (set_next_ready n c) (set_queue hd (list.last q') s)) = <[p := set_next_ready n c]> (calls s))
    by exact (calls_with (set_queue hd (list.last q') s) p (set_next_ready n c)).
  constructor; rewrite ?Hcw; try done.
  - exact (arena_with (set_queue hd (list.last q') s) p (set_next_ready n c) c Hp0 Ha).
  - intros y. rewrite Hperm, lookup_insert_is_Some, <- Hd.
    split; [intros [<- | [_ ?]]; [by rewrite Hp0 | done] | intros Hx; destruct (decide (p = y)); auto].
  - by rewrite Hperm.
  - intros y cy. rewrite lookup_insert_Some. intros [[<- <-] | [_ Hy]]; [exact (Hc p c Hp0) | by eapply Hc].
  - intros y cy Hyq. rewrite lookup_insert_Some. intros [[<- <-] | [_ Hy]]; [exact (Hready p c Hyq Hp0) | by eapply Hready].
  - by rewrite (collect_same call_blocks _ _ (set_next_ready n c) c).
  - eapply pages_own_perm; [| exact Hp]. by rewrite (collect_same (call_pages coro_size) _ _ (set_next_ready n c) c).
Qed.

Lemma dequeue_nil base pbase pl extra s : sched_ok base pbase pl [] extra s -> dequeue s = (Ok None, s).
Proof. intros [_ _ _ Hs _ _ _ _ _]. cbn in Hs. unfold dequeue, bind, gets. by rewrite Hs. Qed.

Lemma dequeue_cons base pbase pl p q extra s :
  sched_ok base pbase pl (p :: q) extra s ->
  exists s' c, dequeue s = (Ok (Some p), s') /\ sched_ok base pbase pl q (p :: extra) s' /\
    calls s !! p = Some c /\ calls s' = <[p := set_next_ready None c]> (calls s) /\
    s_client s' = s_client s /\ s_trace s' = s_trace s /\ s_heap s' = s_heap s.
Proof.
  intros Hok. pose proof Hok as [Ha Hd Hn Hs Ht Hc Hr Ho Hp]. cbn in Hs. destruct Hs as (Hh & c & Hpc & Hs).
  cbn [app] in Hn. apply list.NoDup_cons in Hn as [Hpn Hn].
  assert (Hpq : p ∉ q) by (intros Hin; apply Hpn; apply elem_of_app; by left).
  set (tl := match c_next_ready c with None => None | Some _ => s_tail s end).
  assert (Htl : tl = list.last q).
  { subst tl. rewrite Ht. destruct q as [|x q]; cbn in Hs; [by rewrite Hs |]. destruct Hs as [-> _]. done. }
  exists (with_call p (set_next_ready None c) (set_queue (c_next_ready c) tl s)), c.
  unfold dequeue, bind, gets. rewrite Hh, (get_call_ok s p c Hpc). unfold modify. fold tl.
  rewrite (put_call_ok (set_queue (c_next_ready c) tl s) p (set_next_ready None c) c) by exact Hpc.
  split; [done |]. split; [| split; [done |]; split; [| done]].
  - apply (relink_ok base pbase pl (p :: q) extra); try done.
    + by apply queue_seg_insert.
    + cbn [app]. by rewrite <- Permutation_middle.
    + intros x cx Hx. apply Hr. apply elem_of_cons. by right.
  - exact (calls_with (set_queue (c_next_ready c) tl s) p (set_next_ready None c)).
Qed.

Lemma enqueue_spec base pbase pl q p extra s c :
  sched_ok base pbase pl q (p :: extra) s -> calls s !! p = Some c -> call_ready c ->
  exists s', enqueue p s = (Ok tt, s') /\ sched_ok base pbase pl (q ++ [p]) extra s' /\
    (exists n, calls s' !! p = Some (set_next_ready n c)) /\ 
    (forall x cx, x <> p -> calls s !! x = Some cx -> exists n, calls s' !! x = Some (set_next_ready n cx)) /\
    s_client s' = s_client s /\ s_trace s' = s_trace s.
Proof.
  intros Hok Hpc Hrdy. pose proof Hok as [Ha Hd Hn Hs Ht Hc Hr Ho Hp].
  apply list.NoDup_app in Hn as (Hnq & Hdis & Hne). apply list.NoDup_cons in Hne as [Hpe Hne].
  assert (Hpq : p ∉ q) by (intros Hin; apply (Hdis p Hin); apply elem_of_cons; by left).
  set (c1 := set_next_ready None c). set (s1 := with_call p c1 s).
  assert (Hok1 : sched_ok base pbase pl q (p :: extra) s1).
  { assert (Hq : set_queue (s_head s) (s_tail s) s = s) by (by destruct s).
    subst s1 c1. rewrite <- Hq at 1. apply (relink_ok base pbase pl q (p :: extra)); try done. by apply queue_seg_insert. }
  assert (Hpc1 : calls s1 !! p = Some c1) by (subst s1; by rewrite calls_with, lookup_insert_eq).
  assert (Hready : forall x cx, x ∈ q ++ [p] -> calls s1 !! x = Some cx -> call_ready cx).
  { intros x cx Hx Hcx. apply elem_of_app in Hx as [Hx | Hx]; [exact (so_ready _ _ _ _ _ _ Hok1 x cx Hx Hcx) |].
    apply list_elem_of_singleton in Hx as ->. rewrite Hpc1 in Hcx. by injection Hcx as <-. }
  assert (Hperm : (q ++ [p]) ++ extra ≡ₚ q ++ p :: extra) by (by rewrite <- app_assoc).
  assert (Hother : forall x cx, x <> p -> calls s !! x = Some cx -> calls s1 !! x = Some cx).
  { intros x cx Hx Hcx. subst s1. by rewrite calls_with, lookup_insert_ne by done. }
  assert (Et : s_tail s1 = list.last q) by exact Ht.
  assert (Eh : s_head s1 = s_head s) by done.
  unfold enqueue, bind, gets. rewrite (get_call_ok s p c Hpc), (put_call_ok s p (set_next_ready None c) c Hpc). fold c1. fold s1.
  destruct q as [|q0 q' _] using rev_ind.
  - change (list.last []) with (@None Z) in Et. rewrite Et. unfold modify. eexists. split; [reflexivity |].
    assert (Ec : calls (set_queue (s_head (set_queue (Some p) (s_tail s1) s1)) (Some p) (set_queue (Some p) (s_tail s1) s1)) = calls s1) by done.
    split; [| split; [exists None; by rewrite Ec | split; [| done]]].
    + assert (Hid : with_call p (set_next_ready None c1) (set_queue (Some p) (Some p) s1) =
        set_queue (s_head (set_queue (Some p) (s_tail s1) s1)) (Some p) (set_queue (Some p) (s_tail s1) s1)).
      { pose proof Hpc1 as Hu. apply in_use_lookup in Hu.
        unfold with_call, set_arena, set_queue. cbn [s_head s_tail s_arena s_heap s_pages s_client s_trace].
        change (set_next_ready None c1) with c1. rewrite insert_id by exact Hu. by destruct (s_arena s1). }
      rewrite <- Hid. apply (relink_ok base pbase pl [] (p :: extra)); try done.
      cbn. split; [done |]. exists (set_next_ready None c1). rewrite lookup_insert_eq. done.
    + intros x cx Hx Hcx. exists (c_next_ready cx). rewrite Ec, (Hother x cx Hx Hcx). by destruct cx.
  - rewrite last_snoc in Et. rewrite Et.
    assert (Htin : is_Some (calls s1 !! q0)).
    { apply (so_dom _ _ _ _ _ _ Hok1). apply elem_of_app. left. apply elem_of_app. right. by left. }
    destruct Htin as [ct Hct]. rewrite (get_call_ok s1 q0 ct Hct), (put_call_ok s1 q0 (set_next_ready (Some p) ct) ct Hct).
    unfold modify. eexists. split; [reflexivity |].
    assert (Hqp : q0 <> p) by (intros ->; apply Hpq; apply elem_of_app; right; by left).
    set (s2 := with_call q0 (set_next_ready (Some p) ct) (set_queue (s_head s1) (Some p) s1)).
    assert (Es2 : set_queue (s_head (with_call q0 (set_next_ready (Some p) ct) s1)) (Some p) (with_call q0 (set_next_ready (Some p) ct) s1) = s2) by done.
    rewrite Es2.
    assert (Ec : calls s2 = <[q0 := set_next_ready (Some p) ct]> (calls s1))
      by exact (calls_with (set_queue (s_head s1) (Some p) s1) q0 (set_next_ready (Some p) ct)).
    split; [| split; [| split; [| done]]].
    + subst s2. apply (relink_ok base pbase pl (q' ++ [q0]) (p :: extra)); try done.
      * rewrite <- app_assoc. cbn [app]. apply (queue_seg_snoc _ _ _ _ _ _ c1); try done.
        by apply (so_seg _ _ _ _ _ _ Hok1).
      * by rewrite last_snoc.
    + exists None. by rewrite Ec, lookup_insert_ne by done.
    + intros x cx Hx Hcx. pose proof (Hother x cx Hx Hcx) as Hx1. rewrite Ec.
      destruct (decide (x = q0)) as [-> | Hne0].
      * rewrite lookup_insert_eq. exists (Some p). rewrite Hct in Hx1. by injection Hx1 as ->.
      * rewrite lookup_insert_ne by done. exists (c_next_ready cx). rewrite Hx1. by destruct cx.
Qed.

Lemma call_free_spec base pbase pl q p extra s c :
  sched_ok base pbase pl q (p :: extra) s -> calls s !! p = Some c ->
  exists s', call_free coro_size (Some p) s = (Ok tt, s') /\ sched_ok base pbase pl q extra s' /\
    calls s' = delete p (calls s) /\ s_client s' = s_client s /\ s_trace s' = s_trace s.
Proof.
  intros [Ha Hd Hn Hs Ht Hc Hr Ho Hp] Hpc.
  pose proof (Hc p c Hpc) as (Hargs & Hw & Hco1 & Hco2).
  assert (Hpq : p ∉ q) by (intros Hin; apply list.NoDup_app in Hn as (_ & Hdis & _); apply (Hdis p Hin); apply elem_of_cons; by left).
  unfold call_free. unfold bind at 1. rewrite (get_call_ok s p c Hpc).
  set (s1 := match c_co c with Some co => set_spages (mco_destroy coro_size co (s_pages s)).2 s | None => s end).
  assert (E1 : (match c_co c with
    | Some co => modify (fun s => set_spages (mco_destroy coro_size co (s_pages s)).2 s)
    | None => ret tt end) s = (Ok tt, s1)) by (subst s1; by destruct (c_co c)).
  unfold bind at 1. rewrite E1.
  assert (Hs1 : s_heap s1 = s_heap s /\ s_arena s1 = s_arena s /\ s_head s1 = s_head s /\ s_tail s1 = s_tail s /\
    s_client s1 = s_client s /\ s_trace s1 = s_trace s /\
    pages_own pbase (collect (call_pages coro_size) (delete p (calls s)) ++ pl) (s_pages s1)).
  { pose proof (pages_own_perm _ _ _ _ (Permutation_app_tail pl (collect_lookup (call_pages coro_size) (calls s) p c Hpc)) Hp) as Hp'.
    subst s1. unfold call_pages in Hp' at 1. destruct (c_co c) as [co|]; [| done].
    cbn [app] in Hp'. cbn [mco_status] in Hco1, Hco2. unfold mco_destroy.
    destruct (co_state co); try done; (split_and!; try done; by apply pages_own_free). }
  clearbody s1. destruct Hs1 as (F1 & F2 & F3 & F4 & F5 & F6 & Hpg).
  rewrite (collect_lookup call_blocks (calls s) p c Hpc) in Ho. unfold call_blocks at 1 in Ho. rewrite <- !app_assoc in Ho.
  destruct (values_free_blocks (c_args c) base _ (s_heap s) Hargs Ho) as (h1 & Ev & Ho1).
  unfold bind at 1, on_heap at 1. rewrite F1, Ev. cbv zeta.
  unfold bind at 1, on_heap at 1, modify at 1. cbn [s_heap set_heap].
  apply owns_free_opt in Ho1.
  unfold bind at 1, on_heap at 1, modify at 1. cbn [s_heap set_heap].
  apply owns_free_opt in Ho1.
  destruct Ha as [fl Hwf]. destruct (s_arena s) as [ar m] eqn:Ear. cbn [fst snd] in Hwf.
  assert (Hpm : in_use m !! p = Some c) by (unfold calls in Hpc; by rewrite Ear in Hpc).
  destruct (free_spec _ _ _ p c Hwf Hpm) as (a' & Ef & Haok & Hau & _).
  unfold on_arena. cbn [s_arena set_heap]. rewrite F2, Ef.
  eexists. split; [reflexivity |].
  cbn [set_arena set_heap s_head s_tail s_arena s_heap s_pages s_client s_trace].
  assert (Ec : in_use a'.2 = delete p (calls s)) by (rewrite Hau; unfold calls; by rewrite Ear).
  split; [| done]. constructor; unfold calls; cbn [set_arena set_heap s_head s_tail s_arena s_heap s_pages s_client s_trace]; rewrite ?Ec.
  - done.
  - intros y. rewrite lookup_delete_is_Some, Hd, !elem_of_app, elem_of_cons.
    split; [intros [Hne [? | [? | ?]]]; [by left | done | by right] |].
    intros Hy. split; [| tauto]. intros <-. apply list.NoDup_app in Hn as (_ & Hdis & Hne).
    apply list.NoDup_cons in Hne as [Hne _]. destruct Hy as [Hy | Hy]; [done | by apply Hne].
  - apply list.NoDup_app in Hn as (Hn1 & Hdis & Hne). apply list.NoDup_cons in Hne as [_ Hne].
    apply list.NoDup_app. split; [done |]. split; [| done]. intros x Hx Hxe. apply (Hdis x Hx). apply elem_of_cons. by right.
  - rewrite F3. by apply queue_seg_delete.
  - by rewrite F4.
  - intros y cy. rewrite lookup_delete_Some. intros [_ Hy]. by eapply Hc.
  - intros y cy Hyq. rewrite lookup_delete_Some. intros [_ Hy]. by eapply Hr.
  - by rewrite F5.
  - done.
Qed.

(** the callback *)
Lemma run_done_spec base pbase pl q extra s p c :
  sched_ok base pbase pl q extra s -> calls s !! p = Some c ->
  exists s', run_done done_cb p s = (Ok tt, s') /\ sched_ok base pbase pl q extra s' /\ calls s' = calls s /\
    s_trace s' = s_trace s ++ [c].
Proof.
  intros [Ha Hd Hn Hs Ht Hc Hr Ho Hp] Hpc. unfold run_done, bind. rewrite (get_call_ok s p c Hpc).
  destruct (done_cb c (c_done_data c) (s_client s) (s_heap s)) as [x h] eqn:E.
  eexists. split; [done |]. split; [| done].
  constructor; try done. cbn [add_trace set_client set_heap s_client s_heap].
  rewrite Permutation_app_comm in Ho |- *. by eapply Hdone.
Qed.

(** ending a call: outcome stored, callback run once, everything freed *)
Lemma finish_spec base pbase pl q p extra s c :
  sched_ok base pbase pl q (p :: extra) s -> calls s !! p = Some c -> c_done c = true ->
  exists s', (run_done done_cb p ;;; call_free coro_size (Some p)) s = (Ok tt, s') /\ sched_ok base pbase pl q extra s' /\
    calls s' = delete p (calls s) /\ s_trace s' = s_trace s ++ [c].
Proof.
  intros Hok Hpc Hd. destruct (run_done_spec _ _ _ _ _ _ _ _ Hok Hpc) as (s1 & E1 & Hok1 & Ec1 & Et1).
  unfold bind. rewrite E1. rewrite <- Ec1 in Hpc.
  destruct (call_free_spec _ _ _ _ _ _ _ _ Hok1 Hpc) as (s2 & E2 & Hok2 & Ec2 & _ & Et2).
  exists s2. rewrite E2. split; [done |]. split; [done |]. split; [by rewrite Ec2, Ec1 | by rewrite Et2, Et1].
Qed.

Lemma with_call_same base pbase pl q extra s p c c0 :
  sched_ok base pbase pl q extra s -> calls s !! p = Some c0 -> p ∉ q -> call_wf c ->
  call_pages coro_size c = call_pages coro_size c0 -> call_blocks c = call_blocks c0 ->
  sched_ok base pbase pl q extra (with_call p c s).
Proof.
  intros Hok Hp0 Hpq Hwf Hpg Hb.
  assert (Hid : set_spages (s_pages s) (set_heap (s_heap s) s) = s) by (by destruct s).
  rewrite <- Hid. apply (with_call_ok base pbase pl q extra s p c c0); try done; intros l; by rewrite ?Hb, ?Hpg.
Qed.

Lemma submit_failed_spec base pbase pl q p extra s c message :
  sched_ok base pbase pl q (p :: extra) s -> calls s !! p = Some c -> c_done c = true ->
  exists s', submit_failed coro_size done_cb p message s = (Ok tt, s') /\ sched_ok base pbase pl q extra s' /\
    calls s' = delete p (calls s) /\ s_trace s' = s_trace s ++ [set_outcome (-1) (snprintf_s ERROR_SIZE message) c].
Proof.
  intros Hok Hpc Hd. set (c1 := set_outcome (-1) (snprintf_s ERROR_SIZE message) c).
  assert (Hpq : p ∉ q).
  { intros Hin. pose proof (so_nodup _ _ _ _ _ _ Hok) as Hn. apply list.NoDup_app in Hn as (_ & Hdis & _).
    apply (Hdis p Hin). apply elem_of_cons. by left. }
  assert (Hok1 : sched_ok base pbase pl q (p :: extra) (with_call p c1 s)).
  { apply (with_call_same _ _ _ _ _ _ p c1 c); try done. exact (so_calls _ _ _ _ _ _ Hok p c Hpc). }
  assert (Hpc1 : calls (with_call p c1 s) !! p = Some c1) by (by rewrite calls_with, lookup_insert_eq).
  destruct (finish_spec _ _ _ _ _ _ _ _ Hok1 Hpc1 Hd) as (s2 & E2 & Hok2 & Ec2 & Et2).
  exists s2. unfold submit_failed. unfold bind at 1. rewrite (get_call_ok s p c Hpc). unfold bind at 1.
  fold c1. rewrite (put_call_ok s p c1 c Hpc), Hd. split; [done |]. split; [done |]. split; [| done].
  rewrite Ec2, calls_with. apply delete_insert_eq.
Qed.

(** *** Submitting *)
Lemma new_call_wf ci pi hd dt n b dd : call_wf (new_call ci pi hd dt n b dd).
Proof. split; [apply no_values_wf |]. split; [apply writer_init_ok | done]. Qed.

Lemma arena_alloc_sched base pbase pl q s r s1 :
  sched_ok base pbase pl q [] s -> on_arena (wirecall_fixed_arena_alloc zero_call) s = (r, s1) ->
  (r = Ok None /\ s1 = s) \/
  exists p, r = Ok (Some p) /\ sched_ok base pbase pl q [p] s1 /\ calls s !! p = None /\ calls s1 = <[p := zero_call]> (calls s) /\
    s_client s1 = s_client s /\ s_trace s1 = s_trace s.
Proof.
  intros [Ha Hd Hn Hs Ht Hc Hr Ho Hp]. unfold on_arena. destruct Ha as [fl Hwf].
  destruct (s_arena s) as [ar m] eqn:Ear. cbn [fst snd] in Hwf.
  destruct (wirecall_fixed_arena_alloc zero_call (ar, m)) as [r0 a1] eqn:E. intros [= <- <-].
  destruct (alloc_spec zero_call ar m fl r0 a1 Hwf E) as [(-> & -> & _) | (p & -> & Hnone & Hu & _ & _ & Hok & _)].
  - left. split; [done |]. rewrite <- Ear. by destruct s.
  - right. exists p. split; [done |].
    assert (Ecs : calls s = in_use m) by (unfold calls; by rewrite Ear).
    assert (Ec : calls (set_arena a1 s) = <[p := zero_call]> (calls s)) by (unfold calls; cbn; by rewrite Hu, Ear).
    assert (Hps : calls s !! p = None) by (by rewrite Ecs).
    assert (Hpq : p ∉ q).
    { intros Hin. assert (is_Some (calls s !! p)) as [? ?] by (apply Hd; apply elem_of_app; by left). congruence. }
    split; [| by rewrite Ec]. constructor; rewrite ?Ec; try done.
    + intros y. rewrite lookup_insert_is_Some, Hd, app_nil_r, elem_of_app, list_elem_of_singleton.
      destruct (decide (p = y)); naive_solver.
    + rewrite app_nil_r in Hn. apply list.NoDup_app. split; [done |]. split; [| by repeat constructor; intros ?%elem_of_nil].
      intros x Hx Hx1. apply list_elem_of_singleton in Hx1 as ->. done.
    + by apply queue_seg_insert.
    + intros y cy. rewrite lookup_insert_Some. intros [[<- <-] | [_ Hy]]; [exact (new_call_wf 0 0 0 0 0 false 0) | by eapply Hc].
    + intros y cy Hyq. rewrite lookup_insert_Some. intros [[<- <-] | [_ Hy]]; [done | by eapply Hr].
    + by rewrite (collect_insert_new call_blocks) by done.
    + eapply pages_own_perm; [| exact Hp]. by rewrite (collect_insert_new (call_pages coro_size)) by done.
Qed.

Lemma extra_not_queued base pbase pl q p extra s : sched_ok base pbase pl q (p :: extra) s -> p ∉ q.
Proof.
  intros Hok Hin. pose proof (so_nodup _ _ _ _ _ _ Hok) as Hn. apply list.NoDup_app in Hn as (_ & Hdis & _).
  apply (Hdis p Hin). apply elem_of_cons. by left.
Qed.

(** a payload as submit gets it, and as it hands it to the decoder *)
Definition payload_ok (payload : option (list Z)) (n : Z) : Prop :=
  match payload with
  | None => n = 0
  | Some d => bytes_ok d /\ 0 <= n <= zlen d /\ n < 2 ^ 56
  end.

Lemma heap_alloc_sched base pbase pl q extra s n b h :
  0 <= n -> sched_ok base pbase pl q extra s -> heap_alloc n (s_heap s) = (b, h) ->
  b = None -> sched_ok base pbase pl q extra (set_heap h s).
Proof.
  intros Hn [? ? ? ? ? ? ? Ho ?] E ->. constructor; try done. cbn [set_heap s_heap s_client].
  by eapply owns_alloc_none; [| exact Ho | exact E].
Qed.

Lemma copy_payload_spec base pbase pl q p s c payload n r s' :
  sched_ok base pbase pl q [p] s -> calls s !! p = Some c -> c_payload c = None -> payload_ok payload n ->
  copy_payload coro_size p payload n s = (r, s') ->
  s_client s' = s_client s /\ s_trace s' = s_trace s /\
  ((r = Err /\ sched_ok base pbase pl q [] s') \/
   exists copied b, r = Ok copied /\ sched_ok base pbase pl q [p] s' /\ calls s' !! p = Some (set_payload b c) /\
     payload_ok copied n /\ ztake n (default [] copied) = ztake n (default [] payload)).
Proof.
  intros Hok Hp Hcp Hpay. unfold copy_payload. pose proof (extra_not_queued _ _ _ _ _ _ _ Hok) as Hpq.
  destruct (0 <? n) eqn:En; zb.
  - destruct payload as [d|]; [| cbn in Hpay; lia]. destruct Hpay as (Hb & Hn & Hbig).
    unfold bind at 1. destruct (heap_alloc n (s_heap s)) as [[b|] h1] eqn:Ea.
    + unfold bind, lift. cbn [buffer_bytes].
      replace (n <=? zlen d) with true by (symmetry; apply Z.leb_le; lia).
      rewrite (get_call_ok (set_heap h1 s) p c Hp), (put_call_ok (set_heap h1 s) p (set_payload (Some b) c) c Hp).
      intros [= <- <-]. split; [done |]. split; [done |]. right. exists (Some (ztake n d)), (Some b).
      split; [done |]. split; [| split; [by apply (lookup_with (set_heap h1 s) p _ c) |]].
      * pose proof (with_call_ok base pbase pl q [p] s p (set_payload (Some b) c) c h1 (s_pages s) Hok Hp Hpq) as H.
        apply H; [exact (so_calls _ _ _ _ _ _ Hok p c Hp) | | done].
        intros l Hl. eapply owns_alloc in Ea; [| lia | exact Hl]. revert Ea. apply owns_perm; [| done].
        unfold call_blocks. cbn [set_payload c_args c_response c_payload]. rewrite Hcp. cbn [option_list option_rect].
        rewrite app_nil_r, <- !app_assoc. cbn [app]. by rewrite !Permutation_middle.
      * split; [split; [by apply bytes_ok_ztake | rewrite zlen_ztake by lia; lia] |]. cbn. by rewrite ztake_ztake by lia.
    + pose proof (heap_alloc_sched base pbase pl q [p] s n None h1 ltac:(lia) Hok Ea eq_refl) as Hok1.
      destruct (call_free_spec _ _ _ _ _ _ (set_heap h1 s) c Hok1 Hp) as (s2 & E2 & Hok2 & _ & Ecl & Et).
      unfold bind. rewrite E2. intros [= <- <-]. split; [done |]. split; [done |]. by left.
  - intros [= <- <-]. split; [done |]. split; [done |]. right. exists None, (c_payload c).
    assert (n = 0) as -> by (destruct payload; cbn in Hpay; lia).
    split_and!; try done. rewrite Hp. by destruct c.
Qed.

(** what the callback was told of a call that could not be started *)
Definition refused (ci pi dd : Z) (c : wirecall_call) : Prop :=
  c_call_id c = ci /\ c_proc_id c = pi /\ c_done_data c = dd /\ c_result c = -1 /\ c_error c <> [].

Lemma submit_failed_refused base pbase pl q p s c message :
  sched_ok base pbase pl q [p] s -> calls s !! p = Some c -> c_done c = true -> snprintf_s ERROR_SIZE message <> [] ->
  exists s' c', submit_failed coro_size done_cb p message s = (Ok tt, s') /\ sched_ok base pbase pl q [] s' /\
    s_trace s' = s_trace s ++ [c'] /\ refused (c_call_id c) (c_proc_id c) (c_done_data c) c'.
Proof.
  intros Hok Hp Hd Hm. destruct (submit_failed_spec _ _ _ _ _ _ _ _ message Hok Hp Hd) as (s' & E & Hok' & _ & Et).
  by exists s', (set_outcome (-1) (snprintf_s ERROR_SIZE message) c).
Qed.

Lemma start_call_spec base pbase pl q p s c a h :
  sched_ok base pbase pl q [p] s -> calls s !! p = Some c -> c_done c = true -> c_completed c = false ->
  c_co c = None -> c_args c = no_values -> array_wf a ->
  (forall l, owns base (call_blocks c ++ l) (s_heap s) -> owns base (array_blocks a ++ call_blocks c ++ l) h) ->
  exists s', start_call coro_size done_cb p a (set_heap h s) = (Ok tt, s') /\
    ((sched_ok base pbase pl (q ++ [p]) [] s' /\ s_client s' = s_client s /\ s_trace s' = s_trace s /\
      exists n co, calls s' !! p = Some (set_next_ready n (set_co co (set_args a c)))) \/
     (sched_ok base pbase pl q [] s' /\ exists c', s_trace s' = s_trace s ++ [c'] /\
      refused (c_call_id c) (c_proc_id c) (c_done_data c) c')).
Proof.
  intros Hok Hp Hd Hcp Hco Hca Ha Hown. pose proof (extra_not_queued _ _ _ _ _ _ _ Hok) as Hpq.
  pose proof (so_calls _ _ _ _ _ _ Hok p c Hp) as (_ & Hw & _).
  assert (Hown' : forall l, owns base (call_blocks c ++ l) (s_heap s) -> owns base (call_blocks (set_args a c) ++ l) h).
  { intros l Hl. apply Hown in Hl. revert Hl. apply owns_perm; [| done]. unfold call_blocks.
    cbn [set_args c_args c_response c_payload]. rewrite Hca. cbn [array_blocks no_values va_ptr va_cells cell_values option_list option_rect app copies omap list_omap].
    by rewrite <- !app_assoc. }
  unfold start_call. unfold bind at 1. rewrite (get_call_ok (set_heap h s) p c Hp).
  unfold bind at 1. rewrite (put_call_ok (set_heap h s) p (set_args a c) c Hp).
  set (s1 := with_call p (set_args a c) (set_heap h s)).
  assert (Hok1 : sched_ok base pbase pl q [p] s1).
  { pose proof (with_call_ok base pbase pl q [p] s p (set_args a c) c h (s_pages s) Hok Hp Hpq) as H.
    apply H; [| done | done]. split; [done |]. split; [done |]. cbn [set_args c_co]. by rewrite Hco. }
  assert (Hp1 : calls s1 !! p = Some (set_args a c)) by exact (lookup_with (set_heap h s) p (set_args a c) c Hp).
  assert (Hs1 : s_client s1 = s_client s /\ s_trace s1 = s_trace s) by done. clearbody s1. destruct Hs1 as [Ecl1 Et1].
  unfold bind at 1, mco_create. destruct (pages_alloc coro_size (s_pages s1)) as [[b|] w] eqn:Ep.
  - set (co := Some {| co_block := b; co_state := MCO_SUSPENDED; co_steps := 0 |}). set (c2 := set_co co (set_args a c)).
    unfold bind. rewrite (get_call_ok (set_spages w s1) p (set_args a c) Hp1). fold c2.
    rewrite (put_call_ok (set_spages w s1) p c2 (set_args a c) Hp1).
    set (s2 := with_call p c2 (set_spages w s1)).
    assert (Hok2 : sched_ok base pbase pl q [p] s2).
    { pose proof (with_call_ok base pbase pl q [p] s1 p c2 (set_args a c) (s_heap s1) w Hok1 Hp1 Hpq) as H.
      assert (Hid : set_heap (s_heap s1) s1 = s1) by (by destruct s1). rewrite Hid in H. apply H; [done | done |].
      intros l Hl. unfold call_pages in *. cbn [c2 set_co set_args c_co co] in *. rewrite Hco in Hl.
      exact (pages_own_alloc pbase _ _ _ _ _ coro_size_pos Hl Ep). }
    assert (Hp2 : calls s2 !! p = Some c2) by exact (lookup_with (set_spages w s1) p c2 (set_args a c) Hp1).
    destruct (enqueue_spec base pbase pl q p [] s2 c2 Hok2 Hp2 (conj Hcp (conj eq_refl Hd))) as (s3 & E3 & Hok3 & [nx Hp3] & _ & Ecl3 & Et3).
    rewrite E3. exists s3. split; [done |]. left. split; [done |]. split; [by rewrite Ecl3, <- Ecl1 |].
    split; [by rewrite Et3, <- Et1 | by exists nx, co].
  - assert (Hok2 : sched_ok base pbase pl q [p] (set_spages w s1)).
    { destruct Hok1 as [? ? ? ? ? ? ? ? Hpg]. constructor; try done. exact (pages_own_alloc pbase _ _ _ _ _ coro_size_pos Hpg Ep). }
    destruct (submit_failed_refused base pbase pl q p (set_spages w s1) (set_args a c)
      (cstring "coroutine create failed: " ++ mco_result_description MCO_OUT_OF_MEMORY) Hok2 Hp1 Hd ltac:(done)) as (s3 & c3 & E3 & Hok3 & Et3 & Hr3).
    exists s3. split; [exact E3 |]. right. split; [done |]. exists c3. split; [| done]. by rewrite Et3, <- Et1.
Qed.

(** the three outcomes of a submission *)
Definition submitted base pbase pl q s ci pi hd dt payload n dd r s' : Prop :=
  (r = Err /\ sched_ok base pbase pl q [] s' /\ s_client s' = s_client s /\ s_trace s' = s_trace s) \/
  (exists p c, r = Ok tt /\ sched_ok base pbase pl (q ++ [p]) [] s' /\ calls s' !! p = Some c /\
    s_client s' = s_client s /\ s_trace s' = s_trace s /\
    c_call_id c = ci /\ c_proc_id c = pi /\ c_handler c = hd /\ c_handler_data c = dt /\ c_done c = true /\ c_done_data c = dd /\
    ztake n (default [] payload) = encode_values (map erase (cell_values (va_cells (c_args c))))) \/
  (exists c, r = Ok tt /\ sched_ok base pbase pl q [] s' /\ s_trace s' = s_trace s ++ [c] /\ refused ci pi dd c).

Lemma submit_spec base pbase pl q s ci pi hd dt payload n dd r s' :
  sched_ok base pbase pl q [] s -> payload_ok payload n ->
  wirecall_scheduler_submit coro_size done_cb ci pi (Some hd) dt payload n true dd s = (r, s') ->
  submitted base pbase pl q s ci pi hd dt payload n dd r s'.
Proof.
  intros Hok Hpay. unfold wirecall_scheduler_submit.
  replace (match payload with None => 0 <? n | Some _ => false end) with false by (destruct payload; [done | by rewrite Hpay]).
  unfold bind at 1. destruct (on_arena _ s) as [r1 s1] eqn:E1.
  destruct (arena_alloc_sched _ _ _ _ _ _ _ Hok E1) as [(-> & ->) | (p & -> & Hok1 & Hnone & Ec1 & Ecl1 & Et1)].
  { intros [= <- <-]. by left. }
  set (c0 := new_call ci pi hd dt n true dd).
  assert (Hp1 : calls s1 !! p = Some zero_call) by (by rewrite Ec1, lookup_insert_eq).
  assert (Hok2 : sched_ok base pbase pl q [p] (with_call p c0 s1)).
  { apply (with_call_same _ _ _ _ _ _ p c0 zero_call); try done; [by eapply extra_not_queued | apply new_call_wf]. }
  unfold bind at 1. rewrite (put_call_ok s1 p c0 zero_call Hp1).
  unfold bind at 1. destruct (copy_payload _ _ _ _ _) as [r3 s3] eqn:E3.
  destruct (copy_payload_spec _ _ _ _ _ _ c0 _ _ _ _ Hok2 (lookup_with s1 p c0 _ Hp1) eq_refl Hpay E3)
    as (Ecl3 & Et3 & [(-> & Hok3) | (copied & b & -> & Hok3 & Hp3 & Hcp & Hz)]).
  { intros [= <- <-]. left. by rewrite <- Ecl1, <- Et1. }
  cbn [with_call set_arena s_client s_trace] in Ecl3, Et3. rewrite Ecl1 in Ecl3. rewrite Et1 in Et3.
  unfold bind at 1, attempt, on_heap. destruct (wirecall_payload_decode copied n true true (s_heap s3)) as [r4 h4] eqn:E4.
  set (c := set_payload b c0) in *.
  pose proof (fun l Ho => decode_framed H64 base (call_blocks c ++ l) _ _ _ _ _ Ho Hcp E4) as Hdec.
  pose proof (so_owns _ _ _ _ _ _ Hok3) as Ho3. rewrite (collect_lookup call_blocks (calls s3) p c Hp3), <- app_assoc in Ho3.
  destruct r4 as [a| |]; [| | by destruct (Hdec _ Ho3)].
  - destruct (Hdec _ Ho3) as (Haw & _ & Hez).
    destruct (start_call_spec base pbase pl q p s3 c a h4) as (s5 & E5 & Hout); try done; [intros l Hl; by apply Hdec |].
    rewrite E5. intros [= <- <-]. destruct Hout as [(Hok5 & Ecl5 & Et5 & nx & co & Hp5) | (Hok5 & c' & Et5 & Hr5)].
    + right. left. exists p, (set_next_ready nx (set_co co (set_args a c))).
      split_and!; try done; [by rewrite Ecl5, Ecl3 | by rewrite Et5, Et3 | by rewrite <- Hz, Hez].
    + right. right. exists c'. split_and!; try done; try apply Hr5. by rewrite Et5, Et3.
  - assert (Hok5 : sched_ok base pbase pl q [p] (set_heap h4 s3)).
    { pose proof (Hdec _ Ho3) as Ho4. destruct Hok3 as [? ? ? ? ? ? ? _ ?]. constructor; try done. cbn [set_heap s_heap s_client].
      revert Ho4. apply owns_perm; [| done]. rewrite app_assoc. f_equiv. exact (collect_lookup call_blocks (calls s3) p c Hp3). }
    destruct (submit_failed_refused _ _ _ _ _ (set_heap h4 s3) c (cstring "malformed payload") Hok5 Hp3 eq_refl ltac:(done)) as (s6 & c6 & E6 & Hok6 & Et6 & Hr6).
    rewrite E6. intros [= <- <-]. right. right. exists c6. split_and!; try done; try apply Hr6. rewrite Et6. cbn [set_heap s_trace]. by rewrite Et3.
Qed.

(** *** Running *)

(** a call that was resumed: only its coroutine, response and outcome change *)
Definition call_key (c : wirecall_call) : Z * Z * Z := (c_call_id c, c_proc_id c, c_done_data c).
Definition co_step (c : wirecall_call) : nat := match c_co c with Some co => co_steps co | None => O end.

(** other calls keep everything but their link *)
Definition others_kept (q : list Z) s s' : Prop :=
  forall x cx, x ∈ q -> calls s !! x = Some cx -> exists n, calls s' !! x = Some (set_next_ready n cx).

Lemma others_kept_trans q s1 s2 s3 : others_kept q s1 s2 -> others_kept q s2 s3 -> others_kept q s1 s3.
Proof.
  intros H1 H2 x cx Hx Hc. destruct (H1 x cx Hx Hc) as [n1 Hn1]. destruct (H2 x _ Hx Hn1) as [n2 Hn2].
  by exists n2.
Qed.

Lemma others_kept_with q s p c : p ∉ q -> others_kept q s (with_call p c s).
Proof.
  intros Hp x cx Hx Hc. exists (c_next_ready cx). rewrite calls_with, lookup_insert_ne by (intros ->; done).
  rewrite Hc. by destruct cx.
Qed.

Lemma resume_spec base pbase pl q p s c co r w h :
  sched_ok base pbase pl q [p] s -> calls s !! p = Some c -> c_co c = Some co -> co_state co = MCO_SUSPENDED ->
  segment (c_handler c) (c_handler_data c) (c_call_id c) (c_proc_id c) (c_args c) (co_steps co) (c_response c) (s_heap s) = (r, w, h) ->
  let co' st := Some {| co_block := co_block co; co_state := st; co_steps := S (co_steps co) |} in
  let c' := match r with
            | None => set_co (co' MCO_SUSPENDED) (set_response w c)
            | Some v => set_co (co' MCO_DEAD) (call_entry_end v (set_response w c))
            end in
  exists s', call_resume segment p s = (Ok true, s') /\ sched_ok base pbase pl q [p] s' /\ calls s' !! p = Some c' /\
    s_client s' = s_client s /\ s_trace s' = s_trace s /\ others_kept q s s'.
Proof.
  intros Hok Hp Hco Hst Eseg co' c'. pose proof (extra_not_queued _ _ _ _ _ _ _ Hok) as Hpq.
  pose proof (so_calls _ _ _ _ _ _ Hok p c Hp) as (Hargs & Hw & _).
  unfold call_resume, mco_resume. unfold bind at 1 2. rewrite (get_call_ok s p c Hp), Hco, Hst, Eseg.
  fold (co' MCO_SUSPENDED) (co' MCO_DEAD). fold c'. unfold bind at 1.
  rewrite (put_call_ok (set_heap h s) p c' c Hp). eexists. split; [done |].
  assert (Hblocks : forall l, owns base (call_blocks c ++ l) (s_heap s) -> owns base (call_blocks c' ++ l) h /\ writer_ok w).
  { intros l Hl. unfold call_blocks in Hl. rewrite <- !app_assoc in Hl.
    rewrite !app_assoc, (Permutation_app_comm (array_blocks _)), <- !app_assoc in Hl.
    destruct (Hsegment _ _ _ _ _ _ _ _ _ _ _ base _ Hw Hl Eseg) as [Hw' Ho'].
    split; [| done]. revert Ho'. apply owns_perm; [| done].
    assert (Ecb : call_blocks c' = array_blocks (c_args c) ++ option_list (w_data w) ++ option_list (c_payload c)) by (subst c'; by destruct r).
    rewrite Ecb, <- !app_assoc, !app_assoc. by rewrite (Permutation_app_comm (option_list (w_data w))). }
  assert (Hw' : writer_ok w).
  { pose proof (so_owns _ _ _ _ _ _ Hok) as Ho. rewrite (collect_lookup call_blocks (calls s) p c Hp), <- app_assoc in Ho.
    by apply (Hblocks _ Ho). }
  split; [| split; [exact (lookup_with (set_heap h s) p c' c Hp) | split; [done |]; split; [done |]; exact (others_kept_with q (set_heap h s) p c' Hpq)]].
  pose proof (with_call_ok base pbase pl q [p] s p c' c h (s_pages s) Hok Hp Hpq) as H. apply H.
  - subst c'. destruct r; (split; [done |]; split; [done |]; done).
  - intros l Hl. by apply Hblocks.
  - intros l Hl. unfold call_pages in *. rewrite Hco in Hl. subst c'. by destruct r.
Qed.

(** one turn of the loop on a non-empty queue *)
Lemma run_one_spec base pbase pl q p s c :
  sched_ok base pbase pl (p :: q) [] s -> calls s !! p = Some c ->
  exists s' r w h, run_one coro_size segment done_cb s = (Ok true, s') /\ others_kept q s s' /\
    segment (c_handler c) (c_handler_data c) (c_call_id c) (c_proc_id c) (c_args c) (co_step c) (c_response c) (s_heap s) = (r, w, h) /\
    match r with
    | None => sched_ok base pbase pl (q ++ [p]) [] s' /\ s_client s' = s_client s /\ s_trace s' = s_trace s /\
        exists c', calls s' !! p = Some c' /\ call_key c' = call_key c /\ c_handler c' = c_handler c /\
          c_handler_data c' = c_handler_data c /\ c_args c' = c_args c /\ co_step c' = S (co_step c)
    | Some v => sched_ok base pbase pl q [] s' /\ exists c', s_trace s' = s_trace s ++ [c'] /\ call_key c' = call_key c /\
        c_result c' = v /\ c_completed c' = true /\ c_response c' = w
    end.
Proof.
  intros Hok Hp.
  destruct (so_ready _ _ _ _ _ _ Hok p c ltac:(apply elem_of_cons; by left) Hp) as (Hcp & Hst & Hd).
  destruct (dequeue_cons _ _ _ _ _ _ _ Hok) as (s1 & c0 & E1 & Hok1 & Hp0 & Ec1 & Ecl1 & Et1 & Eh1).
  rewrite Hp in Hp0. injection Hp0 as <-. pose proof (extra_not_queued _ _ _ _ _ _ _ Hok1) as Hpq.
  destruct (c_co c) as [co|] eqn:Eco; [| done]. cbn [mco_status] in Hst.
  set (c1 := set_next_ready None c). assert (Hp1 : calls s1 !! p = Some c1) by (by rewrite Ec1, lookup_insert_eq).
  assert (Hk1 : others_kept q s s1).
  { intros x cx Hx Hc. exists (c_next_ready cx). rewrite Ec1, lookup_insert_ne by (intros ->; done). rewrite Hc. by destruct cx. }
  destruct (segment (c_handler c) (c_handler_data c) (c_call_id c) (c_proc_id c) (c_args c) (co_steps co) (c_response c) (s_heap s1))
    as [[r w] h] eqn:Eseg.
  destruct (resume_spec _ _ _ _ _ s1 c1 co r w h Hok1 Hp1 Eco Hst Eseg) as (s2 & E2 & Hok2 & Hp2 & Ecl2 & Et2 & Hk2).
  unfold run_one. unfold bind at 1. rewrite E1. unfold bind at 1. rewrite E2. unfold bind at 1.
  rewrite (get_call_ok s2 p _ Hp2). rewrite Eh1 in Eseg.
  assert (Estep : co_step c = co_steps co) by (unfold co_step; by rewrite Eco). rewrite Estep.
  destruct r as [v|].
  - cbn [set_co call_entry_end set_outcome c_completed negb andb].
    destruct (finish_spec _ _ _ _ _ _ _ _ Hok2 Hp2 Hd) as (s3 & E3 & Hok3 & Ec3 & Et3).
    exists s3, (Some v), w, h. unfold bind at 1, call_finish. unfold bind at 1. rewrite (get_call_ok s2 p _ Hp2).
    cbn [set_co call_entry_end set_outcome set_response c_done c1 set_next_ready]. rewrite Hd, E3.
    split; [done |]. split; [| split; [done |]; split; [done |]; eexists; by rewrite Et3, Et2, Et1].
    apply (others_kept_trans q s s1 s3 Hk1). apply (others_kept_trans q s1 s2 s3 Hk2).
    intros x cx Hx Hc. exists (c_next_ready cx). rewrite Ec3, lookup_delete_ne by (intros ->; done). rewrite Hc. by destruct cx.
  - cbn [set_co set_response c_completed c_co c1 set_next_ready]. rewrite Hcp. cbn [negb andb mco_status].
    rewrite bool_decide_eq_true_2 by done.
    destruct (enqueue_spec _ _ _ _ _ [] s2 _ Hok2 Hp2 (conj Hcp (conj eq_refl Hd))) as (s3 & E3 & Hok3 & [nx Hp3] & Hk3 & Ecl3 & Et3).
    exists s3, None, w, h. unfold bind at 1. rewrite E3. split; [done |]. split; [| split; [done |]].
    + apply (others_kept_trans q s s1 s3 Hk1). apply (others_kept_trans q s1 s2 s3 Hk2).
      intros x cx Hx Hc. apply Hk3; [intros ->; done | done].
    + split; [done |]. split; [congruence |]. split; [congruence |]. eexists. split; [exact Hp3 |]. by rewrite <- Estep.
Qed.

(** *** Termination: handlers that return within [life] resumes *)
Section Life.
Variable life : Z -> Z -> value_array -> nat.
Hypothesis life_ends : forall hd dt ci pi a n w h, (life hd dt a <= S n)%nat -> (segment hd dt ci pi a n w h).1.1 <> None.

Definition work_of (c : wirecall_call) : nat := S (life (c_handler c) (c_handler_data c) (c_args c) - co_step c).
Definition work s q : nat := sum_list_with (fun p => from_option work_of 0%nat (calls s !! p)) q.
Definition keys s q : list (Z * Z * Z) := omap (fun p => call_key <$> calls s !! p) q.

Lemma work_kept q s s' : (forall p, p ∈ q -> is_Some (calls s !! p)) -> others_kept q s s' -> work s' q = work s q /\ keys s' q = keys s q.
Proof.
  induction q as [|p q IH]; intros Hd Hk; [done |].
  destruct IH as [IH1 IH2]; [intros x Hx; apply Hd; apply elem_of_cons; by right | intros x cx Hx; apply Hk; apply elem_of_cons; by right |].
  destruct (Hd p ltac:(apply elem_of_cons; by left)) as [c Hc]. destruct (Hk p c ltac:(apply elem_of_cons; by left) Hc) as [n Hn].
  unfold work, keys in *. cbn [sum_list_with omap list_omap]. rewrite Hc, Hn. cbn. rewrite IH1, IH2. done.
Qed.

Lemma run_ready_spec base pbase pl fuel q s :
  sched_ok base pbase pl q [] s -> (work s q < fuel)%nat ->
  exists s' tr, run_ready coro_size segment done_cb fuel s = (Ok (Some tt), s') /\ sched_ok base pbase pl [] [] s' /\
    s_trace s' = s_trace s ++ tr /\ map call_key tr ≡ₚ keys s q /\ Forall (fun c => c_completed c = true) tr.
Proof.
  revert q s. induction fuel as [|fuel IH]; intros q s Hok Hf; [lia |]. cbn [run_ready]. unfold bind at 1.
  destruct q as [|p q].
  - unfold run_one. unfold bind at 1. rewrite (dequeue_nil _ _ _ _ _ Hok). exists s, []. by rewrite app_nil_r.
  - assert (Hdom : forall x, x ∈ p :: q -> is_Some (calls s !! x)).
    { intros x Hx. apply (so_dom _ _ _ _ _ _ Hok). by rewrite app_nil_r. }
    destruct (Hdom p ltac:(apply elem_of_cons; by left)) as [c Hp].
    destruct (run_one_spec _ _ _ _ _ _ _ Hok Hp) as (s1 & r & w & h & E1 & Hk & Eseg & Hr). rewrite E1.
    destruct (work_kept q s s1) as [Hw1 Hk1]; [intros x Hx; apply Hdom; apply elem_of_cons; by right | done |].
    assert (Hws : work s (p :: q) = (work_of c + work s q)%nat) by (unfold work; cbn; by rewrite Hp).
    assert (Hks : keys s (p :: q) = call_key c :: keys s q) by (unfold keys; cbn; by rewrite Hp).
    destruct r as [v|].
    + destruct Hr as (Hok1 & c' & Et1 & Hkey & _ & Hcomp & _).
      destruct (IH q s1 Hok1) as (s2 & tr & E2 & Hok2 & Et2 & Hperm & Hall).
      { unfold work_of in Hws. lia. }
      exists s2, (c' :: tr). split; [done |]. split; [done |]. split; [by rewrite Et2, Et1, <- app_assoc |].
      split; [cbn [map]; by rewrite Hkey, Hks, Hperm, Hk1 | by constructor].
    + destruct Hr as (Hok1 & _ & Et1 & c' & Hp1 & Hkey & F1 & F2 & F3 & F4).
      assert (Hlt : (S (co_step c) < life (c_handler c) (c_handler_data c) (c_args c))%nat).
      { destruct (le_lt_dec (life (c_handler c) (c_handler_data c) (c_args c)) (S (co_step c))) as [Hle |]; [| done].
        pose proof (life_ends _ _ (c_call_id c) (c_proc_id c) _ _ (c_response c) (s_heap s) Hle) as Hne. by rewrite Eseg in Hne. }
      assert (Hwork : work s1 (q ++ [p]) = (work s1 q + work_of c')%nat) by (unfold work; rewrite sum_list_with_app; cbn [sum_list_with]; rewrite Hp1; cbn [from_option]; lia).
      destruct (IH (q ++ [p]) s1 Hok1) as (s2 & tr & E2 & Hok2 & Et2 & Hperm & Hall).
      { rewrite Hwork, Hw1. unfold work_of in *. rewrite F1, F2, F3, F4. lia. }
      exists s2, tr. split; [done |]. split; [done |]. split; [by rewrite Et2, Et1 |]. split; [| done].
      rewrite Hperm, Hks. unfold keys. rewrite omap_app. cbn [omap list_omap]. rewrite Hp1. cbn.
      rewrite Hkey. unfold keys in Hk1. rewrite Hk1. rewrite <- Permutation_cons_append. done.
Qed.
End Life.

Lemma idle_released base pbase pl s :
  sched_ok base pbase pl [] [] s -> calls s = ∅ /\ owns base (client_blocks (s_client s)) (s_heap s) /\ pages_own pbase pl (s_pages s).
Proof.
  intros [_ Hd _ _ _ _ _ Ho Hp].
  assert (Hc : calls s = ∅).
  { apply map_eq. intros p. rewrite lookup_empty. apply eq_None_not_Some. rewrite Hd. by intros ?%elem_of_nil. }
  rewrite Hc in Ho, Hp. done.
Qed.

Lemma destroy_loop_spec base pbase pl fuel q s :
  sched_ok base pbase pl q [] s -> (length q < fuel)%nat ->
  exists s', destroy_loop coro_size fuel s = (Ok tt, s') /\ sched_ok base pbase pl [] [] s' /\
    s_client s' = s_client s /\ s_trace s' = s_trace s.
Proof.
  revert q s. induction fuel as [|fuel IH]; intros q s Hok Hf; [lia |]. cbn [destroy_loop]. unfold bind at 1.
  destruct q as [|p q]; [rewrite (dequeue_nil _ _ _ _ _ Hok); by exists s |].
  destruct (dequeue_cons _ _ _ _ _ _ _ Hok) as (s1 & c & E1 & Hok1 & Hp & Ec1 & Ecl1 & Et1 & _). rewrite E1.
  assert (Hp1 : calls s1 !! p = Some (set_next_ready None c)) by (by rewrite Ec1, lookup_insert_eq).
  destruct (call_free_spec _ _ _ _ _ _ _ _ Hok1 Hp1) as (s2 & E2 & Hok2 & _ & Ecl2 & Et2).
  unfold bind. rewrite E2. destruct (IH q s2 Hok2) as (s3 & E3 & Hok3 & Ecl3 & Et3); [cbn in Hf; lia |].
  exists s3. split; [done |]. split; [done |]. split; congruence.
Qed.

(** a queue is no longer than the arena *)
Lemma queue_bound base pbase pl q s : sched_ok base pbase pl q [] s -> zlen q <= capacity (s_arena s).1.
Proof.
  intros [[fl Hwf] Hd Hn _ _ _ _ _ _]. rewrite app_nil_r in Hn.
  assert (Hsz : (length q <= size (calls s))%nat).
  { rewrite <- (size_list_to_set (C := gset Z) q Hn), <- size_dom. apply subseteq_size. intros x Hx.
    apply elem_of_list_to_set in Hx. apply elem_of_dom. apply Hd. by rewrite app_nil_r. }
  pose proof (wf_count _ _ _ Hwf). pose proof (wf_mark _ _ _ Hwf). pose proof (zlen_nonneg fl).
  unfold calls in Hsz. unfold zlen in *. lia.
Qed.

Lemma init_sched_ok x h w block s h' w' base pbase :
  wirecall_scheduler_init x h w = (Some (block, s), (h', w')) ->
  owns base (client_blocks x) h -> pages_inv w -> pbase = pages_live w ->
  exists arena, capacity (s_arena s).1 = WIRECALL_CALL_ARENA_CAPACITY /\
    ar_base (s_arena s).1 = Some arena.1 /\ ar_bytes (s_arena s).1 = arena.2 /\
    sched_ok ({[block]} ∪ base) pbase [arena] [] [] s /\ (block ∉ base) /\ s_client s = x /\ s_trace s = [].
Proof.
  clear Hsegment Hdone coro_size_pos segment done_cb. intros E Ho Hi ->. unfold wirecall_scheduler_init, heap_calloc in E. rewrite Z.div_1_r in E. unfold SIZE_MAX in E. rewrite H64 in E.
  change (negb (1 =? 0) && (2 ^ 64 - 1 <? sizeof_wirecall_scheduler)) with false in E. cbv iota in E.
  rewrite (usize_small (H := HH) (1 * sizeof_wirecall_scheduler)) in E by (rewrite H64; unfold sizeof_wirecall_scheduler; lia).
  destruct (heap_alloc _ h) as [[b|] h1] eqn:Ea; [| done].
  destruct (wirecall_fixed_arena_init _ _ w) as [r [a w1]] eqn:Ei.
  pose proof (init_spec sizeof_wirecall_call WIRECALL_CALL_ARENA_CAPACITY w r a w1 H64 ltac:(unfold sizeof_wirecall_call; lia)
    ltac:(unfold WIRECALL_CALL_ARENA_CAPACITY; lia) Hi Ei) as Hr.
  destruct r as [u| |]; [| done | done]. injection E as <- <- <- <-. destruct Hr as (Hok & Hu & Hcap & _ & _ & ab & Eb & _ & _ & _ & _ & Hpown).
  eapply owns_alloc in Ea; [| unfold sizeof_wirecall_scheduler; lia | exact Ho].
  exists (ab, ar_bytes a.1). cbn [s_arena s_client s_trace fst snd]. split; [done |]. split; [done |]. split; [done |].
  destruct Ea as (Hih & Hnd & Hdis & Hhl). apply list.NoDup_cons in Hnd as [Hbn Hnd].
  assert (Hbb : b ∉ base) by (apply Hdis; apply elem_of_cons; by left).
  split; [| done]. constructor; unfold calls; cbn [s_arena s_head s_tail s_heap s_pages s_client]; rewrite ?Hu; try done.
  - intros p. rewrite lookup_empty. split; [by intros [? ?] | by intros ?%elem_of_nil].
  - by constructor.
  - split; [done |]. split; [done |]. cbn [collect map_to_list app]. split.
    + intros p Hp Hin. apply elem_of_union in Hin as [Hin | Hin]; [| by apply (Hdis p); [apply elem_of_cons; by right |]].
      apply elem_of_singleton in Hin as ->. done.
    + rewrite Hhl. cbn. apply leibniz_equiv. set_solver.
  - apply Hpown. by apply pages_own_start.
Qed.

(** *** Runs from an initialised scheduler *)
Inductive sched_reach (s0 : sched W P X) : sched W P X -> Prop :=
| sreach_start : sched_reach s0 s0
| sreach_submit s ci pi hd dt payload n dd r s' :
    sched_reach s0 s -> payload_ok payload n ->
    wirecall_scheduler_submit coro_size done_cb ci pi (Some hd) dt payload n true dd s = (r, s') -> sched_reach s0 s'
| sreach_run s fuel r s' :
    sched_reach s0 s -> run_ready coro_size segment done_cb fuel s = (r, s') -> sched_reach s0 s'.

Lemma run_ready_keeps base pbase pl fuel q s :
  sched_ok base pbase pl q [] s -> exists q', sched_ok base pbase pl q' [] (run_ready coro_size segment done_cb fuel s).2.
Proof.
  revert q s. induction fuel as [|fuel IH]; intros q s Hok; [by exists q |]. cbn [run_ready]. unfold bind at 1.
  destruct q as [|p q]; [unfold run_one; unfold bind at 1; rewrite (dequeue_nil _ _ _ _ _ Hok); by exists [] |].
  assert (is_Some (calls s !! p)) as [c Hp] by (apply (so_dom _ _ _ _ _ _ Hok); by left).
  destruct (run_one_spec _ _ _ _ _ _ _ Hok Hp) as (s1 & r & w & h & E1 & _ & _ & Hr). rewrite E1.
  destruct r as [v|]; [destruct Hr as [Hok1 _] | destruct Hr as [Hok1 _]]; by eapply IH.
Qed.

Lemma sched_reach_ok base pbase pl s0 s :
  sched_ok base pbase pl [] [] s0 -> sched_reach s0 s -> exists q, sched_ok base pbase pl q [] s.
Proof.
  intros H0. induction 1 as [|s ci pi hd dt payload n dd r s' _ [q IH] Hpay E|s fuel r s' _ [q IH] E]; [by exists [] | |].
  - destruct (submit_spec _ _ _ _ _ _ _ _ _ _ _ _ _ _ IH Hpay E) as [(_ & ? & _) | [(p & c & _ & ? & _) | (c & _ & ? & _)]]; eauto.
  - destruct (run_ready_keeps _ _ _ fuel _ _ IH) as [q' Hq]. rewrite E in Hq. by exists q'.
Qed.

(** the keys of the queued calls are those of the calls in use *)
Lemma keys_in_use q (m : gmap Z wirecall_call) :
  NoDup q -> (forall p, is_Some (m !! p) <-> p ∈ q) ->
  omap (fun p => call_key <$> m !! p) q ≡ₚ map call_key (map snd (map_to_list m)).
Proof.
  revert m. induction q as [|p q IH]; intros m Hn Hd.
  - assert (m = ∅) as ->; [| done]. apply map_eq. intros p. rewrite lookup_empty. apply eq_None_not_Some. rewrite Hd. by intros ?%elem_of_nil.
  - apply list.NoDup_cons in Hn as [Hp Hn]. destruct (proj2 (Hd p)) as [c Hc]; [by left |].
    assert (Hm : map_to_list m ≡ₚ (p, c) :: map_to_list (delete p m)).
    { rewrite <- (insert_id m p c) at 1 by done. rewrite <- insert_delete_eq. by rewrite map_to_list_insert by apply lookup_delete_eq. }
    rewrite Hm. cbn [omap list_omap map snd]. rewrite Hc. cbn. constructor.
    rewrite <- (IH (delete p m) Hn).
    + apply eq_subrelation; [apply _ |]. clear IH Hd Hm Hn. induction q as [|x q IHq]; [done |].
      apply not_elem_of_cons in Hp as [Hx Hp]. cbn. rewrite lookup_delete_ne by done. by rewrite IHq.
    + intros x. rewrite lookup_delete_is_Some, Hd, elem_of_cons. split; [by intros [? [-> | ?]] |].
      intros Hx. split; [intros ->; done | by right].
Qed.

(** *** A handler that never returns *)
Lemma run_ready_starves base pbase pl fuel q s :
  (forall hd dt ci pi a n w h, (segment hd dt ci pi a n w h).1.1 = None) ->
  sched_ok base pbase pl q [] s -> q <> [] -> (run_ready coro_size segment done_cb fuel s).1 = Ok None.
Proof.
  intros Hnone. revert q s. induction fuel as [|fuel IH]; intros q s Hok Hq; [done |]. cbn [run_ready]. unfold bind at 1.
  destruct q as [|p q]; [done |].
  assert (is_Some (calls s !! p)) as [c Hp] by (apply (so_dom _ _ _ _ _ _ Hok); by left).
  destruct (run_one_spec _ _ _ _ _ _ _ Hok Hp) as (s1 & r & w & h & E1 & _ & Eseg & Hr). rewrite E1.
  pose proof (Hnone (c_handler c) (c_handler_data c) (c_call_id c) (c_proc_id c) (c_args c) (co_step c) (c_response c) (s_heap s)) as Hn.
  rewrite Eseg in Hn. cbn in Hn. subst r. destruct Hr as [Hok1 _]. apply (IH _ _ Hok1). by destruct q.
Qed.
End SchedulerFacts.

(** ** A concrete scheduler, to evaluate: a handler that yields [handler] times
    and then answers with one value, and a client that keeps nothing *)
Definition toy_segment (handler data call_id proc_id : Z) (args : value_array) (n : nat) (w : wirecall_writer) (h : toy)
    : option Z * wirecall_writer * toy :=
  if Z.of_nat n <? handler then (None, w, h)
  else let '(_, (w', h')) := write_value (H := host_lp64) PNull (w, h) in (Some 0, w', h').
Definition toy_done (c : wirecall_call) (d : Z) (x : unit) (h : toy) : unit * toy := (x, h).
Definition toy_life (handler data : Z) (args : value_array) : nat := S (Z.to_nat handler).

Lemma toy_segment_lawful : segment_lawful toy_segment.
Proof.
  intros hd dt ci pi a n w h r w' h' base l Hw Ho. unfold toy_segment. destruct (_ <? _); [by intros [= <- <- <-] |].
  destruct (write_value PNull (w, h)) as [r1 [w1 h1]] eqn:E. intros [= <- <- <-].
  by destruct (write_value_spec (HH := host_lp64) base l PNull _ _ _ _ _ I Hw Ho E) as (? & ? & _).
Qed.

Lemma toy_done_lawful : done_lawful toy_done (fun _ => []).
Proof. by intros c d x h x' h' base l Ho [= <- <-]. Qed.

Lemma toy_life_ends hd dt ci pi a n w h : (toy_life hd dt a <= S n)%nat -> (toy_segment hd dt ci pi a n w h).1.1 <> None.
Proof.
  unfold toy_life, toy_segment. intros Hl. destruct (Z.of_nat n <? hd) eqn:E; zb; [lia |].
  by destruct (write_value PNull (w, h)) as [r1 [w1 h1]].
Qed.

Definition toy_init := wirecall_scheduler_init (HH := host_lp64) tt (toy_empty []) toy_pages_empty.
Definition toy_sched_0 : sched toy toy_pages unit :=
  match toy_init.1 with
  | Some (_, s) => s
  | None => {| s_head := None; s_tail := None; s_arena := (arena_zero, ∅); s_heap := toy_empty []; s_pages := toy_pages_empty;
               s_client := tt; s_trace := [] |}
  end.
Definition toy_payload : list Z := [3; 0; 0; 0; 0; 0; 0; 0; 7].
Definition toy_submit (id handler : Z) (s : sched toy toy_pages unit) :=
  wirecall_scheduler_submit (HH := host_lp64) 4096 toy_done id 9 (Some handler) 0 (Some toy_payload) 9 true (100 + id) s.
Definition toy_sched_1 := (toy_submit 1 2 toy_sched_0).2.
Definition toy_sched_2 := (toy_submit 2 0 toy_sched_1).2.

Lemma toy_payload_ok : payload_ok (Some toy_payload) 9.
Proof. split; [by_compute | by_compute]. Qed.

Lemma toy_empty_owns : owns (heap_live (toy_empty [])) [] (toy_empty []).
Proof. apply owns_start. apply toy_empty_inv. Qed.

(** ** Properties *)

(** C33: in every state a scheduler reaches, submitting a call has one of
    three outcomes: it is refused with nothing changed; it is queued, with its
    arguments decoded from the payload, behind the calls already there; or its
    callback has run once with result -1 and an error text (a malformed payload
    or no memory for the coroutine).  In each of them the queue, the arena, the
    heap and the coroutine stacks stay accounted for, block by block. *)
Theorem scheduler_submit_outcomes `{Host} `{Heap W} `{Pages P} {X} coro_size segment done_cb (client_blocks : X -> list Z)
    x (h : W) (w : P) block s0 h' w' base s ci pi hd dt payload n dd r s' :
  size_bits = 64 -> 0 < coro_size -> segment_lawful segment -> done_lawful done_cb client_blocks ->
  owns base (client_blocks x) h -> pages_inv w -> wirecall_scheduler_init x h w = (Some (block, s0), (h', w')) ->
  sched_reach coro_size segment done_cb s0 s -> payload_ok payload n ->
  wirecall_scheduler_submit coro_size done_cb ci pi (Some hd) dt payload n true dd s = (r, s') ->
  exists arena q, submitted coro_size client_blocks ({[block]} ∪ base) (pages_live w) [arena] q s ci pi hd dt payload n dd r s'.
Proof.
  intros H64 Hc Hs Hd Ho Hi Einit Hreach Hpay E.
  destruct (init_sched_ok coro_size H64 client_blocks x h w block s0 h' w' base _ Einit Ho Hi eq_refl) as (arena & _ & _ & _ & Hok0 & _).
  destruct (sched_reach_ok coro_size segment done_cb Hc H64 Hs client_blocks Hd _ _ _ _ _ Hok0 Hreach) as [q Hok].
  exists arena, q. by apply (submit_spec coro_size done_cb Hc H64 client_blocks Hd).
Qed.

Lemma scheduler_submit_outcomes_witness :
  exists arena q, submitted 4096 (fun _ => []) ({[1]} ∪ heap_live (toy_empty [])) (pages_live toy_pages_empty) [arena] q toy_sched_1
    2 9 0 0 (Some toy_payload) 9 (100 + 2) (toy_submit 2 0 toy_sched_1).1 (toy_submit 2 0 toy_sched_1).2.
Proof.
  apply (scheduler_submit_outcomes (H := host_lp64) 4096 toy_segment toy_done (fun _ => []) tt (toy_empty []) toy_pages_empty 1 toy_sched_0
    toy_init.2.1 toy_init.2.2 (heap_live (toy_empty [])) toy_sched_1).
  - reflexivity.
  - lia.
  - apply toy_segment_lawful.
  - apply toy_done_lawful.
  - apply toy_empty_owns.
  - apply toy_pages_empty_inv.
  - vm_compute. reflexivity.
  - apply (sreach_submit (HH := host_lp64) 4096 toy_segment toy_done toy_sched_0 toy_sched_0 1 9 2 0 (Some toy_payload) 9 (100 + 1) (toy_submit 1 2 toy_sched_0).1);
      [constructor | apply toy_payload_ok | vm_compute; reflexivity].
  - apply toy_payload_ok.
  - vm_compute. reflexivity.
Defined.

(** C8: if every handler returns within some number of resumes, running the
    ready queue stops: the callback of every call that was queued has run
    exactly once, with the call completed, no call is left, everything the calls
    held in the heap is released, and their coroutines are destroyed: the pages
    that are mapped are those of the new scheduler. *)
Theorem scheduler_completes `{Host} `{Heap W} `{Pages P} {X} coro_size segment done_cb (client_blocks : X -> list Z)
    x (h : W) (w : P) block s0 h' w' base s life :
  size_bits = 64 -> 0 < coro_size -> segment_lawful segment -> done_lawful done_cb client_blocks ->
  owns base (client_blocks x) h -> pages_inv w -> wirecall_scheduler_init x h w = (Some (block, s0), (h', w')) ->
  sched_reach coro_size segment done_cb s0 s ->
  (forall hd dt ci pi a n w h, (life hd dt a <= S n)%nat -> (segment hd dt ci pi a n w h).1.1 <> None) ->
  exists turns, forall fuel, (turns < fuel)%nat ->
  exists s' tr, run_ready coro_size segment done_cb fuel s = (Ok (Some tt), s') /\
    s_trace s' = s_trace s ++ tr /\ map call_key tr ≡ₚ map call_key (map snd (map_to_list (calls s))) /\
    Forall (fun c => c_completed c = true) tr /\ calls s' = ∅ /\
    owns ({[block]} ∪ base) (client_blocks (s_client s')) (s_heap s') /\ pages_live (s_pages s') = pages_live (s_pages s0).
Proof.
  intros H64 Hc Hs Hd Ho Hi Einit Hreach Hlife.
  destruct (init_sched_ok coro_size H64 client_blocks x h w block s0 h' w' base _ Einit Ho Hi eq_refl) as (arena & _ & _ & _ & Hok0 & _).
  destruct (sched_reach_ok coro_size segment done_cb Hc H64 Hs client_blocks Hd _ _ _ _ _ Hok0 Hreach) as [q Hok].
  exists (work life s q). intros fuel Hf.
  destruct (run_ready_spec coro_size segment done_cb Hs client_blocks Hd life Hlife _ _ _ fuel q s Hok Hf) as (s' & tr & E & Hok' & Et & Hk & Hall).
  destruct (idle_released coro_size client_blocks _ _ _ _ Hok') as (Hc0 & Ho' & Hp').
  destruct (idle_released coro_size client_blocks _ _ _ _ Hok0) as (_ & _ & Hp0).
  assert (Hpages : pages_live (s_pages s') = pages_live (s_pages s0)) by (by destruct Hp' as (_ & _ & _ & ->), Hp0 as (_ & _ & _ & ->)).
  exists s', tr. split; [done |]. split; [done |]. split; [| done]. rewrite Hk. unfold keys.
  pose proof (so_nodup _ _ _ _ _ _ _ _ Hok) as Hn. pose proof (so_dom _ _ _ _ _ _ _ _ Hok) as Hdm.
  setoid_rewrite app_nil_r in Hdm. rewrite app_nil_r in Hn. by apply keys_in_use.
Qed.

Lemma scheduler_completes_witness :
  exists turns, forall fuel, (turns < fuel)%nat ->
  exists s' tr, run_ready 4096 toy_segment toy_done fuel toy_sched_2 = (Ok (Some tt), s') /\
    s_trace s' = s_trace toy_sched_2 ++ tr /\ map call_key tr ≡ₚ map call_key (map snd (map_to_list (calls toy_sched_2))) /\
    Forall (fun c => c_completed c = true) tr /\ calls s' = ∅ /\
    owns ({[1]} ∪ heap_live (toy_empty [])) [] (s_heap s') /\ pages_live (s_pages s') = pages_live (s_pages toy_sched_0).
Proof.
  apply (scheduler_completes (H := host_lp64) 4096 toy_segment toy_done (fun _ => []) tt (toy_empty []) toy_pages_empty 1 toy_sched_0
    toy_init.2.1 toy_init.2.2 (heap_live (toy_empty [])) toy_sched_2 toy_life).
  - reflexivity.
  - lia.
  - apply toy_segment_lawful.
  - apply toy_done_lawful.
  - apply toy_empty_owns.
  - apply toy_pages_empty_inv.
  - vm_compute. reflexivity.
  - apply (sreach_submit (HH := host_lp64) 4096 toy_segment toy_done toy_sched_0 toy_sched_1 2 9 0 0 (Some toy_payload) 9 (100 + 2) (toy_submit 2 0 toy_sched_1).1);
      [| apply toy_payload_ok | vm_compute; reflexivity].
    apply (sreach_submit (HH := host_lp64) 4096 toy_segment toy_done toy_sched_0 toy_sched_0 1 9 2 0 (Some toy_payload) 9 (100 + 1) (toy_submit 1 2 toy_sched_0).1);
      [constructor | apply toy_payload_ok | vm_compute; reflexivity].
  - exact toy_life_ends.
Defined.

(** the run of the sample: the second call ends first, the first after two yields *)
Example toy_run_order : map call_key (s_trace (run_ready 4096 toy_segment toy_done 6 toy_sched_2).2) = [(2, 9, 102); (1, 9, 101)].
Proof. vm_compute. reflexivity. Qed.

Definition yield_segment (handler data call_id proc_id : Z) (args : value_array) (n : nat) (w : wirecall_writer) (h : toy)
    : option Z * wirecall_writer * toy := (None, w, h).

(** Wirecall_ctx_yield does not return to the event loop: a call that
    keeps yielding is resumed again at once, so that with one such call in the
    queue wirecall_scheduler_run_ready never returns, whatever the number of
    turns. *)
Theorem scheduler_yield_starves fuel :
  (run_ready 4096 yield_segment toy_done fuel toy_sched_1).1 = Ok None.
Proof.
  assert (Hs : segment_lawful yield_segment) by (by intros hd dt ci pi a n w h r w' h' base l Hw Ho [= <- <- <-]).
  destruct toy_init as [[[b s]|] [h w]] eqn:E; [| by vm_compute in E].
  assert (Es : toy_sched_0 = s) by (unfold toy_sched_0; by rewrite E).
  destruct (init_sched_ok (HH := host_lp64) 4096 eq_refl (fun _ : unit => []) tt (toy_empty []) toy_pages_empty b s h w _ _ E toy_empty_owns
    toy_pages_empty_inv eq_refl) as (arena & _ & _ & _ & Hok & _). rewrite <- Es in Hok.
  destruct (submit_spec (HH := host_lp64) 4096 toy_done ltac:(lia) eq_refl (fun _ => []) toy_done_lawful _ _ _ _ toy_sched_0 1 9 2 0 (Some toy_payload) 9 (100 + 1) (toy_submit 1 2 toy_sched_0).1
    toy_sched_1 Hok toy_payload_ok (surjective_pairing _)) as [(Er & _) | [(p & c & _ & Hok1 & _) | (c & _ & _ & Et & _)]].
  - by vm_compute in Er.
  - by apply (run_ready_starves 4096 yield_segment toy_done Hs (fun _ => []) toy_done_lawful _ _ _ fuel _ _ ltac:(done) Hok1).
  - by vm_compute in Et.
Qed.
