(* ===== verification/Net.v ===== *)
(** * Net: sockets (include/platform.h, the POSIX half)

    The kernel is a parameter: the class [Net] has the calls the library makes
    on sockets, the set of open descriptors, and for every descriptor the
    bytes received from it and sent on it so far.  Its laws are what POSIX
    documents: a call acts on its own descriptor, recv returns between one and
    [size] bytes that extend the received stream, send takes a prefix of what it
    is given, a new descriptor is not one that is open.  [net_work] bounds the
    answers that make a loop of the library go round again (data, interrupts,
    accepted connections) in the run that is considered; it can be any number.

    The wrappers of platform.h follow, and a scripted network, [toynet], used
    to evaluate the models.  The Windows half is in WinPlatform.v. *)

From S2P Require Import Prelude Words.

(** errno values (Linux) *)
Definition EINTR : Z := 4.
Definition EAGAIN : Z := 11.
Definition EWOULDBLOCK : Z := 11.

Inductive recv_answer := RBytes (bs : list Z) | REof | RErr (e : Z).
Inductive send_answer := SSent (n : Z) | SErr (e : Z).
Inductive fd_answer := FOk (fd : Z) | FErr (e : Z).

#[global] Instance recv_answer_eq_dec : EqDecision recv_answer.
Proof. solve_decision. Defined.

(** a socket address: family, host part, and the port in network byte order *)
Record sockaddr := { sa_family : Z; sa_host : Z; sa_port : Z }.
Definition AF_INET : Z := 2.
Definition AF_INET6 : Z := 10.

(** [n'] differs from [n] in nothing the library can see of its streams *)
Record quiet {N : Type} (opn : N -> gset Z) (rcv snt : Z -> N -> list Z) (work : N -> nat) (n n' : N) : Prop := {
  quiet_open : opn n' = opn n;
  quiet_received : forall fd, rcv fd n' = rcv fd n;
  quiet_sent : forall fd, snt fd n' = snt fd n;
  quiet_work : (work n' <= work n)%nat;
}.

Class Net (N : Type) := {
  net_recv : Z -> Z -> N -> recv_answer * N;
  net_send : Z -> list Z -> N -> send_answer * N;
  net_socket : sockaddr -> N -> fd_answer * N;
  net_accept : Z -> N -> fd_answer * N;
  net_close : Z -> N -> N;
  net_connect : Z -> sockaddr -> N -> Z * N;
  net_bind : Z -> sockaddr -> N -> Z * N;
  net_listen : Z -> N -> Z * N;
  (** fcntl with F_GETFL, and with F_SETFL *)
  net_getfl : Z -> N -> Z * N;
  net_setfl : Z -> Z -> N -> Z * N;
  net_getsockname : Z -> N -> option sockaddr * N;
  net_getaddrinfo : option (list Z) -> list Z -> bool -> N -> option (list sockaddr) * N;

  net_open : N -> gset Z;
  net_received : Z -> N -> list Z;
  net_sent : Z -> N -> list Z;
  net_work : N -> nat;

  law_recv : forall fd size n r n', 0 < size -> fd ∈ net_open n -> net_recv fd size n = (r, n') ->
    match r with
    | RBytes bs =>
        0 < zlen bs <= size /\ bytes_ok bs /\ net_open n' = net_open n /\
        (forall d, net_received d n' = if decide (d = fd) then net_received d n ++ bs else net_received d n) /\
        (forall d, net_sent d n' = net_sent d n) /\ (net_work n' < net_work n)%nat
    | REof => quiet net_open net_received net_sent net_work n n'
    | RErr e => quiet net_open net_received net_sent net_work n n' /\ (e = EINTR -> (net_work n' < net_work n)%nat)
    end;
  law_send : forall fd data n r n', fd ∈ net_open n -> net_send fd data n = (r, n') ->
    match r with
    | SSent k =>
        0 <= k <= zlen data /\ net_open n' = net_open n /\ (forall d, net_received d n' = net_received d n) /\
        (forall d, net_sent d n' = if decide (d = fd) then net_sent d n ++ ztake k data else net_sent d n) /\
        (net_work n' <= net_work n)%nat
    | SErr e => quiet net_open net_received net_sent net_work n n' /\ (e = EINTR -> (net_work n' < net_work n)%nat)
    end;
  law_socket : forall a n r n', net_socket a n = (r, n') ->
    match r with
    | FOk fd =>
        0 <= fd /\ (fd ∉ net_open n) /\ net_open n' = {[fd]} ∪ net_open n /\
        net_received fd n' = [] /\ net_sent fd n' = [] /\
        (forall d, d <> fd -> net_received d n' = net_received d n /\ net_sent d n' = net_sent d n) /\
        (net_work n' <= net_work n)%nat
    | FErr _ => quiet net_open net_received net_sent net_work n n'
    end;
  law_accept : forall lfd n r n', lfd ∈ net_open n -> net_accept lfd n = (r, n') ->
    match r with
    | FOk fd =>
        0 <= fd /\ (fd ∉ net_open n) /\ net_open n' = {[fd]} ∪ net_open n /\
        net_received fd n' = [] /\ net_sent fd n' = [] /\
        (forall d, d <> fd -> net_received d n' = net_received d n /\ net_sent d n' = net_sent d n) /\
        (net_work n' < net_work n)%nat
    | FErr e => quiet net_open net_received net_sent net_work n n' /\ (e = EINTR -> (net_work n' < net_work n)%nat)
    end;
  law_close : forall fd n, fd ∈ net_open n ->
    net_open (net_close fd n) = net_open n ∖ {[fd]} /\ (net_work (net_close fd n) <= net_work n)%nat /\
    (forall d, net_received d (net_close fd n) = net_received d n /\ net_sent d (net_close fd n) = net_sent d n);
  law_connect : forall fd a n, quiet net_open net_received net_sent net_work n (net_connect fd a n).2;
  law_bind : forall fd a n, quiet net_open net_received net_sent net_work n (net_bind fd a n).2;
  law_listen : forall fd n, quiet net_open net_received net_sent net_work n (net_listen fd n).2;
  law_getfl : forall fd n, quiet net_open net_received net_sent net_work n (net_getfl fd n).2;
  law_setfl : forall fd f n, quiet net_open net_received net_sent net_work n (net_setfl fd f n).2;
  law_getsockname : forall fd n, quiet net_open net_received net_sent net_work n (net_getsockname fd n).2;
  law_getaddrinfo : forall h p f n, quiet net_open net_received net_sent net_work n (net_getaddrinfo h p f n).2;
}.

Notation net_quiet := (quiet net_open net_received net_sent net_work).

(** ** platform.h *)
Definition wirecall_socket_interrupted (error : Z) : bool := error =? EINTR.
Definition wirecall_socket_would_block (error : Z) : bool := (error =? EAGAIN) || (error =? EWOULDBLOCK).

Definition O_NONBLOCK : Z := 2048.

Section Platform.
Context `{NN : Net K}.

Definition wirecall_socket_set_nonblock (fd : Z) : M K unit := fun n =>
  let '(flags, n) := net_getfl fd n in
  if flags <? 0 then (Err, n)
  else
    let '(rc, n) := net_setfl fd (Z.lor flags O_NONBLOCK) n in
    (if rc =? 0 then Ok tt else Err, n).

(** [sysconf(_SC_NPROCESSORS_ONLN)] is the argument *)
Definition wirecall_cpu_count (nprocessors : Z) : Z := if 0 <? nprocessors then u32 nprocessors else 1.

(** clock_gettime's answer is the argument *)
Definition wirecall_time_ns (tv_sec tv_nsec : Z) : Z := u64 (u64 (u64 tv_sec * 1000000000) + u64 tv_nsec).

Lemma quiet_refl n : net_quiet n n.
Proof. by constructor. Qed.

Lemma quiet_trans n n' n'' : net_quiet n n' -> net_quiet n' n'' -> net_quiet n n''.
Proof. intros [] []. constructor; [congruence | congruence | congruence | lia]. Qed.

Lemma set_nonblock_quiet fd n r n' : wirecall_socket_set_nonblock fd n = (r, n') -> net_quiet n n' /\ r <> UB.
Proof.
  unfold wirecall_socket_set_nonblock. pose proof (law_getfl fd n) as Hg.
  destruct (net_getfl fd n) as [flags n1]. cbn [snd] in Hg.
  destruct (flags <? 0); [by intros [= <- <-] |].
  pose proof (law_setfl fd (Z.lor flags O_NONBLOCK) n1) as Hs.
  destruct (net_setfl fd (Z.lor flags O_NONBLOCK) n1) as [rc n2]. cbn [snd] in Hs.
  intros [= <- <-]. split; [by eapply quiet_trans | by destruct (rc =? 0)].
Qed.
End Platform.

(** states of a network in which [avail] is on its way to [fd]: recv on it
    is interrupted or delivers, and sending on it does not disturb that *)
Record delivers `{Net K} (fd : Z) (Q : list Z -> K -> Prop) : Prop := {
  del_recv : forall avail n size, 0 < size -> avail <> [] -> fd ∈ net_open n -> Q avail n ->
    exists r n', net_recv fd size n = (r, n') /\
      ((exists bs rest, r = RBytes bs /\ avail = bs ++ rest /\ Q rest n') \/ (r = RErr EINTR /\ Q avail n'));
}.
(** states in which send takes at least a byte or is interrupted *)
Record accepts_data `{Net K} (fd : Z) (Q : K -> Prop) : Prop := {
  acc_send : forall data n, data <> [] -> fd ∈ net_open n -> Q n ->
    exists r n', net_send fd data n = (r, n') /\ Q n' /\ ((exists k, r = SSent k /\ 0 < k) \/ r = SErr EINTR);
}.

(** ** A scripted network *)
Inductive toyrecv := TBytes (bs : list Z) | TErr (e : Z).
Inductive toysend := TTake (n : Z) | TRefuse (e : Z).

Record toynet := {
  tn_open : gset Z;
  tn_next : Z;
  tn_recvs : list toyrecv;
  (** the answer of recv when its script is used up: would block, or end of file *)
  tn_blocks : bool;
  tn_sends : list toysend;
  tn_accepts : list (option Z);
  tn_status : list Z;
  tn_addrs : option (list sockaddr);
  tn_received : gmap Z (list Z);
  tn_sent : gmap Z (list Z);
}.

Definition toynet_work (t : toynet) : nat :=
  foldr (fun r k => (match r with TBytes bs => S (length bs) | TErr _ => 1 end + k)%nat) 0%nat (tn_recvs t) +
  length (tn_sends t) + length (tn_accepts t).
Definition toynet_received (fd : Z) (t : toynet) : list Z := default [] (tn_received t !! fd).
Definition toynet_sent (fd : Z) (t : toynet) : list Z := default [] (tn_sent t !! fd).

Definition set_recvs (l : list toyrecv) (t : toynet) : toynet :=
  {| tn_open := tn_open t; tn_next := tn_next t; tn_recvs := l; tn_blocks := tn_blocks t; tn_sends := tn_sends t;
     tn_accepts := tn_accepts t; tn_status := tn_status t; tn_addrs := tn_addrs t; tn_received := tn_received t; tn_sent := tn_sent t |}.
Definition add_received (fd : Z) (bs : list Z) (t : toynet) : toynet :=
  {| tn_open := tn_open t; tn_next := tn_next t; tn_recvs := tn_recvs t; tn_blocks := tn_blocks t; tn_sends := tn_sends t;
     tn_accepts := tn_accepts t; tn_status := tn_status t; tn_addrs := tn_addrs t;
     tn_received := <[fd := toynet_received fd t ++ bs]> (tn_received t); tn_sent := tn_sent t |}.
Definition set_sends (l : list toysend) (t : toynet) : toynet :=
  {| tn_open := tn_open t; tn_next := tn_next t; tn_recvs := tn_recvs t; tn_blocks := tn_blocks t; tn_sends := l;
     tn_accepts := tn_accepts t; tn_status := tn_status t; tn_addrs := tn_addrs t; tn_received := tn_received t; tn_sent := tn_sent t |}.
Definition add_sent (fd : Z) (bs : list Z) (t : toynet) : toynet :=
  {| tn_open := tn_open t; tn_next := tn_next t; tn_recvs := tn_recvs t; tn_blocks := tn_blocks t; tn_sends := tn_sends t;
     tn_accepts := tn_accepts t; tn_status := tn_status t; tn_addrs := tn_addrs t;
     tn_received := tn_received t; tn_sent := <[fd := toynet_sent fd t ++ bs]> (tn_sent t) |}.
Definition set_status (l : list Z) (t : toynet) : toynet :=
  {| tn_open := tn_open t; tn_next := tn_next t; tn_recvs := tn_recvs t; tn_blocks := tn_blocks t; tn_sends := tn_sends t;
     tn_accepts := tn_accepts t; tn_status := l; tn_addrs := tn_addrs t; tn_received := tn_received t; tn_sent := tn_sent t |}.
Definition set_accepts (l : list (option Z)) (t : toynet) : toynet :=
  {| tn_open := tn_open t; tn_next := tn_next t; tn_recvs := tn_recvs t; tn_blocks := tn_blocks t; tn_sends := tn_sends t;
     tn_accepts := l; tn_status := tn_status t; tn_addrs := tn_addrs t; tn_received := tn_received t; tn_sent := tn_sent t |}.
Definition set_open (o : gset Z) (t : toynet) : toynet :=
  {| tn_open := o; tn_next := tn_next t; tn_recvs := tn_recvs t; tn_blocks := tn_blocks t; tn_sends := tn_sends t;
     tn_accepts := tn_accepts t; tn_status := tn_status t; tn_addrs := tn_addrs t; tn_received := tn_received t; tn_sent := tn_sent t |}.

(** a byte of a script, brought into range *)
Definition toy_bytes (bs : list Z) : list Z := map u8 bs.

Definition toynet_recv (fd size : Z) (t : toynet) : recv_answer * toynet :=
  match tn_recvs t with
  | [] => (if tn_blocks t then RErr EAGAIN else REof, t)
  | TErr e :: rest => (RErr e, set_recvs rest t)
  | TBytes [] :: rest => (REof, set_recvs rest t)
  | TBytes bs :: rest =>
      let got := toy_bytes (ztake size bs) in
      let more := zdrop size bs in
      (RBytes got, add_received fd got (set_recvs (match more with [] => rest | _ => TBytes more :: rest end) t))
  end.

Definition toynet_send (fd : Z) (data : list Z) (t : toynet) : send_answer * toynet :=
  match tn_sends t with
  | [] => (SSent (zlen data), add_sent fd data t)
  | TRefuse e :: rest => (SErr e, set_sends rest t)
  | TTake k :: rest =>
      let k := Z.min (Z.max 0 k) (zlen data) in
      (SSent k, add_sent fd (ztake k data) (set_sends rest t))
  end.

(** the next descriptor: greater than every one that is open or was *)
Definition toynet_fresh (t : toynet) : Z * toynet :=
  let fd := Z.max (Z.max 3 (tn_next t))
              (1 + foldr Z.max 0 (elements (tn_open t ∪ dom (tn_received t) ∪ dom (tn_sent t)))) in
  (fd, {| tn_open := {[fd]} ∪ tn_open t; tn_next := fd + 1; tn_recvs := tn_recvs t; tn_blocks := tn_blocks t;
          tn_sends := tn_sends t; tn_accepts := tn_accepts t; tn_status := tn_status t; tn_addrs := tn_addrs t;
          tn_received := tn_received t; tn_sent := tn_sent t |}).

Definition toynet_pop (t : toynet) : Z * toynet :=
  match tn_status t with
  | [] => (0, t)
  | a :: rest => (a, set_status rest t)
  end.

Definition toynet_socket (t : toynet) : fd_answer * toynet :=
  let '(a, t) := toynet_pop t in
  if a =? 0 then let '(fd, t) := toynet_fresh t in (FOk fd, t) else (FErr a, t).

Definition toynet_accept (t : toynet) : fd_answer * toynet :=
  match tn_accepts t with
  | [] => (FErr EAGAIN, t)
  | Some e :: rest => (FErr e, set_accepts rest t)
  | None :: rest => let '(fd, t) := toynet_fresh (set_accepts rest t) in (FOk fd, t)
  end.

Lemma foldr_max_ge l : 0 <= foldr Z.max 0 l.
Proof. induction l as [|x l IH]; cbn; lia. Qed.
Lemma foldr_max_elem l x : x ∈ l -> x <= foldr Z.max 0 l.
Proof. induction 1; cbn; lia. Qed.

Lemma toynet_pop_quiet t : quiet tn_open toynet_received toynet_sent toynet_work t (toynet_pop t).2.
Proof. unfold toynet_pop. destruct (tn_status t); by constructor. Qed.

Lemma toynet_fresh_spec t fd t' :
  toynet_fresh t = (fd, t') ->
  0 <= fd /\ (fd ∉ tn_open t) /\ tn_open t' = {[fd]} ∪ tn_open t /\
  toynet_received fd t' = [] /\ toynet_sent fd t' = [] /\
  (forall d, d <> fd -> toynet_received d t' = toynet_received d t /\ toynet_sent d t' = toynet_sent d t) /\
  toynet_work t' = toynet_work t.
Proof.
  unfold toynet_fresh. set (used := tn_open t ∪ dom (tn_received t) ∪ dom (tn_sent t)).
  set (top := foldr Z.max 0 (elements used)). intros [= <- <-].
  pose proof (foldr_max_ge (elements used)) as Hge. fold top in Hge.
  set (fd := Z.max (Z.max 3 (tn_next t)) (1 + top)).
  assert (Hfd : fd ∉ used).
  { intros Hin. apply elem_of_elements, foldr_max_elem in Hin. fold top in Hin. lia. }
  unfold used in Hfd. rewrite !not_elem_of_union, !not_elem_of_dom in Hfd. destruct Hfd as [[Ho Hr] Hs].
  split; [lia |]. split; [done |]. split; [done |].
  unfold toynet_received, toynet_sent. cbn [tn_received tn_sent]. rewrite Hr, Hs. done.
Qed.

Lemma toynet_recv_spec fd size t r t' :
  0 < size -> toynet_recv fd size t = (r, t') ->
  match r with
  | RBytes bs =>
      0 < zlen bs <= size /\ bytes_ok bs /\ tn_open t' = tn_open t /\
      (forall d, toynet_received d t' = if decide (d = fd) then toynet_received d t ++ bs else toynet_received d t) /\
      (forall d, toynet_sent d t' = toynet_sent d t) /\ (toynet_work t' < toynet_work t)%nat
  | REof => quiet tn_open toynet_received toynet_sent toynet_work t t'
  | RErr e => quiet tn_open toynet_received toynet_sent toynet_work t t' /\ (e = EINTR -> (toynet_work t' < toynet_work t)%nat)
  end.
Proof.
  intros Hsize. unfold toynet_recv. destruct (tn_recvs t) as [|[[|b bs]|e] rest] eqn:E.
  - destruct (tn_blocks t); intros [= <- <-]; [split; [by constructor | done] | by constructor].
  - intros [= <- <-]. constructor; try done. unfold toynet_work. rewrite E. cbn [set_recvs tn_recvs tn_sends tn_accepts foldr]. lia.
  - intros [= <- <-]. unfold zlen, ztake, zdrop, toy_bytes, toynet_received. rewrite length_map, length_take.
    split; [cbn [length]; lia |].
    split; [apply Forall_map, Forall_true; intros x; apply u8_range |]. split; [done |].
    split; [| split; [done |]].
    + intros d. cbn [add_received tn_received set_recvs]. unfold toynet_received. case_decide as Hd.
      * subst d. by rewrite lookup_insert_eq.
      * by rewrite lookup_insert_ne.
    + unfold toynet_work. rewrite E. cbn [set_recvs add_received tn_recvs tn_sends tn_accepts foldr length].
      pose proof (length_drop (b :: bs) (Z.to_nat size)) as Hl. cbn [length] in Hl.
      destruct (drop (Z.to_nat size) (b :: bs)) as [|c more]; cbn [foldr length] in *; lia.
  - intros [= <- <-]. assert (Hw : (toynet_work (set_recvs rest t) < toynet_work t)%nat).
    { unfold toynet_work. rewrite E. cbn [set_recvs tn_recvs tn_sends tn_accepts foldr]. lia. }
    split; [| done]. constructor; try done. lia.
Qed.

Lemma toynet_send_spec fd data t r t' :
  toynet_send fd data t = (r, t') ->
  match r with
  | SSent k =>
      0 <= k <= zlen data /\ tn_open t' = tn_open t /\ (forall d, toynet_received d t' = toynet_received d t) /\
      (forall d, toynet_sent d t' = if decide (d = fd) then toynet_sent d t ++ ztake k data else toynet_sent d t) /\
      (toynet_work t' <= toynet_work t)%nat
  | SErr e => quiet tn_open toynet_received toynet_sent toynet_work t t' /\ (e = EINTR -> (toynet_work t' < toynet_work t)%nat)
  end.
Proof.
  pose proof (zlen_nonneg data). unfold toynet_send. destruct (tn_sends t) as [|[k|e] rest] eqn:E; intros [= <- <-].
  - split; [lia |]. split; [done |]. split; [done |]. split; [| done]. intros d. rewrite ztake_ge by lia.
    unfold toynet_sent at 1. cbn [add_sent tn_sent]. case_decide as Hd; [subst; by rewrite lookup_insert_eq | by rewrite lookup_insert_ne].
  - split; [lia |]. split; [done |]. split; [done |]. split.
    + intros d. unfold toynet_sent at 1. cbn [add_sent tn_sent set_sends]. case_decide as Hd; [subst; by rewrite lookup_insert_eq | by rewrite lookup_insert_ne].
    + unfold toynet_work. rewrite E. cbn [set_sends add_sent tn_recvs tn_sends tn_accepts length]. lia.
  - assert (Hw : (toynet_work (set_sends rest t) < toynet_work t)%nat).
    { unfold toynet_work. rewrite E. cbn [set_sends tn_recvs tn_sends tn_accepts length]. lia. }
    split; [| done]. constructor; try done. lia.
Qed.

#[local] Obligation Tactic := idtac.
#[global] Program Instance toynet_net : Net toynet := {|
  net_recv := toynet_recv;
  net_send := toynet_send;
  net_socket := fun _ => toynet_socket;
  net_accept := fun _ => toynet_accept;
  net_close := fun fd t => set_open (tn_open t ∖ {[fd]}) t;
  net_connect := fun _ _ => toynet_pop;
  net_bind := fun _ _ => toynet_pop;
  net_listen := fun _ => toynet_pop;
  net_getfl := fun _ t => (0, t);
  net_setfl := fun _ _ => toynet_pop;
  net_getsockname := fun fd t => (Some {| sa_family := AF_INET; sa_host := 0; sa_port := 0x901f |}, t);
  net_getaddrinfo := fun _ _ _ t => (tn_addrs t, t);
  net_open := tn_open;
  net_received := toynet_received;
  net_sent := toynet_sent;
  net_work := toynet_work;
|}.
Next Obligation. intros fd size n r n' Hs _ E. by eapply toynet_recv_spec. Qed.
Next Obligation. intros fd data n r n' _ E. by eapply toynet_send_spec. Qed.
Next Obligation.
  intros a0 n r n'. unfold toynet_socket. pose proof (toynet_pop_quiet n) as Hq.
  destruct (toynet_pop n) as [a n1]. cbn [snd] in Hq. destruct Hq as [Ho Hr Hs Hw].
  destruct (a =? 0); [| intros [= <- <-]; by constructor].
  destruct (toynet_fresh n1) as [fd n2] eqn:E. intros [= <- <-].
  destruct (toynet_fresh_spec _ _ _ E) as (H1 & H2 & H3 & H4 & H5 & H6 & H7).
  rewrite <- Ho. split_and!; try done; [| lia]. intros d Hd. destruct (H6 d Hd) as [-> ->]. done.
Qed.
Next Obligation.
  intros lfd n r n' _. unfold toynet_accept. destruct (tn_accepts n) as [|[e|] rest] eqn:Ea.
  - intros [= <- <-]. split; [by constructor | done].
  - intros [= <- <-]. assert (Hw : (toynet_work (set_accepts rest n) < toynet_work n)%nat).
    { unfold toynet_work. rewrite Ea. cbn [set_accepts tn_recvs tn_sends tn_accepts length]. lia. }
    split; [| done]. constructor; try done. lia.
  - destruct (toynet_fresh (set_accepts rest n)) as [fd n2] eqn:E. intros [= <- <-].
    destruct (toynet_fresh_spec _ _ _ E) as (H1 & H2 & H3 & H4 & H5 & H6 & H7).
    split_and!; try done. rewrite H7. unfold toynet_work. rewrite Ea. cbn [set_accepts tn_recvs tn_sends tn_accepts length]. lia.
Qed.
Next Obligation. intros fd n _. by split_and!. Qed.
Next Obligation. intros a1 a2 n. apply toynet_pop_quiet. Qed.
Next Obligation. intros a1 a2 n. apply toynet_pop_quiet. Qed.
Next Obligation. intros a1 n. apply toynet_pop_quiet. Qed.
Next Obligation. intros a1 n. by constructor. Qed.
Next Obligation. intros a1 a2 n. apply toynet_pop_quiet. Qed.
Next Obligation. intros fd n. by constructor. Qed.
Next Obligation. intros a1 a2 a3 n. by constructor. Qed.

(** a connected socket 3 with a script *)
Definition toynet_with (recvs : list toyrecv) (blocks : bool) (sends : list toysend) : toynet :=
  {| tn_open := {[3]}; tn_next := 4; tn_recvs := recvs; tn_blocks := blocks; tn_sends := sends; tn_accepts := [];
     tn_status := []; tn_addrs := None; tn_received := ∅; tn_sent := ∅ |}.

(** scripts that deliver, with interrupts, and scripts that take data *)
Fixpoint script_bytes (l : list toyrecv) : option (list Z) :=
  match l with
  | [] => Some []
  | TBytes [] :: _ => None
  | TBytes bs :: rest => if decide (bytes_ok bs) then option_map (app bs) (script_bytes rest) else None
  | TErr e :: rest => if e =? EINTR then script_bytes rest else None
  end.
Definition toy_feeds (avail : list Z) (t : toynet) : Prop := script_bytes (tn_recvs t) = Some avail.
Definition toy_takes (t : toynet) : Prop :=
  Forall (fun a => match a with TTake k => 0 < k | TRefuse e => e = EINTR end) (tn_sends t).

Lemma toy_bytes_id bs : bytes_ok bs -> toy_bytes bs = bs.
Proof.
  induction 1 as [|b bs Hb _ IH]; [done |]. unfold toy_bytes in *. cbn [map]. rewrite IH. by rewrite u8_small.
Qed.

Lemma toy_delivers fd : delivers fd toy_feeds.
Proof.
  constructor. intros avail t size Hs Hne _ Hq. cbn [net_recv toynet_net]. unfold toy_feeds, toynet_recv in *.
  destruct (tn_recvs t) as [|[[|b bs]|e] rest]; cbn [script_bytes] in Hq.
  - congruence.
  - done.
  - destruct (decide (bytes_ok (b :: bs))) as [Hb|]; [| done].
    destruct (script_bytes rest) as [more|] eqn:Er; [| done]. cbn [option_map] in Hq.
    rewrite toy_bytes_id by (by apply bytes_ok_ztake). eexists _, _. split; [done |]. left.
    exists (ztake size (b :: bs)), (zdrop size (b :: bs) ++ more).
    split; [done |]. split; [rewrite app_assoc, ztake_zdrop; congruence |].
    cbn [add_received set_recvs tn_recvs]. assert (Hd : bytes_ok (zdrop size (b :: bs))) by (by apply bytes_ok_zdrop).
    destruct (zdrop size (b :: bs)) as [|c l] eqn:El; [done |]. cbn [script_bytes]. rewrite decide_True by done. by rewrite Er.
  - destruct (e =? EINTR) eqn:Ee; [| done]. zb. subst e. eexists _, _. split; [done |]. right. done.
Qed.

Lemma toy_accepts_data fd : accepts_data fd toy_takes.
Proof.
  constructor. intros data t Hne _ Hq. assert (Hd : 0 < zlen data) by (destruct data; [done | rewrite zlen_cons; pose proof (zlen_nonneg data); lia]).
  cbn [net_send toynet_net]. unfold toy_takes, toynet_send in *. destruct (tn_sends t) as [|[k|e] rest] eqn:E.
  - eexists _, _. split; [done |]. split; [by cbn [add_sent tn_sends]; rewrite E |]. left. by eexists.
  - apply Forall_cons_1 in Hq as [Hk Hq]. eexists _, _. split; [done |]. split; [done |]. left. eexists. split; [done |]. lia.
  - apply Forall_cons_1 in Hq as [-> Hq]. eexists _, _. split; [done |]. split; [done |]. by right.
Qed.

Lemma toy_takes_and_feeds fd avail : accepts_data fd (fun t => toy_takes t /\ toy_feeds avail t).
Proof.
  constructor. intros data t Hne Hfd [Ht Hf]. destruct (acc_send _ _ (toy_accepts_data fd) data t Hne Hfd Ht) as (r & t' & E & Ht' & Hr).
  exists r, t'. split_and!; try done. cbn [net_send toynet_net] in E. unfold toynet_send in E. revert E.
  unfold toy_feeds in *. destruct (tn_sends t) as [|[k|e] rest]; intros [= _ <-]; done.
Qed.
