(* ===== verification/Client.v ===== *)
(** * Client: the blocking client (src/client.c)

    One connection and the client object behind it.  The state is the client
    record (with the block it lives in), the heap and the network; the read
    buffer is its block, its first [read_len] bytes, the offset and the
    capacity.  NULL for the client is [None].  The build is the POSIX one: the
    request goes out with sendmsg; WinPlatform.v has the client on Windows. *)

From stdpp Require Import strings.
From S2P Require Import Prelude Words CString Protocol Integrity Memory Payload Net.
#[global] Open Scope Z_scope.

Record wirecall_client := {
  cl_fd : Z;
  cl_next_call_id : Z;
  cl_read_buf : option Z;
  (** the first read_len bytes of the buffer *)
  cl_read : list Z;
  cl_read_off : Z;
  cl_read_cap : Z;
  cl_integrity : Z;
  cl_mac_key : list Z;
  (** the bytes put into error[160] before the terminator *)
  cl_error : list Z;
}.

Definition sizeof_wirecall_client : Z := 232.
Definition CLIENT_ERROR_SIZE : Z := 160.

Definition set_fd (fd : Z) (c : wirecall_client) : wirecall_client :=
  {| cl_fd := fd; cl_next_call_id := cl_next_call_id c; cl_read_buf := cl_read_buf c; cl_read := cl_read c;
     cl_read_off := cl_read_off c; cl_read_cap := cl_read_cap c; cl_integrity := cl_integrity c;
     cl_mac_key := cl_mac_key c; cl_error := cl_error c |}.
Definition set_next_call_id (id : Z) (c : wirecall_client) : wirecall_client :=
  {| cl_fd := cl_fd c; cl_next_call_id := id; cl_read_buf := cl_read_buf c; cl_read := cl_read c;
     cl_read_off := cl_read_off c; cl_read_cap := cl_read_cap c; cl_integrity := cl_integrity c;
     cl_mac_key := cl_mac_key c; cl_error := cl_error c |}.
Definition set_read (bytes : list Z) (off : Z) (c : wirecall_client) : wirecall_client :=
  {| cl_fd := cl_fd c; cl_next_call_id := cl_next_call_id c; cl_read_buf := cl_read_buf c; cl_read := bytes;
     cl_read_off := off; cl_read_cap := cl_read_cap c; cl_integrity := cl_integrity c;
     cl_mac_key := cl_mac_key c; cl_error := cl_error c |}.
Definition set_buf (buf : option Z) (cap : Z) (c : wirecall_client) : wirecall_client :=
  {| cl_fd := cl_fd c; cl_next_call_id := cl_next_call_id c; cl_read_buf := buf; cl_read := cl_read c;
     cl_read_off := cl_read_off c; cl_read_cap := cap; cl_integrity := cl_integrity c;
     cl_mac_key := cl_mac_key c; cl_error := cl_error c |}.
Definition set_mode (integrity : Z) (key : list Z) (c : wirecall_client) : wirecall_client :=
  {| cl_fd := cl_fd c; cl_next_call_id := cl_next_call_id c; cl_read_buf := cl_read_buf c; cl_read := cl_read c;
     cl_read_off := cl_read_off c; cl_read_cap := cl_read_cap c; cl_integrity := integrity;
     cl_mac_key := key; cl_error := cl_error c |}.
Definition set_client_error (e : list Z) (c : wirecall_client) : wirecall_client :=
  {| cl_fd := cl_fd c; cl_next_call_id := cl_next_call_id c; cl_read_buf := cl_read_buf c; cl_read := cl_read c;
     cl_read_off := cl_read_off c; cl_read_cap := cl_read_cap c; cl_integrity := cl_integrity c;
     cl_mac_key := cl_mac_key c; cl_error := e |}.

(** the object after calloc and the three assignments of connect *)
Definition new_client : wirecall_client :=
  {| cl_fd := -1; cl_next_call_id := 1; cl_read_buf := None; cl_read := []; cl_read_off := 0; cl_read_cap := 0;
     cl_integrity := WIRECALL_INTEGRITY_DEFAULT; cl_mac_key := zreplicate 16 0; cl_error := [] |}.

(** ** Sending *)

(** the inner loop of send_iov_full, and the adjustment after it *)
Fixpoint iov_advance (sent : Z) (iov : list (list Z)) : list (list Z) :=
  match iov with
  | [] => []
  | b :: rest =>
      if zlen b <=? sent then iov_advance (sent - zlen b) rest
      else (if 0 <? sent then zdrop sent b else b) :: rest
  end.

Section Send.
Context `{NN : Net K}.

Fixpoint send_loop (fuel : nat) (fd : Z) (iov : list (list Z)) : M K unit :=
  match iov with
  | [] => ret tt
  | _ =>
      match fuel with
      | O => ub
      | S fuel => fun n =>
          match net_send fd (concat iov) n with
          | (SSent k, n) => if 0 <? k then send_loop fuel fd (iov_advance k iov) n else (Err, n)
          | (SErr e, n) => if wirecall_socket_interrupted e then send_loop fuel fd iov n else (Err, n)
          end
      end
  end.

(** every turn sends a byte or is an interrupt *)
Definition send_iov_full (fd : Z) (iov : list (list Z)) : M K unit :=
  if (zlen iov <=? 0) || (2 <? zlen iov) then fail
  else fun n => send_loop (length (concat iov) + net_work n) fd iov n.
End Send.

(** ** The client *)
Section Client.
Context `{HH : Host} `{HP : Heap W} `{NN : Net K}.

Record cworld := { cw_client : option (Z * wirecall_client); cw_heap : W; cw_net : K }.

Definition put_client (c : wirecall_client) : M cworld unit :=
  modify (fun s => {| cw_client := match cw_client s with Some (p, _) => Some (p, c) | None => None end;
                      cw_heap := cw_heap s; cw_net := cw_net s |}).
Definition put_heap (h : W) (s : cworld) : cworld := {| cw_client := cw_client s; cw_heap := h; cw_net := cw_net s |}.
Definition put_net (n : K) (s : cworld) : cworld := {| cw_client := cw_client s; cw_heap := cw_heap s; cw_net := n |}.
Definition drop_client (s : cworld) : cworld := {| cw_client := None; cw_heap := cw_heap s; cw_net := cw_net s |}.

(** [client->...] *)
Definition deref : M cworld wirecall_client := fun s =>
  match cw_client s with
  | Some (_, c) => (Ok c, s)
  | None => (UB, s)
  end.
Definition on_heap {A} (m : M W A) : M cworld A := fun s => let '(r, h) := m (cw_heap s) in (r, put_heap h s).
Definition on_net {A} (m : M K A) : M cworld A := fun s => let '(r, n) := m (cw_net s) in (r, put_net n s).

Definition set_error (message : list Z) : M cworld unit :=
  modify (fun s => {| cw_client := match cw_client s with
                                   | Some (p, c) => Some (p, set_client_error (snprintf_s CLIENT_ERROR_SIZE message) c)
                                   | None => None
                                   end;
                      cw_heap := cw_heap s; cw_net := cw_net s |}).

(** *** The read buffer *)
Definition client_read_available (c : wirecall_client) : Z := usize (zlen (cl_read c) - cl_read_off c).

Definition client_read_reserve (need : Z) : M cworld unit :=
  c <- deref ;;
  if need <=? client_read_available c then ret tt
  else
    let c := if 0 <? cl_read_off c then set_read (zdrop (cl_read_off c) (cl_read c)) 0 c else c in
    put_client c ;;;
    if need <=? cl_read_cap c then ret tt
    else
      match double_until 64 (if cl_read_cap c =? 0 then 65536 else cl_read_cap c) need with
      | None => ub
      | Some next_cap => fun s =>
          match heap_realloc (cl_read_buf c) next_cap (cw_heap s) with
          | (None, h) => (Err, put_heap h s)
          | (Some next, h) => put_client (set_buf (Some next) next_cap c) (put_heap h s)
          end
      end.

(** recv behind the bytes already in the buffer; UB outside of it *)
Definition client_recv (c : wirecall_client) : M cworld recv_answer := fun s =>
  match cl_read_buf c with
  | None => (UB, s)
  | Some _ =>
      if cl_read_cap c <? zlen (cl_read c) then (UB, s)
      else let '(a, n) := net_recv (cl_fd c) (cl_read_cap c - zlen (cl_read c)) (cw_net s) in (Ok a, put_net n s)
  end.

Fixpoint fill_loop (fuel : nat) (need : Z) : M cworld unit :=
  c <- deref ;;
  if client_read_available c <? need then
    match fuel with
    | O => ub
    | S fuel =>
        client_read_reserve need ;;;
        c <- deref ;;
        (if zlen (cl_read c) =? cl_read_cap c then client_read_reserve (usize (cl_read_cap c + 1)) else ret tt) ;;;
        c <- deref ;;
        a <- client_recv c ;;
        match a with
        | RBytes bs => put_client (set_read (cl_read c ++ bs) (cl_read_off c) c) ;;; fill_loop fuel need
        | REof => fail
        | RErr e => if wirecall_socket_interrupted e then fill_loop fuel need else fail
        end
    end
  else ret tt.

(** every turn that goes round consumes an answer of the network *)
Definition client_read_fill (need : Z) : M cworld unit := fun s => fill_loop (S (net_work (cw_net s))) need s.

(** *** Packets *)
Definition writer_ptr (w : wirecall_writer) : option (list Z) :=
  match w_data w with None => None | Some _ => Some (w_bytes w) end.

(** the one or two pieces send_packet hands to sendmsg *)
Definition packet_iov (header_buf : list Z) (payload : option wirecall_writer) : res (list (list Z)) :=
  match payload with
  | Some w => if 0 <? w_len w then let? body := buffer_bytes (writer_ptr w) (w_len w) in Ok [header_buf; body]
              else Ok [header_buf]
  | None => Ok [header_buf]
  end.

Definition send_packet (op : wirecall_op) (proc_id call_id : Z) (payload : option wirecall_writer) : M cworld unit :=
  c <- deref ;;
  let len := match payload with Some w => w_len w | None => 0 end in
  let data := match payload with Some w => writer_ptr w | None => None end in
  let header := {| h_op := op_code op; h_flags := WIRECALL_FLAG_NONE; h_proc_id := proc_id; h_size := u32 len;
                   h_call_id := call_id; h_checksum := 0; h_mac := 0 |} in
  r <- attempt (
    header <- lift (wirecall_packet_sign_ex (Some header) data len (cl_integrity c) (Some (cl_mac_key c))) ;;
    header_buf <- lift (wirecall_header_encode (Some header) true) ;;
    iov <- lift (packet_iov header_buf payload) ;;
    on_net (send_iov_full (cl_fd c) iov)) ;;
  match r with
  | Some _ => ret tt
  | None => set_error (cstring "send failed") ;;; fail
  end.

(** the three conditions of the first test of recv_packet *)
Definition recv_header : M cworld wirecall_header :=
  client_read_fill WIRECALL_HEADER_SIZE ;;;
  c <- deref ;;
  header <- lift (wirecall_header_decode (Some (zdrop (cl_read_off c) (cl_read c))) true) ;;
  if WIRECALL_MAX_PAYLOAD_SIZE <? h_size header then fail else ret header.

(** its end: the payload is copied to a block of its own and the packet is
    consumed; the body is the block and its bytes *)
Definition take_packet (header : wirecall_header) (packet_size : Z) (payload : list Z) : M cworld (Z * list Z) :=
  body <- on_heap (fun h => let '(b, h) := heap_alloc (if h_size header =? 0 then 1 else h_size header) h in (Ok b, h)) ;;
  match body with
  | None => set_error (cstring "out of memory") ;;; fail
  | Some body =>
      bytes <- lift (buffer_bytes (Some payload) (h_size header)) ;;
      c <- deref ;;
      let off := usize (cl_read_off c + packet_size) in
      put_client (if off =? zlen (cl_read c) then set_read [] 0 c else set_read (cl_read c) off c) ;;;
      ret (body, bytes)
  end.

(** the integrity check and what follows it, on a buffer that holds the packet *)
Definition recv_checked (header : wirecall_header) : M cworld (wirecall_header * (Z * list Z)) :=
  c <- deref ;;
  let payload := zdrop (cl_read_off c + WIRECALL_HEADER_SIZE) (cl_read c) in
  r <- attempt (lift (wirecall_packet_verify_ex (Some header) (Some payload) (h_size header)
                        (cl_integrity c) (Some (cl_mac_key c)))) ;;
  match r with
  | None => set_error (cstring "packet integrity failed") ;;; fail
  | Some _ => body <- take_packet header (usize (WIRECALL_HEADER_SIZE + h_size header)) payload ;; ret (header, body)
  end.

Definition recv_packet : M cworld (wirecall_header * (Z * list Z)) :=
  r <- attempt recv_header ;;
  match r with
  | None => set_error (cstring "read failed") ;;; fail
  | Some header =>
      let packet_size := usize (WIRECALL_HEADER_SIZE + h_size header) in
      r <- attempt (client_read_fill packet_size) ;;
      match r with
      | None => set_error (cstring "read failed") ;;; fail
      | Some _ => recv_checked header
      end
  end.

(** *** The public operations *)
Definition wirecall_client_close : M cworld unit :=
  state <- gets cw_client ;;
  match state with
  | None => ret tt
  | Some (p, c) =>
      (if 0 <=? cl_fd c then
         put_client (set_next_call_id (u64 (cl_next_call_id c + 1)) c) ;;;
         attempt (send_packet WIRECALL_OP_DISCONNECT 0 (cl_next_call_id c) None) ;;;
         on_net (modify (net_close (cl_fd c)))
       else ret tt) ;;;
      on_heap (modify (heap_free_opt (cl_read_buf c))) ;;;
      on_heap (modify (heap_free p)) ;;;
      modify drop_client
  end.

(** [for (ai = res; ai; ai = ai->ai_next)]: the descriptor that connected *)
Fixpoint connect_loop (res : list sockaddr) : M K (option Z) :=
  match res with
  | [] => ret None
  | ai :: rest => fun n =>
      match net_socket ai n with
      | (FErr _, n) => connect_loop rest n
      | (FOk fd, n) =>
          let '(rc, n) := net_connect fd ai n in
          if rc =? 0 then (Ok (Some fd), n) else connect_loop rest (net_close fd n)
      end
  end.

Definition wirecall_client_connect (out_client : bool) (host port : option (list Z)) : M cworld unit :=
  match port with
  | None => fail
  | Some port =>
      if negb out_client then fail
      else
        block <- on_heap (fun h => let '(b, h) := heap_calloc 1 sizeof_wirecall_client h in (Ok b, h)) ;;
        match block with
        | None => fail
        | Some p =>
            modify (fun s => {| cw_client := Some (p, new_client); cw_heap := cw_heap s; cw_net := cw_net s |}) ;;;
            res <- on_net (fun n => let '(r, n) := net_getaddrinfo host port false n in (Ok r, n)) ;;
            match res with
            | None => wirecall_client_close ;;; fail
            | Some res =>
                fd <- on_net (connect_loop res) ;;
                match fd with
                | None => wirecall_client_close ;;; fail
                | Some fd => c <- deref ;; put_client (set_fd fd c)
                end
            end
        end
  end.

Definition wirecall_client_set_integrity (integrity : Z) (mac_key : option (list Z)) : M cworld unit :=
  state <- gets cw_client ;;
  match state with
  | None => fail
  | Some (_, c) =>
      if negb (Z.land integrity (Z.lxor (2 ^ 32 - 1) (Z.lor WIRECALL_INTEGRITY_CHECKSUM WIRECALL_INTEGRITY_MAC)) =? 0) ||
         (has_flag integrity WIRECALL_INTEGRITY_MAC && match mac_key with None => true | Some _ => false end)
      then fail
      else match mac_key with
           | None => put_client (set_mode integrity (cl_mac_key c) c)
           | Some key => key <- lift (buffer_bytes (Some key) 16) ;; put_client (set_mode integrity key c)
           end
  end.

(** the guard [!client || client->fd < 0] *)
Definition connected : M cworld wirecall_client :=
  state <- gets cw_client ;;
  match state with
  | None => fail
  | Some (_, c) => if cl_fd c <? 0 then fail else ret c
  end.

Definition wirecall_client_ping : M cworld unit :=
  c <- connected ;;
  let call_id := cl_next_call_id c in
  put_client (set_next_call_id (u64 (call_id + 1)) c) ;;;
  send_packet WIRECALL_OP_PING 0 call_id None ;;;
  r <- recv_packet ;;
  let '(header, (body, _)) := r in
  on_heap (modify (heap_free body)) ;;;
  if negb (h_op header =? op_code WIRECALL_OP_RESPONSE) || negb (h_call_id header =? call_id) || negb (h_size header =? 0)
  then set_error (cstring "unexpected ping response") ;;; fail
  else ret tt.

Definition client_send_call_id (proc_id : Z) (args : option wirecall_writer) (out_call_id : bool) : M cworld Z :=
  c <- connected ;;
  if negb out_call_id then fail
  else
    let call_id := cl_next_call_id c in
    put_client (set_next_call_id (u64 (call_id + 1)) c) ;;;
    send_packet WIRECALL_OP_RPC proc_id call_id args ;;;
    ret call_id.

(** the status and the three out-parameters *)
Record response := { rs_ok : bool; rs_call_id : Z; rs_values : value_array }.

(** the text of an error packet goes to the error buffer *)
Definition take_error (v : wirecall_value) : M cworld unit :=
  match v with
  | VString p len chars =>
      let n := if CLIENT_ERROR_SIZE <=? len then CLIENT_ERROR_SIZE - 1 else len in
      text <- lift (buffer_bytes (match p with Some _ => Some chars | None => None end) n) ;;
      if CLIENT_ERROR_SIZE <=? n then ub
      else c <- deref ;; put_client (set_client_error text c)
  | _ => set_error (cstring "server returned error")
  end.

(** [count == 1 && values[0].type == STRING] *)
Definition error_values (a : value_array) : M cworld unit :=
  if va_count a =? 1 then
    match va_cells a with
    | CValue v :: _ => take_error v
    | _ => ub
    end
  else set_error (cstring "server returned error").

Definition response_body (header : wirecall_header) (bytes : list Z) : M cworld response :=
  if h_op header =? op_code WIRECALL_OP_RESPONSE then
    r <- attempt (on_heap (wirecall_payload_decode (Some bytes) (h_size header) true true)) ;;
    match r with
    | Some a => ret {| rs_ok := true; rs_call_id := h_call_id header; rs_values := a |}
    | None => set_error (cstring "malformed response payload") ;;;
              ret {| rs_ok := false; rs_call_id := h_call_id header; rs_values := no_values |}
    end
  else if h_op header =? op_code WIRECALL_OP_ERROR then
    r <- attempt (on_heap (wirecall_payload_decode (Some bytes) (h_size header) true true)) ;;
    (match r with
     | Some a => error_values a ;;; on_heap (wirecall_values_free (va_ptr a) (va_cells a))
     | None => set_error (cstring "server returned error")
     end) ;;;
    ret {| rs_ok := false; rs_call_id := h_call_id header; rs_values := no_values |}
  else
    set_error (cstring "unexpected response op") ;;;
    ret {| rs_ok := false; rs_call_id := h_call_id header; rs_values := no_values |}.

Definition wirecall_client_recv_response (out_call_id out_values out_count : bool) : M cworld response :=
  connected ;;;
  if negb out_call_id || negb out_values || negb out_count then fail
  else
    r <- attempt recv_packet ;;
    match r with
    | None => ret {| rs_ok := false; rs_call_id := 0; rs_values := no_values |}
    | Some (header, (body, bytes)) =>
        r <- response_body header bytes ;;
        on_heap (modify (heap_free body)) ;;;
        ret r
    end.

Definition client_call_id (proc_id : Z) (args : option wirecall_writer) (out_values out_count : bool) : M cworld value_array :=
  connected ;;;
  if negb out_values || negb out_count then fail
  else
    call_id <- client_send_call_id proc_id args true ;;
    r <- wirecall_client_recv_response true out_values out_count ;;
    if negb (rs_ok r) then fail
    else if negb (rs_call_id r =? call_id) then
      on_heap (wirecall_values_free (va_ptr (rs_values r)) (va_cells (rs_values r))) ;;;
      set_error (cstring "unexpected call id") ;;;
      fail
    else ret (rs_values r).

Definition wirecall_client_call_name (proc_name : option (list Z)) (args : option wirecall_writer)
    (out_values out_count : bool) : M cworld value_array :=
  client_call_id (wirecall_proc_id proc_name) args out_values out_count.

Definition wirecall_client_send_call_name (proc_name : option (list Z)) (args : option wirecall_writer)
    (out_call_id : bool) : M cworld Z :=
  client_send_call_id (wirecall_proc_id proc_name) args out_call_id.

Definition wirecall_client_error (s : cworld) : list Z :=
  match cw_client s with
  | Some (_, c) => match c_str (cl_error c) with [] => cstring "client error" | e => e end
  | None => cstring "client error"
  end.
End Client.

(** ** Sending: facts *)
Section SendFacts.
Context `{NN : Net K}.
Implicit Types n : K.

(** [n'] is [n] after [bs] went out on [fd] *)
Record sends (fd : Z) (bs : list Z) (n n' : K) : Prop := {
  snd_open : net_open n' = net_open n;
  snd_received : forall d, net_received d n' = net_received d n;
  snd_sent : forall d, net_sent d n' = if decide (d = fd) then net_sent d n ++ bs else net_sent d n;
  snd_work : (net_work n' <= net_work n)%nat;
}.

Lemma sends_quiet fd n n' : net_quiet n n' -> sends fd [] n n'.
Proof. intros []. constructor; try done. intros d. case_decide; [by rewrite app_nil_r | done]. Qed.

Lemma sends_trans fd bs bs' n n' n'' : sends fd bs n n' -> sends fd bs' n' n'' -> sends fd (bs ++ bs') n n''.
Proof.
  intros [O R S Wk] [O' R' S' Wk']. constructor; [congruence | congruence | | lia].
  intros d. rewrite S', S. case_decide; [by rewrite app_assoc | done].
Qed.

Lemma iov_advance_concat k iov :
  0 <= k <= zlen (concat iov) -> concat (iov_advance k iov) = zdrop k (concat iov).
Proof.
  revert k. induction iov as [|b iov IH]; intros k Hk; cbn [iov_advance concat].
  - unfold zdrop. by rewrite drop_nil.
  - cbn [concat] in Hk. rewrite zlen_app in Hk. pose proof (zlen_nonneg b). destruct (zlen b <=? k) eqn:E; zb.
    + rewrite IH by lia. unfold zdrop, zlen in *. rewrite drop_app_ge by lia. f_equal. lia.
    + cbn [concat]. rewrite zdrop_app_le by lia. destruct (0 <? k) eqn:E0; zb; [done |].
      replace k with 0 by lia. done.
Qed.

(** what is left to send is nothing, or has a byte *)
Lemma iov_advance_live k iov : 0 <= k -> iov_advance k iov = [] \/ concat (iov_advance k iov) <> [].
Proof.
  revert k. induction iov as [|b iov IH]; intros k Hk; cbn [iov_advance]; [by left |].
  pose proof (zlen_nonneg b). destruct (zlen b <=? k) eqn:E; zb; [apply IH; lia | right].
  intros Hc. apply (f_equal zlen) in Hc. cbn [concat] in Hc. rewrite zlen_app in Hc.
  pose proof (zlen_nonneg (concat iov)). change (zlen []) with 0 in Hc.
  destruct (0 <? k); [rewrite zlen_zdrop in Hc by lia |]; lia.
Qed.

Lemma send_loop_spec fuel fd iov n r n' :
  fd ∈ net_open n -> (length (concat iov) + net_work n <= fuel)%nat -> iov = [] \/ concat iov <> [] ->
  send_loop fuel fd iov n = (r, n') ->
  exists bs rest, concat iov = bs ++ rest /\ sends fd bs n n' /\
    match r with Ok _ => rest = [] | Err => True | UB => False end.
Proof.
  revert iov n. induction fuel as [|fuel IH]; intros iov n Hfd Hf Hlive.
  - destruct iov as [|b iov]; [intros [= <- <-]; exists [], []; split_and!; [done | apply sends_quiet, quiet_refl | done] |].
    exfalso. destruct Hlive as [? | Hc]; [done |]. destruct (concat (b :: iov)); [done | cbn [length] in Hf; lia].
  - destruct iov as [|b iov]; [intros [= <- <-]; exists [], []; split_and!; [done | apply sends_quiet, quiet_refl | done] |].
    destruct Hlive as [? | Hc]; [done |]. cbn [send_loop]. set (data := concat (b :: iov)) in *.
    destruct (net_send fd data n) as [a n1] eqn:Es. pose proof (law_send _ _ _ _ _ Hfd Es) as Hl. destruct a as [k|e].
    + destruct Hl as (Hk & Ho & Hr & Hs & Hw).
      assert (H1 : sends fd (ztake k data) n n1) by by constructor.
      destruct (0 <? k) eqn:E0; zb.
      * intros E. apply IH in E as (bs & rest & Ebs & H2 & Hres).
        -- exists (ztake k data ++ bs), rest. split_and!; [| by eapply sends_trans | done].
           rewrite <- app_assoc, <- Ebs, iov_advance_concat by (fold data; lia). fold data. by rewrite ztake_zdrop.
        -- by rewrite Ho.
        -- rewrite iov_advance_concat by (fold data; lia). fold data. unfold zdrop. rewrite length_drop.
           unfold zlen in Hk. lia.
        -- apply iov_advance_live. lia.
      * intros [= <- <-]. exists (ztake k data), (zdrop k data). split_and!; [by rewrite ztake_zdrop | done | done].
    + destruct Hl as [Hq Hi]. unfold wirecall_socket_interrupted. destruct (e =? EINTR) eqn:Ee; zb.
      * specialize (Hi Ee). intros E. apply IH in E as (bs & rest & Ebs & H2 & Hres).
        -- exists bs, rest. split_and!; [done | | done].
           change bs with ([] ++ bs). eapply sends_trans; [by apply sends_quiet | done].
        -- by rewrite (quiet_open _ _ _ _ _ _ Hq).
        -- fold data. lia.
        -- by right.
      * intros [= <- <-]. exists [], data. split_and!; [done | by apply sends_quiet | done].
Qed.

(** with a network that takes data it is sent in full *)
Lemma send_loop_accepts Q fuel fd iov n :
  accepts_data fd Q -> Q n -> fd ∈ net_open n -> (length (concat iov) + net_work n <= fuel)%nat ->
  iov = [] \/ concat iov <> [] ->
  exists n', send_loop fuel fd iov n = (Ok tt, n') /\ Q n'.
Proof.
  intros HQ. revert iov n. induction fuel as [|fuel IH]; intros iov n Hq Hfd Hf Hlive.
  - destruct iov as [|b iov]; [by exists n |].
    exfalso. destruct Hlive as [? | Hc]; [done |]. destruct (concat (b :: iov)); [done | cbn [length] in Hf; lia].
  - destruct iov as [|b iov]; [by exists n |]. destruct Hlive as [? | Hc]; [done |].
    cbn [send_loop]. set (data := concat (b :: iov)) in *.
    destruct (acc_send _ _ HQ data n Hc Hfd Hq) as (a & n1 & Es & Hq1 & Ha). rewrite Es.
    pose proof (law_send _ _ _ _ _ Hfd Es) as Hl. destruct Ha as [(k & -> & Hk) | ->].
    + destruct Hl as (Hk' & Ho & _ & _ & Hw). replace (0 <? k) with true by (symmetry; apply Z.ltb_lt; lia).
      apply IH; [done | by rewrite Ho | | apply iov_advance_live; lia].
      rewrite iov_advance_concat by (fold data; lia). fold data. unfold zdrop. rewrite length_drop.
      unfold zlen in Hk'. lia.
    + destruct Hl as [Hqt Hi]. specialize (Hi eq_refl). cbn [wirecall_socket_interrupted EINTR].
      apply IH; [done | by rewrite (quiet_open _ _ _ _ _ _ Hqt) | fold data; lia | by right].
Qed.
End SendFacts.

(** ** The client: facts *)
Section ClientFacts.
Context `{HH : Host} `{HP : Heap W} `{NN : Net K}.
Hypothesis H64 : size_bits = 64.
Implicit Types s : @cworld W K.

(** the bytes received and not consumed *)
Definition unread (c : wirecall_client) : list Z := zdrop (cl_read_off c) (cl_read c).

Definition MAX_PACKET : Z := WIRECALL_HEADER_SIZE + WIRECALL_MAX_PAYLOAD_SIZE.

Record client_ok (c : wirecall_client) : Prop := {
  ck_off : 0 <= cl_read_off c <= zlen (cl_read c);
  ck_cap : zlen (cl_read c) <= cl_read_cap c <= 2 * MAX_PACKET;
  ck_buf : cl_read_buf c = None -> cl_read_cap c = 0;
  ck_bytes : bytes_ok (cl_read c);
  ck_key : bytes_ok (cl_mac_key c) /\ zlen (cl_mac_key c) = 16;
  ck_id : 0 <= cl_next_call_id c < 2 ^ 64;
}.

(** the client [c] at [p], connected, with the blocks [l] of its caller; what
    was received is [consumed] and the unread bytes *)
Record world_ok (base : gset Z) (l : list Z) (p : Z) (c : wirecall_client) (consumed : list Z) (s : cworld) : Prop := {
  wk_client : cw_client s = Some (p, c);
  wk_ok : client_ok c;
  wk_fd : cl_fd c ∈ net_open (cw_net s);
  wk_owns : owns base (p :: option_list (cl_read_buf c) ++ l) (cw_heap s);
  wk_stream : net_received (cl_fd c) (cw_net s) = consumed ++ unread c;
}.

(** everything but the read buffer and the error text is the same *)
Record same_session (c c' : wirecall_client) : Prop := {
  ss_fd : cl_fd c' = cl_fd c;
  ss_next : cl_next_call_id c' = cl_next_call_id c;
  ss_integrity : cl_integrity c' = cl_integrity c;
  ss_key : cl_mac_key c' = cl_mac_key c;
}.

Lemma same_refl c : same_session c c.
Proof. by constructor. Qed.
Lemma same_trans c1 c2 c3 : same_session c1 c2 -> same_session c2 c3 -> same_session c1 c3.
Proof. intros [] []. constructor; congruence. Qed.

(** the network only received, and only on [fd] *)
Record receives (fd : Z) (n n' : K) : Prop := {
  rcv_open : net_open n' = net_open n;
  rcv_sent : forall d, net_sent d n' = net_sent d n;
  rcv_other : forall d, d <> fd -> net_received d n' = net_received d n;
  rcv_work : (net_work n' <= net_work n)%nat;
}.

Lemma receives_refl fd n : receives fd n n.
Proof. by constructor. Qed.
Lemma receives_trans fd n n' n'' : receives fd n n' -> receives fd n' n'' -> receives fd n n''.
Proof. intros [O S R Wk] [O' S' R' Wk']. constructor; [congruence | congruence | | lia]. intros d Hd. rewrite R', R; done. Qed.
Lemma receives_quiet fd n n' : net_quiet n n' -> receives fd n n'.
Proof. intros []. by constructor. Qed.

Lemma available_spec c : client_ok c -> client_read_available c = zlen (unread c).
Proof.
  intros [Ho Hc _ _ _ _]. unfold client_read_available, unread, MAX_PACKET, WIRECALL_HEADER_SIZE, WIRECALL_MAX_PAYLOAD_SIZE in *.
  rewrite zlen_zdrop by lia. apply usize_small. rewrite H64. lia.
Qed.

Lemma deref_world base l p c consumed s : world_ok base l p c consumed s -> deref s = (Ok c, s).
Proof. intros [E _ _ _ _]. unfold deref. by rewrite E. Qed.

Lemma set_error_world base l p c consumed s m :
  world_ok base l p c consumed s ->
  exists s', set_error m s = (Ok tt, s') /\ cw_net s' = cw_net s /\ cw_heap s' = cw_heap s /\
    world_ok base l p (set_client_error (snprintf_s CLIENT_ERROR_SIZE m) c) consumed s'.
Proof.
  intros [E [] Hf Ho Hs]. unfold set_error, modify. rewrite E. eexists. split_and!; [done | done | done |].
  constructor; done.
Qed.

Lemma grown_cap c need :
  client_ok c -> 0 <= need <= MAX_PACKET -> cl_read_cap c < need ->
  exists cap, double_until 64 (if cl_read_cap c =? 0 then 65536 else cl_read_cap c) need = Some cap /\
    need <= cap /\ cl_read_cap c <= cap <= 2 * MAX_PACKET.
Proof.
  intros Hc Hn Hlt. pose proof (ck_cap _ Hc) as Hcap. pose proof (zlen_nonneg (cl_read c)).
  unfold MAX_PACKET, WIRECALL_HEADER_SIZE, WIRECALL_MAX_PAYLOAD_SIZE in *.
  destruct (cl_read_cap c =? 0) eqn:E0; zb.
  - destruct (double_until_spec 64 65536 need) as (cap & -> & ? & ?); [lia | rewrite H64; lia | lia |].
    exists cap. split; [done | lia].
  - destruct (double_until_spec 64 (cl_read_cap c) need) as (cap & -> & ? & ?); [lia | rewrite H64; lia | lia |].
    exists cap. split; [done | lia].
Qed.

Lemma client_read_reserve_spec base l p c consumed need s r s' :
  world_ok base l p c consumed s -> 0 <= need <= MAX_PACKET -> zlen (unread c) < need ->
  client_read_reserve need s = (r, s') ->
  exists c', world_ok base l p c' consumed s' /\ same_session c c' /\ cl_error c' = cl_error c /\
    unread c' = unread c /\ cw_net s' = cw_net s /\
    match r with
    | Ok _ => cl_read_off c' = 0 /\ need <= cl_read_cap c' /\ cl_read_buf c' <> None
    | Err => True
    | UB => False
    end /\
    (forall R, reliable R -> R (cw_heap s) -> r <> Err /\ R (cw_heap s')).
Proof.
  intros Hw Hn Hlt. unfold client_read_reserve, bind. rewrite (deref_world _ _ _ _ _ _ Hw).
  destruct Hw as [Ec Hc Hf Ho Hs]. rewrite (available_spec c Hc).
  replace (need <=? zlen (unread c)) with false by (symmetry; apply Z.leb_gt; lia).
  set (c1 := if 0 <? cl_read_off c then set_read (zdrop (cl_read_off c) (cl_read c)) 0 c else c).
  assert (H1 : client_ok c1 /\ same_session c c1 /\ cl_error c1 = cl_error c /\ unread c1 = unread c /\
               cl_read_off c1 = 0 /\ cl_read_buf c1 = cl_read_buf c /\ cl_read_cap c1 = cl_read_cap c /\ cl_fd c1 = cl_fd c).
  { unfold c1. destruct Hc as [Hoff Hcap Hbuf Hb Hk]. destruct (0 <? cl_read_off c) eqn:E; zb.
    - assert (Hl := zlen_zdrop (cl_read_off c) (cl_read c) ltac:(lia)).
      split; [constructor; cbn [set_read cl_read_off cl_read cl_read_cap cl_read_buf cl_mac_key cl_next_call_id]; auto using bytes_ok_zdrop; lia |].
      split_and!; try done.
    - split_and!; try done; [lia]. }
  destruct H1 as (Hc1 & Hss & He & Hu & Hoff1 & Hbuf1 & Hcap1 & Hfd1). clearbody c1.
  unfold put_client, modify. rewrite Ec. cbn [cw_heap cw_net].
  set (s1 := {| cw_client := Some (p, c1); cw_heap := cw_heap s; cw_net := cw_net s |}).
  assert (Hw1 : world_ok base l p c1 consumed s1) by (constructor; cbn; rewrite ?Hfd1, ?Hbuf1, ?Hu; done).
  destruct (need <=? cl_read_cap c1) eqn:Ecap; zb.
  - intros [= <- <-]. exists c1. split_and!; try done.
    intros Hnone. pose proof (ck_buf _ Hc1 Hnone). pose proof (zlen_nonneg (unread c)). lia.
  - destruct (grown_cap c1 need Hc1 Hn Ecap) as (cap & -> & Hc2 & Hc3). change (cw_heap s1) with (cw_heap s).
    pose proof (zlen_nonneg (cl_read c1)) as Hz. pose proof (ck_cap _ Hc1) as Hcap.
    assert (Ho1 : owns base (option_list (cl_read_buf c1) ++ p :: l) (cw_heap s)).
    { rewrite Hbuf1. revert Ho. apply owns_perm; [by rewrite Permutation_middle | done]. }
    destruct (heap_realloc (cl_read_buf c1) cap (cw_heap s)) as [[q|] h1] eqn:Er; intros [= <- <-].
    + pose proof Er as Er'. eapply owns_realloc in Er; [| lia | done].
      exists (set_buf (Some q) cap c1). split_and!; try done; [| by destruct Hss; constructor |].
      * destruct Hc1. constructor; cbn [cw_client cw_heap cw_net put_heap set_buf cl_fd cl_read_buf option_list option_rect app]; try done.
        -- constructor; cbn [set_buf cl_read_off cl_read cl_read_cap cl_read_buf cl_mac_key cl_next_call_id]; try done; lia.
        -- by rewrite Hfd1.
        -- revert Er. apply owns_perm; [| done]. apply Permutation_swap.
        -- rewrite Hfd1. unfold unread in *. cbn [set_buf cl_read_off cl_read]. by rewrite Hu.
      * intros R HR Hr. split; [done |]. cbn [put_heap cw_heap].
        destruct (rel_realloc _ HR (cl_read_buf c1) cap (cw_heap s)) as (? & ? & Er2 & ?);
          [unfold ADDRESS_SPACE, MAX_PACKET, WIRECALL_HEADER_SIZE, WIRECALL_MAX_PAYLOAD_SIZE in *; lia | by eapply owns_inv | by eapply owns_opt_block | done |]. congruence.
    + pose proof Er as Er'. eapply owns_realloc_none in Er; [| lia | done].
      exists c1. split_and!; try done.
      * destruct Hw1. constructor; try done. cbn [put_heap cw_heap].
        revert Er. apply owns_perm; [by rewrite Permutation_middle | done].
      * intros R HR Hr. exfalso. destruct (rel_realloc _ HR (cl_read_buf c1) cap (cw_heap s)) as (? & ? & Er2 & ?);
          [unfold ADDRESS_SPACE, MAX_PACKET, WIRECALL_HEADER_SIZE, WIRECALL_MAX_PAYLOAD_SIZE in *; lia | by eapply owns_inv | by eapply owns_opt_block | done |]. congruence.
Qed.

(** a state whose client and network were replaced, in its well-formedness *)
Lemma world_append base l p c consumed s bs n :
  world_ok base l p c consumed s -> bytes_ok bs -> zlen (cl_read c) + zlen bs <= cl_read_cap c ->
  net_open n = net_open (cw_net s) ->
  (forall d, net_received d n = if decide (d = cl_fd c) then net_received d (cw_net s) ++ bs else net_received d (cw_net s)) ->
  world_ok base l p (set_read (cl_read c ++ bs) (cl_read_off c) c) consumed
    {| cw_client := Some (p, set_read (cl_read c ++ bs) (cl_read_off c) c); cw_heap := cw_heap s; cw_net := n |} /\
  unread (set_read (cl_read c ++ bs) (cl_read_off c) c) = unread c ++ bs.
Proof.
  intros [Ec Hc Hf Ho Hs] Hb Hl En Er.
  assert (Hu : unread (set_read (cl_read c ++ bs) (cl_read_off c) c) = unread c ++ bs).
  { unfold unread. cbn [set_read cl_read_off cl_read]. apply zdrop_app_le. apply Hc. }
  split; [| done]. constructor; cbn [cw_client cw_heap cw_net]; try done.
  - pose proof (zlen_nonneg bs). destruct Hc. constructor; cbn [set_read cl_read_off cl_read cl_read_cap cl_read_buf cl_mac_key cl_next_call_id];
      rewrite ?zlen_app; try done; [lia | lia | by apply bytes_ok_app].
  - cbn [set_read cl_fd]. by rewrite En.
  - cbn [set_read cl_fd]. rewrite Er, decide_True by done. by rewrite Hu, Hs, app_assoc.
Qed.

Lemma world_quiet base l p c consumed s n :
  world_ok base l p c consumed s -> net_quiet (cw_net s) n -> world_ok base l p c consumed (put_net n s).
Proof.
  intros [Ec Hc Hf Ho Hs] [On Rn _ _]. constructor; cbn [put_net cw_client cw_heap cw_net]; try done.
  - by rewrite On.
  - by rewrite Rn.
Qed.

(** filling the buffer: the bytes that arrive are appended to the unread ones,
    whatever pieces they arrive in *)
Definition filled (base : gset Z) (l : list Z) (p : Z) (consumed : list Z) (need : Z)
    (c : wirecall_client) (s : cworld) (r : res unit) (s' : cworld) : Prop :=
  exists c', world_ok base l p c' consumed s' /\ same_session c c' /\ cl_error c' = cl_error c /\
    receives (cl_fd c) (cw_net s) (cw_net s') /\ (exists more, unread c' = unread c ++ more) /\
    match r with Ok _ => need <= zlen (unread c') | Err => True | UB => False end /\
    (forall R Q avail, reliable R -> delivers (cl_fd c) Q -> R (cw_heap s) -> Q avail (cw_net s) ->
       need <= zlen (unread c) + zlen avail ->
       r <> Err /\ R (cw_heap s') /\ exists avail', Q avail' (cw_net s') /\ unread c ++ avail = unread c' ++ avail').

Lemma filled_now base l p consumed need c s :
  world_ok base l p c consumed s -> need <= zlen (unread c) -> filled base l p consumed need c s (Ok tt) s.
Proof.
  intros Hw Hn. exists c. split_and!; try done; [by exists []; rewrite app_nil_r |].
  intros R Q avail _ _ Hr Hq _. split_and!; [done | done | by exists avail].
Qed.

Lemma filled_more base l p consumed need c s bs c1 s1 r s' :
  filled base l p consumed need c1 s1 r s' -> same_session c c1 -> cl_error c1 = cl_error c ->
  receives (cl_fd c) (cw_net s) (cw_net s1) -> unread c1 = unread c ++ bs ->
  (forall R Q avail, reliable R -> delivers (cl_fd c) Q -> R (cw_heap s) -> Q avail (cw_net s) ->
     need <= zlen (unread c) + zlen avail -> R (cw_heap s1) /\ exists rest, avail = bs ++ rest /\ Q rest (cw_net s1)) ->
  filled base l p consumed need c s r s'.
Proof.
  intros (c2 & Hw & Hss & He & Hr & [more Hu] & Hres & Hlive) Hss1 He1 Hr1 Hu1 Hl1. pose proof (ss_fd _ _ Hss1) as Hfd. rewrite Hfd in *.
  exists c2. split_and!; try done.
  - by eapply same_trans.
  - congruence.
  - by eapply receives_trans.
  - exists (bs ++ more). by rewrite Hu, Hu1, app_assoc.
  - intros R Q avail HR HQ Hrs Hq Hn. destruct (Hl1 R Q avail HR HQ Hrs Hq Hn) as (Hrs1 & rest & -> & Hq1).
    destruct (Hlive R Q rest HR HQ Hrs1 Hq1) as (Hne & Hrs2 & avail' & Hq2 & E).
    { rewrite Hu1, !zlen_app in *. lia. }
    split_and!; [done | done |]. exists avail'. split; [done |]. by rewrite <- E, Hu1, app_assoc.
Qed.

(** one answer of the network *)
Lemma client_recv_spec base l p c consumed s r s1 :
  world_ok base l p c consumed s -> cl_read_buf c <> None -> zlen (cl_read c) < cl_read_cap c ->
  client_recv c s = (r, s1) ->
  exists a n, r = Ok a /\ s1 = put_net n s /\
    net_recv (cl_fd c) (cl_read_cap c - zlen (cl_read c)) (cw_net s) = (a, n) /\
    match a with
    | RBytes bs => 0 < zlen bs <= cl_read_cap c - zlen (cl_read c) /\ bytes_ok bs /\ net_open n = net_open (cw_net s) /\
        (forall d, net_received d n = if decide (d = cl_fd c) then net_received d (cw_net s) ++ bs else net_received d (cw_net s)) /\
        receives (cl_fd c) (cw_net s) n /\ (net_work n < net_work (cw_net s))%nat
    | REof => net_quiet (cw_net s) n
    | RErr e => net_quiet (cw_net s) n /\ (e = EINTR -> (net_work n < net_work (cw_net s))%nat)
    end.
Proof.
  intros Hw Hb Hl. unfold client_recv. destruct (cl_read_buf c); [| done].
  replace (cl_read_cap c <? zlen (cl_read c)) with false by (symmetry; apply Z.ltb_ge; lia).
  destruct (net_recv _ _ _) as [a n] eqn:E. intros [= <- <-]. exists a, n. split_and!; try done.
  assert (Hpos : 0 < cl_read_cap c - zlen (cl_read c)) by lia.
  pose proof (law_recv _ _ _ _ _ Hpos (wk_fd _ _ _ _ _ _ Hw) E) as HL. destruct a as [bs| |e]; [| done | done].
  destruct HL as (H1 & H2 & H3 & H4 & H5 & H6). split_and!; try done; try lia. constructor; try done; [| lia].
  intros d Hd. by rewrite H4, decide_False.
Qed.

Lemma fill_loop_spec base l p consumed fuel need c s r s' :
  world_ok base l p c consumed s -> 0 <= need <= MAX_PACKET -> (net_work (cw_net s) < fuel)%nat ->
  fill_loop fuel need s = (r, s') -> filled base l p consumed need c s r s'.
Proof.
  intros Hw Hn. revert c s Hw. induction fuel as [|fuel IH]; intros c s Hw Hf; [lia |].
  cbn [fill_loop]. unfold bind at 1. rewrite (deref_world _ _ _ _ _ _ Hw), (available_spec c (wk_ok _ _ _ _ _ _ Hw)).
  destruct (zlen (unread c) <? need) eqn:E; zb; [| intros [= <- <-]; by apply filled_now].
  unfold bind at 1. destruct (client_read_reserve need s) as [r1 s1] eqn:E1.
  destruct (client_read_reserve_spec _ _ _ _ _ _ _ _ _ Hw Hn E E1) as (c1 & Hw1 & Hss1 & He1 & Hu1 & En1 & Hr1 & HR1).
  destruct r1 as [u1| |]; [| | done].
  2: { intros [= <- <-]. exists c1. split_and!; try done.
    - rewrite En1. apply receives_refl.
    - exists []. by rewrite app_nil_r.
    - intros R Q avail HR _ Hrs _ _. by destruct (HR1 R HR Hrs). }
  destruct Hr1 as (Hoff & Hcap & Hbuf). pose proof (ss_fd _ _ Hss1) as Hfd1.
  assert (Hlen : zlen (cl_read c1) < cl_read_cap c1).
  { rewrite <- Hu1 in E. unfold unread in E. rewrite Hoff, zdrop_0 in E. lia. }
  unfold bind at 1. rewrite (deref_world _ _ _ _ _ _ Hw1).
  replace (zlen (cl_read c1) =? cl_read_cap c1) with false by (symmetry; apply Z.eqb_neq; lia).
  unfold bind at 1. cbn [ret]. unfold bind at 1. rewrite (deref_world _ _ _ _ _ _ Hw1).
  unfold bind at 1. destruct (client_recv c1 s1) as [r2 s2] eqn:E2.
  destruct (client_recv_spec _ _ _ _ _ _ _ _ Hw1 Hbuf Hlen E2) as (a & n & -> & -> & Er & Ha).
  rewrite Hfd1, En1 in Er, Ha.
  assert (Hlive : forall R Q avail, reliable R -> delivers (cl_fd c) Q -> R (cw_heap s) -> Q avail (cw_net s) ->
     need <= zlen (unread c) + zlen avail -> R (cw_heap s1) /\
     ((exists bs rest, a = RBytes bs /\ avail = bs ++ rest /\ Q rest n) \/ (a = RErr EINTR /\ Q avail n))).
  { intros R Q avail HR HQ Hrs Hq Hna. destruct (HR1 R HR Hrs) as [_ Hrs1]. split; [done |].
    destruct (del_recv _ _ HQ avail (cw_net s) (cl_read_cap c1 - zlen (cl_read c1))) as (a' & n' & Er' & Hd); try done; [lia | | apply Hw |].
    - intros ->. change (zlen []) with 0 in Hna. lia.
    - rewrite Er in Er'. injection Er' as <- <-. done. }
  destruct a as [bs| |e].
  - destruct Ha as (Hb1 & Hb2 & Ho & Hrc & Hrcv & Hwk). intros E3.
    destruct (world_append _ _ _ _ _ _ bs n Hw1 Hb2 ltac:(lia)) as [Hw2 Hu2]; [by rewrite En1 | rewrite Hfd1, En1; done |].
    unfold bind, put_client, modify, put_net in E3. rewrite (wk_client _ _ _ _ _ _ Hw1) in E3. cbn [cw_heap cw_net] in E3.
    apply (IH _ _ Hw2) in E3; [| cbn [cw_net]; lia].
    eapply (filled_more _ _ _ _ _ _ _ bs _ _ _ _ E3); try done; [| by rewrite Hu2, Hu1 |].
    + destruct Hss1. by constructor.
    + intros R Q avail HR HQ Hrs Hq Hna. destruct (Hlive R Q avail HR HQ Hrs Hq Hna) as [Hrs1 [(bs' & rest & [= <-] & -> & Hq') | [? _]]]; [| done].
      split; [done |]. by exists rest.
  - intros [= <- <-]. exists c1. split_and!; try done; [by apply world_quiet; [| rewrite En1] | by apply receives_quiet | by exists []; rewrite app_nil_r |].
    intros R Q avail HR HQ Hrs Hq Hna. destruct (Hlive R Q avail HR HQ Hrs Hq Hna) as [Hrs1 [(? & ? & [=] & _) | [[=] _]]].
  - destruct Ha as [Hq Hi]. unfold wirecall_socket_interrupted. destruct (e =? EINTR) eqn:Ee; zb.
    + subst e. specialize (Hi eq_refl). assert (Hw2 : world_ok base l p c1 consumed (put_net n s1)) by (apply world_quiet; [done | by rewrite En1]).
      intros E3. apply (IH _ _ Hw2) in E3; [| cbn [put_net cw_net]; lia].
      eapply (filled_more _ _ _ _ _ _ _ [] _ _ _ _ E3); try done; [by apply receives_quiet | by rewrite Hu1, app_nil_r |].
      intros R Q avail HR HQ Hrs Hq' Hna. destruct (Hlive R Q avail HR HQ Hrs Hq' Hna) as [Hrs1 [(? & ? & [=] & _) | [_ Hq2]]].
      split; [done |]. by exists avail.
    + intros [= <- <-]. exists c1. split_and!; try done; [by apply world_quiet; [| rewrite En1] | by apply receives_quiet | by exists []; rewrite app_nil_r |].
      intros R Q avail HR HQ Hrs Hq' Hna. destruct (Hlive R Q avail HR HQ Hrs Hq' Hna) as [Hrs1 [(? & ? & [=] & _) | [[= ->] _]]]. done.
Qed.

(** what the client did between two states, its buffer aside *)
Record moved (c c' : wirecall_client) (s s' : @cworld W K) : Prop := {
  mv_same : same_session c c';
  mv_net : receives (cl_fd c) (cw_net s) (cw_net s');
}.

Lemma moved_trans c1 c2 c3 s1 s2 s3 : moved c1 c2 s1 s2 -> moved c2 c3 s2 s3 -> moved c1 c3 s1 s3.
Proof.
  intros [S1 N1] [S2 N2]. constructor; [by eapply same_trans |].
  eapply receives_trans; [done |]. by rewrite <- (ss_fd _ _ S1).
Qed.
Lemma moved_refl c s : moved c c s s.
Proof. constructor; [apply same_refl | apply receives_refl]. Qed.

(** a fill, and an invariant of what is still to come: [Q avail] of the network *)
Lemma client_read_fill_spec base l p consumed need c s r s' :
  world_ok base l p c consumed s -> 0 <= need <= MAX_PACKET -> client_read_fill need s = (r, s') ->
  filled base l p consumed need c s r s'.
Proof. intros Hw Hn E. unfold client_read_fill in E. by eapply fill_loop_spec; [| | | exact E]; [| | lia]. Qed.

Lemma header_bytes_eq h h1 tail tail1 :
  header_ok h -> raw_header_ok h1 -> header_bytes h ++ tail = header_bytes h1 ++ tail1 -> h = h1 /\ tail = tail1.
Proof.
  intros Hh Hraw E. apply app_inj_1 in E as [E ->]; [| done]. split; [| done].
  pose proof (header_decode_bytes h [] Hh bytes_ok_nil) as D. rewrite E, header_decode_raw in D by (done || apply bytes_ok_nil).
  destruct (_ && _); [by injection D | done].
Qed.

(** the header of the next packet, or a failure that consumed nothing *)
Definition headed (base : gset Z) (l : list Z) (p : Z) (consumed : list Z) (c : wirecall_client) (s : cworld)
    (r : res wirecall_header) (s' : cworld) : Prop :=
  exists c', world_ok base l p c' consumed s' /\ moved c c' s s' /\
    match r with
    | Ok h => header_ok h /\ exists rest, unread c' = header_bytes h ++ rest
    | Err => True
    | UB => False
    end /\
    (forall R Q avail h tail, reliable R -> delivers (cl_fd c) Q -> R (cw_heap s) -> Q avail (cw_net s) ->
       header_ok h -> unread c ++ avail = header_bytes h ++ tail ->
       r = Ok h /\ R (cw_heap s') /\ exists avail', Q avail' (cw_net s') /\ unread c ++ avail = unread c' ++ avail').

Lemma recv_header_spec base l p consumed c s r s' :
  world_ok base l p c consumed s -> recv_header s = (r, s') -> headed base l p consumed c s r s'.
Proof.
  intros Hw. unfold recv_header, bind at 1. destruct (client_read_fill WIRECALL_HEADER_SIZE s) as [r1 s1] eqn:E1.
  apply (client_read_fill_spec _ _ _ _ _ _ _ _ _ Hw) in E1; [| by_compute].
  destruct E1 as (c1 & Hw1 & Hss & He & Hrc & [more Hu] & Hr & Hlive).
  assert (Hneed : forall h tail avail, unread c ++ avail = header_bytes h ++ tail -> WIRECALL_HEADER_SIZE <= zlen (unread c) + zlen avail).
  { intros h tail avail E. rewrite <- zlen_app, E, zlen_app, zlen_header_bytes. pose proof (zlen_nonneg tail). lia. }
  destruct r1 as [u| |]; [| | done].
  2: { intros [= <- <-]. exists c1. split_and!; try done. intros R Q avail h tail HR HQ Hrs Hq _ E.
       by destruct (Hlive R Q avail HR HQ Hrs Hq (Hneed _ _ _ E)). }
  unfold bind at 1. rewrite (deref_world _ _ _ _ _ _ Hw1). fold (unread c1).
  assert (Hub : bytes_ok (unread c1)) by (apply bytes_ok_zdrop, Hw1).
  destruct (header_cut _ Hub Hr) as (h1 & rest & Ecut & Hraw & Hrest).
  unfold bind at 1, lift. rewrite Ecut, header_decode_raw by done.
  assert (Hout : forall r, match r with Ok h => h = h1 /\ header_ok h1 | Err => ~ header_ok h1 | UB => False end ->
    headed base l p consumed c s r s1).
  { intros r0 Hr0. exists c1. split_and!; try done; [destruct r0; [| done | done]; destruct Hr0 as [-> Hok]; eauto |].
    intros R Q avail h tail HR HQ Hrs Hq Hh E.
    destruct (Hlive R Q avail HR HQ Hrs Hq (Hneed _ _ _ E)) as (_ & Hrs1 & avail' & Hq1 & E').
    pose proof E' as E2. rewrite E, Ecut, <- app_assoc in E2. apply header_bytes_eq in E2 as [-> _]; [| done | done].
    split_and!; [| done | by exists avail']. destruct r0; [by destruct Hr0 as [-> _] | done | done]. }
  destruct (valid_op (h_op h1) && (h_size h1 <=? WIRECALL_MAX_PAYLOAD_SIZE)) eqn:Eok.
  - apply andb_prop in Eok as [Eop Esz]. zb.
    assert (Hok : header_ok h1) by (unfold header_ok, raw_header_ok in *; split_and!; try done; lia).
    replace (WIRECALL_MAX_PAYLOAD_SIZE <? h_size h1) with false by (symmetry; apply Z.ltb_ge; lia).
    intros [= <- <-]. by apply Hout.
  - intros [= <- <-]. apply Hout. intros (Hop & _ & _ & Hsz & _). rewrite Hop in Eok. cbn [andb] in Eok. zb. lia.
Qed.

(** the client after a packet is consumed *)
Lemma consumed_ok c h body rest :
  client_ok c -> header_ok h -> unread c = header_bytes h ++ body ++ rest -> zlen body = h_size h ->
  let off := usize (cl_read_off c + usize (WIRECALL_HEADER_SIZE + h_size h)) in
  let c' := if off =? zlen (cl_read c) then set_read [] 0 c else set_read (cl_read c) off c in
  client_ok c' /\ unread c' = rest /\ same_session c c' /\ cl_read_buf c' = cl_read_buf c.
Proof.
  intros [Hoff Hcap Hbuf Hb Hk Hid] (_ & _ & _ & Hsz & _) Hu Hl off c'. pose proof (zlen_nonneg rest).
  assert (Hlen : zlen (unread c) = WIRECALL_HEADER_SIZE + h_size h + zlen rest).
  { rewrite Hu, !zlen_app, zlen_header_bytes. lia. }
  unfold unread in Hlen, Hu. rewrite zlen_zdrop in Hlen by lia.
  unfold MAX_PACKET, WIRECALL_HEADER_SIZE, WIRECALL_MAX_PAYLOAD_SIZE in *.
  assert (Hus : off = cl_read_off c + (34 + h_size h)).
  { unfold off. rewrite (usize_small (34 + h_size h)) by (rewrite H64; lia). apply usize_small. rewrite H64. lia. }
  clearbody off. subst off c'. destruct (_ =? zlen (cl_read c)) eqn:E; zb.
  - split_and!; [| | by constructor | done].
    + constructor; cbn [set_read cl_read_off cl_read cl_read_cap cl_read_buf cl_mac_key cl_next_call_id]; change (zlen []) with 0;
        unfold MAX_PACKET, WIRECALL_HEADER_SIZE, WIRECALL_MAX_PAYLOAD_SIZE; try done; try lia. apply bytes_ok_nil.
    + unfold unread. cbn [set_read cl_read_off cl_read]. symmetry. apply zlen_0_nil. lia.
  - split_and!; [| | by constructor | done].
    + constructor; cbn [set_read cl_read_off cl_read cl_read_cap cl_read_buf cl_mac_key cl_next_call_id];
        unfold MAX_PACKET, WIRECALL_HEADER_SIZE, WIRECALL_MAX_PAYLOAD_SIZE; try done; lia.
    + unfold unread. cbn [set_read cl_read_off cl_read]. rewrite <- zdrop_zdrop by lia. rewrite Hu, app_assoc.
      apply zdrop_app_eq. rewrite zlen_app, zlen_header_bytes, Hl. done.
Qed.

(** the end of recv_packet: the block and the consumed packet *)
Lemma take_packet_spec base l p consumed c h body rest s r s' :
  world_ok base l p c consumed s -> header_ok h -> unread c = header_bytes h ++ body ++ rest -> zlen body = h_size h ->
  take_packet h (usize (WIRECALL_HEADER_SIZE + h_size h)) (body ++ rest) s = (r, s') ->
  exists c', moved c c' s s' /\
    match r with
    | Ok (b, bytes) => bytes = body /\ unread c' = rest /\ world_ok base (b :: l) p c' (consumed ++ header_bytes h ++ body) s'
    | Err => world_ok base l p c' consumed s' /\ unread c' = unread c
    | UB => False
    end /\
    cw_net s' = cw_net s /\ (forall R, reliable R -> R (cw_heap s) -> r <> Err /\ R (cw_heap s')).
Proof.
  intros Hw Hh Hu Hl. unfold take_packet, bind at 1, on_heap. pose proof Hh as (_ & _ & _ & Hsz & _).
  assert (Hn : 0 <= if h_size h =? 0 then 1 else h_size h) by (destruct (h_size h =? 0); lia).
  assert (Hn' : 0 <= (if h_size h =? 0 then 1 else h_size h) <= ADDRESS_SPACE).
  { destruct Hh as (_ & _ & _ & Hs & _). unfold ADDRESS_SPACE, WIRECALL_MAX_PAYLOAD_SIZE in *. destruct (h_size h =? 0); lia. }
  destruct (heap_alloc _ (cw_heap s)) as [[b|] h1] eqn:Ea.
  - pose proof Ea as Ea'. eapply owns_alloc in Ea; [| exact Hn | exact (wk_owns _ _ _ _ _ _ Hw)].
    unfold bind at 1, lift. cbn [buffer_bytes]. rewrite zlen_app.
    pose proof (zlen_nonneg rest). replace (h_size h <=? zlen body + zlen rest) with true by (symmetry; apply Z.leb_le; lia).
    rewrite ztake_app_eq by done. unfold bind, deref, put_client, modify, put_heap. cbn [cw_client cw_heap cw_net].
    rewrite (wk_client _ _ _ _ _ _ Hw). intros [= <- <-]. pose proof (wk_ok _ _ _ _ _ _ Hw) as Hc. destruct Hw as [Ec _ Hf Ho Hs].
    destruct (consumed_ok c h body rest Hc Hh Hu Hl) as (Hc' & Hu' & Hss & Hbuf).
    match type of Hss with same_session _ ?x => set (c' := x) in *; clearbody c' end. exists c'. split_and!; try done.
    + constructor; cbn [cw_client cw_heap cw_net]; try done; [by rewrite (ss_fd _ _ Hss) | |].
      * rewrite Hbuf. revert Ea. apply owns_perm; [| done]. rewrite <- Permutation_middle. apply Permutation_swap.
      * rewrite (ss_fd _ _ Hss), Hs, Hu, Hu', <- !app_assoc. done.
    + intros R HR Hr. split; [done |].
      destruct (rel_alloc _ HR _ (cw_heap s) Hn' (owns_inv _ _ _ Ho) Hr) as (? & ? & Ea2 & ?). cbn [cw_heap]. congruence.
  - pose proof Ea as Ea'. eapply owns_alloc_none in Ea; [| exact Hn | exact (wk_owns _ _ _ _ _ _ Hw)].
    assert (Hw1 : world_ok base l p c consumed (put_heap h1 s)) by (destruct Hw; by constructor).
    unfold bind. destruct (set_error_world _ _ _ _ _ _ (cstring "out of memory") Hw1) as (s2 & E2 & En & Eh & Hw2). rewrite E2.
    intros [= <- <-]. eexists. split_and!; [| exact Hw2 | done | done |].
    + constructor; [by constructor |]. rewrite En. apply receives_refl.
    + intros R HR Hr. exfalso. destruct (rel_alloc _ HR _ (cw_heap s) Hn' (owns_inv _ _ _ (wk_owns _ _ _ _ _ _ Hw)) Hr) as (? & ? & Ea2 & ?). congruence.
Qed.

(** the packet passes the integrity check of the client *)
Definition genuine (c : wirecall_client) (h : wirecall_header) (body : list Z) : Prop :=
  header_ok h /\ zlen body = h_size h /\ bytes_ok body /\
  wirecall_packet_verify_ex (Some h) (Some body) (h_size h) (cl_integrity c) (Some (cl_mac_key c)) = Ok tt.

(** the next packet of the stream, in a block, or a failure that consumed
    nothing; a genuine packet that is on its way is the one that is returned *)
Definition packet_received (base : gset Z) (l : list Z) (p : Z) (consumed : list Z) (c : wirecall_client) (s : cworld)
    (r : res (wirecall_header * (Z * list Z))) (s' : cworld) : Prop :=
  exists c', moved c c' s s' /\
    match r with
    | Ok (h, (b, body)) => genuine c h body /\ world_ok base (b :: l) p c' (consumed ++ header_bytes h ++ body) s'
    | Err => world_ok base l p c' consumed s'
    | UB => False
    end /\
    (forall R Q avail h body rest, reliable R -> delivers (cl_fd c) Q -> R (cw_heap s) -> Q avail (cw_net s) ->
       genuine c h body -> unread c ++ avail = header_bytes h ++ body ++ rest ->
       (exists b, r = Ok (h, (b, body))) /\ R (cw_heap s') /\ exists avail', Q avail' (cw_net s') /\ unread c' ++ avail' = rest).

Lemma genuine_same c c' h body : same_session c c' -> genuine c h body <-> genuine c' h body.
Proof. intros []. unfold genuine. by rewrite ss_integrity0, ss_key0. Qed.

(** a failure after [c1] was reached, with its message *)
Lemma packet_failed base l p consumed c s c1 s1 m r s' :
  world_ok base l p c1 consumed s1 -> moved c c1 s s1 ->
  (forall R Q avail h body rest, reliable R -> delivers (cl_fd c) Q -> R (cw_heap s) -> Q avail (cw_net s) ->
     genuine c h body -> unread c ++ avail = header_bytes h ++ body ++ rest -> False) ->
  (set_error m ;;; fail) s1 = (r, s') -> packet_received base l p consumed c s r s'.
Proof.
  intros Hw Hm Hno. unfold bind. destruct (set_error_world _ _ _ _ _ _ m Hw) as (s2 & -> & En & Eh & Hw2).
  intros [= <- <-]. eexists. split_and!; [| exact Hw2 |].
  - destruct Hm as [[] Hr]. constructor; [by constructor | by rewrite En].
  - intros R Q avail h body rest HR HQ Hrs Hq Hg E. exfalso. by eapply Hno.
Qed.

Lemma recv_checked_spec base l p consumed c s c2 s2 h body rest r s' :
  world_ok base l p c2 consumed s2 -> moved c c2 s s2 -> header_ok h -> unread c2 = header_bytes h ++ body ++ rest ->
  zlen body = h_size h -> bytes_ok body ->
  (forall R Q avail h' body' rest', reliable R -> delivers (cl_fd c) Q -> R (cw_heap s) -> Q avail (cw_net s) ->
     genuine c h' body' -> unread c ++ avail = header_bytes h' ++ body' ++ rest' ->
     h' = h /\ R (cw_heap s2) /\ exists avail', Q avail' (cw_net s2) /\ header_bytes h ++ body' ++ rest' = unread c2 ++ avail') ->
  recv_checked h s2 = (r, s') -> packet_received base l p consumed c s r s'.
Proof.
  intros Hw2 [Hss Hrc] Hh Hu Hlen Hbody Hlive. unfold recv_checked, bind at 1. rewrite (deref_world _ _ _ _ _ _ Hw2). cbv zeta.
  assert (Hpay : zdrop (cl_read_off c2 + WIRECALL_HEADER_SIZE) (cl_read c2) = body ++ rest).
  { pose proof (ck_off _ (wk_ok _ _ _ _ _ _ Hw2)). rewrite <- zdrop_zdrop by (unfold WIRECALL_HEADER_SIZE in *; lia).
    fold (unread c2). rewrite Hu. by apply zdrop_app_eq. }
  rewrite Hpay, verify_prefix by done. unfold bind at 1, attempt, lift.
  rewrite (ss_integrity _ _ Hss), (ss_key _ _ Hss).
  assert (Hsame : forall body' rest' avail', header_bytes h ++ body' ++ rest' = unread c2 ++ avail' -> zlen body' = h_size h ->
     body' = body /\ rest' = rest ++ avail').
  { intros body' rest' avail' E Hl'. rewrite Hu, <- !app_assoc in E. apply app_inv_head in E.
    apply app_inj_1 in E as [-> ->]; [done |]. unfold zlen in *. lia. }
  destruct (wirecall_packet_verify_ex (Some h) (Some body) (h_size h) (cl_integrity c) (Some (cl_mac_key c))) as [[]| |] eqn:Ev.
  - unfold bind. destruct (take_packet h _ (body ++ rest) s2) as [r3 s3] eqn:E3.
    apply (take_packet_spec _ _ _ _ _ _ _ _ _ _ _ Hw2 Hh Hu Hlen) in E3 as (c3 & Hm3 & Hr3 & En3 & HR3).
    assert (Hm : moved c c3 s s3) by (eapply moved_trans; [by constructor | done]).
    destruct r3 as [[b bytes]| |]; [| | done]; intros [= <- <-]; exists c3.
    + destruct Hr3 as (-> & Hu3 & Hw3). split_and!; try done.
      intros R Q avail h' body' rest' HR HQ Hrs Hq Hg E. destruct (Hlive R Q avail h' _ _ HR HQ Hrs Hq Hg E) as (-> & Hrs2 & avail' & Hq2 & E').
      destruct (Hsame _ _ _ E') as [-> ->]; [apply Hg |]. split; [by exists b |]. split; [by apply HR3 |].
      exists avail'. rewrite En3, Hu3. done.
    + destruct Hr3 as [Hw3 _]. split_and!; try done.
      intros R Q avail h' body' rest' HR HQ Hrs Hq Hg E. destruct (Hlive R Q avail h' _ _ HR HQ Hrs Hq Hg E) as (_ & Hrs2 & _).
      by destruct (HR3 R HR Hrs2).
  - apply (packet_failed _ _ _ _ _ _ _ _ _ _ _ Hw2 ltac:(by constructor)).
    intros R Q avail h' body' rest' HR HQ Hrs Hq Hg E. destruct (Hlive R Q avail h' _ _ HR HQ Hrs Hq Hg E) as (-> & _ & avail' & _ & E').
    destruct (Hsame _ _ _ E') as [-> _]; [apply Hg |]. destruct Hg as (_ & _ & _ & Hv). congruence.
  - exfalso. rewrite <- Hlen in Ev. revert Ev. apply verify_defined. rewrite <- (ss_key _ _ Hss). apply Hw2.
Qed.

Lemma recv_packet_spec base l p consumed c s r s' :
  world_ok base l p c consumed s -> recv_packet s = (r, s') -> packet_received base l p consumed c s r s'.
Proof.
  intros Hw. unfold recv_packet, bind at 1, attempt at 1. destruct (recv_header s) as [r1 s1] eqn:E1.
  apply (recv_header_spec _ _ _ _ _ _ _ _ Hw) in E1 as (c1 & Hw1 & Hm1 & Hr1 & Hlive1).
  destruct r1 as [h| |]; [| | done].
  2: { apply (packet_failed _ _ _ _ _ _ _ _ _ _ _ Hw1 Hm1).
       intros R Q avail h body rest HR HQ Hrs Hq (Hh & _) E. by destruct (Hlive1 R Q avail h _ HR HQ Hrs Hq Hh E). }
  destruct Hr1 as (Hh & rest1 & Hu1). cbv zeta. pose proof Hh as (_ & _ & _ & Hsz & _).
  assert (Esz : usize (WIRECALL_HEADER_SIZE + h_size h) = WIRECALL_HEADER_SIZE + h_size h).
  { unfold WIRECALL_HEADER_SIZE, WIRECALL_MAX_PAYLOAD_SIZE in *. apply usize_small. rewrite H64. lia. }
  unfold bind at 1, attempt at 1. destruct (client_read_fill _ s1) as [r2 s2] eqn:E2.
  apply (client_read_fill_spec _ _ _ _ _ _ _ _ _ Hw1) in E2;
    [| rewrite Esz; unfold MAX_PACKET, WIRECALL_HEADER_SIZE, WIRECALL_MAX_PAYLOAD_SIZE in *; lia].
  destruct E2 as (c2 & Hw2 & Hss2 & _ & Hrc2 & [more Hu2] & Hr2 & Hlive2).
  assert (Hm2 : moved c c2 s s2) by (eapply moved_trans; [done | by constructor]).
  assert (Hlive : forall R Q avail h' body rest, reliable R -> delivers (cl_fd c) Q -> R (cw_heap s) -> Q avail (cw_net s) ->
     genuine c h' body -> unread c ++ avail = header_bytes h' ++ body ++ rest ->
     h' = h /\ r2 <> Err /\ R (cw_heap s2) /\ exists avail', Q avail' (cw_net s2) /\ header_bytes h ++ body ++ rest = unread c2 ++ avail').
  { intros R Q avail h' body rest HR HQ Hrs Hq Hg E. pose proof Hg as (Hh' & Hlen & _).
    destruct (Hlive1 R Q avail h' _ HR HQ Hrs Hq Hh' E) as ([= <-] & Hrs1 & avail1 & Hq1 & E1).
    rewrite <- (ss_fd _ _ (mv_same _ _ _ _ Hm1)) in HQ.
    destruct (Hlive2 R Q avail1 HR HQ Hrs1 Hq1) as (Hne & Hrs2 & avail2 & Hq2 & E2).
    - rewrite <- zlen_app, <- E1, E, Esz, !zlen_app, zlen_header_bytes. pose proof (zlen_nonneg rest). lia.
    - split_and!; try done. exists avail2. split; [done |]. congruence. }
  destruct r2 as [u| |]; [| | done].
  2: { apply (packet_failed _ _ _ _ _ _ _ _ _ _ _ Hw2 Hm2).
       intros R Q avail h' body rest HR HQ Hrs Hq Hg E. by destruct (Hlive R Q avail h' _ _ HR HQ Hrs Hq Hg E) as (_ & ? & _). }
  rewrite Hu2, Hu1, <- app_assoc, zlen_app, zlen_header_bytes, Esz in Hr2.
  apply (recv_checked_spec _ _ _ _ _ _ _ _ _ (ztake (h_size h) (rest1 ++ more)) (zdrop (h_size h) (rest1 ++ more)) _ _ Hw2 Hm2 Hh).
  - by rewrite ztake_zdrop, Hu2, Hu1, <- app_assoc.
  - apply zlen_ztake. lia.
  - apply bytes_ok_ztake. assert (Hb : bytes_ok (unread c2)) by apply bytes_ok_zdrop, Hw2.
    rewrite Hu2, Hu1, <- app_assoc in Hb. by apply bytes_ok_app in Hb as [_ ?].
  - intros R Q avail h' body rest HR HQ Hrs Hq Hg E. destruct (Hlive R Q avail h' _ _ HR HQ Hrs Hq Hg E) as (? & _ & ?). done.
Qed.

Definition payload_bytes (payload : option wirecall_writer) : list Z :=
  match payload with Some w => w_bytes w | None => [] end.

(** the packet a client makes *)
Definition request (c : wirecall_client) (op : wirecall_op) (proc_id call_id : Z) (payload : option wirecall_writer) : list Z :=
  packet_of (cl_integrity c) (cl_mac_key c) op proc_id call_id (payload_bytes payload).

Lemma send_iov_spec fd header body n r n' :
  fd ∈ net_open n -> header <> [] -> send_iov_full fd (header :: match body with [] => [] | _ => [body] end) n = (r, n') ->
  (exists bs rest, header ++ body = bs ++ rest /\ sends fd bs n n' /\ match r with Ok _ => rest = [] | Err => True | UB => False end) /\
  (forall Q, accepts_data fd Q -> Q n -> r = Ok tt /\ Q n').
Proof.
  intros Hfd Hh. set (iov := header :: _). unfold send_iov_full.
  assert (Ec : concat iov = header ++ body) by (unfold iov; destruct body; cbn [concat]; by rewrite ?app_nil_r).
  replace ((zlen iov <=? 0) || (2 <? zlen iov)) with false by (unfold iov; by destruct body).
  assert (Hlive : iov = [] \/ concat iov <> []) by (right; rewrite Ec; by destruct header).
  intros E. split.
  - rewrite <- Ec. by eapply send_loop_spec; [| | | exact E].
  - intros Q HQ Hq. destruct (send_loop_accepts Q (length (concat iov) + net_work n) fd iov n HQ Hq Hfd) as (n2 & E2 & Hq2); [lia | done |].
    rewrite E2 in E. injection E as <- <-. done.
Qed.

Lemma payload_ok payload :
  (forall w, payload = Some w -> writer_ok w) ->
  bytes_ok (payload_bytes payload) /\ zlen (payload_bytes payload) <= WIRECALL_MAX_PAYLOAD_SIZE /\
  let data := match payload with Some w => writer_ptr w | None => None end in
  (data = Some (payload_bytes payload) \/ data = None /\ payload_bytes payload = []).
Proof.
  intros Hpay. destruct payload as [w|]; cbn [payload_bytes]; [| split_and!; [apply bytes_ok_nil | by_compute | by right]].
  destruct (Hpay w eq_refl) as (Hl & Hn & Hb). unfold w_len in Hl. split_and!; [done | lia |].
  unfold writer_ptr. destruct (w_data w); [by left | right]. split; [done |]. apply zlen_0_nil.
  rewrite Hn in Hl by done. pose proof (zlen_nonneg (w_bytes w)). lia.
Qed.

Lemma packet_iov_spec header payload :
  (forall w, payload = Some w -> writer_ok w) ->
  packet_iov header payload = Ok (header :: match payload_bytes payload with [] => [] | _ => [payload_bytes payload] end).
Proof.
  intros Hpay. destruct (payload_ok payload Hpay) as (_ & _ & Hdata). unfold packet_iov.
  destruct payload as [w|]; cbn [payload_bytes] in *; [| done]. unfold w_len.
  destruct (w_bytes w) as [|b bs] eqn:Ew; [done |]. rewrite zlen_cons. pose proof (zlen_nonneg bs).
  replace (0 <? 1 + zlen bs) with true by (symmetry; apply Z.ltb_lt; lia).
  destruct Hdata as [-> | [_ ?]]; [| done]. cbn [buffer_bytes].
  rewrite zlen_cons, Z.leb_refl, ztake_ge by (rewrite zlen_cons; lia). done.
Qed.

Lemma send_packet_spec base l p consumed c op proc_id call_id payload s r s' :
  world_ok base l p c consumed s -> (forall w, payload = Some w -> writer_ok w) ->
  0 <= proc_id < 2 ^ 64 -> 0 <= call_id < 2 ^ 64 ->
  send_packet op proc_id call_id payload s = (r, s') ->
  exists c', same_session c c' /\ world_ok base l p c' consumed s' /\ (unread c' = unread c /\ cl_read_buf c' = cl_read_buf c) /\ cw_heap s' = cw_heap s /\
    (exists bs rest, request c op proc_id call_id payload = bs ++ rest /\ sends (cl_fd c) bs (cw_net s) (cw_net s') /\
       match r with Ok _ => rest = [] | Err => True | UB => False end) /\
    (forall Q, accepts_data (cl_fd c) Q -> Q (cw_net s) -> r = Ok tt /\ Q (cw_net s')).
Proof.
  intros Hw Hpay Hp Hcall. unfold send_packet, bind at 1. rewrite (deref_world _ _ _ _ _ _ Hw). cbv zeta.
  set (len := match payload with Some w => w_len w | None => 0 end).
  set (data := match payload with Some w => writer_ptr w | None => None end).
  assert (Hlen : len = zlen (payload_bytes payload)) by (unfold len, payload_bytes; by destruct payload).
  destruct (payload_ok payload Hpay) as (Hb & Hmax & Hdata). fold data in Hdata. pose proof (wk_ok _ _ _ _ _ _ Hw) as Hc. destruct (ck_key _ Hc) as [Hk Hkl].
  destruct (packet_of_spec (cl_integrity c) (cl_mac_key c) op proc_id call_id _ Hp Hcall Hb Hmax Hk Hkl)
    as (h & Es & Hh & _ & _ & _ & _ & _ & Epk).
  assert (Esign : wirecall_packet_sign_ex (Some {| h_op := op_code op; h_flags := WIRECALL_FLAG_NONE; h_proc_id := proc_id;
      h_size := u32 len; h_call_id := call_id; h_checksum := 0; h_mac := 0 |}) data len (cl_integrity c) (Some (cl_mac_key c)) = Ok h).
  { rewrite Hlen. rewrite u32_small by (pose proof (zlen_nonneg (payload_bytes payload)); unfold WIRECALL_MAX_PAYLOAD_SIZE in Hmax; lia).
    fold (fresh_header op proc_id call_id (zlen (payload_bytes payload))).
    destruct Hdata as [-> | [-> E0]]; [done |]. rewrite E0 in *. by rewrite sign_null. }
  unfold attempt, lift, bind. rewrite Esign, (header_encode_ok _ Hh).
  rewrite (packet_iov_spec _ _ Hpay). unfold on_net at 1.
  destruct (send_iov_full (cl_fd c) _ (cw_net s)) as [r1 n1] eqn:E1.
  apply send_iov_spec in E1 as [(bs & rest & Ebs & Hsnd & Hr1) Hacc]; [| apply Hw | done].
  assert (Hw1 : world_ok base l p c consumed (put_net n1 s)).
  { destruct Hw as [Ec _ Hf Ho Hst], Hsnd as [So Sr _ _]. constructor; cbn [put_net cw_client cw_heap cw_net]; try done; [by rewrite So | by rewrite Sr]. }
  destruct r1 as [u| |]; [| | done].
  - intros [= <- <-]. exists c. split_and!; try done.
    + exists bs, rest. split_and!; [by unfold request; rewrite Epk | done | done].
    + intros Q HQ Hq. split; [done |]. by apply Hacc.
  - destruct (set_error_world _ _ _ _ _ _ (cstring "send failed") Hw1) as (s2 & E2 & En & Eh & Hw2). rewrite E2.
    intros [= <- <-]. eexists. split_and!; [| exact Hw2 | done | done | by rewrite Eh | |].
    + by constructor.
    + exists bs, rest. split_and!; [by unfold request; rewrite Epk | by rewrite En | done].
    + intros Q HQ Hq. by destruct (Hacc Q HQ Hq).
Qed.

(** *** Responses *)
Lemma world_heap base l l' p c consumed s h :
  world_ok base l p c consumed s -> owns base (p :: option_list (cl_read_buf c) ++ l') h ->
  world_ok base l' p c consumed (put_heap h s).
Proof. intros [] Ho. by constructor. Qed.

(** what response_body does with the payload [bytes] of a packet *)
Definition responded (base : gset Z) (l : list Z) (p : Z) (consumed : list Z) (c : wirecall_client) (s : cworld)
    (header : wirecall_header) (bytes : list Z) (r : res response) (s' : cworld) : Prop :=
  exists c' rs, r = Ok rs /\ rs_call_id rs = h_call_id header /\ same_session c c' /\ unread c' = unread c /\ cw_net s' = cw_net s /\
    (if rs_ok rs
     then h_op header = op_code WIRECALL_OP_RESPONSE /\ array_wf (rs_values rs) /\
          encode_values (map erase (cell_values (va_cells (rs_values rs)))) = bytes /\
          world_ok base (array_blocks (rs_values rs) ++ l) p c' consumed s'
     else rs_values rs = no_values /\ world_ok base l p c' consumed s') /\
    (forall R vs, reliable R -> R (cw_heap s) -> Forall pvalue_ok vs -> bytes = encode_values vs ->
       (h_op header = op_code WIRECALL_OP_RESPONSE -> rs_ok rs = true /\ R (cw_heap s') /\
          map erase (cell_values (va_cells (rs_values rs))) = vs) /\
       (forall text, h_op header = op_code WIRECALL_OP_ERROR -> vs = [PString text] -> cl_error c' = ztake (CLIENT_ERROR_SIZE - 1) text)).

(** a failure of the call, with a message *)
Lemma responded_error base l p consumed c s header bytes m s' id :
  world_ok base l p c consumed s -> id = h_call_id header ->
  (forall R vs, reliable R -> R (cw_heap s) -> Forall pvalue_ok vs -> bytes = encode_values vs ->
     h_op header <> op_code WIRECALL_OP_RESPONSE /\
     forall text, h_op header = op_code WIRECALL_OP_ERROR -> vs <> [PString text]) ->
  forall r, (set_error m ;;; ret {| rs_ok := false; rs_call_id := id; rs_values := no_values |}) s = (r, s') ->
  responded base l p consumed c s header bytes r s'.
Proof.
  intros Hw -> Hno r. unfold bind. destruct (set_error_world _ _ _ _ _ _ m Hw) as (s2 & -> & En & Eh & Hw2).
  intros [= <- <-]. exists (set_client_error (snprintf_s CLIENT_ERROR_SIZE m) c). eexists. split; [done |].
  cbn [rs_ok rs_call_id rs_values]. split_and!; try done.
  - intros R vs HR Hr Hvs E. destruct (Hno R vs HR Hr Hvs E) as [H1 H2]. split; [done |]. intros text He Ht. by destruct (H2 text He).
Qed.

Lemma decode_body base l p consumed c s header bytes r h' :
  world_ok base l p c consumed s -> header_ok header -> bytes_ok bytes -> zlen bytes = h_size header ->
  wirecall_payload_decode (Some bytes) (h_size header) true true (cw_heap s) = (r, h') ->
  match r with
  | Ok a => array_wf a /\ encode_values (map erase (cell_values (va_cells a))) = bytes /\
      world_ok base (array_blocks a ++ l) p c consumed (put_heap h' s)
  | Err => world_ok base l p c consumed (put_heap h' s)
  | UB => False
  end /\
  (forall R vs, reliable R -> R (cw_heap s) -> Forall pvalue_ok vs -> bytes = encode_values vs ->
     exists a, r = Ok a /\ R h' /\ map erase (cell_values (va_cells a)) = vs).
Proof.
  intros Hw (_ & _ & _ & Hsz & _) Hb Hl E. rewrite <- Hl in *. pose proof (zlen_nonneg bytes).
  assert (Hbig : zlen bytes < 2 ^ 56) by (unfold WIRECALL_MAX_PAYLOAD_SIZE in *; lia). split.
  - pose proof E as E'. apply (decode_framed H64 base _ _ _ _ _ _ (wk_owns _ _ _ _ _ _ Hw)) in E; [| split_and!; [done | lia | lia | done]].
    destruct r as [a| |]; [| by eapply world_heap | done].
    destruct E as (Ha & Ho & Ee). cbn [default from_option] in Ee. rewrite ztake_ge in Ee by (cbn [id]; lia). split_and!; [done | done |].
    eapply world_heap; [done |]. revert Ho. apply owns_perm; [| done].
    rewrite <- Permutation_middle. f_equiv. rewrite !app_assoc. f_equiv. apply Permutation_app_comm.
  - intros R vs HR Hr Hvs Ev.
    destruct (decode_framed_complete H64 R base _ (cw_heap s) bytes vs HR Hr (wk_owns _ _ _ _ _ _ Hw) Hb Hbig Hvs Ev) as (a & h2 & E2 & Hr2 & Ea).
    rewrite E2 in E. injection E as <- <-. eauto.
Qed.

(** the text of an error packet, cut to the buffer *)
Lemma error_values_spec base l p consumed c s a :
  world_ok base l p c consumed s -> array_wf a ->
  exists c' s', error_values a s = (Ok tt, s') /\ same_session c c' /\ unread c' = unread c /\ cl_read_buf c' = cl_read_buf c /\
    cw_net s' = cw_net s /\ cw_heap s' = cw_heap s /\ world_ok base l p c' consumed s' /\
    forall text, map erase (cell_values (va_cells a)) = [PString text] -> cl_error c' = ztake (CLIENT_ERROR_SIZE - 1) text.
Proof.
  intros Hw (cap & vals & Ha & Hc & Hg). unfold error_values. rewrite Hc, (array_values a cap vals Ha).
  assert (Hmsg : forall m, (forall text, map erase vals <> [PString text]) -> exists c' s', set_error m s = (Ok tt, s') /\ same_session c c' /\ unread c' = unread c /\
    cl_read_buf c' = cl_read_buf c /\ cw_net s' = cw_net s /\ cw_heap s' = cw_heap s /\ world_ok base l p c' consumed s' /\
    forall text, map erase vals = [PString text] -> cl_error c' = ztake (CLIENT_ERROR_SIZE - 1) text).
  { intros m Hno. destruct (set_error_world _ _ _ _ _ _ m Hw) as (s2 & -> & En & Eh & Hw2).
    exists (set_client_error (snprintf_s CLIENT_ERROR_SIZE m) c), s2. split_and!; try done. intros text Ht. by destruct (Hno text). }
  destruct (zlen vals =? 1) eqn:E1; zb.
  2: { apply Hmsg. intros text Ht. apply E1. apply (f_equal zlen) in Ht. unfold zlen in *. rewrite length_map in Ht. cbn in Ht. lia. }
  destruct vals as [|v [|v2 vals]]; [done | | rewrite !zlen_cons in E1; pose proof (zlen_nonneg vals); lia].
  assert (Hcells : exists junk, va_cells a = CValue v :: junk).
  { destruct (va_ptr a); cbn in Ha; [destruct Ha as (_ & _ & junk & ->); eexists; done | by destruct Ha as (_ & _ & ?)]. }
  destruct Hcells as (junk & ->). apply Forall_cons_1 in Hg as [[Hv _] _]. unfold take_error.
  destruct v as [| | | | | |sp len chars]; try (apply Hmsg; done). destruct Hv as [-> Hp]. destruct sp as [sp|]; [| done].
  set (n := if CLIENT_ERROR_SIZE <=? zlen chars then CLIENT_ERROR_SIZE - 1 else zlen chars).
  assert (Hn : 0 <= n < CLIENT_ERROR_SIZE /\ n <= zlen chars /\ ztake n chars = ztake (CLIENT_ERROR_SIZE - 1) chars).
  { pose proof (zlen_nonneg chars). unfold n, CLIENT_ERROR_SIZE. destruct (160 <=? zlen chars) eqn:E; zb; [split_and!; try done; lia |].
    split_and!; try lia. by rewrite !ztake_ge by lia. }
  destruct Hn as (Hn & Hnl & Et). unfold bind at 1, lift. cbn [buffer_bytes].
  replace (n <=? zlen chars) with true by (symmetry; by apply Z.leb_le).
  replace (CLIENT_ERROR_SIZE <=? n) with false by (symmetry; apply Z.leb_gt; lia).
  unfold bind. rewrite (deref_world _ _ _ _ _ _ Hw). unfold put_client, modify. rewrite (wk_client _ _ _ _ _ _ Hw), Et.
  exists (set_client_error (ztake (CLIENT_ERROR_SIZE - 1) chars) c). eexists. split_and!; [done | done | done | done | done | done | |].
  - destruct Hw as [Ec Hok Hf Ho Hs]. constructor; try done. destruct Hok. by constructor.
  - intros text [= <-]. done.
Qed.

Lemma op_codes_differ : op_code WIRECALL_OP_ERROR <> op_code WIRECALL_OP_RESPONSE.
Proof. done. Qed.

Lemma decode_attempt base l p consumed c s header bytes :
  world_ok base l p c consumed s -> header_ok header -> bytes_ok bytes -> zlen bytes = h_size header ->
  forall r1 s1, attempt (on_heap (wirecall_payload_decode (Some bytes) (h_size header) true true)) s = (r1, s1) ->
    (exists a, r1 = Ok (Some a) /\ array_wf a /\ encode_values (map erase (cell_values (va_cells a))) = bytes /\
        world_ok base (array_blocks a ++ l) p c consumed s1 /\ cw_net s1 = cw_net s /\
        forall R vs, reliable R -> R (cw_heap s) -> Forall pvalue_ok vs -> bytes = encode_values vs ->
          R (cw_heap s1) /\ map erase (cell_values (va_cells a)) = vs) \/
    (r1 = Ok None /\ world_ok base l p c consumed s1 /\ cw_net s1 = cw_net s /\
       forall R vs, reliable R -> R (cw_heap s) -> Forall pvalue_ok vs -> bytes = encode_values vs -> False).
Proof.
  intros Hw Hh Hb Hl r1 s1. unfold attempt, on_heap. destruct (wirecall_payload_decode _ _ _ _ _) as [rd h1] eqn:Ed.
  apply (decode_body _ _ _ _ _ _ _ _ _ _ Hw Hh Hb Hl) in Ed as [Hd Hc]. destruct rd as [a| |]; [| | done]; intros [= <- <-].
  - left. exists a. destruct Hd as (? & ? & ?). split_and!; try done. intros R vs HR Hr Hvs E.
    by destruct (Hc R vs HR Hr Hvs E) as (? & [= <-] & ? & ?).
  - right. split_and!; try done. intros R vs HR Hr Hvs E. by destruct (Hc R vs HR Hr Hvs E) as (? & ? & _).
Qed.

Lemma response_body_spec base l p consumed c s header bytes r s' :
  world_ok base l p c consumed s -> header_ok header -> bytes_ok bytes -> zlen bytes = h_size header ->
  response_body header bytes s = (r, s') -> responded base l p consumed c s header bytes r s'.
Proof.
  intros Hw Hh Hb Hl. unfold response_body.
  pose proof (decode_attempt _ _ _ _ _ _ _ _ Hw Hh Hb Hl) as Hdec.
  destruct (h_op header =? op_code WIRECALL_OP_RESPONSE) eqn:E1; zb.
  - unfold bind at 1. destruct (attempt _ s) as [r1 s1] eqn:E2. destruct (Hdec _ _ eq_refl) as [(a & -> & Ha & Ee & Hw1 & En & Hlive) | (-> & Hw1 & En & Hno)].
    + intros [= <- <-]. exists c, {| rs_ok := true; rs_call_id := h_call_id header; rs_values := a |}.
      cbn [rs_ok rs_call_id rs_values]. split_and!; try done. intros R vs HR Hr Hvs E. split; [intros _; split; [done | by apply Hlive] |].
      intros text He. rewrite E1 in He. done.
    + unfold bind. destruct (set_error_world _ _ _ _ _ _ (cstring "malformed response payload") Hw1) as (s2 & -> & En2 & Eh2 & Hw2).
      intros [= <- <-]. eexists (set_client_error _ c), _. split; [done |]. cbn [rs_ok rs_call_id rs_values]. rewrite En2.
      split_and!; [done | done | done | done | done | exact Hw2 |]. intros R vs HR Hr Hvs E. by destruct (Hno R vs HR Hr Hvs E).
  - destruct (h_op header =? op_code WIRECALL_OP_ERROR) eqn:E3; zb.
    + unfold bind at 1. destruct (attempt _ s) as [r1 s1] eqn:E2.
      destruct (Hdec _ _ eq_refl) as [(a & -> & Ha & Ee & Hw1 & En & Hlive) | (-> & Hw1 & En & Hno)].
      * unfold bind at 1 2. destruct (error_values_spec _ _ _ _ _ _ a Hw1 Ha) as (c2 & s2 & -> & Hss & Hu & Hbuf & En2 & Eh2 & Hw2 & Herr).
        unfold on_heap. destruct (values_free_blocks a base (p :: option_list (cl_read_buf c2) ++ l) (cw_heap s2) Ha) as (h3 & -> & Ho3).
        { pose proof (wk_owns _ _ _ _ _ _ Hw2) as Ho. revert Ho. apply owns_perm; [| done].
          rewrite <- Permutation_middle. f_equiv. rewrite !app_assoc. f_equiv. apply Permutation_app_comm. }
        intros [= <- <-]. exists c2, {| rs_ok := false; rs_call_id := h_call_id header; rs_values := no_values |}.
        cbn [rs_ok rs_call_id rs_values put_heap cw_net]. split_and!; try done; [by rewrite En2 | by eapply world_heap |].
        intros R vs HR Hr Hvs E. split; [done |]. intros text _ ->. apply Herr. by apply (Hlive R [PString text]).
      * unfold bind at 1. destruct (set_error_world _ _ _ _ _ _ (cstring "server returned error") Hw1) as (s2 & -> & En2 & Eh2 & Hw2).
        intros [= <- <-]. eexists (set_client_error _ c), _. split; [done |]. cbn [rs_ok rs_call_id rs_values]. rewrite En2.
        split_and!; [done | done | done | done | done | exact Hw2 |]. intros R vs HR Hr Hvs E. by destruct (Hno R vs HR Hr Hvs E).
    + intros E. eapply (responded_error _ _ _ _ _ _ _ _ _ _ _ Hw eq_refl); [| exact E]. done.
Qed.

(** a response, or a failure that says so; the packet is consumed unless
    recv_packet refused it *)
Definition response_received (base : gset Z) (l : list Z) (p : Z) (consumed : list Z) (c : wirecall_client) (s : cworld)
    (rs : response) (s' : cworld) : Prop :=
  exists c', moved c c' s s' /\
    ((rs = {| rs_ok := false; rs_call_id := 0; rs_values := no_values |} /\ world_ok base l p c' consumed s') \/
     exists h body, genuine c h body /\ rs_call_id rs = h_call_id h /\
       if rs_ok rs
       then h_op h = op_code WIRECALL_OP_RESPONSE /\ array_wf (rs_values rs) /\
            encode_values (map erase (cell_values (va_cells (rs_values rs)))) = body /\
            world_ok base (array_blocks (rs_values rs) ++ l) p c' (consumed ++ header_bytes h ++ body) s'
       else rs_values rs = no_values /\ world_ok base l p c' (consumed ++ header_bytes h ++ body) s') /\
    (forall R Q avail h vs rest, reliable R -> delivers (cl_fd c) Q -> R (cw_heap s) -> Q avail (cw_net s) ->
       genuine c h (encode_values vs) -> Forall pvalue_ok vs -> unread c ++ avail = header_bytes h ++ encode_values vs ++ rest ->
       rs_call_id rs = h_call_id h /\ (exists avail', Q avail' (cw_net s') /\ unread c' ++ avail' = rest) /\
       (h_op h = op_code WIRECALL_OP_RESPONSE -> rs_ok rs = true /\ R (cw_heap s') /\
          map erase (cell_values (va_cells (rs_values rs))) = vs) /\
       (forall text, h_op h = op_code WIRECALL_OP_ERROR -> vs = [PString text] ->
          rs_ok rs = false /\ cl_error c' = ztake (CLIENT_ERROR_SIZE - 1) text)).

Lemma connected_world base l p c consumed s : world_ok base l p c consumed s -> 0 <= cl_fd c -> connected s = (Ok c, s).
Proof.
  intros Hw Hfd. unfold connected, bind, gets. rewrite (wk_client _ _ _ _ _ _ Hw).
  by replace (cl_fd c <? 0) with false by (symmetry; apply Z.ltb_ge; lia).
Qed.

(** the body is freed behind the values *)
Lemma world_free_body base l a p c consumed b s :
  world_ok base (a ++ b :: l) p c consumed s -> world_ok base (a ++ l) p c consumed (put_heap (heap_free b (cw_heap s)) s).
Proof.
  intros Hw. eapply world_heap; [done |]. apply owns_free. pose proof (wk_owns _ _ _ _ _ _ Hw) as Ho. revert Ho.
  apply owns_perm; [| done]. rewrite <- !Permutation_middle. apply Permutation_swap.
Qed.

Lemma world_owned base l p c consumed b s : world_ok base (b :: l) p c consumed s -> b ∈ heap_live (cw_heap s).
Proof.
  intros Hw. destruct (wk_owns _ _ _ _ _ _ Hw) as (_ & _ & _ & ->). apply elem_of_union. right. apply elem_of_list_to_set.
  apply elem_of_cons. right. apply elem_of_app. right. apply elem_of_cons. by left.
Qed.

Lemma recv_response_spec base l p consumed c s r s' :
  world_ok base l p c consumed s -> 0 <= cl_fd c -> wirecall_client_recv_response true true true s = (r, s') ->
  exists rs, r = Ok rs /\ response_received base l p consumed c s rs s'.
Proof.
  intros Hw Hfd. unfold wirecall_client_recv_response, bind at 1. rewrite (connected_world _ _ _ _ _ _ Hw Hfd). cbn [negb orb].
  unfold bind at 1, attempt. destruct (recv_packet s) as [r1 s1] eqn:E1.
  apply (recv_packet_spec _ _ _ _ _ _ _ _ Hw) in E1 as (c1 & Hm1 & Hr1 & Hlive1).
  destruct r1 as [[h [b body]]| |]; [| | done].
  2: { intros [= <- <-]. eexists. split; [done |]. exists c1. split_and!; [done | by left |].
       intros R Q avail h vs rest HR HQ Hr Hq Hg _ E. by destruct (Hlive1 R Q avail h _ rest HR HQ Hr Hq Hg E) as ([? ?] & _). }
  destruct Hr1 as [Hg Hw1]. pose proof Hg as (Hh & Hl & Hb & _).
  unfold bind at 1. destruct (response_body h body s1) as [r2 s2] eqn:E2.
  apply (response_body_spec _ _ _ _ _ _ _ _ _ _ Hw1 Hh Hb Hl) in E2 as (c2 & rs & -> & Eid & Hss & Hu & En & Hrs & Hlive2).
  unfold bind, on_heap, modify. intros [= <- <-]. exists rs. split; [done |].
  assert (Hm : moved c c2 s s2). { eapply moved_trans; [done |]. constructor; [done |]. rewrite En. apply receives_refl. }
  exists c2. split_and!; [by destruct Hm | right; exists h, body; split_and!; try done |].
  - destruct (rs_ok rs).
    + destruct Hrs as (H1 & H2 & H3 & H4). split_and!; try done. by apply world_free_body.
    + destruct Hrs as [H1 H2]. split; [done |]. by apply (world_free_body base l []).
  - intros R Q avail h' vs rest HR HQ Hr Hq Hg' Hvs E.
    destruct (Hlive1 R Q avail h' _ rest HR HQ Hr Hq Hg' E) as ([b' [= <- <- ->]] & Hr1 & avail' & Hq1 & Ea).
    destruct (Hlive2 R vs HR Hr1 Hvs eq_refl) as [Hresp Herr]. split; [done |].
    split; [exists avail'; cbn [put_heap cw_net]; by rewrite En, Hu |]. split.
    + intros Hop. destruct (Hresp Hop) as (Eok & Hr2 & Ev). split_and!; try done. rewrite Eok in Hrs. destruct Hrs as (_ & _ & _ & Hw2).
      cbn [put_heap cw_heap]. apply (rel_free _ HR); [by eapply owns_inv, Hw2 | | done].
      eapply (world_owned base (array_blocks (rs_values rs) ++ l) p c2 (consumed ++ header_bytes h ++ encode_values vs)).
      destruct Hw2 as [? ? ? Ho ?]. constructor; try done. revert Ho. apply owns_perm; [| done]. by rewrite <- !Permutation_middle.
    + intros text Hop Ht. split; [| by apply Herr]. destruct (rs_ok rs); [| done]. destruct Hrs as (Hop' & _). rewrite Hop' in Hop. done.
Qed.

(** *** Calls *)

(** the client after it took a call id *)
Definition next_call (c : wirecall_client) : wirecall_client := set_next_call_id (u64 (cl_next_call_id c + 1)) c.

Lemma take_call_id base l p c consumed s :
  world_ok base l p c consumed s ->
  exists s', put_client (next_call c) s = (Ok tt, s') /\ cw_heap s' = cw_heap s /\ cw_net s' = cw_net s /\
    world_ok base l p (next_call c) consumed s'.
Proof.
  intros [Ec Hok Hf Ho Hs]. unfold put_client, modify. rewrite Ec. eexists. split_and!; [done | done | done |].
  constructor; try done. destruct Hok. constructor; try done. cbn [next_call set_next_call_id cl_next_call_id]. apply u64_range.
Qed.

(** a request and what it leaves: the id is taken, and a prefix of the packet
    (all of it on success) is on the wire *)
Definition requested (base : gset Z) (l : list Z) (p : Z) (consumed : list Z) (c : wirecall_client) (s : cworld)
    (op : wirecall_op) (proc_id : Z) (args : option wirecall_writer) (ok : bool) (c' : wirecall_client) (s' : cworld) : Prop :=
  same_session (next_call c) c' /\ world_ok base l p c' consumed s' /\ (unread c' = unread c /\ cl_read_buf c' = cl_read_buf c) /\ cw_heap s' = cw_heap s /\
  (exists bs rest, request c op proc_id (cl_next_call_id c) args = bs ++ rest /\
     sends (cl_fd c) bs (cw_net s) (cw_net s') /\ (ok = true -> rest = [])) /\
  (forall Q, accepts_data (cl_fd c) Q -> Q (cw_net s) -> ok = true /\ Q (cw_net s')).

Lemma request_spec base l p consumed c op proc_id args s r s' :
  world_ok base l p c consumed s -> (forall w, args = Some w -> writer_ok w) -> 0 <= proc_id < 2 ^ 64 ->
  (put_client (next_call c) ;;; send_packet op proc_id (cl_next_call_id c) args) s = (r, s') ->
  exists c', requested base l p consumed c s op proc_id args (bool_decide (r = Ok tt)) c' s' /\ r <> UB.
Proof.
  intros Hw Hargs Hp. unfold bind. destruct (take_call_id _ _ _ _ _ _ Hw) as (s1 & -> & Eh & En & Hw1).
  pose proof (ck_id _ (wk_ok _ _ _ _ _ _ Hw)) as Hid. intros E.
  apply (send_packet_spec _ _ _ _ _ _ _ _ _ _ _ _ Hw1 Hargs Hp Hid) in E as (c' & Hss & Hw' & [Hu Hbuf] & Eh' & (bs & rest & Eb & Hs & Hr) & Hacc).
  exists c'. rewrite En in *. split; [| by destruct r]. unfold requested. rewrite Eh'. split_and!; try done.
  - exists bs, rest. split_and!; try done. intros ->%bool_decide_eq_true_1. done.
  - intros Q HQ Hq. destruct (Hacc Q HQ Hq) as [-> Hq']. done.
Qed.

Lemma send_call_spec base l p consumed c proc_id args s r s' :
  world_ok base l p c consumed s -> 0 <= cl_fd c -> (forall w, args = Some w -> writer_ok w) -> 0 <= proc_id < 2 ^ 64 ->
  client_send_call_id proc_id args true s = (r, s') ->
  exists c', requested base l p consumed c s WIRECALL_OP_RPC proc_id args (bool_decide (r = Ok (cl_next_call_id c))) c' s' /\
    (r = Ok (cl_next_call_id c) \/ r = Err).
Proof.
  intros Hw Hfd Hargs Hp. unfold client_send_call_id, bind at 1. rewrite (connected_world _ _ _ _ _ _ Hw Hfd). cbn [negb].
  cbv zeta. fold (next_call c). intros E.
  destruct ((put_client (next_call c) ;;; send_packet WIRECALL_OP_RPC proc_id (cl_next_call_id c) args) s) as [r1 s1] eqn:E1.
  pose proof (request_spec _ _ _ _ _ _ _ _ _ _ _ Hw Hargs Hp E1) as (c' & Hreq & Hub). exists c'.
  destruct (take_call_id _ _ _ _ _ _ Hw) as (s2 & Ep & _). unfold bind in E, E1. rewrite Ep in E, E1. rewrite E1 in E. destruct r1 as [[]| |]; [| | done]; injection E as <- <-.
  - rewrite bool_decide_eq_true_2 in Hreq by done. rewrite bool_decide_eq_true_2 by done. split; [done | by left].
  - rewrite bool_decide_eq_false_2 in Hreq by done. rewrite bool_decide_eq_false_2 by done. split; [done | by right].
Qed.

(** the outcome of a call: on success its request is on the wire in full and
    the values are the payload of the next packet of the stream, a genuine
    response with the id of the call; on failure nothing is held for it *)
Definition called (base : gset Z) (l : list Z) (p : Z) (consumed : list Z) (c : wirecall_client) (s : @cworld W K)
    (proc_id : Z) (args : option wirecall_writer) (r : res value_array) (s' : @cworld W K) : Prop :=
  exists c' bs rest, same_session (next_call c) c' /\ net_open (cw_net s') = net_open (cw_net s) /\
    request c WIRECALL_OP_RPC proc_id (cl_next_call_id c) args = bs ++ rest /\
    net_sent (cl_fd c) (cw_net s') = net_sent (cl_fd c) (cw_net s) ++ bs /\
    match r with
    | Ok a =>
        rest = [] /\ exists h body, genuine c h body /\ h_op h = op_code WIRECALL_OP_RESPONSE /\ h_call_id h = cl_next_call_id c /\
          array_wf a /\ encode_values (map erase (cell_values (va_cells a))) = body /\
          world_ok base (array_blocks a ++ l) p c' (consumed ++ header_bytes h ++ body) s'
    | Err => exists packet, world_ok base l p c' (consumed ++ packet) s'
    | UB => False
    end.

(** the streams after a request and then some reading *)
Lemma sends_receives fd bs n n1 n2 :
  sends fd bs n n1 -> receives fd n1 n2 -> net_open n2 = net_open n /\ net_sent fd n2 = net_sent fd n ++ bs.
Proof. intros [O _ S _] [O' S' _ _]. split; [congruence |]. by rewrite S', S, decide_True. Qed.

Lemma genuine_next c h body c1 : same_session (next_call c) c1 -> genuine c1 h body <-> genuine c h body.
Proof. intros []. unfold genuine. rewrite ss_integrity0, ss_key0. done. Qed.

Lemma call_spec base l p consumed c proc_id args s r s' :
  world_ok base l p c consumed s -> 0 <= cl_fd c -> (forall w, args = Some w -> writer_ok w) -> 0 <= proc_id < 2 ^ 64 ->
  client_call_id proc_id args true true s = (r, s') -> called base l p consumed c s proc_id args r s'.
Proof.
  intros Hw Hfd Hargs Hp. unfold client_call_id, bind at 1. rewrite (connected_world _ _ _ _ _ _ Hw Hfd). cbn [negb orb].
  unfold bind at 1. destruct (client_send_call_id proc_id args true s) as [r1 s1] eqn:E1.
  apply (send_call_spec _ _ _ _ _ _ _ _ _ _ Hw Hfd Hargs Hp) in E1 as (c1 & (Hss1 & Hw1 & [Hu1 _] & Eh1 & (bs & rest & Eb & Hs & Hok) & _) & [-> | ->]).
  2: { intros [= <- <-]. exists c1, bs, rest. split_and!; try done; [apply Hs | by rewrite (snd_sent _ _ _ _ Hs), decide_True |].
       exists []. by rewrite app_nil_r. }
  rewrite Hok, app_nil_r in Eb by (by apply bool_decide_eq_true_2).
  assert (Hfd1 : cl_fd c1 = cl_fd c) by (by destruct Hss1).
  unfold bind at 1. destruct (wirecall_client_recv_response true true true s1) as [r2 s2] eqn:E2.
  apply (recv_response_spec _ _ _ _ _ _ _ _ Hw1) in E2 as (rs & -> & c2 & [Hss2 Hrc2] & Hr2 & _); [| lia].
  rewrite Hfd1 in Hrc2. destruct (sends_receives _ _ _ _ _ Hs Hrc2) as [Eo Es].
  assert (Hss : same_session (next_call c) c2) by (by eapply same_trans).
  destruct (rs_ok rs) eqn:Erc; cbn [negb].
  2: { intros [= <- <-]. exists c2, bs, []. rewrite app_nil_r. split_and!; try done.
       destruct Hr2 as [(_ & Hw2) | (h & body & _ & _ & _ & Hw2)]; [exists []; by rewrite app_nil_r | by eexists]. }
  destruct Hr2 as [(-> & _) | (h & body & Hg & Eid & Hop & Ha & Ee & Hw2)]; [done |].
  apply (genuine_next _ _ _ _ Hss1) in Hg. destruct (rs_call_id rs =? cl_next_call_id c) eqn:Ec; zb; cbn [negb].
  - intros [= <- <-]. exists c2, bs, []. rewrite app_nil_r. split_and!; try done. exists h, body. split_and!; try done. congruence.
  - unfold bind at 1, on_heap. destruct (values_free_blocks (rs_values rs) base (p :: option_list (cl_read_buf c2) ++ l) (cw_heap s2) Ha) as (h3 & -> & Ho3).
    { pose proof (wk_owns _ _ _ _ _ _ Hw2) as Ho. revert Ho. apply owns_perm; [| done].
      rewrite <- Permutation_middle. f_equiv. rewrite !app_assoc. f_equiv. apply Permutation_app_comm. }
    assert (Hw3 : world_ok base l p c2 (consumed ++ header_bytes h ++ body) (put_heap h3 s2)) by (by eapply world_heap).
    unfold bind. destruct (set_error_world _ _ _ _ _ _ (cstring "unexpected call id") Hw3) as (s4 & -> & En4 & Eh4 & Hw4).
    intros [= <- <-]. eexists _, bs, []. rewrite app_nil_r, En4. split_and!; [| done | done | done | by eexists].
    destruct Hss. by constructor.
Qed.

(** and when the network and the allocator do their part: the server's answer
    to the request is what the call returns *)
Lemma call_complete base l p consumed c proc_id args s R Q0 Q avail h vs rest :
  world_ok base l p c consumed s -> 0 <= cl_fd c -> (forall w, args = Some w -> writer_ok w) -> 0 <= proc_id < 2 ^ 64 ->
  reliable R -> R (cw_heap s) -> accepts_data (cl_fd c) Q0 -> Q0 (cw_net s) -> delivers (cl_fd c) Q ->
  (forall n, Q0 n -> net_sent (cl_fd c) n = net_sent (cl_fd c) (cw_net s) ++ request c WIRECALL_OP_RPC proc_id (cl_next_call_id c) args ->
     Q avail n) ->
  unread c ++ avail = header_bytes h ++ encode_values vs ++ rest ->
  genuine c h (encode_values vs) -> Forall pvalue_ok vs -> h_call_id h = cl_next_call_id c ->
  exists r s', client_call_id proc_id args true true s = (r, s') /\
    (h_op h = op_code WIRECALL_OP_RESPONSE -> exists a, r = Ok a /\ map erase (cell_values (va_cells a)) = vs) /\
    (forall text, h_op h = op_code WIRECALL_OP_ERROR -> vs = [PString text] ->
       r = Err /\ exists c', cw_client s' = Some (p, c') /\ cl_error c' = ztake (CLIENT_ERROR_SIZE - 1) text).
Proof.
  intros Hw Hfd Hargs Hp HR Hr HQ0 Hq0 HQ Hserve Hav Hg Hvs Hid. unfold client_call_id, bind at 1.
  rewrite (connected_world _ _ _ _ _ _ Hw Hfd). cbn [negb orb].
  unfold bind at 1. destruct (client_send_call_id proc_id args true s) as [r1 s1] eqn:E1.
  apply (send_call_spec _ _ _ _ _ _ _ _ _ _ Hw Hfd Hargs Hp) in E1 as (c1 & (Hss1 & Hw1 & [Hu1 _] & Eh1 & (bs & rest1 & Eb & Hs & Hok) & Hacc) & Hor).
  destruct (Hacc Q0 HQ0 Hq0) as [Hr1 Hq1]. apply bool_decide_eq_true_1 in Hr1. subst r1.
  rewrite Hok in Eb by (by apply bool_decide_eq_true_2). rewrite app_nil_r in Eb. subst bs.
  assert (Hfd1 : cl_fd c1 = cl_fd c) by (by destruct Hss1).
  assert (Hq : Q avail (cw_net s1)) by (apply Hserve; [done | by rewrite (snd_sent _ _ _ _ Hs), decide_True]).
  unfold bind at 1. destruct (wirecall_client_recv_response true true true s1) as [r2 s2] eqn:E2.
  apply (recv_response_spec _ _ _ _ _ _ _ _ Hw1) in E2 as (rs & -> & c2 & _ & Hr2 & Hlive); [| lia].
  rewrite <- Eh1 in Hr. rewrite <- Hfd1 in HQ. rewrite <- Hu1 in Hav.
  destruct (Hlive R Q avail h vs rest HR HQ Hr Hq) as (Eid & _ & Hresp & Herr); [by apply (genuine_next _ _ _ _ Hss1) | done | done |].
  destruct (decide (h_op h = op_code WIRECALL_OP_RESPONSE)) as [Hop | Hop].
  - destruct (Hresp Hop) as (-> & _ & Ev). cbn [negb]. replace (rs_call_id rs =? cl_next_call_id c) with true by (symmetry; apply Z.eqb_eq; congruence).
    cbn [negb]. eexists _, s2. split; [done |]. split; [intros _; by eexists |]. intros text He. rewrite Hop in He. done.
  - destruct (decide (h_op h = op_code WIRECALL_OP_ERROR)) as [He | He].
    + destruct (rs_ok rs) eqn:Erc; cbn [negb].
      * eexists _, _. split; [by apply surjective_pairing |]. split; [done |]. intros text _ Ht. by destruct (Herr text He Ht).
      * eexists _, s2. split; [done |]. split; [done |]. intros text _ Ht. split; [done |]. exists c2. split; [| by apply Herr].
        destruct Hr2 as [(_ & Hw2) | (? & ? & _ & _ & _ & Hw2)]; apply Hw2.
    + eexists _, _. split; [by apply surjective_pairing |]. split; [done |]. done.
Qed.

(** *** Connecting and closing *)
Lemma close_spec base l p c consumed s :
  world_ok base l p c consumed s -> 0 <= cl_fd c ->
  exists s', wirecall_client_close s = (Ok tt, s') /\ cw_client s' = None /\ owns base l (cw_heap s') /\
    net_open (cw_net s') = net_open (cw_net s) ∖ {[cl_fd c]} /\
    net_received (cl_fd c) (cw_net s') = net_received (cl_fd c) (cw_net s) /\
    exists bs rest, request c WIRECALL_OP_DISCONNECT 0 (cl_next_call_id c) None = bs ++ rest /\
      net_sent (cl_fd c) (cw_net s') = net_sent (cl_fd c) (cw_net s) ++ bs.
Proof.
  intros Hw Hfd. unfold wirecall_client_close, bind at 1, gets. rewrite (wk_client _ _ _ _ _ _ Hw).
  replace (0 <=? cl_fd c) with true by (symmetry; by apply Z.leb_le). fold (next_call c).
  destruct ((put_client (next_call c) ;;; send_packet WIRECALL_OP_DISCONNECT 0 (cl_next_call_id c) None) s) as [r1 s1] eqn:E1.
  pose proof (request_spec _ _ _ _ _ _ 0 None _ _ _ Hw ltac:(done) ltac:(lia) E1) as (c1 & (Hss & Hw1 & [_ Hbuf] & Eh & (bs & rest & Eb & Hs & _) & _) & Hub).
  destruct (take_call_id _ _ _ _ _ _ Hw) as (s0 & Ep & _).
  unfold bind in E1 |- *. rewrite Ep in E1 |- *. unfold attempt. rewrite E1.
  assert (Hres : exists x, (match r1 with Ok a => (Ok (Some a), s1) | Err => (Ok None, s1) | UB => (UB, s1) end) = (Ok x, s1)) by (destruct r1; [by eexists | by eexists | done]).
  destruct Hres as (o & ->). unfold on_net, on_heap, modify. eexists. split; [done |].
  cbn [drop_client put_heap put_net cw_client cw_heap cw_net].
  pose proof (law_close (cl_fd c) (cw_net s1)) as (Eo & _ & Est); [change (cl_fd c) with (cl_fd (next_call c)); by rewrite <- (ss_fd _ _ Hss); apply Hw1 |].
  split_and!; [done | | by rewrite Eo, (snd_open _ _ _ _ Hs) | |].
  - apply owns_free. rewrite <- Hbuf. apply owns_free_opt. pose proof (wk_owns _ _ _ _ _ _ Hw1) as Ho. revert Ho.
    apply owns_perm; [| done]. by rewrite <- Permutation_middle.
  - destruct (Est (cl_fd c)) as [-> _]. apply (snd_received _ _ _ _ Hs).
  - exists bs, rest. split; [done |]. destruct (Est (cl_fd c)) as [_ ->]. by rewrite (snd_sent _ _ _ _ Hs), decide_True.
Qed.

(** a client that never got a descriptor *)
Lemma close_unconnected base l p s :
  cw_client s = Some (p, new_client) -> owns base (p :: l) (cw_heap s) ->
  exists s', wirecall_client_close s = (Ok tt, s') /\ cw_client s' = None /\ owns base l (cw_heap s') /\ cw_net s' = cw_net s.
Proof.
  intros Ec Ho. unfold wirecall_client_close, bind at 1, gets. rewrite Ec. cbn [new_client cl_fd cl_read_buf Z.leb Z.compare].
  eexists. split; [done |]. cbn [drop_client put_heap cw_client cw_heap cw_net]. split_and!; [done | by apply owns_free | done].
Qed.

Lemma connect_loop_spec res n r n' :
  connect_loop res n = (r, n') ->
  (r = Ok None /\ net_open n' = net_open n) \/
  exists fd, r = Ok (Some fd) /\ 0 <= fd /\ (fd ∉ net_open n) /\ net_open n' = {[fd]} ∪ net_open n /\
    net_received fd n' = [] /\ net_sent fd n' = [].
Proof.
  revert n. induction res as [|ai res IH]; intros n; [intros [= <- <-]; by left |]. cbn [connect_loop].
  destruct (net_socket ai n) as [[fd|e] n1] eqn:Es; pose proof (law_socket _ _ _ _ Es) as Hl.
  - destruct Hl as (Hfd & Hnew & Ho & Hr & Hs & _ & _). pose proof (law_connect fd ai n1) as [Oc Rc Sc _].
    destruct (net_connect fd ai n1) as [rc n2]. cbn [snd] in *. destruct (rc =? 0).
    + intros [= <- <-]. right. exists fd. rewrite Oc, Rc, Sc. done.
    + destruct (law_close fd n2) as (Oz & _ & Rz); [rewrite Oc, Ho; set_solver |].
      assert (Eo : net_open (net_close fd n2) = net_open n) by (rewrite Oz, Oc, Ho; set_solver).
      intros E. apply IH in E as [[-> E] | (fd' & -> & ? & ? & ? & ?)]; [left; by rewrite E | right].
      exists fd'. rewrite <- Eo. done.
  - destruct Hl as [Oq _ _ _]. intros E. apply IH in E as [[-> E] | (fd' & -> & ? & ? & ? & ?)]; [left; by rewrite E | right].
    exists fd'. rewrite <- Oq. done.
Qed.

Lemma connect_spec base l host port s r s' :
  cw_client s = None -> owns base l (cw_heap s) ->
  wirecall_client_connect true host (Some port) s = (r, s') ->
  (r = Err /\ cw_client s' = None /\ owns base l (cw_heap s') /\ net_open (cw_net s') = net_open (cw_net s)) \/
  exists p fd, r = Ok tt /\ 0 <= fd /\ (fd ∉ net_open (cw_net s)) /\ net_open (cw_net s') = {[fd]} ∪ net_open (cw_net s) /\
    net_sent fd (cw_net s') = [] /\ world_ok base l p (set_fd fd new_client) [] s'.
Proof.
  intros Ec Ho. unfold wirecall_client_connect. cbn [negb]. unfold bind at 1, on_heap at 1.
  assert (Hsz : 0 <= usize (1 * sizeof_wirecall_client)) by (rewrite usize_small; rewrite ?H64; by_compute).
  unfold heap_calloc. replace (negb (1 =? 0) && _) with false
    by (symmetry; apply andb_false_iff; right; apply Z.ltb_ge; unfold SIZE_MAX; rewrite H64; by_compute).
  destruct (heap_alloc _ (cw_heap s)) as [[p|] h1] eqn:Ea.
  2: { eapply owns_alloc_none in Ea; [| done | done]. intros [= <- <-]. left. done. }
  eapply owns_alloc in Ea; [| done | done]. unfold bind at 1, modify. cbn [put_heap cw_heap cw_net].
  set (s1 := {| cw_client := Some (p, new_client); cw_heap := h1; cw_net := cw_net s |}).
  unfold bind at 1, on_net at 1. change (cw_net s1) with (cw_net s).
  pose proof (law_getaddrinfo host port false (cw_net s)) as [Og Rg Sg _].
  destruct (net_getaddrinfo host port false (cw_net s)) as [[res|] n2]; cbn [snd] in *.
  2: { unfold bind. destruct (close_unconnected base l p (put_net n2 s1) eq_refl Ea) as (s3 & -> & E3 & Ho3 & En3).
       intros [= <- <-]. left. rewrite En3. done. }
  unfold bind at 1, on_net at 1. change (cw_net (put_net n2 s1)) with n2. destruct (connect_loop res n2) as [r3 n3] eqn:E3.
  apply connect_loop_spec in E3 as [[-> E3] | (fd & -> & Hfd & Hnew & Eo & Er & Es)].
  - unfold bind. destruct (close_unconnected base l p (put_net n3 (put_net n2 s1)) eq_refl Ea) as (s4 & -> & E4 & Ho4 & En4).
    intros [= <- <-]. left. rewrite En4. cbn [put_net cw_net]. rewrite E3, Og. done.
  - unfold bind, deref, put_client, modify. cbn [put_net cw_client s1]. intros [= <- <-]. right. exists p, fd.
    cbn [cw_heap cw_net put_net]. rewrite <- Og. split_and!; try done. constructor; cbn [cw_client cw_heap cw_net put_net set_fd cl_fd]; try done.
    + constructor; cbn [set_fd new_client cl_read_off cl_read cl_read_cap cl_read_buf cl_mac_key cl_next_call_id]; try done; by_compute.
    + rewrite Eo. set_solver.
Qed.

(** the liveness check *)
Lemma ping_spec base l p consumed c s r s' :
  world_ok base l p c consumed s -> 0 <= cl_fd c -> wirecall_client_ping s = (r, s') ->
  exists c' consumed', r <> UB /\ world_ok base l p c' consumed' s' /\ cl_next_call_id c' = u64 (cl_next_call_id c + 1) /\
    (r = Ok tt -> exists h, genuine c h [] /\ h_op h = op_code WIRECALL_OP_RESPONSE /\ h_call_id h = cl_next_call_id c /\
       consumed' = consumed ++ header_bytes h).
Proof.
  intros Hw Hfd. unfold wirecall_client_ping, bind at 1. rewrite (connected_world _ _ _ _ _ _ Hw Hfd). cbv zeta. fold (next_call c).
  destruct ((put_client (next_call c) ;;; send_packet WIRECALL_OP_PING 0 (cl_next_call_id c) None) s) as [r1 s1] eqn:E1.
  pose proof (request_spec _ _ _ _ _ _ 0 None _ _ _ Hw ltac:(done) ltac:(lia) E1) as (c1 & (Hss & Hw1 & _ & Eh & _ & _) & Hub).
  destruct (take_call_id _ _ _ _ _ _ Hw) as (s0 & Ep & _). unfold bind in E1. rewrite Ep in E1.
  unfold bind at 1. rewrite Ep. unfold bind at 1. rewrite E1. destruct r1 as [[]| |]; [| | done].
  2: { intros [= <- <-]. exists c1, consumed. split_and!; [done | done | by destruct Hss | done]. }
  unfold bind at 1. destruct (recv_packet s1) as [r2 s2] eqn:E2.
  apply (recv_packet_spec _ _ _ _ _ _ _ _ Hw1) in E2 as (c2 & [Hss2 _] & Hr2 & _).
  assert (Hn2 : cl_next_call_id c2 = u64 (cl_next_call_id c + 1)) by (by rewrite (ss_next _ _ Hss2), (ss_next _ _ Hss)).
  destruct r2 as [[h [b body]]| |]; [| | done].
  2: { intros [= <- <-]. exists c2, consumed. split_and!; done. }
  destruct Hr2 as [Hg Hw2]. apply (genuine_next _ _ _ _ Hss) in Hg. pose proof Hg as (_ & Hl & _).
  apply (world_free_body base l []) in Hw2. unfold bind at 1, on_heap, modify. destruct (_ || _ || _) eqn:Eg.
  - unfold bind. destruct (set_error_world _ _ _ _ _ _ (cstring "unexpected ping response") Hw2) as (s4 & -> & _ & _ & Hw4).
    intros [= <- <-]. eexists _, _. split_and!; [done | exact Hw4 | done | done].
  - intros [= <- <-]. eexists _, _. split_and!; [done | exact Hw2 | done |]. intros _. zb.
    assert (body = []) as -> by (apply zlen_0_nil; lia). exists h. split_and!; done.
Qed.

End ClientFacts.

(** ** Properties *)

(** Send_iov_full is exact: however the kernel splits the send and
    however often it is interrupted, what goes out on the socket is a prefix of
    the buffers in order, without loss or repetition, it is all of them when
    the function returns 0, and the loop ends. *)
Theorem send_iov_full_exact `{Net K} fd iov (n : K) r n' :
  fd ∈ net_open n -> concat iov <> [] -> (length iov <= 2)%nat -> send_iov_full fd iov n = (r, n') ->
  exists bs rest, concat iov = bs ++ rest /\ sends fd bs n n' /\ match r with Ok _ => rest = [] | Err => True | UB => False end.
Proof.
  intros Hfd Hne Hlen. unfold send_iov_full.
  replace ((zlen iov <=? 0) || (2 <? zlen iov)) with false.
  - intros E. eapply send_loop_spec; [done | | by right | exact E]. lia.
  - unfold zlen. destruct iov as [|b iov]; [done |]. symmetry. apply orb_false_iff. split; [apply Z.leb_gt | apply Z.ltb_ge]; cbn [length] in *; lia.
Qed.

Definition sample_iov : list (list Z) := [[1; 2; 3; 4]; [5; 6; 7]].
Definition choppy : toynet := toynet_with [] false [TTake 2; TRefuse EINTR; TTake 3; TTake 9].

Lemma send_iov_full_exact_witness :
  exists bs rest, concat sample_iov = bs ++ rest /\ sends 3 bs choppy (send_iov_full 3 sample_iov choppy).2 /\
    match (send_iov_full 3 sample_iov choppy).1 with Ok _ => rest = [] | Err => True | UB => False end.
Proof.
  apply (send_iov_full_exact 3 sample_iov choppy).
  - by_compute.
  - done.
  - cbn. lia.
  - apply surjective_pairing.
Defined.

(** ** A client for the witnesses *)
Definition sample_client : wirecall_client := set_fd 3 new_client.
Definition sample_heap : toy := (toy_alloc 232 (toy_empty [])).2.
Definition sample_world (recvs : list toyrecv) (sends : list toysend) : @cworld toy toynet :=
  {| cw_client := Some (1, sample_client); cw_heap := sample_heap; cw_net := toynet_with recvs false sends |}.

Lemma sample_world_ok recvs sends : world_ok ∅ [] 1 sample_client [] (sample_world recvs sends).
Proof.
  constructor; try done.
  - constructor; try done; by_compute.
  - split; [| split; [apply NoDup_singleton |]; split; [set_solver | by_compute]].
    intros p Hp. change (p ∈ ({[1]} ∪ ∅ : gset Z)) in Hp. apply elem_of_union in Hp as [->%elem_of_singleton | []%elem_of_empty]. done.
Qed.

(** the answer of a server to the first call of the sample client, cut in
    pieces, with an interrupt *)
Definition sample_response : list Z :=
  packet_of (H := host_lp64) WIRECALL_INTEGRITY_DEFAULT (zreplicate 16 0) WIRECALL_OP_RESPONSE 7 1 sample_bytes.
Definition sample_recvs : list toyrecv :=
  [TBytes (ztake 10 sample_response); TErr EINTR; TBytes (zdrop 10 sample_response)].

(** C6: the client reads a stream of packets, not a sequence of recv results:
    from any well-formed state, whatever the sizes in which the bytes arrive,
    whatever the allocator does and whatever the bytes are, recv_packet ends
    without an access outside its buffer; when it succeeds it has consumed
    exactly one packet of the received stream and returns its header and, in a
    block of its own, its payload, both checked against the integrity mode of
    the client; when it fails it has consumed nothing and holds nothing.  And
    when memory suffices and the stream goes on with a genuine packet, that
    packet is what it returns. *)
Theorem recv_packet_stream `{Host} `{Heap W} `{Net K} base l p consumed c (s : @cworld W K) r s' :
  size_bits = 64 -> world_ok base l p c consumed s -> recv_packet s = (r, s') ->
  packet_received base l p consumed c s r s'.
Proof. intros H64. by apply recv_packet_spec. Qed.

Lemma recv_packet_stream_witness :
  packet_received (HH := host_lp64) ∅ [] 1 [] sample_client (sample_world sample_recvs [])
    (recv_packet (HH := host_lp64) (sample_world sample_recvs [])).1
    (recv_packet (HH := host_lp64) (sample_world sample_recvs [])).2.
Proof.
  apply (recv_packet_stream (H := host_lp64) ∅ [] 1 [] sample_client (sample_world sample_recvs [])).
  - reflexivity.
  - apply sample_world_ok.
  - apply surjective_pairing.
Defined.

(** C5: a call is answered by its own response: wirecall_client_call_name
    returns values only when its request went out in full and the next packet
    of the stream is a genuine response that carries the id of the call, and
    the values are the decoded payload of that packet, byte for byte.  On every
    failure (send or receive errors, a packet that fails its integrity check, a
    malformed payload, an error packet, a response to another call) no block is
    left to the caller, the connection stays open and the stream is consumed by
    whole packets only. *)
Theorem client_call_correct `{Host} `{Heap W} `{Net K} base l p consumed c name args (s : @cworld W K) r s' :
  size_bits = 64 -> world_ok base l p c consumed s -> 0 <= cl_fd c -> (forall w, args = Some w -> writer_ok w) ->
  wirecall_client_call_name name args true true s = (r, s') ->
  called base l p consumed c s (wirecall_proc_id name) args r s'.
Proof. intros H64 Hw Hfd Ha E. eapply call_spec; try done. apply proc_id_range. Qed.

Definition sample_args : wirecall_writer := {| w_data := None; w_bytes := []; w_cap := 0 |}.

Lemma client_call_correct_witness :
  called (HH := host_lp64) ∅ [] 1 [] sample_client (sample_world sample_recvs [TTake 5; TRefuse EINTR])
    (wirecall_proc_id (Some [97; 0])) (Some sample_args)
    (wirecall_client_call_name (HH := host_lp64) (Some [97; 0]) (Some sample_args) true true (sample_world sample_recvs [TTake 5; TRefuse EINTR])).1
    (wirecall_client_call_name (HH := host_lp64) (Some [97; 0]) (Some sample_args) true true (sample_world sample_recvs [TTake 5; TRefuse EINTR])).2.
Proof.
  apply (client_call_correct (H := host_lp64) ∅ [] 1 [] sample_client (Some [97; 0]) (Some sample_args)).
  - reflexivity.
  - apply sample_world_ok.
  - by_compute.
  - intros w [= <-]. apply writer_init_ok.
  - apply surjective_pairing.
Defined.

(** C22: a call comes back: when the socket takes the request (in pieces, with
    interrupts), memory suffices, and the peer, once it has the whole request,
    answers with a genuine packet that has the id of the call, then a response
    with the encoding of [vs] makes the call return [vs], and an error packet
    with a text makes it fail with that text, cut to 159 bytes, as the error of
    the client. *)
Theorem client_call_completes `{Host} `{Heap W} `{Net K} base l p consumed c name args (s : @cworld W K)
    (R : W -> Prop) (Q0 : K -> Prop) (Q : list Z -> K -> Prop) avail h vs rest :
  size_bits = 64 -> world_ok base l p c consumed s -> 0 <= cl_fd c -> (forall w, args = Some w -> writer_ok w) ->
  reliable R -> R (cw_heap s) -> accepts_data (cl_fd c) Q0 -> Q0 (cw_net s) -> delivers (cl_fd c) Q ->
  (forall n, Q0 n -> net_sent (cl_fd c) n =
     net_sent (cl_fd c) (cw_net s) ++ request c WIRECALL_OP_RPC (wirecall_proc_id name) (cl_next_call_id c) args -> Q avail n) ->
  unread c ++ avail = header_bytes h ++ encode_values vs ++ rest ->
  genuine c h (encode_values vs) -> Forall pvalue_ok vs -> h_call_id h = cl_next_call_id c ->
  exists r s', wirecall_client_call_name name args true true s = (r, s') /\
    (h_op h = op_code WIRECALL_OP_RESPONSE -> exists a, r = Ok a /\ map erase (cell_values (va_cells a)) = vs) /\
    (forall text, h_op h = op_code WIRECALL_OP_ERROR -> vs = [PString text] ->
       r = Err /\ exists c', cw_client s' = Some (p, c') /\ cl_error c' = ztake (CLIENT_ERROR_SIZE - 1) text).
Proof. intros H64 Hw Hfd Ha. intros. eapply call_complete; try done. apply proc_id_range. Qed.

Definition sample_header : wirecall_header :=
  match wirecall_header_decode (Some sample_response) true with Ok h => h | _ => header_sample end.

Lemma client_call_completes_witness :
  exists r s', wirecall_client_call_name (HH := host_lp64) (Some [97; 0]) (Some sample_args) true true (sample_world sample_recvs [TTake 5; TRefuse EINTR]) = (r, s') /\
    (h_op sample_header = op_code WIRECALL_OP_RESPONSE -> exists a, r = Ok a /\ map erase (cell_values (va_cells a)) = sample_values) /\
    (forall text, h_op sample_header = op_code WIRECALL_OP_ERROR -> sample_values = [PString text] ->
       r = Err /\ exists c', cw_client s' = Some (1, c') /\ cl_error c' = ztake (CLIENT_ERROR_SIZE - 1) text).
Proof.
  apply (client_call_completes (H := host_lp64) ∅ [] 1 [] sample_client (Some [97; 0]) (Some sample_args) (sample_world sample_recvs [TTake 5; TRefuse EINTR])
    (fun t => toy_answers t = []) (fun t => toy_takes t /\ toy_feeds sample_response t) toy_feeds sample_response sample_header sample_values []).
  - reflexivity.
  - apply sample_world_ok.
  - by_compute.
  - intros w [= <-]. apply writer_init_ok.
  - apply toy_reliable.
  - reflexivity.
  - apply toy_takes_and_feeds.
  - split; [repeat constructor | vm_compute; reflexivity].
  - apply toy_delivers.
  - intros n [_ Hn] _. exact Hn.
  - vm_compute. reflexivity.
  - split; [by_compute |]. split; [by_compute |]. split; [by_compute |]. vm_compute. reflexivity.
  - by_compute.
  - vm_compute. reflexivity.
Defined.

(** Connecting and closing balance: wirecall_client_connect, for any list
    of addresses and any behaviour of the resolver, of socket, of connect and
    of the allocator, either fails with the blocks and the descriptors as they
    were, or yields a client with one new descriptor, and closing that client
    gives back both, also when the disconnect packet cannot be sent. *)
Theorem client_connect_close `{Host} `{Heap W} `{Net K} host port (s : @cworld W K) r s1 :
  size_bits = 64 -> cw_client s = None -> heap_inv (cw_heap s) ->
  wirecall_client_connect true host (Some port) s = (r, s1) ->
  (r = Err /\ cw_client s1 = None /\ heap_live (cw_heap s1) = heap_live (cw_heap s) /\
     net_open (cw_net s1) = net_open (cw_net s)) \/
  exists p fd s2, r = Ok tt /\ (fd ∉ net_open (cw_net s)) /\ net_open (cw_net s1) = {[fd]} ∪ net_open (cw_net s) /\
    world_ok (heap_live (cw_heap s)) [] p (set_fd fd new_client) [] s1 /\
    wirecall_client_close s1 = (Ok tt, s2) /\ cw_client s2 = None /\
    heap_live (cw_heap s2) = heap_live (cw_heap s) /\ net_open (cw_net s2) = net_open (cw_net s).
Proof.
  intros H64 Ec Hi E. apply (connect_spec H64 (heap_live (cw_heap s)) []) in E; [| done | by apply owns_start].
  destruct E as [(-> & ? & Ho & ?) | (p & fd & -> & Hfd & Hnew & Eo & _ & Hw)].
  - left. apply owns_nil in Ho as [_ ?]. done.
  - right. destruct (close_spec _ _ _ _ _ _ Hw Hfd) as (s2 & E2 & Ec2 & Ho2 & Eo2 & _).
    exists p, fd, s2. apply owns_nil in Ho2 as [_ Ho2]. split_and!; try done.
    rewrite Eo2, Eo. cbn [set_fd cl_fd]. clear -Hnew. set_solver.
Qed.

Definition sample_addr : sockaddr := {| sa_family := AF_INET; sa_host := 1; sa_port := 0x901f |}.
(** the first address has no socket, the second refuses, the third connects *)
Definition unconnected_world : @cworld toy toynet :=
  {| cw_client := None; cw_heap := toy_empty [];
     cw_net := {| tn_open := ∅; tn_next := 3; tn_recvs := []; tn_blocks := false; tn_sends := [TRefuse 32]; tn_accepts := [];
                  tn_status := [24; 0; 111; 0; 0]; tn_addrs := Some [sample_addr; sample_addr; sample_addr];
                  tn_received := ∅; tn_sent := ∅ |} |}.

Lemma client_connect_close_witness :
  ((wirecall_client_connect (HH := host_lp64) true None (Some [56; 48]) unconnected_world).1 = Err /\
   cw_client (wirecall_client_connect (HH := host_lp64) true None (Some [56; 48]) unconnected_world).2 = None /\
   heap_live (cw_heap (wirecall_client_connect (HH := host_lp64) true None (Some [56; 48]) unconnected_world).2) = heap_live (cw_heap unconnected_world) /\
   net_open (cw_net (wirecall_client_connect (HH := host_lp64) true None (Some [56; 48]) unconnected_world).2) = net_open (cw_net unconnected_world)) \/
  exists p fd s2, (wirecall_client_connect (HH := host_lp64) true None (Some [56; 48]) unconnected_world).1 = Ok tt /\
    (fd ∉ net_open (cw_net unconnected_world)) /\
    net_open (cw_net (wirecall_client_connect (HH := host_lp64) true None (Some [56; 48]) unconnected_world).2) = {[fd]} ∪ net_open (cw_net unconnected_world) /\
    world_ok (heap_live (cw_heap unconnected_world)) [] p (set_fd fd new_client) [] (wirecall_client_connect (HH := host_lp64) true None (Some [56; 48]) unconnected_world).2 /\
    wirecall_client_close (HH := host_lp64) (wirecall_client_connect (HH := host_lp64) true None (Some [56; 48]) unconnected_world).2 = (Ok tt, s2) /\ cw_client s2 = None /\
    heap_live (cw_heap s2) = heap_live (cw_heap unconnected_world) /\ net_open (cw_net s2) = net_open (cw_net unconnected_world).
Proof.
  apply (client_connect_close (H := host_lp64) None [56; 48] unconnected_world).
  - reflexivity.
  - reflexivity.
  - apply toy_empty_inv.
  - apply surjective_pairing.
Defined.

(** *** A packet that fails its check *)
Section Poison.
Context `{HH : Host} `{HP : Heap W} `{NN : Net K}.
Hypothesis H64 : size_bits = 64.

(** [n] attempts to receive, whatever their results *)
Fixpoint recv_times (n : nat) (s : @cworld W K) : list (res (wirecall_header * (Z * list Z))) * cworld :=
  match n with
  | O => ([], s)
  | S n => let '(r, s) := recv_packet s in let '(rs, s) := recv_times n s in (r :: rs, s)
  end.

Lemma fill_buffered base l p consumed c need (s : @cworld W K) :
  world_ok base l p c consumed s -> need <= zlen (unread c) -> client_read_fill need s = (Ok tt, s).
Proof.
  intros Hw Hn. unfold client_read_fill. cbn [fill_loop]. unfold bind. rewrite (deref_world _ _ _ _ _ _ Hw).
  rewrite (available_spec H64 c (wk_ok _ _ _ _ _ _ Hw)).
  by replace (zlen (unread c) <? need) with false by (symmetry; apply Z.ltb_ge; lia).
Qed.

Lemma recv_refused base l p consumed c h body rest (s : @cworld W K) :
  world_ok base l p c consumed s -> header_ok h -> zlen body = h_size h -> unread c = header_bytes h ++ body ++ rest ->
  wirecall_packet_verify_ex (Some h) (Some body) (h_size h) (cl_integrity c) (Some (cl_mac_key c)) = Err ->
  exists s', recv_packet s = (Err, s') /\ cw_net s' = cw_net s /\
    world_ok base l p (set_client_error (cstring "packet integrity failed") c) consumed s'.
Proof.
  intros Hw Hh Hl Hu Hv. assert (Hz : zlen (unread c) = WIRECALL_HEADER_SIZE + h_size h + zlen rest).
  { rewrite Hu, !zlen_app, zlen_header_bytes. lia. }
  pose proof Hh as (_ & _ & _ & Hsz & _). pose proof (zlen_nonneg rest).
  assert (Hrest : bytes_ok (body ++ rest)).
  { assert (Hb : bytes_ok (unread c)) by apply bytes_ok_zdrop, Hw. rewrite Hu in Hb. by apply bytes_ok_app in Hb as [_ ?]. }
  unfold recv_packet, recv_header, bind, attempt. rewrite (fill_buffered _ _ _ _ _ _ _ Hw) by lia.
  rewrite (deref_world _ _ _ _ _ _ Hw). unfold lift. fold (unread c). rewrite Hu, header_decode_bytes by done.
  replace (WIRECALL_MAX_PAYLOAD_SIZE <? h_size h) with false by (symmetry; apply Z.ltb_ge; lia). cbn [ret]. cbv zeta.
  rewrite (usize_small (WIRECALL_HEADER_SIZE + h_size h)) by (unfold WIRECALL_HEADER_SIZE, WIRECALL_MAX_PAYLOAD_SIZE in *; rewrite H64; lia).
  rewrite (fill_buffered _ _ _ _ _ _ _ Hw) by lia. unfold recv_checked, bind, attempt. rewrite (deref_world _ _ _ _ _ _ Hw). cbv zeta.
  pose proof (ck_off _ (wk_ok _ _ _ _ _ _ Hw)). rewrite <- zdrop_zdrop by (unfold WIRECALL_HEADER_SIZE; lia).
  fold (unread c). rewrite Hu, zdrop_app_eq by done. unfold lift. rewrite verify_prefix, Hv by done.
  destruct (set_error_world _ _ _ _ _ _ (cstring "packet integrity failed") Hw) as (s' & -> & En & _ & Hw'). exists s'. done.
Qed.
End Poison.

(** A packet that fails its integrity check stays at the front of the
    read buffer: recv_packet reports it without consuming it, so every later
    receive on the connection, however many, fails on the same bytes, without
    reading from the socket. *)
Theorem client_stuck_on_bad_packet `{Host} `{Heap W} `{Net K} base l p consumed c h body rest k (s : @cworld W K) :
  size_bits = 64 -> world_ok base l p c consumed s -> header_ok h -> zlen body = h_size h ->
  unread c = header_bytes h ++ body ++ rest ->
  wirecall_packet_verify_ex (Some h) (Some body) (h_size h) (cl_integrity c) (Some (cl_mac_key c)) = Err ->
  exists s', recv_times k s = (replicate k Err, s') /\ cw_net s' = cw_net s.
Proof.
  intros H64 Hw Hh Hl Hu Hv. revert c s Hw Hu Hv. induction k as [|k IH]; intros c s Hw Hu Hv; [by exists s |].
  cbn [recv_times replicate]. destruct (recv_refused H64 _ _ _ _ _ _ _ _ _ Hw Hh Hl Hu Hv) as (s1 & -> & En & Hw1).
  destruct (IH _ _ Hw1) as (s2 & -> & En2); [done | done |]. exists s2. by rewrite En2.
Qed.

(** the response with a bit of its payload flipped *)
Definition bad_body : list Z := <[0%nat := 5]> sample_bytes.
Definition stuck_client : wirecall_client :=
  set_read (header_bytes sample_header ++ bad_body) 0 (set_buf (Some 2) 65536 sample_client).
Definition stuck_world : @cworld toy toynet :=
  {| cw_client := Some (1, stuck_client); cw_heap := (toy_alloc 65536 sample_heap).2;
     cw_net := add_received 3 (header_bytes sample_header ++ bad_body) (toynet_with [] false []) |}.

Lemma client_stuck_on_bad_packet_witness :
  exists s', recv_times (HH := host_lp64) 3 stuck_world = (replicate 3 Err, s') /\ cw_net s' = cw_net stuck_world.
Proof.
  apply (client_stuck_on_bad_packet (H := host_lp64) ∅ [] 1 [] stuck_client sample_header bad_body [] 3 stuck_world).
  - reflexivity.
  - constructor; try done.
    + constructor; try done; by_compute.
    + split; [| split; [by_compute |]; split; [set_solver | by_compute]].
      intros q Hq. change (q ∈ ({[2]} ∪ ({[1]} ∪ ∅) : gset Z)) in Hq. change (q < 3). set_solver by lia.
  - by_compute.
  - by_compute.
  - vm_compute. reflexivity.
  - vm_compute. reflexivity.
Defined.
