(* ===== verification/Connection.v ===== *)
(** * Connection: the connections of a server worker (src/server.c)

    The part of server.c that owns sockets and buffers: growing buffers,
    queueing packets, flushing and closing connections, the hand-over of
    accepted descriptors between workers, and the completion of asynchronous
    and deferred calls.  A worker's objects live in its two arenas; its
    intrusive lists (connections, pending writes, completed calls, pending
    descriptors) are the lists of their elements, and walking one dereferences
    every element on the way.  Using a slot that is not in use is [UB].

    The readiness backend is a parameter, the class [Backend], indexed by the
    worker that owns it.  Mutexes are held only around the list operations of
    one step, so a step is atomic. *)

From stdpp Require Import strings.
From S2P Require Import Prelude Words CString Protocol Integrity Memory Payload Arena Routes Scheduler Net.
#[global] Open Scope Z_scope.

(** ** The backend (include/backend.h) *)
Definition WIRECALL_BACKEND_READ : Z := Z.shiftl 1 0.
Definition WIRECALL_BACKEND_WRITE : Z := Z.shiftl 1 1.
Definition WIRECALL_BACKEND_WAKE : Z := Z.shiftl 1 2.

(** the [user] word of a watch: a connection, or a listener, which has the low
    bit set *)
Inductive watch_user := UConn (p : Z) | UListener (fd : Z).
#[global] Instance watch_user_eq_dec : EqDecision watch_user.
Proof. solve_decision. Defined.

Record wirecall_backend_event := { ev_fd : Z; ev_events : Z; ev_user : watch_user }.

Class Backend (B : Type) := {
  be_create : Z -> B -> bool * B;
  be_destroy : Z -> B -> B;
  be_register : Z -> Z -> Z -> watch_user -> B -> bool * B;
  be_modify : Z -> Z -> Z -> watch_user -> B -> bool * B;
  be_remove : Z -> Z -> B -> B;
  be_wake : Z -> B -> B;
  (** at most [max] events; [None] is -1 *)
  be_poll : Z -> Z -> B -> option (list wirecall_backend_event) * B;
}.

(** ** Data *)
Definition WIRECALL_MAX_LISTENERS : Z := 8.
Definition WIRECALL_READ_CHUNK : Z := 4096.
Definition WIRECALL_EVENT_BATCH : Z := 1024.
Definition WIRECALL_CONNECTION_ARENA_CAPACITY : Z := 65536.
Definition WIRECALL_DEFERRED_ARENA_CAPACITY : Z := 262144.
Definition WIRECALL_MAX_WORKERS : Z := 128.

(** a growing byte buffer: the block, the bytes up to its length, the capacity *)
Record buffer := { b_ptr : option Z; b_bytes : list Z; b_cap : Z }.
Definition b_len (b : buffer) : Z := zlen (b_bytes b).
Definition no_buffer : buffer := {| b_ptr := None; b_bytes := []; b_cap := 0 |}.

Record wirecall_connection := {
  cn_fd : Z;
  cn_read : buffer;
  cn_write : buffer;
  cn_write_off : Z;
  cn_interests : Z;
  cn_closing : bool;
  cn_detached : bool;
  cn_write_queued : bool;
  cn_pending_deferred : Z;
}.

Definition zero_connection : wirecall_connection :=
  {| cn_fd := 0; cn_read := no_buffer; cn_write := no_buffer; cn_write_off := 0; cn_interests := 0;
     cn_closing := false; cn_detached := false; cn_write_queued := false; cn_pending_deferred := 0 |}.

Record wirecall_deferred := {
  df_conn : Z;
  df_call_id : Z;
  df_proc_id : Z;
  df_payload : option Z;
  df_payload_len : Z;
  df_args : value_array;
  df_response : wirecall_writer;
  df_result : Z;
  df_error : list Z;
  df_completed : bool;
}.

Definition zero_deferred : wirecall_deferred :=
  {| df_conn := 0; df_call_id := 0; df_proc_id := 0; df_payload := None; df_payload_len := 0; df_args := no_values;
     df_response := wirecall_writer_init; df_result := 0; df_error := []; df_completed := false |}.

Definition with_fd (fd : Z) (c : wirecall_connection) : wirecall_connection :=
  {| cn_fd := fd; cn_read := cn_read c; cn_write := cn_write c; cn_write_off := cn_write_off c;
     cn_interests := cn_interests c; cn_closing := cn_closing c; cn_detached := cn_detached c;
     cn_write_queued := cn_write_queued c; cn_pending_deferred := cn_pending_deferred c |}.
Definition with_read (b : buffer) (c : wirecall_connection) : wirecall_connection :=
  {| cn_fd := cn_fd c; cn_read := b; cn_write := cn_write c; cn_write_off := cn_write_off c;
     cn_interests := cn_interests c; cn_closing := cn_closing c; cn_detached := cn_detached c;
     cn_write_queued := cn_write_queued c; cn_pending_deferred := cn_pending_deferred c |}.
Definition with_write (b : buffer) (off : Z) (c : wirecall_connection) : wirecall_connection :=
  {| cn_fd := cn_fd c; cn_read := cn_read c; cn_write := b; cn_write_off := off;
     cn_interests := cn_interests c; cn_closing := cn_closing c; cn_detached := cn_detached c;
     cn_write_queued := cn_write_queued c; cn_pending_deferred := cn_pending_deferred c |}.
Definition with_interests (i : Z) (c : wirecall_connection) : wirecall_connection :=
  {| cn_fd := cn_fd c; cn_read := cn_read c; cn_write := cn_write c; cn_write_off := cn_write_off c;
     cn_interests := i; cn_closing := cn_closing c; cn_detached := cn_detached c;
     cn_write_queued := cn_write_queued c; cn_pending_deferred := cn_pending_deferred c |}.
Definition with_closing (c : wirecall_connection) : wirecall_connection :=
  {| cn_fd := cn_fd c; cn_read := cn_read c; cn_write := cn_write c; cn_write_off := cn_write_off c;
     cn_interests := cn_interests c; cn_closing := true; cn_detached := cn_detached c;
     cn_write_queued := cn_write_queued c; cn_pending_deferred := cn_pending_deferred c |}.
Definition with_queued (q : bool) (c : wirecall_connection) : wirecall_connection :=
  {| cn_fd := cn_fd c; cn_read := cn_read c; cn_write := cn_write c; cn_write_off := cn_write_off c;
     cn_interests := cn_interests c; cn_closing := cn_closing c; cn_detached := cn_detached c;
     cn_write_queued := q; cn_pending_deferred := cn_pending_deferred c |}.
Definition with_deferred (n : Z) (c : wirecall_connection) : wirecall_connection :=
  {| cn_fd := cn_fd c; cn_read := cn_read c; cn_write := cn_write c; cn_write_off := cn_write_off c;
     cn_interests := cn_interests c; cn_closing := cn_closing c; cn_detached := cn_detached c;
     cn_write_queued := cn_write_queued c; cn_pending_deferred := n |}.
(** what connection_destroy leaves of a connection *)
Definition detach (c : wirecall_connection) : wirecall_connection :=
  {| cn_fd := -1; cn_read := no_buffer; cn_write := no_buffer; cn_write_off := 0; cn_interests := cn_interests c;
     cn_closing := cn_closing c; cn_detached := true; cn_write_queued := false;
     cn_pending_deferred := cn_pending_deferred c |}.

Definition with_response (w : wirecall_writer) (d : wirecall_deferred) : wirecall_deferred :=
  {| df_conn := df_conn d; df_call_id := df_call_id d; df_proc_id := df_proc_id d; df_payload := df_payload d;
     df_payload_len := df_payload_len d; df_args := df_args d; df_response := w; df_result := df_result d;
     df_error := df_error d; df_completed := df_completed d |}.
Definition with_outcome (result : Z) (error : list Z) (d : wirecall_deferred) : wirecall_deferred :=
  {| df_conn := df_conn d; df_call_id := df_call_id d; df_proc_id := df_proc_id d; df_payload := df_payload d;
     df_payload_len := df_payload_len d; df_args := df_args d; df_response := df_response d; df_result := result;
     df_error := error; df_completed := true |}.
Definition with_body (payload : option Z) (args : value_array) (d : wirecall_deferred) : wirecall_deferred :=
  {| df_conn := df_conn d; df_call_id := df_call_id d; df_proc_id := df_proc_id d; df_payload := payload;
     df_payload_len := df_payload_len d; df_args := args; df_response := df_response d; df_result := df_result d;
     df_error := df_error d; df_completed := df_completed d |}.

(** ** Buffers *)
Section Buffers.
Context `{HH : Host} `{HP : Heap W}.

(** the growth both functions share *)
Definition grow_buffer (b : buffer) (need : Z) (h : W) : res buffer * W :=
  match double_until 64 (if b_cap b =? 0 then 4096 else b_cap b) need with
  | None => (UB, h)
  | Some next_cap =>
      match heap_realloc (b_ptr b) next_cap h with
      | (None, h) => (Err, h)
      | (Some next, h) => (Ok {| b_ptr := Some next; b_bytes := b_bytes b; b_cap := next_cap |}, h)
      end
  end.

(** the buffer is returned on failure too: it may have grown.  Bytes copied
    from NULL would be left uninitialised; no caller asks for that *)
Definition append_bytes (b : buffer) (data : option (list Z)) (data_len : Z) (h : W) : res unit * (buffer * W) :=
  if data_len =? 0 then (Ok tt, (b, h))
  else if SIZE_MAX - data_len <? b_len b then (Err, (b, h))
  else
    let need := b_len b + data_len in
    let '(r, h) := if b_cap b <? need then grow_buffer b need h else (Ok b, h) in
    match r with
    | Err => (Err, (b, h))
    | UB => (UB, (b, h))
    | Ok b =>
        match data with
        | None => (UB, (b, h))
        | Some _ =>
            match buffer_bytes data data_len with
            | Ok bytes =>
                if (match b_ptr b with None => true | Some _ => false end) || (b_cap b <? need) then (UB, (b, h))
                else (Ok tt, ({| b_ptr := b_ptr b; b_bytes := b_bytes b ++ bytes; b_cap := b_cap b |}, h))
            | _ => (UB, (b, h))
            end
        end
    end.

Definition reserve_bytes (b : buffer) (need : Z) (h : W) : res buffer * W :=
  if need <=? b_cap b then (Ok b, h) else grow_buffer b need h.
End Buffers.

(** ** The worker, seen from its connections *)
Section Side.
Context `{HH : Host} `{HP : Heap W} `{NN : Net K} `{BB : Backend B}.

(** the server's configuration and counters, the fields of one worker, and the
    network and backends; the descriptors handed over to each worker are the
    block and the descriptor of every node *)
Record side := {
  sv_integrity : Z;
  sv_mac_key : list Z;
  sv_worker_count : Z;
  sv_next_worker : Z;
  sv_stopping : bool;
  sv_routes : wirecall_routes;
  sv_log : list (Z * Z);
  sv_pendings : gmap Z (list (Z * Z));
  wk_index : Z;
  wk_conns : @arena_state wirecall_connection;
  wk_connections : list Z;
  wk_pending_writes : list Z;
  wk_defs : @arena_state wirecall_deferred;
  wk_completed : list Z;
  wk_net : K;
  wk_backend : B;
  (** a completion callback used a connection that is not there *)
  wk_fault : bool;
}.

Definition set_conns (a : @arena_state wirecall_connection) (x : side) : side :=
  {| sv_integrity := sv_integrity x; sv_mac_key := sv_mac_key x; sv_worker_count := sv_worker_count x;
     sv_next_worker := sv_next_worker x; sv_stopping := sv_stopping x; sv_routes := sv_routes x; sv_log := sv_log x;
     sv_pendings := sv_pendings x; wk_index := wk_index x; wk_conns := a; wk_connections := wk_connections x;
     wk_pending_writes := wk_pending_writes x; wk_defs := wk_defs x; wk_completed := wk_completed x; wk_net := wk_net x;
     wk_backend := wk_backend x; wk_fault := wk_fault x |}.
Definition set_connections (l : list Z) (x : side) : side :=
  {| sv_integrity := sv_integrity x; sv_mac_key := sv_mac_key x; sv_worker_count := sv_worker_count x;
     sv_next_worker := sv_next_worker x; sv_stopping := sv_stopping x; sv_routes := sv_routes x; sv_log := sv_log x;
     sv_pendings := sv_pendings x; wk_index := wk_index x; wk_conns := wk_conns x; wk_connections := l;
     wk_pending_writes := wk_pending_writes x; wk_defs := wk_defs x; wk_completed := wk_completed x; wk_net := wk_net x;
     wk_backend := wk_backend x; wk_fault := wk_fault x |}.
Definition set_writes (l : list Z) (x : side) : side :=
  {| sv_integrity := sv_integrity x; sv_mac_key := sv_mac_key x; sv_worker_count := sv_worker_count x;
     sv_next_worker := sv_next_worker x; sv_stopping := sv_stopping x; sv_routes := sv_routes x; sv_log := sv_log x;
     sv_pendings := sv_pendings x; wk_index := wk_index x; wk_conns := wk_conns x; wk_connections := wk_connections x;
     wk_pending_writes := l; wk_defs := wk_defs x; wk_completed := wk_completed x; wk_net := wk_net x;
     wk_backend := wk_backend x; wk_fault := wk_fault x |}.
Definition set_defs (a : @arena_state wirecall_deferred) (x : side) : side :=
  {| sv_integrity := sv_integrity x; sv_mac_key := sv_mac_key x; sv_worker_count := sv_worker_count x;
     sv_next_worker := sv_next_worker x; sv_stopping := sv_stopping x; sv_routes := sv_routes x; sv_log := sv_log x;
     sv_pendings := sv_pendings x; wk_index := wk_index x; wk_conns := wk_conns x; wk_connections := wk_connections x;
     wk_pending_writes := wk_pending_writes x; wk_defs := a; wk_completed := wk_completed x; wk_net := wk_net x;
     wk_backend := wk_backend x; wk_fault := wk_fault x |}.
Definition set_completed (l : list Z) (x : side) : side :=
  {| sv_integrity := sv_integrity x; sv_mac_key := sv_mac_key x; sv_worker_count := sv_worker_count x;
     sv_next_worker := sv_next_worker x; sv_stopping := sv_stopping x; sv_routes := sv_routes x; sv_log := sv_log x;
     sv_pendings := sv_pendings x; wk_index := wk_index x; wk_conns := wk_conns x; wk_connections := wk_connections x;
     wk_pending_writes := wk_pending_writes x; wk_defs := wk_defs x; wk_completed := l; wk_net := wk_net x;
     wk_backend := wk_backend x; wk_fault := wk_fault x |}.
Definition set_net (n : K) (x : side) : side :=
  {| sv_integrity := sv_integrity x; sv_mac_key := sv_mac_key x; sv_worker_count := sv_worker_count x;
     sv_next_worker := sv_next_worker x; sv_stopping := sv_stopping x; sv_routes := sv_routes x; sv_log := sv_log x;
     sv_pendings := sv_pendings x; wk_index := wk_index x; wk_conns := wk_conns x; wk_connections := wk_connections x;
     wk_pending_writes := wk_pending_writes x; wk_defs := wk_defs x; wk_completed := wk_completed x; wk_net := n;
     wk_backend := wk_backend x; wk_fault := wk_fault x |}.
Definition set_backend (b : B) (x : side) : side :=
  {| sv_integrity := sv_integrity x; sv_mac_key := sv_mac_key x; sv_worker_count := sv_worker_count x;
     sv_next_worker := sv_next_worker x; sv_stopping := sv_stopping x; sv_routes := sv_routes x; sv_log := sv_log x;
     sv_pendings := sv_pendings x; wk_index := wk_index x; wk_conns := wk_conns x; wk_connections := wk_connections x;
     wk_pending_writes := wk_pending_writes x; wk_defs := wk_defs x; wk_completed := wk_completed x; wk_net := wk_net x;
     wk_backend := b; wk_fault := wk_fault x |}.
Definition set_pendings (m : gmap Z (list (Z * Z))) (next : Z) (x : side) : side :=
  {| sv_integrity := sv_integrity x; sv_mac_key := sv_mac_key x; sv_worker_count := sv_worker_count x;
     sv_next_worker := next; sv_stopping := sv_stopping x; sv_routes := sv_routes x; sv_log := sv_log x;
     sv_pendings := m; wk_index := wk_index x; wk_conns := wk_conns x; wk_connections := wk_connections x;
     wk_pending_writes := wk_pending_writes x; wk_defs := wk_defs x; wk_completed := wk_completed x; wk_net := wk_net x;
     wk_backend := wk_backend x; wk_fault := wk_fault x |}.
Definition set_table (r : wirecall_routes) (log : list (Z * Z)) (x : side) : side :=
  {| sv_integrity := sv_integrity x; sv_mac_key := sv_mac_key x; sv_worker_count := sv_worker_count x;
     sv_next_worker := sv_next_worker x; sv_stopping := sv_stopping x; sv_routes := r; sv_log := log;
     sv_pendings := sv_pendings x; wk_index := wk_index x; wk_conns := wk_conns x; wk_connections := wk_connections x;
     wk_pending_writes := wk_pending_writes x; wk_defs := wk_defs x; wk_completed := wk_completed x; wk_net := wk_net x;
     wk_backend := wk_backend x; wk_fault := wk_fault x |}.
Definition set_fault (x : side) : side :=
  {| sv_integrity := sv_integrity x; sv_mac_key := sv_mac_key x; sv_worker_count := sv_worker_count x;
     sv_next_worker := sv_next_worker x; sv_stopping := sv_stopping x; sv_routes := sv_routes x; sv_log := sv_log x;
     sv_pendings := sv_pendings x; wk_index := wk_index x; wk_conns := wk_conns x; wk_connections := wk_connections x;
     wk_pending_writes := wk_pending_writes x; wk_defs := wk_defs x; wk_completed := wk_completed x; wk_net := wk_net x;
     wk_backend := wk_backend x; wk_fault := true |}.

Definition wstate : Type := side * W.

Definition upd_side (f : side -> side) : M wstate unit := modify (fun '(x, h) => (f x, h)).
Definition on_mem {A} (m : M W A) : M wstate A := fun '(x, h) => let '(r, h) := m h in (r, (x, h)).
Definition side_net {A} (m : M K A) : M wstate A := fun '(x, h) => let '(r, n) := m (wk_net x) in (r, (set_net n x, h)).
Definition on_backend {A} (f : B -> A * B) : M wstate A := fun '(x, h) =>
  let '(a, b) := f (wk_backend x) in (Ok a, (set_backend b x, h)).

(** [conn->...] and [call->...] *)
Definition get_conn (p : Z) : M wstate wirecall_connection := fun '(x, h) =>
  match (wk_conns x).2 !! p with
  | Some (Used c) => (Ok c, (x, h))
  | _ => (UB, (x, h))
  end.
Definition put_conn (p : Z) (c : wirecall_connection) : M wstate unit := fun '(x, h) =>
  match (wk_conns x).2 !! p with
  | Some (Used _) => (Ok tt, (set_conns ((wk_conns x).1, <[p := Used c]> (wk_conns x).2) x, h))
  | _ => (UB, (x, h))
  end.
Definition get_def (p : Z) : M wstate wirecall_deferred := fun '(x, h) =>
  match (wk_defs x).2 !! p with
  | Some (Used c) => (Ok c, (x, h))
  | _ => (UB, (x, h))
  end.
Definition put_def (p : Z) (c : wirecall_deferred) : M wstate unit := fun '(x, h) =>
  match (wk_defs x).2 !! p with
  | Some (Used _) => (Ok tt, (set_defs ((wk_defs x).1, <[p := Used c]> (wk_defs x).2) x, h))
  | _ => (UB, (x, h))
  end.
Definition on_conns {A} (m : M (@arena_state wirecall_connection) A) : M wstate A := fun '(x, h) =>
  let '(r, a) := m (wk_conns x) in (r, (set_conns a x, h)).
Definition on_defs {A} (m : M (@arena_state wirecall_deferred) A) : M wstate A := fun '(x, h) =>
  let '(r, a) := m (wk_defs x) in (r, (set_defs a x, h)).

Definition gets_side {A} (f : side -> A) : M wstate A := gets (fun s => f s.1).

(** *** Queueing *)
Definition connection_set_interests (p : Z) (interests : Z) : M wstate unit :=
  c <- get_conn p ;;
  if cn_interests c =? interests then ret tt
  else
    i <- gets_side wk_index ;;
    ok <- on_backend (be_modify i (cn_fd c) interests (UConn p)) ;;
    if negb ok then fail
    else c <- get_conn p ;; put_conn p (with_interests interests c).

Definition worker_queue_write (p : Z) : M wstate unit :=
  c <- get_conn p ;;
  if cn_write_queued c then ret tt
  else
    put_conn p (with_queued true c) ;;;
    upd_side (fun x => set_writes (p :: wk_pending_writes x) x).

(** append_bytes on the write buffer of a connection *)
Definition append_write (p : Z) (data : option (list Z)) (data_len : Z) : M wstate unit :=
  c <- get_conn p ;;
  r <- (fun '(x, h) => let '(r, (b, h)) := append_bytes (cn_write c) data data_len h in (Ok (r, b), (x, h))) ;;
  put_conn p (with_write r.2 (cn_write_off c) c) ;;;
  lift r.1.

Definition queue_packet (conn : option Z) (op : wirecall_op) (flags proc_id call_id : Z) (payload : option (list Z))
    (payload_len : Z) : M wstate unit :=
  match conn with
  | None => fail
  | Some p =>
      c <- get_conn p ;;
      if cn_detached c || (cn_fd c <? 0) then fail
      else if WIRECALL_MAX_PAYLOAD_SIZE <? payload_len then fail
      else
        integrity <- gets_side sv_integrity ;;
        key <- gets_side sv_mac_key ;;
        let header := {| h_op := op_code op; h_flags := flags; h_proc_id := proc_id; h_size := u32 payload_len;
                         h_call_id := call_id; h_checksum := 0; h_mac := 0 |} in
        header <- lift (wirecall_packet_sign_ex (Some header) payload payload_len integrity (Some key)) ;;
        header_buf <- lift (wirecall_header_encode (Some header) true) ;;
        append_write p (Some header_buf) WIRECALL_HEADER_SIZE ;;;
        append_write p payload payload_len ;;;
        worker_queue_write p
  end.

(** the pointer and the bytes of a writer *)
Definition writer_data (w : wirecall_writer) : option (list Z) :=
  match w_data w with None => None | Some _ => Some (w_bytes w) end.

Definition queue_string_error (conn : option Z) (proc_id call_id : Z) (message : list Z) : M wstate unit := fun '(x, h) =>
  let '(r, (w, h)) := wirecall_writer_string (Some message) (u32 (zlen message)) (wirecall_writer_init, h) in
  match r with
  | UB => (UB, (x, h))
  | Err => (Err, (x, (wirecall_writer_free w h).2))
  | Ok _ =>
      let '(rc, (x, h)) :=
        queue_packet conn WIRECALL_OP_ERROR WIRECALL_FLAG_NONE proc_id call_id (writer_data w) (w_len w) (x, h) in
      (rc, (x, (wirecall_writer_free w h).2))
  end.

(** *** Closing *)

(** the walk along the links until [conn] is found, and the unlinking *)
Fixpoint unlink (p : Z) (l : list Z) : M wstate (list Z) :=
  match l with
  | [] => ret []
  | q :: rest => if q =? p then ret rest else get_conn q ;;; rest <- unlink p rest ;; ret (q :: rest)
  end.

Definition connection_destroy (conn : option Z) : M wstate unit :=
  match conn with
  | None => ret tt
  | Some p =>
      c <- get_conn p ;;
      (if cn_detached c then ret tt
       else
         i <- gets_side wk_index ;;
         on_backend (fun b => (tt, be_remove i (cn_fd c) b)) ;;;
         side_net (modify (net_close (cn_fd c))) ;;;
         on_mem (modify (heap_free_opt (b_ptr (cn_read c)))) ;;;
         on_mem (modify (heap_free_opt (b_ptr (cn_write c)))) ;;;
         l <- gets_side wk_connections ;;
         l <- unlink p l ;;
         upd_side (set_connections l) ;;;
         (if cn_write_queued c then
            l <- gets_side wk_pending_writes ;;
            l <- unlink p l ;;
            upd_side (set_writes l)
          else ret tt) ;;;
         put_conn p (detach c)) ;;;
      c <- get_conn p ;;
      if negb (cn_pending_deferred c =? 0) then ret tt
      else on_conns (wirecall_fixed_arena_free (Some p))
  end.

Definition maybe_close (p : Z) : M wstate unit :=
  c <- get_conn p ;;
  if cn_closing c && (b_len (cn_write c) =? cn_write_off c) then connection_destroy (Some p) else ret tt.

(** *** Writing *)
Fixpoint write_loop (fuel : nat) (p : Z) : M wstate unit :=
  c <- get_conn p ;;
  if cn_write_off c <? b_len (cn_write c) then
    match fuel with
    | O => ub
    | S fuel =>
        a <- side_net (fun n => let '(a, n) := net_send (cn_fd c) (zdrop (cn_write_off c) (b_bytes (cn_write c))) n in (Ok a, n)) ;;
        match a with
        | SSent k =>
            if 0 <? k then put_conn p (with_write (cn_write c) (cn_write_off c + k) c) ;;; write_loop fuel p
            else put_conn p (with_closing c)
        | SErr e =>
            if wirecall_socket_interrupted e then write_loop fuel p
            else if wirecall_socket_would_block e then
              attempt (connection_set_interests p (Z.lor WIRECALL_BACKEND_READ WIRECALL_BACKEND_WRITE)) ;;; ret tt
            else put_conn p (with_closing c)
        end
    end
  else
    put_conn p (with_write {| b_ptr := b_ptr (cn_write c); b_bytes := []; b_cap := b_cap (cn_write c) |} 0 c) ;;;
    attempt (connection_set_interests p WIRECALL_BACKEND_READ) ;;;
    ret tt.

(** every turn sends a byte or is an interrupt *)
Definition connection_write (p : Z) : M wstate unit := fun '(x, h) =>
  (c <- get_conn p ;; write_loop (length (b_bytes (cn_write c)) + net_work (wk_net x)) p) (x, h).

Fixpoint flush_loop (l : list Z) : M wstate unit :=
  match l with
  | [] => ret tt
  | p :: next =>
      c <- get_conn p ;;
      put_conn p (with_queued false c) ;;;
      (if cn_write_off c <? b_len (cn_write c) then connection_write p else ret tt) ;;;
      maybe_close p ;;;
      flush_loop next
  end.

Definition worker_flush_writes : M wstate unit :=
  l <- gets_side wk_pending_writes ;;
  upd_side (set_writes []) ;;;
  flush_loop l.

(** *** Completed calls *)
Definition on_call_done (call : wirecall_call) (conn : option Z) : M wstate unit :=
  if wirecall_call_result (Some call) =? 0 then
    match wirecall_call_response (Some call) with
    | None => ub
    | Some response =>
        attempt (queue_packet conn WIRECALL_OP_RESPONSE WIRECALL_FLAG_NONE (wirecall_call_proc_id (Some call))
                   (wirecall_call_id (Some call)) (writer_data response) (w_len response)) ;;; ret tt
    end
  else
    attempt (queue_string_error conn (wirecall_call_proc_id (Some call)) (wirecall_call_id (Some call))
               (wirecall_call_error (Some call))) ;;; ret tt.

(** as the scheduler calls it: the data of the call is the connection *)
Definition call_done_cb (call : wirecall_call) (conn : Z) (x : side) (h : W) : side * W :=
  match on_call_done call (Some conn) (x, h) with
  | (UB, (x, h)) => (set_fault x, h)
  | (_, s) => s
  end.

Definition deferred_free (call : option Z) : M wstate unit :=
  match call with
  | None => ret tt
  | Some p =>
      d <- get_def p ;;
      on_mem (wirecall_values_free (va_ptr (df_args d)) (va_cells (df_args d))) ;;;
      on_mem (modify (fun h => (wirecall_writer_free (df_response d) h).2)) ;;;
      on_mem (modify (heap_free_opt (df_payload d))) ;;;
      on_defs (wirecall_fixed_arena_free (Some p))
  end.

(** the append to the completed list, under its mutex, and the wake *)
Definition worker_queue_completed (p : Z) : M wstate unit :=
  get_def p ;;;
  upd_side (fun x => set_completed (wk_completed x ++ [p]) x) ;;;
  i <- gets_side wk_index ;;
  on_backend (fun b => (tt, be_wake i b)).

Definition DEFERRED_ERROR_SIZE : Z := 160.

Definition wirecall_deferred_complete (call : option Z) : M wstate unit :=
  match call with
  | None => fail
  | Some p =>
      d <- get_def p ;;
      if df_completed d then fail
      else put_def p (with_outcome 0 (df_error d) d) ;;; worker_queue_completed p
  end.

(** what goes into [call->error]: the message, unless it is NULL or empty *)
Definition fail_text (message : option (list Z)) : list Z :=
  snprintf_s DEFERRED_ERROR_SIZE
    (match c_str (default [] message) with
     | [] => cstring "deferred procedure failed"
     | t => t
     end).

Definition wirecall_deferred_fail (call : option Z) (message : option (list Z)) : M wstate unit :=
  match call with
  | None => fail
  | Some p =>
      d <- get_def p ;;
      if df_completed d then fail
      else put_def p (with_outcome (-1) (fail_text message) d) ;;; worker_queue_completed p
  end.

Definition wirecall_deferred_call_id (call : option wirecall_deferred) : Z := match call with Some d => df_call_id d | None => 0 end.
Definition wirecall_deferred_proc_id (call : option wirecall_deferred) : Z := match call with Some d => df_proc_id d | None => 0 end.
Definition wirecall_deferred_response (call : option wirecall_deferred) : option wirecall_writer :=
  match call with Some d => Some (df_response d) | None => None end.

(** the answer to a completed call goes out, if its connection is still there *)
Definition answer_deferred (d : wirecall_deferred) : M wstate unit :=
  c <- get_conn (df_conn d) ;;
  if negb (cn_detached c) && negb (cn_closing c) then
    (if df_result d =? 0 then
       attempt (queue_packet (Some (df_conn d)) WIRECALL_OP_RESPONSE WIRECALL_FLAG_NONE (df_proc_id d) (df_call_id d)
                  (writer_data (df_response d)) (w_len (df_response d)))
     else
       attempt (queue_string_error (Some (df_conn d)) (df_proc_id d) (df_call_id d)
                  (match df_error d with [] => cstring "deferred procedure failed" | e => e end))) ;;; ret tt
  else ret tt.

(** one completed call, from its answer to the end of its connection *)
Definition drain_one (p : Z) : M wstate unit :=
  d <- get_def p ;;
  answer_deferred d ;;;
  c <- get_conn (df_conn d) ;;
  (if 0 <? cn_pending_deferred c then put_conn (df_conn d) (with_deferred (cn_pending_deferred c - 1) c) else ret tt) ;;;
  deferred_free (Some p) ;;;
  c <- get_conn (df_conn d) ;;
  (if cn_detached c && (cn_pending_deferred c =? 0) then connection_destroy (Some (df_conn d)) else ret tt).

Fixpoint drain_completed_loop (l : list Z) : M wstate unit :=
  match l with
  | [] => ret tt
  | p :: next => drain_one p ;;; drain_completed_loop next
  end.

Definition worker_drain_completed : M wstate unit :=
  l <- gets_side wk_completed ;;
  upd_side (set_completed []) ;;;
  drain_completed_loop l.

(** *** New connections *)
Definition worker_add_connection (fd : Z) : M wstate unit :=
  slot <- on_conns (wirecall_fixed_arena_alloc zero_connection) ;;
  match slot with
  | None => side_net (modify (net_close fd)) ;;; fail
  | Some p =>
      put_conn p (with_fd fd zero_connection) ;;;
      upd_side (fun x => set_connections (p :: wk_connections x) x) ;;;
      i <- gets_side wk_index ;;
      ok <- on_backend (be_register i fd WIRECALL_BACKEND_READ (UConn p)) ;;
      if negb ok then connection_destroy (Some p) ;;; fail
      else c <- get_conn p ;; put_conn p (with_interests WIRECALL_BACKEND_READ c)
  end.

Definition sizeof_pending_fd : Z := 16.

Definition worker_enqueue_connection (idx fd : Z) : M wstate unit :=
  node <- on_mem (fun h => let '(b, h) := heap_alloc sizeof_pending_fd h in (Ok b, h)) ;;
  match node with
  | None => side_net (modify (net_close fd))
  | Some b =>
      upd_side (fun x => set_pendings (<[idx := default [] (sv_pendings x !! idx) ++ [(b, fd)]]> (sv_pendings x))
                           (sv_next_worker x) x) ;;;
      on_backend (fun be => (tt, be_wake idx be))
  end.

Fixpoint drain_pending_loop (l : list (Z * Z)) : M wstate unit :=
  match l with
  | [] => ret tt
  | (b, fd) :: next =>
      attempt (worker_add_connection fd) ;;;
      on_mem (modify (heap_free b)) ;;;
      drain_pending_loop next
  end.

Definition worker_drain_pending : M wstate unit :=
  i <- gets_side wk_index ;;
  l <- gets_side (fun x => default [] (sv_pendings x !! i)) ;;
  upd_side (fun x => set_pendings (<[i := []]> (sv_pendings x)) (sv_next_worker x) x) ;;;
  drain_pending_loop l.

Fixpoint accept_loop (fuel : nat) (lfd : Z) : M wstate unit :=
  match fuel with
  | O => ub
  | S fuel =>
      a <- side_net (fun n => let '(a, n) := net_accept lfd n in (Ok a, n)) ;;
      match a with
      | FErr e => if wirecall_socket_interrupted e then accept_loop fuel lfd else ret tt
      | FOk fd =>
          nb <- attempt (side_net (wirecall_socket_set_nonblock fd)) ;;
          match nb with
          | None => side_net (modify (net_close fd)) ;;; accept_loop fuel lfd
          | Some _ =>
              next <- gets_side sv_next_worker ;;
              count <- gets_side sv_worker_count ;;
              upd_side (fun x => set_pendings (sv_pendings x) (u32 (next + 1)) x) ;;;
              (if count =? 0 then ub else worker_enqueue_connection (next mod count) fd) ;;;
              accept_loop fuel lfd
          end
      end
  end.

Definition accept_ready (lfd : Z) : M wstate unit := fun '(x, h) => accept_loop (S (net_work (wk_net x))) lfd (x, h).
End Side.
Arguments side : clear implicits.

(** ** A scripted backend *)
Record toybackend := {
  (** the results of create, register and modify; success when used up *)
  tb_answers : list bool;
  (** the batches of poll; -1 when used up *)
  tb_polls : list (list wirecall_backend_event);
  tb_wakes : list Z;
}.

Definition toybackend_answer (b : toybackend) : bool * toybackend :=
  match tb_answers b with
  | [] => (true, b)
  | a :: rest => (a, {| tb_answers := rest; tb_polls := tb_polls b; tb_wakes := tb_wakes b |})
  end.

#[global] Instance toybackend_backend : Backend toybackend := {|
  be_create _ := toybackend_answer;
  be_destroy _ b := b;
  be_register _ _ _ _ := toybackend_answer;
  be_modify _ _ _ _ := toybackend_answer;
  be_remove _ _ b := b;
  be_wake i b := {| tb_answers := tb_answers b; tb_polls := tb_polls b; tb_wakes := tb_wakes b ++ [i] |};
  be_poll _ _ b :=
    match tb_polls b with
    | [] => (None, b)
    | l :: rest => (Some l, {| tb_answers := tb_answers b; tb_polls := rest; tb_wakes := tb_wakes b |})
    end;
|}.
