(* ===== verification/ConnInv.v ===== *)
(** * ConnInv: the invariant of a worker's connections and what keeps it

    [side_ok] ties together the two arenas of a worker, its intrusive lists,
    the heap blocks and the descriptors: every connection is in its list until
    it is detached, the flush list is the set of connections marked for it, a
    connection counts the deferred calls that name it, and the blocks and open
    descriptors are exactly those reachable from the worker, each once.  Every
    operation of Connection.v is given a rule that keeps it, and says what the
    operation did to the bytes of its connection. *)

From stdpp Require Import strings.
From S2P Require Import Prelude Words CString Protocol Integrity Memory Payload Arena Routes Scheduler Net Connection.
#[global] Open Scope Z_scope.

(** ** Buffers *)
Definition MAX_BUFFER : Z := ADDRESS_SPACE.
Record buffer_ok (b : buffer) : Prop := {
  bo_bytes : bytes_ok (b_bytes b);
  bo_len : b_len b <= b_cap b;
  bo_cap : b_cap b <= MAX_BUFFER;
  bo_ptr : b_ptr b = None -> b_cap b = 0;
}.

Lemma no_buffer_ok : buffer_ok no_buffer.
Proof. constructor; [apply bytes_ok_nil | done | by_compute | done]. Qed.

(** dropping bytes from the front keeps the block *)
Lemma buffer_drop_ok b bs :
  buffer_ok b -> bytes_ok bs -> zlen bs <= b_len b -> buffer_ok {| b_ptr := b_ptr b; b_bytes := bs; b_cap := b_cap b |}.
Proof. intros [] ? ?. constructor; cbn; try done. unfold b_len in *. cbn. lia. Qed.

Section BufferFacts.
Context `{HH : Host} `{HP : Heap W}.
Hypothesis H64 : size_bits = 64.
Hypothesis Hlimit : address_limited.
Implicit Types (h : W) (b : buffer).

(** [b'] is [b] with [bs] behind it, in a heap where its block has moved along *)
Record extends b (bs : list Z) b' h h' : Prop := {
  ex_ok : buffer_ok b';
  ex_bytes : b_bytes b' = b_bytes b ++ bs;
  ex_owns : forall base l, owns base (option_list (b_ptr b) ++ l) h -> owns base (option_list (b_ptr b') ++ l) h';
}.

Lemma extends_refl b h : buffer_ok b -> extends b [] b h h.
Proof. intros Hb. constructor; [done | by rewrite app_nil_r | done]. Qed.

Lemma extends_trans b1 b2 b3 bs1 bs2 h1 h2 h3 :
  extends b1 bs1 b2 h1 h2 -> extends b2 bs2 b3 h2 h3 -> extends b1 (bs1 ++ bs2) b3 h1 h3.
Proof. intros [] []. constructor; [done | by rewrite ex_bytes1, ex_bytes0, app_assoc | auto]. Qed.

Lemma grow_buffer_spec b need h :
  buffer_ok b -> b_cap b < need <= 2 ^ 62 + 2 ^ 57 -> (exists base l, owns base (option_list (b_ptr b) ++ l) h) ->
  wp (grow_buffer b need) (fun b' h' => extends b [] b' h h' /\ need <= b_cap b' /\ b_ptr b' <> None)
     (fun h' => extends b [] b h h') h.
Proof.
  intros Hb Hn (base0 & l0 & Ho0). unfold wp, grow_buffer. destruct Hb as [Hb1 Hb2 Hb3 Hb4].
  pose proof (zlen_nonneg (b_bytes b)) as Hnn. unfold b_len in *.
  destruct (double_until_spec 64 (if b_cap b =? 0 then 4096 else b_cap b) need) as (cap' & -> & Hc1 & Hc2).
  { destruct (b_cap b =? 0) eqn:E; zb; lia. }
  { rewrite H64. lia. }
  { change (2 ^ Z.of_nat 64) with 18446744073709551616. destruct (b_cap b =? 0) eqn:E; zb; lia. }
  destruct (heap_realloc (b_ptr b) cap' h) as [[q|] h'] eqn:E.
  - split; [| split; [done | done]]. constructor; cbn; [| by rewrite app_nil_r |].
    + constructor; cbn; [done | unfold b_len in *; cbn; lia | by eapply Hlimit | done].
    + intros base l Ho. eapply owns_realloc; [| done | done]. lia.
  - constructor; [by constructor | by rewrite app_nil_r |]. intros base l Ho. eapply owns_realloc_none; [| done | done]. lia.
Qed.

(** the bytes a pointer and a length denote *)
Definition denotes (data : option (list Z)) (n : Z) (bs : list Z) : Prop :=
  n = zlen bs /\ bytes_ok bs /\ (data = Some bs \/ (data = None /\ bs = [])).

Lemma append_bytes_spec b data n bs h :
  buffer_ok b -> denotes data n bs -> n <= 2 ^ 57 -> (exists base l, owns base (option_list (b_ptr b) ++ l) h) ->
  match append_bytes b data n h with
  | (Ok _, (b', h')) => extends b bs b' h h'
  | (Err, (b', h')) => extends b [] b' h h'
  | (UB, _) => False
  end.
Proof.
  intros Hb (-> & Hbs & Hd) Hn Ho. unfold append_bytes.
  pose proof (bo_len b Hb) as Hl. pose proof (bo_cap b Hb) as Hc. unfold MAX_BUFFER, ADDRESS_SPACE in Hc.
  pose proof (zlen_nonneg (b_bytes b)) as Hnn. pose proof (zlen_nonneg bs) as Hnb.
  destruct (zlen bs =? 0) eqn:E0; zb.
  { apply zlen_0_nil in E0 as ->. by apply extends_refl. }
  destruct Hd as [-> | [_ ->]]; [| done].
  replace (SIZE_MAX - zlen bs <? b_len b) with false by (unfold SIZE_MAX; rewrite H64; symmetry; apply Z.ltb_ge; unfold b_len in *; lia).
  cbn [buffer_bytes]. rewrite Z.leb_refl, ztake_ge by lia. cbv zeta.
  assert (Hfill : forall b1 h1, extends b [] b1 h h1 -> b_len b + zlen bs <= b_cap b1 -> b_ptr b1 <> None ->
    extends b bs {| b_ptr := b_ptr b1; b_bytes := b_bytes b1 ++ bs; b_cap := b_cap b1 |} h h1).
  { intros b1 h1 [[] Hbytes Hown] Hle Hp. rewrite app_nil_r in Hbytes. constructor; cbn; [| by rewrite Hbytes | done].
    unfold b_len in *. constructor; cbn; [by apply bytes_ok_app | unfold b_len; cbn; rewrite zlen_app, Hbytes; lia | done | done]. }
  assert (Hgo : forall b1 h1, extends b [] b1 h h1 -> b_len b + zlen bs <= b_cap b1 -> b_ptr b1 <> None ->
    match (if (match b_ptr b1 with None => true | Some _ => false end) || (b_cap b1 <? b_len b + zlen bs) then (UB, (b1, h1))
           else (Ok tt, ({| b_ptr := b_ptr b1; b_bytes := b_bytes b1 ++ bs; b_cap := b_cap b1 |}, h1))) with
    | (Ok _, (b', h')) => extends b bs b' h h'
    | (Err, (b', h')) => extends b [] b' h h'
    | (UB, _) => False
    end).
  { intros b1 h1 He Hle Hp. replace (b_cap b1 <? b_len b + zlen bs) with false by (symmetry; apply Z.ltb_ge; lia).
    specialize (Hfill b1 h1 He Hle Hp). by destruct (b_ptr b1). }
  destruct (b_cap b <? b_len b + zlen bs) eqn:E1; zb.
  - pose proof (grow_buffer_spec b (b_len b + zlen bs) h Hb ltac:(unfold b_len in *; lia) Ho) as Hg. unfold wp in Hg.
    destruct (grow_buffer b (b_len b + zlen bs) h) as [[b1| |] h1]; [| done | done].
    destruct Hg as (He & Hle & Hp). by apply Hgo.
  - apply Hgo; [by apply extends_refl | done |]. intros Hp. apply (bo_ptr b Hb) in Hp. unfold b_len in *. lia.
Qed.

Lemma reserve_bytes_spec b need h :
  buffer_ok b -> need <= 2 ^ 62 + 2 ^ 57 -> (exists base l, owns base (option_list (b_ptr b) ++ l) h) -> 0 < need ->
  wp (reserve_bytes b need) (fun b' h' => extends b [] b' h h' /\ need <= b_cap b' /\ b_ptr b' <> None)
     (fun h' => extends b [] b h h') h.
Proof.
  intros Hb Hn Ho Hpos. unfold reserve_bytes. destruct (need <=? b_cap b) eqn:E; zb.
  - unfold wp. split; [by apply extends_refl | split; [done |]]. intros Hp. apply (bo_ptr b Hb) in Hp. lia.
  - by apply grow_buffer_spec.
Qed.
End BufferFacts.

(** ** Descriptors: [descs base l n] is to open sockets what [owns] is to blocks *)
Section Descs.
Context `{NN : Net K}.

Definition descs (base : gset Z) (l : list Z) (n : K) : Prop :=
  NoDup l /\ (forall fd, fd ∈ l -> (fd ∉ base) /\ 0 <= fd) /\ net_open n = base ∪ list_to_set l.

Lemma descs_open base l n n' : net_open n' = net_open n -> descs base l n -> descs base l n'.
Proof. intros E (? & ? & ?). split_and!; [done | done | by rewrite E]. Qed.

Lemma descs_quiet base l n n' : net_quiet n n' -> descs base l n -> descs base l n'.
Proof. intros [E _ _ _]. by apply descs_open. Qed.

#[global] Instance descs_perm base : Proper ((≡ₚ) ==> eq ==> iff) (descs base).
Proof.
  intros l k Hp n ? <-. unfold descs. rewrite Hp.
  split; intros (Hn & Hd & Hl); (split; [done |]; split; [| done]); intros fd Hfd; apply Hd; [by rewrite Hp | by rewrite <- Hp].
Qed.

Lemma descs_in base l n fd : descs base l n -> fd ∈ l -> fd ∈ net_open n.
Proof. intros (_ & _ & ->) Hin. apply elem_of_union. right. by apply elem_of_list_to_set. Qed.

Lemma descs_add base l n n' fd :
  0 <= fd -> (fd ∉ net_open n) -> net_open n' = {[fd]} ∪ net_open n -> descs base l n -> descs base (fd :: l) n'.
Proof.
  intros Hpos Hf Ho (Hn & Hd & Hl). rewrite Hl in Hf, Ho. split; [constructor; [| done] | split].
  - intros Hin. apply Hf. apply elem_of_union. right. by apply elem_of_list_to_set.
  - intros d Hin. apply elem_of_cons in Hin as [-> | Hin]; [| by apply Hd]. split; [| done]. intros Hb. apply Hf. apply elem_of_union. by left.
  - rewrite Ho. cbn. apply leibniz_equiv. set_solver.
Qed.

(** descriptors that are set aside *)
Lemma descs_aside base l l' n : descs base (l ++ l') n -> descs (base ∪ list_to_set l') l n.
Proof.
  intros (Hn & Hd & Hl). apply list.NoDup_app in Hn as (Hn & Hdis & _). split; [done |]. split.
  - intros d Hdl. split; [| apply Hd; apply elem_of_app; by left].
    intros [Hb | Hb%elem_of_list_to_set]%elem_of_union; [| by eapply Hdis]. destruct (Hd d) as [Hno _]; [apply elem_of_app; by left | done].
  - rewrite Hl, list_to_set_app_L. apply leibniz_equiv. set_solver.
Qed.

Lemma descs_close base fd l n : descs base (fd :: l) n -> descs base l (net_close fd n).
Proof.
  intros (Hn & Hd & Hl). apply list.NoDup_cons in Hn as [Hfd Hn].
  assert (Hb : fd ∉ base) by (apply Hd; apply elem_of_cons; by left).
  split; [done |]. split; [intros d Hin; apply Hd; apply elem_of_cons; by right |].
  destruct (law_close fd n) as [-> _]; [rewrite Hl; cbn; set_solver |]. rewrite Hl. cbn. apply leibniz_equiv.
  rewrite <- (elem_of_list_to_set (C := gset Z)) in Hfd. set_solver.
Qed.
End Descs.

(** ** The invariant *)
Record conn_wf (c : wirecall_connection) : Prop := {
  cw_read : buffer_ok (cn_read c);
  cw_write : buffer_ok (cn_write c);
  cw_off : 0 <= cn_write_off c <= b_len (cn_write c);
  cw_fd : cn_detached c = false -> 0 <= cn_fd c;
  cw_detached : cn_detached c = true -> cn_read c = no_buffer /\ cn_write c = no_buffer /\ cn_write_queued c = false;
}.

Record def_wf (d : wirecall_deferred) : Prop := {
  dw_args : array_wf (df_args d);
  dw_response : writer_ok (df_response d);
  dw_error : bytes_ok (df_error d) /\ zlen (df_error d) < DEFERRED_ERROR_SIZE;
  dw_ids : 0 <= df_call_id d < 2 ^ 64 /\ 0 <= df_proc_id d < 2 ^ 64;
}.

Definition conn_blocks (c : wirecall_connection) : list Z := option_list (b_ptr (cn_read c)) ++ option_list (b_ptr (cn_write c)).
Definition conn_fds (c : wirecall_connection) : list Z := if cn_detached c then [] else [cn_fd c].
Definition def_blocks (d : wirecall_deferred) : list Z :=
  array_blocks (df_args d) ++ option_list (w_data (df_response d)) ++ option_list (df_payload d).

(** what an operation is in the middle of *)
Record ghost := {
  (** a deferred call its connection does not count: in construction, or answered *)
  g_hole : option Z;
  (** a detached connection that is about to be freed *)
  g_ending : option Z;
  (** connections taken off the flush list, still marked *)
  g_flush : list Z;
  (** deferred calls taken off the completed list *)
  g_drain : list Z;
}.
Definition idle : ghost := {| g_hole := None; g_ending := None; g_flush := []; g_drain := [] |}.

Definition without (hole : option Z) {A} (m : gmap Z A) : gmap Z A :=
  match hole with Some p => delete p m | None => m end.

(** the deferred calls of a set that name [q] *)
Definition named (q : Z) (m : gmap Z wirecall_deferred) : list Z := filter (fun p => p = q) (collect (fun d => [df_conn d]) m).

Section Inv.
Context `{HH : Host} `{HP : Heap W} `{NN : Net K} {B : Type}.
Implicit Types (x : side K B) (h : W) (p q : Z) (c : wirecall_connection) (d : wirecall_deferred) (g : ghost).

Definition conns x : gmap Z wirecall_connection := in_use (wk_conns x).2.
Definition defs x : gmap Z wirecall_deferred := in_use (wk_defs x).2.

(** [extra], [fextra]: blocks and descriptors an operation holds *)
Record side_ok (base fbase : gset Z) g (extra fextra : list Z) x h : Prop := {
  sk_conns : arena_ok (wk_conns x);
  sk_defs : arena_ok (wk_defs x);
  sk_cap : capacity (wk_defs x).1 < 2 ^ 32;
  sk_key : bytes_ok (sv_mac_key x) /\ zlen (sv_mac_key x) = 16;
  sk_workers : 0 < sv_worker_count x;
  sk_conn_wf : forall p c, conns x !! p = Some c -> conn_wf c;
  sk_def_wf : forall p d, defs x !! p = Some d -> def_wf d /\ is_Some (conns x !! df_conn d);
  sk_list : NoDup (wk_connections x) /\ forall p, p ∈ wk_connections x <-> exists c, conns x !! p = Some c /\ cn_detached c = false;
  sk_writes : NoDup (wk_pending_writes x ++ g_flush g) /\
    forall p, p ∈ wk_pending_writes x ++ g_flush g <-> exists c, conns x !! p = Some c /\ cn_write_queued c = true;
  sk_completed : NoDup (wk_completed x ++ g_drain g) /\
    forall p, p ∈ wk_completed x ++ g_drain g <-> exists d, defs x !! p = Some d /\ df_completed d = true;
  sk_hole : forall p, g_hole g = Some p -> is_Some (defs x !! p);
  sk_count : forall p c, conns x !! p = Some c -> cn_pending_deferred c = zlen (named p (without (g_hole g) (defs x)));
  sk_detached : forall p c, conns x !! p = Some c -> cn_detached c = true -> g_ending g <> Some p -> 0 < cn_pending_deferred c;
  sk_owns : owns base (collect conn_blocks (conns x) ++ collect def_blocks (defs x) ++
                       collect (map fst) (sv_pendings x) ++ extra) h;
  sk_descs : descs fbase (collect conn_fds (conns x) ++ collect (map snd) (sv_pendings x) ++ fextra) (wk_net x);
}.

(** storing a connection *)
Definition upd_conn p c x : side K B := set_conns ((wk_conns x).1, <[p := Used c]> (wk_conns x).2) x.
Definition upd_def p d x : side K B := set_defs ((wk_defs x).1, <[p := Used d]> (wk_defs x).2) x.

Lemma conns_upd p c x : conns (upd_conn p c x) = <[p := c]> (conns x).
Proof. apply in_use_insert_used. Qed.
Lemma defs_upd p d x : defs (upd_def p d x) = <[p := d]> (defs x).
Proof. apply in_use_insert_used. Qed.

Lemma wp_get_conn p c x h (Q : wirecall_connection -> wstate -> Prop) E :
  conns x !! p = Some c -> Q c (x, h) -> wp (get_conn p) Q E (x, h).
Proof. intros Hc. apply in_use_lookup in Hc. unfold wp, get_conn. by rewrite Hc. Qed.

Lemma wp_put_conn p c c' x h (Q : unit -> wstate -> Prop) E :
  conns x !! p = Some c -> Q tt (upd_conn p c' x, h) -> wp (put_conn p c') Q E (x, h).
Proof. intros Hc. apply in_use_lookup in Hc. unfold wp, put_conn. by rewrite Hc. Qed.

Lemma wp_get_def p d x h (Q : wirecall_deferred -> wstate -> Prop) E :
  defs x !! p = Some d -> Q d (x, h) -> wp (get_def p) Q E (x, h).
Proof. intros Hc. apply in_use_lookup in Hc. unfold wp, get_def. by rewrite Hc. Qed.

Lemma wp_put_def p d d' x h (Q : unit -> wstate -> Prop) E :
  defs x !! p = Some d -> Q tt (upd_def p d' x, h) -> wp (put_def p d') Q E (x, h).
Proof. intros Hc. apply in_use_lookup in Hc. unfold wp, put_def. by rewrite Hc. Qed.
Lemma wp_gets_side {A} (f : side K B -> A) x h (Q : A -> wstate -> Prop) E : Q (f x) (x, h) -> wp (gets_side f) Q E (x, h).
Proof. done. Qed.
Lemma wp_upd_side (f : side K B -> side K B) x h (Q : unit -> wstate -> Prop) E : Q tt (f x, h) -> wp (upd_side f) Q E (x, h).
Proof. done. Qed.
Lemma wp_net_modify (f : K -> K) x h (Q : unit -> wstate -> Prop) E :
  Q tt (set_net (f (wk_net x)) x, h) -> wp (side_net (modify f)) Q E (x, h).
Proof. done. Qed.
Lemma wp_mem_modify (f : W -> W) x h (Q : unit -> wstate -> Prop) E : Q tt (x, f h) -> wp (on_mem (modify f)) Q E (x, h).
Proof. done. Qed.
Lemma wp_backend_do (f : B -> B) x h (Q : unit -> wstate -> Prop) E :
  Q tt (set_backend (f (wk_backend x)) x, h) -> wp (on_backend (fun b => (tt, f b))) Q E (x, h).
Proof. done. Qed.
Lemma wp_on_mem {A} (m : M W A) x h (Q : A -> wstate -> Prop) (E : wstate -> Prop) :
  wp m (fun a h' => Q a (x, h')) (fun h' => E (x, h')) h -> wp (on_mem m) Q E (x, h).
Proof. unfold wp, on_mem. by destruct (m h) as [[] ?]. Qed.

(** *** Changing a connection *)

(** the general step: [c] becomes [c'], the flush list becomes [wl] *)
Lemma sk_conn_step base fbase g g' extra extra' fextra x h h' p c c' wl :
  side_ok base fbase g extra fextra x h -> conns x !! p = Some c -> conn_wf c' ->
  cn_fd c' = cn_fd c -> cn_detached c' = cn_detached c ->
  NoDup (wl ++ g_flush g') ->
  (forall q, q ∈ wl ++ g_flush g' <-> if decide (q = p) then cn_write_queued c' = true else q ∈ wk_pending_writes x ++ g_flush g) ->
  g_drain g' = g_drain g -> (forall q, g_hole g' = Some q -> is_Some (defs x !! q)) ->
  cn_pending_deferred c' = zlen (named p (without (g_hole g') (defs x))) ->
  (forall q, q <> p -> named q (without (g_hole g') (defs x)) ≡ₚ named q (without (g_hole g) (defs x))) ->
  (cn_detached c' = true -> g_ending g' <> Some p -> 0 < cn_pending_deferred c') ->
  (forall q, q <> p -> g_ending g = Some q -> g_ending g' = Some q) ->
  (forall l, owns base (conn_blocks c ++ l ++ extra) h -> owns base (conn_blocks c' ++ l ++ extra') h') ->
  side_ok base fbase g' extra' fextra (set_writes wl (upd_conn p c' x)) h'.
Proof.
  intros [Ka Kd Kc Kk Kw Kcw Kdw Kl Kq Kcm Kh Kn Kdt Ko Kf] Hc Hwf Hfd Hdet Hnd Hin Hdr Hhole Hcnt Hothers Hend Hends Hown.
  pose proof (conns_upd p c' x) as Hcu.
  constructor; try done.
  - destruct Ka as [fl Ka]. exists fl. by eapply store_ok.
  - intros q cq. change (conns (set_writes wl (upd_conn p c' x))) with (conns (upd_conn p c' x)).
    rewrite Hcu, lookup_insert_Some. intros [[<- <-] | [_ Hq]]; [done | by eapply Kcw].
  - intros q dq Hq. destruct (Kdw q dq Hq) as [? ?]. split; [done |].
    change (conns (set_writes wl (upd_conn p c' x))) with (conns (upd_conn p c' x)).
    rewrite Hcu, lookup_insert_is_Some. destruct (decide (p = df_conn dq)); auto.
  - destruct Kl as [Kl1 Kl2]. split; [done |]. intros q.
    change (conns (set_writes wl (upd_conn p c' x))) with (conns (upd_conn p c' x)).
    rewrite Hcu. etrans; [apply Kl2 |]. destruct (decide (q = p)) as [-> | Hne].
    + rewrite lookup_insert_eq, Hc. split; intros (c0 & [= <-] & E); eexists; (split; [done | congruence]).
    + by rewrite lookup_insert_ne by done.
  - split; [done |]. intros q. change (conns (set_writes wl (upd_conn p c' x))) with (conns (upd_conn p c' x)).
    change (wk_pending_writes (set_writes wl (upd_conn p c' x))) with wl. rewrite Hcu, Hin.
    destruct Kq as [_ Kq]. destruct (decide (q = p)) as [-> | Hne].
    + rewrite lookup_insert_eq. split; [intros ?; by exists c' | by intros (? & [= <-] & ?)].
    + rewrite lookup_insert_ne by done. apply Kq.
  - change (wk_completed (set_writes wl (upd_conn p c' x))) with (wk_completed x). rewrite Hdr. exact Kcm.
  - intros q cq. change (conns (set_writes wl (upd_conn p c' x))) with (conns (upd_conn p c' x)).
    rewrite Hcu, lookup_insert_Some. change (defs (set_writes wl (upd_conn p c' x))) with (defs x).
    intros [[<- <-] | [Hne Hq]]; [done |]. rewrite (Kn q cq Hq). unfold zlen. by rewrite Hothers.
  - intros q cq. change (conns (set_writes wl (upd_conn p c' x))) with (conns (upd_conn p c' x)).
    rewrite Hcu, lookup_insert_Some. intros [[<- <-] | [Hne Hq]]; [by apply Hend |].
    intros Hd Hg. eapply Kdt; [done | done |]. intros Hg'. apply Hg. by apply Hends.
  - change (conns (set_writes wl (upd_conn p c' x))) with (conns (upd_conn p c' x)).
    rewrite Hcu, (collect_insert conn_blocks), <- !app_assoc. rewrite (collect_lookup conn_blocks _ _ _ Hc), <- !app_assoc in Ko.
    specialize (Hown (collect conn_blocks (delete p (conns x)) ++ collect def_blocks (defs x) ++ collect (map fst) (sv_pendings x))).
    rewrite <- !app_assoc in Hown. by apply Hown.
  - change (conns (set_writes wl (upd_conn p c' x))) with (conns (upd_conn p c' x)).
    rewrite Hcu, (collect_insert conn_fds). rewrite (collect_lookup conn_fds _ _ _ Hc) in Kf.
    replace (conn_fds c') with (conn_fds c) by (unfold conn_fds; by rewrite Hdet, Hfd). exact Kf.
Qed.

(** what changes neither the lists nor the counters *)
Record same_place c c' : Prop := {
  sp_wf : conn_wf c';
  sp_fd : cn_fd c' = cn_fd c;
  sp_detached : cn_detached c' = cn_detached c;
  sp_pending : cn_pending_deferred c' = cn_pending_deferred c;
}.

Lemma same_place_refl c : conn_wf c -> same_place c c.
Proof. by constructor. Qed.

Lemma sk_put base fbase g extra extra' fextra x h h' p c c' :
  side_ok base fbase g extra fextra x h -> conns x !! p = Some c -> same_place c c' ->
  cn_write_queued c' = cn_write_queued c ->
  (forall l, owns base (conn_blocks c ++ l ++ extra) h -> owns base (conn_blocks c' ++ l ++ extra') h') ->
  side_ok base fbase g extra' fextra (upd_conn p c' x) h'.
Proof.
  intros Hk Hc [Hwf Hfd Hdet Hpd] Hq Hown. pose proof Hk as [Ka Kd Kc Kk Kw Kcw Kdw Kl [Kq1 Kq2] Kcm Kh Kn Kdt Ko Kf].
  eapply (sk_conn_step _ _ g g extra extra' _ x h h' p c c' (wk_pending_writes x)); try done.
  - intros q. destruct (decide (q = p)) as [-> | Hne]; [| done]. rewrite Kq2, Hq.
    split; [intros (c0 & Hc0 & E); congruence | by exists c].
  - rewrite Hpd. by apply Kn.
  - intros Hd Hg. rewrite Hpd. eapply Kdt; [done | congruence | done].
Qed.

Lemma sk_queue base fbase g extra extra' fextra x h h' p c c' :
  side_ok base fbase g extra fextra x h -> conns x !! p = Some c -> same_place c c' ->
  cn_write_queued c = false -> cn_write_queued c' = true ->
  (forall l, owns base (conn_blocks c ++ l ++ extra) h -> owns base (conn_blocks c' ++ l ++ extra') h') ->
  side_ok base fbase g extra' fextra (set_writes (p :: wk_pending_writes x) (upd_conn p c' x)) h'.
Proof.
  intros Hk Hc [Hwf Hfd Hdet Hpd] Hq Hq' Hown. pose proof Hk as [Ka Kd Kc Kk Kw Kcw Kdw Kl [Kq1 Kq2] Kcm Kh Kn Kdt Ko Kf].
  assert (Hp : p ∉ wk_pending_writes x ++ g_flush g).
  { rewrite Kq2. intros (c0 & Hc0 & E). congruence. }
  eapply (sk_conn_step _ _ g g extra extra' _ x h h' p c c' (p :: wk_pending_writes x)); try done.
  - cbn [app]. by constructor.
  - intros q. cbn [app]. rewrite elem_of_cons. destruct (decide (q = p)) as [-> | Hne]; [rewrite Hq'; naive_solver | naive_solver].
  - rewrite Hpd. by apply Kn.
  - intros Hd Hg. rewrite Hpd. eapply Kdt; [done | congruence | done].
Qed.

(** changing what is not in the invariant, or only the network *)
Lemma sk_net base fbase g extra fextra x h n :
  side_ok base fbase g extra fextra x h -> net_open n = net_open (wk_net x) -> side_ok base fbase g extra fextra (set_net n x) h.
Proof. intros [] Hn. constructor; try done. by eapply descs_open. Qed.

Lemma sk_backend base fbase g extra fextra x h b :
  side_ok base fbase g extra fextra x h -> side_ok base fbase g extra fextra (set_backend b x) h.
Proof. intros []. by constructor. Qed.

(** the block of the buffers of a connection is among those that are owned *)
Lemma sk_owned base fbase g extra fextra x h p c :
  side_ok base fbase g extra fextra x h -> conns x !! p = Some c ->
  (exists base l, owns base (option_list (b_ptr (cn_write c)) ++ l) h) /\ (exists base l, owns base (option_list (b_ptr (cn_read c)) ++ l) h).
Proof.
  intros Hk Hc. pose proof (sk_owns _ _ _ _ _ _ _ Hk) as Ho. rewrite (collect_lookup conn_blocks _ _ _ Hc) in Ho.
  unfold conn_blocks at 1 in Ho. rewrite <- !app_assoc in Ho. split; exists base; eexists.
  - rewrite Permutation_app_swap_app in Ho. exact Ho.
  - exact Ho.
Qed.

(** a live connection has an open descriptor *)
Lemma sk_fd_open base fbase g extra fextra x h p c :
  side_ok base fbase g extra fextra x h -> conns x !! p = Some c -> cn_detached c = false -> cn_fd c ∈ net_open (wk_net x).
Proof.
  intros Hk Hc Hd. eapply descs_in; [exact (sk_descs _ _ _ _ _ _ _ Hk) |].
  rewrite (collect_lookup conn_fds _ _ _ Hc). unfold conn_fds. rewrite Hd. cbn. apply elem_of_cons. by left.
Qed.
End Inv.

(** ** Queueing *)
Section Queue.
Context `{HH : Host} `{HP : Heap W} `{NN : Net K} `{BB : Backend B}.
Hypothesis H64 : size_bits = 64.
Hypothesis Hlimit : address_limited.
Implicit Types (x : side K B) (h : W) (p q : Z) (c : wirecall_connection) (d : wirecall_deferred) (g : ghost).

Lemma upd_upd p c c' x : upd_conn p c' (upd_conn p c x) = upd_conn p c' x.
Proof. unfold upd_conn. cbn. by rewrite insert_insert_eq. Qed.

Lemma upd_same p c x : conns x !! p = Some c -> upd_conn p c x = x.
Proof. intros Hc%in_use_lookup. unfold upd_conn. rewrite insert_id by done. by destruct x as [????????? []]. Qed.

(** [c] stored, and marked for the next flush *)
Definition queued p c x : side K B :=
  if cn_write_queued c then upd_conn p c x
  else set_writes (p :: wk_pending_writes x) (upd_conn p (with_queued true c) x).

Lemma worker_queue_write_spec p c x h (Q : unit -> wstate -> Prop) E :
  conns x !! p = Some c -> Q tt (queued p c x, h) -> wp (worker_queue_write p) Q E (x, h).
Proof.
  intros Hc HQ. unfold worker_queue_write. apply wp_bind. eapply wp_get_conn; [done |].
  unfold queued in HQ. destruct (cn_write_queued c).
  - apply wp_ret. by rewrite upd_same in HQ.
  - apply wp_bind. by eapply wp_put_conn.
Qed.

(** [c] with [bs] behind what it has to write *)
Definition writes c (bs : list Z) c' h h' : Prop :=
  exists b', extends (cn_write c) bs b' h h' /\ c' = with_write b' (cn_write_off c) c.

Lemma append_write_spec p c data n bs x h :
  conns x !! p = Some c -> conn_wf c -> denotes data n bs -> n <= WIRECALL_MAX_PAYLOAD_SIZE ->
  (exists base l, owns base (option_list (b_ptr (cn_write c)) ++ l) h) ->
  wp (append_write p data n)
    (fun _ '(x', h') => exists c', writes c bs c' h h' /\ x' = upd_conn p c' x)
    (fun '(x', h') => exists c', writes c [] c' h h' /\ x' = upd_conn p c' x) (x, h).
Proof.
  intros Hc Hwf Hd Hn Ho. unfold append_write. apply wp_bind. eapply wp_get_conn; [done |].
  pose proof (append_bytes_spec H64 Hlimit (cn_write c) data n bs h (cw_write c Hwf) Hd) as Ha.
  unfold WIRECALL_MAX_PAYLOAD_SIZE in Hn. specialize (Ha ltac:(lia) Ho). apply wp_bind. unfold wp at 1.
  destruct (append_bytes (cn_write c) data n h) as [r [b' h']]. apply wp_bind. eapply wp_put_conn; [done |].
  destruct r; [| | done]; unfold wp, lift; cbn [fst snd]; eexists; (split; [by exists b' | done]).
Qed.

Lemma writes_wf c bs c' h h' : conn_wf c -> cn_detached c = false -> writes c bs c' h h' -> same_place c c' /\ cn_write_queued c' = cn_write_queued c.
Proof.
  intros [W1 W2 W3 W4 W5] Hd (b' & [E1 E2 E3] & ->). split; [| done]. constructor; try done. constructor; try done; cbn.
  - pose proof (zlen_nonneg bs). unfold b_len in *. rewrite E2, zlen_app. lia.
  - congruence.
Qed.

Lemma writes_trans c1 c2 c3 bs1 bs2 h1 h2 h3 :
  writes c1 bs1 c2 h1 h2 -> writes c2 bs2 c3 h2 h3 -> writes c1 (bs1 ++ bs2) c3 h1 h3.
Proof. intros (b2 & E2 & ->) (b3 & E3 & ->). exists b3. split; [by eapply extends_trans | done]. Qed.

Lemma writes_owned c bs c' h h' :
  (exists base l, owns base (option_list (b_ptr (cn_write c)) ++ l) h) -> writes c bs c' h h' ->
  exists base l, owns base (option_list (b_ptr (cn_write c')) ++ l) h'.
Proof. intros (base & l & Ho) (b' & [_ _ E] & ->). exists base, l. by apply E. Qed.

(** what queue_packet needs of the connection and of the server *)
Record can_queue p c x h : Prop := {
  cq_conn : conns x !! p = Some c;
  cq_wf : conn_wf c;
  cq_live : cn_detached c = false;
  cq_key : bytes_ok (sv_mac_key x) /\ zlen (sv_mac_key x) = 16;
  cq_owned : exists base l, owns base (option_list (b_ptr (cn_write c)) ++ l) h;
}.

Definition packet x op proc_id call_id data : list Z := packet_of (sv_integrity x) (sv_mac_key x) op proc_id call_id data.

(** the packet is queued, or the queue has grown by its header at most *)
Definition packet_queued p c x h (pkt : list Z) (r : res unit) x' h' : Prop :=
  match r with
  | Ok _ => exists c', writes c pkt c' h h' /\ x' = queued p c' x
  | Err => exists c' bs, writes c bs c' h h' /\ x' = upd_conn p c' x /\ (bs = [] \/ bs = ztake WIRECALL_HEADER_SIZE pkt)
  | UB => False
  end.

Lemma queue_packet_spec p c op proc_id call_id payload n data x h :
  can_queue p c x h -> 0 <= proc_id < 2 ^ 64 -> 0 <= call_id < 2 ^ 64 -> denotes payload n data ->
  wp (queue_packet (Some p) op WIRECALL_FLAG_NONE proc_id call_id payload n)
    (fun _ '(x', h') => packet_queued p c x h (packet x op proc_id call_id data) (Ok tt) x' h')
    (fun '(x', h') => packet_queued p c x h (packet x op proc_id call_id data) Err x' h') (x, h).
Proof.
  intros [Hc Hwf Hl [Hk1 Hk2] Ho] Hp Hi (-> & Hb & Hd). unfold queue_packet.
  assert (Hsame : packet_queued p c x h (packet x op proc_id call_id data) Err x h).
  { exists c, []. split; [| split; [by rewrite upd_same | by left]]. exists (cn_write c).
    split; [by apply extends_refl, cw_write | by destruct c]. }
  apply wp_bind. eapply wp_get_conn; [done |]. rewrite Hl. pose proof (cw_fd c Hwf Hl).
  replace (cn_fd c <? 0) with false by (symmetry; apply Z.ltb_ge; lia). cbn [orb].
  destruct (WIRECALL_MAX_PAYLOAD_SIZE <? zlen data) eqn:Emax; [by apply wp_fail |]. zb.
  pose proof (zlen_nonneg data). unfold WIRECALL_MAX_PAYLOAD_SIZE in Emax.
  do 2 (apply wp_bind; unfold wp at 1, gets_side, gets; cbn [fst]). cbv zeta. rewrite u32_small by lia.
  destruct (packet_of_spec (sv_integrity x) (sv_mac_key x) op proc_id call_id data Hp Hi Hb ltac:(unfold WIRECALL_MAX_PAYLOAD_SIZE; lia) Hk1 Hk2)
    as (hd & Hsign & Hok & _ & _ & _ & _ & _ & Hpkt).
  change {| h_op := _; h_flags := _; h_proc_id := _; h_size := _; h_call_id := _; h_checksum := _; h_mac := _ |}
    with (fresh_header op proc_id call_id (zlen data)).
  assert (Hsign' : wirecall_packet_sign_ex (Some (fresh_header op proc_id call_id (zlen data))) payload (zlen data)
                     (sv_integrity x) (Some (sv_mac_key x)) = Ok hd) by (destruct Hd as [-> | [-> ->]]; [done | exact Hsign]).
  apply wp_bind. unfold wp at 1, lift. rewrite Hsign'. apply wp_bind. unfold wp at 1, lift. rewrite (header_encode_ok hd Hok).
  unfold packet. rewrite Hpkt. clear Hsame.
  apply wp_bind. eapply wp_mono; [apply (append_write_spec p c _ _ (header_bytes hd)); try done | |].
  { split_and!; [by rewrite zlen_header_bytes | by apply header_bytes_ok | by left]. }
  - intros _ [x1 h1] (c1 & Hw1 & ->). destruct (writes_wf _ _ _ _ _ Hwf Hl Hw1) as [Hs1 Hq1].
    apply wp_bind. eapply wp_mono; [apply (append_write_spec p c1 _ _ data) | |].
    + rewrite conns_upd. apply lookup_insert_eq.
    + by destruct Hs1.
    + done.
    + done.
    + by eapply writes_owned.
    + intros _ [x2 h2] (c2 & Hw2 & ->). rewrite upd_upd. eapply worker_queue_write_spec.
      { rewrite conns_upd. apply lookup_insert_eq. }
      exists c2. split; [by eapply writes_trans |]. unfold queued. by rewrite !upd_upd.
    + intros [x2 h2] (c2 & Hw2 & ->). rewrite upd_upd. exists c2, (header_bytes hd).
      split; [rewrite <- (app_nil_r (header_bytes hd)); by eapply writes_trans |]. split; [done | right].
      symmetry. apply ztake_app_eq. by rewrite zlen_header_bytes.
  - intros [x1 h1] (c1 & Hw1 & ->). exists c1, []. split; [done |]. split; [done | by left].
Qed.

Lemma writer_denotes w : writer_ok w -> denotes (writer_data w) (w_len w) (w_bytes w).
Proof.
  intros (Hl & Hd & Hb). split; [done |]. split; [done |]. unfold writer_data.
  destruct (w_data w); [by left | right]. split; [done |]. apply zlen_0_nil. specialize (Hd eq_refl).
  pose proof (zlen_nonneg (w_bytes w)). unfold w_len in Hl. lia.
Qed.

(** the text of an error, as it is sent *)
Definition error_text (message : list Z) : list Z := encode_value (PString message).

(** blocks held around an operation *)
Lemma writes_wrap c bs c' R h h1 h2 h3 :
  writes c bs c' h1 h2 -> (forall base l, owns base l h -> owns base (R ++ l) h1) ->
  (forall base l, owns base (R ++ l) h2 -> owns base l h3) -> writes c bs c' h h3.
Proof.
  intros (b' & [E1 E2 E3] & ->) Hw Hr. exists b'. split; [| done]. constructor; [done | done |].
  intros base l Ho. apply Hr. apply Hw in Ho. rewrite Permutation_app_swap_app in Ho. apply E3 in Ho.
  by rewrite Permutation_app_swap_app in Ho.
Qed.

Lemma packet_queued_wrap p c x h h1 h2 h3 pkt r x' R :
  packet_queued p c x h1 pkt r x' h2 -> (forall base l, owns base l h -> owns base (R ++ l) h1) ->
  (forall base l, owns base (R ++ l) h2 -> owns base l h3) -> packet_queued p c x h pkt r x' h3.
Proof.
  intros Hq Hw Hr. destruct r; [| | done].
  - destruct Hq as (c' & Hc' & ->). exists c'. split; [by eapply writes_wrap | done].
  - destruct Hq as (c' & bs & Hc' & Hx & Hbs). exists c', bs. split; [by eapply writes_wrap | done].
Qed.

Lemma queue_nothing p c x h h' pkt :
  conns x !! p = Some c -> conn_wf c -> (forall base l, owns base l h -> owns base l h') -> packet_queued p c x h pkt Err x h'.
Proof.
  intros Hc Hwf Ho. exists c, []. split; [| split; [by rewrite upd_same | by left]]. exists (cn_write c).
  split; [| by destruct c]. constructor; [by apply cw_write | by rewrite app_nil_r | intros base l; apply Ho].
Qed.

Lemma queue_string_error_spec p c proc_id call_id message x h :
  can_queue p c x h -> 0 <= proc_id < 2 ^ 64 -> 0 <= call_id < 2 ^ 64 -> bytes_ok message -> zlen message < 2 ^ 32 ->
  wp (queue_string_error (Some p) proc_id call_id message)
    (fun _ '(x', h') => packet_queued p c x h (packet x WIRECALL_OP_ERROR proc_id call_id (error_text message)) (Ok tt) x' h')
    (fun '(x', h') => packet_queued p c x h (packet x WIRECALL_OP_ERROR proc_id call_id (error_text message)) Err x' h') (x, h).
Proof.
  intros Hcq Hp Hi Hb Hl. unfold wp, queue_string_error. pose proof (zlen_nonneg message). rewrite u32_small by lia.
  change (wirecall_writer_string (Some message) (zlen message)) with (write_value (PString message)).
  destruct (write_value (PString message) (wirecall_writer_init, h)) as [r [w h1]] eqn:E.
  assert (Hw : forall base l, owns base l h -> writer_ok w /\ owns base (option_list (w_data w) ++ l) h1 /\
            match r with Ok _ => w_bytes w = error_text message | Err => True | UB => False end).
  { intros base l Ho. destruct (write_value_spec base l (PString message) _ _ _ _ _ (conj Hb Hl) writer_init_ok Ho E) as (? & ? & Hr).
    split_and!; [done | done |]. destruct r; done. }
  destruct Hcq as [Hc Hwf Hlive Hkey (base & l & Ho)]. destruct (Hw base _ Ho) as (Hwok & Ho1 & Hr).
  assert (Hwrap : forall base l, owns base l h -> owns base (option_list (w_data w) ++ l) h1) by (intros; by apply Hw).
  destruct r as [u| |]; [| | done].
  - rewrite Permutation_app_swap_app in Ho1.
    assert (Hcq1 : can_queue p c x h1) by (constructor; try done; eauto).
    pose proof (queue_packet_spec p c WIRECALL_OP_ERROR proc_id call_id _ _ _ x h1 Hcq1 Hp Hi (writer_denotes w Hwok)) as Hq.
    rewrite Hr in Hq. unfold wp in Hq.
    destruct (queue_packet _ _ _ _ _ _ _ _) as [[u'| |] [x' h']]; [| | done];
      apply (packet_queued_wrap _ _ _ _ h1 h' _ _ _ _ (option_list (w_data w))); [done | done | intros; by apply owns_free_opt | done | done | intros; by apply owns_free_opt].
  - cbn [wirecall_writer_free snd]. apply queue_nothing; [done | done |]. intros base' l' Ho'. apply owns_free_opt. by apply Hwrap.
Qed.

(** *** The invariant *)
Lemma writes_transfer base c bs c' h h' l :
  writes c bs c' h h' -> owns base (conn_blocks c ++ l) h -> owns base (conn_blocks c' ++ l) h'.
Proof.
  intros (b' & [_ _ E] & ->) Ho. unfold conn_blocks in *. cbn. rewrite <- !app_assoc in *.
  rewrite Permutation_app_swap_app in Ho. apply E in Ho. by rewrite Permutation_app_swap_app in Ho.
Qed.

Lemma packet_queued_ok base fbase g extra fextra p c x h pkt r x' h' :
  side_ok base fbase g extra fextra x h -> conns x !! p = Some c -> cn_detached c = false ->
  packet_queued p c x h pkt r x' h' -> side_ok base fbase g extra fextra x' h'.
Proof.
  intros Hk Hc Hl Hq. pose proof (sk_conn_wf _ _ _ _ _ _ _ Hk p c Hc) as Hwf. destruct r; [| | done].
  - destruct Hq as (c' & Hw & ->). destruct (writes_wf _ _ _ _ _ Hwf Hl Hw) as [Hs Hqq]. unfold queued.
    destruct (cn_write_queued c') eqn:E.
    + eapply sk_put; try done; [congruence |]. intros l. by apply writes_transfer with pkt.
    + eapply (sk_queue _ _ _ _ _ _ x h h' p c (with_queued true c')); [done | done | | congruence | done |].
      * destruct Hs as [[] ? ? ?]. constructor; try done. constructor; try done. intros Hd. cbn in Hd. congruence.
      * intros l Ho. exact (writes_transfer base c pkt c' h h' _ Hw Ho).
  - destruct Hq as (c' & bs & Hw & -> & _). destruct (writes_wf _ _ _ _ _ Hwf Hl Hw) as [Hs Hqq].
    eapply sk_put; try done. intros l. by apply writes_transfer with bs.
Qed.

Lemma sk_can_queue base fbase g extra fextra p c x h :
  side_ok base fbase g extra fextra x h -> conns x !! p = Some c -> cn_detached c = false -> can_queue p c x h.
Proof.
  intros Hk Hc Hl. constructor; [done | by eapply sk_conn_wf | done | by eapply sk_key | by eapply sk_owned].
Qed.
End Queue.

(** ** Writing *)
Section Write.
Context `{HH : Host} `{HP : Heap W} `{NN : Net K} `{BB : Backend B}.
Implicit Types (x : side K B) (h : W) (p q : Z) (c : wirecall_connection) (g : ghost) (n : K).

(** the bytes that are queued and not yet sent *)
Definition unsent c : list Z := zdrop (cn_write_off c) (b_bytes (cn_write c)).
Definition keeps_data c c' : Prop := unsent c <> [] -> unsent c' <> [].
#[export] Instance keeps_data_refl : Reflexive keeps_data.
Proof. intros c Hu. exact Hu. Qed.
#[export] Instance keeps_data_trans : Transitive keeps_data.
Proof. unfold keeps_data. intros c1 c2 c3. auto. Qed.

(** [c] and [c'] have the same blocks, place in the lists and input *)
Record kin c c' : Prop := {
  kin_place : same_place c c';
  kin_queued : cn_write_queued c' = cn_write_queued c;
  kin_read : cn_read c' = cn_read c;
  kin_ptr : b_ptr (cn_write c') = b_ptr (cn_write c);
}.

Lemma kin_refl c : conn_wf c -> kin c c.
Proof. intros. by constructor; [apply same_place_refl | ..]. Qed.

Lemma kin_trans c1 c2 c3 : kin c1 c2 -> kin c2 c3 -> kin c1 c3.
Proof. intros [[] ? ? ?] [[] ? ? ?]. constructor; [constructor |..]; congruence. Qed.

Lemma kin_closing c : conn_wf c -> kin c (with_closing c).
Proof. intros []. by constructor; [constructor |..]. Qed.

Lemma kin_interests c i : conn_wf c -> kin c (with_interests i c).
Proof. intros []. by constructor; [constructor |..]. Qed.

(** the network has moved bytes of [fd] from the first list to the second *)
Record sent_some (fd : Z) (before after : list Z) n n' : Prop := {
  ss_open : net_open n' = net_open n;
  ss_received : forall d, net_received d n' = net_received d n;
  ss_other : forall d, d <> fd -> net_sent d n' = net_sent d n;
  ss_stream : net_sent fd n' ++ after = net_sent fd n ++ before;
  ss_work : (net_work n' <= net_work n)%nat;
}.

Lemma sent_none fd bs n n' : net_quiet n n' -> sent_some fd bs bs n n'.
Proof. intros []. constructor; try done. congruence. Qed.

Lemma sent_trans fd a b e n1 n2 n3 : sent_some fd a b n1 n2 -> sent_some fd b e n2 n3 -> sent_some fd a e n1 n3.
Proof.
  intros [] []. constructor; [congruence | congruence | | congruence | lia].
  intros d Hd. rewrite ss_other1, ss_other0 by done. done.
Qed.

(** the effect of writing on the worker: connection [p], network and backend *)
Definition wrote p c x h (s : wstate) : Prop :=
  exists c' n b, s = (upd_conn p c' (set_net n (set_backend b x)), h) /\ kin c c' /\
    sent_some (cn_fd c) (unsent c) (unsent c') (wk_net x) n /\ (unsent c' = [] -> cn_closing c' = cn_closing c).

Lemma set_interests_spec p c i x h (Q : unit -> wstate -> Prop) (E : wstate -> Prop) :
  conns x !! p = Some c -> conn_wf c ->
  (forall c' b, kin c c' -> unsent c' = unsent c -> cn_closing c' = cn_closing c -> Q tt (upd_conn p c' (set_backend b x), h)) ->
  (forall c' b, kin c c' -> unsent c' = unsent c -> cn_closing c' = cn_closing c -> E (upd_conn p c' (set_backend b x), h)) ->
  wp (connection_set_interests p i) Q E (x, h).
Proof.
  intros Hc Hwf HQ HE. unfold connection_set_interests. apply wp_bind. eapply wp_get_conn; [done |].
  destruct (cn_interests c =? i).
  - apply wp_ret. specialize (HQ c (wk_backend x) (kin_refl c Hwf) eq_refl eq_refl).
    rewrite upd_same in HQ by done. by destruct x.
  - apply wp_bind. unfold wp at 1, gets_side, gets. cbn [fst]. apply wp_bind. unfold wp at 1, on_backend.
    destruct (be_modify _ _ _ _ _) as [ok b]. destruct ok; cbn [negb].
    + apply wp_bind. eapply wp_get_conn; [done |]. eapply wp_put_conn; [done |]. apply HQ; [by apply kin_interests | done | done].
    + apply wp_fail. specialize (HE c b (kin_refl c Hwf) eq_refl eq_refl). by rewrite upd_same in HE.
Qed.

Lemma upd_net p c c' n b n' b' x :
  upd_conn p c' (set_net n' (set_backend b' (upd_conn p c (set_net n (set_backend b x))))) = upd_conn p c' (set_net n' (set_backend b' x)).
Proof. exact (upd_upd p c c' (set_net n' (set_backend b' x))). Qed.

Lemma wrote_trans p c x h c1 n1 b1 s :
  kin c c1 -> sent_some (cn_fd c) (unsent c) (unsent c1) (wk_net x) n1 -> cn_closing c1 = cn_closing c ->
  wrote p c1 (upd_conn p c1 (set_net n1 (set_backend b1 x))) h s -> wrote p c x h s.
Proof.
  intros Hk Hs Hcl (c2 & n2 & b2 & -> & Hk2 & Hs2 & Hcl2). exists c2, n2, b2. rewrite upd_net. split; [done |]. split; [by eapply kin_trans |].
  split; [| by rewrite <- Hcl]. destruct Hk as [[_ Hfd _ _] _ _ _]. rewrite Hfd in Hs2. by eapply sent_trans.
Qed.

Lemma kin_advance c k : conn_wf c -> 0 <= k <= zlen (unsent c) -> kin c (with_write (cn_write c) (cn_write_off c + k) c).
Proof.
  intros [? ? Ho ? ?] Hk. unfold unsent in Hk. rewrite zlen_zdrop in Hk by done.
  constructor; [constructor | ..]; try done. constructor; try done. cbn. unfold b_len in *. lia.
Qed.

Lemma set_backend_id x : set_backend (wk_backend x) x = x.
Proof. by destruct x. Qed.

Lemma wrote_one p c x h n c' :
  conns x !! p = Some c -> kin c c' -> unsent c' = unsent c -> unsent c <> [] -> net_quiet (wk_net x) n ->
  wrote p c x h (upd_conn p c' (set_net n x), h).
Proof.
  intros Hc Hk Hu Hne Hn. exists c', n, (wk_backend x). split; [by destruct x |]. split; [done |]. rewrite Hu. split; [by apply sent_none | done].
Qed.

Definition drained c : wirecall_connection :=
  with_write {| b_ptr := b_ptr (cn_write c); b_bytes := []; b_cap := b_cap (cn_write c) |} 0 c.

Lemma kin_drained c : conn_wf c -> kin c (drained c).
Proof.
  intros [W1 W2 W3 W4 W5]. constructor; [constructor | ..]; try done. constructor; try done.
  - apply buffer_drop_ok; [done | apply bytes_ok_nil | apply zlen_nonneg].
  - intros Hd. destruct (W5 Hd) as (? & Hw & ?). split_and!; [done | | done]. cbn. by rewrite Hw.
Qed.

Lemma unsent_nil c : conn_wf c -> unsent c = [] <-> cn_write_off c = b_len (cn_write c).
Proof.
  intros Hwf. pose proof (cw_off c Hwf) as Ho. assert (E : zlen (unsent c) = b_len (cn_write c) - cn_write_off c) by by apply zlen_zdrop.
  split; [intros Hu; rewrite Hu in E; change (zlen []) with 0 in E; lia | intros; apply zlen_0_nil; lia].
Qed.

(** the end of connection_write, when everything is sent *)
Lemma write_end_spec p c x h E :
  conns x !! p = Some c -> conn_wf c -> unsent c = [] ->
  wp (put_conn p (drained c) ;;; attempt (connection_set_interests p WIRECALL_BACKEND_READ) ;;; ret tt)
    (fun _ => wrote p c x h) E (x, h).
Proof.
  intros Hc Hwf Hu. apply wp_bind. eapply wp_put_conn; [done |]. apply wp_bind, wp_attempt.
  assert (Hgo : forall c' b, kin (drained c) c' -> unsent c' = unsent (drained c) -> cn_closing c' = cn_closing (drained c) ->
    wrote p c x h (upd_conn p c' (set_backend b (upd_conn p (drained c) x)), h)).
  { intros c' b Hk Hu' Hcl. exists c', (wk_net x), b.
    split; [f_equal; transitivity (upd_conn p c' (set_backend b x)); [exact (upd_upd p (drained c) c' (set_backend b x)) | by destruct x] |].
    split; [by eapply kin_trans; [apply kin_drained |] |]. rewrite Hu', Hu. split; [apply sent_none, quiet_refl | done]. }
  eapply set_interests_spec; [rewrite conns_upd; apply lookup_insert_eq | by destruct (kin_drained c Hwf) as [[] _ _ _] | |];
    intros c' b Hk Hu' Hcl; apply wp_ret; by apply Hgo.
Qed.

Lemma write_loop_spec fuel p c x h E :
  conns x !! p = Some c -> conn_wf c -> cn_fd c ∈ net_open (wk_net x) ->
  (length (unsent c) + net_work (wk_net x) <= fuel)%nat ->
  wp (write_loop fuel p) (fun _ => wrote p c x h) E (x, h).
Proof.
  revert c x. induction fuel as [|fuel IH]; intros c x Hc Hwf Hfd Hfuel; pose proof (cw_off c Hwf) as Hoff;
    (assert (Hlen : zlen (unsent c) = b_len (cn_write c) - cn_write_off c) by (by apply zlen_zdrop));
    cbn [write_loop]; apply wp_bind; (eapply wp_get_conn; [done |]); destruct (cn_write_off c <? b_len (cn_write c)) eqn:Ew; zb.
  1: { unfold zlen in Hlen. lia. }
  1,3: apply write_end_spec; [done | done |]; apply unsent_nil; [done | lia].
  apply wp_bind. unfold wp at 1, side_net. change (zdrop (cn_write_off c) (b_bytes (cn_write c))) with (unsent c).
  destruct (net_send (cn_fd c) (unsent c) (wk_net x)) as [a n] eqn:Es. pose proof (law_send _ _ _ _ _ Hfd Es) as L.
  assert (Hne : unsent c <> []) by (rewrite unsent_nil by done; lia).
  assert (Hclose : net_quiet (wk_net x) n -> wp (put_conn p (with_closing c)) (fun _ => wrote p c x h) E (set_net n x, h)).
  { intros Hn. eapply wp_put_conn; [done |]. apply wrote_one; [done | by apply kin_closing | done | exact Hne | done]. }
  destruct a as [k|e].
  - destruct L as (Hk & Lo & Lr & Ls & Lw). destruct (0 <? k) eqn:Ek; zb.
    + apply wp_bind. eapply wp_put_conn; [done |].
      set (c1 := with_write (cn_write c) (cn_write_off c + k) c).
      assert (Hk1 : kin c c1) by (by apply kin_advance).
      assert (Hu1 : unsent c = ztake k (unsent c) ++ unsent c1).
      { unfold unsent at 3. cbn. rewrite <- zdrop_zdrop by lia. by rewrite ztake_zdrop. }
      assert (Hs1 : sent_some (cn_fd c) (unsent c) (unsent c1) (wk_net x) n).
      { constructor; try done; [intros d Hd; by rewrite Ls, decide_False | by rewrite Ls, decide_True, <- app_assoc, <- Hu1]. }
      assert (Hl1 : zlen (unsent c1) = zlen (unsent c) - k).
      { rewrite Hu1 at 1. rewrite zlen_app, zlen_ztake by done. lia. }
      eapply wp_mono; [apply (IH c1) | |].
      * rewrite conns_upd. apply lookup_insert_eq.
      * by destruct Hk1 as [[] _ _ _].
      * cbn. by rewrite Lo.
      * cbn. unfold zlen in *. lia.
      * intros ? s Hw. eapply (wrote_trans p c x h c1 n (wk_backend x)); [done | done | done |]. by rewrite set_backend_id.
      * done.
    + assert (k = 0) as -> by lia. apply Hclose. constructor; try done; [].
      intros d. rewrite Ls. destruct (decide (d = cn_fd c)) as [-> |]; [| done]. by rewrite ztake_0, app_nil_r.
  - destruct L as [Lq Li]. destruct (wirecall_socket_interrupted e) eqn:Ei.
    + unfold wirecall_socket_interrupted in Ei. zb. specialize (Li Ei). destruct Lq as [Lo Lr Ls Lw].
      eapply wp_mono; [apply (IH c (set_net n x)) | |]; try done; cbn; [by rewrite Lo | lia |].
      intros ? s Hw. eapply (wrote_trans p c x h c n (wk_backend x)); [by apply kin_refl | by apply sent_none | done |].
      destruct Hw as (c' & n' & b' & -> & Hk & Hs). exists c', n', b'. split; [| done]. by rewrite upd_net.
    + destruct (wirecall_socket_would_block e); [| by apply Hclose]. apply wp_bind, wp_attempt.
      eapply set_interests_spec; [done | done | |]; intros c' b Hk Hu' Hcl; apply wp_ret; exists c', n, b;
        (split; [done |]; split; [done |]; rewrite Hu'; split; [by apply sent_none | done]).
Qed.

Lemma connection_write_spec p c x h E :
  conns x !! p = Some c -> conn_wf c -> cn_fd c ∈ net_open (wk_net x) ->
  wp (connection_write p) (fun _ => wrote p c x h) E (x, h).
Proof.
  intros Hc Hwf Hfd. unfold wp at 1, connection_write. change (wp (c <- get_conn p ;; write_loop (length (b_bytes (cn_write c)) + net_work (wk_net x)) p)
    (fun _ => wrote p c x h) E (x, h)).
  apply wp_bind. eapply wp_get_conn; [done |]. apply write_loop_spec; try done. unfold unsent, zdrop. rewrite length_drop. lia.
Qed.
End Write.

(** ** Closing *)

(** between operations, with a flush list and a list of completed calls taken *)
Definition busy (flush drain : list Z) : ghost := {| g_hole := None; g_ending := None; g_flush := flush; g_drain := drain |}.
Definition ending (p : Z) (flush drain : list Z) : ghost := {| g_hole := None; g_ending := Some p; g_flush := flush; g_drain := drain |}.

Lemma filter_without (p : Z) (l : list Z) : p ∉ l -> filter (fun q => q <> p) l = l.
Proof.
  induction l as [|q l IH]; [done |]. rewrite elem_of_cons. intros Hp. rewrite filter_cons_True by naive_solver.
  rewrite IH; naive_solver.
Qed.

(** the deferred calls that name a connection *)
Lemma named_lookup q k d (m : gmap Z wirecall_deferred) :
  m !! k = Some d -> named q m ≡ₚ (if decide (df_conn d = q) then [df_conn d] else []) ++ named q (delete k m).
Proof.
  intros Hk. unfold named. rewrite (collect_lookup _ m k d Hk), list.filter_app. f_equiv.
  cbn. by destruct (decide (df_conn d = q)).
Qed.

Lemma named_insert q k d (m : gmap Z wirecall_deferred) :
  named q (<[k := d]> m) ≡ₚ (if decide (df_conn d = q) then [df_conn d] else []) ++ named q (delete k m).
Proof. rewrite (named_lookup q k d) by apply lookup_insert_eq. by rewrite delete_insert_eq. Qed.

Lemma named_none q k d (m : gmap Z wirecall_deferred) : zlen (named q m) = 0 -> m !! k = Some d -> df_conn d <> q.
Proof.
  intros Hz Hk Hq. apply zlen_0_nil in Hz. pose proof (named_lookup q k d m Hk) as Hp.
  rewrite Hz, decide_True in Hp by done. by apply Permutation_nil_cons in Hp.
Qed.

Section Close.
Context `{HH : Host} `{HP : Heap W} `{NN : Net K} `{BB : Backend B}.
Implicit Types (x : side K B) (h : W) (p q : Z) (c : wirecall_connection) (g : ghost) (n : K) (ps : Z -> Prop).

(** what an operation that works on the connections [ps] leaves alone *)
Record frame ps x x' : Prop := {
  fr_live : forall q c, ~ ps q -> conns x !! q = Some c -> cn_detached c = false ->
    exists c', conns x' !! q = Some c' /\ cn_detached c' = false /\ cn_fd c' = cn_fd c /\ keeps_data c c';
  fr_config : sv_integrity x' = sv_integrity x /\ sv_mac_key x' = sv_mac_key x /\ sv_worker_count x' = sv_worker_count x /\
    sv_stopping x' = sv_stopping x /\ sv_routes x' = sv_routes x /\ sv_log x' = sv_log x /\ wk_index x' = wk_index x;
  fr_work : (net_work (wk_net x') <= net_work (wk_net x))%nat;
  fr_fault : wk_fault x' = wk_fault x;
}.

Lemma frame_refl ps x : frame ps x x.
Proof. constructor; try done. intros q c _ Hc Hd. by exists c. Qed.

Lemma frame_trans ps x1 x2 x3 : frame ps x1 x2 -> frame ps x2 x3 -> frame ps x1 x3.
Proof.
  intros [F1 (?&?&?&?&?&?&?) F3 F4] [G1 (?&?&?&?&?&?&?) G3 G4]. constructor; [| split_and!; congruence | lia | congruence].
  intros q c Hps Hc Hd. destruct (F1 q c Hps Hc Hd) as (c' & Hc' & Hd' & Hf & ?). destruct (G1 q c' Hps Hc' Hd') as (c'' & ? & ? & ? & ?).
  exists c''. split_and!; [done | done | congruence | by etrans].
Qed.

Lemma frame_weaken ps ps' x x' : (forall q, ps q -> ps' q) -> frame ps x x' -> frame ps' x x'.
Proof. intros Hp []. constructor; try done. intros q c Hq. apply fr_live0. auto. Qed.

(** a change that leaves the connections, the configuration and the network *)
Lemma frame_same_conns ps x x' :
  conns x' = conns x ->
  sv_integrity x' = sv_integrity x /\ sv_mac_key x' = sv_mac_key x /\ sv_worker_count x' = sv_worker_count x /\
    sv_stopping x' = sv_stopping x /\ sv_routes x' = sv_routes x /\ sv_log x' = sv_log x /\ wk_index x' = wk_index x ->
  (net_work (wk_net x') <= net_work (wk_net x))%nat -> wk_fault x' = wk_fault x -> frame ps x x'.
Proof. intros Hc ? ? ?. constructor; try done. intros q c _ Hq Hd. exists c. by rewrite Hc. Qed.

Lemma frame_upd p c x : frame (eq p) x (upd_conn p c x).
Proof.
  constructor; try done. intros q cq Hq Hc Hd. exists cq. rewrite conns_upd, lookup_insert_ne by done. done.
Qed.

Lemma unlink_spec p l x h (Q : list Z -> wstate -> Prop) E :
  (forall q, q ∈ l -> is_Some (conns x !! q)) -> NoDup l -> Q (filter (fun q => q <> p) l) (x, h) -> wp (unlink p l) Q E (x, h).
Proof.
  revert Q. induction l as [|q l IH]; intros Q Hl Hnd HQ; cbn [unlink]; [by apply wp_ret |].
  apply list.NoDup_cons in Hnd as [Hq Hnd]. destruct (q =? p) eqn:Eq; zb.
  - apply wp_ret. subst q. rewrite filter_cons_False in HQ by naive_solver. by rewrite filter_without in HQ.
  - destruct (Hl q) as [c Hc]; [apply elem_of_cons; by left |]. apply wp_bind. eapply wp_get_conn; [done |].
    apply wp_bind. apply IH; [intros y Hy; apply Hl; apply elem_of_cons; by right | done |]. apply wp_ret.
    by rewrite filter_cons_True in HQ.
Qed.

(** the state once a connection is detached *)
Definition detached p c b x : side K B :=
  upd_conn p (detach c)
    (set_writes (filter (fun q => q <> p) (wk_pending_writes x))
       (set_connections (filter (fun q => q <> p) (wk_connections x))
          (set_net (net_close (cn_fd c) (wk_net x)) (set_backend b x)))).
Definition detached_heap c h : W := heap_free_opt (b_ptr (cn_write c)) (heap_free_opt (b_ptr (cn_read c)) h).

Lemma detach_wf c : conn_wf (detach c).
Proof. by constructor; cbn; try apply no_buffer_ok. Qed.

Lemma sk_detach base fbase fl dl extra fextra x h p c b :
  side_ok base fbase (busy fl dl) extra fextra x h -> conns x !! p = Some c -> cn_detached c = false -> p ∉ fl ->
  side_ok base fbase (ending p fl dl) extra fextra (detached p c b x) (detached_heap c h).
Proof.
  intros [Ka Kd Kc Kk Kw Kcw Kdw [Kl1 Kl2] [Kq1 Kq2] Kcm Kh Kn Kdt Ko Kf] Hc Hd Hfl.
  assert (Hcu : conns (detached p c b x) = <[p := detach c]> (conns x)) by exact (conns_upd p (detach c) x).
  constructor; try done; rewrite ?Hcu.
  - destruct Ka as [fl0 Ka]. exists fl0. by eapply store_ok.
  - intros q cq. rewrite lookup_insert_Some. intros [[<- <-] | [_ Hq]]; [apply detach_wf | by eapply Kcw].
  - intros q dq Hq. destruct (Kdw q dq Hq) as [? ?]. split; [done |]. rewrite lookup_insert_is_Some.
    destruct (decide (p = df_conn dq)); auto.
  - split; [by apply list.NoDup_filter |]. intros q. cbn [detached upd_conn set_conns set_writes set_connections wk_connections].
    rewrite list_elem_of_filter, Kl2. destruct (decide (q = p)) as [-> | Hne].
    + rewrite lookup_insert_eq. split; [naive_solver | by intros (? & [= <-] & ?)].
    + rewrite lookup_insert_ne by done. naive_solver.
  - cbn [ending busy g_flush] in *. cbn [detached upd_conn set_conns set_writes wk_pending_writes].
    assert (Hff : filter (fun q => q <> p) (wk_pending_writes x) ++ fl = filter (fun q => q <> p) (wk_pending_writes x ++ fl)).
    { rewrite list.filter_app. f_equal. symmetry. by apply filter_without. }
    rewrite Hff. split; [by apply list.NoDup_filter |]. intros q. rewrite list_elem_of_filter, Kq2.
    destruct (decide (q = p)) as [-> | Hne].
    + rewrite lookup_insert_eq. split; [naive_solver | by intros (? & [= <-] & ?)].
    + rewrite lookup_insert_ne by done. naive_solver.
  - intros q cq. rewrite lookup_insert_Some. intros [[<- <-] | [_ Hq]]; [exact (Kn p c Hc) | by apply Kn].
  - intros q cq. rewrite lookup_insert_Some. cbn. intros [[<- <-] | [Hne Hq]] Hdq Hg; [done |]. by eapply Kdt.
  - rewrite (collect_insert conn_blocks). rewrite (collect_lookup conn_blocks _ _ _ Hc) in Ko. unfold conn_blocks at 1 in Ko.
    rewrite <- !app_assoc in Ko. apply owns_free_opt, owns_free_opt in Ko. exact Ko.
  - rewrite (collect_insert conn_fds). rewrite (collect_lookup conn_fds _ _ _ Hc) in Kf. unfold conn_fds at 1 in Kf. rewrite Hd in Kf.
    apply descs_close in Kf. exact Kf.
Qed.

(** a detached connection that is still counted stays *)
Lemma sk_keep base fbase fl dl extra fextra x h p c :
  side_ok base fbase (ending p fl dl) extra fextra x h -> conns x !! p = Some c -> 0 < cn_pending_deferred c ->
  side_ok base fbase (busy fl dl) extra fextra x h.
Proof.
  intros [] Hc Hp. constructor; try done. intros q cq Hq Hd _. destruct (decide (q = p)) as [-> | Hne]; [congruence |].
  eapply sk_detached0; try done. cbn. congruence.
Qed.

Lemma sk_free base fbase fl dl extra fextra x h p c a :
  side_ok base fbase (ending p fl dl) extra fextra x h -> conns x !! p = Some c -> cn_detached c = true ->
  cn_pending_deferred c = 0 -> arena_ok a -> in_use a.2 = delete p (conns x) ->
  side_ok base fbase (busy fl dl) extra fextra (set_conns a x) h.
Proof.
  intros [Ka Kd Kc Kk Kw Kcw Kdw [Kl1 Kl2] [Kq1 Kq2] Kcm Kh Kn Kdt Ko Kf] Hc Hd Hp Ha Hu.
  assert (Hcu : conns (set_conns a x) = delete p (conns x)) by exact Hu.
  pose proof (cw_detached c (Kcw p c Hc) Hd) as (Hr & Hw & Hq).
  constructor; try done; rewrite ?Hcu.
  - intros q cq [_ Hcq]%lookup_delete_Some. by eapply Kcw.
  - intros q dq Hdq. destruct (Kdw q dq Hdq) as [? ?]. split; [done |]. rewrite lookup_delete_ne; [done |].
    intros Heq. eapply (named_none p); [| exact Hdq | done]. rewrite <- Hp. symmetry. by apply Kn.
  - split; [done |]. intros q. rewrite Kl2. destruct (decide (q = p)) as [-> | Hne].
    + rewrite lookup_delete_eq, Hc. split; [intros (? & [= <-] & ?); congruence | naive_solver].
    + by rewrite lookup_delete_ne by done.
  - split; [done |]. intros q. rewrite Kq2. destruct (decide (q = p)) as [-> | Hne].
    + rewrite lookup_delete_eq, Hc. split; [intros (? & [= <-] & ?); congruence | naive_solver].
    + by rewrite lookup_delete_ne by done.
  - intros q cq [_ Hcq]%lookup_delete_Some. by apply Kn.
  - intros q cq [Hne Hcq]%lookup_delete_Some Hdq _. eapply Kdt; [done | done |]. cbn. congruence.
  - rewrite (collect_lookup conn_blocks _ _ _ Hc) in Ko. unfold conn_blocks at 1 in Ko. by rewrite Hr, Hw in Ko.
  - rewrite (collect_lookup conn_fds _ _ _ Hc) in Kf. unfold conn_fds at 1 in Kf. by rewrite Hd in Kf.
Qed.

(** the end of connection_destroy *)
Lemma destroy_end base fbase fl dl extra fextra x h p c E :
  side_ok base fbase (ending p fl dl) extra fextra x h -> conns x !! p = Some c -> cn_detached c = true ->
  wp (c <- get_conn p ;; (if negb (cn_pending_deferred c =? 0) then ret tt else on_conns (wirecall_fixed_arena_free (Some p))))
    (fun _ '(x', h') => side_ok base fbase (busy fl dl) extra fextra x' h' /\ frame (eq p) x x') E (x, h).
Proof.
  intros Hk Hc Hd. apply wp_bind. eapply wp_get_conn; [done |]. destruct (cn_pending_deferred c =? 0) eqn:Ep; cbn [negb]; zb.
  - pose proof (sk_conns _ _ _ _ _ _ _ Hk) as [fl0 Ha]. destruct (wk_conns x) as [a m] eqn:Ex.
    assert (Hm : in_use m !! p = Some c) by (unfold conns in Hc; by rewrite Ex in Hc).
    destruct (free_spec a m fl0 p c Ha Hm) as (s' & Hfree & Hok & Hu & _).
    unfold wp, on_conns. rewrite Ex, Hfree. split.
    + eapply sk_free; try done. unfold conns. by rewrite Ex.
    + constructor; try done. intros q cq Hq Hcq Hdq. exists cq. split; [| done]. unfold conns in *. cbn.
      rewrite Ex in Hcq. rewrite Hu. by rewrite lookup_delete_ne.
  - apply wp_ret. split; [| apply frame_refl]. eapply sk_keep; try done.
    pose proof (sk_count _ _ _ _ _ _ _ Hk p c Hc). pose proof (zlen_nonneg (named p (without (g_hole (ending p fl dl)) (defs x)))). lia.
Qed.

Lemma frame_detached p c b x : cn_fd c ∈ net_open (wk_net x) -> frame (eq p) x (detached p c b x).
Proof.
  intros Hfd. constructor; try done.
  - intros q cq Hq Hcq Hdq. exists cq. split; [| done].
    change (conns (detached p c b x)) with (conns (upd_conn p (detach c) x)). by rewrite conns_upd, lookup_insert_ne.
  - cbn. by destruct (law_close _ _ Hfd) as (_ & ? & _).
Qed.

Lemma connection_destroy_spec base fbase fl dl extra fextra x h p c E :
  side_ok base fbase (busy fl dl) extra fextra x h -> conns x !! p = Some c -> cn_detached c = false -> p ∉ fl ->
  wp (connection_destroy (Some p))
    (fun _ '(x', h') => side_ok base fbase (busy fl dl) extra fextra x' h' /\ frame (eq p) x x') E (x, h).
Proof.
  intros Hk Hc Hd Hfl. pose proof (sk_fd_open _ _ _ _ _ _ _ _ _ Hk Hc Hd) as Hfd.
  pose proof Hk as [_ _ _ _ _ _ _ [Kl1 Kl2] [Kq1 Kq2] _ _ _ _ _ _].
  cbn [connection_destroy]. apply wp_bind. eapply wp_get_conn; [done |]. rewrite Hd.
  set (b := be_remove (wk_index x) (cn_fd c) (wk_backend x)).
  assert (Hfin : forall E', wp (c0 <- get_conn p ;;
      (if negb (cn_pending_deferred c0 =? 0) then ret tt else on_conns (wirecall_fixed_arena_free (Some p))))
      (fun _ '(x', h') => side_ok base fbase (busy fl dl) extra fextra x' h' /\ frame (eq p) x x') E' (detached p c b x, detached_heap c h)).
  { intros E'. pose proof (sk_detach _ _ _ _ _ _ _ _ _ _ b Hk Hc Hd Hfl) as Hk'.
    eapply wp_mono; [eapply (destroy_end _ _ _ _ _ _ _ _ _ (detach c) E' Hk'); [| done] | | done].
    - change (conns (detached p c b x)) with (conns (upd_conn p (detach c) x)). rewrite conns_upd. apply lookup_insert_eq.
    - intros _ [x' h'] [? Hf]. split; [done |]. eapply frame_trans; [by apply frame_detached | done]. }
  apply wp_bind. apply wp_bind, wp_gets_side. apply wp_bind, wp_backend_do. apply wp_bind, wp_net_modify.
  apply wp_bind, wp_mem_modify. apply wp_bind, wp_mem_modify. apply wp_bind, wp_gets_side. apply wp_bind. apply unlink_spec; [| done |].
  { intros q Hq. apply Kl2 in Hq as (cq & Hcq & _). by exists cq. }
  apply wp_bind, wp_upd_side. apply wp_bind. destruct (cn_write_queued c) eqn:Eq.
  - apply wp_bind, wp_gets_side. cbn [busy g_flush] in *. apply wp_bind. apply unlink_spec; [| by apply list.NoDup_app in Kq1 as (? & _) |].
    { intros q Hq. destruct (Kq2 q) as [Hin _]. destruct Hin as (cq & Hcq & _); [apply elem_of_app; by left | by exists cq]. }
    apply wp_upd_side. eapply wp_put_conn; [done |]. apply Hfin.
  - apply wp_ret. eapply wp_put_conn; [done |].
    assert (Hw : filter (fun q => q <> p) (wk_pending_writes x) = wk_pending_writes x).
    { apply filter_without. intros Hin. destruct (Kq2 p) as [Hq _]. destruct Hq as (cq & Hcq & ?); [apply elem_of_app; by left |]. congruence. }
    specialize (Hfin E). unfold detached in Hfin. rewrite Hw in Hfin. exact Hfin.
Qed.

Definition anyone (q : Z) : Prop := True.

Lemma maybe_close_spec base fbase fl dl extra fextra x h p c E :
  side_ok base fbase (busy fl dl) extra fextra x h -> conns x !! p = Some c -> cn_detached c = false -> p ∉ fl ->
  wp (maybe_close p)
    (fun _ '(x', h') => side_ok base fbase (busy fl dl) extra fextra x' h' /\ frame (eq p) x x') E (x, h).
Proof.
  intros Hk Hc Hd Hfl. unfold maybe_close. apply wp_bind. eapply wp_get_conn; [done |]. apply wp_if; intros _.
  - by eapply connection_destroy_spec.
  - apply wp_ret. split; [done | apply frame_refl].
Qed.

(** *** Flushing *)
Lemma sk_kin base fbase g extra fextra x h p c c' :
  side_ok base fbase g extra fextra x h -> conns x !! p = Some c -> kin c c' -> side_ok base fbase g extra fextra (upd_conn p c' x) h.
Proof.
  intros Hk Hc [Hs Hq Hr Hp]. eapply sk_put; try done. intros l. unfold conn_blocks. by rewrite Hr, Hp.
Qed.

Lemma wrote_ok base fbase g extra fextra x h p c x' h' :
  side_ok base fbase g extra fextra x h -> conns x !! p = Some c -> wrote p c x h (x', h') ->
  side_ok base fbase g extra fextra x' h' /\ frame (eq p) x x' /\
  exists c', conns x' !! p = Some c' /\ kin c c' /\ (unsent c' = [] -> cn_closing c' = cn_closing c).
Proof.
  intros Hk Hc (c' & n & b & [= -> ->] & Hkin & [So _ _ _ Sw] & Hcl). split; [| split].
  - eapply sk_kin; [apply sk_net; [by apply sk_backend | done] | done | done].
  - constructor; try done. intros q cq Hq Hcq Hdq. exists cq. rewrite conns_upd, lookup_insert_ne by done. done.
  - exists c'. rewrite conns_upd. split; [apply lookup_insert_eq | done].
Qed.

Lemma sk_unqueue base fbase fl dl extra fextra x h p c :
  side_ok base fbase (busy (p :: fl) dl) extra fextra x h -> conns x !! p = Some c ->
  side_ok base fbase (busy fl dl) extra fextra (upd_conn p (with_queued false c) x) h.
Proof.
  intros Hk Hc. pose proof Hk as [Ka Kd Kc Kk Kw Kcw Kdw Kl [Kq1 Kq2] Kcm Kh Kn Kdt Ko Kf]. cbn [busy g_flush] in *.
  rewrite <- Permutation_middle in Kq1. apply list.NoDup_cons in Kq1 as [Kp Kq1].
  eapply (sk_conn_step _ _ (busy (p :: fl) dl) (busy fl dl) extra extra _ x h h p c (with_queued false c) (wk_pending_writes x)); try done.
  - destruct (Kcw p c Hc) as [? ? ? ? Hdet]. constructor; try done. intros Hd. by destruct (Hdet Hd) as (? & ? & _).
  - intros q. cbn [busy g_flush]. rewrite elem_of_app in Kp.
    destruct (decide (q = p)) as [-> | Hne]; rewrite !elem_of_app, ?elem_of_cons; naive_solver.
  - exact (Kn p c Hc).
  - intros Hd Hg. exact (Kdt p c Hc Hd Hg).
Qed.

Lemma flush_loop_spec base fbase fl dl extra fextra x h E :
  side_ok base fbase (busy fl dl) extra fextra x h ->
  wp (flush_loop fl)
    (fun _ '(x', h') => side_ok base fbase (busy [] dl) extra fextra x' h' /\ frame anyone x x') E (x, h).
Proof.
  revert x h. induction fl as [|p fl IH]; intros x h Hk; cbn [flush_loop].
  { apply wp_ret. split; [done | apply frame_refl]. }
  destruct (proj2 (sk_writes _ _ _ _ _ _ _ Hk) p) as [Hin _].
  destruct Hin as (c & Hc & Hq); [apply elem_of_app; right; apply elem_of_cons; by left |].
  pose proof (sk_conn_wf _ _ _ _ _ _ _ Hk p c Hc) as Hwf.
  assert (Hd : cn_detached c = false).
  { destruct (cn_detached c) eqn:Ed; [| done]. destruct (cw_detached c Hwf Ed) as (_ & _ & ?). congruence. }
  assert (Hfl : p ∉ fl).
  { destruct (sk_writes _ _ _ _ _ _ _ Hk) as [Hnd _]. cbn in Hnd. apply list.NoDup_app in Hnd as (_ & _ & Hnd).
    by apply list.NoDup_cons in Hnd as [? _]. }
  pose proof (sk_unqueue _ _ _ _ _ _ _ _ _ _ Hk Hc) as Hk1. set (c1 := with_queued false c) in *. set (x1 := upd_conn p c1 x) in *.
  assert (Hc1 : conns x1 !! p = Some c1) by (subst x1; rewrite conns_upd; apply lookup_insert_eq).
  apply wp_bind. eapply wp_get_conn; [done |]. apply wp_bind. eapply wp_put_conn; [done |]. apply wp_bind.
  assert (Hrest : forall x2 h2 c2, side_ok base fbase (busy fl dl) extra fextra x2 h2 -> frame (eq p) x1 x2 ->
    conns x2 !! p = Some c2 -> cn_detached c2 = false ->
    wp (maybe_close p ;;; flush_loop fl)
      (fun _ '(x', h') => side_ok base fbase (busy [] dl) extra fextra x' h' /\ frame anyone x x') E (x2, h2)).
  { intros x2 h2 c2 Hk2 Hf2 Hc2 Hd2. apply wp_bind. eapply wp_mono; [by eapply maybe_close_spec | | done].
    intros _ [x3 h3] [Hk3 Hf3]. eapply wp_mono; [by apply IH | | done]. intros _ [x4 h4] [Hk4 Hf4]. split; [done |].
    assert (Hany : forall y z, frame (eq p) y z -> frame anyone y z) by (intros y z; by apply frame_weaken).
    eapply frame_trans; [apply Hany, (frame_upd p c1) |]. eapply frame_trans; [by apply Hany |].
    eapply frame_trans; [by apply Hany | done]. }
  apply wp_if; intros _.
  - eapply wp_mono; [apply (connection_write_spec p c1) | | done].
    + done.
    + by eapply sk_conn_wf.
    + by eapply sk_fd_open.
    + intros _ [x2 h2] Hw. destruct (wrote_ok _ _ _ _ _ _ _ _ _ _ _ Hk1 Hc1 Hw) as (Hk2 & Hf2 & c2 & Hc2 & [[_ _ Hd2 _] _ _ _] & _).
      apply (Hrest x2 h2 c2 Hk2 Hf2 Hc2). by rewrite Hd2.
  - apply wp_ret. by apply (Hrest x1 h c1 Hk1 (frame_refl _ _) Hc1).
Qed.

Lemma worker_flush_spec base fbase dl extra fextra x h E :
  side_ok base fbase (busy [] dl) extra fextra x h ->
  wp worker_flush_writes
    (fun _ '(x', h') => side_ok base fbase (busy [] dl) extra fextra x' h' /\ frame anyone x x') E (x, h).
Proof.
  intros Hk. unfold worker_flush_writes. apply wp_bind, wp_gets_side. apply wp_bind, wp_upd_side.
  eapply wp_mono; [apply (flush_loop_spec base fbase (wk_pending_writes x) dl extra fextra (set_writes [] x) h E) | | done].
  2: { intros _ [x' h'] [? Hf]. split; [done |]. eapply frame_trans; [| exact Hf]. by apply (frame_same_conns anyone x). }
  destruct Hk as [Ka Kd Kc Kk Kw Kcw Kdw Kl Kq Kcm Kh Kn Kdt Ko Kf]. constructor; try done.
  cbn in *. by rewrite app_nil_r in Kq.
Qed.
End Close.

(** ** New connections *)
Lemma named_nil q (m : gmap Z wirecall_deferred) : (forall k d, m !! k = Some d -> df_conn d <> q) -> named q m = [].
Proof.
  intros Hm. destruct (named q m) as [|y l] eqn:E; [done |]. exfalso.
  assert (Hy : y ∈ named q m) by (rewrite E; apply elem_of_cons; by left).
  unfold named in Hy. apply list_elem_of_filter in Hy as [-> Hy]. unfold collect in Hy.
  apply list_elem_of_In, in_concat in Hy as (l0 & Hl0 & Hq). apply in_map_iff in Hl0 as ([k d] & <- & Hk).
  apply list_elem_of_In, elem_of_map_to_list in Hk. destruct Hq as [Hq | []]. by apply (Hm k d).
Qed.

Lemma lookup_without {A} hole (m : gmap Z A) k a : without hole m !! k = Some a -> m !! k = Some a.
Proof. destruct hole; cbn; [rewrite lookup_delete_Some; by intros [_ ?] | done]. Qed.

Section Accept.
Context `{HH : Host} `{HP : Heap W} `{NN : Net K} `{BB : Backend B}.
Implicit Types (x : side K B) (h : W) (p q fd : Z) (c : wirecall_connection) (g : ghost) (n : K).

Definition none (q : Z) : Prop := False.

Lemma new_conn_wf fd : 0 <= fd -> conn_wf (with_fd fd zero_connection).
Proof. intros. by constructor; cbn; try apply no_buffer_ok. Qed.

Lemma sk_new base fbase g extra fextra x h a p fd :
  side_ok base fbase g extra (fd :: fextra) x h -> arena_ok a -> conns x !! p = None ->
  in_use a.2 = <[p := with_fd fd zero_connection]> (conns x) ->
  side_ok base fbase g extra fextra (set_connections (p :: wk_connections x) (set_conns a x)) h.
Proof.
  intros [Ka Kd Kc Kk Kw Kcw Kdw [Kl1 Kl2] [Kq1 Kq2] Kcm Kh Kn Kdt Ko Kf] Ha Hp Hu.
  set (c := with_fd fd zero_connection) in *.
  assert (Hcu : conns (set_connections (p :: wk_connections x) (set_conns a x)) = <[p := c]> (conns x)) by exact Hu.
  assert (Hfd : 0 <= fd).
  { destruct Kf as (_ & Hd & _). apply (Hd fd). rewrite !elem_of_app, elem_of_cons. auto. }
  constructor; try done; rewrite ?Hcu.
  - intros q cq. rewrite lookup_insert_Some. intros [[<- <-] | [_ Hq]]; [by apply new_conn_wf | by eapply Kcw].
  - intros q dq Hq. destruct (Kdw q dq Hq) as [? ?]. split; [done |]. rewrite lookup_insert_is_Some.
    destruct (decide (p = df_conn dq)); auto.
  - cbn [set_connections wk_connections]. split; [constructor; [| done]; rewrite Kl2; intros (? & ? & _); congruence |].
    intros q. rewrite elem_of_cons, Kl2. destruct (decide (q = p)) as [-> | Hne].
    + rewrite lookup_insert_eq. split; [intros _; by exists c | by left].
    + rewrite lookup_insert_ne by done. naive_solver.
  - split; [done |]. intros q. rewrite Kq2. destruct (decide (q = p)) as [-> | Hne].
    + rewrite lookup_insert_eq, Hp. split; [naive_solver | by intros (? & [= <-] & ?)].
    + by rewrite lookup_insert_ne.
  - intros q cq. rewrite lookup_insert_Some. intros [[<- <-] | [_ Hq]]; [| by apply Kn].
    rewrite named_nil; [done |]. intros k d Hk%lookup_without Hdp. destruct (Kdw k d Hk) as [_ Hs]. rewrite Hdp, Hp in Hs. by destruct Hs.
  - intros q cq. rewrite lookup_insert_Some. intros [[<- <-] | [_ Hq]]; [done | by apply Kdt].
  - rewrite (collect_insert_new conn_blocks) by done. exact Ko.
  - rewrite (collect_insert_new conn_fds) by done. cbn [conn_fds c with_fd cn_detached zero_connection cn_fd].
    revert Kf. apply descs_perm; [| done]. cbn. by rewrite !(Permutation_middle _ _ fd).
Qed.

Lemma frame_none_any ps x x' : frame none x x' -> frame ps x x'.
Proof. by apply frame_weaken. Qed.

Lemma frame_backend ps x b : frame ps x (set_backend b x).
Proof. by apply frame_same_conns. Qed.

(** a connection that was not there before is nobody's business *)
Lemma frame_new p x1 x2 x3 : conns x1 !! p = None -> frame none x1 x2 -> frame (eq p) x2 x3 -> frame none x1 x3.
Proof.
  intros Hp [G1 (?&?&?&?&?&?&?) G3 G4] [F1 (?&?&?&?&?&?&?) F3 F4].
  constructor; [| split_and!; congruence | lia | congruence]. intros q cq Hq Hcq Hd.
  destruct (G1 q cq Hq Hcq Hd) as (c' & Hc' & Hd' & Hfd' & ?). destruct (F1 q c') as (c'' & ? & ? & ? & ?); [intros <-; congruence | done | done |].
  exists c''. split_and!; [done | done | congruence | by etrans].
Qed.

(** a descriptor that is given up *)
Lemma sk_close base fbase g extra fextra x h fd :
  side_ok base fbase g extra (fd :: fextra) x h ->
  side_ok base fbase g extra fextra (set_net (net_close fd (wk_net x)) x) h /\ frame none x (set_net (net_close fd (wk_net x)) x).
Proof.
  intros Hk. pose proof (sk_descs _ _ _ _ _ _ _ Hk) as Kf.
  assert (Hkf : descs fbase (fd :: collect conn_fds (conns x) ++ collect (map snd) (sv_pendings x) ++ fextra) (wk_net x)).
  { revert Kf. apply descs_perm; [| done]. by rewrite <- !(Permutation_middle _ _ fd). }
  split; [destruct Hk; constructor; try done; by apply descs_close |].
  apply frame_same_conns; try done. cbn. destruct (law_close fd (wk_net x)) as (_ & ? & _); [| done].
  eapply descs_in; [exact Hkf |]. apply elem_of_cons. by left.
Qed.

Lemma worker_add_connection_spec base fbase fl dl extra fextra x h fd :
  side_ok base fbase (busy fl dl) extra (fd :: fextra) x h ->
  wp (worker_add_connection fd)
    (fun _ '(x', h') => side_ok base fbase (busy fl dl) extra fextra x' h' /\ frame none x x')
    (fun '(x', h') => side_ok base fbase (busy fl dl) extra fextra x' h' /\ frame none x x') (x, h).
Proof.
  intros Hk. pose proof (sk_conns _ _ _ _ _ _ _ Hk) as [fl0 Ha].
  unfold worker_add_connection. apply wp_bind. unfold wp at 1, on_conns.
  destruct (wk_conns x) as [a m] eqn:Ex. cbn [fst snd] in Ha.
  assert (Hconns : conns x = in_use m) by (unfold conns; by rewrite Ex).
  destruct (wirecall_fixed_arena_alloc zero_connection (a, m)) as [r a'] eqn:Ea.
  destruct (alloc_spec zero_connection a m fl0 r a' Ha Ea) as [(-> & -> & _) | (p & -> & Hp & Hu & _ & _ & Hok & _)].
  - assert (set_conns (a, m) x = x) as -> by (destruct x; cbn in Ex; by subst).
    apply wp_bind, wp_net_modify. apply wp_fail.
    by apply sk_close.
  - set (x1 := set_conns a' x).
    assert (Hx1 : conns x1 !! p = Some zero_connection) by (unfold conns, x1; cbn; rewrite Hu; apply lookup_insert_eq).
    apply wp_bind. eapply wp_put_conn; [done |]. apply wp_bind, wp_upd_side. apply wp_bind, wp_gets_side. apply wp_bind.
    set (c := with_fd fd zero_connection). 
    assert (Hk2 : side_ok base fbase (busy fl dl) extra fextra (set_connections (p :: wk_connections x) (upd_conn p c x1)) h).
    { apply (sk_new base fbase (busy fl dl) extra fextra x h (a'.1, <[p := Used c]> a'.2) p fd); [done | | by rewrite Hconns |].
      - destruct Hok as [fl1 Hok]. exists fl1. eapply store_ok; [done |]. rewrite Hu. apply lookup_insert_eq.
      - cbn [snd]. by rewrite in_use_insert_used, Hu, insert_insert_eq, Hconns. }
    set (x2 := set_connections (p :: wk_connections x) (upd_conn p c x1)) in *.
    assert (Hc2 : conns x2 !! p = Some c) by (change (conns x2) with (conns (upd_conn p c x1)); rewrite conns_upd; apply lookup_insert_eq).
    assert (Hf2 : frame none x x2).
    { constructor; try done. intros q cq _ Hq Hd. exists cq. split; [| done].
      change (conns x2) with (conns (upd_conn p c x1)). rewrite conns_upd, lookup_insert_ne by (intros ->; congruence).
      unfold conns, x1. cbn. rewrite Hu, lookup_insert_ne by (intros ->; congruence). by rewrite <- Hconns. }
    assert (Hnew : forall b y, frame (eq p) (set_backend b x2) y -> frame none x y).
    { intros b y Hy. eapply frame_new; [by rewrite Hconns | exact Hf2 |]. eapply frame_trans; [by apply (frame_backend _ _ b) | done]. }
    unfold wp at 1, on_backend. destruct (be_register _ _ _ _ _) as [ok b]. destruct ok; cbn [negb].
    + apply wp_bind. eapply wp_get_conn; [exact Hc2 |]. eapply wp_put_conn; [exact Hc2 |].
      split; [eapply sk_kin; [by apply sk_backend | exact Hc2 |] |].
      * apply kin_interests. by eapply sk_conn_wf.
      * apply (Hnew b). exact (frame_upd p (with_interests WIRECALL_BACKEND_READ c) (set_backend b x2)).
    + apply wp_bind. eapply wp_mono; [eapply (connection_destroy_spec _ _ _ _ _ _ (set_backend b x2) h p c (fun _ => False)); [by apply sk_backend | exact Hc2 | done |] | |].
      * intros Hin. destruct (sk_writes _ _ _ _ _ _ _ Hk) as [_ Hq]. destruct (Hq p) as [Hq1 _].
        destruct Hq1 as (cq & Hcq & _); [apply elem_of_app; right; exact Hin |]. congruence.
      * intros _ [x3 h3] [Hk3 Hf3]. apply wp_fail. split; [done |]. by apply (Hnew b).
      * done.
Qed.

(** *** Descriptors handed over *)
Lemma sk_pendings base fbase g extra extra' fextra fextra' x h h' n m next :
  side_ok base fbase g extra fextra x h -> net_open n = net_open (wk_net x) ->
  (forall l, owns base (l ++ collect (map fst) (sv_pendings x) ++ extra) h -> owns base (l ++ collect (map fst) m ++ extra') h') ->
  collect (map snd) m ++ fextra' ≡ₚ collect (map snd) (sv_pendings x) ++ fextra ->
  side_ok base fbase g extra' fextra' (set_pendings m next (set_net n x)) h'.
Proof.
  intros [] Hn Ho Hp. constructor; try done.
  - cbn. rewrite app_assoc. apply Ho. by rewrite <- app_assoc.
  - cbn. rewrite Hp. by eapply descs_open.
Qed.

Lemma drain_pending_loop_spec base fbase fl dl extra fextra l x h E :
  side_ok base fbase (busy fl dl) (map fst l ++ extra) (map snd l ++ fextra) x h ->
  wp (drain_pending_loop l)
    (fun _ '(x', h') => side_ok base fbase (busy fl dl) extra fextra x' h' /\ frame none x x') E (x, h).
Proof.
  revert x h. induction l as [|[b fd] l IH]; intros x h Hk; cbn [drain_pending_loop].
  { apply wp_ret. split; [done | apply frame_refl]. }
  assert (Hgo : forall x1 h1, side_ok base fbase (busy fl dl) (b :: map fst l ++ extra) (map snd l ++ fextra) x1 h1 -> frame none x x1 ->
    wp (on_mem (modify (heap_free b)) ;;; drain_pending_loop l)
      (fun _ '(x', h') => side_ok base fbase (busy fl dl) extra fextra x' h' /\ frame none x x') E (x1, h1)).
  { intros x1 h1 Hk1 Hf1. apply wp_bind, wp_mem_modify. eapply wp_mono; [apply (IH x1) | | done].
    - destruct Hk1. constructor; try done. apply owns_free. revert sk_owns0. apply owns_perm; [| done].
      by rewrite <- !(Permutation_middle _ _ b).
    - intros _ [x2 h2] [? ?]. split; [done | by eapply frame_trans]. }
  apply wp_bind, wp_attempt. eapply wp_mono; [apply (worker_add_connection_spec base fbase fl dl _ _ x h fd Hk) | |].
  - intros _ [x1 h1] [Hk1 Hf1]. by apply Hgo.
  - intros [x1 h1] [Hk1 Hf1]. by apply Hgo.
Qed.

Lemma worker_drain_pending_spec base fbase fl dl extra fextra x h E :
  side_ok base fbase (busy fl dl) extra fextra x h ->
  wp worker_drain_pending
    (fun _ '(x', h') => side_ok base fbase (busy fl dl) extra fextra x' h' /\ frame none x x') E (x, h).
Proof.
  intros Hk. unfold worker_drain_pending. apply wp_bind, wp_gets_side. apply wp_bind, wp_gets_side. apply wp_bind, wp_upd_side.
  set (l := default [] (sv_pendings x !! wk_index x)).
  assert (Hsplit : forall f : Z * Z -> Z, map f l ++ collect (map f) (<[wk_index x := []]> (sv_pendings x)) ≡ₚ collect (map f) (sv_pendings x)).
  { intros f. rewrite (collect_insert (map f)), (collect_split [] (map f) eq_refl (sv_pendings x) (wk_index x)). done. }
  eapply wp_mono; [apply (drain_pending_loop_spec base fbase fl dl extra fextra l) | |].
  - replace (set_pendings _ _ x) with (set_pendings (<[wk_index x := []]> (sv_pendings x)) (sv_next_worker x) (set_net (wk_net x) x)) by (by destruct x).
    eapply sk_pendings; [done | done | |].
    + intros l0. rewrite <- (Hsplit fst). apply owns_perm; [| done]. f_equiv. rewrite <- app_assoc. apply Permutation_app_swap_app.
    + rewrite <- (Hsplit snd), <- app_assoc. apply Permutation_app_swap_app.
  - intros _ [x' h'] [? Hf]. split; [done |]. eapply frame_trans; [| exact Hf]. by apply frame_same_conns.
  - done.
Qed.

Lemma worker_enqueue_spec base fbase g extra fextra x h idx fd E :
  side_ok base fbase g extra (fd :: fextra) x h ->
  wp (worker_enqueue_connection idx fd)
    (fun _ '(x', h') => side_ok base fbase g extra fextra x' h' /\ frame none x x') E (x, h).
Proof.
  intros Hk. unfold worker_enqueue_connection. apply wp_bind, wp_on_mem. unfold wp at 1.
  destruct (heap_alloc sizeof_pending_fd h) as [[b|] h1] eqn:Ea.
  - apply wp_bind, wp_upd_side, wp_backend_do. set (m := <[idx := _]> (sv_pendings x)).
    assert (Hsplit : forall f : Z * Z -> Z, collect (map f) m ≡ₚ f (b, fd) :: collect (map f) (sv_pendings x)).
    { intros f. unfold m. rewrite (collect_insert (map f)), (collect_split [] (map f) eq_refl (sv_pendings x) idx).
      rewrite map_app. cbn [map]. rewrite <- app_assoc. cbn [app]. by rewrite <- Permutation_middle. }
    split.
    + apply (sk_backend _ _ _ _ _ (set_pendings m (sv_next_worker x) x)).
      replace (set_pendings m (sv_next_worker x) x) with (set_pendings m (sv_next_worker x) (set_net (wk_net x) x)) by (by destruct x).
      eapply sk_pendings; [done | done | |].
      * intros l Ho. rewrite (Hsplit fst). cbn [fst app]. rewrite <- Permutation_middle. eapply owns_alloc; [| done | done]. done.
      * rewrite (Hsplit snd). cbn [snd app]. apply Permutation_middle.
    + by apply frame_same_conns.
  - apply wp_net_modify. destruct (sk_close _ _ _ _ _ _ _ _ Hk) as [Hk1 Hf1]. split; [| done].
    destruct Hk1. constructor; try done. eapply owns_alloc_none; [| done | done]. done.
Qed.

Lemma accept_loop_spec base fbase g extra fextra fuel lfd x h E :
  side_ok base fbase g extra fextra x h -> lfd ∈ fbase -> (net_work (wk_net x) < fuel)%nat ->
  wp (accept_loop fuel lfd)
    (fun _ '(x', h') => side_ok base fbase g extra fextra x' h' /\ frame none x x') E (x, h).
Proof.
  revert x h. induction fuel as [|fuel IH]; intros x h Hk Hl Hw; [lia |]. cbn [accept_loop].
  assert (Hopen : lfd ∈ net_open (wk_net x)).
  { destruct (sk_descs _ _ _ _ _ _ _ Hk) as (_ & _ & ->). apply elem_of_union. by left. }
  apply wp_bind. unfold wp at 1, side_net. destruct (net_accept lfd (wk_net x)) as [a n] eqn:Ea.
  pose proof (law_accept _ _ _ _ Hopen Ea) as L.
  assert (Hagain : forall x1 h1, side_ok base fbase g extra fextra x1 h1 -> frame none x x1 -> (net_work (wk_net x1) < net_work (wk_net x))%nat ->
    wp (accept_loop fuel lfd) (fun _ '(x', h') => side_ok base fbase g extra fextra x' h' /\ frame none x x') E (x1, h1)).
  { intros x1 h1 Hk1 Hf1 Hw1. eapply wp_mono; [apply (IH x1 h1 Hk1 Hl); lia | | done].
    intros _ [x2 h2] [? ?]. split; [done | by eapply frame_trans]. }
  destruct a as [fd|e].
  - destruct L as (Hpos & Hnew & Lo & _ & _ & _ & Lw).
    assert (Hk1 : side_ok base fbase g extra (fd :: fextra) (set_net n x) h).
    { destruct Hk. constructor; try done. cbn. rewrite <- !(Permutation_middle _ _ fd). by eapply descs_add. }
    assert (Hf1 : frame none x (set_net n x)) by (apply frame_same_conns; try done; cbn; lia).
    apply wp_bind, wp_attempt. unfold wp at 1, side_net. cbn [wk_net set_net].
    destruct (wirecall_socket_set_nonblock fd n) as [r n2] eqn:En. destruct (set_nonblock_quiet fd n r n2 En) as [Hq Hr].
    assert (Hk2 : side_ok base fbase g extra (fd :: fextra) (set_net n2 (set_net n x)) h) by (apply sk_net; [done | by eapply quiet_open]).
    assert (Hf2 : frame none x (set_net n2 (set_net n x))).
    { apply frame_same_conns; try done. cbn. pose proof (quiet_work _ _ _ _ _ _ Hq). lia. }
    assert (Hw2 : (net_work n2 < net_work (wk_net x))%nat) by (pose proof (quiet_work _ _ _ _ _ _ Hq); lia).
    destruct r as [u| |]; [| | done].
    + do 2 apply wp_bind, wp_gets_side. apply wp_bind, wp_upd_side.
      pose proof (sk_workers _ _ _ _ _ _ _ Hk) as Hpw. cbn [sv_worker_count set_net].
      replace (sv_worker_count x =? 0) with false by (symmetry; apply Z.eqb_neq; lia). apply wp_bind.
      eapply wp_mono; [apply (worker_enqueue_spec base fbase g extra fextra) | |].
      * by destruct Hk2.
      * intros _ [x3 h3] [Hk3 Hf3]. apply Hagain; [done | eapply frame_trans; [exact Hf2 |]; eapply frame_trans; [| exact Hf3]; by apply frame_same_conns |].
        pose proof (fr_work _ _ _ Hf3) as Hw3. cbn in Hw3. lia.
      * done.
    + apply wp_bind, wp_net_modify. destruct (sk_close _ _ _ _ _ _ _ _ Hk2) as [Hk3 Hf3].
      apply Hagain; [done | by eapply frame_trans |]. pose proof (fr_work _ _ _ Hf3) as Hw3. cbn in Hw3. cbn. lia.
  - destruct L as [Lq Li]. assert (Hk1 : side_ok base fbase g extra fextra (set_net n x) h) by (apply sk_net; [done | by eapply quiet_open]).
    assert (Hf1 : frame none x (set_net n x)) by (apply frame_same_conns; try done; by eapply quiet_work).
    destruct (wirecall_socket_interrupted e) eqn:Ei.
    + unfold wirecall_socket_interrupted in Ei. zb. apply Hagain; [done | done | by apply Li].
    + apply wp_ret. by split.
Qed.

Lemma accept_ready_spec base fbase g extra fextra lfd x h E :
  side_ok base fbase g extra fextra x h -> lfd ∈ fbase ->
  wp (accept_ready lfd)
    (fun _ '(x', h') => side_ok base fbase g extra fextra x' h' /\ frame none x x') E (x, h).
Proof. intros Hk Hl. apply (accept_loop_spec base fbase g extra fextra (S (net_work (wk_net x)))); [done | done | lia]. Qed.
End Accept.
