(* ===== verification/Server.v ===== *)
(** * Server: requests and the event loop of a worker (src/server.c)

    The state of a worker is that of its scheduler (Scheduler.v), whose client
    is the connection side of Connection.v: the scheduler's completion callback
    is on_call_done.  Handlers belong to the embedding program: a synchronous
    handler is a function on the response writer and the heap, an asynchronous
    one is the [segment] of the scheduler, and a deferred handler is the list of
    calls it makes on the deferred-call interface, with its result.

    Tracing is left out. *)

From stdpp Require Import strings.
From S2P Require Import Prelude Words CString Protocol Integrity Memory Payload Arena Routes Scheduler Net Connection.
#[global] Open Scope Z_scope.

(** what a deferred handler, or the thread it hands the call to, does with it *)
Inductive deferred_action :=
| DWrite (v : pvalue)
| DComplete
| DFail (message : option (list Z)).

Section Server.
Context `{HH : Host} `{HP : Heap W} `{PP : Pages P} `{NN : Net K} `{BB : Backend B}.
Variable coro_size : Z.
Variable segment : forall (handler data call_id proc_id : Z) (args : value_array) (n : nat),
  wirecall_writer -> W -> option Z * wirecall_writer * W.
Variable sync_handler : forall (handler data call_id proc_id : Z) (args : value_array),
  wirecall_writer -> W -> Z * wirecall_writer * W.
Variable deferred_handler : forall (handler data call_id proc_id : Z) (args : value_array), list deferred_action * Z.

Definition worker : Type := sched W P (side K B).

(** an operation on the connections *)
Definition on_side {A} (m : M (wstate (W := W) (K := K) (B := B)) A) : M worker A := fun s =>
  let '(r, (x, h)) := m (s_client s, s_heap s) in (r, set_client x (set_heap h s)).
(** an operation on the procedure table *)
Definition on_routes {A} (m : M (routes_env W P) A) : M worker A := fun s =>
  let '(r, e) := m {| env_routes := sv_routes (s_client s); env_heap := s_heap s; env_pages := s_pages s;
                      env_log := sv_log (s_client s) |} in
  (r, set_client (set_table (env_routes e) (env_log e) (s_client s)) (set_spages (env_pages e) (set_heap (env_heap e) s))).

(** ** Deferred calls *)
Definition deferred_write (p : Z) (v : pvalue) : M (wstate (W := W) (K := K) (B := B)) unit :=
  d <- get_def p ;;
  fun '(x, h) =>
    let '(r, (w, h)) := write_value v (df_response d, h) in
    match r with
    | UB => (UB, (x, h))
    | _ => put_def p (with_response w d) (x, h)
    end.

Definition do_action (p : Z) (a : deferred_action) : M (wstate (W := W) (K := K) (B := B)) unit :=
  match a with
  | DWrite v => deferred_write p v
  | DComplete => attempt (wirecall_deferred_complete (Some p)) ;;; ret tt
  | DFail m => attempt (wirecall_deferred_fail (Some p) m) ;;; ret tt
  end.

Fixpoint do_actions (p : Z) (l : list deferred_action) : M (wstate (W := W) (K := K) (B := B)) unit :=
  match l with
  | [] => ret tt
  | a :: rest => do_action p a ;;; do_actions p rest
  end.

(** [if (header->size > 0)]: the copy of the payload *)
Definition deferred_payload (p : Z) (size : Z) (payload : list Z) : M (wstate (W := W) (K := K) (B := B)) (option (list Z)) :=
  if 0 <? size then
    block <- on_mem (fun h => let '(b, h) := heap_alloc size h in (Ok b, h)) ;;
    match block with
    | None => fail
    | Some b =>
        bytes <- lift (buffer_bytes (Some payload) size) ;;
        d <- get_def p ;;
        put_def p (with_body (Some b) (df_args d) d) ;;;
        ret (Some bytes)
    end
  else ret None.

Definition handle_deferred_call (conn : Z) (header : wirecall_header) (route : wirecall_route) (payload : list Z)
    : M (wstate (W := W) (K := K) (B := B)) unit :=
  slot <- on_defs (wirecall_fixed_arena_alloc zero_deferred) ;;
  match slot with
  | None => queue_string_error (Some conn) (h_proc_id header) (h_call_id header) (cstring "deferred call allocation failed")
  | Some p =>
      put_def p {| df_conn := conn; df_call_id := h_call_id header; df_proc_id := h_proc_id header; df_payload := None;
                   df_payload_len := h_size header; df_args := no_values; df_response := wirecall_writer_init;
                   df_result := 0; df_error := []; df_completed := false |} ;;;
      copied <- attempt (deferred_payload p (h_size header) payload) ;;
      match copied with
      | None =>
          deferred_free (Some p) ;;;
          queue_string_error (Some conn) (h_proc_id header) (h_call_id header) (cstring "deferred payload allocation failed")
      | Some copied =>
          args <- attempt (on_mem (wirecall_payload_decode copied (h_size header) true true)) ;;
          match args with
          | None =>
              deferred_free (Some p) ;;;
              queue_string_error (Some conn) (h_proc_id header) (h_call_id header) (cstring "malformed payload")
          | Some args =>
              d <- get_def p ;;
              put_def p (with_body (df_payload d) args d) ;;;
              c <- get_conn conn ;;
              put_conn conn (with_deferred (u32 (cn_pending_deferred c + 1)) c) ;;;
              match rt_deferred_handler route with
              | None => ub
              | Some h =>
                  let '(actions, result) :=
                    deferred_handler h (rt_user_data route) (h_call_id header) (h_proc_id header) args in
                  do_actions p actions ;;;
                  d <- get_def p ;;
                  (if negb (result =? 0) && negb (df_completed d)
                   then attempt (wirecall_deferred_fail (Some p) (Some (cstring "deferred procedure failed"))) ;;; ret tt
                   else ret tt)
              end
          end
      end
  end.

(** ** Synchronous calls *)
Definition handle_sync_call (conn : Z) (header : wirecall_header) (route : wirecall_route) (payload : list Z)
    : M (wstate (W := W) (K := K) (B := B)) unit :=
  args <- attempt (on_mem (wirecall_payload_decode (Some payload) (h_size header) true true)) ;;
  match args with
  | None => queue_string_error (Some conn) (h_proc_id header) (h_call_id header) (cstring "malformed payload")
  | Some args =>
      match rt_handler route with
      | None => ub
      | Some f => fun '(x, h) =>
          let '(result, response, h) :=
            sync_handler f (rt_user_data route) (h_call_id header) (h_proc_id header) args wirecall_writer_init h in
          let '(rc, (x, h)) :=
            (if result =? 0
             then queue_packet (Some conn) WIRECALL_OP_RESPONSE WIRECALL_FLAG_NONE (h_proc_id header) (h_call_id header)
                    (writer_data response) (w_len response)
             else queue_string_error (Some conn) (h_proc_id header) (h_call_id header) (cstring "procedure failed")) (x, h) in
          let h := (wirecall_writer_free response h).2 in
          let '(r, h) := wirecall_values_free (va_ptr args) (va_cells args) h in
          (match r with UB => UB | _ => rc end, (x, h))
      end
  end.

(** ** Requests *)
Definition handle_rpc (conn : Z) (header : wirecall_header) (payload : list Z) : M worker unit :=
  route <- attempt (on_routes (wirecall_routes_lookup (h_proc_id header))) ;;
  match route with
  | None => on_side (queue_string_error (Some conn) (h_proc_id header) (h_call_id header) (cstring "unknown procedure"))
  | Some route =>
      if rt_is_deferred route then on_side (handle_deferred_call conn header route payload)
      else if negb (rt_is_async route) then on_side (handle_sync_call conn header route payload)
      else
        r <- attempt (wirecall_scheduler_submit coro_size call_done_cb (h_call_id header) (h_proc_id header)
                        (rt_handler route) (rt_user_data route) (Some payload) (h_size header) true conn) ;;
        match r with
        | None => on_side (queue_string_error (Some conn) (h_proc_id header) (h_call_id header) (cstring "scheduler failure"))
        | Some _ => ret tt
        end
  end.

(** the computed goto on the operation *)
Definition handle_packet (conn : Z) (header : wirecall_header) (payload : list Z) : M worker unit :=
  if h_op header =? op_code WIRECALL_OP_RPC then handle_rpc conn header payload
  else if h_op header =? op_code WIRECALL_OP_PING then
    on_side (queue_packet (Some conn) WIRECALL_OP_RESPONSE WIRECALL_FLAG_NONE 0 (h_call_id header) None 0)
  else if h_op header =? op_code WIRECALL_OP_DISCONNECT then
    on_side (c <- get_conn conn ;; put_conn conn (with_closing c))
  else on_side (queue_string_error (Some conn) (h_proc_id header) (h_call_id header) (cstring "unsupported operation")).

(** the body of the loop of parse_available: the offset behind the packet, or
    [None] for its breaks.  The payload is the packet's own: a read behind it
    would be undefined *)
Definition parse_one (conn : Z) (off : Z) : M worker (option Z) :=
  c <- on_side (get_conn conn) ;;
  let read := b_bytes (cn_read c) in
  header <- attempt (lift (wirecall_header_decode (Some (zdrop off read)) true)) ;;
  match header with
  | None => on_side (put_conn conn (with_closing c)) ;;; ret None
  | Some header =>
      if usize (usize (zlen read - off) - WIRECALL_HEADER_SIZE) <? h_size header then ret None
      else
        let payload := ztake (h_size header) (zdrop (off + WIRECALL_HEADER_SIZE) read) in
        integrity <- on_side (gets_side sv_integrity) ;;
        key <- on_side (gets_side sv_mac_key) ;;
        v <- attempt (lift (wirecall_packet_verify_ex (Some header) (Some payload) (h_size header) integrity (Some key))) ;;
        match v with
        | None => on_side (put_conn conn (with_closing c)) ;;; ret None
        | Some _ =>
            r <- attempt (handle_packet conn header payload) ;;
            match r with
            | None => c <- on_side (get_conn conn) ;; on_side (put_conn conn (with_closing c)) ;;; ret None
            | Some _ => ret (Some (usize (off + usize (WIRECALL_HEADER_SIZE + h_size header))))
            end
        end
  end.

(** the offset where the loop stops; every turn consumes a header *)
Fixpoint parse_loop (fuel : nat) (conn : Z) (off : Z) : M worker Z :=
  c <- on_side (get_conn conn) ;;
  if WIRECALL_HEADER_SIZE <=? usize (b_len (cn_read c) - off) then
    match fuel with
    | O => ub
    | S fuel =>
        next <- parse_one conn off ;;
        match next with
        | None => ret off
        | Some off => parse_loop fuel conn off
        end
    end
  else ret off.

Definition parse_available (conn : Z) : M worker unit :=
  c <- on_side (get_conn conn) ;;
  off <- parse_loop (length (b_bytes (cn_read c))) conn 0 ;;
  if 0 <? off then
    c <- on_side (get_conn conn) ;;
    on_side (put_conn conn (with_read {| b_ptr := b_ptr (cn_read c); b_bytes := zdrop off (b_bytes (cn_read c));
                                         b_cap := b_cap (cn_read c) |} c))
  else ret tt.

(** *** Reading *)

(** room for a chunk; UB is a failed growth that does not end *)
Definition read_room (conn : Z) : M (wstate (W := W) (K := K) (B := B)) unit :=
  c <- get_conn conn ;;
  if usize (b_cap (cn_read c) - b_len (cn_read c)) <? WIRECALL_READ_CHUNK then
    b <- on_mem (reserve_bytes (cn_read c) (usize (b_len (cn_read c) + WIRECALL_READ_CHUNK))) ;;
    put_conn conn (with_read b c)
  else ret tt.

(** recv behind the bytes of the buffer *)
Definition read_recv (conn : Z) : M (wstate (W := W) (K := K) (B := B)) recv_answer :=
  c <- get_conn conn ;;
  if (match b_ptr (cn_read c) with None => true | Some _ => false end) || (b_cap (cn_read c) <? b_len (cn_read c)) then ub
  else side_net (fun n => let '(a, n) := net_recv (cn_fd c) (b_cap (cn_read c) - b_len (cn_read c)) n in (Ok a, n)).

Fixpoint read_loop (fuel : nat) (conn : Z) : M worker unit :=
  match fuel with
  | O => ub
  | S fuel =>
      room <- attempt (on_side (read_room conn)) ;;
      match room with
      | None => on_side (c <- get_conn conn ;; put_conn conn (with_closing c))
      | Some _ =>
          a <- on_side (read_recv conn) ;;
          match a with
          | RBytes bs =>
              c <- on_side (get_conn conn) ;;
              on_side (put_conn conn (with_read {| b_ptr := b_ptr (cn_read c); b_bytes := b_bytes (cn_read c) ++ bs;
                                                   b_cap := b_cap (cn_read c) |} c)) ;;;
              parse_available conn ;;;
              c <- on_side (get_conn conn) ;;
              if cn_closing c then ret tt else read_loop fuel conn
          | REof => on_side (c <- get_conn conn ;; put_conn conn (with_closing c))
          | RErr e =>
              if wirecall_socket_would_block e then ret tt
              else if wirecall_socket_interrupted e then read_loop fuel conn
              else on_side (c <- get_conn conn ;; put_conn conn (with_closing c))
          end
      end
  end.

(** every turn that goes round consumes an answer of the network *)
Definition connection_read (conn : Z) : M worker unit := fun s => read_loop (S (net_work (wk_net (s_client s)))) conn s.

(** ** The event loop *)
Definition handle_event (e : wirecall_backend_event) : M worker unit :=
  if negb (Z.land (ev_events e) WIRECALL_BACKEND_WAKE =? 0) then
    on_side worker_drain_pending ;;; on_side worker_drain_completed
  else
    match ev_user e with
    | UListener fd => on_side (accept_ready fd)
    | UConn p =>
        c <- on_side (get_conn p) ;;
        (if negb (Z.land (ev_events e) WIRECALL_BACKEND_READ =? 0) && negb (cn_closing c) then connection_read p else ret tt) ;;;
        c <- on_side (get_conn p) ;;
        (if negb (Z.land (ev_events e) WIRECALL_BACKEND_WRITE =? 0) && negb (cn_closing c)
         then on_side (connection_write p) else ret tt) ;;;
        on_side (maybe_close p)
    end.

Fixpoint handle_events (l : list wirecall_backend_event) : M worker unit :=
  match l with
  | [] => ret tt
  | e :: rest => handle_event e ;;; handle_events rest
  end.

(** the turn after a poll; the scheduler gets [fuel] turns *)
Definition worker_turn (fuel : nat) (events : list wirecall_backend_event) : M worker (option unit) :=
  handle_events events ;;;
  idle <- run_ready coro_size segment call_done_cb fuel ;;
  match idle with
  | None => ret None
  | Some _ =>
      on_side worker_drain_completed ;;;
      on_side worker_flush_writes ;;;
      ret (Some tt)
  end.

(** the loop as a worker's thread goes round it: another turn, its result, or
    a scheduler that has not come to an end within [fuel] turns *)
Inductive loop_state := Looping | Returned (rc : Z) | Starved.

Definition worker_step (fuel : nat) : M worker loop_state :=
  stopping <- on_side (gets_side sv_stopping) ;;
  if stopping then ret (Returned 0)
  else
    i <- on_side (gets_side wk_index) ;;
    events <- on_side (on_backend (be_poll i WIRECALL_EVENT_BATCH)) ;;
    match events with
    | None => ret (Returned (-1))
    | Some events =>
        r <- worker_turn fuel events ;;
        ret (match r with None => Starved | Some _ => Looping end)
    end.

(** [None]: the loop has not returned after [fuel] turns *)
Fixpoint worker_run (fuel : nat) : M worker (option Z) :=
  match fuel with
  | O => ret None
  | S fuel' =>
      st <- worker_step fuel' ;;
      match st with
      | Looping => worker_run fuel'
      | Returned rc => ret (Some rc)
      | Starved => ret None
      end
  end.
End Server.
