(* ===== verification/Lifecycle.v ===== *)
(** * Lifecycle: creating, binding, running and destroying a server (src/server.c)

    The server owns an array of workers.  A worker in the array has the fields
    of its C structure; [focus] gathers the state of Server.v from one of them
    and from the server, and [in_worker] runs an operation of Server.v there.
    The lists of descriptors handed to the workers are kept in one map by
    worker, as in Connection.v.

    The results of wirecall_mutex_init and wirecall_thread_create are arguments,
    as is the answer of sysconf; SO_REUSEADDR, whose failure is ignored, and
    freeaddrinfo are left out. *)

From stdpp Require Import strings.
From S2P Require Import Prelude Words CString Protocol Integrity Memory Payload Arena Routes Scheduler Net Connection Server.
#[global] Open Scope Z_scope.

(** sizes of the structures on LP64 *)
Definition sizeof_wirecall_connection : Z := 112.
Definition sizeof_wirecall_deferred : Z := 264.
Definition sizeof_wirecall_worker : Z := 408.
Definition sizeof_wirecall_server : Z := 144.

Definition cpu_count (nprocessors : Z) : Z :=
  let n := wirecall_cpu_count nprocessors in
  if n =? 0 then 1 else if WIRECALL_MAX_WORKERS <? n then WIRECALL_MAX_WORKERS else n.

Definition htons `{Host} (x : Z) : Z :=
  match host_endian with
  | LittleEndian => Z.lor (Z.shiftl (Z.land x 255) 8) (Z.shiftr x 8)
  | BigEndian => x
  end.
Definition ntohs `{Host} (x : Z) : Z := htons x.

Definition sockaddr_set_port `{Host} (port : Z) (addr : sockaddr) : sockaddr :=
  if (sa_family addr =? AF_INET) || (sa_family addr =? AF_INET6)
  then {| sa_family := sa_family addr; sa_host := sa_host addr; sa_port := htons port |}
  else addr.

Definition sockaddr_get_port `{Host} (addr : sockaddr) : Z :=
  if sa_family addr =? AF_INET then ntohs (sa_port addr)
  else if sa_family addr =? AF_INET6 then ntohs (sa_port addr)
  else 0.

(** struct wirecall_worker: [ww_scheduler] is the block of the scheduler with
    its queue and its arena, [ww_backend] whether there is a backend *)
Record wirecall_worker := {
  ww_index : Z;
  ww_pending_mutex_ready : bool;
  ww_completed_mutex_ready : bool;
  ww_backend : bool;
  ww_conns : @arena_state wirecall_connection;
  ww_defs : @arena_state wirecall_deferred;
  ww_scheduler : option (Z * (option Z * option Z * @arena_state wirecall_call));
  ww_trace : list wirecall_call;
  ww_listeners : list Z;
  ww_connections : list Z;
  ww_pending_writes : list Z;
  ww_completed : list Z;
  ww_thread_started : bool;
  ww_fault : bool;
}.

(** the worker after memset *)
Definition worker_zero : wirecall_worker :=
  {| ww_index := 0; ww_pending_mutex_ready := false; ww_completed_mutex_ready := false; ww_backend := false;
     ww_conns := (arena_zero, ∅); ww_defs := (arena_zero, ∅); ww_scheduler := None; ww_trace := []; ww_listeners := [];
     ww_connections := []; ww_pending_writes := []; ww_completed := []; ww_thread_started := false; ww_fault := false |}.

Definition set_parts (index : Z) (m1 m2 be : bool) (ca : @arena_state wirecall_connection) (da : @arena_state wirecall_deferred)
    (w : wirecall_worker) : wirecall_worker :=
  {| ww_index := index; ww_pending_mutex_ready := m1; ww_completed_mutex_ready := m2; ww_backend := be; ww_conns := ca;
     ww_defs := da; ww_scheduler := ww_scheduler w; ww_trace := ww_trace w; ww_listeners := ww_listeners w;
     ww_connections := ww_connections w; ww_pending_writes := ww_pending_writes w; ww_completed := ww_completed w;
     ww_thread_started := ww_thread_started w; ww_fault := ww_fault w |}.
Definition set_scheduler (s : option (Z * (option Z * option Z * @arena_state wirecall_call))) (w : wirecall_worker) : wirecall_worker :=
  {| ww_index := ww_index w; ww_pending_mutex_ready := ww_pending_mutex_ready w; ww_completed_mutex_ready := ww_completed_mutex_ready w;
     ww_backend := ww_backend w; ww_conns := ww_conns w; ww_defs := ww_defs w; ww_scheduler := s; ww_trace := ww_trace w;
     ww_listeners := ww_listeners w; ww_connections := ww_connections w; ww_pending_writes := ww_pending_writes w;
     ww_completed := ww_completed w; ww_thread_started := ww_thread_started w; ww_fault := ww_fault w |}.
Definition set_listeners (l : list Z) (w : wirecall_worker) : wirecall_worker :=
  {| ww_index := ww_index w; ww_pending_mutex_ready := ww_pending_mutex_ready w; ww_completed_mutex_ready := ww_completed_mutex_ready w;
     ww_backend := ww_backend w; ww_conns := ww_conns w; ww_defs := ww_defs w; ww_scheduler := ww_scheduler w; ww_trace := ww_trace w;
     ww_listeners := l; ww_connections := ww_connections w; ww_pending_writes := ww_pending_writes w;
     ww_completed := ww_completed w; ww_thread_started := ww_thread_started w; ww_fault := ww_fault w |}.
Definition set_started (b : bool) (w : wirecall_worker) : wirecall_worker :=
  {| ww_index := ww_index w; ww_pending_mutex_ready := ww_pending_mutex_ready w; ww_completed_mutex_ready := ww_completed_mutex_ready w;
     ww_backend := ww_backend w; ww_conns := ww_conns w; ww_defs := ww_defs w; ww_scheduler := ww_scheduler w; ww_trace := ww_trace w;
     ww_listeners := ww_listeners w; ww_connections := ww_connections w; ww_pending_writes := ww_pending_writes w;
     ww_completed := ww_completed w; ww_thread_started := b; ww_fault := ww_fault w |}.

Record wirecall_server := {
  sr_routes : wirecall_routes;
  sr_workers : option (Z * list wirecall_worker);
  sr_worker_count : Z;
  sr_workers_ready : bool;
  sr_next_worker : Z;
  sr_stopping : bool;
  sr_listening : bool;
  sr_routes_ready : bool;
  sr_port : Z;
  sr_integrity : Z;
  sr_mac_key : list Z;
  sr_pendings : gmap Z (list (Z * Z));
}.

Definition set_workers (w : option (Z * list wirecall_worker)) (ready : bool) (count : Z) (v : wirecall_server) : wirecall_server :=
  {| sr_routes := sr_routes v; sr_workers := w; sr_worker_count := count; sr_workers_ready := ready;
     sr_next_worker := sr_next_worker v; sr_stopping := sr_stopping v; sr_listening := sr_listening v;
     sr_routes_ready := sr_routes_ready v; sr_port := sr_port v; sr_integrity := sr_integrity v; sr_mac_key := sr_mac_key v;
     sr_pendings := sr_pendings v |}.
Definition set_integrity (i : Z) (key : list Z) (v : wirecall_server) : wirecall_server :=
  {| sr_routes := sr_routes v; sr_workers := sr_workers v; sr_worker_count := sr_worker_count v; sr_workers_ready := sr_workers_ready v;
     sr_next_worker := sr_next_worker v; sr_stopping := sr_stopping v; sr_listening := sr_listening v;
     sr_routes_ready := sr_routes_ready v; sr_port := sr_port v; sr_integrity := i; sr_mac_key := key;
     sr_pendings := sr_pendings v |}.
Definition set_flags (stopping listening : bool) (port : Z) (v : wirecall_server) : wirecall_server :=
  {| sr_routes := sr_routes v; sr_workers := sr_workers v; sr_worker_count := sr_worker_count v; sr_workers_ready := sr_workers_ready v;
     sr_next_worker := sr_next_worker v; sr_stopping := stopping; sr_listening := listening;
     sr_routes_ready := sr_routes_ready v; sr_port := port; sr_integrity := sr_integrity v; sr_mac_key := sr_mac_key v;
     sr_pendings := sr_pendings v |}.
(** the table, and what a worker has changed of the shared fields *)
Definition set_shared (r : wirecall_routes) (ready : bool) (next : Z) (stopping : bool) (m : gmap Z (list (Z * Z))) (v : wirecall_server) : wirecall_server :=
  {| sr_routes := r; sr_workers := sr_workers v; sr_worker_count := sr_worker_count v; sr_workers_ready := sr_workers_ready v;
     sr_next_worker := next; sr_stopping := stopping; sr_listening := sr_listening v;
     sr_routes_ready := ready; sr_port := sr_port v; sr_integrity := sr_integrity v; sr_mac_key := sr_mac_key v;
     sr_pendings := m |}.

Section Lifecycle.
Context `{HH : Host} `{HP : Heap W} `{PP : Pages P} `{NN : Net K} `{BB : Backend B}.
Variable coro_size : Z.
Variable segment : forall (handler data call_id proc_id : Z) (args : value_array) (n : nat),
  wirecall_writer -> W -> option Z * wirecall_writer * W.
Variable sync_handler : forall (handler data call_id proc_id : Z) (args : value_array),
  wirecall_writer -> W -> Z * wirecall_writer * W.
Variable deferred_handler : forall (handler data call_id proc_id : Z) (args : value_array), list deferred_action * Z.
(** sysconf, wirecall_mutex_init for the table and the two mutexes of each
    worker, wirecall_thread_create for each worker *)
Variable nprocessors : Z.
Variable routes_mutex_ok : bool.
Variable mutex_ok : Z -> bool * bool.
Variable thread_ok : Z -> bool.

(** the process: the server and its block, the heap, the mapped pages, the
    network, the backends, and the finalizers that have run *)
Record system := {
  pr_server : option (Z * wirecall_server);
  pr_heap : W;
  pr_pages : P;
  pr_net : K;
  pr_backend : B;
  pr_log : list (Z * Z);
}.

Definition set_server (v : option (Z * wirecall_server)) (s : system) : system :=
  {| pr_server := v; pr_heap := pr_heap s; pr_pages := pr_pages s; pr_net := pr_net s; pr_backend := pr_backend s; pr_log := pr_log s |}.
Definition set_pheap (h : W) (s : system) : system :=
  {| pr_server := pr_server s; pr_heap := h; pr_pages := pr_pages s; pr_net := pr_net s; pr_backend := pr_backend s; pr_log := pr_log s |}.
Definition set_ppages (p : P) (s : system) : system :=
  {| pr_server := pr_server s; pr_heap := pr_heap s; pr_pages := p; pr_net := pr_net s; pr_backend := pr_backend s; pr_log := pr_log s |}.
Definition set_pnet (n : K) (s : system) : system :=
  {| pr_server := pr_server s; pr_heap := pr_heap s; pr_pages := pr_pages s; pr_net := n; pr_backend := pr_backend s; pr_log := pr_log s |}.
Definition set_pbackend (b : B) (s : system) : system :=
  {| pr_server := pr_server s; pr_heap := pr_heap s; pr_pages := pr_pages s; pr_net := pr_net s; pr_backend := b; pr_log := pr_log s |}.

Definition proc_heap {A} (f : W -> A * W) : M system A := fun s => let '(a, h) := f (pr_heap s) in (Ok a, set_pheap h s).
Definition proc_net {A} (m : M K A) : M system A := fun s => let '(r, n) := m (pr_net s) in (r, set_pnet n s).
Definition proc_backend {A} (f : B -> A * B) : M system A := fun s => let '(a, b) := f (pr_backend s) in (Ok a, set_pbackend b s).
Definition proc_pages {A} (f : P -> A * P) : M system A := fun s => let '(a, p) := f (pr_pages s) in (Ok a, set_ppages p s).

(** [server->...]; the functions test for NULL first *)
Definition get_server : M system wirecall_server := fun s =>
  match pr_server s with Some (_, v) => (Ok v, s) | None => (UB, s) end.
Definition put_server (v : wirecall_server) : M system unit := fun s =>
  match pr_server s with Some (b, _) => (Ok tt, set_server (Some (b, v)) s) | None => (UB, s) end.
Definition has_server : M system bool := gets (fun s => match pr_server s with Some _ => true | None => false end).

(** [server->workers[i]] *)
Definition get_worker (i : Z) : M system wirecall_worker :=
  v <- get_server ;;
  match sr_workers v with
  | Some (_, l) => if i <? 0 then ub else match l !! Z.to_nat i with Some w => ret w | None => ub end
  | None => ub
  end.
Definition put_worker (i : Z) (w : wirecall_worker) : M system unit :=
  v <- get_server ;;
  match sr_workers v with
  | Some (b, l) =>
      if (0 <=? i) && (i <? zlen l)
      then put_server (set_workers (Some (b, <[Z.to_nat i := w]> l)) (sr_workers_ready v) (sr_worker_count v) v)
      else ub
  | None => ub
  end.

(** a worker, as Server.v sees it *)
Definition worker_state : Type := worker (W := W) (P := P) (K := K) (B := B).
Definition focus (v : wirecall_server) (w : wirecall_worker) (s : system) : worker_state :=
  let '(hd, tl, a) := match ww_scheduler w with Some (_, q) => q | None => (None, None, (arena_zero, ∅)) end in
  {| s_head := hd; s_tail := tl; s_arena := a; s_heap := pr_heap s; s_pages := pr_pages s;
     s_client :=
       {| sv_integrity := sr_integrity v; sv_mac_key := sr_mac_key v; sv_worker_count := sr_worker_count v;
          sv_next_worker := sr_next_worker v; sv_stopping := sr_stopping v; sv_routes := sr_routes v; sv_log := pr_log s;
          sv_pendings := sr_pendings v; wk_index := ww_index w; wk_conns := ww_conns w; wk_connections := ww_connections w;
          wk_pending_writes := ww_pending_writes w; wk_defs := ww_defs w; wk_completed := ww_completed w; wk_net := pr_net s;
          wk_backend := pr_backend s; wk_fault := ww_fault w |};
     s_trace := ww_trace w |}.
Definition unfocus_worker (k : worker_state) (w : wirecall_worker) : wirecall_worker :=
  let x := s_client k in
  {| ww_index := ww_index w; ww_pending_mutex_ready := ww_pending_mutex_ready w;
     ww_completed_mutex_ready := ww_completed_mutex_ready w; ww_backend := ww_backend w; ww_conns := wk_conns x;
     ww_defs := wk_defs x;
     ww_scheduler := match ww_scheduler w with Some (b, _) => Some (b, (s_head k, s_tail k, s_arena k)) | None => None end;
     ww_trace := s_trace k; ww_listeners := ww_listeners w; ww_connections := wk_connections x;
     ww_pending_writes := wk_pending_writes x; ww_completed := wk_completed x; ww_thread_started := ww_thread_started w;
     ww_fault := wk_fault x |}.
Definition unfocus (k : worker_state) (s : system) : system :=
  let x := s_client k in
  {| pr_server := match pr_server s with
                  | Some (b, v) => Some (b, set_shared (sv_routes x) (sr_routes_ready v) (sv_next_worker x) (sv_stopping x) (sv_pendings x) v)
                  | None => None
                  end;
     pr_heap := s_heap k; pr_pages := s_pages k; pr_net := wk_net x; pr_backend := wk_backend x; pr_log := sv_log x |}.
Definition in_worker {A} (i : Z) (m : M worker_state A) : M system A :=
  v <- get_server ;;
  w <- get_worker i ;;
  fun s =>
    let '(r, k) := m (focus v w s) in
    (put_worker i (unfocus_worker k w) ;;; lift r) (unfocus k s).

(** an operation on the table *)
Definition proc_routes {A} (m : M (routes_env W P) A) : M system A :=
  v <- get_server ;;
  fun s =>
    let '(r, e) := m {| env_routes := sr_routes v; env_heap := pr_heap s; env_pages := pr_pages s; env_log := pr_log s |} in
    (put_server (set_shared (env_routes e) (sr_routes_ready v) (sr_next_worker v) (sr_stopping v) (sr_pendings v) v) ;;; lift r)
      {| pr_server := pr_server s; pr_heap := env_heap e; pr_pages := env_pages e; pr_net := pr_net s;
         pr_backend := pr_backend s; pr_log := env_log e |}.

(** ** Workers *)

(** the worker as it is left, and whether all of it is there *)
Definition worker_init (index : Z) : M system (bool * wirecall_worker) :=
  let w := set_parts index false false false (arena_zero, ∅) (arena_zero, ∅) worker_zero in
  if negb (mutex_ok index).1 then ret (false, w)
  else if negb (mutex_ok index).2 then ret (false, set_parts index true false false (arena_zero, ∅) (arena_zero, ∅) w)
  else
    be <- proc_backend (be_create index) ;;
    if negb be then ret (false, set_parts index true true false (arena_zero, ∅) (arena_zero, ∅) w)
    else
      ca <- proc_pages (fun p => let '(r, (a, p)) := wirecall_fixed_arena_init sizeof_wirecall_connection WIRECALL_CONNECTION_ARENA_CAPACITY p in ((r, a), p)) ;;
      match ca.1 with
      | Ok _ =>
          da <- proc_pages (fun p => let '(r, (a, p)) := wirecall_fixed_arena_init sizeof_wirecall_deferred WIRECALL_DEFERRED_ARENA_CAPACITY p in ((r, a), p)) ;;
          match da.1 with
          | Ok _ => fun s =>
              let w := set_parts index true true true ca.2 da.2 w in
              match wirecall_scheduler_init (X := unit) tt (pr_heap s) (pr_pages s) with
              | (Some (b, q), (h, p)) =>
                  (Ok (true, set_scheduler (Some (b, (s_head q, s_tail q, s_arena q))) w), set_ppages p (set_pheap h s))
              | (None, (h, p)) => (Ok (false, w), set_ppages p (set_pheap h s))
              end
          | _ => ret (false, set_parts index true true true ca.2 da.2 w)
          end
      | _ => ret (false, set_parts index true true true ca.2 (arena_zero, ∅) w)
      end.

Fixpoint destroy_connections (l : list Z) : M (wstate (W := W) (K := K) (B := B)) unit :=
  match l with
  | [] => ret tt
  | p :: next => get_conn p ;;; connection_destroy (Some p) ;;; destroy_connections next
  end.

Fixpoint close_listeners (index : Z) (l : list Z) : M (wstate (W := W) (K := K) (B := B)) unit :=
  match l with
  | [] => ret tt
  | fd :: rest =>
      (if 0 <=? fd then on_backend (fun b => (tt, be_remove index fd b)) ;;; side_net (modify (net_close fd)) else ret tt) ;;;
      close_listeners index rest
  end.

Fixpoint close_pending (l : list (Z * Z)) : M (wstate (W := W) (K := K) (B := B)) unit :=
  match l with
  | [] => ret tt
  | (b, fd) :: next => side_net (modify (net_close fd)) ;;; on_mem (modify (heap_free b)) ;;; close_pending next
  end.

Fixpoint free_completed (l : list Z) : M (wstate (W := W) (K := K) (B := B)) unit :=
  match l with
  | [] => ret tt
  | p :: next =>
      d <- get_def p ;;
      c <- get_conn (df_conn d) ;;
      (if 0 <? cn_pending_deferred c then put_conn (df_conn d) (with_deferred (cn_pending_deferred c - 1) c) else ret tt) ;;;
      deferred_free (Some p) ;;;
      free_completed next
  end.

(** what worker_destroy does with the connections, the listeners and the lists *)
Definition destroy_side (w : wirecall_worker) : M (wstate (W := W) (K := K) (B := B)) unit :=
  l <- gets_side wk_connections ;;
  destroy_connections l ;;;
  i <- gets_side wk_index ;;
  close_listeners i (ww_listeners w) ;;;
  (if ww_pending_mutex_ready w then
     pending <- gets_side (fun x => default [] (sv_pendings x !! i)) ;;
     upd_side (fun x => set_pendings (<[i := []]> (sv_pendings x)) (sv_next_worker x) x) ;;;
     close_pending pending
   else ret tt) ;;;
  (if ww_completed_mutex_ready w then
     completed <- gets_side wk_completed ;;
     upd_side (set_completed []) ;;;
     free_completed completed
   else ret tt).

Definition destroy_arenas : M worker_state unit :=
  modify (fun k =>
    let x := s_client k in
    let '(da, p) := wirecall_fixed_arena_destroy (wk_defs x) (s_pages k) in
    let '(ca, p) := wirecall_fixed_arena_destroy (wk_conns x) p in
    set_client (set_conns ca (set_defs da x)) (set_spages p k)).

Definition worker_destroy (i : Z) : M system unit :=
  w <- get_worker i ;;
  in_worker i
    (on_side (destroy_side w) ;;;
     (match ww_scheduler w with Some (b, _) => wirecall_scheduler_destroy coro_size b | None => ret tt end) ;;;
     destroy_arenas) ;;;
  (if ww_backend w then proc_backend (fun b => (tt, be_destroy i b)) else ret tt) ;;;
  put_worker i worker_zero.

Fixpoint destroy_workers (l : list nat) : M system unit :=
  match l with
  | [] => ret tt
  | j :: rest => worker_destroy (Z.of_nat j) ;;; destroy_workers rest
  end.

(** the loop of server_ensure_workers from worker [i] on *)
Fixpoint init_workers (i n : nat) : M system unit :=
  match n with
  | O => ret tt
  | S n =>
      w <- worker_init (Z.of_nat i) ;;
      put_worker (Z.of_nat i) w.2 ;;;
      if w.1 then init_workers (S i) n
      else
        destroy_workers (seq 0 (S i)) ;;;
        v <- get_server ;;
        (match sr_workers v with
         | Some (b, _) => proc_heap (fun h => (tt, heap_free b h))
         | None => ret tt
         end) ;;;
        put_server (set_workers None (sr_workers_ready v) (sr_worker_count v) v) ;;;
        fail
  end.

Definition server_ensure_workers : M system unit :=
  v <- get_server ;;
  if sr_workers_ready v then ret tt
  else
    let count := if sr_worker_count v =? 0 then cpu_count nprocessors else sr_worker_count v in
    block <- proc_heap (heap_calloc count sizeof_wirecall_worker) ;;
    match block with
    | None => put_server (set_workers None false count v) ;;; fail
    | Some b =>
        put_server (set_workers (Some (b, replicate (Z.to_nat count) worker_zero)) false count v) ;;;
        init_workers 0 (Z.to_nat count) ;;;
        v <- get_server ;;
        put_server (set_workers (sr_workers v) true (sr_worker_count v) v)
    end.

(** ** The server *)
Definition server_zero : wirecall_server :=
  {| sr_routes := routes_zero; sr_workers := None; sr_worker_count := 0; sr_workers_ready := false; sr_next_worker := 0;
     sr_stopping := false; sr_listening := false; sr_routes_ready := false; sr_port := 0; sr_integrity := 0;
     sr_mac_key := zreplicate 16 0; sr_pendings := ∅ |}.

(** the wakes; [server->workers[i].backend] is read *)
Fixpoint wake_workers (l : list nat) : M system unit :=
  match l with
  | [] => ret tt
  | i :: rest =>
      v <- get_server ;;
      (match sr_workers v with
       | Some _ =>
           w <- get_worker (Z.of_nat i) ;;
           (if ww_backend w then proc_backend (fun b => (tt, be_wake (Z.of_nat i) b)) else ret tt)
       | None => ret tt
       end) ;;;
      wake_workers rest
  end.

Definition wirecall_server_stop : M system unit :=
  ok <- has_server ;;
  if negb ok then ret tt
  else
    v <- get_server ;;
    put_server (set_flags true (sr_listening v) (sr_port v) v) ;;;
    wake_workers (seq 0 (Z.to_nat (sr_worker_count v))).

(** [wirecall_thread_join] returns when the loop of the worker has *)
Fixpoint join_and_destroy (l : list nat) : M system unit :=
  match l with
  | [] => ret tt
  | i :: rest =>
      w <- get_worker (Z.of_nat i) ;;
      (if ww_thread_started w then put_worker (Z.of_nat i) (set_started false w) else ret tt) ;;;
      worker_destroy (Z.of_nat i) ;;;
      join_and_destroy rest
  end.

Definition wirecall_server_destroy : M system unit :=
  ok <- has_server ;;
  if negb ok then ret tt
  else
    v <- get_server ;;
    (match sr_workers v with
     | Some (b, _) =>
         wirecall_server_stop ;;;
         join_and_destroy (seq 0 (Z.to_nat (sr_worker_count v))) ;;;
         proc_heap (fun h => (tt, heap_free b h))
     | None => ret tt
     end) ;;;
    (if sr_routes_ready v then proc_routes (fun e => (Ok tt, wirecall_routes_destroy e)) else ret tt) ;;;
    fun s => match pr_server s with
             | Some (b, _) => (Ok tt, set_pheap (heap_free b (pr_heap s)) (set_server None s))
             | None => (UB, s)
             end.

Definition wirecall_server_init (out : bool) : M system unit :=
  if negb out then fail
  else
    block <- proc_heap (heap_calloc 1 sizeof_wirecall_server) ;;
    match block with
    | None => fail
    | Some b =>
        modify (set_server (Some (b, set_workers None false (cpu_count nprocessors)
                                       (set_integrity WIRECALL_INTEGRITY_DEFAULT (sr_mac_key server_zero) server_zero)))) ;;;
        r <- attempt (proc_routes (wirecall_routes_init routes_mutex_ok)) ;;
        match r with
        | None => wirecall_server_destroy ;;; fail
        | Some _ =>
            v <- get_server ;;
            put_server (set_shared (sr_routes v) true (sr_next_worker v) (sr_stopping v) (sr_pendings v) v)
        end
    end.

Definition wirecall_server_set_workers (worker_count : Z) : M system unit :=
  ok <- has_server ;;
  if negb ok then fail
  else
    v <- get_server ;;
    if sr_workers_ready v || sr_listening v || (worker_count =? 0) || (WIRECALL_MAX_WORKERS <? worker_count) then fail
    else put_server (set_workers (sr_workers v) (sr_workers_ready v) worker_count v).

Definition wirecall_server_set_integrity (integrity : Z) (mac_key : option (list Z)) : M system unit :=
  ok <- has_server ;;
  if negb ok then fail
  else
    v <- get_server ;;
    if sr_workers_ready v || sr_listening v
       || negb (Z.land integrity (u32 (Z.lnot (Z.lor WIRECALL_INTEGRITY_CHECKSUM WIRECALL_INTEGRITY_MAC))) =? 0)
       || (negb (Z.land integrity WIRECALL_INTEGRITY_MAC =? 0) && match mac_key with None => true | Some _ => false end) then fail
    else
      key <- (match mac_key with
              | None => ret (sr_mac_key v)
              | Some k => lift (buffer_bytes (Some k) 16)
              end) ;;
      put_server (set_integrity integrity key v).

(** ** Binding and listening *)

(** wirecall_socket_set_nonblock and bind *)
Definition bind_socket (fd : Z) (addr : sockaddr) : M system Z :=
  nb <- attempt (proc_net (wirecall_socket_set_nonblock fd)) ;;
  match nb with
  | None => ret (-1)
  | Some _ => proc_net (fun n => let '(rc, n) := net_bind fd addr n in (Ok rc, n))
  end.

(** [if (server->port == 0)]: the port the kernel chose *)
Definition bound_port (fd : Z) : M system unit :=
  v <- get_server ;;
  if sr_port v =? 0 then
    bound <- proc_net (fun n => let '(b, n) := net_getsockname fd n in (Ok b, n)) ;;
    match bound with
    | Some bound => put_server (set_flags (sr_stopping v) (sr_listening v) (sockaddr_get_port bound) v)
    | None => ret tt
    end
  else ret tt.

(** [worker->listeners[worker->listener_count++]] of the first worker *)
Definition add_listener (fd : Z) : M system unit :=
  w <- get_worker 0 ;;
  put_worker 0 (set_listeners (ww_listeners w ++ [fd]) w).

(** one address: whether it is bound now *)
Definition bind_one (ai : sockaddr) : M system bool :=
  a <- proc_net (fun n => let '(a, n) := net_socket ai n in (Ok a, n)) ;;
  match a with
  | FErr _ => ret false
  | FOk fd =>
      v <- get_server ;;
      rc <- bind_socket fd (if negb (sr_port v =? 0) then sockaddr_set_port (sr_port v) ai else ai) ;;
      if negb (rc =? 0) then proc_net (modify (net_close fd)) ;;; ret false
      else bound_port fd ;;; add_listener fd ;;; ret true
  end.

Fixpoint bind_loop (res : list sockaddr) (ok : bool) : M system bool :=
  match res with
  | [] => ret ok
  | ai :: next =>
      w <- get_worker 0 ;;
      if WIRECALL_MAX_LISTENERS <=? zlen (ww_listeners w) then ret ok
      else b <- bind_one ai ;; bind_loop next (ok || b)
  end.

Definition wirecall_server_bind (host : option (list Z)) (port : option (list Z)) : M system unit :=
  v <- has_server ;;
  match port with
  | None => fail
  | Some port =>
      if negb v then fail
      else
        server_ensure_workers ;;;
        res <- proc_net (fun n => let '(r, n) := net_getaddrinfo host port true n in (Ok r, n)) ;;
        match res with
        | None => fail
        | Some res => ok <- bind_loop res false ;; if ok : bool then ret tt else fail
        end
  end.

Definition wirecall_server_port : M system Z :=
  gets (fun s => match pr_server s with Some (_, v) => sr_port v | None => 0 end).

Fixpoint listen_loop (i : Z) (l : list Z) : M system unit :=
  match l with
  | [] => ret tt
  | fd :: rest =>
      rc <- proc_net (fun n => let '(rc, n) := net_listen fd n in (Ok rc, n)) ;;
      if negb (rc =? 0) then fail
      else
        ok <- proc_backend (be_register i fd WIRECALL_BACKEND_READ (UListener fd)) ;;
        if negb ok then fail else listen_loop i rest
  end.

Fixpoint listen_workers (l : list nat) : M system unit :=
  match l with
  | [] => ret tt
  | i :: rest => w <- get_worker (Z.of_nat i) ;; listen_loop (Z.of_nat i) (ww_listeners w) ;;; listen_workers rest
  end.

Definition wirecall_server_listen : M system unit :=
  ok <- has_server ;;
  if negb ok then fail
  else
    v <- get_server ;;
    listen_workers (seq 0 (Z.to_nat (sr_worker_count v))) ;;;
    v <- get_server ;;
    put_server (set_flags (sr_stopping v) true (sr_port v) v).

(** ** Running *)

(** the threads of the workers: [schedule] names the worker that makes the next
    turn of its loop, [live] are the threads that have not returned.  [None]:
    some have not when the schedule is over *)
Fixpoint run_threads (fuel : nat) (schedule : list nat) (live : list nat) : M system (option unit) :=
  match live, schedule with
  | [], _ => ret (Some tt)
  | _, [] => ret None
  | _, i :: schedule =>
      if bool_decide (i ∈ live) then
        st <- in_worker (Z.of_nat i) (worker_step coro_size segment sync_handler deferred_handler fuel) ;;
        match st with
        | Looping => run_threads fuel schedule live
        | Returned _ => run_threads fuel schedule (filter (fun j => j <> i) live)
        | Starved => ret None
        end
      else run_threads fuel schedule live
  end.

(** the threads that are started, and whether all are *)
Fixpoint start_threads (l : list nat) : M system (list nat * bool) :=
  match l with
  | [] => ret ([], true)
  | i :: rest =>
      if negb (thread_ok (Z.of_nat i)) then ret ([], false)
      else
        w <- get_worker (Z.of_nat i) ;;
        put_worker (Z.of_nat i) (set_started true w) ;;;
        r <- start_threads rest ;;
        ret (i :: r.1, r.2)
  end.

Fixpoint mark_joined (l : list nat) : M system unit :=
  match l with
  | [] => ret tt
  | i :: rest => w <- get_worker (Z.of_nat i) ;; put_worker (Z.of_nat i) (set_started false w) ;;; mark_joined rest
  end.

(** threads that start while others are being created make their first turns
    after the last has been created; [None]: not back within [fuel] turns *)
Definition wirecall_server_run (fuel : nat) (schedule : list nat) : M system (option Z) :=
  ok <- has_server ;;
  if negb ok then ret (Some (-1))
  else
    v <- get_server ;;
    if negb (sr_listening v) then ret (Some (-1))
    else if sr_worker_count v =? 1 then in_worker 0 (worker_run coro_size segment sync_handler deferred_handler fuel)
    else
      started <- start_threads (seq 0 (Z.to_nat (sr_worker_count v))) ;;
      (if started.2 then ret tt else wirecall_server_stop) ;;;
      r <- run_threads fuel schedule started.1 ;;
      match r with
      | None => ret None
      | Some _ => mark_joined started.1 ;;; ret (Some (if started.2 then 0 else -1))
      end.

(** ** Procedures *)
Definition server_add_route_id (proc_id : Z) (handler : option Z) (user_data : Z) (finalizer : option Z) : M system unit :=
  ok <- has_server ;;
  if negb ok then fail else proc_routes (wirecall_routes_add_ex proc_id handler user_data finalizer false).
Definition wirecall_server_add_route_name_ex (proc_name : option (list Z)) (handler : option Z) (user_data : Z)
    (finalizer : option Z) : M system unit :=
  server_add_route_id (wirecall_proc_id proc_name) handler user_data finalizer.
Definition wirecall_server_add_route_name (proc_name : option (list Z)) (handler : option Z) (user_data : Z) : M system unit :=
  wirecall_server_add_route_name_ex proc_name handler user_data None.

Definition server_add_async_route_id (proc_id : Z) (handler : option Z) (user_data : Z) (finalizer : option Z) : M system unit :=
  ok <- has_server ;;
  if negb ok then fail else proc_routes (wirecall_routes_add_ex proc_id handler user_data finalizer true).
Definition wirecall_server_add_async_route_name_ex (proc_name : option (list Z)) (handler : option Z) (user_data : Z)
    (finalizer : option Z) : M system unit :=
  server_add_async_route_id (wirecall_proc_id proc_name) handler user_data finalizer.
Definition wirecall_server_add_async_route_name (proc_name : option (list Z)) (handler : option Z) (user_data : Z) : M system unit :=
  wirecall_server_add_async_route_name_ex proc_name handler user_data None.

Definition server_add_deferred_route_id (proc_id : Z) (handler : option Z) (user_data : Z) (finalizer : option Z) : M system unit :=
  ok <- has_server ;;
  if negb ok then fail else proc_routes (wirecall_routes_add_deferred_ex proc_id handler user_data finalizer).
Definition wirecall_server_add_deferred_route_name_ex (proc_name : option (list Z)) (handler : option Z) (user_data : Z)
    (finalizer : option Z) : M system unit :=
  server_add_deferred_route_id (wirecall_proc_id proc_name) handler user_data finalizer.
Definition wirecall_server_add_deferred_route_name (proc_name : option (list Z)) (handler : option Z) (user_data : Z) : M system unit :=
  wirecall_server_add_deferred_route_name_ex proc_name handler user_data None.

Definition server_remove_route_id (proc_id : Z) : M system unit :=
  ok <- has_server ;;
  if negb ok then fail else proc_routes (wirecall_routes_remove proc_id).
Definition wirecall_server_remove_route_name (proc_name : option (list Z)) : M system unit :=
  server_remove_route_id (wirecall_proc_id proc_name).
End Lifecycle.
Arguments system : clear implicits.
