(* ===== verification/ServerInv.v ===== *)
(** * ServerInv: requests, deferred calls and the event loop keep the invariant

    The rules of ConnInv.v extended to the operations on deferred calls and to
    the request handlers of Server.v, up to a whole turn of the event loop. *)

From stdpp Require Import strings.
From S2P Require Import Prelude Words CString Protocol Integrity Memory Payload Arena Routes Scheduler Net Connection ConnInv Server.
#[global] Open Scope Z_scope.

(** the side conditions of an error message *)
Ltac by_message := first [done | apply frame_refl | apply cstring_ok | by_compute].

(** ** Counting the deferred calls of a connection *)
Lemma length_named q (m : gmap Z wirecall_deferred) : (length (named q m) <= size m)%nat.
Proof.
  unfold named, collect. etrans; [apply length_filter |]. rewrite <- (length_map_to_list m).
  induction (map_to_list m) as [|[k d] l IH]; cbn; [done | lia].
Qed.

Lemma named_same q hole p d d' (m : gmap Z wirecall_deferred) :
  m !! p = Some d -> df_conn d' = df_conn d -> named q (without hole (<[p := d']> m)) ≡ₚ named q (without hole m).
Proof.
  intros Hp Hd. destruct hole as [k|]; cbn.
  - destruct (decide (k = p)) as [-> | Hne]; [by rewrite delete_insert_eq |].
    rewrite delete_insert_ne by done. rewrite named_insert, Hd, (named_lookup q p d (delete k m)); [done |].
    by rewrite lookup_delete_ne.
  - rewrite named_insert, Hd. by rewrite <- named_lookup.
Qed.

Section Deferred.
Context `{HH : Host} `{HP : Heap W} `{NN : Net K} `{BB : Backend B}.
Hypothesis H64 : size_bits = 64.
Hypothesis Hlimit : address_limited.
Implicit Types (x : side K B) (h : W) (p q : Z) (c : wirecall_connection) (d : wirecall_deferred) (g : ghost).

(** changing a deferred call *)
Lemma sk_def_step base fbase g extra extra' fextra x h h' p d d' cl :
  side_ok base fbase g extra fextra x h -> defs x !! p = Some d -> def_wf d' -> df_conn d' = df_conn d ->
  NoDup (cl ++ g_drain g) ->
  (forall q, q ∈ cl ++ g_drain g <-> if decide (q = p) then df_completed d' = true else q ∈ wk_completed x ++ g_drain g) ->
  (forall l, owns base (def_blocks d ++ l ++ extra) h -> owns base (def_blocks d' ++ l ++ extra') h') ->
  side_ok base fbase g extra' fextra (set_completed cl (upd_def p d' x)) h'.
Proof.
  intros [Ka Kd Kc Kk Kw Kcw Kdw Kl Kq [Kcm1 Kcm2] Kh Kn Kdt Ko Kf] Hd Hwf Hconn Hnd Hin Hown.
  assert (Hdu : defs (set_completed cl (upd_def p d' x)) = <[p := d']> (defs x)) by exact (defs_upd p d' x).
  constructor; try done; rewrite ?Hdu.
  - destruct Kd as [fl Kd]. exists fl. by eapply store_ok.
  - intros q dq. rewrite lookup_insert_Some. intros [[<- <-] | [_ Hq]]; [| by eapply Kdw].
    split; [done |]. rewrite Hconn. by apply (Kdw p d).
  - split; [done |]. intros q. change (wk_completed (set_completed cl (upd_def p d' x))) with cl. rewrite Hin.
    destruct (decide (q = p)) as [-> | Hne].
    + rewrite lookup_insert_eq. split; [intros ?; by exists d' | by intros (? & [= <-] & ?)].
    + rewrite lookup_insert_ne by done. apply Kcm2.
  - intros q Hq. rewrite lookup_insert_is_Some. destruct (decide (p = q)); auto.
  - intros q c Hc. rewrite (Kn q c Hc). unfold zlen. by rewrite (named_same q _ p d d').
  - rewrite (collect_insert def_blocks). rewrite (collect_lookup def_blocks _ _ _ Hd) in Ko.
    specialize (Hown (collect conn_blocks (conns x) ++ collect def_blocks (delete p (defs x)) ++ collect (map fst) (sv_pendings x))).
    rewrite <- !app_assoc in Hown. rewrite <- !app_assoc. rewrite Permutation_app_swap_app. apply Hown.
    rewrite <- !app_assoc, Permutation_app_swap_app in Ko. exact Ko.
Qed.

(** a change that keeps the call where it is *)
Lemma sk_def_put base fbase g extra extra' fextra x h h' p d d' :
  side_ok base fbase g extra fextra x h -> defs x !! p = Some d -> def_wf d' -> df_conn d' = df_conn d ->
  df_completed d' = df_completed d ->
  (forall l, owns base (def_blocks d ++ l ++ extra) h -> owns base (def_blocks d' ++ l ++ extra') h') ->
  side_ok base fbase g extra' fextra (upd_def p d' x) h'.
Proof.
  intros Hk Hd Hwf Hconn Hcomp Hown. pose proof (sk_completed _ _ _ _ _ _ _ Hk) as [Hc1 Hc2].
  eapply (sk_def_step _ _ _ _ _ _ x h h' p d d' (wk_completed x)); try done.
  intros q. destruct (decide (q = p)) as [-> |]; [| done]. rewrite Hc2, Hcomp.
  split; [intros (d0 & Hd0 & ?); congruence | intros ?; by exists d].
Qed.

(** *** Completing *)
Lemma frame_def ps p d cl x : frame ps x (set_completed cl (upd_def p d x)).
Proof. by apply frame_same_conns. Qed.

Lemma complete_spec base fbase g extra fextra x h p d result error E :
  side_ok base fbase g extra fextra x h -> defs x !! p = Some d -> df_completed d = false ->
  bytes_ok error -> zlen error < DEFERRED_ERROR_SIZE ->
  wp (put_def p (with_outcome result error d) ;;; worker_queue_completed p)
    (fun _ '(x', h') => side_ok base fbase g extra fextra x' h' /\ frame none x x' /\ conns x' = conns x /\
       wk_net x' = wk_net x /\ defs x' = <[p := with_outcome result error d]> (defs x)) E (x, h).
Proof.
  intros Hk Hd Hc Hb Hl. set (d' := with_outcome result error d).
  apply wp_bind. eapply wp_put_def; [done |]. unfold worker_queue_completed. apply wp_bind.
  eapply wp_get_def; [rewrite defs_upd; apply lookup_insert_eq |]. apply wp_bind, wp_upd_side. apply wp_bind, wp_gets_side.
  apply wp_backend_do. pose proof (sk_completed _ _ _ _ _ _ _ Hk) as [Hc1 Hc2].
  assert (Hp : p ∉ wk_completed x ++ g_drain g) by (rewrite Hc2; intros (d0 & Hd0 & ?); congruence).
  split; [apply sk_backend | split; [| split; [| split]]].
  - eapply (sk_def_step _ _ _ _ _ _ x h h p d d' (wk_completed x ++ [p])); try done.
    + by destruct (proj1 (sk_def_wf _ _ _ _ _ _ _ Hk p d Hd)).
    + rewrite <- app_assoc. cbn [app]. rewrite <- Permutation_middle. by constructor.
    + intros q. destruct (decide (q = p)) as [-> | Hne]; rewrite !elem_of_app, ?list_elem_of_singleton; naive_solver.
  - by apply frame_same_conns.
  - done.
  - done.
  - exact (defs_upd p d' x).
Qed.

(** *** Creating and freeing *)
Definition with_hole (hole : option Z) (drain : list Z) g : ghost :=
  {| g_hole := hole; g_ending := g_ending g; g_flush := g_flush g; g_drain := drain |}.

Lemma def_alloc base fbase g extra fextra x h r a :
  side_ok base fbase g extra fextra x h -> g_hole g = None -> wirecall_fixed_arena_alloc zero_deferred (wk_defs x) = (r, a) ->
  (r = Ok None /\ a = wk_defs x) \/
  exists p, r = Ok (Some p) /\ arena_ok a /\ defs x !! p = None /\ in_use a.2 = <[p := zero_deferred]> (defs x) /\
    capacity a.1 = capacity (wk_defs x).1.
Proof.
  intros Hk Hg Ha. pose proof (sk_defs _ _ _ _ _ _ _ Hk) as [fl Hd]. unfold defs. destruct (wk_defs x) as [ar m] eqn:Ex. cbn [fst snd] in *.
  destruct (alloc_spec zero_deferred ar m fl r a Hd Ha) as [(-> & -> & _) | (p & -> & Hp & Hu & _ & _ & Hok & _ & _ & Hcap & _)];
    [by left | right]. by exists p.
Qed.

(** a call in construction is not counted yet *)
Lemma sk_new_def base fbase g extra fextra x h a p d :
  side_ok base fbase g extra fextra x h -> g_hole g = None -> arena_ok a -> capacity a.1 = capacity (wk_defs x).1 ->
  defs x !! p = None -> in_use a.2 = <[p := d]> (defs x) -> def_wf d -> df_completed d = false -> def_blocks d = [] ->
  is_Some (conns x !! df_conn d) ->
  side_ok base fbase (with_hole (Some p) (g_drain g) g) extra fextra (set_defs a x) h.
Proof.
  intros [Ka Kd Kc Kk Kw Kcw Kdw Kl Kq [Kcm1 Kcm2] Kh Kn Kdt Ko Kf] Hg Ha Hcap Hp Hu Hwf Hcomp Hbl Hconn.
  assert (Hdu : defs (set_defs a x) = <[p := d]> (defs x)) by exact Hu.
  constructor; try done; rewrite ?Hdu; cbn [with_hole g_hole g_drain].
  - change (wk_defs (set_defs a x)) with a. by rewrite Hcap.
  - intros q dq. rewrite lookup_insert_Some. intros [[<- <-] | [_ Hq]]; [by split | by eapply Kdw].
  - split; [done |]. intros q. etrans; [apply Kcm2 |]. destruct (decide (q = p)) as [-> | Hne].
    + rewrite lookup_insert_eq, Hp. split; [naive_solver | intros (? & [= <-] & ?); congruence].
    + by rewrite lookup_insert_ne.
  - intros q [= <-]. rewrite lookup_insert_eq. done.
  - intros q c Hc. cbn [without]. rewrite delete_insert_eq, delete_id by done. specialize (Kn q c Hc). by rewrite Hg in Kn.
  - rewrite (collect_insert_new def_blocks) by done. by rewrite Hbl.
Qed.

Lemma sk_free_def base fbase g extra fextra x h h' a p d dl :
  side_ok base fbase g extra fextra x h -> g_hole g = Some p -> defs x !! p = Some d ->
  arena_ok a -> capacity a.1 = capacity (wk_defs x).1 -> in_use a.2 = delete p (defs x) ->
  (g_drain g = if df_completed d then p :: dl else dl) ->
  (forall l, owns base (def_blocks d ++ l) h -> owns base l h') ->
  side_ok base fbase (with_hole None dl g) extra fextra (set_defs a x) h'.
Proof.
  intros [Ka Kd Kc Kk Kw Kcw Kdw Kl Kq [Kcm1 Kcm2] Kh Kn Kdt Ko Kf] Hg Hd Ha Hcap Hu Hdl Hown.
  assert (Hdu : defs (set_defs a x) = delete p (defs x)) by exact Hu.
  assert (Hin : NoDup (wk_completed x ++ dl) /\ forall q, q ∈ wk_completed x ++ dl <-> q ∈ wk_completed x ++ g_drain g /\ q <> p).
  { rewrite Hdl in *. destruct (df_completed d) eqn:Ec.
    - rewrite <- Permutation_middle in Kcm1. apply list.NoDup_cons in Kcm1 as [Hp Kcm1]. split; [done |].
      intros q. rewrite elem_of_app in Hp. rewrite !elem_of_app, elem_of_cons. naive_solver.
    - split; [done |]. intros q. split; [| by intros [? _]]. intros Hq. split; [done |]. intros ->.
      apply Kcm2 in Hq as (d0 & ? & ?). congruence. }
  destruct Hin as [Hnd Hin].
  constructor; try done; rewrite ?Hdu; cbn [with_hole g_hole g_drain].
  - change (wk_defs (set_defs a x)) with a. by rewrite Hcap.
  - intros q dq [_ Hq]%lookup_delete_Some. by eapply Kdw.
  - split; [done |]. intros q. rewrite Hin, Kcm2. destruct (decide (q = p)) as [-> | Hne].
    + rewrite lookup_delete_eq. naive_solver.
    + rewrite lookup_delete_ne by done. naive_solver.
  - intros q c Hc. specialize (Kn q c Hc). by rewrite Hg in Kn.
  - rewrite (collect_lookup def_blocks _ _ _ Hd), <- !app_assoc, Permutation_app_swap_app in Ko. by apply Hown.
Qed.

Lemma deferred_free_spec base fbase g extra fextra x h p d dl E :
  side_ok base fbase g extra fextra x h -> g_hole g = Some p -> defs x !! p = Some d ->
  (g_drain g = if df_completed d then p :: dl else dl) ->
  wp (deferred_free (Some p))
    (fun _ '(x', h') => exists a, x' = set_defs a x /\ side_ok base fbase (with_hole None dl g) extra fextra x' h') E (x, h).
Proof.
  intros Hk Hg Hd Hdl. destruct (sk_def_wf _ _ _ _ _ _ _ Hk p d Hd) as [[Wa Ww We Wi] _].
  cbn [deferred_free]. apply wp_bind. eapply wp_get_def; [done |]. apply wp_bind, wp_on_mem.
  assert (Hfree : forall base' l, owns base' (array_blocks (df_args d) ++ l) h ->
    exists h', wirecall_values_free (va_ptr (df_args d)) (va_cells (df_args d)) h = (Ok tt, h') /\ owns base' l h').
  { intros base' l Ho. by apply values_free_blocks. }
  pose proof (sk_owns _ _ _ _ _ _ _ Hk) as Ko. rewrite (collect_lookup def_blocks _ _ _ Hd), <- !app_assoc, Permutation_app_swap_app in Ko.
  unfold def_blocks at 1 in Ko. rewrite <- !app_assoc in Ko. destruct (Hfree _ _ Ko) as (h1 & E1 & _). unfold wp at 1. rewrite E1.
  apply wp_bind, wp_mem_modify. apply wp_bind, wp_mem_modify. unfold wp, on_defs.
  pose proof (sk_defs _ _ _ _ _ _ _ Hk) as [fl Hda]. destruct (wk_defs x) as [ar m] eqn:Ex. cbn [fst snd] in Hda.
  assert (Hm : in_use m !! p = Some d) by (unfold defs in Hd; by rewrite Ex in Hd).
  destruct (free_spec ar m fl p d Hda Hm) as (a & Ef & Hok & Hu & _ & _ & Hcap & _). rewrite Ef. exists a. split; [done |].
  eapply sk_free_def; try done; rewrite ?Ex; try done.
  - unfold defs. by rewrite Ex.
  - intros l Ho. unfold def_blocks in Ho. rewrite <- !app_assoc in Ho. destruct (Hfree _ _ Ho) as (h1' & E1' & Ho1).
    rewrite E1 in E1'. injection E1' as <-. apply owns_free_opt in Ho1. by apply owns_free_opt in Ho1.
Qed.

(** *** Counting *)
Lemma with_deferred_wf n c : conn_wf c -> conn_wf (with_deferred n c).
Proof. intros []. by constructor. Qed.

(** the call [p] becomes counted *)
Lemma sk_count_up base fbase g extra fextra x h p d c :
  side_ok base fbase g extra fextra x h -> g_hole g = Some p -> defs x !! p = Some d -> conns x !! df_conn d = Some c ->
  side_ok base fbase (with_hole None (g_drain g) g) extra fextra
    (upd_conn (df_conn d) (with_deferred (u32 (cn_pending_deferred c + 1)) c) x) h.
Proof.
  intros Hk Hg Hd Hc. pose proof Hk as [Ka [fl Kd] Kc Kk Kw Kcw Kdw Kl [Kq1 Kq2] Kcm Kh Kn Kdt Ko Kf].
  pose proof (Kn _ _ Hc) as Hcnt. rewrite Hg in Hcnt. cbn [without] in Hcnt.
  assert (Hup : zlen (named (df_conn d) (defs x)) = cn_pending_deferred c + 1).
  { rewrite Hcnt. unfold zlen. rewrite (named_lookup _ p d) by done. rewrite decide_True by done. cbn [app length]. lia. }
  assert (Hsmall : cn_pending_deferred c + 1 < 2 ^ 32).
  { rewrite <- Hup. pose proof (length_named (df_conn d) (defs x)). destruct Kd as [? ? ? Hm ? ? ? ? Hsz].
    unfold defs in *. pose proof (zlen_nonneg fl). unfold zlen in *. lia. }
  pose proof (zlen_nonneg (named (df_conn d) (delete p (defs x)))). rewrite u32_small by lia.
  eapply (sk_conn_step _ _ g (with_hole None (g_drain g) g) extra extra _ x h h (df_conn d) c _ (wk_pending_writes x)); try done.
  - by apply with_deferred_wf, (Kcw _ c Hc).
  - intros q. cbn [with_hole g_flush]. destruct (decide (q = df_conn d)) as [-> |]; [| done]. rewrite Kq2.
    split; [intros (c0 & ? & ?); cbn; congruence | intros ?; by exists c].
  - intros q Hq. cbn. rewrite Hg. cbn. rewrite (named_lookup q p d) by done. by rewrite decide_False by congruence.
  - intros _ _. cbn [with_deferred cn_pending_deferred]. lia.
Qed.

(** the call [p] is no longer counted; its connection may be about to end *)
Lemma sk_count_down base fbase fl dl extra fextra x h p d c :
  side_ok base fbase (busy fl dl) extra fextra x h -> defs x !! p = Some d -> conns x !! df_conn d = Some c ->
  0 < cn_pending_deferred c /\
  side_ok base fbase (with_hole (Some p) dl (ending (df_conn d) fl dl)) extra fextra
    (upd_conn (df_conn d) (with_deferred (cn_pending_deferred c - 1) c) x) h.
Proof.
  intros Hk Hd Hc. pose proof Hk as [Ka [fl0 Kd] Kc Kk Kw Kcw Kdw Kl [Kq1 Kq2] Kcm Kh Kn Kdt Ko Kf].
  pose proof (Kn _ _ Hc) as Hcnt. cbn [busy g_hole without] in Hcnt.
  assert (Hdown : zlen (named (df_conn d) (delete p (defs x))) = cn_pending_deferred c - 1).
  { rewrite Hcnt. unfold zlen. rewrite (named_lookup (df_conn d) p d (defs x)) by done. rewrite decide_True by done. cbn [app length]. lia. }
  split; [pose proof (zlen_nonneg (named (df_conn d) (delete p (defs x)))); lia |].
  eapply (sk_conn_step _ _ (busy fl dl) (with_hole (Some p) dl (ending (df_conn d) fl dl)) extra extra _ x h h (df_conn d) c _ (wk_pending_writes x)); try done.
  - by apply with_deferred_wf, (Kcw _ c Hc).
  - intros q. cbn [with_hole ending busy g_flush] in *. destruct (decide (q = df_conn d)) as [-> |]; [| done]. rewrite Kq2.
    split; [intros (c0 & ? & ?); cbn; congruence | intros ?; by exists c].
  - cbn. intros q [= <-]. by exists d.
  - intros q Hq. cbn. rewrite (named_lookup q p d (defs x)) by done. by rewrite decide_False by congruence.
Qed.

(** *** Draining *)
Lemma writer_response d : def_wf d -> denotes (writer_data (df_response d)) (w_len (df_response d)) (w_bytes (df_response d)).
Proof. intros []. by apply writer_denotes. Qed.

Definition deferred_message d : list Z := match df_error d with [] => cstring "deferred procedure failed" | e => e end.

(** the packet that answers a deferred call *)
Definition deferred_answer x d : list Z :=
  if df_result d =? 0 then packet x WIRECALL_OP_RESPONSE (df_proc_id d) (df_call_id d) (w_bytes (df_response d))
  else packet x WIRECALL_OP_ERROR (df_proc_id d) (df_call_id d) (error_text (deferred_message d)).

Lemma answer_deferred_spec p d x h c E :
  defs x !! p = Some d -> def_wf d -> conns x !! df_conn d = Some c -> (cn_detached c = false -> can_queue (df_conn d) c x h) ->
  wp (answer_deferred d)
    (fun _ '(x', h') =>
       if cn_detached c || cn_closing c then x' = x /\ h' = h
       else exists r, packet_queued (df_conn d) c x h (deferred_answer x d) r x' h') E (x, h).
Proof.
  intros Hd Hwf Hc Hcq. unfold answer_deferred. apply wp_bind. eapply wp_get_conn; [done |].
  destruct (cn_detached c) eqn:Ed; cbn [negb andb orb]; [by apply wp_ret |].
  destruct (cn_closing c); cbn [negb]; [by apply wp_ret |]. specialize (Hcq eq_refl).
  destruct Hwf as [Wa Ww [We1 We2] [Wi Wp]]. unfold deferred_answer. apply wp_bind. destruct (df_result d =? 0); apply wp_attempt.
  - eapply wp_mono; [apply (queue_packet_spec H64 Hlimit (df_conn d) c); [done | done | done | by apply writer_denotes] | |].
    + intros [] [x' h'] Hq. apply wp_ret. by exists (Ok tt).
    + intros [x' h'] Hq. apply wp_ret. by exists Err.
  - eapply wp_mono; [apply (queue_string_error_spec H64 Hlimit (df_conn d) c (df_proc_id d) (df_call_id d) (deferred_message d)); try done | |].
    + unfold deferred_message. destruct (df_error d); [apply cstring_ok | done].
    + unfold deferred_message. destruct (df_error d) eqn:Ee; [by_compute |]. unfold DEFERRED_ERROR_SIZE in We2. lia.
    + intros [] [x' h'] Hq. apply wp_ret. by exists (Ok tt).
    + intros [x' h'] Hq. apply wp_ret. by exists Err.
Qed.

(** what queueing a packet leaves of the connection *)
Record queued_conn (pkt : list Z) (r : res unit) c c' : Prop := {
  qc_fd : cn_fd c' = cn_fd c;
  qc_read : cn_read c' = cn_read c;
  qc_closing : cn_closing c' = cn_closing c;
  qc_detached : cn_detached c' = cn_detached c;
  qc_pending : cn_pending_deferred c' = cn_pending_deferred c;
  qc_unsent : match r with
              | Ok _ => unsent c' = unsent c ++ pkt
              | _ => unsent c' = unsent c \/ unsent c' = unsent c ++ ztake WIRECALL_HEADER_SIZE pkt
              end;
}.

Lemma writes_unsent c bs c' h h' : conn_wf c -> writes c bs c' h h' -> unsent c' = unsent c ++ bs.
Proof.
  intros [_ _ Ho _ _] (b' & [_ Eb _] & ->). unfold unsent. cbn. rewrite Eb. by apply zdrop_app_le.
Qed.

Lemma packet_queued_conn p c x h pkt r x' h' :
  conns x !! p = Some c -> conn_wf c -> packet_queued p c x h pkt r x' h' ->
  frame (eq p) x x' /\ defs x' = defs x /\ wk_net x' = wk_net x /\
  exists c', conns x' = <[p := c']> (conns x) /\ queued_conn pkt r c c'.
Proof.
  intros Hc Hwf Hq. destruct r as [u| |]; [| | done].
  - destruct Hq as (c' & Hw & ->). pose proof (writes_unsent _ _ _ _ _ Hwf Hw) as Hu. unfold queued.
    destruct (cn_write_queued c') eqn:Eq.
    + split; [apply frame_upd |]. split; [done |]. split; [done |]. exists c'. split; [by rewrite conns_upd |].
      destruct Hw as (b' & _ & ->). by constructor.
    + split; [eapply frame_trans; [apply (frame_upd p (with_queued true c')) | by apply frame_same_conns] |]. split; [done |]. split; [done |].
      exists (with_queued true c'). split; [exact (conns_upd p (with_queued true c') x) |].
      destruct Hw as (b' & _ & ->). by constructor.
  - destruct Hq as (c' & bs & Hw & -> & Hbs). pose proof (writes_unsent _ _ _ _ _ Hwf Hw) as Hu.
    split; [apply frame_upd |]. split; [done |]. split; [done |]. exists c'. split; [by rewrite conns_upd |].
    destruct Hw as (b' & _ & ->). constructor; try done.
    destruct Hbs as [-> | ->]; [left; by rewrite Hu, app_nil_r | by right].
Qed.

(** a change of [p] that leaves it live is nobody's business *)
Lemma frame_lives p c c' x x' :
  conns x !! p = Some c -> conns x' !! p = Some c' -> cn_detached c' = cn_detached c -> cn_fd c' = cn_fd c -> keeps_data c c' ->
  frame (eq p) x x' -> frame none x x'.
Proof.
  intros Hc Hc' Hd Hf Hu [F1 F2 F3 F4]. constructor; try done. intros q cq Hq Hcq Hdq.
  destruct (decide (p = q)) as [<- | Hne]; [| by apply F1]. exists c'. simplify_eq. split_and!; [done | congruence | congruence | done].
Qed.

Lemma queued_keeps pkt r c c' : queued_conn pkt r c c' -> keeps_data c c'.
Proof.
  intros [_ _ _ _ _ Hu] Hne E. apply Hne. destruct r; [| destruct Hu as [Hu | Hu] ..]; rewrite Hu in E; try exact E; by apply app_eq_nil in E as [-> _].
Qed.

Lemma answer_deferred_ok base fbase fl dl extra fextra x h p d c E :
  side_ok base fbase (busy fl dl) extra fextra x h -> defs x !! p = Some d -> conns x !! df_conn d = Some c ->
  wp (answer_deferred d)
    (fun _ '(x', h') => side_ok base fbase (busy fl dl) extra fextra x' h' /\ frame none x x' /\ defs x' = defs x /\
       exists c', conns x' !! df_conn d = Some c' /\ cn_detached c' = cn_detached c) E (x, h).
Proof.
  intros Hk Hd Hc. pose proof (sk_conn_wf _ _ _ _ _ _ _ Hk _ _ Hc) as Hwf.
  eapply wp_mono; [apply (answer_deferred_spec p d x h c E) | | done]; try done.
  - by apply (sk_def_wf _ _ _ _ _ _ _ Hk p d).
  - intros Hl. by eapply sk_can_queue.
  - intros _ [x' h'] Hpost. destruct (cn_detached c || cn_closing c) eqn:El.
    + destruct Hpost as [-> ->]. split; [done |]. split; [apply frame_refl |]. split; [done |]. by exists c.
    + apply orb_false_elim in El as [El _]. destruct Hpost as [r Hq].
      destruct (packet_queued_conn _ _ _ _ _ _ _ _ Hc Hwf Hq) as (Hf & Hdefs & _ & c' & Hc' & Hqc).
      pose proof (queued_keeps _ _ _ _ Hqc) as Hkeep. destruct Hqc as [Q1 Q2 Q3 Q4 Q5 Q6].
      assert (Hl' : conns x' !! df_conn d = Some c') by (rewrite Hc'; apply lookup_insert_eq).
      split; [by eapply packet_queued_ok |]. split; [by eapply (frame_lives (df_conn d) c c') |]. split; [done |]. by exists c'.
Qed.

Lemma frame_lives_any q x x' :
  (forall c, conns x !! q = Some c -> cn_detached c = true) -> frame (eq q) x x' -> frame none x x'.
Proof.
  intros Hq [F1 F2 F3 F4]. constructor; try done. intros k ck Hk Hck Hdk.
  destruct (decide (q = k)) as [<- | Hne]; [| by apply F1]. rewrite (Hq ck Hck) in Hdk. done.
Qed.

Lemma drain_one_spec base fbase fl p dl extra fextra x h E :
  side_ok base fbase (busy fl (p :: dl)) extra fextra x h ->
  wp (drain_one p) (fun _ '(x', h') => side_ok base fbase (busy fl dl) extra fextra x' h' /\ frame none x x') E (x, h).
Proof.
  intros Hk. destruct (proj2 (sk_completed _ _ _ _ _ _ _ Hk) p) as [Hin _].
  destruct Hin as (d & Hd & Hcomp); [cbn; rewrite elem_of_app, elem_of_cons; auto |].
  destruct (sk_def_wf _ _ _ _ _ _ _ Hk p d Hd) as [Hdwf [c Hc]]. set (q := df_conn d) in *.
  unfold drain_one. apply wp_bind. eapply wp_get_def; [done |]. fold q. apply wp_bind.
  eapply wp_mono; [by apply (answer_deferred_ok base fbase fl (p :: dl) extra fextra x h p d c) | | intros s; exact (fun H => H)].
  intros _ [x1 h1] (Hk1 & Hf1 & Hdefs1 & c1 & Hc1 & Hdet1). rewrite <- Hdefs1 in Hd.
  destruct (sk_count_down _ _ _ _ _ _ _ _ _ _ _ Hk1 Hd Hc1) as [Hpos Hk2].
  apply wp_bind. eapply wp_get_conn; [done |]. apply wp_bind. replace (0 <? cn_pending_deferred c1) with true by (symmetry; by apply Z.ltb_lt).
  eapply wp_put_conn; [done |]. fold q in Hk2. set (c2 := with_deferred (cn_pending_deferred c1 - 1) c1) in *. set (x2 := upd_conn q c2 x1) in *.
  assert (Hc2 : conns x2 !! q = Some c2) by (subst x2; rewrite conns_upd; apply lookup_insert_eq).
  assert (Hf2 : frame none x x2).
  { eapply frame_trans; [exact Hf1 |]. eapply (frame_lives q c1 c2); [done | done | done | done | intros Hu; exact Hu | apply frame_upd]. }
  apply wp_bind. eapply wp_mono; [apply (deferred_free_spec base fbase _ extra fextra x2 h1 p d dl E Hk2) | | done]; [done | done | cbn; by rewrite Hcomp |].
  intros _ [x3 h3] (a & -> & Hk3). change (with_hole None dl (with_hole (Some p) (p :: dl) (ending q fl (p :: dl)))) with (ending q fl dl) in Hk3.
  assert (Hf3 : frame none x (set_defs a x2)) by (eapply frame_trans; [exact Hf2 | by apply frame_same_conns]).
  apply wp_bind. eapply wp_get_conn; [exact Hc2 |]. apply wp_if; intros Hend.
  - apply andb_prop in Hend as [Hdet _]. cbn [connection_destroy]. apply wp_bind. eapply wp_get_conn; [exact Hc2 |]. rewrite Hdet.
    apply wp_bind, wp_ret. eapply wp_mono; [apply (destroy_end base fbase fl dl extra fextra (set_defs a x2) h3 q c2 E Hk3 Hc2 Hdet) | | done].
    intros _ [x4 h4] [Hk4 Hf4]. split; [done |]. eapply frame_trans; [exact Hf3 |]. eapply (frame_lives_any q); [| exact Hf4].
    intros c0 Hc0. change (conns (set_defs a x2)) with (conns x2) in Hc0. congruence.
  - apply wp_ret. split; [| done]. destruct (cn_detached c2) eqn:Edet; cbn [andb] in Hend.
    + eapply (sk_keep _ _ _ _ _ _ _ _ q c2); [done | exact Hc2 |]. zb.
      pose proof (sk_count _ _ _ _ _ _ _ Hk3 q c2 Hc2) as Hn. pose proof (zlen_nonneg (named q (without (g_hole (ending q fl dl)) (defs (set_defs a x2))))). lia.
    + destruct Hk3 as [Ka Kd Kc Kk Kw Kcw Kdw Kl Kq Kcm Kh Kn Kdt Ko Kf]. constructor; try done. intros k ck Hck Hdk _. eapply Kdt; [done | done |]. cbn. intros [= <-].
      change (conns (set_defs a x2)) with (conns x2) in Hck. congruence.
Qed.

Lemma drain_completed_loop_spec base fbase fl dl extra fextra x h E :
  side_ok base fbase (busy fl dl) extra fextra x h ->
  wp (drain_completed_loop dl) (fun _ '(x', h') => side_ok base fbase (busy fl []) extra fextra x' h' /\ frame none x x') E (x, h).
Proof.
  revert x h. induction dl as [|p dl IH]; intros x h Hk; [apply wp_ret; split; [done | apply frame_refl] |].
  cbn [drain_completed_loop]. apply wp_bind. eapply wp_mono; [by apply drain_one_spec | | intros s; exact (fun H => H)].
  intros _ [x1 h1] [Hk1 Hf1]. eapply wp_mono; [by apply IH | | done]. intros _ [x2 h2] [? ?]. split; [done | by eapply frame_trans].
Qed.

Lemma worker_drain_completed_spec base fbase fl extra fextra x h E :
  side_ok base fbase (busy fl []) extra fextra x h ->
  wp worker_drain_completed (fun _ '(x', h') => side_ok base fbase (busy fl []) extra fextra x' h' /\ frame none x x') E (x, h).
Proof.
  intros Hk. unfold worker_drain_completed. apply wp_bind, wp_gets_side. apply wp_bind, wp_upd_side.
  eapply wp_mono; [apply (drain_completed_loop_spec base fbase fl (wk_completed x) extra fextra (set_completed [] x) h E) | | done].
  - destruct Hk as [Ka Kd Kc Kk Kw Kcw Kdw Kl Kq Kcm Kh Kn Kdt Ko Kf]. constructor; try done. cbn in *. by rewrite app_nil_r in Kcm.
  - intros _ [x' h'] [? Hf]. split; [done |]. eapply frame_trans; [| exact Hf]. by apply frame_same_conns.
Qed.
End Deferred.

(** ** Handlers *)
Section Handlers.
Context `{HH : Host} `{HP : Heap W} `{NN : Net K} `{BB : Backend B}.
Hypothesis H64 : size_bits = 64.
Hypothesis Hlimit : address_limited.
Variable sync_handler : forall (handler data call_id proc_id : Z) (args : value_array),
  wirecall_writer -> W -> Z * wirecall_writer * W.
Variable deferred_handler : forall (handler data call_id proc_id : Z) (args : value_array), list deferred_action * Z.

(** handlers reach the heap only through the response writer, or leave it as
    they found it *)
Definition sync_lawful : Prop :=
  forall hd dt ci pi a w h r w' h' base l,
    writer_ok w -> owns base (option_list (w_data w) ++ l) h -> sync_handler hd dt ci pi a w h = (r, w', h') ->
    writer_ok w' /\ owns base (option_list (w_data w') ++ l) h'.
Definition action_ok (a : deferred_action) : Prop :=
  match a with
  | DWrite v => pvalue_ok v
  | DComplete => True
  | DFail m => match m with Some m => bytes_ok m | None => True end
  end.
Definition deferred_lawful : Prop :=
  forall hd dt ci pi a, Forall action_ok (deferred_handler hd dt ci pi a).1.
Hypothesis Hsync : sync_lawful.
Hypothesis Hdeferred : deferred_lawful.
Implicit Types (x : side K B) (h : W) (p q : Z) (c : wirecall_connection) (d : wirecall_deferred) (g : ghost).

(** a packet as parse_available hands it over *)
Record request_ok (header : wirecall_header) (payload : list Z) : Prop := {
  rq_header : header_ok header;
  rq_payload : bytes_ok payload;
  rq_size : h_size header <= zlen payload;
}.

Lemma request_bounds header payload : request_ok header payload ->
  0 <= h_proc_id header < 2 ^ 64 /\ 0 <= h_call_id header < 2 ^ 64 /\ 0 <= h_size header <= zlen payload /\ h_size header < 2 ^ 56.
Proof.
  intros [(_ & _ & Hp & Hs & Hc & _) _ Hl]. unfold WIRECALL_MAX_PAYLOAD_SIZE in Hs. split_and!; lia.
Qed.

(** the operation and the payload of the answer to a synchronous call *)
Definition sync_answer (f data : Z) (header : wirecall_header) (payload : list Z) (h : W) : wirecall_op * list Z :=
  match wirecall_payload_decode (Some payload) (h_size header) true true h with
  | (Ok a, h1) =>
      let '(result, response, _) := sync_handler f data (h_call_id header) (h_proc_id header) a wirecall_writer_init h1 in
      if result =? 0 then (WIRECALL_OP_RESPONSE, w_bytes response) else (WIRECALL_OP_ERROR, error_text (cstring "procedure failed"))
  | _ => (WIRECALL_OP_ERROR, error_text (cstring "malformed payload"))
  end.

(** the request is answered by [answer] *)
Definition answers p c x h (header : wirecall_header) (answer : wirecall_op * list Z) (r : res unit) x' h' : Prop :=
  packet_queued p c x h (packet x answer.1 (h_proc_id header) (h_call_id header) answer.2) r x' h'.

Lemma error_answer p c header message x h h0 :
  can_queue p c x h -> 0 <= h_proc_id header < 2 ^ 64 -> 0 <= h_call_id header < 2 ^ 64 -> bytes_ok message -> zlen message < 2 ^ 32 ->
  (forall base l, owns base l h0 -> owns base l h) ->
  wp (queue_string_error (Some p) (h_proc_id header) (h_call_id header) message)
    (fun _ '(x', h') => answers p c x h0 header (WIRECALL_OP_ERROR, error_text message) (Ok tt) x' h')
    (fun '(x', h') => answers p c x h0 header (WIRECALL_OP_ERROR, error_text message) Err x' h') (x, h).
Proof.
  intros Hcq Hp Hc Hb Hl Hh. eapply wp_mono; [by apply queue_string_error_spec | |].
  - intros _ [x' h'] Hq. eapply (packet_queued_wrap _ _ _ _ h _ _ _ _ _ []); [exact Hq | done | done].
  - intros [x' h'] Hq. eapply (packet_queued_wrap _ _ _ _ h _ _ _ _ _ []); [exact Hq | done | done].
Qed.

Lemma can_queue_heap p c x h h' R :
  can_queue p c x h -> (forall base l, owns base l h -> owns base (R ++ l) h') -> can_queue p c x h'.
Proof.
  intros [? ? ? ? (base & l & Ho)] Hh. constructor; try done. exists base. apply Hh in Ho.
  rewrite Permutation_app_swap_app in Ho. by eexists.
Qed.

(** what was held is still there after the answer is queued *)
Lemma answers_held p c x h header answer r x' h' R base l :
  answers p c x h header answer r x' h' -> owns base (R ++ option_list (b_ptr (cn_write c)) ++ l) h ->
  exists l', owns base (R ++ l') h'.
Proof.
  intros Hans Ho. rewrite Permutation_app_swap_app in Ho. destruct r as [u| |]; [| | done].
  - destruct Hans as (c' & (b' & [_ _ Hx] & _) & _). apply Hx in Ho. rewrite Permutation_app_swap_app in Ho. by eexists.
  - destruct Hans as (c' & bs & (b' & [_ _ Hx] & _) & _). apply Hx in Ho. rewrite Permutation_app_swap_app in Ho. by eexists.
Qed.

(** the response and the arguments are released after the answer *)
Lemma sync_release p c x h h2 header answer r x' h3 w a :
  array_wf a -> (forall base l, owns base l h -> owns base ((option_list (w_data w) ++ array_blocks a) ++ l) h2) ->
  (exists base l, owns base (option_list (b_ptr (cn_write c)) ++ l) h) ->
  answers p c x h2 header answer r x' h3 ->
  exists h4, wirecall_values_free (va_ptr a) (va_cells a) (wirecall_writer_free w h3).2 = (Ok tt, h4) /\
    answers p c x h header answer r x' h4.
Proof.
  intros Haw HR (base & l & Ho) Hans. cbn [wirecall_writer_free snd].
  destruct (answers_held _ _ _ _ _ _ _ _ _ _ _ _ Hans (HR _ _ Ho)) as (l' & Ho3). rewrite <- app_assoc in Ho3. apply owns_free_opt in Ho3.
  destruct (values_free_blocks a _ _ _ Haw Ho3) as (h4 & E4 & _). exists h4. split; [done |].
  eapply (packet_queued_wrap _ _ _ _ h2 h3 h4 _ _ _ _); [exact Hans | exact HR |]. intros base1 l1 Ho1. rewrite <- app_assoc in Ho1.
  apply owns_free_opt in Ho1. destruct (values_free_blocks a _ _ _ Haw Ho1) as (h4' & E4' & ?). congruence.
Qed.

Lemma handle_sync_spec p c header rt f payload x h :
  can_queue p c x h -> request_ok header payload -> rt_handler rt = Some f ->
  wp (handle_sync_call sync_handler p header rt payload)
    (fun _ '(x', h') => answers p c x h header (sync_answer f (rt_user_data rt) header payload h) (Ok tt) x' h')
    (fun '(x', h') => answers p c x h header (sync_answer f (rt_user_data rt) header payload h) Err x' h') (x, h).
Proof.
  intros Hcq Hrq Hf. destruct (request_bounds _ _ Hrq) as (Hp & Hc & Hs & Hs56). destruct Hrq as [_ Hpb _].
  unfold handle_sync_call, sync_answer. apply wp_bind, wp_attempt, wp_on_mem. unfold wp at 1.
  destruct (wirecall_payload_decode (Some payload) (h_size header) true true h) as [r h1] eqn:Ed.
  assert (Hdec : forall base l, owns base l h -> match r with
    | Ok a => array_wf a /\ owns base (array_blocks a ++ l) h1 | Err => owns base l h1 | UB => False end).
  { intros base l Ho. pose proof (decode_framed H64 base l h (Some payload) (h_size header) r h1 Ho (conj Hpb (conj Hs Hs56)) Ed) as Hd.
    destruct r; [| done | done]. by destruct Hd as (? & ? & _). }
  pose proof (cq_owned _ _ _ _ Hcq) as (base0 & l0 & Qo). pose proof (Hdec _ _ Qo) as Hd0.
  destruct r as [a| |]; [| | done].
  2: { apply error_answer; [by apply (can_queue_heap p c x h h1 []) | done | done | apply cstring_ok | by_compute | done]. }
  destruct Hd0 as [Haw _]. rewrite Hf. unfold wp.
  destruct (sync_handler f (rt_user_data rt) (h_call_id header) (h_proc_id header) a wirecall_writer_init h1) as [[result w] h2] eqn:Eh.
  assert (Hw : forall base l, owns base l h -> writer_ok w /\ owns base ((option_list (w_data w) ++ array_blocks a) ++ l) h2).
  { intros base l Ho. destruct (Hdec base l Ho) as [_ Ho1]. rewrite <- app_assoc.
    exact (Hsync _ _ _ _ _ _ _ _ _ _ base (array_blocks a ++ l) writer_init_ok Ho1 Eh). }
  destruct (Hw _ _ Qo) as [Hwok _].
  assert (HR : forall base l, owns base l h -> owns base ((option_list (w_data w) ++ array_blocks a) ++ l) h2) by (intros base l Ho; by apply Hw).
  pose proof (can_queue_heap p c x h h2 _ Hcq HR) as Hcq2.
  set (answer := if result =? 0 then (WIRECALL_OP_RESPONSE, w_bytes w) else (WIRECALL_OP_ERROR, error_text (cstring "procedure failed"))).
  assert (Hq : wp (if result =? 0
      then queue_packet (Some p) WIRECALL_OP_RESPONSE WIRECALL_FLAG_NONE (h_proc_id header) (h_call_id header) (writer_data w) (w_len w)
      else queue_string_error (Some p) (h_proc_id header) (h_call_id header) (cstring "procedure failed"))
    (fun _ '(x', h') => answers p c x h2 header answer (Ok tt) x' h') (fun '(x', h') => answers p c x h2 header answer Err x' h') (x, h2)).
  { unfold answer. destruct (result =? 0); [by apply queue_packet_spec, writer_denotes |].
    by apply error_answer; [| | | apply cstring_ok | by_compute |]. }
  revert Hq. unfold wp.
  match goal with |- context [(if result =? 0 then ?m else ?m') (x, h2)] => destruct ((if result =? 0 then m else m') (x, h2)) as [rc [x' h3]] end.
  intros Hq.
  destruct rc as [u| |]; [| | done];
    destruct (sync_release _ _ _ _ _ _ _ _ _ _ _ _ Haw HR (cq_owned _ _ _ _ Hcq) Hq) as (h4 & -> & Hans); exact Hans.
Qed.

(** *** Deferred calls *)

(** the call [q] may have been written to and completed, nothing else happened *)
Definition acted q d x x' : Prop :=
  conns x' = conns x /\ wk_net x' = wk_net x /\ frame none x x' /\
  exists d', defs x' !! q = Some d' /\ df_conn d' = df_conn d.

Lemma acted_trans q d d1 x x1 x2 : defs x1 !! q = Some d1 -> df_conn d1 = df_conn d -> acted q d x x1 -> acted q d1 x1 x2 -> acted q d x x2.
Proof.
  intros _ Hd (A1 & A2 & A3 & _) (B1 & B2 & B3 & d2 & B4 & B5). split_and!; [congruence | congruence | by eapply frame_trans |].
  exists d2. split; [done | congruence].
Qed.

Lemma fail_text_ok m : match m with Some m => bytes_ok m | None => True end ->
  bytes_ok (fail_text m) /\ zlen (fail_text m) < DEFERRED_ERROR_SIZE.
Proof.
  intros Hm. split; [| apply snprintf_s_length; by_compute]. apply bytes_ok_ztake.
  assert (Hc : bytes_ok (c_str (default [] m))) by (destruct m; [by apply bytes_ok_c_str | apply bytes_ok_nil]).
  destruct (c_str (default [] m)); [apply cstring_ok | done].
Qed.

Lemma outcome_spec base fbase g extra fextra x h q d result error :
  side_ok base fbase g extra fextra x h -> defs x !! q = Some d -> bytes_ok error -> zlen error < DEFERRED_ERROR_SIZE ->
  wp (if df_completed d then fail else put_def q (with_outcome result error d) ;;; worker_queue_completed q)
    (fun _ '(x', h') => side_ok base fbase g extra fextra x' h' /\ acted q d x x')
    (fun '(x', h') => side_ok base fbase g extra fextra x' h' /\ acted q d x x') (x, h).
Proof.
  intros Hk Hd Hb Hl. destruct (df_completed d) eqn:Ec.
  - apply wp_fail. split; [done |]. split_and!; [done | done | apply frame_refl | by exists d].
  - eapply wp_mono; [apply (complete_spec base fbase g extra fextra x h q d result error (fun _ => False)); done | | done].
    intros _ [x' h'] (Hk' & Hf' & Hc' & Hn' & Hd'). split; [done |]. split_and!; [done | done | done |].
    exists (with_outcome result error d). rewrite Hd'. split; [apply lookup_insert_eq | done].
Qed.

Lemma def_owned base fbase g extra fextra x h q d :
  side_ok base fbase g extra fextra x h -> defs x !! q = Some d ->
  exists base l, owns base (option_list (w_data (df_response d)) ++ l) h.
Proof.
  intros Hk Hd. pose proof (sk_owns _ _ _ _ _ _ _ Hk) as Ko. rewrite (collect_lookup def_blocks _ _ _ Hd) in Ko. unfold def_blocks at 1 in Ko.
  rewrite <- !app_assoc in Ko. rewrite (Permutation_app_swap_app _ (array_blocks (df_args d))) in Ko.
  rewrite (Permutation_app_swap_app _ (option_list (w_data (df_response d)))) in Ko.
  rewrite (Permutation_app_swap_app _ (option_list (w_data (df_response d)))) in Ko. by eexists _, _.
Qed.

Lemma do_action_spec base fbase g extra fextra x h q d a E :
  side_ok base fbase g extra fextra x h -> defs x !! q = Some d -> action_ok a ->
  wp (do_action q a) (fun _ '(x', h') => side_ok base fbase g extra fextra x' h' /\ acted q d x x') E (x, h).
Proof.
  intros Hk Hd Ha. destruct (sk_def_wf _ _ _ _ _ _ _ Hk q d Hd) as [[Wa Ww We Wi] _]. destruct a as [v| |m]; cbn [do_action].
  - unfold deferred_write. apply wp_bind. eapply wp_get_def; [done |]. unfold wp at 1.
    destruct (write_value v (df_response d, h)) as [r [w h1]] eqn:Ew.
    assert (Hw : forall base l, owns base (option_list (w_data (df_response d)) ++ l) h ->
      writer_ok w /\ owns base (option_list (w_data w) ++ l) h1 /\ r <> UB).
    { intros base1 l Ho. destruct (write_value_spec base1 l v _ _ _ _ _ Ha Ww Ho Ew) as (? & ? & Hr). split_and!; [done | done | by destruct r]. }
    destruct (def_owned _ _ _ _ _ _ _ _ _ Hk Hd) as (base0 & l0 & Ho0). destruct (Hw _ _ Ho0) as (Hwok & _ & Hub).
    assert (Hgo : wp (put_def q (with_response w d)) (fun _ '(x', h') => side_ok base fbase g extra fextra x' h' /\ acted q d x x') E (x, h1)).
    { eapply wp_put_def; [done |]. split.
      - eapply (sk_def_put _ _ _ _ _ _ x h h1 q d (with_response w d)); try done. intros l Ho. unfold def_blocks in *. cbn [with_response df_args df_response df_payload].
        rewrite <- !app_assoc in *. rewrite Permutation_app_swap_app in Ho. rewrite Permutation_app_swap_app. by apply Hw.
      - split_and!; [done | done | by apply frame_same_conns |]. exists (with_response w d). rewrite defs_upd. split; [apply lookup_insert_eq | done]. }
    destruct r; [exact Hgo | exact Hgo | done].
  - apply wp_bind, wp_attempt. cbn [wirecall_deferred_complete]. apply wp_bind. eapply wp_get_def; [done |].
    eapply wp_mono; [apply (outcome_spec base fbase g extra fextra x h q d 0 (df_error d)); by destruct We | |].
    + intros _ [x' h'] ?. by apply wp_ret.
    + intros [x' h'] ?. by apply wp_ret.
  - apply wp_bind, wp_attempt. cbn [wirecall_deferred_fail]. apply wp_bind. eapply wp_get_def; [done |]. cbv zeta.
    destruct (fail_text_ok m Ha) as [Ht1 Ht2].
    eapply wp_mono; [apply (outcome_spec base fbase g extra fextra x h q d (-1) _ Hk Hd Ht1 Ht2) | |].
    + intros _ [x' h'] ?. by apply wp_ret.
    + intros [x' h'] ?. by apply wp_ret.
Qed.

Lemma do_actions_spec base fbase g extra fextra l x h q d E :
  side_ok base fbase g extra fextra x h -> defs x !! q = Some d -> Forall action_ok l ->
  wp (do_actions q l) (fun _ '(x', h') => side_ok base fbase g extra fextra x' h' /\ acted q d x x') E (x, h).
Proof.
  revert x h d. induction l as [|a l IH]; intros x h d Hk Hd Hl; cbn [do_actions].
  { apply wp_ret. split; [done |]. split_and!; [done | done | apply frame_refl | by exists d]. }
  apply Forall_cons_1 in Hl as [Ha Hl]. apply wp_bind.
  eapply wp_mono; [by apply (do_action_spec base fbase g extra fextra x h q d a (fun _ => False)) | | done].
  intros _ [x1 h1] [Hk1 Hact]. pose proof Hact as (_ & _ & _ & d1 & Hd1 & Hc1).
  eapply wp_mono; [by apply (IH x1 h1 d1) | | done]. intros _ [x2 h2] [? Hact2]. split; [done |]. by eapply acted_trans.
Qed.

(** what a request leaves of its connection: [out] is behind what it has to send *)
Record served (out : list Z) c c' : Prop := {
  se_fd : cn_fd c' = cn_fd c;
  se_read : cn_read c' = cn_read c;
  se_detached : cn_detached c' = cn_detached c;
  se_closing : cn_closing c' = cn_closing c;
  se_unsent : unsent c' = unsent c ++ out;
}.

(** the packets a request can be answered with at once: all of one, or on
    failure what got into the buffer *)
Definition reply (pkt : list Z) (r : res unit) (out : list Z) : Prop :=
  match r with Ok _ => out = pkt | _ => out = [] \/ out = ztake WIRECALL_HEADER_SIZE pkt end.

Lemma queued_served pkt r c c' : queued_conn pkt r c c' -> exists out, served out c c' /\ reply pkt r out.
Proof.
  intros [Q1 Q2 Q3 Q4 Q5 Q6]. unfold reply. destruct r as [u| |].
  - exists pkt. split; [by constructor | done].
  - destruct Q6 as [Q6 | Q6]; [exists []; split; [by constructor; [| | | | rewrite app_nil_r] | by left] | eexists; split; [by constructor | by right]].
  - destruct Q6 as [Q6 | Q6]; [exists []; split; [by constructor; [| | | | rewrite app_nil_r] | by left] | eexists; split; [by constructor | by right]].
Qed.

(** the outcome of a request for the connections of the worker *)
Definition outcome base fbase fl dl extra fextra p c x (replies : res unit -> list Z -> Prop) (r : res unit) x' h' : Prop :=
  side_ok base fbase (busy fl dl) extra fextra x' h' /\ frame (eq p) x x' /\ wk_net x' = wk_net x /\
  exists c' out, conns x' !! p = Some c' /\ served out c c' /\ replies r out.

Lemma answers_outcome base fbase fl dl extra fextra p c x h header answer r x' h' :
  side_ok base fbase (busy fl dl) extra fextra x h -> conns x !! p = Some c -> cn_detached c = false ->
  answers p c x h header answer r x' h' ->
  outcome base fbase fl dl extra fextra p c x (reply (packet x answer.1 (h_proc_id header) (h_call_id header) answer.2)) r x' h'.
Proof.
  intros Hk Hc Hd Ha. destruct (packet_queued_conn _ _ _ _ _ _ _ _ Hc (sk_conn_wf _ _ _ _ _ _ _ Hk _ _ Hc) Ha) as (Hf & _ & Hn & c' & Hc' & Hq).
  destruct (queued_served _ _ _ _ Hq) as (out & Hs & Hr). split_and!; [by eapply packet_queued_ok | done | done |].
  exists c', out. split_and!; [rewrite Hc'; apply lookup_insert_eq | done | done].
Qed.

(** a deferred call is registered, or refused with an error packet *)
Definition deferred_replies x header (r : res unit) (out : list Z) : Prop :=
  (r = Ok tt /\ out = []) \/
  exists message, reply (packet x WIRECALL_OP_ERROR (h_proc_id header) (h_call_id header) (error_text message)) r out.

Lemma refuse_spec base fbase fl dl extra fextra p c header message x x1 h1 :
  side_ok base fbase (busy fl dl) extra fextra x1 h1 -> conns x1 = conns x -> frame (eq p) x x1 -> wk_net x1 = wk_net x ->
  conns x !! p = Some c -> cn_detached c = false ->
  0 <= h_proc_id header < 2 ^ 64 -> 0 <= h_call_id header < 2 ^ 64 -> bytes_ok message -> zlen message < 2 ^ 32 ->
  wp (queue_string_error (Some p) (h_proc_id header) (h_call_id header) message)
    (fun _ '(x', h') => outcome base fbase fl dl extra fextra p c x (deferred_replies x header) (Ok tt) x' h')
    (fun '(x', h') => outcome base fbase fl dl extra fextra p c x (deferred_replies x header) Err x' h') (x1, h1).
Proof.
  intros Hk1 Hcs Hf Hn Hc Hd Hp Hi Hb Hl. rewrite <- Hcs in Hc.
  assert (Hpk : packet x1 WIRECALL_OP_ERROR (h_proc_id header) (h_call_id header) (error_text message) =
                packet x WIRECALL_OP_ERROR (h_proc_id header) (h_call_id header) (error_text message)).
  { unfold packet. by destruct Hf as [_ (-> & -> & _) _ _]. }
  assert (Hgo : forall r x' h', answers p c x1 h1 header (WIRECALL_OP_ERROR, error_text message) r x' h' ->
    outcome base fbase fl dl extra fextra p c x (deferred_replies x header) r x' h').
  { intros r x' h' Ha. destruct (answers_outcome _ _ _ _ _ _ _ _ _ _ _ _ _ _ _ Hk1 Hc Hd Ha) as (Hk' & Hf' & Hn' & c' & out & Hc' & Hs & Hr).
    split_and!; [done | by eapply frame_trans | congruence |]. exists c', out. split_and!; [done | done |].
    right. exists message. cbn [fst snd] in Hr. by rewrite Hpk in Hr. }
  eapply wp_mono; [apply (error_answer p c header message x1 h1 h1); try done; by eapply sk_can_queue | |].
  - intros _ [x' h'] Ha. by apply Hgo.
  - intros [x' h'] Ha. by apply Hgo.
Qed.

(** a call in construction *)
Record fresh_def p d : Prop := {
  fd_conn : df_conn d = p;
  fd_args : df_args d = no_values;
  fd_open : df_completed d = false;
}.

Lemma payload_blocks b d : df_payload d = None -> def_blocks (with_body (Some b) (df_args d) d) ≡ₚ b :: def_blocks d.
Proof.
  intros Hnone. unfold def_blocks. cbn [with_body df_args df_response df_payload]. rewrite Hnone. cbn [option_list option_rect].
  rewrite app_nil_r, app_assoc. symmetry. apply Permutation_cons_append.
Qed.

Lemma deferred_payload_spec base fbase g extra fextra p q d size payload x h :
  side_ok base fbase g extra fextra x h -> defs x !! q = Some d -> fresh_def p d -> df_payload d = None ->
  bytes_ok payload -> 0 <= size <= zlen payload ->
  wp (deferred_payload q size payload)
    (fun copied '(x', h') => side_ok base fbase g extra fextra x' h' /\ conns x' = conns x /\ wk_net x' = wk_net x /\ frame none x x' /\
       (exists d', defs x' !! q = Some d' /\ fresh_def p d') /\
       match copied with Some bs => bytes_ok bs /\ zlen bs = size | None => size = 0 end)
    (fun '(x', h') => side_ok base fbase g extra fextra x' h' /\ x' = x) (x, h).
Proof.
  intros Hk Hd Hfr Hnone Hb Hs. unfold deferred_payload. destruct (0 <? size) eqn:E0; zb.
  2: { apply wp_ret. split_and!; [done | done | done | apply frame_refl | by exists d | lia]. }
  apply wp_bind, wp_on_mem. unfold wp at 1. destruct (heap_alloc size h) as [[b|] h1] eqn:Ea.
  - apply wp_bind. unfold wp at 1, lift. cbn [buffer_bytes]. replace (size <=? zlen payload) with true by (symmetry; apply Z.leb_le; lia).
    apply wp_bind. eapply wp_get_def; [done |]. apply wp_bind. eapply wp_put_def; [done |]. apply wp_ret.
    destruct (sk_def_wf _ _ _ _ _ _ _ Hk q d Hd) as [[Wa Ww We Wi] _].
    split_and!; [| done | done | by apply frame_same_conns | | by apply bytes_ok_ztake | by apply zlen_ztake].
    + eapply (sk_def_put _ _ _ _ _ _ x h h1 q d (with_body (Some b) (df_args d) d)); try done. intros l Ho. rewrite payload_blocks by done. cbn [app].
      eapply owns_alloc; [| exact Ho | exact Ea]. lia.
    + exists (with_body (Some b) (df_args d) d). rewrite defs_upd. split; [apply lookup_insert_eq | by destruct Hfr].
  - apply wp_fail. split; [| done]. destruct Hk as [Ka Kd Kc Kk Kw Kcw Kdw Kl Kq Kcm Kh Kn Kdt Ko Kf]. constructor; try done.
    eapply owns_alloc_none; [| done | done]. lia.
Qed.

Definition new_deferred p header : wirecall_deferred :=
  {| df_conn := p; df_call_id := h_call_id header; df_proc_id := h_proc_id header; df_payload := None;
     df_payload_len := h_size header; df_args := no_values; df_response := wirecall_writer_init;
     df_result := 0; df_error := []; df_completed := false |}.

Lemma new_deferred_wf p header payload : request_ok header payload -> def_wf (new_deferred p header).
Proof.
  intros Hrq. destruct (request_bounds _ _ Hrq) as (? & ? & _ & _).
  constructor; [apply no_values_wf | apply writer_init_ok | split; [apply bytes_ok_nil | by_compute] | done].
Qed.

(** the handler runs, and its result is honoured *)
Lemma deferred_run_spec base fbase fl dl extra fextra p c x x1 h1 q d header actions (result : Z) :
  side_ok base fbase (busy fl dl) extra fextra x1 h1 -> defs x1 !! q = Some d -> Forall action_ok actions ->
  frame (eq p) x x1 -> wk_net x1 = wk_net x -> (exists c1, conns x1 !! p = Some c1 /\ served [] c c1) ->
  wp (do_actions q actions ;;;
      d <- get_def q ;;
      (if negb (result =? 0) && negb (df_completed d)
       then attempt (wirecall_deferred_fail (Some q) (Some (cstring "deferred procedure failed"))) ;;; ret tt else ret tt))
    (fun _ '(x', h') => outcome base fbase fl dl extra fextra p c x (deferred_replies x header) (Ok tt) x' h')
    (fun '(x', h') => outcome base fbase fl dl extra fextra p c x (deferred_replies x header) Err x' h') (x1, h1).
Proof.
  intros Hk Hd Hl Hf Hn (c1 & Hc1 & Hs1). apply wp_bind.
  eapply wp_mono; [by apply (do_actions_spec base fbase (busy fl dl) extra fextra actions x1 h1 q d (fun _ => False)) | | done].
  intros _ [x2 h2] (Hk2 & Hcs2 & Hn2 & Hf2 & d2 & Hd2 & _).
  assert (Hfin : forall x3 h3, side_ok base fbase (busy fl dl) extra fextra x3 h3 -> conns x3 = conns x2 -> wk_net x3 = wk_net x2 -> frame none x2 x3 ->
    outcome base fbase fl dl extra fextra p c x (deferred_replies x header) (Ok tt) x3 h3).
  { intros x3 h3 Hk3 Hcs3 Hn3 Hf3. split_and!; [done | | congruence |].
    - eapply frame_trans; [exact Hf |]. eapply frame_trans; [by apply frame_none_any | by apply frame_none_any].
    - exists c1, []. split_and!; [congruence | done | by left]. }
  apply wp_bind. eapply wp_get_def; [done |]. apply wp_if; intros _.
  - apply wp_bind, wp_attempt. cbn [wirecall_deferred_fail]. apply wp_bind. eapply wp_get_def; [done |].
    destruct (fail_text_ok (Some (cstring "deferred procedure failed")) (cstring_ok _)) as [Ht1 Ht2].
    eapply wp_mono; [apply (outcome_spec base fbase (busy fl dl) extra fextra x2 h2 q d2 (-1) _ Hk2 Hd2 Ht1 Ht2) | |].
    + intros _ [x3 h3] (? & ? & ? & ? & _). apply wp_ret. by apply Hfin.
    + intros [x3 h3] (? & ? & ? & ? & _). apply wp_ret. by apply Hfin.
  - apply wp_ret. apply Hfin; [done | done | done | apply frame_refl].
Qed.

(** giving up a call in construction *)
Lemma deferred_abandon base fbase fl dl extra fextra p c q d header message x x1 h1 :
  side_ok base fbase (with_hole (Some q) dl (busy fl dl)) extra fextra x1 h1 -> defs x1 !! q = Some d -> fresh_def p d ->
  conns x1 = conns x -> frame none x x1 -> wk_net x1 = wk_net x -> conns x !! p = Some c -> cn_detached c = false ->
  0 <= h_proc_id header < 2 ^ 64 -> 0 <= h_call_id header < 2 ^ 64 -> bytes_ok message -> zlen message < 2 ^ 32 ->
  wp (deferred_free (Some q) ;;; queue_string_error (Some p) (h_proc_id header) (h_call_id header) message)
    (fun _ '(x', h') => outcome base fbase fl dl extra fextra p c x (deferred_replies x header) (Ok tt) x' h')
    (fun '(x', h') => outcome base fbase fl dl extra fextra p c x (deferred_replies x header) Err x' h') (x1, h1).
Proof.
  intros Hk Hd [_ _ Hopen] Hcs Hf Hn Hc Hdt Hp Hi Hb Hl. apply wp_bind.
  eapply wp_mono; [apply (deferred_free_spec base fbase _ extra fextra x1 h1 q d dl (fun _ => False) Hk) | | done]; [done | done | by rewrite Hopen |].
  intros _ [x2 h2] (a & -> & Hk2). apply (refuse_spec base fbase fl dl extra fextra p c header message x (set_defs a x1) h2); try done.
  eapply frame_trans; [by apply frame_none_any | by apply frame_same_conns].
Qed.

Lemma args_blocks a d : df_args d = no_values -> def_blocks (with_body (df_payload d) a d) = array_blocks a ++ def_blocks d.
Proof. intros Ha. unfold def_blocks. cbn [with_body df_args df_response df_payload]. by rewrite Ha. Qed.

(** the arguments are in place: the connection counts the call and the handler runs *)
Lemma deferred_accept base fbase fl dl extra fextra p c x x2 h2 h3 q d2 header rt f args :
  side_ok base fbase (with_hole (Some q) dl (busy fl dl)) extra fextra x2 h2 -> defs x2 !! q = Some d2 -> fresh_def p d2 ->
  conns x2 = conns x -> frame none x x2 -> wk_net x2 = wk_net x -> conns x !! p = Some c ->
  array_wf args -> (forall base l, owns base l h2 -> owns base (array_blocks args ++ l) h3) ->
  wp (d <- get_def q ;;
      put_def q (with_body (df_payload d) args d) ;;;
      c <- get_conn p ;;
      put_conn p (with_deferred (u32 (cn_pending_deferred c + 1)) c) ;;;
      let '(actions, result) := deferred_handler f (rt_user_data rt) (h_call_id header) (h_proc_id header) args in
      do_actions q actions ;;;
      d <- get_def q ;;
      (if negb (result =? 0) && negb (df_completed d)
       then attempt (wirecall_deferred_fail (Some q) (Some (cstring "deferred procedure failed"))) ;;; ret tt
       else ret tt))
    (fun _ '(x', h') => outcome base fbase fl dl extra fextra p c x (deferred_replies x header) (Ok tt) x' h')
    (fun '(x', h') => outcome base fbase fl dl extra fextra p c x (deferred_replies x header) Err x' h') (x2, h3).
Proof.
  intros Hk2 Hd2 Hfr2 Hcs2 Hf02 Hn2 Hc Haw Hown. apply wp_bind. eapply wp_get_def; [done |]. apply wp_bind. eapply wp_put_def; [done |].
  set (d3 := with_body (df_payload d2) args d2). set (x3 := upd_def q d3 x2).
  assert (Hk3 : side_ok base fbase (with_hole (Some q) dl (busy fl dl)) extra fextra x3 h3).
  { destruct (sk_def_wf _ _ _ _ _ _ _ Hk2 q d2 Hd2) as [[Wa Ww We Wi] _].
    eapply (sk_def_put _ _ _ _ _ _ x2 h2 h3 q d2 d3); try done. intros l Ho. unfold d3. rewrite args_blocks by (by destruct Hfr2).
    rewrite <- app_assoc. by apply (Hown base). }
  assert (Hd3 : defs x3 !! q = Some d3) by (subst x3; rewrite defs_upd; apply lookup_insert_eq).
  assert (Hconn3 : df_conn d3 = p) by (by destruct Hfr2).
  assert (Hc3 : conns x3 !! p = Some c) by (change (conns x3) with (conns x2); by rewrite Hcs2).
  apply wp_bind. eapply wp_get_conn; [done |]. apply wp_bind. eapply wp_put_conn; [done |].
  pose proof (sk_count_up base fbase _ extra fextra x3 h3 q d3 c Hk3 eq_refl Hd3) as Hup. rewrite Hconn3 in Hup. specialize (Hup Hc3).
  destruct (deferred_handler f (rt_user_data rt) (h_call_id header) (h_proc_id header) args) as [actions result] eqn:Eh.
  apply (deferred_run_spec base fbase fl dl extra fextra p c x _ h3 q d3 header actions result); try done.
  - pose proof (Hdeferred f (rt_user_data rt) (h_call_id header) (h_proc_id header) args) as Hact. by rewrite Eh in Hact.
  - eapply frame_trans; [apply frame_none_any; exact Hf02 |].
    eapply frame_trans; [by apply (frame_same_conns (eq p) x2 x3) | apply (frame_upd p _ x3)].
  - eexists. rewrite conns_upd. split; [apply lookup_insert_eq |]. by constructor; [| | | | rewrite app_nil_r].
Qed.

Lemma handle_deferred_spec base fbase fl dl extra fextra p c header rt f payload x h :
  side_ok base fbase (busy fl dl) extra fextra x h -> conns x !! p = Some c -> cn_detached c = false ->
  request_ok header payload -> rt_deferred_handler rt = Some f ->
  wp (handle_deferred_call deferred_handler p header rt payload)
    (fun _ '(x', h') => outcome base fbase fl dl extra fextra p c x (deferred_replies x header) (Ok tt) x' h')
    (fun '(x', h') => outcome base fbase fl dl extra fextra p c x (deferred_replies x header) Err x' h') (x, h).
Proof.
  intros Hk Hc Hdt Hrq Hrt. destruct (request_bounds _ _ Hrq) as (Hp & Hi & Hs & Hs56). unfold handle_deferred_call.
  apply wp_bind. unfold wp at 1, on_defs. destruct (wirecall_fixed_arena_alloc zero_deferred (wk_defs x)) as [r a] eqn:Ea.
  destruct (def_alloc _ _ _ _ _ _ _ _ _ Hk eq_refl Ea) as [(-> & ->) | (q & -> & Hok & Hq & Hu & Hcap)].
  { replace (set_defs (wk_defs x) x) with x by (by destruct x).
    apply (refuse_spec base fbase fl dl extra fextra p c header _ x x h); by_message. }
  set (d := new_deferred p header). apply wp_bind. eapply (wp_put_def q zero_deferred d).
  { unfold defs. cbn. rewrite Hu. apply lookup_insert_eq. }
  set (x1 := upd_def q d (set_defs a x)).
  assert (Hk1 : side_ok base fbase (with_hole (Some q) dl (busy fl dl)) extra fextra x1 h).
  { apply (sk_new_def base fbase (busy fl dl) extra fextra x h (a.1, <[q := Used d]> a.2) q d Hk eq_refl); try done.
    - destruct Hok as [fl0 Hok]. exists fl0. eapply store_ok; [done |]. rewrite Hu. apply lookup_insert_eq.
    - cbn [snd]. by rewrite in_use_insert_used, Hu, insert_insert_eq.
    - by eapply new_deferred_wf. }
  assert (Hd1 : defs x1 !! q = Some d) by (subst x1; rewrite defs_upd; apply lookup_insert_eq).
  assert (Hf1 : frame none x x1) by (by apply frame_same_conns).
  apply wp_bind, wp_attempt.
  eapply wp_mono; [apply (deferred_payload_spec base fbase _ extra fextra p q d (h_size header) payload x1 h Hk1 Hd1); try done; by destruct Hrq | |].
  2: { intros [x2 h2] [Hk2 ->]. apply (deferred_abandon base fbase fl dl extra fextra p c q d); by_message. }
  intros copied [x2 h2] (Hk2 & Hcs2 & Hn2 & Hf2 & (d2 & Hd2 & Hfr2) & Hcopy).
  assert (Hf02 : frame none x x2) by (by eapply frame_trans).
  apply wp_bind, wp_attempt, wp_on_mem. unfold wp at 1.
  destruct (wirecall_payload_decode copied (h_size header) true true h2) as [r h3] eqn:Ed.
  pose proof (fun base l Ho => decode_framed H64 base l h2 copied (h_size header) r h3 Ho) as Hdec.
  assert (Hpre : match copied with None => h_size header = 0 | Some d => bytes_ok d /\ 0 <= h_size header <= zlen d /\ h_size header < 2 ^ 56 end).
  { destruct copied as [bs|]; [| done]. destruct Hcopy as [? Hz]. rewrite Hz. split_and!; [done | lia | lia | done]. }
  pose proof (Hdec _ _ (sk_owns _ _ _ _ _ _ _ Hk2) Hpre Ed) as Hdec2.
  destruct r as [args| |]; [| | done].
  2: { assert (Hk3 : side_ok base fbase (with_hole (Some q) dl (busy fl dl)) extra fextra x2 h3)
         by (destruct Hk2 as [Ka Kd Kc Kk Kw Kcw Kdw Kl Kq Kcm Kh Kn Kdt Ko Kf]; by constructor).
       apply (deferred_abandon base fbase fl dl extra fextra p c q d2 header _ x x2 h3); by_message. }
  destruct Hdec2 as (Haw & _ & _). rewrite Hrt.
  apply (deferred_accept base fbase fl dl extra fextra p c x x2 h2 h3 q d2 header rt f args); try done.
  intros base1 l Ho. by apply (Hdec base1 l Ho Hpre Ed).
Qed.
End Handlers.

(** ** The worker *)
Section Worker.
Context `{HH : Host} `{HP : Heap W} `{PP : Pages P} `{NN : Net K} `{BB : Backend B}.
Hypothesis H64 : size_bits = 64.
Hypothesis Hlimit : address_limited.
Variable coro_size : Z.
Variable segment : forall (handler data call_id proc_id : Z) (args : value_array) (n : nat),
  wirecall_writer -> W -> option Z * wirecall_writer * W.
Variable sync_handler : forall (handler data call_id proc_id : Z) (args : value_array),
  wirecall_writer -> W -> Z * wirecall_writer * W.
Variable deferred_handler : forall (handler data call_id proc_id : Z) (args : value_array), list deferred_action * Z.
Hypothesis Hsync : sync_lawful sync_handler.
Hypothesis Hdeferred : deferred_lawful deferred_handler.
Implicit Types (s : worker (W := W) (P := P) (K := K) (B := B)) (x : side K B) (h : W) (p q : Z) (c : wirecall_connection) (ps : Z -> Prop).

(** the shape of the procedure table *)
Record table_ok (r : wirecall_routes) : Prop := {
  to_root : root r <> None;
  to_chain : forall k ch, slots r !! k = Some ch -> is_Some (pages r !! k.1) /\ chain_ok k ch;
  to_keys : forall k, is_Some (slots r !! k) -> exists id, k = route_key id;
  to_readers : 0 <= active_readers r < 2 ^ 32 - 1;
}.

(** a route whose handler is there and is not asynchronous *)
Definition route_served (rt : wirecall_route) : Prop :=
  if rt_is_deferred rt then is_Some (rt_deferred_handler rt) else rt_is_async rt = false /\ is_Some (rt_handler rt).

Record worker_ok (base fbase : gset Z) s : Prop := {
  wo_side : side_ok base fbase (busy [] []) (table_blocks (sv_routes (s_client s))) [] (s_client s) (s_heap s);
  wo_table : table_ok (sv_routes (s_client s));
  wo_idle : s_head s = None;
  wo_served : forall id rt, route_of (sv_routes (s_client s)) id = Some rt -> route_served rt;
}.

(** what the operations of a worker leave alone *)
Record wframe ps s s' : Prop := {
  wf_live : forall q c, ~ ps q -> conns (s_client s) !! q = Some c -> cn_detached c = false ->
    exists c', conns (s_client s') !! q = Some c' /\ cn_detached c' = false /\ cn_fd c' = cn_fd c /\ keeps_data c c';
  wf_config : sv_integrity (s_client s') = sv_integrity (s_client s) /\ sv_mac_key (s_client s') = sv_mac_key (s_client s) /\
    sv_worker_count (s_client s') = sv_worker_count (s_client s) /\ sv_stopping (s_client s') = sv_stopping (s_client s) /\
    wk_index (s_client s') = wk_index (s_client s);
  wf_routes : forall id, route_of (sv_routes (s_client s')) id = route_of (sv_routes (s_client s)) id;
  wf_work : (net_work (wk_net (s_client s')) <= net_work (wk_net (s_client s)))%nat;
  wf_fault : wk_fault (s_client s') = wk_fault (s_client s);
}.

Lemma wframe_refl ps s : wframe ps s s.
Proof. constructor; try done. intros q c _ Hc Hd. by exists c. Qed.

Lemma wframe_trans ps s1 s2 s3 : wframe ps s1 s2 -> wframe ps s2 s3 -> wframe ps s1 s3.
Proof.
  intros [F1 (?&?&?&?&?) F3 F4 F5] [G1 (?&?&?&?&?) G3 G4 G5]. constructor; [| split_and!; congruence | | lia | congruence].
  - intros q c Hps Hc Hd. destruct (F1 q c Hps Hc Hd) as (c' & Hc' & Hd' & Hf & ?). destruct (G1 q c' Hps Hc' Hd') as (c'' & ? & ? & ? & ?).
    exists c''. split_and!; [done | done | congruence | by etrans].
  - intros id. by rewrite G3, F3.
Qed.

Lemma wframe_weaken ps ps' s s' : (forall q, ps q -> ps' q) -> wframe ps s s' -> wframe ps' s s'.
Proof. intros Hp [F1 F2 F3 F4 F5]. constructor; try done. intros q c Hq. apply F1. auto. Qed.

Definition put_side x h s : worker := set_client x (set_heap h s).

Lemma wp_on_side {A} (m : M wstate A) s (Q : A -> worker -> Prop) (E : worker -> Prop) :
  wp m (fun a '(x, h) => Q a (put_side x h s)) (fun '(x, h) => E (put_side x h s)) (s_client s, s_heap s) -> wp (on_side m) Q E s.
Proof. unfold wp, on_side. by destruct (m (s_client s, s_heap s)) as [[] [x h]]. Qed.

(** an operation on the connections, seen from the worker *)
Lemma side_ok_worker base fbase ps s x h :
  worker_ok base fbase s -> side_ok base fbase (busy [] []) (table_blocks (sv_routes (s_client s))) [] x h -> frame ps (s_client s) x ->
  worker_ok base fbase (put_side x h s) /\ wframe ps s (put_side x h s).
Proof.
  intros [Wx Wt Wi Ws] Hk [F1 (F2 & F3 & F4 & F5 & F6 & F7 & F8) F9 F10]. split.
  - constructor; cbn [put_side set_client set_heap s_client s_heap s_head]; rewrite ?F6; done.
  - constructor; cbn [put_side set_client set_heap s_client]; rewrite ?F6; done.
Qed.

Lemma side_step {A} base fbase ps (m : M wstate A) s (Q : A -> worker -> Prop) (E : worker -> Prop) :
  worker_ok base fbase s ->
  wp m (fun a '(x, h) => side_ok base fbase (busy [] []) (table_blocks (sv_routes (s_client s))) [] x h /\ frame ps (s_client s) x /\
          (worker_ok base fbase (put_side x h s) -> wframe ps s (put_side x h s) -> Q a (put_side x h s)))
       (fun '(x, h) => side_ok base fbase (busy [] []) (table_blocks (sv_routes (s_client s))) [] x h /\ frame ps (s_client s) x /\
          (worker_ok base fbase (put_side x h s) -> wframe ps s (put_side x h s) -> E (put_side x h s))) (s_client s, s_heap s) ->
  wp (on_side m) Q E s.
Proof.
  intros Hw Hm. apply wp_on_side. eapply wp_mono; [exact Hm | |].
  - intros a [x h] (Hk & Hf & HQ). destruct (side_ok_worker _ _ _ _ _ _ Hw Hk Hf). by apply HQ.
  - intros [x h] (Hk & Hf & HE). destruct (side_ok_worker _ _ _ _ _ _ Hw Hk Hf). by apply HE.
Qed.

(** *** The table *)
Lemma routes_step base fbase s id r s' :
  worker_ok base fbase s -> on_routes (wirecall_routes_lookup id) s = (r, s') ->
  worker_ok base fbase s' /\ wframe none s s' /\ conns (s_client s') = conns (s_client s) /\ wk_net (s_client s') = wk_net (s_client s) /\
  r = match route_of (sv_routes (s_client s)) id with Some rt => Ok rt | None => Err end.
Proof.
  intros [Wx Wt Wi Ws]. unfold on_routes. set (e := {| env_routes := _ |}).
  destruct (wirecall_routes_lookup id e) as [r0 e'] eqn:El. intros [= <- <-].
  pose proof Wx as [Ka Kd Kc Kk Kw Kcw Kdw Kl Kq Kcm Kh Kn Kdt Ko Kf]. rewrite app_nil_r in Kf.
  set (blocks := collect conn_blocks (conns (s_client s)) ++ collect def_blocks (defs (s_client s)) ++ collect (map fst) (sv_pendings (s_client s))).
  assert (Hro : routes_ok base blocks e).
  { destruct Wt. constructor; try done. cbn. unfold blocks. rewrite (Permutation_app_comm (table_blocks _)), <- !app_assoc. exact Ko. }
  destruct (lookup_spec id e r0 e' base blocks Hro El) as ([R1 R2 R3 R4 R5] & -> & Hsame & _ & _ & _ & _).
  split; [| split; [| done]].
  - constructor; try done.
    + constructor; try done; [| by rewrite app_nil_r]. cbn. unfold blocks in R5.
      rewrite (Permutation_app_comm (table_blocks _)), <- !app_assoc in R5. exact R5.
    + intros i rt. cbn. rewrite Hsame. apply Ws.
  - constructor; try done. intros q c _ Hc Hd. by exists c.
Qed.

(** *** Requests *)

(** what a request is answered with at once; the answer of a deferred call
    comes later *)
Definition answer_to x (header : wirecall_header) (body : list Z) (pkt : list Z) : Prop :=
  let pid := h_proc_id header in
  let cid := h_call_id header in
  if h_op header =? op_code WIRECALL_OP_RPC then
    match route_of (sv_routes x) pid with
    | None => pkt = packet x WIRECALL_OP_ERROR pid cid (error_text (cstring "unknown procedure"))
    | Some rt =>
        if rt_is_deferred rt then pkt = [] \/ exists message, pkt = packet x WIRECALL_OP_ERROR pid cid (error_text message)
        else exists f h, rt_handler rt = Some f /\ heap_inv h /\
          let a := sync_answer sync_handler f (rt_user_data rt) header body h in pkt = packet x a.1 pid cid a.2
    end
  else if h_op header =? op_code WIRECALL_OP_PING then pkt = packet x WIRECALL_OP_RESPONSE 0 cid []
  else if h_op header =? op_code WIRECALL_OP_DISCONNECT then pkt = []
  else pkt = packet x WIRECALL_OP_ERROR pid cid (error_text (cstring "unsupported operation")).

(** the connection after a request, which may have asked to close it *)
Definition after (header : wirecall_header) c : wirecall_connection :=
  if h_op header =? op_code WIRECALL_OP_DISCONNECT then with_closing c else c.

Definition handled base fbase p c s header body (r : res unit) s' : Prop :=
  worker_ok base fbase s' /\ wframe (eq p) s s' /\ wk_net (s_client s') = wk_net (s_client s) /\
  exists c' pkt out, conns (s_client s') !! p = Some (after header c') /\ served out c c' /\
    answer_to (s_client s) header body pkt /\ reply pkt r out.

Lemma packet_config x x' op pid cid data :
  sv_integrity x' = sv_integrity x -> sv_mac_key x' = sv_mac_key x -> packet x' op pid cid data = packet x op pid cid data.
Proof. unfold packet. by intros -> ->. Qed.

(** a side operation that ends in an outcome handles the request *)
Lemma handle_side base fbase p c s s0 header body (m : M wstate unit) (replies : res unit -> list Z -> Prop) :
  worker_ok base fbase s -> wframe (eq p) s0 s -> wk_net (s_client s) = wk_net (s_client s0) ->
  (h_op header =? op_code WIRECALL_OP_DISCONNECT) = false ->
  (forall r out, replies r out -> exists pkt, answer_to (s_client s0) header body pkt /\ reply pkt r out) ->
  wp m (fun _ '(x', h') => outcome base fbase [] [] (table_blocks (sv_routes (s_client s))) [] p c (s_client s) replies (Ok tt) x' h')
       (fun '(x', h') => outcome base fbase [] [] (table_blocks (sv_routes (s_client s))) [] p c (s_client s) replies Err x' h')
       (s_client s, s_heap s) ->
  wp (on_side m) (fun _ => handled base fbase p c s0 header body (Ok tt)) (handled base fbase p c s0 header body Err) s.
Proof.
  intros Hw Hf0 Hn0 Hop Hrep Hm.
  assert (Hgo : forall r x' h', outcome base fbase [] [] (table_blocks (sv_routes (s_client s))) [] p c (s_client s) replies r x' h' ->
    worker_ok base fbase (put_side x' h' s) -> wframe (eq p) s (put_side x' h' s) -> handled base fbase p c s0 header body r (put_side x' h' s)).
  { intros r x' h' (_ & _ & Hn & c' & out & Hc' & Hs & Hr) Hw' Hf'. destruct (Hrep r out Hr) as (pkt & Ha & Hrp).
    split_and!; [done | by eapply wframe_trans | cbn; congruence |]. exists c', pkt, out. unfold after. rewrite Hop. split_and!; done. }
  eapply (side_step base fbase (eq p)); [done |]. eapply wp_mono; [exact Hm | |].
  - intros _ [x' h'] Ho. pose proof Ho as (? & ? & _). split_and!; [done | done | by apply Hgo].
  - intros [x' h'] Ho. pose proof Ho as (? & ? & _). split_and!; [done | done | by apply Hgo].
Qed.

Lemma wk_can_queue base fbase p c s :
  worker_ok base fbase s -> conns (s_client s) !! p = Some c -> cn_detached c = false -> can_queue p c (s_client s) (s_heap s).
Proof. intros Hw Hc Hd. eapply sk_can_queue; [by apply wo_side | done | done]. Qed.

(** an answer that is a fixed packet *)
Lemma handle_answer base fbase p c s s0 header body answer (m : M wstate unit) :
  worker_ok base fbase s -> wframe (eq p) s0 s -> wk_net (s_client s) = wk_net (s_client s0) ->
  conns (s_client s) !! p = Some c -> cn_detached c = false ->
  (h_op header =? op_code WIRECALL_OP_DISCONNECT) = false ->
  answer_to (s_client s0) header body (packet (s_client s0) answer.1 (h_proc_id header) (h_call_id header) answer.2) ->
  wp m (fun _ '(x', h') => answers p c (s_client s) (s_heap s) header answer (Ok tt) x' h')
       (fun '(x', h') => answers p c (s_client s) (s_heap s) header answer Err x' h') (s_client s, s_heap s) ->
  wp (on_side m) (fun _ => handled base fbase p c s0 header body (Ok tt)) (handled base fbase p c s0 header body Err) s.
Proof.
  intros Hw Hf0 Hn0 Hc Hd Hop Ha Hm.
  eapply (handle_side base fbase p c s s0 header body m (reply (packet (s_client s) answer.1 (h_proc_id header) (h_call_id header) answer.2))); try done.
  - intros r out Hr. exists (packet (s_client s0) answer.1 (h_proc_id header) (h_call_id header) answer.2). split; [done |].
    destruct Hf0 as [_ (E1 & E2 & _) _ _ _]. by rewrite <- (packet_config _ _ _ _ _ _ E1 E2).
  - eapply wp_mono; [exact Hm | |].
    + intros _ [x' h'] Hans. eapply answers_outcome; [by apply wo_side | done | done | done].
    + intros [x' h'] Hans. eapply answers_outcome; [by apply wo_side | done | done | done].
Qed.

Lemma handle_rpc_spec base fbase p c header body s :
  worker_ok base fbase s -> conns (s_client s) !! p = Some c -> cn_detached c = false -> request_ok header body ->
  (h_op header =? op_code WIRECALL_OP_RPC) = true ->
  wp (handle_rpc coro_size sync_handler deferred_handler p header body)
    (fun _ => handled base fbase p c s header body (Ok tt)) (handled base fbase p c s header body Err) s.
Proof.
  intros Hw Hc Hd Hrq Hop. destruct (request_bounds _ _ Hrq) as (Hp & Hi & Hs & Hs56).
  assert (Hnd : (h_op header =? op_code WIRECALL_OP_DISCONNECT) = false) by (zb; rewrite Hop; done).
  unfold handle_rpc. apply wp_bind, wp_attempt. unfold wp at 1.
  destruct (on_routes (wirecall_routes_lookup (h_proc_id header)) s) as [r s1] eqn:El.
  destruct (routes_step base fbase s _ r s1 Hw El) as (Hw1 & Hf1 & Hcs1 & Hn1 & ->).
  assert (Hf1' : wframe (eq p) s s1) by (eapply wframe_weaken; [| done]; done).
  rewrite <- Hcs1 in Hc. pose proof (wk_can_queue _ _ _ _ _ Hw1 Hc Hd) as Hcq.
  destruct (route_of (sv_routes (s_client s)) (h_proc_id header)) as [rt|] eqn:Ert.
  2: { eapply (handle_answer base fbase p c s1 s header body (WIRECALL_OP_ERROR, error_text (cstring "unknown procedure"))); try done.
       - unfold answer_to. by rewrite Hop, Ert.
       - apply error_answer; by_message. }
  pose proof (wo_served _ _ _ Hw _ _ Ert) as Hserved. unfold route_served in Hserved. destruct (rt_is_deferred rt) eqn:Edf.
  - destruct Hserved as [f Hf]. eapply (handle_side base fbase p c s1 s header body _ (deferred_replies (s_client s1) header)); try done.
    + intros r out [[-> ->] | [message Hr]].
      * exists []. split; [| done]. unfold answer_to. rewrite Hop, Ert, Edf. by left.
      * exists (packet (s_client s) WIRECALL_OP_ERROR (h_proc_id header) (h_call_id header) (error_text message)).
        split; [unfold answer_to; rewrite Hop, Ert, Edf; right; by exists message |].
        destruct Hf1 as [_ (E1 & E2 & _) _ _ _]. by rewrite <- (packet_config _ _ _ _ _ _ E1 E2).
    + apply (handle_deferred_spec H64 Hlimit deferred_handler Hdeferred) with f; try done. by apply wo_side.
  - destruct Hserved as [Eas [f Hf]]. rewrite Eas. cbn [negb].
    eapply (handle_answer base fbase p c s1 s header body (sync_answer sync_handler f (rt_user_data rt) header body (s_heap s1))); try done.
    + unfold answer_to. rewrite Hop, Ert, Edf. exists f, (s_heap s1). split_and!; [done | | done].
      by eapply owns_inv, sk_owns, wo_side.
    + by apply (handle_sync_spec H64 Hlimit sync_handler Hsync).
Qed.

Lemma handle_packet_spec base fbase p c header body s :
  worker_ok base fbase s -> conns (s_client s) !! p = Some c -> cn_detached c = false -> request_ok header body ->
  wp (handle_packet coro_size sync_handler deferred_handler p header body)
    (fun _ => handled base fbase p c s header body (Ok tt)) (handled base fbase p c s header body Err) s.
Proof.
  intros Hw Hc Hd Hrq. destruct (request_bounds _ _ Hrq) as (Hp & Hi & Hs & Hs56). unfold handle_packet.
  pose proof (wk_can_queue _ _ _ _ _ Hw Hc Hd) as Hcq. pose proof (sk_conn_wf _ _ _ _ _ _ _ (wo_side _ _ _ Hw) _ _ Hc) as Hwf.
  destruct (h_op header =? op_code WIRECALL_OP_RPC) eqn:E1; [by apply handle_rpc_spec |].
  destruct (h_op header =? op_code WIRECALL_OP_PING) eqn:E2.
  { assert (Hnd : (h_op header =? op_code WIRECALL_OP_DISCONNECT) = false) by (zb; rewrite E2; done).
    eapply (handle_side base fbase p c s s header body _ (reply (packet (s_client s) WIRECALL_OP_RESPONSE 0 (h_call_id header) []))); try done.
    - apply wframe_refl.
    - intros r out Hr. exists (packet (s_client s) WIRECALL_OP_RESPONSE 0 (h_call_id header) []). split; [| done]. unfold answer_to. by rewrite E1, E2.
    - assert (Hden : denotes None 0 []) by (split_and!; [done | apply bytes_ok_nil | by right]).
      assert (Hgo : forall r x' h', packet_queued p c (s_client s) (s_heap s) (packet (s_client s) WIRECALL_OP_RESPONSE 0 (h_call_id header) []) r x' h' ->
        outcome base fbase [] [] (table_blocks (sv_routes (s_client s))) [] p c (s_client s)
          (reply (packet (s_client s) WIRECALL_OP_RESPONSE 0 (h_call_id header) [])) r x' h').
      { intros r x' h' Hq. exact (answers_outcome _ _ _ _ _ _ p c _ _
          {| h_op := 0; h_flags := 0; h_proc_id := 0; h_size := 0; h_call_id := h_call_id header; h_checksum := 0; h_mac := 0 |}
          (WIRECALL_OP_RESPONSE, []) r x' h' (wo_side _ _ _ Hw) Hc Hd Hq). }
      eapply wp_mono; [apply (queue_packet_spec H64 Hlimit p c WIRECALL_OP_RESPONSE 0 (h_call_id header) None 0 []); [done | lia | done | done] | |].
      + intros _ [x' h'] Hq. by apply Hgo.
      + intros [x' h'] Hq. by apply Hgo. }
  destruct (h_op header =? op_code WIRECALL_OP_DISCONNECT) eqn:E3.
  { eapply (side_step base fbase (eq p)); [done |]. apply wp_bind. eapply wp_get_conn; [done |]. eapply wp_put_conn; [done |].
    split; [eapply sk_kin; [by apply wo_side | done | by apply kin_closing] |]. split; [apply frame_upd |]. intros Hw' Hf'.
    split_and!; [done | done | done |]. exists c, [], []. unfold after, answer_to. rewrite E1, E2, E3.
    split_and!; [cbn [put_side set_client s_client]; rewrite conns_upd; apply lookup_insert_eq | by constructor; [| | | | rewrite app_nil_r] | done | done]. }
  eapply (handle_answer base fbase p c s s header body (WIRECALL_OP_ERROR, error_text (cstring "unsupported operation"))); try done.
  - apply wframe_refl.
  - unfold answer_to. by rewrite E1, E2, E3.
  - apply error_answer; by_message.
Qed.

(** *** Parsing *)
Definition wire (r : wirecall_header * list Z) : list Z := header_bytes r.1 ++ r.2.

(** a packet that passes the checks of the server *)
Definition genuine_for x (r : wirecall_header * list Z) : Prop :=
  header_ok r.1 /\ bytes_ok r.2 /\ zlen r.2 = h_size r.1 /\
  wirecall_packet_verify_ex (Some r.1) (Some r.2) (h_size r.1) (sv_integrity x) (Some (sv_mac_key x)) = Ok tt.

(** bytes that do not hold a whole packet yet *)
Definition incomplete (bs : list Z) : Prop :=
  zlen bs < WIRECALL_HEADER_SIZE \/
  exists hd tail, bs = header_bytes hd ++ tail /\ header_ok hd /\ zlen tail < h_size hd.

(** the requests [reqs] were taken off the stream and answered by [outs], in
    order; [tail] is what a failed answer left *)
Record parsed base fbase p c s (bs : list Z) (reqs : list (wirecall_header * list Z)) (rest : list Z) c' s' : Prop := {
  pa_worker : worker_ok base fbase s';
  pa_frame : wframe (eq p) s s';
  pa_net : wk_net (s_client s') = wk_net (s_client s);
  pa_conn : conns (s_client s') !! p = Some c';
  pa_fd : cn_fd c' = cn_fd c;
  pa_detached : cn_detached c' = cn_detached c;
  pa_stream : bs = concat (map wire reqs) ++ rest;
  pa_genuine : Forall (genuine_for (s_client s)) reqs;
  pa_answers : exists outs tail, unsent c' = unsent c ++ concat outs ++ tail /\ (tail <> [] -> cn_closing c' = true) /\
    Forall2 (fun r out => answer_to (s_client s) r.1 r.2 out) reqs outs;
  pa_stop : cn_closing c' = true \/ incomplete rest;
}.

Lemma answer_to_frame ps s s' header body pkt :
  wframe ps s s' -> answer_to (s_client s') header body pkt -> answer_to (s_client s) header body pkt.
Proof.
  intros [_ (E1 & E2 & _) Hr _ _]. unfold answer_to, packet. rewrite E1, E2, Hr. done.
Qed.

Lemma genuine_frame ps s s' r : wframe ps s s' -> genuine_for (s_client s') r -> genuine_for (s_client s) r.
Proof. intros [_ (E1 & E2 & _) _ _ _]. unfold genuine_for. by rewrite E1, E2. Qed.

(** one request more at the front *)
Lemma parsed_cons base fbase p c s c1 s1 bs rest0 req out reqs rest c' s' :
  genuine_for (s_client s) req -> answer_to (s_client s) req.1 req.2 out -> wframe (eq p) s s1 -> wk_net (s_client s1) = wk_net (s_client s) ->
  cn_fd c1 = cn_fd c -> cn_detached c1 = cn_detached c -> unsent c1 = unsent c ++ out -> bs = wire req ++ rest0 ->
  parsed base fbase p c1 s1 rest0 reqs rest c' s' -> parsed base fbase p c s bs (req :: reqs) rest c' s'.
Proof.
  intros Hg Ha Hf Hn Hfd Hdt Hu -> [P1 P2 P3 P4 P5 P6 P7 P8 (outs & tail & P9 & P10 & P11) P12].
  constructor; [done | by eapply wframe_trans | congruence | done | congruence | congruence | | | | done].
  - cbn. by rewrite P7, app_assoc.
  - constructor; [done |]. eapply Forall_impl; [| exact P8]. intros r. by apply (genuine_frame _ _ _ _ Hf).
  - exists (out :: outs), tail. split_and!; [cbn; by rewrite P9, Hu, <- !app_assoc | done |].
    constructor; [done |]. eapply Forall2_impl; [| exact P11]. intros r o. by apply (answer_to_frame _ _ _ _ _ _ Hf).
Qed.

(** nothing more is taken *)
Lemma parsed_nil base fbase p c s c' s' bs tail :
  worker_ok base fbase s' -> wframe (eq p) s s' -> wk_net (s_client s') = wk_net (s_client s) -> conns (s_client s') !! p = Some c' ->
  cn_fd c' = cn_fd c -> cn_detached c' = cn_detached c -> unsent c' = unsent c ++ tail -> (tail <> [] -> cn_closing c' = true) ->
  (cn_closing c' = true \/ incomplete bs) -> parsed base fbase p c s bs [] bs c' s'.
Proof. intros. constructor; try done. exists [], tail. split_and!; [done | done | constructor]. Qed.

(** marking a live connection as closing *)
Lemma close_conn base fbase p c s (Q : unit -> worker -> Prop) E :
  worker_ok base fbase s -> conns (s_client s) !! p = Some c ->
  (forall s', worker_ok base fbase s' -> wframe (eq p) s s' -> wk_net (s_client s') = wk_net (s_client s) ->
     conns (s_client s') !! p = Some (with_closing c) -> Q tt s') ->
  wp (on_side (put_conn p (with_closing c))) Q E s.
Proof.
  intros Hw Hc HQ. pose proof (sk_conn_wf _ _ _ _ _ _ _ (wo_side _ _ _ Hw) _ _ Hc) as Hwf.
  eapply (side_step base fbase (eq p)); [done |]. eapply wp_put_conn; [done |].
  split; [eapply sk_kin; [by apply wo_side | done | by apply kin_closing] |]. split; [apply frame_upd |]. intros Hw' Hf'.
  apply HQ; [done | done | done |]. cbn [put_side set_client s_client]. rewrite conns_upd. apply lookup_insert_eq.
Qed.

Lemma wp_side_conn p c s (Q : wirecall_connection -> worker -> Prop) E :
  conns (s_client s) !! p = Some c -> Q c s -> wp (on_side (get_conn p)) Q E s.
Proof. intros Hc HQ. apply wp_on_side. eapply wp_get_conn; [done |]. by destruct s. Qed.

Lemma wp_side_gets {A} (f : side K B -> A) s (Q : A -> worker -> Prop) E : Q (f (s_client s)) s -> wp (on_side (gets_side f)) Q E s.
Proof. intros HQ. apply wp_on_side, wp_gets_side. by destruct s. Qed.

Lemma wp_lift {S A} (r : res A) (Q : A -> S -> Prop) E (st : S) :
  match r with Ok a => Q a st | Err => E st | UB => False end -> wp (lift r) Q E st.
Proof. done. Qed.

(** the bytes from an offset on start with a header *)
Lemma decode_at (read : list Z) off :
  bytes_ok read -> 0 <= off -> WIRECALL_HEADER_SIZE <= zlen (zdrop off read) ->
  match wirecall_header_decode (Some (zdrop off read)) true with
  | Ok hd => header_ok hd /\ exists tail, zdrop off read = header_bytes hd ++ tail /\ bytes_ok tail /\ tail = zdrop (off + WIRECALL_HEADER_SIZE) read
  | Err => True
  | UB => False
  end.
Proof.
  intros Hb Ho Hl. assert (Hbd : bytes_ok (zdrop off read)) by (by apply bytes_ok_zdrop).
  destruct (header_cut _ Hbd Hl) as (hd & tail & Ecut & Hraw & Ht).
  rewrite Ecut, header_decode_raw by done. destruct (valid_op (h_op hd) && (h_size hd <=? WIRECALL_MAX_PAYLOAD_SIZE)) eqn:Eok; [| done].
  apply andb_prop in Eok as [Eop Esz]. zb. split.
  - unfold header_ok, raw_header_ok in *. split_and!; try done; lia.
  - exists tail. split_and!; [done | done |]. rewrite <- zdrop_zdrop by done. rewrite Ecut. symmetry. apply zdrop_app_eq.
    by rewrite zlen_header_bytes.
Qed.

(** what the loop leaves, from the offset it started at *)
Definition parse_post base fbase p c s off (off' : Z) s' : Prop :=
  exists reqs rest c', parsed base fbase p c s (zdrop off (b_bytes (cn_read c))) reqs rest c' s' /\ cn_read c' = cn_read c /\
    off <= off' <= b_len (cn_read c) /\ rest = zdrop off' (b_bytes (cn_read c)).

Lemma parse_stop base fbase p c s off c' s' tail :
  worker_ok base fbase s' -> wframe (eq p) s s' -> wk_net (s_client s') = wk_net (s_client s) -> conns (s_client s') !! p = Some c' ->
  cn_fd c' = cn_fd c -> cn_read c' = cn_read c -> cn_detached c' = cn_detached c -> unsent c' = unsent c ++ tail ->
  (tail <> [] -> cn_closing c' = true) -> (cn_closing c' = true \/ incomplete (zdrop off (b_bytes (cn_read c)))) -> off <= b_len (cn_read c) ->
  parse_post base fbase p c s off off s'.
Proof. intros. exists [], (zdrop off (b_bytes (cn_read c))), c'. split_and!; [by eapply parsed_nil | done | lia | done | done]. Qed.

Lemma after_same header c : cn_fd (after header c) = cn_fd c /\ cn_read (after header c) = cn_read c /\
  cn_detached (after header c) = cn_detached c /\ unsent (after header c) = unsent c.
Proof. unfold after. by destruct (_ =? _). Qed.

(** one turn of the loop: a request taken and answered, or a stop *)
Definition parse_turn base fbase p c s off (next : option Z) s' : Prop :=
  match next with
  | None => parse_post base fbase p c s off off s'
  | Some off' =>
      exists c' req out, worker_ok base fbase s' /\ wframe (eq p) s s' /\ wk_net (s_client s') = wk_net (s_client s) /\
        conns (s_client s') !! p = Some c' /\ cn_fd c' = cn_fd c /\ cn_read c' = cn_read c /\ cn_detached c' = cn_detached c /\
        unsent c' = unsent c ++ out /\ answer_to (s_client s) req.1 req.2 out /\ genuine_for (s_client s) req /\
        off < off' <= b_len (cn_read c) /\ zdrop off (b_bytes (cn_read c)) = wire req ++ zdrop off' (b_bytes (cn_read c))
  end.

Lemma parse_closed base fbase p c s off E :
  worker_ok base fbase s -> conns (s_client s) !! p = Some c -> off <= b_len (cn_read c) ->
  wp (on_side (put_conn p (with_closing c)) ;;; ret None) (parse_turn base fbase p c s off) E s.
Proof.
  intros Hw Hc Hoff. apply wp_bind. eapply close_conn; [done | done |]. intros s' Hw' Hf' Hn' Hc'. apply wp_ret.
  eapply (parse_stop base fbase p c s off (with_closing c) s' []); try done; [by rewrite app_nil_r | by left].
Qed.

(** the request is handed over, and a failure to answer it closes the connection *)
Lemma parse_handle base fbase p c s off hd body E :
  worker_ok base fbase s -> conns (s_client s) !! p = Some c -> cn_detached c = false ->
  genuine_for (s_client s) (hd, body) -> 0 <= off -> off + WIRECALL_HEADER_SIZE + h_size hd <= b_len (cn_read c) -> b_len (cn_read c) < 2 ^ 63 ->
  zdrop off (b_bytes (cn_read c)) = wire (hd, body) ++ zdrop (off + WIRECALL_HEADER_SIZE + h_size hd) (b_bytes (cn_read c)) ->
  wp (r <- attempt (handle_packet coro_size sync_handler deferred_handler p hd body) ;;
      match r with
      | None => c <- on_side (get_conn p) ;; on_side (put_conn p (with_closing c)) ;;; ret None
      | Some _ => ret (Some (usize (off + usize (WIRECALL_HEADER_SIZE + h_size hd))))
      end) (parse_turn base fbase p c s off) E s.
Proof.
  intros Hw Hc Hd Hg Hoff Hend Hbig Hcut. pose proof Hg as (Hok & Hbb & Hbl & _). cbn [fst snd] in *.
  assert (Hs : 0 <= h_size hd) by (destruct Hok as (_ & _ & _ & ? & _); lia). unfold WIRECALL_HEADER_SIZE in *.
  assert (Hrq : request_ok hd body) by (constructor; [done | done | lia]).
  apply wp_bind, wp_attempt. eapply wp_mono; [by apply (handle_packet_spec base fbase p c hd body s) | |].
  - intros _ s1 (Hw1 & Hf1 & Hn1 & c1 & pkt & out & Hc1 & [S1 S2 S3 S4 S5] & Ha & ->).
    destruct (after_same hd c1) as (A1 & A2 & A3 & A4). apply wp_ret.
    rewrite (usize_small (34 + h_size hd)) by (rewrite H64; lia). rewrite usize_small by (rewrite H64; lia).
    exists (after hd c1), (hd, body), pkt. replace (off + (34 + h_size hd)) with (off + 34 + h_size hd) by lia.
    split_and!; try done; try congruence; try lia.
  - intros s1 (Hw1 & Hf1 & Hn1 & c1 & pkt & out & Hc1 & [S1 S2 S3 S4 S5] & _ & _).
    destruct (after_same hd c1) as (A1 & A2 & A3 & A4). apply wp_bind. eapply wp_side_conn; [done |].
    apply wp_bind. eapply close_conn; [done | done |]. intros s2 Hw2 Hf2 Hn2 Hc2. apply wp_ret.
    eapply (parse_stop base fbase p c s off (with_closing (after hd c1)) s2 out); try done; cbn [with_closing cn_fd cn_read cn_detached];
      try congruence; [by eapply wframe_trans | | by left | lia].
    change (unsent (with_closing (after hd c1))) with (unsent (after hd c1)). congruence.
Qed.

Lemma parse_one_spec base fbase p c s off E :
  worker_ok base fbase s -> conns (s_client s) !! p = Some c -> cn_detached c = false ->
  0 <= off -> WIRECALL_HEADER_SIZE <= b_len (cn_read c) - off ->
  wp (parse_one coro_size sync_handler deferred_handler p off) (parse_turn base fbase p c s off) E s.
Proof.
  intros Hw Hc Hd Hoff Hroom. pose proof (sk_conn_wf _ _ _ _ _ _ _ (wo_side _ _ _ Hw) _ _ Hc) as Hwf.
  destruct (cw_read c Hwf) as [Hb Hl Hcap _]. unfold MAX_BUFFER, ADDRESS_SPACE in Hcap. set (read := b_bytes (cn_read c)) in *.
  assert (Hlen : zlen (zdrop off read) = b_len (cn_read c) - off) by (apply zlen_zdrop; unfold WIRECALL_HEADER_SIZE, b_len in *; subst read; lia).
  unfold parse_one. apply wp_bind. eapply wp_side_conn; [done |]. fold read. cbv zeta. change (zlen read) with (b_len (cn_read c)).
  assert (Hoff2 : off <= b_len (cn_read c)) by (unfold WIRECALL_HEADER_SIZE in *; lia).
  pose proof (decode_at read off Hb Hoff ltac:(lia)) as Hdec.
  apply wp_bind, wp_attempt, wp_lift. destruct (wirecall_header_decode (Some (zdrop off read)) true) as [hd| |]; [| by apply parse_closed | done].
  destruct Hdec as (Hok & tail & Hcut & Htb & Htail).
  assert (Hs : 0 <= h_size hd) by (destruct Hok as (_ & _ & _ & ? & _); lia).
  assert (Htl : zlen tail = b_len (cn_read c) - off - WIRECALL_HEADER_SIZE) by (rewrite Hcut, zlen_app, zlen_header_bytes in Hlen; lia).
  rewrite (usize_small (b_len (cn_read c) - off)) by (rewrite H64; lia).
  rewrite (usize_small (b_len (cn_read c) - off - WIRECALL_HEADER_SIZE)) by (rewrite H64; unfold WIRECALL_HEADER_SIZE in *; lia).
  apply wp_if; intros Esz; zb.
  { apply wp_ret. eapply (parse_stop base fbase p c s off c s []); try done; [apply wframe_refl | by rewrite app_nil_r |].
    right. right. exists hd, tail. split_and!; [done | done | lia]. }
  rewrite <- Htail. set (body := ztake (h_size hd) tail).
  assert (Hbl : zlen body = h_size hd) by (apply zlen_ztake; lia). assert (Hbb : bytes_ok body) by (by apply bytes_ok_ztake).
  do 2 apply wp_bind, wp_side_gets. apply wp_bind, wp_attempt, wp_lift.
  destruct (sk_key _ _ _ _ _ _ _ (wo_side _ _ _ Hw)) as [Hk1 Hk2].
  assert (Hvd : wirecall_packet_verify_ex (Some hd) (Some body) (h_size hd) (sv_integrity (s_client s)) (Some (sv_mac_key (s_client s))) <> UB)
    by (rewrite <- Hbl; by apply verify_defined).
  destruct (wirecall_packet_verify_ex (Some hd) (Some body) (h_size hd) _ _) as [[]| |] eqn:Ev; [| by apply parse_closed | done].
  apply parse_handle; try done; [lia | lia |]. fold read. rewrite Hcut. unfold wire. cbn [fst snd]. rewrite <- app_assoc. f_equal.
  rewrite <- (ztake_zdrop (h_size hd) tail) at 1. f_equal. rewrite Htail. apply zdrop_zdrop; [lia | unfold WIRECALL_HEADER_SIZE; lia].
Qed.

Lemma parse_loop_spec base fbase fuel p c s off E :
  worker_ok base fbase s -> conns (s_client s) !! p = Some c -> cn_detached c = false -> 0 <= off <= b_len (cn_read c) ->
  (Z.to_nat (b_len (cn_read c) - off) <= fuel)%nat ->
  wp (parse_loop coro_size sync_handler deferred_handler fuel p off) (fun off' => parse_post base fbase p c s off off') E s.
Proof.
  revert c s off. induction fuel as [|fuel IH]; intros c s off Hw Hc Hd Hoff Hfuel; cbn [parse_loop].
  all: pose proof (cw_read c (sk_conn_wf _ _ _ _ _ _ _ (wo_side _ _ _ Hw) _ _ Hc)) as [Hb Hl Hcap _]; unfold MAX_BUFFER, ADDRESS_SPACE in Hcap.
  all: apply wp_bind; (eapply wp_side_conn; [done |]); rewrite (usize_small (b_len (cn_read c) - off)) by (rewrite H64; lia).
  all: apply wp_if; intros Eh; zb.
  1: { exfalso. unfold WIRECALL_HEADER_SIZE in Eh. lia. }
  1,3: apply wp_ret; eapply (parse_stop base fbase p c s off c s []); try done;
    [apply wframe_refl | by rewrite app_nil_r | right; left; rewrite zlen_zdrop by done; unfold b_len in *; lia | lia].
  apply wp_bind. eapply wp_mono; [apply (parse_one_spec base fbase p c s off (fun _ => False)); try done; lia | | done].
  intros [off1|] s1; [| by intros ?; apply wp_ret].
  intros (c1 & req & out & Hw1 & Hf1 & Hn1 & Hc1 & Hfd1 & Hr1 & Hd1 & Hu1 & Ha1 & Hg1 & Hoff1 & Hcut1).
  eapply wp_mono; [apply (IH c1 s1 off1); try done; rewrite ?Hd1, ?Hr1; try done; lia | | done].
  intros off2 s2 (reqs & rest & c2 & Hp & Hr2 & Hoff2 & Hrest). rewrite Hr1 in *.
  exists (req :: reqs), rest, c2. split_and!; [by eapply parsed_cons | congruence | lia | lia | done].
Qed.

(** replacing the input buffer of a connection by one with the same block *)
Lemma with_read_same b c : conn_wf c -> buffer_ok b -> cn_detached c = false -> same_place c (with_read b c).
Proof. intros [W1 W2 W3 W4 W5] Hb Hd. constructor; try done. constructor; try done. cbn. congruence. Qed.

Lemma put_read base fbase p c b s h' (Q : unit -> worker -> Prop) E :
  worker_ok base fbase s -> conns (s_client s) !! p = Some c -> cn_detached c = false -> buffer_ok b ->
  (forall base l, owns base (option_list (b_ptr (cn_read c)) ++ l) (s_heap s) -> owns base (option_list (b_ptr b) ++ l) h') ->
  (forall s', worker_ok base fbase s' -> wframe (eq p) s s' -> wk_net (s_client s') = wk_net (s_client s) ->
     conns (s_client s') !! p = Some (with_read b c) -> Q tt s') ->
  wp (on_side (put_conn p (with_read b c))) Q E (put_side (s_client s) h' s).
Proof.
  intros Hw Hc Hd Hb Hown HQ. pose proof (sk_conn_wf _ _ _ _ _ _ _ (wo_side _ _ _ Hw) _ _ Hc) as Hwf.
  apply wp_on_side. eapply wp_put_conn; [done |].
  destruct (side_ok_worker base fbase (eq p) s (upd_conn p (with_read b c) (s_client s)) h' Hw) as [Hw' Hf'].
  - eapply sk_put; [by apply wo_side | done | by apply with_read_same | done |]. intros l Ho. unfold conn_blocks in *. cbn [with_read cn_read cn_write].
    rewrite <- !app_assoc in *. by apply Hown.
  - apply frame_upd.
  - apply HQ; [done | done | done |]. cbn [put_side set_client s_client]. rewrite conns_upd. apply lookup_insert_eq.
Qed.

Lemma put_side_id s : put_side (s_client s) (s_heap s) s = s.
Proof. by destruct s. Qed.

Lemma parse_available_spec base fbase p c s E :
  worker_ok base fbase s -> conns (s_client s) !! p = Some c -> cn_detached c = false ->
  wp (parse_available coro_size sync_handler deferred_handler p)
    (fun _ s' => exists reqs c', parsed base fbase p c s (b_bytes (cn_read c)) reqs (b_bytes (cn_read c')) c' s') E s.
Proof.
  intros Hw Hc Hd. unfold parse_available. apply wp_bind. eapply wp_side_conn; [done |]. apply wp_bind.
  eapply wp_mono; [apply (parse_loop_spec base fbase _ p c s 0 (fun _ => False)); try done | | done].
  { pose proof (zlen_nonneg (b_bytes (cn_read c))). unfold b_len. lia. }
  { unfold b_len, zlen. lia. }
  intros off s1 (reqs & rest & c1 & Hp & Hr & Hoff & ->). rewrite zdrop_0 in Hp.
  pose proof Hp as [P1 P2 P3 P4 P5 P6 P7 P8 P9 P10]. apply wp_if; intros E0; zb.
  - apply wp_bind. eapply wp_side_conn; [done |]. rewrite <- (put_side_id s1).
    pose proof (cw_read c1 (sk_conn_wf _ _ _ _ _ _ _ (wo_side _ _ _ P1) _ _ P4)) as Hbok. rewrite Hr.
    eapply (put_read base fbase p c1); [done | done | congruence | | intros base0 l; by rewrite Hr |].
    { rewrite <- Hr in *. apply buffer_drop_ok; [done | apply bytes_ok_zdrop, Hbok | unfold b_len in *; rewrite zlen_zdrop by lia; lia]. }
    intros s2 Hw2 Hf2 Hn2 Hc2. exists reqs, (with_read {| b_ptr := b_ptr (cn_read c); b_bytes := zdrop off (b_bytes (cn_read c)); b_cap := b_cap (cn_read c) |} c1).
    constructor; try done; [by eapply wframe_trans | congruence].
  - apply wp_ret. assert (off = 0) as -> by lia. exists reqs, c1. rewrite Hr. by rewrite zdrop_0 in Hp.
Qed.

(** *** Reading *)

(** [new] came in on the connection, and [reqs] were taken off its stream *)
Record took base fbase p c s (new : list Z) (reqs : list (wirecall_header * list Z)) c' s' : Prop := {
  tk_worker : worker_ok base fbase s';
  tk_frame : wframe (eq p) s s';
  tk_conn : conns (s_client s') !! p = Some c';
  tk_fd : cn_fd c' = cn_fd c;
  tk_detached : cn_detached c' = cn_detached c;
  tk_received : forall d, net_received d (wk_net (s_client s')) =
    net_received d (wk_net (s_client s)) ++ (if decide (d = cn_fd c) then new else []);
  tk_sent : forall d, net_sent d (wk_net (s_client s')) = net_sent d (wk_net (s_client s));
  tk_stream : b_bytes (cn_read c) ++ new = concat (map wire reqs) ++ b_bytes (cn_read c');
  tk_genuine : Forall (genuine_for (s_client s)) reqs;
  tk_answers : exists outs tail, unsent c' = unsent c ++ concat outs ++ tail /\ (tail <> [] -> cn_closing c' = true) /\
    Forall2 (fun r out => answer_to (s_client s) r.1 r.2 out) reqs outs;
}.

Lemma took_trans base fbase p c s new reqs c1 s1 new2 reqs2 c2 s2 :
  took base fbase p c s new reqs c1 s1 -> cn_closing c1 = false -> took base fbase p c1 s1 new2 reqs2 c2 s2 ->
  took base fbase p c s (new ++ new2) (reqs ++ reqs2) c2 s2.
Proof.
  intros [T1 T2 T3 T4 T5 T6 T7 T8 T9 (outs & tail & U1 & U2 & U3)] Hcl [V1 V2 V3 V4 V5 V6 V7 V8 V9 (outs2 & tail2 & W1 & W2 & W3)].
  constructor; [done | by eapply wframe_trans | done | congruence | congruence | | intros d; by rewrite V7, T7 | | |].
  - intros d. rewrite V6, T6, T4, <- app_assoc. by destruct (decide (d = cn_fd c)).
  - rewrite map_app, concat_app, app_assoc, T8, <- !app_assoc. by rewrite V8.
  - apply Forall_app. split; [done |]. eapply Forall_impl; [| exact V9]. intros r. by apply (genuine_frame _ _ _ _ T2).
  - assert (tail = []) as -> by (destruct tail; [done |]; rewrite U2 in Hcl; done).
    exists (outs ++ outs2), tail2. split_and!; [rewrite W1, U1, concat_app, app_nil_r, <- !app_assoc; done | done |].
    apply Forall2_app; [done |]. eapply Forall2_impl; [| exact W3]. intros r o. by apply (answer_to_frame _ _ _ _ _ _ T2).
Qed.

(** input that was taken before and not parsed yet *)
Lemma took_quiet base fbase p c s new c1 s1 new2 reqs2 c2 s2 :
  took base fbase p c s new [] c1 s1 -> unsent c1 = unsent c -> took base fbase p c1 s1 new2 reqs2 c2 s2 ->
  took base fbase p c s (new ++ new2) reqs2 c2 s2.
Proof.
  intros [T1 T2 T3 T4 T5 T6 T7 T8 T9 _] Hu [V1 V2 V3 V4 V5 V6 V7 V8 V9 (outs2 & tail2 & W1 & W2 & W3)].
  constructor; [done | by eapply wframe_trans | done | congruence | congruence | | intros d; by rewrite V7, T7 | | |].
  - intros d. rewrite V6, T6, T4, <- app_assoc. by destruct (decide (d = cn_fd c)).
  - cbn in T8. by rewrite app_assoc, T8.
  - eapply Forall_impl; [| exact V9]. intros r. by apply (genuine_frame _ _ _ _ T2).
  - exists outs2, tail2. split_and!; [by rewrite W1, Hu | done |].
    eapply Forall2_impl; [| exact W3]. intros r o. by apply (answer_to_frame _ _ _ _ _ _ T2).
Qed.

(** nothing taken *)
Lemma took_nothing base fbase p c s new c' s' :
  worker_ok base fbase s' -> wframe (eq p) s s' -> conns (s_client s') !! p = Some c' -> cn_fd c' = cn_fd c -> cn_detached c' = cn_detached c ->
  (forall d, net_received d (wk_net (s_client s')) = net_received d (wk_net (s_client s)) ++ (if decide (d = cn_fd c) then new else [])) ->
  (forall d, net_sent d (wk_net (s_client s')) = net_sent d (wk_net (s_client s))) -> b_bytes (cn_read c') = b_bytes (cn_read c) ++ new ->
  unsent c' = unsent c -> took base fbase p c s new [] c' s'.
Proof.
  intros ? ? ? ? ? ? ? Hr Hu. constructor; try done. exists [], []. split_and!; [cbn; by rewrite app_nil_r | done | constructor].
Qed.

Lemma parsed_took base fbase p c s c1 s1 new reqs c2 s2 :
  took base fbase p c s new [] c1 s1 -> unsent c1 = unsent c -> parsed base fbase p c1 s1 (b_bytes (cn_read c1)) reqs (b_bytes (cn_read c2)) c2 s2 ->
  took base fbase p c s new reqs c2 s2.
Proof.
  intros [T1 T2 T3 T4 T5 T6 T7 T8 T9 _] Hu [P1 P2 P3 P4 P5 P6 P7 P8 (outs & tail & P9 & P10 & P11) _].
  constructor; [done | by eapply wframe_trans | done | congruence | congruence | intros d; by rewrite P3 | intros d; by rewrite P3 | | |].
  - by rewrite T8, <- P7.
  - eapply Forall_impl; [| exact P8]. intros r. by apply (genuine_frame _ _ _ _ T2).
  - exists outs, tail. split_and!; [by rewrite P9, Hu | done |].
    eapply Forall2_impl; [| exact P11]. intros r o. by apply (answer_to_frame _ _ _ _ _ _ T2).
Qed.

(** room for a chunk behind the input *)
Definition roomy (b b' : buffer) : Prop :=
  buffer_ok b' /\ b_bytes b' = b_bytes b /\ b_ptr b' <> None /\ WIRECALL_READ_CHUNK <= b_cap b' - b_len b'.

Lemma read_room_spec base fbase p c s :
  worker_ok base fbase s -> conns (s_client s) !! p = Some c -> cn_detached c = false ->
  wp (on_side (read_room p))
    (fun _ s' => exists b', roomy (cn_read c) b' /\ worker_ok base fbase s' /\ wframe (eq p) s s' /\
       wk_net (s_client s') = wk_net (s_client s) /\ conns (s_client s') !! p = Some (with_read b' c))
    (fun s' => worker_ok base fbase s' /\ wframe (eq p) s s' /\ wk_net (s_client s') = wk_net (s_client s) /\
       conns (s_client s') !! p = Some c) s.
Proof.
  intros Hw Hc Hd. pose proof (sk_conn_wf _ _ _ _ _ _ _ (wo_side _ _ _ Hw) _ _ Hc) as Hwf. pose proof (cw_read c Hwf) as Hb.
  destruct (sk_owned _ _ _ _ _ _ _ _ _ (wo_side _ _ _ Hw) Hc) as [_ Hown].
  pose proof (zlen_nonneg (b_bytes (cn_read c))) as Hnn. fold (b_len (cn_read c)) in Hnn.
  pose proof (bo_len _ Hb) as Hl. pose proof (bo_cap _ Hb) as Hcap. unfold MAX_BUFFER, ADDRESS_SPACE in Hcap.
  apply wp_on_side. unfold read_room. apply wp_bind. eapply wp_get_conn; [done |].
  rewrite (usize_small (b_cap _ - b_len _)) by (rewrite H64; lia). apply wp_if; intros Er; zb.
  - rewrite (usize_small (b_len _ + _)) by (rewrite H64; unfold WIRECALL_READ_CHUNK; lia). apply wp_bind, wp_on_mem.
    eapply wp_mono; [apply (reserve_bytes_spec H64 Hlimit (cn_read c) _ (s_heap s) Hb); [unfold WIRECALL_READ_CHUNK; lia | done | unfold WIRECALL_READ_CHUNK; lia] | |].
    + intros b' h' (Hex & Hneed & Hptr). eapply wp_put_conn; [done |]. destruct Hex as [Hbok Hbytes Hown'].
      rewrite app_nil_r in Hbytes. exists b'.
      destruct (side_ok_worker base fbase (eq p) s (upd_conn p (with_read b' c) (s_client s)) h' Hw) as [Hw' Hf'].
      * eapply sk_put; [by apply wo_side | done | by apply with_read_same | done |]. intros l Ho. unfold conn_blocks in *.
        cbn [with_read cn_read cn_write]. rewrite <- !app_assoc in *. by apply Hown'.
      * apply frame_upd.
      * split; [split_and!; [done | done | done | unfold b_len in *; rewrite Hbytes; lia] |]. split_and!; [done | done | done |].
        cbn [put_side set_client s_client]. rewrite conns_upd. apply lookup_insert_eq.
    + intros h' [_ _ Hown']. destruct (side_ok_worker base fbase (eq p) s (s_client s) h' Hw) as [Hw' Hf']; [| apply frame_refl | done].
      destruct (wo_side _ _ _ Hw) as [Ka Kd Kc Kk Kw Kcw Kdw Kl Kq Kcm Kh Kn Kdt Ko Kf]. constructor; try done.
      rewrite (collect_lookup conn_blocks _ _ _ Hc) in *. unfold conn_blocks at 1 in Ko. unfold conn_blocks at 1. rewrite <- !app_assoc in *. by apply Hown'.
  - apply wp_ret. rewrite put_side_id. exists (cn_read c).
    assert (Hp : b_ptr (cn_read c) <> None) by (intros Hp; apply (bo_ptr _ Hb) in Hp; unfold WIRECALL_READ_CHUNK in *; lia).
    split; [split_and!; [done | done | done | lia] |]. split_and!; [done | apply wframe_refl | done | by destruct c].
Qed.

(** recv appended to the input *)
Lemma read_recv_spec base fbase p c s E :
  worker_ok base fbase s -> conns (s_client s) !! p = Some c -> cn_detached c = false ->
  b_ptr (cn_read c) <> None -> WIRECALL_READ_CHUNK <= b_cap (cn_read c) - b_len (cn_read c) ->
  wp (on_side (read_recv p))
    (fun a s' => worker_ok base fbase s' /\ wframe (eq p) s s' /\ conns (s_client s') !! p = Some c /\
       (forall d, net_sent d (wk_net (s_client s')) = net_sent d (wk_net (s_client s))) /\
       (forall d, net_received d (wk_net (s_client s')) =
          net_received d (wk_net (s_client s)) ++ (if decide (d = cn_fd c) then match a with RBytes bs => bs | _ => [] end else [])) /\
       match a with
       | RBytes bs => bytes_ok bs /\ b_len (cn_read c) + zlen bs <= b_cap (cn_read c) /\
           (net_work (wk_net (s_client s')) < net_work (wk_net (s_client s)))%nat
       | RErr e => e = EINTR -> (net_work (wk_net (s_client s')) < net_work (wk_net (s_client s)))%nat
       | REof => True
       end) E s.
Proof.
  intros Hw Hc Hd Hp Hroom. pose proof (sk_fd_open _ _ _ _ _ _ _ _ _ (wo_side _ _ _ Hw) Hc Hd) as Hfd.
  unfold WIRECALL_READ_CHUNK in Hroom. apply wp_on_side. unfold read_recv. apply wp_bind. eapply wp_get_conn; [done |].
  replace (_ || _) with false by (symmetry; destruct (b_ptr (cn_read c)); [apply Z.ltb_ge; lia | done]).
  unfold wp, side_net. destruct (net_recv (cn_fd c) (b_cap (cn_read c) - b_len (cn_read c)) (wk_net (s_client s))) as [a n] eqn:Er.
  assert (Hpos : 0 < b_cap (cn_read c) - b_len (cn_read c)) by lia. pose proof (law_recv _ _ _ _ _ Hpos Hfd Er) as L.
  assert (Hquiet : forall m, net_open m = net_open (wk_net (s_client s)) -> (net_work m <= net_work (wk_net (s_client s)))%nat ->
    worker_ok base fbase (put_side (set_net m (s_client s)) (s_heap s) s) /\ wframe (eq p) s (put_side (set_net m (s_client s)) (s_heap s) s)).
  { intros m Ho Hwk. apply side_ok_worker; [done | by apply sk_net; [apply wo_side |] | by apply frame_same_conns]. }
  destruct a as [bs| |e].
  - destruct L as (Hbs & Hbok & Lo & Lr & Ls & Lw). destruct (Hquiet n Lo ltac:(lia)) as [Hw' Hf'].
    split_and!; [done | done | done | done | | done | lia | done]. intros d. cbn [put_side set_client s_client set_net wk_net]. rewrite Lr.
    destruct (decide (d = cn_fd c)); [done | by rewrite app_nil_r].
  - destruct L as [Lo Lr Ls Lw]. destruct (Hquiet n Lo Lw) as [Hw' Hf']. split_and!; [done | done | done | done | | done].
    intros d. cbn [put_side set_client s_client set_net wk_net]. rewrite Lr. destruct (decide (d = cn_fd c)); by rewrite app_nil_r.
  - destruct L as [[Lo Lr Ls Lw] Li]. destruct (Hquiet n Lo Lw) as [Hw' Hf']. split_and!; [done | done | done | done | | done].
    intros d. cbn [put_side set_client s_client set_net wk_net]. rewrite Lr. destruct (decide (d = cn_fd c)); by rewrite app_nil_r.
Qed.

(** what the connection sent is taken and answered, and no whole packet is left
    behind in the buffer *)
Definition read_post base fbase p c s s' : Prop :=
  exists new reqs c', took base fbase p c s new reqs c' s' /\ (incomplete (b_bytes (cn_read c)) -> cn_closing c' = true \/ incomplete (b_bytes (cn_read c'))).

(** the connection is marked and nothing else happens *)
Lemma read_close base fbase p c s c1 s1 E :
  worker_ok base fbase s1 -> conns (s_client s1) !! p = Some c1 ->
  took base fbase p c s [] [] c1 s1 ->
  wp (on_side (c <- get_conn p ;; put_conn p (with_closing c))) (fun _ => read_post base fbase p c s) E s1.
Proof.
  intros Hw1 Hc1 [T1 T2 T3 T4 T5 T6 T7 T8 T9 (outs & tail & U1 & U2 & U3)].
  pose proof (sk_conn_wf _ _ _ _ _ _ _ (wo_side _ _ _ Hw1) _ _ Hc1) as Hwf.
  eapply (side_step base fbase (eq p)); [done |]. apply wp_bind. eapply wp_get_conn; [done |]. eapply wp_put_conn; [done |].
  split; [eapply sk_kin; [by apply wo_side | done | by apply kin_closing] |]. split; [apply frame_upd |]. intros Hw' Hf'.
  exists [], [], (with_closing c1). split; [| by left]. constructor; try done; [by eapply wframe_trans | |].
  - cbn [put_side set_client s_client]. rewrite conns_upd. apply lookup_insert_eq.
  - exists outs, tail. split_and!; [done | done | done].
Qed.

Lemma took_read base fbase p c s b' bs s1 s2 s3 :
  worker_ok base fbase s3 -> wframe (eq p) s s3 -> conns (s_client s3) !! p = Some (with_read b' c) ->
  wk_net (s_client s1) = wk_net (s_client s) -> wk_net (s_client s3) = wk_net (s_client s2) ->
  (forall d, net_sent d (wk_net (s_client s2)) = net_sent d (wk_net (s_client s1))) ->
  (forall d, net_received d (wk_net (s_client s2)) = net_received d (wk_net (s_client s1)) ++ (if decide (d = cn_fd c) then bs else [])) ->
  b_bytes b' = b_bytes (cn_read c) ++ bs -> took base fbase p c s bs [] (with_read b' c) s3.
Proof.
  intros Hw Hf Hc E1 E2 Hs Hr Hb. apply took_nothing; try done.
  - intros d. by rewrite E2, Hr, E1.
  - intros d. by rewrite E2, Hs, E1.
Qed.

Lemma roomy_append b b' bs : roomy b b' -> bytes_ok bs -> b_len b' + zlen bs <= b_cap b' ->
  buffer_ok {| b_ptr := b_ptr b'; b_bytes := b_bytes b' ++ bs; b_cap := b_cap b' |}.
Proof.
  intros ([H1 H2 H3 H4] & _ & Hp & _) Hbs Hl. constructor; cbn; [by apply bytes_ok_app | unfold b_len in *; cbn; rewrite zlen_app; lia | done | done].
Qed.

Lemma read_loop_spec base fbase fuel p c s E :
  worker_ok base fbase s -> conns (s_client s) !! p = Some c -> cn_detached c = false ->
  (net_work (wk_net (s_client s)) < fuel)%nat ->
  wp (read_loop coro_size sync_handler deferred_handler fuel p) (fun _ => read_post base fbase p c s) E s.
Proof.
  revert c s. induction fuel as [|fuel IH]; intros c s Hw Hc Hd Hfuel; [lia |]. cbn [read_loop].
  apply wp_bind, wp_attempt. eapply wp_mono; [by apply (read_room_spec base fbase p c s) | |].
  2: { intros s1 (Hw1 & Hf1 & Hn1 & Hc1). apply (read_close base fbase p c s c s1); [done | done |].
       apply took_nothing; try done; [intros d; rewrite Hn1; by destruct (decide _); rewrite app_nil_r | intros d; by rewrite Hn1 | by rewrite app_nil_r]. }
  intros _ s1 (b1 & Hroom & Hw1 & Hf1 & Hn1 & Hc1). pose proof Hroom as (Hb1 & Hbytes1 & Hp1 & Hchunk).
  apply wp_bind. eapply wp_mono; [by apply (read_recv_spec base fbase p (with_read b1 c) s1 (fun _ => False)) | | done].
  intros a s2 (Hw2 & Hf2 & Hc2 & Hsent & Hrecv & Ha). cbn [with_read cn_fd cn_read] in *.
  assert (Hf02 : wframe (eq p) s s2) by (by eapply wframe_trans).
  assert (Hnone : match a with RBytes _ => False | _ => True end -> took base fbase p c s [] [] (with_read b1 c) s2).
  { intros Hna. apply (took_read base fbase p c s b1 [] s1 s2 s2); try done; [| by rewrite app_nil_r].
    intros d. rewrite Hrecv. destruct a; [done | done | done]. }
  destruct a as [bs| |e].
  - destruct Ha as (Hbs & Hfit & Hwork). apply wp_bind. eapply wp_side_conn; [done |]. cbn [with_read cn_read]. apply wp_bind.
    rewrite <- (put_side_id s2). set (b2 := {| b_ptr := b_ptr b1; b_bytes := b_bytes b1 ++ bs; b_cap := b_cap b1 |}).
    change (with_read b2 (with_read b1 c)) with (with_read b2 (with_read b1 c)).
    eapply (put_read base fbase p (with_read b1 c) b2 s2 (s_heap s2)); [done | done | done | by apply (roomy_append (cn_read c)) | done |].
    intros s3 Hw3 Hf3 Hn3 Hc3. change (with_read b2 (with_read b1 c)) with (with_read b2 c) in Hc3.
    assert (Htk : took base fbase p c s bs [] (with_read b2 c) s3).
    { apply (took_read base fbase p c s b2 bs s1 s2 s3); try done; [by eapply wframe_trans | cbn; by rewrite Hbytes1]. }
    apply wp_bind. eapply wp_mono; [by apply (parse_available_spec base fbase p (with_read b2 c) s3 (fun _ => False)) | | done].
    intros _ s4 (reqs & c4 & Hpd). pose proof (parsed_took base fbase p c s (with_read b2 c) s3 bs reqs c4 s4 Htk eq_refl Hpd) as Htk4.
    pose proof Htk4 as [T1 T2 T3 T4 T5 _ _ _ _ _]. apply wp_bind. eapply wp_side_conn; [done |]. apply wp_if; intros Ecl.
    + apply wp_ret. exists bs, reqs, c4. split; [done | by left].
    + eapply wp_mono; [apply (IH c4 s4); try done; [congruence |] | | done].
      * pose proof (pa_net _ _ _ _ _ _ _ _ _ _ Hpd) as Hn4. pose proof (wf_work _ _ _ Hf1). rewrite Hn4, Hn3. lia.
      * intros _ s5 (new5 & reqs5 & c5 & Htk5 & Hstop). exists (bs ++ new5), (reqs ++ reqs5), c5. split; [by eapply took_trans |].
        intros _. apply Hstop. destruct (pa_stop _ _ _ _ _ _ _ _ _ _ Hpd) as [Hcl | ?]; [congruence | done].
  - by apply (read_close base fbase p c s (with_read b1 c) s2); [| | apply Hnone].
  - apply wp_if; intros _; [apply wp_ret; exists [], [], (with_read b1 c); split; [by apply Hnone |]; cbn; rewrite Hbytes1; by right |]. apply wp_if; intros Ei.
    + unfold wirecall_socket_interrupted in Ei. zb. specialize (Ha Ei). pose proof (wf_work _ _ _ Hf1).
      eapply wp_mono; [apply (IH (with_read b1 c) s2); try done; lia | | done].
      intros _ s3 (new3 & reqs3 & c3 & Htk3 & Hstop). exists new3, reqs3, c3. cbn [with_read cn_read] in Hstop. rewrite Hbytes1 in Hstop.
      split; [by apply (took_quiet base fbase p c s [] (with_read b1 c) s2); [apply Hnone | |] | done].
    + by apply (read_close base fbase p c s (with_read b1 c) s2); [| | apply Hnone].
Qed.

Lemma connection_read_spec base fbase p c s E :
  worker_ok base fbase s -> conns (s_client s) !! p = Some c -> cn_detached c = false ->
  wp (connection_read coro_size sync_handler deferred_handler p) (fun _ => read_post base fbase p c s) E s.
Proof. intros Hw Hc Hd. apply read_loop_spec; [done | done | done | lia]. Qed.
End Worker.
