(* ===== verification/ServerLoop.v ===== *)
(** * ServerLoop: the turns of the event loop (src/server.c)

    The rules of ServerInv.v composed to the handling of a batch of events and
    a whole turn of worker_run, and the properties of the server. *)

From stdpp Require Import strings.
From S2P Require Import Prelude Words CString Protocol Integrity Memory Payload Arena Routes Scheduler Net Connection ConnInv Server ServerInv.
#[global] Open Scope Z_scope.

Section Loop.
Context `{HH : Host} `{HP : Heap W} `{PP : Pages P} `{NN : Net K} `{BB : Backend B}.
Hypothesis H64 : size_bits = 64.
Hypothesis Hlimit : address_limited.
Variable coro_size : Z.
Variable segment : forall (handler data call_id proc_id : Z) (args : value_array) (n : nat),
  wirecall_writer -> W -> option Z * wirecall_writer * W.
Variable sync_handler : forall (handler data call_id proc_id : Z) (args : value_array),
  wirecall_writer -> W -> Z * wirecall_writer * W.
Variable deferred_handler : forall (handler data call_id proc_id : Z) (args : value_array), list deferred_action * Z.
Hypothesis Hsync : sync_lawful sync_handler.
Hypothesis Hdeferred : deferred_lawful deferred_handler.
Implicit Types (s : worker (W := W) (P := P) (K := K) (B := B)) (x : side K B) (h : W) (p q : Z) (c : wirecall_connection) (ps : Z -> Prop)
  (e : wirecall_backend_event).

(** the connection an event names; a wake-up names none *)
Definition event_conn e : option Z :=
  if negb (Z.land (ev_events e) WIRECALL_BACKEND_WAKE =? 0) then None
  else match ev_user e with UConn p => Some p | UListener _ => None end.

(** an event of a watch that is registered: a listener, or a live connection *)
Definition event_ok (fbase : gset Z) s e : Prop :=
  if negb (Z.land (ev_events e) WIRECALL_BACKEND_WAKE =? 0) then True
  else match ev_user e with
       | UConn p => exists c, conns (s_client s) !! p = Some c /\ cn_detached c = false
       | UListener fd => fd ∈ fbase
       end.

(** the events of a batch for a connection: one at most; or two, when each is
    for one direction and the connection has data to send, as of a backend that
    watches the directions by themselves *)
Definition event_wants (flag : Z) e : bool := negb (Z.land (ev_events e) flag =? 0).
Definition one_way e : Prop := event_wants WIRECALL_BACKEND_READ e && event_wants WIRECALL_BACKEND_WRITE e = false.
Definition sends_data s p : Prop := exists c, conns (s_client s) !! p = Some c /\ unsent c <> [].
Definition events_for p (l : list wirecall_backend_event) : list wirecall_backend_event := filter (fun e => event_conn e = Some p) l.
Definition batch_ok (fbase : gset Z) s (l : list wirecall_backend_event) : Prop :=
  Forall (event_ok fbase s) l /\
  forall p, (length (events_for p l) <= 1)%nat \/
            ((length (events_for p l) = 2)%nat /\ Forall one_way (events_for p l) /\ sends_data s p).

Lemma put_side_same s : put_side (s_client s) (s_heap s) s = s.
Proof. by destruct s. Qed.

(** a step on the connections that needs nothing but the invariant *)
Lemma side_turn base fbase ps (m : M wstate unit) s (E : worker -> Prop) :
  worker_ok base fbase s ->
  wp m (fun _ '(x, h) => side_ok base fbase (busy [] []) (table_blocks (sv_routes (s_client s))) [] x h /\ frame ps (s_client s) x)
       (fun _ => False) (s_client s, s_heap s) ->
  wp (on_side m) (fun _ s' => worker_ok base fbase s' /\ wframe ps s s') E s.
Proof.
  intros Hw Hm. eapply (side_step base fbase ps); [done |]. eapply wp_mono; [exact Hm | | done].
  intros _ [x h] [Hk Hf]. done.
Qed.

(** an optional step on a live connection, which stays live and becomes [c'] *)
Definition stays base fbase p c (R : wirecall_connection -> Prop) s s' : Prop :=
  worker_ok base fbase s' /\ wframe (eq p) s s' /\
  exists c', conns (s_client s') !! p = Some c' /\ cn_detached c' = false /\ cn_fd c' = cn_fd c /\ R c'.

Lemma stays_same base fbase p c (R : wirecall_connection -> Prop) s :
  worker_ok base fbase s -> conns (s_client s) !! p = Some c -> cn_detached c = false -> R c -> stays base fbase p c R s s.
Proof. intros Hw Hc Hd HR. split_and!; [done | apply wframe_refl | by exists c]. Qed.

Lemma read_event base fbase p c s (b : bool) E :
  worker_ok base fbase s -> conns (s_client s) !! p = Some c -> cn_detached c = false ->
  wp (if b then connection_read coro_size sync_handler deferred_handler p else ret tt)
    (fun _ => stays base fbase p c (fun c' => keeps_data c c' /\ (b = false -> c' = c)) s) E s.
Proof.
  intros Hw Hc Hd. apply wp_if; intros Hb.
  - eapply wp_mono; [by apply (connection_read_spec H64 Hlimit coro_size sync_handler deferred_handler Hsync Hdeferred base fbase p c s E) | | done].
    intros _ s' (new & reqs & c' & [T1 T2 T3 T4 T5 _ _ _ _ (outs & tl & Hu & _)] & _). split_and!; [done | done |]. exists c'.
    split_and!; [done | congruence | done | | congruence]. intros Hne E'. rewrite Hu in E'. by apply app_eq_nil in E' as [? _].
  - apply wp_ret. by apply stays_same.
Qed.

Lemma write_event base fbase p c s (b : bool) E :
  worker_ok base fbase s -> conns (s_client s) !! p = Some c -> cn_detached c = false ->
  wp (if b then on_side (connection_write p) else ret tt)
    (fun _ => stays base fbase p c (fun c' => (b = true -> unsent c' = [] -> cn_closing c' = cn_closing c) /\ (b = false -> c' = c)) s) E s.
Proof.
  intros Hw Hc Hd. pose proof (wo_side _ _ _ Hw) as Hk. apply wp_if; intros Hb.
  - eapply (side_step base fbase (eq p)); [done |].
    eapply wp_mono; [apply (connection_write_spec p c _ _ (fun _ => False)); [done | by eapply sk_conn_wf | by eapply sk_fd_open] | | done].
    intros _ [x h] Hwr. destruct (wrote_ok _ _ _ _ _ _ _ _ _ _ _ Hk Hc Hwr) as (Hk' & Hf' & c' & Hc' & [Hsame _ _ _] & Hcl).
    split_and!; [done | done |]. intros ? ?. split_and!; [done | done |]. exists c'. destruct Hsame as [_ ? ? _].
    split_and!; [done | congruence | done | done | congruence].
  - apply wp_ret. by apply stays_same.
Qed.

(** a connection that is not to be closed, or has data to send, is not closed *)
Lemma maybe_close_idle p c x h (Q : unit -> wstate -> Prop) E :
  conns x !! p = Some c -> conn_wf c -> (unsent c = [] -> cn_closing c = false) -> Q tt (x, h) -> wp (maybe_close p) Q E (x, h).
Proof.
  intros Hc Hwf Hi HQ. unfold maybe_close. apply wp_bind. eapply wp_get_conn; [done |]. apply wp_if; intros Hb; [| by apply wp_ret].
  apply andb_prop in Hb as [Hcl He]. zb. rewrite Hi in Hcl; [done |]. apply unsent_nil; [done | congruence].
Qed.

(** the end of an event of a connection, which stays when [idle] *)
Lemma close_event base fbase p c (R : wirecall_connection -> Prop) s s' (idle : Prop) E :
  stays base fbase p c R s s' -> (forall c', R c' -> idle -> unsent c' = [] -> cn_closing c' = false) ->
  wp (on_side (maybe_close p))
    (fun _ s2 => worker_ok base fbase s2 /\ wframe (eq p) s s2 /\
       (idle -> exists c2, conns (s_client s2) !! p = Some c2 /\ cn_detached c2 = false)) E s'.
Proof.
  intros (Hw & Hf & c' & Hc & Hd & _ & HR) Hi. destruct (decide (cn_closing c' = true /\ unsent c' = [])) as [[Hcl Hu] | Hne].
  - eapply wp_mono; [apply (side_turn base fbase (eq p) _ s' (fun _ => False) Hw) | | done].
    { eapply maybe_close_spec; [by apply wo_side | done | done | apply not_elem_of_nil]. }
    intros _ s2 [Hw2 Hf2]. split_and!; [done | by eapply wframe_trans |]. intros Hidle. rewrite (Hi c' HR Hidle Hu) in Hcl. done.
  - apply wp_on_side. eapply (maybe_close_idle p c'); [exact Hc | exact (sk_conn_wf _ _ _ _ _ _ _ (wo_side _ _ _ Hw) _ _ Hc) | |].
    + intros Hu. destruct (cn_closing c') eqn:Ecl; [| done]. by destruct Hne.
    + rewrite put_side_same. split_and!; [done | done |]. intros _. by exists c'.
Qed.

Lemma handle_event_spec base fbase s e E :
  worker_ok base fbase s -> event_ok fbase s e ->
  wp (handle_event coro_size sync_handler deferred_handler e)
    (fun _ s' => worker_ok base fbase s' /\ wframe (fun q => event_conn e = Some q) s s' /\
       (forall p, event_conn e = Some p -> one_way e -> sends_data s p ->
          exists c', conns (s_client s') !! p = Some c' /\ cn_detached c' = false)) E s.
Proof.
  intros Hw He. unfold handle_event, event_ok, event_conn in *. destruct (negb _).
  { apply wp_bind. eapply wp_mono; [apply (side_turn base fbase none _ s (fun _ => False) Hw) | | done].
    { by apply worker_drain_pending_spec, wo_side. }
    intros _ s1 [Hw1 Hf1]. eapply wp_mono; [apply (side_turn base fbase none _ s1 (fun _ => False) Hw1) | | done].
    { by apply (worker_drain_completed_spec H64 Hlimit), wo_side. }
    intros _ s2 [Hw2 Hf2]. split_and!; [done | | done]. eapply (wframe_weaken none); [done | by eapply wframe_trans]. }
  destruct (ev_user e) as [p|fd].
  2: { eapply wp_mono; [apply (side_turn base fbase none _ s (fun _ => False) Hw); by apply accept_ready_spec; [apply wo_side |] | | done].
       intros _ s1 [Hw1 Hf1]. split_and!; [done | by apply (wframe_weaken none) | done]. }
  destruct He as (c & Hc & Hd). apply wp_bind. eapply wp_side_conn; [done |].
  apply wp_bind. eapply wp_mono; [apply (read_event base fbase p c s _ (fun _ => False)); done | | done].
  intros ? s1 (Hw1 & Hf1 & c1 & Hc1 & Hd1 & Hfd1 & Hk1 & Hs1). apply wp_bind. eapply wp_side_conn; [done |].
  apply wp_bind. eapply wp_mono; [apply (write_event base fbase p c1 s1 _ (fun _ => False)); done | | done].
  intros ? s2 Hst. eapply wp_mono; [apply (close_event base fbase p c1 _ s1 s2 (one_way e /\ unsent c <> []) (fun _ => False) Hst) | | done].
  - intros c' [HR HR'] [Ho Hu] Hu'. unfold one_way, event_wants in Ho. destruct (negb (Z.land (ev_events e) WIRECALL_BACKEND_WRITE =? 0)); cbn [andb] in *.
    + destruct (cn_closing c1) eqn:Ec1; cbn [negb] in *; [| by apply HR]. rewrite (HR' eq_refl) in Hu'. by apply Hk1 in Hu.
    + rewrite (HR' eq_refl) in Hu'. by apply Hk1 in Hu.
  - intros _ s3 (Hw3 & Hf3 & Hlive). split_and!; [done | eapply (wframe_weaken (eq p)); [by intros ? -> | by eapply wframe_trans] |].
    intros ? [= <-] Ho (c0 & Hc0 & Hu). simplify_eq. by apply Hlive.
Qed.

Lemma event_ok_frame fbase s s' ps e :
  wframe ps s s' -> (forall q, event_conn e = Some q -> ~ ps q) -> event_ok fbase s e -> event_ok fbase s' e.
Proof.
  unfold event_ok, event_conn. intros Hf Hne. destruct (negb _); [done |]. destruct (ev_user e) as [p|fd]; [| done].
  intros (c & Hc & Hd). destruct (wf_live _ _ _ Hf p c (Hne p eq_refl) Hc Hd) as (c' & ? & ? & _). by exists c'.
Qed.

Lemma events_for_cons p e l : events_for p (e :: l) = if decide (event_conn e = Some p) then e :: events_for p l else events_for p l.
Proof. done. Qed.

Lemma batch_once fbase s l : Forall (event_ok fbase s) l -> NoDup (omap event_conn l) -> batch_ok fbase s l.
Proof.
  intros Hall Hnd. split; [done |]. intros p. left. clear Hall. induction l as [|e l IH]; [cbn; lia |].
  rewrite events_for_cons. cbn in Hnd. destruct (event_conn e) as [q|] eqn:Eq; [| by rewrite decide_False by done; apply IH].
  apply list.NoDup_cons in Hnd as [Hq Hnd]. case_decide as Ep; [| by apply IH]. injection Ep as ->. cbn [length].
  destruct (events_for p l) as [|e' k] eqn:El; [cbn; lia |]. destruct Hq. apply list_elem_of_omap. exists e'.
  assert (He' : e' ∈ events_for p l) by (rewrite El; by left). by apply list_elem_of_filter in He' as [? ?].
Qed.

Lemma events_for_in p e l : e ∈ l -> event_conn e = Some p -> (1 <= length (events_for p l))%nat.
Proof.
  intros Hin Hp. assert (He : e ∈ events_for p l) by (by apply list_elem_of_filter). destruct (events_for p l); [by apply not_elem_of_nil in He | cbn; lia].
Qed.

Lemma batch_next fbase s s' e l :
  wframe (fun q => event_conn e = Some q) s s' ->
  (forall p, event_conn e = Some p -> one_way e -> sends_data s p -> exists c', conns (s_client s') !! p = Some c' /\ cn_detached c' = false) ->
  batch_ok fbase s (e :: l) -> batch_ok fbase s' l.
Proof.
  intros Hf Hlive [Hall Hb]. apply list.Forall_cons in Hall as [He Hall]. split.
  - apply list.Forall_forall. intros e' He'. pose proof (proj1 (list.Forall_forall _ _) Hall e' He') as Hok.
    destruct (event_conn e') as [q|] eqn:Eq; [destruct (decide (event_conn e = Some q)) as [Ee | Ee] |].
    + pose proof (events_for_in q e' l He' Eq) as Hn. destruct (Hb q) as [Hq | (Hq & Ho & Hs)]; rewrite events_for_cons, decide_True in * by done.
      { cbn in Hq. lia. }
      apply list.Forall_cons in Ho as [Ho _]. destruct (Hlive q Ee Ho Hs) as (c' & Hc' & Hd').
      unfold event_ok. unfold event_conn in Eq. destruct (negb _); [done |]. destruct (ev_user e'); [| done]. injection Eq as ->. by exists c'.
    + eapply event_ok_frame; [exact Hf | | done]. intros q' Hq' Hq2. congruence.
    + eapply event_ok_frame; [exact Hf | | done]. intros q' Hq'. congruence.
  - intros q. destruct (Hb q) as [Hq | (Hq & Ho & c & Hc & Hu)]; rewrite events_for_cons in *.
    + left. case_decide; cbn in Hq; lia.
    + case_decide as Ee; [left; cbn in Hq; lia |]. right. split_and!; [done | done |].
      assert (Hin : exists e', e' ∈ l /\ event_conn e' = Some q).
      { destruct (events_for q l) as [|e' k] eqn:El; [done |]. exists e'. assert (He' : e' ∈ events_for q l) by (rewrite El; by left). by apply list_elem_of_filter in He' as [? ?]. }
      destruct Hin as (e' & He' & Eq). pose proof (proj1 (list.Forall_forall _ _) Hall e' He') as Hok.
      unfold event_ok in Hok. unfold event_conn in Eq. destruct (negb _); [done |]. destruct (ev_user e'); [| done]. injection Eq as ->.
      destruct Hok as (c0 & Hc0 & Hd0). simplify_eq. destruct (wf_live _ _ _ Hf q c Ee Hc Hd0) as (c' & Hc' & _ & _ & Hk). exists c'. split; [done | by apply Hk].
Qed.

Lemma handle_events_spec base fbase s l E :
  worker_ok base fbase s -> batch_ok fbase s l ->
  wp (handle_events coro_size sync_handler deferred_handler l) (fun _ s' => worker_ok base fbase s' /\ wframe anyone s s') E s.
Proof.
  revert s. induction l as [|e l IH]; intros s Hw Hb; cbn [handle_events].
  - apply wp_ret. split; [done | apply wframe_refl].
  - apply wp_bind. pose proof Hb as [Hall _]. apply list.Forall_cons in Hall as [He _].
    eapply wp_mono; [by apply (handle_event_spec base fbase s e (fun _ => False)) | | done].
    intros _ s1 (Hw1 & Hf1 & Hl1). eapply wp_mono; [apply IH; [done | by eapply batch_next] | | done].
    intros _ s2 [Hw2 Hf2]. split; [done |]. eapply wframe_trans; [| done]. by eapply wframe_weaken.
Qed.

(** an empty queue: nothing to run *)
Lemma run_ready_idle fuel s : s_head s = None -> run_ready coro_size segment call_done_cb (S fuel) s = (Ok (Some tt), s).
Proof. intros Hh. cbn [run_ready]. unfold run_one, dequeue, bind at 1 2 3, gets. by rewrite Hh. Qed.

Lemma worker_turn_spec base fbase fuel s l E :
  worker_ok base fbase s -> batch_ok fbase s l ->
  wp (worker_turn coro_size segment sync_handler deferred_handler (S fuel) l)
    (fun r s' => r = Some tt /\ worker_ok base fbase s' /\ wframe anyone s s') E s.
Proof.
  intros Hw Hb. unfold worker_turn. apply wp_bind. eapply wp_mono; [by apply (handle_events_spec base fbase s l (fun _ => False)) | | done].
  intros _ s1 [Hw1 Hf1]. apply wp_bind. unfold wp at 1. rewrite run_ready_idle by (by apply wo_idle in Hw1).
  apply wp_bind. eapply wp_mono; [apply (side_turn base fbase none _ s1 (fun _ => False) Hw1) | | done].
  { by apply (worker_drain_completed_spec H64 Hlimit), wo_side. }
  intros _ s2 [Hw2 Hf2]. apply wp_bind. eapply wp_mono; [apply (side_turn base fbase anyone _ s2 (fun _ => False) Hw2) | | done].
  { by apply worker_flush_spec, wo_side. }
  intros _ s3 [Hw3 Hf3]. apply wp_ret. split_and!; [done | done |].
  eapply wframe_trans; [exact Hf1 |]. eapply wframe_trans; [| exact Hf3]. by eapply (wframe_weaken none).
Qed.
(** turns of a worker, each with a batch the backend may report *)
Inductive turns (fbase : gset Z) (fuel : nat) s : worker (W := W) (P := P) (K := K) (B := B) -> Prop :=
| turns_start : turns fbase fuel s s
| turns_step s1 events r s2 :
    turns fbase fuel s s1 -> batch_ok fbase s1 events ->
    worker_turn coro_size segment sync_handler deferred_handler (S fuel) events s1 = (r, s2) -> turns fbase fuel s s2.

Lemma turns_ok base fbase fuel s s' :
  worker_ok base fbase s -> turns fbase fuel s s' -> worker_ok base fbase s' /\ wframe anyone s s'.
Proof.
  intros Hw. induction 1 as [|s1 events r s2 _ [Hw1 Hf1] Hb E]; [split; [done | apply wframe_refl] |].
  pose proof (wp_run _ _ _ _ _ _ E (worker_turn_spec base fbase fuel s1 events (fun _ => False) Hw1 Hb)) as Hr.
  destruct r; [| done | done]. destruct Hr as (_ & Hw2 & Hf2). split; [done | by eapply wframe_trans].
Qed.

(** *** A connection that is to be closed and cannot be flushed *)

(** its socket would block, and something is left to send *)
Record stuck p c s : Prop := {
  sk_conn : conns (s_client s) !! p = Some c;
  sk_closing : cn_closing c = true;
  sk_left : cn_write_off c <> b_len (cn_write c);
  sk_idle : wk_completed (s_client s) = [] /\ wk_pending_writes (s_client s) = [] /\ s_head s = None;
}.

Lemma on_side_same {A} (m : M wstate A) a s : m (s_client s, s_heap s) = (Ok a, (s_client s, s_heap s)) -> on_side m s = (Ok a, s).
Proof. intros E. unfold on_side. rewrite E. by destruct s. Qed.

Lemma stuck_event p c s e : stuck p c s -> event_conn e = Some p -> handle_event coro_size sync_handler deferred_handler e s = (Ok tt, s).
Proof.
  intros [Hc Hcl Hne _]. unfold event_conn, handle_event. destruct (negb (Z.land (ev_events e) WIRECALL_BACKEND_WAKE =? 0)); [done |].
  destruct (ev_user e) as [q|fd]; [intros [= ->] | done].
  assert (Hg : get_conn p (s_client s, s_heap s) = (Ok c, (s_client s, s_heap s))).
  { unfold get_conn. unfold conns in Hc. apply in_use_lookup in Hc. by rewrite Hc. }
  unfold bind at 1. rewrite (on_side_same _ _ _ Hg). rewrite Hcl, andb_false_r. unfold bind at 1, ret at 1.
  unfold bind at 1. rewrite (on_side_same _ _ _ Hg). rewrite Hcl, andb_false_r. unfold bind at 1, ret at 1.
  apply on_side_same. unfold maybe_close, bind at 1. rewrite Hg, Hcl.
  replace (b_len (cn_write c) =? cn_write_off c) with false by (symmetry; apply Z.eqb_neq; congruence). done.
Qed.

Lemma set_completed_same x : wk_completed x = [] -> set_completed [] x = x.
Proof. destruct x. cbn. by intros ->. Qed.
Lemma set_writes_same x : wk_pending_writes x = [] -> set_writes [] x = x.
Proof. destruct x. cbn. by intros ->. Qed.

Lemma stuck_turn p c s fuel l :
  stuck p c s -> Forall (fun e => event_conn e = Some p) l ->
  worker_turn coro_size segment sync_handler deferred_handler (S fuel) l s = (Ok (Some tt), s).
Proof.
  intros Hst Hl. pose proof Hst as [_ _ _ (Hcm & Hwr & Hhd)]. unfold worker_turn, bind at 1.
  replace (handle_events coro_size sync_handler deferred_handler l s) with (@Ok unit tt, s).
  2: { symmetry. induction Hl as [|e l He _ IH]; [done |]. cbn [handle_events]. unfold bind. by rewrite (stuck_event p c s e Hst He). }
  unfold bind at 1. rewrite run_ready_idle by done. unfold bind at 1. rewrite (on_side_same _ tt).
  2: { unfold worker_drain_completed, bind, gets_side, gets, upd_side, modify. cbn [fst]. rewrite Hcm. cbn. by rewrite set_completed_same. }
  unfold bind at 1. rewrite (on_side_same _ tt); [done |].
  unfold worker_flush_writes, bind, gets_side, gets, upd_side, modify. cbn [fst]. rewrite Hwr. cbn. by rewrite set_writes_same.
Qed.
(** *** One request, from a client of the same key *)
Lemma header_bytes_inj (h1 h2 : wirecall_header) l1 l2 :
  header_ok h1 -> header_ok h2 -> bytes_ok l1 -> bytes_ok l2 -> header_bytes h1 ++ l1 = header_bytes h2 ++ l2 -> h1 = h2 /\ l1 = l2.
Proof.
  intros H1 H2 Hb1 Hb2 E. pose proof (header_decode_bytes h1 l1 H1 Hb1) as D1. rewrite E, header_decode_bytes in D1 by done.
  injection D1 as ->. split; [done |]. by apply app_inv_head in E.
Qed.

Lemma wire_length r : WIRECALL_HEADER_SIZE <= zlen (wire r).
Proof. unfold wire. rewrite zlen_app, zlen_header_bytes. pose proof (zlen_nonneg r.2). lia. Qed.

(** the requests in a stream that is one packet *)
Lemma one_request x reqs rest hd body :
  header_ok hd -> bytes_ok body -> zlen body = h_size hd -> Forall (genuine_for x) reqs -> incomplete rest -> bytes_ok rest ->
  header_bytes hd ++ body = concat (map wire reqs) ++ rest -> reqs = [(hd, body)] /\ rest = [].
Proof.
  intros Hh Hb Hl Hg Hi Hr E. assert (Hlen : zlen (header_bytes hd ++ body) = zlen (concat (map wire reqs) ++ rest)) by (by rewrite E).
  rewrite !zlen_app, zlen_header_bytes in Hlen. destruct reqs as [|[h1 b1] reqs]; cbn [map concat app] in *.
  - exfalso. destruct Hi as [Hi | (h2 & tail & -> & Hh2 & Hlt)]; [change (zlen []) with 0 in Hlen; pose proof (zlen_nonneg body); lia |].
    apply bytes_ok_app in Hr as [_ Hr]. apply header_bytes_inj in E as [-> ->]; try done. lia.
  - apply list.Forall_cons in Hg as [(Hh1 & Hb1 & Hl1 & _) Hg]. cbn [fst snd] in *. unfold wire in E at 1. cbn [fst snd] in E.
    assert (Hcr : bytes_ok (concat (map wire reqs))).
    { clear -Hg. induction Hg as [|r reqs (Hh & Hb & _) _ IH]; [apply bytes_ok_nil |]. cbn [map concat]. apply bytes_ok_app. split; [| done].
      unfold wire. apply bytes_ok_app. split; [by apply header_bytes_ok | done]. }
    rewrite <- !app_assoc in E. apply header_bytes_inj in E as [<- E]; try done.
    2: { rewrite !bytes_ok_app. done. }
    assert (Hz : zlen (concat (map wire reqs) ++ rest) = 0) by (apply (f_equal zlen) in E; rewrite zlen_app in E; lia).
    apply zlen_0_nil, app_eq_nil in Hz as [Hc ->]. rewrite Hc, !app_nil_r in E. subst b1.
    destruct reqs as [|r reqs]; [done |]. exfalso. cbn [map concat] in Hc. apply app_eq_nil in Hc as [Hc _]. pose proof (wire_length r) as Hw.
    rewrite Hc in Hw. done.
Qed.

(** the handler of a synchronous call on the arguments in a body *)
Definition handler_answer f data (call_id proc_id : Z) (body : list Z) (a : wirecall_op * list Z) : Prop :=
  a = (WIRECALL_OP_ERROR, error_text (cstring "malformed payload")) \/
  exists (args : value_array) h1 result response h2,
    array_wf args /\ encode_values (map erase (cell_values (va_cells args))) = body /\
    sync_handler f data call_id proc_id args wirecall_writer_init h1 = (result, response, h2) /\
    a = if result =? 0 then (WIRECALL_OP_RESPONSE, w_bytes response) else (WIRECALL_OP_ERROR, error_text (cstring "procedure failed")).

Lemma sync_answer_spec f data header body h :
  heap_inv h -> header_ok header -> bytes_ok body -> zlen body = h_size header ->
  let a := sync_answer sync_handler f data header body h in
  bytes_ok a.2 /\ zlen a.2 <= WIRECALL_MAX_PAYLOAD_SIZE /\ handler_answer f data (h_call_id header) (h_proc_id header) body a.
Proof.
  intros Hi Hh Hb Hl. apply owns_start in Hi as Ho. unfold sync_answer. pose proof Hh as (_ & _ & _ & Hs & _). unfold WIRECALL_MAX_PAYLOAD_SIZE in Hs.
  destruct (wirecall_payload_decode (Some body) (h_size header) true true h) as [r h1] eqn:Ed.
  assert (Hpre : bytes_ok body /\ 0 <= h_size header <= zlen body /\ h_size header < 2 ^ 56) by (split_and!; [done | lia | lia | lia]).
  pose proof (decode_framed H64 _ [] h (Some body) (h_size header) r h1 Ho Hpre Ed) as Hd.
  destruct r as [args| |]; [| split_and!; [by_compute | by_compute | by left] | done].
  destruct Hd as (Hwf & Ho1 & Henc). change (default [] (Some body)) with body in Henc. rewrite ztake_ge in Henc by lia.
  destruct (sync_handler f data (h_call_id header) (h_proc_id header) args wirecall_writer_init h1) as [[result w] h2] eqn:Eh.
  destruct (Hsync _ _ _ _ _ _ _ _ _ _ _ _ writer_init_ok Ho1 Eh) as [(Hwl & _ & Hwb) _].
  assert (Ha : handler_answer f data (h_call_id header) (h_proc_id header) body (if result =? 0 then (WIRECALL_OP_RESPONSE, w_bytes w) else (WIRECALL_OP_ERROR, error_text (cstring "procedure failed")))).
  { right. exists args, h1, result, w, h2. split_and!; done. }
  destruct (result =? 0); (split; [| split; [| exact Ha]]); [done | unfold w_len in Hwl; cbn; lia | by_compute | by_compute].
Qed.
End Loop.
