(* ===== verification/LifecycleInv.v ===== *)
(** * LifecycleInv: the server between its creation and its end

    The blocks and descriptors of a server that has no connections: what
    worker_init leaves on each of its paths, what worker_destroy gives back,
    and the invariant of the calls that set a server up. *)

From stdpp Require Import strings.
From S2P Require Import Prelude Words CString Protocol Integrity Memory Payload Arena Routes Scheduler Net Connection ConnInv Server Lifecycle ServerInv ServerLoop.
#[global] Open Scope Z_scope.

(** a worker without connections and calls *)
Record hollow (w : wirecall_worker) : Prop := {
  hw_connections : ww_connections w = [];
  hw_writes : ww_pending_writes w = [];
  hw_completed : ww_completed w = [];
  hw_queue : forall b q, ww_scheduler w = Some (b, q) -> q.1.1 = None;
}.

(** a worker that is ready to run *)
Record ready (w : wirecall_worker) : Prop := {
  rw_hollow : hollow w;
  rw_conns : arena_ok (ww_conns w) /\ in_use (ww_conns w).2 = ∅;
  rw_defs : arena_ok (ww_defs w) /\ in_use (ww_defs w).2 = ∅ /\ capacity (ww_defs w).1 < 2 ^ 32;
}.

Definition worker_blocks (w : wirecall_worker) : list Z := match ww_scheduler w with Some (b, _) => [b] | None => [] end.

(** no descriptor is on its way to a worker *)
Definition none_pending (m : gmap Z (list (Z * Z))) : Prop := forall i, default [] (m !! i) = [].

Lemma none_pending_collect {B} (f : Z * Z -> B) m : none_pending m -> collect (map f) m = [].
Proof.
  intros Hm. unfold collect. assert (Hall : forall k l, (k, l) ∈ map_to_list m -> l = []).
  { intros k l Hk. apply elem_of_map_to_list in Hk. specialize (Hm k). by rewrite Hk in Hm. }
  induction (map_to_list m) as [|[k l] rest IH]; [done |]. cbn. rewrite (Hall k l) by (apply elem_of_cons; by left).
  apply IH. intros k' l' Hk'. apply (Hall k'). apply elem_of_cons. by right.
Qed.

Lemma none_pending_insert m i : none_pending m -> none_pending (<[i := []]> m).
Proof.
  intros Hm j. destruct (decide (j = i)) as [-> | Hne]; [by rewrite lookup_insert_eq | by rewrite lookup_insert_ne by done].
Qed.

Section Lifecycle.
Context `{HH : Host} `{HP : Heap W} `{PP : Pages P} `{NN : Net K} `{BB : Backend B}.
Hypothesis H64 : size_bits = 64.
Variable coro_size : Z.
Implicit Types (s : system W P K B) (v : wirecall_server) (w : wirecall_worker) (k : worker (W := W) (P := P) (K := K) (B := B)).

Lemma wp_get_server b v s (Q : wirecall_server -> system W P K B -> Prop) E :
  pr_server s = Some (b, v) -> Q v s -> wp get_server Q E s.
Proof. unfold wp, get_server. by intros ->. Qed.

Lemma wp_put_server b v v' s (Q : unit -> system W P K B -> Prop) E :
  pr_server s = Some (b, v) -> Q tt (set_server (Some (b, v')) s) -> wp (put_server v') Q E s.
Proof. unfold wp, put_server. by intros ->. Qed.

Lemma wp_get_worker b v s i wb l w (Q : wirecall_worker -> system W P K B -> Prop) E :
  pr_server s = Some (b, v) -> sr_workers v = Some (wb, l) -> l !! i = Some w -> Q w s -> wp (get_worker (Z.of_nat i)) Q E s.
Proof.
  intros Hs Hv Hw HQ. apply wp_bind. eapply wp_get_server; [done |]. rewrite Hv.
  replace (Z.of_nat i <? 0) with false by (symmetry; apply Z.ltb_ge; lia). by rewrite Nat2Z.id, Hw.
Qed.

(** storing a worker *)
Definition store v wb (l : list wirecall_worker) (i : nat) w : wirecall_server :=
  set_workers (Some (wb, <[i := w]> l)) (sr_workers_ready v) (sr_worker_count v) v.

Lemma wp_put_worker b v s i wb l w (Q : unit -> system W P K B -> Prop) E :
  pr_server s = Some (b, v) -> sr_workers v = Some (wb, l) -> (i < length l)%nat ->
  Q tt (set_server (Some (b, store v wb l i w)) s) -> wp (put_worker (Z.of_nat i) w) Q E s.
Proof.
  intros Hs Hv Hi HQ. apply wp_bind. eapply wp_get_server; [done |]. rewrite Hv.
  replace ((0 <=? Z.of_nat i) && (Z.of_nat i <? zlen l)) with true
    by (symmetry; apply andb_true_iff; split; [apply Z.leb_le; lia | apply Z.ltb_lt; unfold zlen; lia]).
  rewrite Nat2Z.id. by eapply wp_put_server.
Qed.

(** the server behind an operation of a worker *)
Definition share k v : wirecall_server :=
  let x := s_client k in set_shared (sv_routes x) (sr_routes_ready v) (sv_next_worker x) (sv_stopping x) (sv_pendings x) v.

Lemma wp_in_worker {A} b v s i wb l w (m : M worker A) (Q : A -> system W P K B -> Prop) (E : system W P K B -> Prop) :
  pr_server s = Some (b, v) -> sr_workers v = Some (wb, l) -> l !! i = Some w ->
  wp m (fun a k => Q a (set_server (Some (b, store (share k v) wb l i (unfocus_worker k w))) (unfocus k s)))
       (fun k => E (set_server (Some (b, store (share k v) wb l i (unfocus_worker k w))) (unfocus k s))) (focus v w s) ->
  wp (in_worker (Z.of_nat i) m) Q E s.
Proof.
  intros Hs Hv Hw Hm. apply wp_bind. eapply wp_get_server; [done |]. apply wp_bind. eapply wp_get_worker; [done | done | done |].
  unfold wp at 1. unfold wp in Hm. destruct (m (focus v w s)) as [r k].
  assert (Hs' : pr_server (unfocus k s) = Some (b, share k v)) by (cbn; by rewrite Hs).
  assert (Hl : (i < length l)%nat) by (by eapply lookup_lt_Some).
  change (wp (put_worker (Z.of_nat i) (unfocus_worker k w) ;;; lift r) Q E (unfocus k s)).
  apply wp_bind. eapply wp_put_worker; [exact Hs' | exact Hv | done |]. by destruct r.
Qed.
(** *** Destroying a worker without connections *)

(** what destroying a worker leaves alone of the shared state *)
Record side_kept (x x' : side K B) : Prop := {
  sd_routes : sv_routes x' = sv_routes x;
  sd_log : sv_log x' = sv_log x;
  sd_next : sv_next_worker x' = sv_next_worker x;
  sd_stopping : sv_stopping x' = sv_stopping x;
}.

Lemma close_listeners_spec fbase i l fl (x : side K B) (h : W) E :
  descs fbase (l ++ fl) (wk_net x) ->
  wp (close_listeners i l) (fun _ '(x', h') => h' = h /\ side_kept x x' /\ sv_pendings x' = sv_pendings x /\ wk_completed x' = wk_completed x /\
    wk_index x' = wk_index x /\ descs fbase fl (wk_net x')) E (x, h).
Proof.
  revert x. induction l as [|fd l IH]; intros x Hd; cbn [close_listeners].
  - by apply wp_ret.
  - apply wp_bind. destruct Hd as (Hnd & Hin & Ho). assert (Hfd : 0 <= fd) by (apply (Hin fd); apply elem_of_cons; by left).
    replace (0 <=? fd) with true by (symmetry; by apply Z.leb_le).
    apply wp_bind, wp_backend_do, wp_net_modify.
    eapply wp_mono; [apply IH | | done].
    { apply (descs_close fbase fd (l ++ fl) (wk_net x)). by split_and!. }
    intros _ [x' h'] (-> & [] & ? & ? & ? & ?). by split_and!.
Qed.

Lemma destroy_side_spec fbase w fl (x : side K B) (h : W) E :
  wk_connections x = [] -> wk_completed x = [] -> none_pending (sv_pendings x) -> descs fbase (ww_listeners w ++ fl) (wk_net x) ->
  wp (destroy_side w) (fun _ '(x', h') => h' = h /\ side_kept x x' /\ none_pending (sv_pendings x') /\ descs fbase fl (wk_net x')) E (x, h).
Proof.
  intros Hc Hcm Hp Hd. unfold destroy_side. apply wp_bind, wp_gets_side. rewrite Hc. apply wp_bind, wp_ret. apply wp_bind, wp_gets_side.
  apply wp_bind. eapply wp_mono; [by apply (close_listeners_spec fbase _ _ fl _ _ (fun _ => False)) | | done].
  intros _ [x1 h1] (-> & Hk1 & Hp1 & Hcm1 & Hi1 & Hd1). rewrite <- Hp1 in Hp. rewrite <- Hcm1 in Hcm. apply wp_bind.
  set (P1 := fun (_ : unit) (st : wstate (W := W) (K := K) (B := B)) => exists x2, st = (x2, h) /\ side_kept x x2 /\ none_pending (sv_pendings x2) /\
    descs fbase fl (wk_net x2) /\ wk_completed x2 = []).
  eapply (wp_mono _ P1 _ (fun _ => False)); [| | done].
  - apply wp_if; intros _; [| apply wp_ret; by exists x1]. apply wp_bind, wp_gets_side. rewrite Hp. apply wp_bind, wp_upd_side, wp_ret.
    eexists. split; [done |]. destruct Hk1. split; [done |]. split; [by apply none_pending_insert | done].
  - intros ? st (x2 & -> & Hk2 & Hp2 & Hd2 & Hcm2). apply wp_if; intros _; [| by apply wp_ret].
    apply wp_bind, wp_gets_side. rewrite Hcm2. apply wp_bind, wp_upd_side, wp_ret. destruct Hk2. by split_and!.
Qed.

Lemma scheduler_destroy_idle block k (Q : unit -> worker -> Prop) E :
  s_head k = None ->
  (forall a p, Q tt (set_heap (heap_free block (s_heap k)) (set_spages p (set_arena a k)))) ->
  wp (wirecall_scheduler_destroy coro_size block) Q E k.
Proof.
  intros Hh HQ. unfold wirecall_scheduler_destroy. apply wp_bind. unfold wp at 1.
  assert (Hl : forall n, destroy_loop coro_size (S n) k = (Ok tt, k)).
  { intros n. cbn [destroy_loop]. unfold dequeue, bind at 1 2, gets. by rewrite Hh. }
  rewrite Hl. apply wp_bind. unfold wp at 1, modify. destruct (wirecall_fixed_arena_destroy _ _) as [a p]. apply HQ.
Qed.

(** the server apart from its workers *)
Record same_server v v' : Prop := {
  sm_routes : sr_routes v' = sr_routes v;
  sm_count : sr_worker_count v' = sr_worker_count v;
  sm_ready : sr_workers_ready v' = sr_workers_ready v;
  sm_next : sr_next_worker v' = sr_next_worker v;
  sm_listening : sr_listening v' = sr_listening v;
  sm_routes_ready : sr_routes_ready v' = sr_routes_ready v;
  sm_port : sr_port v' = sr_port v;
  sm_integrity : sr_integrity v' = sr_integrity v;
  sm_key : sr_mac_key v' = sr_mac_key v;
}.

Lemma same_server_refl v : same_server v v.
Proof. done. Qed.
Lemma same_server_trans v1 v2 v3 : same_server v1 v2 -> same_server v2 v3 -> same_server v1 v3.
Proof. intros [] []. constructor; congruence. Qed.

Lemma worker_destroy_spec base fbase b v s i wb l w hl fl E :
  pr_server s = Some (b, v) -> sr_workers v = Some (wb, l) -> l !! i = Some w -> hollow w -> none_pending (sr_pendings v) ->
  owns base (worker_blocks w ++ hl) (pr_heap s) -> descs fbase (ww_listeners w ++ fl) (pr_net s) ->
  wp (worker_destroy coro_size (Z.of_nat i))
    (fun _ s' => exists v', pr_server s' = Some (b, v') /\ sr_workers v' = Some (wb, <[i := worker_zero]> l) /\ same_server v v' /\
       none_pending (sr_pendings v') /\ owns base hl (pr_heap s') /\ descs fbase fl (pr_net s') /\ pr_log s' = pr_log s) E s.
Proof.
  intros Hs Hv Hw [Hc Hwr Hcm Hq] Hp Ho Hd. assert (Hi : (i < length l)%nat) by (by eapply lookup_lt_Some).
  unfold worker_destroy. apply wp_bind. eapply wp_get_worker; [done | done | done |].
  apply wp_bind. eapply wp_in_worker; [done | done | done |].
  set (k := focus v w s).
  assert (Hhd : s_head k = None).
  { unfold k, focus. destruct (ww_scheduler w) as [[sb [[hd tl] a]]|] eqn:Es; [| done]. exact (Hq _ _ eq_refl). }
  assert (Hk : s_heap k = pr_heap s /\ wk_connections (s_client k) = [] /\ wk_completed (s_client k) = [] /\
    sv_pendings (s_client k) = sr_pendings v /\ wk_net (s_client k) = pr_net s /\ sv_routes (s_client k) = sr_routes v /\
    sv_log (s_client k) = pr_log s /\ sv_next_worker (s_client k) = sr_next_worker v /\ sv_stopping (s_client k) = sr_stopping v).
  { unfold k, focus. by destruct (ww_scheduler w) as [[sb [[hd tl] a]]|]. }
  clearbody k. destruct Hk as (Kh & Kc & Kcm & Kp & Kn & Kr & Kl & Knx & Kst).
  apply wp_bind, wp_on_side. rewrite <- Kp in Hp. rewrite <- Kn in Hd.
  eapply wp_mono; [by apply (destroy_side_spec fbase w fl _ _ (fun _ => False)) | | done].
  intros _ [x h] (-> & [S1 S2 S3 S4] & Hp' & Hd'). apply wp_bind.
  set (k1 := put_side x (s_heap k) k).
  set (Q1 := fun (_ : unit) (k2 : worker (W := W) (P := P) (K := K) (B := B)) => s_client k2 = x /\ owns base hl (s_heap k2)).
  eapply (wp_mono _ Q1 _ (fun _ => False)); [| | done].
  { unfold Q1, worker_blocks in *. destruct (ww_scheduler w) as [[sb q]|].
    - apply scheduler_destroy_idle; [done |]. intros a p. split; [done |]. cbn. rewrite Kh. by apply owns_free.
    - apply wp_ret. split; [done |]. cbn. by rewrite Kh. }
  intros ? k2 [Hx2 Ho2]. unfold wp at 1, destroy_arenas, modify.
  destruct (wirecall_fixed_arena_destroy (wk_defs (s_client k2)) (s_pages k2)) as [da p1].
  destruct (wirecall_fixed_arena_destroy (wk_conns (s_client k2)) p1) as [ca p2]. rewrite Hx2. apply wp_bind.
  set (s1 := set_server _ _). 
  assert (Hgo : forall s2, pr_server s2 = pr_server s1 -> pr_heap s2 = pr_heap s1 -> pr_net s2 = pr_net s1 -> pr_log s2 = pr_log s1 ->
    wp (put_worker (Z.of_nat i) worker_zero) (fun _ s' => exists v', pr_server s' = Some (b, v') /\ sr_workers v' = Some (wb, <[i := worker_zero]> l) /\ same_server v v' /\
       none_pending (sr_pendings v') /\ owns base hl (pr_heap s') /\ descs fbase fl (pr_net s') /\ pr_log s' = pr_log s) E s2).
  { intros s2 E1 E2 E3 E4. eapply wp_put_worker; [rewrite E1; done | done | by rewrite length_insert |].
    eexists. split; [done |]. split; [cbn; by rewrite list_insert_insert_eq |]. cbn. rewrite E2, E3, E4. split_and!; try done.
    - constructor; cbn; congruence.
    - cbn. congruence. }
  apply wp_if; intros _; [| by apply Hgo]. unfold wp at 1, proc_backend. by apply Hgo.
Qed.
(** *** Creating a worker *)

(** what is left behind of the system by worker_init *)
Record init_kept s s' : Prop := {
  ik_server : pr_server s' = pr_server s;
  ik_net : pr_net s' = pr_net s;
  ik_log : pr_log s' = pr_log s;
}.

(** a worker in the making, with its blocks *)
Definition made base hl s (r : bool * wirecall_worker) s' : Prop :=
  init_kept s s' /\ owns base (worker_blocks r.2 ++ hl) (pr_heap s') /\ hollow r.2 /\ ww_listeners r.2 = [] /\ (r.1 = true -> ready r.2).

Lemma set_parts_hollow i m1 m2 be ca da w : hollow w -> hollow (set_parts i m1 m2 be ca da w).
Proof. by intros []. Qed.
Lemma zero_hollow : hollow worker_zero.
Proof. by constructor. Qed.

Lemma made_partly base hl s s' i m1 m2 be ca da :
  init_kept s s' -> pr_heap s' = pr_heap s -> owns base hl (pr_heap s) -> made base hl s (false, set_parts i m1 m2 be ca da worker_zero) s'.
Proof. intros Hk Hh Ho. split_and!; [done | cbn; by rewrite Hh | apply set_parts_hollow, zero_hollow | done | done]. Qed.

(** the arenas have sizes far below the range of size_t *)
Lemma worker_arena_ok {T} sz cap (p : P) r (a : @arena_state T) p' :
  0 <= sz < 2 ^ 24 -> 0 < cap < 2 ^ 24 -> wirecall_fixed_arena_init sz cap p = (r, (a, p')) ->
  match r with
  | Ok _ => arena_ok a /\ in_use a.2 = ∅ /\ capacity a.1 = cap
  | Err => a = (arena_zero, ∅)
  | UB => False
  end.
Proof. by apply init_arena_ok. Qed.

(** the scheduler of a worker *)
Lemma scheduler_init_block base hl (h : W) (p : P) o h' p' :
  owns base hl h -> wirecall_scheduler_init (X := unit) tt h p = (o, (h', p')) ->
  match o with
  | Some (b, q) => owns base (b :: hl) h' /\ s_head q = None
  | None => owns base hl h'
  end.
Proof.
  intros Ho. unfold wirecall_scheduler_init. destruct (heap_calloc 1 sizeof_wirecall_scheduler h) as [r h1] eqn:Ec.
  apply (owns_calloc base hl) in Ec; [| done | by_compute | done]. destruct r as [b|]; [| by intros [= <- <- <-]].
  destruct (wirecall_fixed_arena_init _ _ p) as [r [a p1]] eqn:Ea.
  apply worker_arena_ok in Ea as Hr; [| by_compute | by_compute].
  destruct r as [u| |]; intros [= <- <- <-]; [done | by apply owns_free | done].
Qed.

Lemma worker_init_spec base hl mutex_ok i s E :
  owns base hl (pr_heap s) -> wp (worker_init mutex_ok i) (made base hl s) E s.
Proof.
  intros Ho. unfold worker_init. set (w := set_parts i false false false _ _ worker_zero). assert (Hw : hollow w) by apply set_parts_hollow, zero_hollow.
  apply wp_if; intros _; [by apply wp_ret, made_partly |]. apply wp_if; intros _; [by apply wp_ret, made_partly |].
  apply wp_bind. unfold wp at 1, proc_backend. destruct (be_create i (pr_backend s)) as [be b1].
  apply wp_if; intros _; [by apply wp_ret, made_partly |]. apply wp_bind. unfold wp at 1, proc_pages.
  destruct (wirecall_fixed_arena_init sizeof_wirecall_connection _ _) as [r1 [ca p1]] eqn:E1. cbn [fst snd].
  apply worker_arena_ok in E1 as Hr1; [| by_compute | by_compute].
  destruct r1 as [u1| |]; [| by apply wp_ret, made_partly | done]. apply wp_bind. unfold wp at 1, proc_pages.
  destruct (wirecall_fixed_arena_init sizeof_wirecall_deferred _ _) as [r2 [da p2]] eqn:E2. cbn [fst snd].
  apply worker_arena_ok in E2 as Hr2; [| by_compute | by_compute].
  destruct r2 as [u2| |]; [| by apply wp_ret, made_partly | done]. unfold wp. cbn [pr_heap pr_pages set_ppages set_pbackend].
  destruct (wirecall_scheduler_init tt (pr_heap s) p2) as [o [h3 p3]] eqn:E3.
  apply (scheduler_init_block base hl) in E3; [| done]. destruct o as [[b q]|]; [| split_and!; done].
  destruct E3 as [Ho3 Hq]. assert (Hh : hollow (set_scheduler (Some (b, (s_head q, s_tail q, s_arena q))) (set_parts i true true true ca da w))).
  { constructor; try done. intros b' q' [= <- <-]. done. }
  split_and!; [done | done | done | done |]. intros _. destruct Hr1 as (? & ? & ?), Hr2 as (? & ? & Hcap).
  constructor; [done | done | split_and!; [done | done | cbn; rewrite Hcap; by_compute]].
Qed.
(** *** All the workers *)
Definition blocks_of (l : list wirecall_worker) : list Z := concat (map worker_blocks l).
Definition listeners_of (l : list wirecall_worker) : list Z := concat (map ww_listeners l).

Lemma concat_store {C} (f : wirecall_worker -> list C) l i w w' :
  l !! i = Some w -> f w' ++ concat (map f l) ≡ₚ f w ++ concat (map f (<[i := w']> l)).
Proof.
  intros Hw. rewrite <- (take_drop_middle l i w Hw) at 1. rewrite (insert_take_drop l i w') by (by eapply lookup_lt_Some).
  rewrite !map_app, !concat_app. cbn. rewrite !app_assoc. f_equiv. rewrite <- !app_assoc.
  rewrite (Permutation_app_comm (concat _) (f w)), (Permutation_app_comm (concat _) (f w')), !app_assoc. f_equiv. apply Permutation_app_comm.
Qed.

Lemma descs_permute fbase l l' (n : K) : l ≡ₚ l' -> descs fbase l n -> descs fbase l' n.
Proof. intros Hp Hd. by rewrite <- Hp. Qed.

(** the workers named by [js] are destroyed *)
Definition wiped (js : list nat) (l l' : list wirecall_worker) : Prop :=
  length l' = length l /\ forall i w, l' !! i = Some w -> (i ∈ js /\ w = worker_zero) \/ ((i ∉ js) /\ l !! i = Some w).

Lemma wiped_all js l l' :
  wiped js l l' -> (forall i w, l !! i = Some w -> i ∉ js -> w = worker_zero) -> l' = replicate (length l) worker_zero.
Proof.
  intros [Hlen Hl] Hz. apply list_eq. intros i. destruct (l' !! i) as [w|] eqn:E.
  - assert (Hi : (i < length l)%nat) by (rewrite <- Hlen; by eapply lookup_lt_Some).
    rewrite lookup_replicate_2 by done. f_equal. destruct (Hl i w E) as [[_ ->] | [Hn Hw]]; [done | by apply (Hz i)].
  - symmetry. apply lookup_replicate_None. apply lookup_ge_None in E. lia.
Qed.

Lemma zeros_nothing n : blocks_of (replicate n worker_zero) = [] /\ listeners_of (replicate n worker_zero) = [].
Proof. induction n as [|n [IH1 IH2]]; [done |]. split; [exact IH1 | exact IH2]. Qed.

(** the state of a server with a list of workers *)
Definition has_workers base fbase b v s wb (l : list wirecall_worker) hl fl : Prop :=
  pr_server s = Some (b, v) /\ sr_workers v = Some (wb, l) /\ none_pending (sr_pendings v) /\
  owns base (blocks_of l ++ hl) (pr_heap s) /\ descs fbase (listeners_of l ++ fl) (pr_net s).

Lemma destroy_workers_spec base fbase js b v s wb l hl fl E :
  has_workers base fbase b v s wb l hl fl -> Forall hollow l -> NoDup js -> (forall j, j ∈ js -> (j < length l)%nat) ->
  wp (destroy_workers coro_size js)
    (fun _ s' => exists v' l', has_workers base fbase b v' s' wb l' hl fl /\ same_server v v' /\ wiped js l l' /\ pr_log s' = pr_log s) E s.
Proof.
  revert v s l. induction js as [|j js IH]; intros v s l Hh Hall Hnd Hin; cbn [destroy_workers].
  - apply wp_ret. exists v, l. split_and!; try done. split; [done |]. intros i w Hw. right. split; [apply not_elem_of_nil | done].
  - destruct Hh as (Hs & Hv & Hp & Ho & Hd). apply list.NoDup_cons in Hnd as [Hj Hnd].
    assert (Hlt : (j < length l)%nat) by (apply Hin, elem_of_cons; by left). destruct (lookup_lt_is_Some_2 l j Hlt) as [w Hw].
    pose proof (concat_store worker_blocks l j w worker_zero Hw) as Hb. pose proof (concat_store ww_listeners l j w worker_zero Hw) as Hf.
    cbn [worker_blocks ww_listeners worker_zero ww_scheduler app] in Hb, Hf.
    apply wp_bind. eapply wp_mono; [apply (worker_destroy_spec base fbase b v s j wb l w (blocks_of (<[j := worker_zero]> l) ++ hl)
      (listeners_of (<[j := worker_zero]> l) ++ fl) (fun _ => False)); try done | | done].
    + by eapply Forall_lookup_1.
    + rewrite app_assoc. unfold blocks_of in *. by rewrite <- Hb.
    + eapply descs_permute; [| exact Hd]. rewrite app_assoc. unfold listeners_of in *. by rewrite <- Hf.
    + intros _ s1 (v1 & Hs1 & Hv1 & Hsm1 & Hp1 & Ho1 & Hd1 & Hl1).
      eapply wp_mono; [apply (IH v1 s1 (<[j := worker_zero]> l)) | | done].
      * by split_and!.
      * by apply Forall_insert; [| apply zero_hollow].
      * done.
      * intros i Hi. rewrite length_insert. apply Hin, elem_of_cons. by right.
      * intros _ s2 (v2 & l2 & Hh2 & Hsm2 & [Hlen2 Hw2] & Hl2). exists v2, l2. split; [done |]. split; [by eapply same_server_trans |].
        split; [| congruence]. split; [by rewrite Hlen2, length_insert |]. intros i w' Hw'.
        destruct (Hw2 i w' Hw') as [[? ->] | [Hni Hi]]; [left; split; [apply elem_of_cons; by right | done] |].
        destruct (decide (i = j)) as [-> | Hne].
        -- rewrite list_lookup_insert_eq in Hi by done. injection Hi as <-. left. split; [apply elem_of_cons; by left | done].
        -- rewrite list_lookup_insert_ne in Hi by done. right. split; [by rewrite not_elem_of_cons | done].
Qed.

Lemma put_made base fbase b v s wb l hl fl i w (Q : unit -> system W P K B -> Prop) E :
  pr_server s = Some (b, v) -> sr_workers v = Some (wb, l) -> l !! i = Some worker_zero -> none_pending (sr_pendings v) ->
  owns base (worker_blocks w ++ blocks_of l ++ hl) (pr_heap s) -> ww_listeners w = [] -> descs fbase (listeners_of l ++ fl) (pr_net s) ->
  (forall v' s', has_workers base fbase b v' s' wb (<[i := w]> l) hl fl -> same_server v v' -> pr_log s' = pr_log s -> Q tt s') ->
  wp (put_worker (Z.of_nat i) w) Q E s.
Proof.
  intros Hs Hv Hi Hp Ho Hf Hd HQ. eapply wp_put_worker; [done | done | by eapply lookup_lt_Some |].
  pose proof (concat_store worker_blocks l i worker_zero w Hi) as Hb. pose proof (concat_store ww_listeners l i worker_zero w Hi) as Hl.
  cbn [worker_blocks ww_listeners worker_zero ww_scheduler app] in Hb, Hl. rewrite Hf in Hl.
  apply (HQ (store v wb l i w)); [| done | done]. split_and!; try done.
  - cbn. rewrite app_assoc in Ho. unfold blocks_of in *. by rewrite <- Hb.
  - eapply descs_permute; [| exact Hd]. unfold listeners_of in *. by rewrite <- Hl.
Qed.
Lemma seq_NoDup i n : NoDup (seq i n).
Proof. apply NoDup_seq. Qed.

(** the initialisation fails: everything that was built goes away *)
Lemma init_workers_undo base fbase b v s wb l hl fl i (Q : unit -> system W P K B -> Prop) (E : system W P K B -> Prop) :
  has_workers base fbase b v s wb l (wb :: hl) fl -> Forall hollow l -> (i < length l)%nat ->
  (forall j, (i < j < length l)%nat -> l !! j = Some worker_zero) ->
  (forall v' s', pr_server s' = Some (b, v') -> same_server v v' -> sr_workers v' = None -> none_pending (sr_pendings v') ->
     owns base hl (pr_heap s') -> descs fbase fl (pr_net s') -> pr_log s' = pr_log s -> E s') ->
  wp (destroy_workers coro_size (seq 0 (S i)) ;;;
      v <- get_server ;;
      (match sr_workers v with
       | Some (b, _) => proc_heap (fun h => (tt, heap_free b h))
       | None => ret tt
       end) ;;;
      put_server (set_workers None (sr_workers_ready v) (sr_worker_count v) v) ;;;
      fail) Q E s.
Proof.
  intros Hh Hall Hi Hz HE. apply wp_bind.
  eapply wp_mono; [apply (destroy_workers_spec base fbase (seq 0 (S i)) b v s wb l (wb :: hl) fl (fun _ => False)) | | done]; try done.
  { apply seq_NoDup. }
  { intros j Hj%elem_of_seq. lia. }
  intros _ s1 (v1 & l1 & (Hs1 & Hv1 & Hp1 & Ho1 & Hd1) & Hsm1 & Hwp & Hl1).
  assert (Hl : l1 = replicate (length l) worker_zero).
  { apply (wiped_all (seq 0 (S i))); [done |]. intros j w Hw Hj. assert (Hjl := lookup_lt_Some _ _ _ Hw).
    rewrite elem_of_seq in Hj. rewrite Hz in Hw by lia. by injection Hw as <-. }
  destruct (zeros_nothing (length l)) as [Zb Zl]. rewrite Hl, Zb in Ho1. rewrite Hl, Zl in Hd1. cbn [app] in Ho1, Hd1.
  apply wp_bind. eapply wp_get_server; [done |]. rewrite Hv1. apply wp_bind. unfold wp at 1, proc_heap. apply wp_bind.
  eapply wp_put_server; [exact Hs1 |]. apply wp_fail. eapply HE; [done | | done | done | | exact Hd1 | exact Hl1].
  - destruct Hsm1. by constructor.
  - cbn. by apply owns_free.
Qed.

Lemma init_workers_spec base fbase mutex_ok n i b v s wb l hl fl (E : system W P K B -> Prop) :
  has_workers base fbase b v s wb l (wb :: hl) fl -> length l = (i + n)%nat ->
  (forall j w, (j < i)%nat -> l !! j = Some w -> ready w /\ ww_listeners w = []) -> (forall j, (i <= j < i + n)%nat -> l !! j = Some worker_zero) ->
  (forall v' s', pr_server s' = Some (b, v') -> same_server v v' -> sr_workers v' = None -> none_pending (sr_pendings v') ->
     owns base hl (pr_heap s') -> descs fbase fl (pr_net s') -> pr_log s' = pr_log s -> E s') ->
  wp (init_workers coro_size mutex_ok i n)
    (fun _ s' => exists v' l', has_workers base fbase b v' s' wb l' (wb :: hl) fl /\ same_server v v' /\ length l' = (i + n)%nat /\
       Forall (fun w => ready w /\ ww_listeners w = []) l' /\ pr_log s' = pr_log s) E s.
Proof.
  revert i v s l. induction n as [|n IH]; intros i v s l Hh Hlen Hready Hz HE; cbn [init_workers].
  - apply wp_ret. exists v, l. split_and!; try done. apply Forall_lookup. intros j w Hw. apply (Hready j w); [| done].
    apply lookup_lt_Some in Hw. lia.
  - pose proof Hh as (Hs & Hv & Hp & Ho & Hd). assert (Hzi : l !! i = Some worker_zero) by (apply Hz; lia).
    apply wp_bind. eapply wp_mono; [apply (worker_init_spec base _ mutex_ok (Z.of_nat i) s (fun _ => False) Ho) | | done].
    intros r s1 ([K1 K2 K3] & Ho1 & Hhw & Hfw & Hrw). apply wp_bind.
    eapply (put_made base fbase b v s1 wb l (wb :: hl) fl i r.2); try done; [by rewrite K1 | by rewrite K2 |].
    intros v1 s2 Hh2 Hsm2 Hl2.
    assert (Hall : Forall hollow (<[i := r.2]> l)).
    { apply Forall_insert; [| done]. apply Forall_lookup. intros j w Hw. destruct (decide (j < i)%nat) as [Hj | Hj].
      - apply (rw_hollow w), (Hready j w Hj Hw).
      - rewrite Hz in Hw by (apply lookup_lt_Some in Hw; lia). injection Hw as <-. apply zero_hollow. }
    apply wp_if; intros Er.
    + eapply wp_mono; [apply (IH (S i) v1 s2 (<[i := r.2]> l)) | | intros s3 H; exact H]; try done.
      * rewrite length_insert. lia.
      * intros j w Hj Hw. destruct (decide (j = i)) as [-> | Hne].
        -- rewrite list_lookup_insert_eq in Hw by lia. injection Hw as <-. split; [by apply Hrw | done].
        -- rewrite list_lookup_insert_ne in Hw by done. apply (Hready j w); [lia | done].
      * intros j Hj. rewrite list_lookup_insert_ne by lia. apply Hz. lia.
      * intros v' s' ? Hsm ? ? ? ? Hl. apply (HE v'); try done; [by eapply same_server_trans | congruence].
      * intros _ s3 (v3 & l3 & Hh3 & Hsm3 & Hlen3 & Hr3 & Hl3). exists v3, l3. split_and!; try done; [by eapply same_server_trans | lia | congruence].
    + eapply (init_workers_undo base fbase b v1 s2 wb (<[i := r.2]> l)); try done.
      * rewrite length_insert. lia.
      * intros j Hj. rewrite length_insert in Hj. rewrite list_lookup_insert_ne by lia. apply Hz. lia.
      * intros v' s' ? Hsm ? ? ? ? Hl. apply (HE v'); try done; [by eapply same_server_trans | congruence].
Qed.

(** *** The invariant of the calls that set a server up *)
Definition server_blocks v : list Z :=
  (match sr_workers v with Some (wb, l) => wb :: blocks_of l | None => [] end) ++ table_blocks (sr_routes v).
Definition server_fds v : list Z := match sr_workers v with Some (_, l) => listeners_of l | None => [] end.

(** [fx]: the descriptors a call holds *)
Record setup_ok (base fbase : gset Z) (fx : list Z) b v s : Prop := {
  st_server : pr_server s = Some (b, v);
  st_count : 0 < sr_worker_count v <= WIRECALL_MAX_WORKERS;
  st_key : bytes_ok (sr_mac_key v) /\ zlen (sr_mac_key v) = 16;
  st_workers : match sr_workers v with
               | Some (_, l) => sr_workers_ready v = true /\ zlen l = sr_worker_count v /\ Forall ready l
               | None => sr_workers_ready v = false
               end;
  st_pending : none_pending (sr_pendings v);
  st_routes : sr_routes_ready v = true;
  st_table : table_ok (sr_routes v);
  st_owns : owns base (server_blocks v ++ [b]) (pr_heap s);
  st_descs : descs fbase (server_fds v ++ fx) (pr_net s);
}.

Lemma cpu_count_range n : 0 < cpu_count n <= WIRECALL_MAX_WORKERS.
Proof.
  unfold cpu_count, wirecall_cpu_count, WIRECALL_MAX_WORKERS. pose proof (u32_range n).
  cbv zeta. split_ifs; zb; lia.
Qed.

Lemma ready_hollow l : Forall ready l -> Forall hollow l.
Proof. intros Hl. eapply Forall_impl; [| exact Hl]. by intros w []. Qed.

Lemma ensure_workers_spec base fbase mutex_ok nproc b v s :
  setup_ok base fbase [] b v s ->
  wp (server_ensure_workers coro_size nproc mutex_ok)
    (fun _ s' => exists v', setup_ok base fbase [] b v' s' /\ (sr_workers v' <> None /\ sr_routes v' = sr_routes v) /\ pr_log s' = pr_log s)
    (fun s' => exists v', setup_ok base fbase [] b v' s' /\ sr_routes v' = sr_routes v /\ pr_log s' = pr_log s) s.
Proof.
  intros Hok. pose proof Hok as [Hs Hc Hk Hw Hp Hrr Ht Ho Hd]. unfold WIRECALL_MAX_WORKERS in Hc.
  apply wp_bind. eapply wp_get_server; [done |]. apply wp_if; intros Er.
  { apply wp_ret. exists v. split; [done |]. split; [| done]. split; [| done]. destruct (sr_workers v); [done | congruence]. }
  destruct (sr_workers v) as [[wb0 l0]|] eqn:Ev; [destruct Hw; congruence |].
  replace (sr_worker_count v =? 0) with false by (symmetry; apply Z.eqb_neq; lia).
  unfold server_blocks in Ho. rewrite Ev in Ho. unfold server_fds in Hd. rewrite Ev in Hd. cbn [app] in Ho, Hd.
  apply wp_bind. unfold wp at 1, proc_heap. destruct (heap_calloc _ _ (pr_heap s)) as [blk h1] eqn:Ec.
  apply (owns_calloc base (table_blocks (sr_routes v) ++ [b])) in Ec; [| done | unfold sizeof_wirecall_worker; lia | done].
  destruct blk as [wb|].
  2: { apply wp_bind. eapply wp_put_server; [exact Hs |]. apply wp_fail. eexists. split; [| split; [| done]]; [by constructor | done]. }
  apply wp_bind. eapply wp_put_server; [exact Hs |]. set (n := Z.to_nat (sr_worker_count v)).
  set (v1 := set_workers _ false (sr_worker_count v) v). set (s1 := set_server _ _).
  apply wp_bind. eapply wp_mono; [apply (init_workers_spec base fbase mutex_ok n 0 b v1 s1 wb (replicate n worker_zero)
    (table_blocks (sr_routes v) ++ [b]) [] (fun s' => exists v', setup_ok base fbase [] b v' s' /\ sr_routes v' = sr_routes v /\ pr_log s' = pr_log s)) | | intros s2 H; exact H].
  - destruct (zeros_nothing n) as [Zb Zl]. split_and!; try done; [rewrite Zb; done | rewrite Zl; done].
  - by rewrite length_replicate.
  - intros j w Hj. lia.
  - intros j Hj. apply lookup_replicate_2. lia.
  - intros v' s' Hs' [Q1 Q2 Q3 Q4 Q5 Q6 Q7 Q8 Q9] Hv' Hp' Ho' Hd' Hl'. exists v'. split; [| done]. cbn in Q1, Q2, Q3, Q6, Q9.
    constructor; unfold server_blocks, server_fds; rewrite ?Hv', ?Q1, ?Q2, ?Q3, ?Q6, ?Q9; done.
  - intros _ s2 (v2 & l2 & (Hs2 & Hv2 & Hp2 & Ho2 & Hd2) & [Q1 Q2 Q3 Q4 Q5 Q6 Q7 Q8 Q9] & Hlen & Hr2 & Hl2). apply wp_bind. eapply wp_get_server; [done |].
    eapply wp_put_server; [done |]. cbn in Q1, Q2, Q3, Q6, Q9.
    assert (Hrd : Forall ready l2) by (eapply Forall_impl; [| exact Hr2]; by intros w []).
    exists (set_workers (sr_workers v2) true (sr_worker_count v2) v2). split; [| split; [split; [cbn; by rewrite Hv2 | exact Q1] | exact Hl2]].
    constructor; unfold server_blocks, server_fds; cbn; rewrite ?Hv2, ?Q1, ?Q2, ?Q3, ?Q6, ?Q9; try done.
    + split_and!; [done | unfold zlen; rewrite Hlen; unfold n; lia | done].
    + rewrite <- Permutation_middle in Ho2. by rewrite <- app_assoc.
Qed.
Lemma wp_proc_net {A} (m : M K A) s (Q : A -> system W P K B -> Prop) (E : system W P K B -> Prop) :
  wp m (fun a n => Q a (set_pnet n s)) (fun n => E (set_pnet n s)) (pr_net s) -> wp (proc_net m) Q E s.
Proof. unfold wp, proc_net. by destruct (m (pr_net s)) as [[] n]. Qed.

Lemma setup_net base fbase fx fx' b v s n :
  setup_ok base fbase fx b v s -> descs fbase (server_fds v ++ fx') n -> setup_ok base fbase fx' b v (set_pnet n s).
Proof. intros [] Hd. by constructor. Qed.

Lemma setup_quiet base fbase fx b v s n :
  setup_ok base fbase fx b v s -> net_quiet (pr_net s) n -> setup_ok base fbase fx b v (set_pnet n s).
Proof. intros Hok Hq. eapply setup_net; [done |]. eapply descs_quiet; [exact Hq | by destruct Hok]. Qed.

Lemma setup_flags base fbase fx b v s stopping listening port :
  setup_ok base fbase fx b v s ->
  setup_ok base fbase fx b (set_flags stopping listening port v) (set_server (Some (b, set_flags stopping listening port v)) s).
Proof. intros []. by constructor. Qed.

(** *** Binding *)
(** what the calls promise: the invariant, with no finalizer run *)
Definition kept base fbase b (want : wirecall_server -> Prop) s s' : Prop :=
  exists v', setup_ok base fbase [] b v' s' /\ want v' /\ pr_log s' = pr_log s.
Definition has_array (t : wirecall_routes) v : Prop := sr_workers v <> None /\ sr_routes v = t.

Lemma add_listener_spec base fbase b v s fd t E :
  setup_ok base fbase [fd] b v s -> has_array t v -> wp (add_listener fd) (fun _ => kept base fbase b (has_array t) s) E s.
Proof.
  intros [Hs Hc Hk Hw Hp Hrr Ht Ho Hd] [Ha Har]. destruct (sr_workers v) as [[wb l]|] eqn:Ev; [| done].
  destruct Hw as (Hrd & Hlen & Hall). destruct l as [|w l]; [unfold zlen in Hlen; cbn in Hlen; lia |].
  apply wp_bind. apply (wp_get_worker b v s 0 wb (w :: l) w); [done | done | done |].
  apply (wp_put_worker b v s 0 wb (w :: l)); [done | done | cbn; lia |].
  exists (store v wb (w :: l) 0 (set_listeners (ww_listeners w ++ [fd]) w)). split; [| done].
  apply list.Forall_cons in Hall as [[[]] Hall].
  assert (Hrw : ready (set_listeners (ww_listeners w ++ [fd]) w)) by (by constructor).
  unfold server_blocks, server_fds in Ho, Hd. rewrite Ev in Ho, Hd. constructor; try done.
  - cbn. split_and!; [done | done | by constructor].
  - cbn in *. rewrite app_nil_r. eapply descs_permute; [| exact Hd]. rewrite <- !app_assoc. f_equiv. apply Permutation_app_comm.
Qed.

Lemma bind_socket_spec base fbase b v s fd addr E :
  setup_ok base fbase [fd] b v s ->
  wp (bind_socket fd addr) (fun _ s' => setup_ok base fbase [fd] b v s' /\ pr_log s' = pr_log s) E s.
Proof.
  intros Hok. apply wp_bind, wp_attempt, wp_proc_net. unfold wp at 1.
  destruct (wirecall_socket_set_nonblock fd (pr_net s)) as [r n] eqn:E1. destruct (set_nonblock_quiet _ _ _ _ E1) as [Hq Hub].
  assert (Hok1 : setup_ok base fbase [fd] b v (set_pnet n s)) by (by apply setup_quiet).
  destruct r; [| by apply wp_ret | done]. apply wp_proc_net. unfold wp. pose proof (law_bind fd addr (pr_net (set_pnet n s))) as Hb.
  destruct (net_bind fd addr _) as [rc n2]. split; [by apply (setup_quiet _ _ _ _ _ (set_pnet n s)) | done].
Qed.

Lemma bound_port_spec base fbase b v s fd t E :
  setup_ok base fbase [fd] b v s -> has_array t v ->
  wp (bound_port fd) (fun _ s' => exists v', setup_ok base fbase [fd] b v' s' /\ has_array t v' /\ pr_log s' = pr_log s) E s.
Proof.
  intros Hok Ha. apply wp_bind. eapply wp_get_server; [apply Hok |]. apply wp_if; intros _; [| apply wp_ret; by exists v].
  apply wp_bind, wp_proc_net. unfold wp at 1.
  pose proof (law_getsockname fd (pr_net s)) as Hq. destruct (net_getsockname fd (pr_net s)) as [a n].
  assert (Hok1 : setup_ok base fbase [fd] b v (set_pnet n s)) by (by apply setup_quiet).
  destruct a as [a|]; [| apply wp_ret; by exists v]. eapply wp_put_server; [by destruct Hok1 |].
  eexists. split; [by apply setup_flags | done].
Qed.

Lemma bind_one_spec base fbase b v s ai t E :
  setup_ok base fbase [] b v s -> has_array t v -> wp (bind_one ai) (fun _ => kept base fbase b (has_array t) s) E s.
Proof.
  intros Hok Ha. unfold bind_one. apply wp_bind, wp_proc_net. unfold wp at 1.
  destruct (net_socket ai (pr_net s)) as [a n] eqn:Es. pose proof (law_socket _ _ _ _ Es) as L.
  destruct a as [fd|e]; [| apply wp_ret; exists v; split; [by apply setup_quiet | done]].
  destruct L as (Hpos & Hnew & Ho & _ & _ & _ & _).
  assert (Hok1 : setup_ok base fbase [fd] b v (set_pnet n s)).
  { eapply setup_net; [done |]. eapply descs_permute; [| eapply (descs_add fbase); [exact Hpos | exact Hnew | exact Ho | apply (st_descs _ _ _ _ _ _ Hok)]].
    rewrite app_nil_r. apply Permutation_cons_append. }
  apply wp_bind. eapply wp_get_server; [apply (st_server _ _ _ _ _ _ Hok1) |]. apply wp_bind.
  eapply wp_mono; [by apply (bind_socket_spec base fbase b v _ fd _ (fun _ => False)) | | done].
  intros rc s3 [Hok3 Hl3]. apply wp_if; intros _.
  - apply wp_bind, wp_proc_net. unfold wp at 1, modify. apply wp_ret. exists v. split; [| done]. eapply setup_net; [done |]. apply descs_close.
    eapply descs_permute; [| apply (st_descs _ _ _ _ _ _ Hok3)]. rewrite app_nil_r. symmetry. apply Permutation_cons_append.
  - apply wp_bind. eapply wp_mono; [by apply (bound_port_spec base fbase b v s3 fd t (fun _ => False)) | | done].
    intros _ s4 (v4 & Hok4 & Ha4 & Hl4). apply wp_bind.
    eapply wp_mono; [by apply (add_listener_spec base fbase b v4 s4 fd t (fun _ => False)) | | done].
    intros _ s5 (v5 & Hok5 & Ha5 & Hl5). apply wp_ret. exists v5. split_and!; [done | done | cbn in Hl3; congruence].
Qed.

Lemma bind_loop_spec base fbase b res ok v s t E :
  setup_ok base fbase [] b v s -> has_array t v -> wp (bind_loop res ok) (fun _ => kept base fbase b (has_array t) s) E s.
Proof.
  revert ok v s. induction res as [|ai res IH]; intros ok v s Hok Ha; cbn [bind_loop]; [apply wp_ret; by exists v |].
  pose proof Hok as [Hs Hc Hk Hw Hp Hrr Ht Ho Hd]. destruct (sr_workers v) as [[wb l]|] eqn:Ev; [| by destruct Ha].
  destruct Hw as (Hrd & Hlen & Hall). destruct l as [|w l]; [unfold zlen in Hlen; cbn in Hlen; lia |].
  apply wp_bind. apply (wp_get_worker b v s 0 wb (w :: l) w); [done | done | done |]. apply wp_if; intros _; [apply wp_ret; by exists v |].
  apply wp_bind. eapply wp_mono; [by apply (bind_one_spec base fbase b v s ai t (fun _ => False)) | | done].
  intros a s1 (v1 & Hok1 & Ha1 & Hl1). eapply wp_mono; [by apply (IH (ok || a) v1) | | done].
  intros r s2 (v2 & Hok2 & Ha2 & Hl2). exists v2. split_and!; [done | done | congruence].
Qed.

Definition any_server (t : wirecall_routes) v : Prop := sr_routes v = t.

Lemma bind_spec base fbase mutex_ok nproc b v s host port :
  setup_ok base fbase [] b v s ->
  wp (wirecall_server_bind coro_size nproc mutex_ok host port) (fun _ => kept base fbase b (has_array (sr_routes v)) s) (kept base fbase b (any_server (sr_routes v)) s) s.
Proof.
  intros Hok. unfold wirecall_server_bind. apply wp_bind. unfold wp at 1, has_server, gets. rewrite (st_server _ _ _ _ _ _ Hok).
  destruct port as [port|]; [| apply wp_fail; by exists v]. cbn [negb].
  apply wp_bind. eapply wp_mono; [by apply (ensure_workers_spec base fbase mutex_ok nproc b v s) | |].
  2: { intros s1 (v1 & Hok1 & Hr1 & Hl1). by exists v1. }
  intros _ s1 (v1 & Hok1 & Ha1 & Hl1). apply wp_bind, wp_proc_net. unfold wp at 1.
  pose proof (law_getaddrinfo host port true (pr_net s1)) as Hq. destruct (net_getaddrinfo _ _ _ _) as [res n].
  assert (Hok2 : setup_ok base fbase [] b v1 (set_pnet n s1)) by (by apply setup_quiet).
  destruct res as [res|]; [| apply wp_fail; destruct Ha1; by exists v1]. apply wp_bind.
  eapply wp_mono; [by apply (bind_loop_spec base fbase b res false v1 _ (sr_routes v) (fun _ => False)) | | done].
  intros ok s2 (v2 & Hok2' & Ha2 & Hl2). apply wp_if; intros _.
  - apply wp_ret. exists v2. split_and!; [done | done | cbn in Hl2; congruence].
  - apply wp_fail. exists v2. destruct Ha2. split_and!; [done | done | cbn in Hl2; congruence].
Qed.
(** *** Listening and stopping *)
Lemma setup_backend base fbase fx b v s be : setup_ok base fbase fx b v s -> setup_ok base fbase fx b v (set_pbackend be s).
Proof. intros []. by constructor. Qed.

Definition is_setup base fbase b v s s' : Prop := setup_ok base fbase [] b v s' /\ pr_log s' = pr_log s.

Lemma listen_loop_spec base fbase b v i l s :
  setup_ok base fbase [] b v s -> wp (listen_loop i l) (fun _ => is_setup base fbase b v s) (is_setup base fbase b v s) s.
Proof.
  revert s. induction l as [|fd l IH]; intros s Hok; cbn [listen_loop]; [by apply wp_ret |].
  apply wp_bind, wp_proc_net. unfold wp at 1. pose proof (law_listen fd (pr_net s)) as Hq. destruct (net_listen fd (pr_net s)) as [rc n].
  assert (Hok1 : setup_ok base fbase [] b v (set_pnet n s)) by (by apply setup_quiet).
  apply wp_if; intros _; [by apply wp_fail |]. apply wp_bind. unfold wp at 1, proc_backend. destruct (be_register _ _ _ _ _) as [ok be].
  apply (setup_backend _ _ _ _ _ _ be) in Hok1. apply wp_if; intros _; [by apply wp_fail | exact (IH _ Hok1)].
Qed.

(** [server->workers[i]] for the workers of the array *)
Lemma setup_worker base fbase b v s i t (Q : wirecall_worker -> system W P K B -> Prop) E :
  setup_ok base fbase [] b v s -> has_array t v -> (i < Z.to_nat (sr_worker_count v))%nat -> (forall w, ready w -> Q w s) ->
  wp (get_worker (Z.of_nat i)) Q E s.
Proof.
  intros [Hs Hc Hk Hw Hp Hrr Ht Ho Hd] [Ha _] Hi HQ. destruct (sr_workers v) as [[wb l]|] eqn:Ev; [| done].
  destruct Hw as (Hrd & Hlen & Hall). destruct (lookup_lt_is_Some_2 l i) as [w Hw]; [unfold zlen in Hlen; lia |].
  eapply wp_get_worker; [done | done | done |]. apply HQ. by eapply Forall_lookup_1.
Qed.

Lemma listen_workers_spec base fbase b v js s t :
  setup_ok base fbase [] b v s -> has_array t v -> (forall j, j ∈ js -> (j < Z.to_nat (sr_worker_count v))%nat) ->
  wp (listen_workers js) (fun _ => is_setup base fbase b v s) (is_setup base fbase b v s) s.
Proof.
  revert s. induction js as [|j js IH]; intros s Hok Ha Hin; cbn [listen_workers]; [by apply wp_ret |].
  apply wp_bind. eapply (setup_worker base fbase b v s j t); [done | done | apply Hin, elem_of_cons; by left |]. intros w _.
  apply wp_bind. eapply wp_mono; [by apply (listen_loop_spec base fbase b v) | | done].
  intros _ s1 [Hok1 Hl1]. eapply wp_mono; [apply (IH s1 Hok1 Ha) | |].
  - intros m Hm. apply Hin, elem_of_cons. by right.
  - intros _ s2 [? ?]. split; [done | congruence].
  - intros s2 [? ?]. split; [done | congruence].
Qed.

Lemma listen_spec base fbase b v s t :
  setup_ok base fbase [] b v s -> has_array t v ->
  wp wirecall_server_listen (fun _ => kept base fbase b (has_array t) s) (kept base fbase b (has_array t) s) s.
Proof.
  intros Hok Ha. unfold wirecall_server_listen. apply wp_bind. unfold wp at 1, has_server, gets. rewrite (st_server _ _ _ _ _ _ Hok). cbn [negb].
  apply wp_bind. eapply wp_get_server; [apply Hok |]. apply wp_bind.
  eapply wp_mono; [apply (listen_workers_spec base fbase b v (seq 0 (Z.to_nat (sr_worker_count v))) s t Hok Ha) | |].
  - intros j Hj%elem_of_seq. lia.
  - intros _ s1 [Hok1 Hl1]. apply wp_bind. eapply wp_get_server; [apply Hok1 |]. eapply wp_put_server; [apply Hok1 |].
    eexists. split; [by apply setup_flags | done].
  - intros s1 [Hok1 Hl1]. by exists v.
Qed.

Lemma wake_workers_spec base fbase b v js s E :
  setup_ok base fbase [] b v s -> (forall j, j ∈ js -> (j < Z.to_nat (sr_worker_count v))%nat) ->
  wp (wake_workers js) (fun _ => is_setup base fbase b v s) E s.
Proof.
  revert s. induction js as [|j js IH]; intros s Hok Hin; cbn [wake_workers]; [by apply wp_ret |].
  assert (Hin' : forall m, m ∈ js -> (m < Z.to_nat (sr_worker_count v))%nat) by (intros m Hm; apply Hin, elem_of_cons; by right).
  apply wp_bind. eapply wp_get_server; [apply Hok |]. apply wp_bind. destruct (sr_workers v) as [[wb l]|] eqn:Ev; [| by apply wp_ret, IH].
  apply wp_bind. eapply (setup_worker base fbase b v s j (sr_routes v)); [done | split; [by rewrite Ev | done] | apply Hin, elem_of_cons; by left |].
  intros w _. apply wp_if; intros _; [| by apply wp_ret, IH]. unfold wp at 1, proc_backend.
  exact (IH _ (setup_backend _ _ _ _ _ _ (be_wake (Z.of_nat j) (pr_backend s)) Hok) Hin').
Qed.

Lemma stop_spec base fbase b v s E :
  setup_ok base fbase [] b v s ->
  wp wirecall_server_stop (fun _ => is_setup base fbase b (set_flags true (sr_listening v) (sr_port v) v) s) E s.
Proof.
  intros Hok. unfold wirecall_server_stop. apply wp_bind. unfold wp at 1, has_server, gets. rewrite (st_server _ _ _ _ _ _ Hok). cbn [negb].
  apply wp_bind. eapply wp_get_server; [apply Hok |]. apply wp_bind. eapply wp_put_server; [apply Hok |].
  eapply wp_mono; [apply (wake_workers_spec base fbase b (set_flags true (sr_listening v) (sr_port v) v)); [by apply setup_flags | intros j Hj%elem_of_seq; cbn; lia] | | done].
  intros _ s1 [? ?]. done.
Qed.

(** *** Configuring *)
Lemma set_workers_spec base fbase b v s n :
  setup_ok base fbase [] b v s -> 0 <= n ->
  wp (wirecall_server_set_workers n) (fun _ => kept base fbase b (any_server (sr_routes v)) s) (fun s' => s' = s) s.
Proof.
  intros Hok Hn. pose proof Hok as [Hs Hc Hk Hw Hp Hrr Ht Ho Hd]. unfold wirecall_server_set_workers. apply wp_bind.
  unfold wp at 1, has_server, gets. rewrite Hs. cbn [negb]. apply wp_bind. eapply wp_get_server; [done |].
  apply wp_if; intros Eg; [by apply wp_fail |]. zb. eapply wp_put_server; [done |]. exists (set_workers (sr_workers v) (sr_workers_ready v) n v). split; [| done].
  destruct (sr_workers v) as [[wb l]|] eqn:Ev; [destruct Hw as (Hrd & _); congruence |].
  unfold server_blocks, server_fds in *. rewrite Ev in Ho, Hd. constructor; unfold server_blocks, server_fds; cbn; rewrite ?Ev; done || lia.
Qed.

Lemma set_integrity_spec base fbase b v s i key :
  setup_ok base fbase [] b v s -> (forall bytes, key = Some bytes -> bytes_ok bytes /\ 16 <= zlen bytes) ->
  wp (wirecall_server_set_integrity i key) (fun _ => kept base fbase b (any_server (sr_routes v)) s) (fun s' => s' = s) s.
Proof.
  intros Hok Hkey. pose proof Hok as [Hs Hc Hk Hw Hp Hrr Ht Ho Hd]. unfold wirecall_server_set_integrity. apply wp_bind.
  unfold wp at 1, has_server, gets. rewrite Hs. cbn [negb]. apply wp_bind. eapply wp_get_server; [done |].
  apply wp_if; intros Eg; [by apply wp_fail |]. apply wp_bind.
  assert (Hgo : forall bytes, bytes_ok bytes /\ zlen bytes = 16 ->
    wp (put_server (set_integrity i bytes v)) (fun _ => kept base fbase b (any_server (sr_routes v)) s) (fun s' => s' = s) s).
  { intros bytes Hb. eapply wp_put_server; [done |]. exists (set_integrity i bytes v). split; [by constructor | done]. }
  destruct key as [bytes|]; [| by apply wp_ret, Hgo]. destruct (Hkey bytes eq_refl) as [Hb Hl]. unfold wp at 1, lift, buffer_bytes.
  replace (16 <=? zlen bytes) with true by (symmetry; apply Z.leb_le; lia).
  apply Hgo. split; [by apply bytes_ok_ztake | rewrite zlen_ztake; lia].
Qed.

(** *** Procedures *)

(** the table with the heap and the log, as proc_routes hands them over *)
Definition table_env v s : routes_env W P :=
  {| env_routes := sr_routes v; env_heap := pr_heap s; env_pages := pr_pages s; env_log := pr_log s |}.
(** the finalizers that have run or are still to run *)
Definition finals v s : list (Z * Z) := pr_log s ++ table_finals (sr_routes v).

Lemma setup_routes base fbase b v s :
  setup_ok base fbase [] b v s ->
  routes_ok base ((match sr_workers v with Some (wb, l) => wb :: blocks_of l | None => [] end) ++ [b]) (table_env v s).
Proof.
  intros [Hs Hc Hk Hw Hp Hrr [] Ho Hd]. constructor; try done. cbn. unfold server_blocks in Ho.
  rewrite (Permutation_app_comm _ (table_blocks _)), <- app_assoc in Ho. exact Ho.
Qed.

Lemma proc_routes_spec base fbase b v s {A} (m : M (routes_env W P) A) news :
  setup_ok base fbase [] b v s ->
  (forall extra, routes_ok base extra (table_env v s) -> routes_ok base extra (m (table_env v s)).2) -> (m (table_env v s)).1 <> UB ->
  env_log (m (table_env v s)).2 ++ table_finals (env_routes (m (table_env v s)).2) ≡ₚ news ++ finals v s ->
  let Q s' := exists v', setup_ok base fbase [] b v' s' /\ finals v' s' ≡ₚ news ++ finals v s in
  match (m (table_env v s)).1 with
  | Ok a => wp (proc_routes m) (fun a' s' => a' = a /\ Q s') (fun _ => False) s
  | _ => wp (proc_routes m) (fun _ _ => False) Q s
  end.
Proof.
  intros Hok Hm Hub Hf Q. pose proof (Hm _ (setup_routes _ _ _ _ _ Hok)) as Hro.
  pose proof Hok as [Hs Hc Hk Hw Hp Hrr Ht Ho Hd].
  assert (Hgo : forall r e, m (table_env v s) = (r, e) -> Q (set_server (Some (b, set_shared (env_routes e) (sr_routes_ready v) (sr_next_worker v) (sr_stopping v) (sr_pendings v) v))
      {| pr_server := pr_server s; pr_heap := env_heap e; pr_pages := env_pages e; pr_net := pr_net s; pr_backend := pr_backend s; pr_log := env_log e |})).
  { intros r e E. rewrite E in Hro, Hf. cbn in Hro, Hf.
    exists (set_shared (env_routes e) (sr_routes_ready v) (sr_next_worker v) (sr_stopping v) (sr_pendings v) v). split; [| exact Hf]. destruct Hro as [R1 R2 R3 R4 R5].
    constructor; try done. cbn. unfold server_blocks. cbn. rewrite (Permutation_app_comm _ (table_blocks _)), <- app_assoc. exact R5. }
  destruct (m (table_env v s)) as [r e] eqn:E. cbn [fst snd] in *.
  assert (Hrun : proc_routes m s = (match r with UB => UB | _ => r end,
    set_server (Some (b, set_shared (env_routes e) (sr_routes_ready v) (sr_next_worker v) (sr_stopping v) (sr_pendings v) v))
      {| pr_server := pr_server s; pr_heap := env_heap e; pr_pages := env_pages e; pr_net := pr_net s; pr_backend := pr_backend s; pr_log := env_log e |})).
  { unfold proc_routes, bind, get_server. rewrite Hs. change {| env_routes := _ |} with (table_env v s). rewrite E.
    unfold put_server. cbn [pr_server]. rewrite Hs. by destruct r. }
  specialize (Hgo r e eq_refl). unfold wp. rewrite Hrun. by destruct r.
Qed.

Lemma add_any base fbase b v s (route : wirecall_route) :
  setup_ok base fbase [] b v s -> active_readers (sr_routes v) = 0 ->
  wp (proc_routes (add_node route)) (fun _ s' => exists v', setup_ok base fbase [] b v' s' /\ finals v' s' ≡ₚ fin route ++ finals v s)
    (fun s' => exists v', setup_ok base fbase [] b v' s' /\ finals v' s' ≡ₚ finals v s) s.
Proof.
  intros Hok Hrd. assert (Hb : 32 <= size_bits) by lia.
  assert (Hs : forall extra, routes_ok base extra (table_env v s) -> routes_ok base extra (add_node route (table_env v s)).2).
  { intros extra Hr. destruct (add_node route (table_env v s)) as [r e] eqn:E.
    pose proof (add_node_spec route _ r e base extra Hb Hr E) as Ha. destruct r; [by destruct Ha | | done].
    destruct Ha as [[? _] | [Hne _]]; [done | by destruct (Hne Hrd)]. }
  destruct (add_node route (table_env v s)) as [r e] eqn:E.
  pose proof (add_node_spec route _ r e base _ Hb (setup_routes _ _ _ _ _ Hok) E) as Ha.
  pose proof (proc_routes_spec base fbase b v s (add_node route) (match r with Ok _ => fin route | _ => [] end) Hok) as Hp. rewrite E in Hp.
  destruct r as [u| |]; [| | done].
  - destruct Ha as (_ & _ & _ & Hf). eapply wp_mono; [apply Hp; [exact Hs | done |] | | done].
    + cbn [fst snd] in *. rewrite Hf. unfold finals, table_env. cbn. apply Permutation_app_swap_app.
    + intros _ s' [_ HQ]. exact HQ.
  - destruct Ha as [(_ & _ & Hl & Hf & _) | [Hne _]]; [| by destruct (Hne Hrd)].
    eapply wp_mono; [apply Hp; [exact Hs | done |] | done | done]. cbn [fst snd] in *. by rewrite Hl, Hf.
Qed.

Lemma remove_any base fbase b v s id :
  setup_ok base fbase [] b v s -> active_readers (sr_routes v) = 0 ->
  wp (proc_routes (wirecall_routes_remove id)) (fun _ s' => exists v', setup_ok base fbase [] b v' s' /\ finals v' s' ≡ₚ finals v s)
    (fun s' => exists v', setup_ok base fbase [] b v' s' /\ finals v' s' ≡ₚ finals v s) s.
Proof.
  intros Hok Hrd. assert (Hb : 32 <= size_bits) by lia. set (m := wirecall_routes_remove id).
  assert (Hs : forall extra, routes_ok base extra (table_env v s) -> routes_ok base extra (m (table_env v s)).2).
  { intros extra Hr. destruct (m (table_env v s)) as [r e] eqn:E.
    pose proof (remove_spec id _ r e base extra Hb Hr E) as Ha. destruct r; [by destruct Ha as (_ & ? & _) | | done].
    destruct Ha as [[? _] | [Hne _]]; [done | by destruct (Hne Hrd)]. }
  destruct (m (table_env v s)) as [r e] eqn:E.
  pose proof (remove_spec id _ r e base _ Hb (setup_routes _ _ _ _ _ Hok) E) as Ha.
  pose proof (proc_routes_spec base fbase b v s m [] Hok) as Hp. rewrite E in Hp.
  destruct r as [u| |]; [| | done].
  - destruct Ha as (_ & _ & _ & _ & Hf). eapply wp_mono; [apply Hp; [exact Hs | done | exact Hf] | | done].
    intros _ s' [_ HQ]. exact HQ.
  - destruct Ha as [(_ & _ & Hl & Hf & _) | [Hne _]]; [| by destruct (Hne Hrd)].
    eapply wp_mono; [apply Hp; [exact Hs | done |] | done | done]. cbn [fst snd] in *. by rewrite Hl, Hf.
Qed.
(** *** The end of a server *)

(** after the join, a worker is destroyed; its flag is all that changes before *)
Lemma join_and_destroy_spec base fbase js b v s wb l hl fl E :
  has_workers base fbase b v s wb l hl fl -> Forall hollow l -> NoDup js -> (forall j, j ∈ js -> (j < length l)%nat) ->
  wp (join_and_destroy coro_size js)
    (fun _ s' => exists v' l', has_workers base fbase b v' s' wb l' hl fl /\ same_server v v' /\ wiped js l l' /\ pr_log s' = pr_log s) E s.
Proof.
  revert v s l. induction js as [|j js IH]; intros v s l Hh Hall Hnd Hin; cbn [join_and_destroy].
  - apply wp_ret. exists v, l. split_and!; try done. split; [done |]. intros i w Hw. right. split; [apply not_elem_of_nil | done].
  - pose proof Hh as (Hs & Hv & Hp & Ho & Hd). apply list.NoDup_cons in Hnd as [Hj Hnd].
    assert (Hlt : (j < length l)%nat) by (apply Hin, elem_of_cons; by left). destruct (lookup_lt_is_Some_2 l j Hlt) as [w Hw].
    apply wp_bind. eapply wp_get_worker; [done | done | done |]. apply wp_bind.
    set (M := fun (_ : unit) s' => exists v' l', has_workers base fbase b v' s' wb l' hl fl /\ same_server v v' /\ Forall hollow l' /\
      length l' = length l /\ (forall i, i <> j -> l' !! i = l !! i) /\ pr_log s' = pr_log s).
    eapply (wp_mono _ M _ (fun _ => False)); [| | done].
    { apply wp_if; intros _; [| apply wp_ret; by exists v, l]. eapply wp_put_worker; [done | done | done |].
      exists (store v wb l j (set_started false w)), (<[j := set_started false w]> l).
      pose proof (concat_store worker_blocks l j w (set_started false w) Hw) as Hb.
      pose proof (concat_store ww_listeners l j w (set_started false w) Hw) as Hf. apply Permutation_app_inv_l in Hb, Hf.
      assert (Hhw : hollow w) by (by eapply Forall_lookup_1). unfold has_workers. split_and!; try done.
      - cbn. unfold blocks_of in *. by rewrite <- Hb.
      - cbn. unfold listeners_of in *. by rewrite <- Hf.
      - apply Forall_insert; [done |]. by destruct Hhw.
      - by rewrite length_insert.
      - intros i Hi. by rewrite list_lookup_insert_ne. }
    intros ? s1 (v1 & l1 & Hh1 & Hsm1 & Hall1 & Hlen1 & Hsame & Hl1). apply wp_bind.
    pose proof (destroy_workers_spec base fbase [j] b v1 s1 wb l1 hl fl (fun _ => False) Hh1 Hall1 (NoDup_singleton j)
      ltac:(intros i Hi%list_elem_of_singleton; subst i; rewrite Hlen1; exact Hlt)) as Hdw.
    cbn [destroy_workers] in Hdw. unfold wp, bind at 1 in Hdw. unfold wp at 1.
    destruct (worker_destroy coro_size (Z.of_nat j) s1) as [[u| |] s2]; [| done | done]. cbn in Hdw.
    destruct Hdw as (v2 & l2 & Hh2 & Hsm2 & [Hlen2 Hw2] & Hl2).
    assert (Hjz : l2 !! j = Some worker_zero).
    { destruct (lookup_lt_is_Some_2 l2 j) as [w2 Hw2']; [lia |]. destruct (Hw2 j w2 Hw2') as [[_ ->] | [Hn _]]; [done |].
      exfalso. apply Hn. apply elem_of_cons. by left. }
    assert (Hothers : forall i w', i <> j -> l2 !! i = Some w' -> l !! i = Some w').
    { intros i w' Hi Hw'. destruct (Hw2 i w' Hw') as [[Hi2%list_elem_of_singleton _] | [_ Hl']]; [done | by rewrite <- Hsame]. }
    eapply wp_mono; [apply (IH v2 s2 l2 Hh2) | | done].
    + apply Forall_lookup. intros i w' Hw'. destruct (decide (i = j)) as [-> | Hi].
      * rewrite Hjz in Hw'. injection Hw' as <-. apply zero_hollow.
      * eapply Forall_lookup_1; [exact Hall | by apply Hothers].
    + done.
    + intros i Hi. rewrite Hlen2, Hlen1. apply Hin, elem_of_cons. by right.
    + intros _ s3 (v3 & l3 & Hh3 & Hsm3 & [Hlen3 Hw3] & Hl3). exists v3, l3. split; [done |].
      split; [eapply same_server_trans; [exact Hsm1 | by eapply same_server_trans] |]. split; [| congruence]. split; [congruence |].
      intros i w' Hw'. destruct (Hw3 i w' Hw') as [[Hi ->] | [Hn Hl']]; [left; split; [apply elem_of_cons; by right | done] |].
      destruct (decide (i = j)) as [-> | Hi]; [rewrite Hjz in Hl'; injection Hl' as <-; left; split; [apply elem_of_cons; by left | done] |].
      right. split; [by rewrite not_elem_of_cons | by apply Hothers].
Qed.
(** the last steps of wirecall_server_destroy: the table and the server's block *)
Lemma destroy_table base fbase b v s E :
  pr_server s = Some (b, v) -> table_ok (sr_routes v) -> owns base (table_blocks (sr_routes v) ++ [b]) (pr_heap s) -> descs fbase [] (pr_net s) ->
  wp (proc_routes (fun e => (Ok tt, wirecall_routes_destroy e)) ;;;
      fun s => match pr_server s with
               | Some (b, _) => (Ok tt, set_pheap (heap_free b (pr_heap s)) (set_server None s))
               | None => (UB, s)
               end)
    (fun _ s' => pr_server s' = None /\ owns base [] (pr_heap s') /\ descs fbase [] (pr_net s') /\ pr_log s' ≡ₚ finals v s) E s.
Proof.
  intros Hs Ht Ho Hd. apply wp_bind. unfold wp at 1, proc_routes, bind, get_server. rewrite Hs. change {| env_routes := _ |} with (table_env v s).
  assert (Hro : routes_ok base [b] (table_env v s)) by (by destruct Ht).
  destruct (destroy_spec (table_env v s) base [b] Hro) as [Hl Ho']. set (e := wirecall_routes_destroy (table_env v s)) in *.
  unfold put_server. cbn [pr_server]. rewrite Hs. unfold lift, wp. cbn. split_and!; [done | by apply owns_free | done | exact Hl].
Qed.

Lemma server_destroy_spec base fbase b v s E :
  setup_ok base fbase [] b v s ->
  wp (wirecall_server_destroy coro_size)
    (fun _ s' => pr_server s' = None /\ owns base [] (pr_heap s') /\ descs fbase [] (pr_net s') /\ pr_log s' ≡ₚ finals v s) E s.
Proof.
  intros Hok. pose proof Hok as [Hs Hc Hk Hw Hp Hrr Ht Ho Hd]. unfold wirecall_server_destroy. apply wp_bind.
  unfold wp at 1, has_server, gets. rewrite Hs. cbn [negb]. apply wp_bind. eapply wp_get_server; [done |]. rewrite Hrr.
  apply wp_bind. unfold server_blocks, server_fds in Ho, Hd. destruct (sr_workers v) as [[wb l]|] eqn:Ev.
  2: { apply wp_ret. by eapply destroy_table. }
  destruct Hw as (Hrd & Hlen & Hall). apply wp_bind. eapply wp_mono; [by apply (stop_spec base fbase b v s (fun _ => False)) | | done].
  intros _ s1 [[Hs1 _ _ _ Hp1 _ _ Ho1 Hd1] Hl1]. unfold server_blocks, server_fds in Ho1, Hd1. cbn in Ho1, Hd1. rewrite Ev in Ho1, Hd1.
  set (v1 := set_flags true _ _ v) in *. apply wp_bind.
  assert (Hh1 : has_workers base fbase b v1 s1 wb l (wb :: table_blocks (sr_routes v) ++ [b]) []).
  { unfold has_workers. split_and!; try done. rewrite <- Permutation_middle. by rewrite app_assoc. }
  eapply wp_mono; [apply (join_and_destroy_spec base fbase (seq 0 (Z.to_nat (sr_worker_count v))) b v1 s1 wb l _ [] (fun _ => False) Hh1) | | done].
  - by apply ready_hollow.
  - apply seq_NoDup.
  - intros j Hj%elem_of_seq. unfold zlen in Hlen. lia.
  - intros _ s2 (v2 & l2 & (Hs2 & Hv2 & Hp2 & Ho2 & Hd2) & Hsm & Hwp & Hl2).
    assert (Hz : l2 = replicate (length l) worker_zero).
    { apply (wiped_all _ _ _ Hwp). intros i w Hi Hn. exfalso. apply Hn. apply elem_of_seq. apply lookup_lt_Some in Hi. unfold zlen in Hlen. lia. }
    destruct (zeros_nothing (length l)) as [Zb Zl]. rewrite Hz, Zb in Ho2. rewrite Hz, Zl in Hd2. cbn [app] in Ho2, Hd2.
    unfold wp at 1, proc_heap. assert (Hr : sr_routes v2 = sr_routes v) by (by destruct Hsm).
    eapply wp_mono; [apply (destroy_table base fbase b v2 _ (fun _ => False)) | | done].
    + exact Hs2.
    + by rewrite Hr.
    + rewrite Hr. cbn. by apply owns_free.
    + exact Hd2.
    + intros _ s3 (? & ? & ? & Hl3). split_and!; [done | done | done |]. rewrite Hl3. unfold finals. cbn. by rewrite Hr, Hl2, Hl1.
Qed.

(** *** The beginning *)
Lemma init_readers rm (e e' : routes_env W P) r : wirecall_routes_init rm e = (r, e') -> active_readers (env_routes e') = 0.
Proof. unfold wirecall_routes_init. destruct (pages_alloc _ _) as [[base|] p]; [destruct rm |]; by intros [= <- <-]. Qed.

Lemma server_init_spec rm nproc s :
  pr_server s = None -> heap_inv (pr_heap s) ->
  wp (wirecall_server_init coro_size nproc rm true)
    (fun _ s' => exists b v, setup_ok (heap_live (pr_heap s)) (net_open (pr_net s)) [] b v s' /\ active_readers (sr_routes v) = 0 /\
      (forall id, route_of (sr_routes v) id = None) /\ finals v s' = pr_log s)
    (fun s' => pr_server s' = None /\ heap_live (pr_heap s') = heap_live (pr_heap s) /\ net_open (pr_net s') = net_open (pr_net s) /\ pr_log s' = pr_log s) s.
Proof.
  intros Hs Hi. apply owns_start in Hi as Ho. unfold wirecall_server_init. cbn [negb]. apply wp_bind. unfold wp at 1, proc_heap.
  destruct (heap_calloc 1 sizeof_wirecall_server (pr_heap s)) as [blk h1] eqn:Ec.
  apply (owns_calloc (heap_live (pr_heap s)) []) in Ec; [| done | by_compute | done].
  destruct blk as [b|]; [| apply wp_fail; by apply owns_nil in Ec as [_ ?]]. cbn [option_list app] in Ec.
  apply wp_bind. unfold wp at 1, modify. set (v := set_workers None _ _ _). set (s1 := set_server _ _).
  apply wp_bind, wp_attempt. unfold wp at 1, proc_routes, bind at 1, get_server. cbn [s1 pr_server set_server].
  destruct (wirecall_routes_init rm _) as [r e] eqn:Er. apply owns_inv in Ec as Hi1. pose proof (init_readers _ _ _ _ Er) as Hrd.
  apply routes_init_spec in Er as (El & Eh & Er); [| exact Hi1]. cbn in El, Eh.
  destruct r as [u| |]; unfold bind, put_server; cbn [pr_server lift]; [| | done].
  - destruct Er as ([R1 R2 R3 R4 R5] & Hnone & Hfin). unfold wp, bind, get_server, put_server. cbn [pr_server set_server].
    eexists b, _. split; [constructor | split; [| split]]; cbn; try done.
    + apply cpu_count_range.
    + by_compute.
    + apply (owns_frame _ [b] _ _ _ Ec). cbn in R5. by rewrite app_nil_r in R5.
    + split; [constructor |]. split; [by intros fd Hfd%elem_of_nil |]. cbn. by rewrite union_empty_r_L.
    + unfold finals. cbn. by rewrite El, Hfin, app_nil_r.
  - unfold wp, wirecall_server_destroy, bind, has_server, gets, get_server. cbn. split_and!; try done. rewrite Eh.
    by apply owns_free, owns_nil in Ec as [_ ?].
Qed.
(** *** A worker of a server that is set up *)

(** the blocks that are not the worker's own, and the listeners *)
Definition aside_blocks b v : list Z := (match sr_workers v with Some (wb, l) => wb :: blocks_of l | None => [] end) ++ [b].

Lemma focus_client v w s : s_client (focus v w s) =
  {| sv_integrity := sr_integrity v; sv_mac_key := sr_mac_key v; sv_worker_count := sr_worker_count v;
     sv_next_worker := sr_next_worker v; sv_stopping := sr_stopping v; sv_routes := sr_routes v; sv_log := pr_log s;
     sv_pendings := sr_pendings v; wk_index := ww_index w; wk_conns := ww_conns w; wk_connections := ww_connections w;
     wk_pending_writes := ww_pending_writes w; wk_defs := ww_defs w; wk_completed := ww_completed w; wk_net := pr_net s;
     wk_backend := pr_backend s; wk_fault := ww_fault w |} /\ s_heap (focus v w s) = pr_heap s.
Proof. unfold focus. by destruct (ww_scheduler w) as [[? [[? ?] ?]]|]. Qed.

Lemma focus_ok base fbase b v s wb l i w :
  setup_ok base fbase [] b v s -> sr_workers v = Some (wb, l) -> l !! i = Some w ->
  (forall id rt, route_of (sr_routes v) id = Some rt -> route_served rt) ->
  worker_ok (base ∪ list_to_set (aside_blocks b v)) (fbase ∪ list_to_set (server_fds v)) (focus v w s).
Proof.
  intros Hok Ev Hw Hserved. pose proof (setup_routes _ _ _ _ _ Hok) as Hro. destruct Hok as [Hs Hc Hk Hws Hp Hrr Ht Ho Hd].
  rewrite Ev in Hws. destruct Hws as (Hrd & Hlen & Hall).
  assert (Hr : ready w) by (by eapply Forall_lookup_1). destruct Hr as [[Hwc Hww Hwm Hwq] [Hca Hci] (Hda & Hdi & Hdc)].
  destruct (focus_client v w s) as [Ex Eh]. constructor; rewrite ?Ex, ?Eh; cbn [sv_routes]; try done.
  2: { unfold focus. destruct (ww_scheduler w) as [[sb [[hd tl] a]]|]; [exact (Hwq _ _ eq_refl) | done]. }
  constructor; unfold conns, defs; cbn [wk_conns wk_defs wk_connections wk_pending_writes wk_completed sv_pendings sv_mac_key sv_worker_count wk_net busy g_flush g_drain g_hole g_ending];
    rewrite ?Hci, ?Hdi, ?Hwc, ?Hww, ?Hwm; try done.
  - lia.
  - split; [constructor |]. intros p. split; [by intros ?%elem_of_nil | by intros (c & Hc' & _)].
  - split; [constructor |]. intros p. split; [by intros ?%elem_of_nil | by intros (c & Hc' & _)].
  - split; [constructor |]. intros p. split; [by intros ?%elem_of_nil | by intros (c & Hc' & _)].
  - rewrite none_pending_collect by done. change (collect conn_blocks ∅) with (@nil Z). change (collect def_blocks ∅) with (@nil Z). cbn [app].
    apply owns_aside. unfold server_blocks in Ho. unfold aside_blocks.
    rewrite (Permutation_app_comm _ (table_blocks _)), <- app_assoc in Ho. exact Ho.
  - rewrite none_pending_collect by done. change (collect conn_fds ∅) with (@nil Z). cbn [app]. apply descs_aside. cbn [app]. by rewrite app_nil_r in Hd.
Qed.

(** *** Runs of the calls that set a server up *)
Inductive setup_op :=
| SSetWorkers (n : Z)
| SSetIntegrity (integrity : Z) (key : option (list Z))
| SAddRoute (name : option (list Z)) (handler : option Z) (user_data : Z) (finalizer : option Z)
| SAddAsyncRoute (name : option (list Z)) (handler : option Z) (user_data : Z) (finalizer : option Z)
| SAddDeferredRoute (name : option (list Z)) (handler : option Z) (user_data : Z) (finalizer : option Z)
| SRemoveRoute (name : option (list Z))
| SBind (host port : option (list Z))
| SListen
| SStop.

Variable nproc : Z.
Variable rm : bool.
Variable mutex_ok : Z -> bool * bool.

Definition setup_exec (op : setup_op) : M (system W P K B) unit :=
  match op with
  | SSetWorkers n => wirecall_server_set_workers n
  | SSetIntegrity i k => wirecall_server_set_integrity i k
  | SAddRoute name h ud f => wirecall_server_add_route_name_ex name h ud f
  | SAddAsyncRoute name h ud f => wirecall_server_add_async_route_name_ex name h ud f
  | SAddDeferredRoute name h ud f => wirecall_server_add_deferred_route_name_ex name h ud f
  | SRemoveRoute name => wirecall_server_remove_route_name name
  | SBind host port => wirecall_server_bind coro_size nproc mutex_ok host port
  | SListen => wirecall_server_listen
  | SStop => wirecall_server_stop
  end.

(** what a caller has to see to: arguments in range, no thread inside a lookup
    while procedures change, and listen only after a bind *)
Definition setup_may (op : setup_op) v : Prop :=
  match op with
  | SSetWorkers n => 0 <= n
  | SSetIntegrity _ key => forall bytes, key = Some bytes -> bytes_ok bytes /\ 16 <= zlen bytes
  | SAddRoute _ _ _ _ | SAddAsyncRoute _ _ _ _ | SAddDeferredRoute _ _ _ _ | SRemoveRoute _ => active_readers (sr_routes v) = 0
  | SListen => sr_workers v <> None
  | _ => True
  end.

(** the finalizer a registration owes *)
Definition setup_finals (op : setup_op) : list (Z * Z) :=
  match op with
  | SAddRoute _ _ ud (Some f) | SAddAsyncRoute _ _ ud (Some f) | SAddDeferredRoute _ _ ud (Some f) => [(f, ud)]
  | _ => []
  end.

Inductive set_up s0 : list (Z * Z) -> system W P K B -> Prop :=
| set_up_init s : wirecall_server_init coro_size nproc rm true s0 = (Ok tt, s) -> set_up s0 [] s
| set_up_step regs b v s op r s' :
    set_up s0 regs s -> pr_server s = Some (b, v) -> setup_may op v -> setup_exec op s = (r, s') ->
    set_up s0 ((match r with Ok _ => setup_finals op | _ => [] end) ++ regs) s'.

Lemma kept_finals base fbase b v want s s' :
  kept base fbase b want s s' -> (forall v', want v' -> sr_routes v' = sr_routes v) ->
  exists v', setup_ok base fbase [] b v' s' /\ finals v' s' ≡ₚ finals v s.
Proof. intros (v' & Hok' & Hw & Hl) Ht. exists v'. split; [done |]. unfold finals. by rewrite Hl, (Ht v' Hw). Qed.
Lemma has_server_ok base fbase b v s {A} (m n : M (system W P K B) A) (Q : A -> system W P K B -> Prop) E :
  setup_ok base fbase [] b v s -> wp m Q E s -> wp (ok <- has_server ;; if negb ok then n else m) Q E s.
Proof. intros Hok Hm. apply wp_bind. unfold wp at 1, has_server, gets. by rewrite (st_server _ _ _ _ _ _ Hok). Qed.

(** what a call does to the invariant and to the finalizers owed *)
Definition accounted base fbase b v s op (r : res unit) s' : Prop :=
  exists v', setup_ok base fbase [] b v' s' /\ finals v' s' ≡ₚ (match r with Ok _ => setup_finals op | _ => [] end) ++ finals v s.

Lemma refused_add base fbase b v s op (m : M (routes_env W P) unit) :
  setup_ok base fbase [] b v s -> (forall e, m e = (Err, e)) ->
  wp (proc_routes m) (fun _ => accounted base fbase b v s op (Ok tt)) (accounted base fbase b v s op Err) s.
Proof.
  intros Hok Hm. pose proof (proc_routes_spec base fbase b v s m [] Hok) as Hp. rewrite Hm in Hp. cbn [fst snd] in Hp.
  eapply wp_mono; [apply Hp; done | done | done].
Qed.

Lemma setup_exec_spec base fbase b v s op :
  setup_ok base fbase [] b v s -> setup_may op v ->
  wp (setup_exec op) (fun _ => accounted base fbase b v s op (Ok tt)) (accounted base fbase b v s op Err) s.
Proof.
  intros Hok Hmay.
  assert (Hq : forall want s', kept base fbase b want s s' -> (forall v', want v' -> sr_routes v' = sr_routes v) -> setup_finals op = [] ->
    accounted base fbase b v s op (Ok tt) s' /\ accounted base fbase b v s op Err s').
  { intros want s' Hk Hw He. unfold accounted. rewrite He. split; by apply (kept_finals base fbase b v want s s'). }
  assert (Hs : forall s', s' = s -> accounted base fbase b v s op Err s') by (intros s' ->; by exists v).
  assert (Ha : forall route, (fin route = setup_finals op) -> active_readers (sr_routes v) = 0 ->
    wp (proc_routes (add_node route)) (fun _ => accounted base fbase b v s op (Ok tt)) (accounted base fbase b v s op Err) s).
  { intros route Hf Hrd. eapply wp_mono; [by apply (add_any base fbase b v s route) | | done].
    intros _ s' (v' & Hok' & Hfin). exists v'. by rewrite <- Hf. }
  destruct op as [n|i key|name h ud f|name h ud f|name h ud f|name|host port| |]; cbn [setup_exec setup_may] in *.
  - eapply wp_mono; [by apply (set_workers_spec base fbase b v s n) | | exact Hs].
    intros ? s' Hk. by apply (Hq _ s' Hk).
  - eapply wp_mono; [by apply (set_integrity_spec base fbase b v s i key) | | exact Hs].
    intros ? s' Hk. by apply (Hq _ s' Hk).
  - apply (has_server_ok base fbase b v); [done |]. destruct h as [h|]; [| by apply refused_add].
    apply (Ha (sync_route (wirecall_proc_id name) h ud f false)); [by destruct f | done].
  - apply (has_server_ok base fbase b v); [done |]. destruct h as [h|]; [| by apply refused_add].
    apply (Ha (sync_route (wirecall_proc_id name) h ud f true)); [by destruct f | done].
  - apply (has_server_ok base fbase b v); [done |]. destruct h as [h|]; [| by apply refused_add].
    apply (Ha (deferred_route (wirecall_proc_id name) h ud f)); [by destruct f | done].
  - apply (has_server_ok base fbase b v); [done |]. by apply (remove_any base fbase b v).
  - eapply wp_mono; [by apply (bind_spec base fbase mutex_ok nproc b v s host port) | |].
    + intros ? s' Hk. eapply (Hq _ s' Hk); [| done]. by intros v' [_ ?].
    + intros s' Hk. by eapply (Hq _ s' Hk).
  - eapply wp_mono; [by apply (listen_spec base fbase b v s (sr_routes v)) | |].
    + intros ? s' Hk. eapply (Hq _ s' Hk); [| done]. by intros v' [_ ?].
    + intros s' Hk. eapply (Hq _ s' Hk); [| done]. by intros v' [_ ?].
  - eapply wp_mono; [by apply (stop_spec base fbase b v s (fun _ => False)) | | done].
    intros _ s' [Hok' Hl]. eexists. split; [exact Hok' |]. unfold finals. cbn. by rewrite Hl.
Qed.

Lemma set_up_ok s0 regs s :
  pr_server s0 = None -> heap_inv (pr_heap s0) -> set_up s0 regs s ->
  exists b v, setup_ok (heap_live (pr_heap s0)) (net_open (pr_net s0)) [] b v s /\ finals v s ≡ₚ regs ++ pr_log s0.
Proof.
  intros Hn Hi. induction 1 as [s E|regs b v s op r s' _ (b0 & v0 & Hok & Hf) Hs Hmay E].
  - pose proof (wp_run _ _ _ _ _ _ E (server_init_spec rm nproc s0 Hn Hi)) as (b & v & Hok & _ & _ & Hf). exists b, v. by rewrite Hf.
  - assert (Some (b, v) = Some (b0, v0)) as [= -> ->] by (rewrite <- Hs; apply Hok).
    pose proof (wp_run _ _ _ _ _ _ E (setup_exec_spec _ _ b0 v0 s op Hok Hmay)) as Hr.
    exists b0. destruct r as [[]| |]; [| | done]; destruct Hr as (v' & Hok' & Hf'); exists v'; (split; [done |]); by rewrite Hf', Hf, <- ?app_assoc.
Qed.
(** a worker of a server that is set up keeps the invariant of ServerInv.v *)
Lemma set_up_worker_ok s0 regs s b v wb l i w :
  pr_server s0 = None -> heap_inv (pr_heap s0) -> set_up s0 regs s ->
  pr_server s = Some (b, v) -> sr_workers v = Some (wb, l) -> l !! i = Some w ->
  (forall id rt, route_of (sr_routes v) id = Some rt -> route_served rt) ->
  worker_ok (heap_live (pr_heap s0) ∪ list_to_set (aside_blocks b v)) (net_open (pr_net s0) ∪ list_to_set (server_fds v)) (focus v w s).
Proof.
  intros Hn Hi Hs Eb Ev Ew Hserved. destruct (set_up_ok s0 regs s Hn Hi Hs) as (b0 & v0 & Hok & _).
  assert (Some (b, v) = Some (b0, v0)) as [= <- <-] by (rewrite <- Eb; apply Hok). by eapply focus_ok.
Qed.
End Lifecycle.
