(* ===== verification/ServerProps.v ===== *)
(** * ServerProps: what the server promises

    The properties of the server, from the calls that set it up to the turns of
    its workers, with a scripted world to evaluate them in. *)

From stdpp Require Import strings.
From S2P Require Import Prelude Words CString Protocol Integrity Memory Payload Arena Routes Scheduler Net Client Connection ConnInv Server.
From S2P Require Import Lifecycle ServerInv ServerLoop LifecycleInv.
#[global] Open Scope Z_scope.

(** ** A scripted world for the witnesses *)

(** the table serves its calls if every route in it does *)
#[global] Instance route_served_dec rt : Decision (route_served rt).
Proof. unfold route_served. destruct (rt_is_deferred rt); apply _. Defined.

Definition all_served (r : wirecall_routes) : Prop := map_Forall (fun _ ch => Forall (fun n => route_served n.2) ch) (slots r).
#[global] Instance all_served_dec r : Decision (all_served r).
Proof. unfold all_served. apply _. Defined.

Lemma all_served_ok r id rt : all_served r -> route_of r id = Some rt -> route_served rt.
Proof.
  intros Hall. unfold route_of, slot_chain. destruct (pages r !! _); [| done].
  destruct (slots r !! route_key id) as [ch|] eqn:E; cbn; [| done]. specialize (Hall _ _ E). cbn in Hall.
  rewrite chain_find_list. intros [Hin _]%find_some. apply in_map_iff in Hin as (n & <- & Hn).
  eapply list.Forall_forall in Hall; [exact Hall |]. by apply list_elem_of_In.
Qed.

(** handlers that write one value, and one that completes its call at once *)
Definition toy_sync `{Host} `{Heap W} (v : pvalue) (_ _ _ _ : Z) (_ : value_array) (w : wirecall_writer) (h : W) : Z * wirecall_writer * W :=
  let '(r, (w, h)) := write_value v (w, h) in (match r with Ok _ => 0 | _ => -1 end, w, h).
Definition toy_deferred (_ _ _ _ : Z) (_ : value_array) : list deferred_action * Z := ([DWrite (PI64 5); DComplete], 0).
Definition toy_async {W} (_ _ _ _ : Z) (_ : value_array) (_ : nat) (w : wirecall_writer) (h : W) : option Z * wirecall_writer * W := (Some 0, w, h).

Lemma toy_sync_lawful `{Host} `{Heap W} v : pvalue_ok v -> sync_lawful (toy_sync v).
Proof.
  intros Hv hd dt ci pi a w h r w' h' base l Hw Ho. unfold toy_sync.
  destruct (write_value v (w, h)) as [r1 [w1 h1]] eqn:E. intros [= <- <- <-].
  by destruct (write_value_spec base l v w h r1 w1 h1 Hv Hw Ho E) as (? & ? & _).
Qed.

Lemma toy_deferred_lawful : deferred_lawful toy_deferred.
Proof. intros hd dt ci pi a. repeat constructor; by_compute. Qed.

Definition toy_system : Type := system toy toy_pages toynet toybackend.

(** a process without a server: the first socket is 3 *)
Definition toy_start (recvs : list toyrecv) (sends : list toysend) (accepts : list (option Z)) (polls : list (list wirecall_backend_event)) : toy_system :=
  {| pr_server := None; pr_heap := toy_empty []; pr_pages := toy_pages_empty;
     pr_net := {| tn_open := ∅; tn_next := 3; tn_recvs := recvs; tn_blocks := true; tn_sends := sends; tn_accepts := accepts; tn_status := [];
                  tn_addrs := Some [{| sa_family := AF_INET; sa_host := 1; sa_port := 0x901f |}]; tn_received := ∅; tn_sent := ∅ |};
     pr_backend := {| tb_answers := []; tb_polls := polls; tb_wakes := [] |}; pr_log := [] |}.

Definition toy_event (events : Z) (u : watch_user) : wirecall_backend_event := {| ev_fd := 0; ev_events := events; ev_user := u |}.
Definition toy_name (c : Z) : option (list Z) := Some [c; 0].
Definition toy_packet (op : wirecall_op) (proc_id call_id : Z) (data : list Z) : list Z :=
  packet_of (H := host_lp64) WIRECALL_INTEGRITY_DEFAULT (zreplicate 16 0) op proc_id call_id data.

(** the slot of the first connection *)
Definition toy_conn : Z := 1576960.

#[local] Existing Instance host_lp64.
Definition toy_limited : Heap toy := limited_heap (HP := toy_heap).
#[local] Existing Instance toy_limited | 0.

Definition toy_exec (op : setup_op) : M toy_system unit := setup_exec 4096 4 (fun _ => (true, true)) op.
Definition toy_served : pvalue := PI64 42.

(** two requests, which arrive in pieces *)
Definition toy_requests : list Z :=
  toy_packet WIRECALL_OP_RPC (wirecall_proc_id (toy_name 97)) 11 [] ++ toy_packet WIRECALL_OP_RPC (wirecall_proc_id (toy_name 98)) 12 [].
Definition toy_recvs : list toyrecv := [TBytes (ztake 50 toy_requests); TErr EINTR; TBytes (zdrop 50 toy_requests)].
Definition toy_begin : toy_system := toy_start toy_recvs [] [None; Some EAGAIN] [].

(** one worker, a synchronous and a deferred procedure *)
Definition toy_server_0 := (wirecall_server_init 4096 4 true true toy_begin).2.
Definition toy_server_1 := (toy_exec (SSetWorkers 1) toy_server_0).2.
Definition toy_server_2 := (toy_exec (SAddRoute (toy_name 97) (Some 7) 1 (Some 50)) toy_server_1).2.
Definition toy_server_3 := (toy_exec (SAddDeferredRoute (toy_name 98) (Some 8) 2 (Some 50)) toy_server_2).2.
Definition toy_server_4 := (toy_exec (SBind None (toy_name 48)) toy_server_3).2.
Definition toy_server := (toy_exec SListen toy_server_4).2.

Definition the_server (s : toy_system) : wirecall_server := match pr_server s with Some (_, v) => v | None => server_zero end.
Definition the_worker (s : toy_system) : wirecall_worker :=
  match sr_workers (the_server s) with Some (_, w :: _) => w | _ => worker_zero end.

Definition toy_set_up : list (Z * Z) -> toy_system -> Prop := set_up 4096 4 true (fun _ => (true, true)) toy_begin.

Lemma toy_set_up_step regs s b op r s' :
  toy_set_up regs s -> pr_server s = Some (b, the_server s) -> setup_may op (the_server s) -> toy_exec op s = (r, s') ->
  toy_set_up ((match r with Ok _ => setup_finals op | _ => [] end) ++ regs) s'.
Proof. intros. by eapply set_up_step. Qed.

Lemma toy_server_set_up : toy_set_up ([] ++ [] ++ [(50, 2)] ++ [(50, 1)] ++ [] ++ []) toy_server.
Proof.
  apply (toy_set_up_step _ toy_server_4 1 SListen (Ok tt)); [| by vm_compute | by vm_compute | vm_compute; reflexivity].
  apply (toy_set_up_step _ toy_server_3 1 (SBind None (toy_name 48)) (Ok tt)); [| by vm_compute | done | vm_compute; reflexivity].
  apply (toy_set_up_step _ toy_server_2 1 (SAddDeferredRoute (toy_name 98) (Some 8) 2 (Some 50)) (Ok tt)); [| by vm_compute | by vm_compute | vm_compute; reflexivity].
  apply (toy_set_up_step _ toy_server_1 1 (SAddRoute (toy_name 97) (Some 7) 1 (Some 50)) (Ok tt)); [| by vm_compute | by vm_compute | vm_compute; reflexivity].
  apply (toy_set_up_step [] toy_server_0 1 (SSetWorkers 1) (Ok tt)); [| by vm_compute | done | vm_compute; reflexivity].
  apply set_up_init. vm_compute. reflexivity.
Qed.

(** ** Setting up *)

(** what destroying a server that has been set up leaves *)
Lemma set_up_destroyed `{Host} `{Heap W} `{Pages P} `{Net K} `{Backend B} coro_size nproc rm mutex_ok (s0 s : system W P K B) regs :
  size_bits = 64 -> pr_server s0 = None -> heap_inv (pr_heap s0) -> set_up coro_size nproc rm mutex_ok s0 regs s ->
  exists s', wirecall_server_destroy coro_size s = (Ok tt, s') /\ pr_server s' = None /\
    heap_live (pr_heap s') = heap_live (pr_heap s0) /\ net_open (pr_net s') = net_open (pr_net s0) /\
    pr_log s' ≡ₚ regs ++ pr_log s0.
Proof.
  intros H64 Hn Hi Hs. destruct (set_up_ok H64 coro_size nproc rm mutex_ok s0 regs s Hn Hi Hs) as (b & v & Hok & Hf).
  pose proof (server_destroy_spec coro_size _ _ b v s (fun _ => False) Hok) as Hd. unfold wp in Hd.
  destruct (wirecall_server_destroy coro_size s) as [[[]| |] s']; [| done | done]. destruct Hd as (E & Ho & (_ & _ & Hd) & Hl).
  exists s'. apply owns_nil in Ho as [_ Ho]. split_and!; [done | done | done | | by rewrite Hl]. rewrite Hd. cbn. by rewrite union_empty_r_L.
Qed.

(** C11: a server gives everything back: after wirecall_server_init and any
    calls that configure it, register and remove procedures, bind, listen and
    stop, whatever their results and whatever memory, mutexes, backends,
    schedulers and sockets fail on the way, wirecall_server_destroy ends
    without an invalid access, frees every block and closes every descriptor
    taken since, and has run the finalizer of every successful registration
    exactly once. *)
Theorem server_setup_balance `{Host} `{Heap W} `{Pages P} `{Net K} `{Backend B} coro_size nproc rm mutex_ok (s0 s : system W P K B) regs :
  size_bits = 64 -> pr_server s0 = None -> heap_inv (pr_heap s0) -> set_up coro_size nproc rm mutex_ok s0 regs s ->
  exists s', wirecall_server_destroy coro_size s = (Ok tt, s') /\ pr_server s' = None /\
    heap_live (pr_heap s') = heap_live (pr_heap s0) /\ net_open (pr_net s') = net_open (pr_net s0) /\
    pr_log s' ≡ₚ regs ++ pr_log s0.
Proof. apply set_up_destroyed. Qed.

Lemma server_setup_balance_witness :
  exists s', wirecall_server_destroy 4096 toy_server = (Ok tt, s') /\ pr_server s' = None /\
    heap_live (pr_heap s') = heap_live (pr_heap toy_begin) /\ net_open (pr_net s') = net_open (pr_net toy_begin) /\
    pr_log s' ≡ₚ ([] ++ [] ++ [(50, 2)] ++ [(50, 1)] ++ [] ++ []) ++ pr_log toy_begin.
Proof.
  apply (server_setup_balance 4096 4 true (fun _ => (true, true)) toy_begin toy_server).
  - reflexivity.
  - reflexivity.
  - apply toy_empty_inv.
  - apply toy_server_set_up.
Defined.

(** ** Running *)

(** C1: a worker of a server without asynchronous procedures is safe on the
    batches the event loop is written for.  Take any server set up by the calls
    above whose procedures are synchronous or deferred, with lawful handlers,
    on a machine whose memory is limited by its address space, and one of its
    workers, whose turns are run alone, the other workers and threads standing
    still.  Let it have made any turns, and let it make one more, with whatever
    the clients send, the allocator refuses and the sockets do, each on a batch
    that the event loop can take ([batch_ok]): its events name listeners and
    connections that are not detached, each once, or the two directions of a
    connection one by one, when that one has data to send.  Then this turn ends,
    uses no freed connection, call or block, and keeps the invariant: every
    connection is in the worker's list exactly while its descriptor is open,
    every block and descriptor is accounted for, the connections to be flushed
    and the completed calls are queued once, and a detached connection is kept
    exactly while deferred calls refer to it.  The statement stops where these
    conditions do: asynchronous procedures (async_answer_misdelivered
    is a call that is answered to the wrong connection) and batches outside
    [batch_ok], which the io_uring backend can report (UringProps.v,
    uring_reports_twice), and the kqueue backend once a change of its filters
    has failed (KqueueProps.v, kqueue_stale_filter). *)
Theorem worker_turns_safe `{Host} `{Heap W} `{Pages P} `{Net K} `{Backend B} coro_size nproc rm mutex_ok segment sync_handler deferred_handler
    (s0 s : system W P K B) regs b v wb l i w fuel k events r k' :
  size_bits = 64 -> address_limited -> sync_lawful sync_handler -> deferred_lawful deferred_handler ->
  pr_server s0 = None -> heap_inv (pr_heap s0) -> set_up coro_size nproc rm mutex_ok s0 regs s ->
  pr_server s = Some (b, v) -> sr_workers v = Some (wb, l) -> l !! i = Some w ->
  (forall id rt, route_of (sr_routes v) id = Some rt -> route_served rt) ->
  let base := heap_live (pr_heap s0) ∪ list_to_set (aside_blocks b v) in
  let fbase := net_open (pr_net s0) ∪ list_to_set (server_fds v) in
  turns coro_size segment sync_handler deferred_handler fbase fuel (focus v w s) k -> batch_ok fbase k events ->
  worker_turn coro_size segment sync_handler deferred_handler (S fuel) events k = (r, k') ->
  r = Ok (Some tt) /\ worker_ok base fbase k' /\ wk_fault (s_client k') = ww_fault w.
Proof.
  intros H64 Hlim Hsy Hde Hn Hi Hs Eb Ev Ew Hserved base fbase Ht Hb E.
  pose proof (set_up_worker_ok H64 coro_size nproc rm mutex_ok s0 regs s b v wb l i w Hn Hi Hs Eb Ev Ew Hserved) as Hw.
  destruct (turns_ok H64 Hlim coro_size segment sync_handler deferred_handler Hsy Hde _ _ fuel _ _ Hw Ht) as [Hk Hf].
  pose proof (wp_run _ _ _ _ _ _ E (worker_turn_spec H64 Hlim coro_size segment sync_handler deferred_handler Hsy Hde _ _ fuel k events (fun _ => False) Hk Hb)) as Hr.
  destruct r as [o| |]; [| done | done]. destruct Hr as (-> & Hk' & Hf'). split_and!; [done | done |].
  rewrite (wf_fault _ _ _ Hf'), (wf_fault _ _ _ Hf). by destruct (focus_client v w s) as [-> _].
Qed.

Notation toy_turn := (worker_turn 4096 (K := toynet) (P := toy_pages) (B := toybackend) toy_async (toy_sync toy_served) toy_deferred 1).
Definition toy_worker_0 := focus (the_server toy_server) (the_worker toy_server) toy_server.
Definition toy_accepting : list wirecall_backend_event := [toy_event 1 (UListener 3); toy_event 4 (UListener 0)].
Definition toy_worker_1 := (toy_turn toy_accepting toy_worker_0).2.
Definition toy_reading : list wirecall_backend_event := [toy_event 1 (UConn toy_conn)].

Lemma worker_turns_safe_witness :
  (toy_turn toy_reading toy_worker_1).1 = Ok (Some tt) /\
  worker_ok (heap_live (pr_heap toy_begin) ∪ list_to_set (aside_blocks 1 (the_server toy_server)))
    (net_open (pr_net toy_begin) ∪ list_to_set (server_fds (the_server toy_server))) (toy_turn toy_reading toy_worker_1).2 /\
  wk_fault (s_client (toy_turn toy_reading toy_worker_1).2) = ww_fault (the_worker toy_server).
Proof.
  apply (worker_turns_safe 4096 4 true (fun _ => (true, true)) toy_async (toy_sync toy_served) toy_deferred toy_begin toy_server
    ([] ++ [] ++ [(50, 2)] ++ [(50, 1)] ++ [] ++ []) 1 (the_server toy_server)
    (match sr_workers (the_server toy_server) with Some (wb, _) => wb | None => 0 end)
    (match sr_workers (the_server toy_server) with Some (_, l) => l | None => [] end) 0 (the_worker toy_server) 0 toy_worker_1 toy_reading).
  - reflexivity.
  - apply limited_heap_limited.
  - apply toy_sync_lawful. by_compute.
  - apply toy_deferred_lawful.
  - reflexivity.
  - apply toy_empty_inv.
  - apply toy_server_set_up.
  - by vm_compute.
  - by vm_compute.
  - by vm_compute.
  - intros id rt. apply all_served_ok. by_compute.
  - apply (turns_step _ _ _ _ _ 0 toy_worker_0 toy_worker_0 toy_accepting (Ok (Some tt))); [constructor | | vm_compute; reflexivity].
    apply batch_once; [| by_compute]. repeat constructor.
  - apply batch_once; [| by_compute]. repeat constructor. eexists. split; vm_compute; reflexivity.
  - apply surjective_pairing.
Defined.

(** ** Requests *)

(** C3: the server answers exactly the genuine packets of what it is sent, in
    order.  From any state of the worker and for any sizes of the pieces in
    which the bytes arrive, with interrupts, connection_read ends; what it
    received, behind what was left before, is a sequence of whole packets that
    pass the checks of header and integrity mode, followed by the bytes still
    in the buffer, which hold no whole packet unless the connection is to be
    closed.  Each packet is answered as its operation asks for: by the packet
    that the synchronous handler of its procedure determines, by an empty
    response to a ping, by an error packet for an unknown procedure or
    operation, by nothing for a disconnect or a deferred call; the answers are
    queued behind what was queued before, and only a failure of memory, which
    closes the connection, cuts one off. *)
Theorem connection_read_answers `{Host} `{Heap W} `{Pages P} `{Net K} `{Backend B} coro_size sync_handler deferred_handler
    base fbase p c (s : worker (W := W) (P := P) (K := K) (B := B)) r s' :
  size_bits = 64 -> address_limited -> sync_lawful sync_handler -> deferred_lawful deferred_handler ->
  worker_ok base fbase s -> conns (s_client s) !! p = Some c -> cn_detached c = false -> incomplete (b_bytes (cn_read c)) ->
  connection_read coro_size sync_handler deferred_handler p s = (r, s') ->
  r = Ok tt /\ exists new reqs c', took sync_handler base fbase p c s new reqs c' s' /\
    (cn_closing c' = true \/ incomplete (b_bytes (cn_read c'))).
Proof.
  intros H64 Hlim Hsy Hde Hw Hc Hd Hi E.
  pose proof (wp_run _ _ _ _ _ _ E (connection_read_spec H64 Hlim coro_size sync_handler deferred_handler Hsy Hde base fbase p c s (fun _ => False) Hw Hc Hd)) as Hr.
  destruct r as [[]| |]; [| done | done]. split; [done |]. destruct Hr as (new & reqs & c' & Ht & Hstop). exists new, reqs, c'. auto.
Qed.

Definition toy_base : gset Z := heap_live (pr_heap toy_begin) ∪ list_to_set (aside_blocks 1 (the_server toy_server)).
Definition toy_fbase : gset Z := net_open (pr_net toy_begin) ∪ list_to_set (server_fds (the_server toy_server)).

Lemma toy_worker_0_ok : worker_ok toy_base toy_fbase toy_worker_0.
Proof.
  apply (set_up_worker_ok (HH := host_lp64) (HP := toy_limited) eq_refl 4096 4 true (fun _ => (true, true)) toy_begin
    ([] ++ [] ++ [(50, 2)] ++ [(50, 1)] ++ [] ++ []) toy_server 1 (the_server toy_server)
    (match sr_workers (the_server toy_server) with Some (wb, _) => wb | None => 0 end)
    (match sr_workers (the_server toy_server) with Some (_, l) => l | None => [] end) 0 (the_worker toy_server)).
  - reflexivity.
  - apply toy_empty_inv.
  - apply toy_server_set_up.
  - by vm_compute.
  - by vm_compute.
  - by vm_compute.
  - intros id rt. apply all_served_ok. by_compute.
Qed.

Lemma toy_worker_1_ok : worker_ok toy_base toy_fbase toy_worker_1.
Proof.
  apply (turns_ok (HH := host_lp64) (HP := toy_limited) eq_refl limited_heap_limited 4096 toy_async (toy_sync toy_served) toy_deferred
    (toy_sync_lawful toy_served ltac:(by_compute)) toy_deferred_lawful toy_base toy_fbase 0 toy_worker_0 toy_worker_1 toy_worker_0_ok).
  apply (turns_step _ _ _ _ _ 0 toy_worker_0 toy_worker_0 toy_accepting (Ok (Some tt))); [constructor | | vm_compute; reflexivity].
  apply batch_once; [| by_compute]. repeat constructor.
Qed.

Notation toy_read := (connection_read 4096 (K := toynet) (P := toy_pages) (B := toybackend) (toy_sync toy_served) toy_deferred toy_conn).
Definition toy_connection : wirecall_connection := default zero_connection (conns (s_client toy_worker_1) !! toy_conn).

Lemma connection_read_answers_witness :
  (toy_read toy_worker_1).1 = Ok tt /\ exists new reqs c',
    took (toy_sync toy_served) toy_base toy_fbase toy_conn toy_connection toy_worker_1 new reqs c' (toy_read toy_worker_1).2 /\
    (cn_closing c' = true \/ incomplete (b_bytes (cn_read c'))).
Proof.
  apply (connection_read_answers 4096 (toy_sync toy_served) toy_deferred toy_base toy_fbase toy_conn toy_connection toy_worker_1).
  - reflexivity.
  - apply limited_heap_limited.
  - apply toy_sync_lawful. by_compute.
  - apply toy_deferred_lawful.
  - apply toy_worker_1_ok.
  - by vm_compute.
  - by vm_compute.
  - left. by_compute.
  - apply surjective_pairing.
Defined.

(** one request, from its first byte to the packet that answers it *)
Lemma request_served `{Host} `{Heap W} `{Pages P} `{Net K} `{Backend B} coro_size sync_handler deferred_handler
    base fbase p c (s : worker (W := W) (P := P) (K := K) (B := B)) r s' (client : wirecall_client) name args rt f :
  size_bits = 64 -> address_limited -> sync_lawful sync_handler -> deferred_lawful deferred_handler ->
  worker_ok base fbase s -> conns (s_client s) !! p = Some c -> cn_detached c = false -> b_bytes (cn_read c) = [] ->
  cl_integrity client = sv_integrity (s_client s) -> cl_mac_key client = sv_mac_key (s_client s) -> 0 <= cl_next_call_id client < 2 ^ 64 ->
  (forall w, args = Some w -> writer_ok w) ->
  route_of (sv_routes (s_client s)) (wirecall_proc_id name) = Some rt -> rt_is_deferred rt = false -> rt_handler rt = Some f ->
  connection_read coro_size sync_handler deferred_handler p s = (r, s') ->
  net_received (cn_fd c) (wk_net (s_client s')) = net_received (cn_fd c) (wk_net (s_client s)) ++
    request client WIRECALL_OP_RPC (wirecall_proc_id name) (cl_next_call_id client) args ->
  r = Ok tt /\ exists c', conns (s_client s') !! p = Some c' /\
    (cn_closing c' = false -> exists hd a, unsent c' = unsent c ++ header_bytes hd ++ a.2 /\ genuine client hd a.2 /\
       h_call_id hd = cl_next_call_id client /\ h_op hd = op_code a.1 /\
       handler_answer sync_handler f (rt_user_data rt) (cl_next_call_id client) (wirecall_proc_id name) (payload_bytes args) a).
Proof.
  intros H64 Hlim Hsy Hde Hw Hc Hd Hempty Hint Hkey Hid Hargs Hrt Hsync Hf E Hrecv.
  pose proof (wp_run _ _ _ _ _ _ E (connection_read_spec H64 Hlim coro_size sync_handler deferred_handler Hsy Hde base fbase p c s (fun _ => False) Hw Hc Hd)) as Hr.
  destruct r as [[]| |]; [| done | done]. split; [done |].
  destruct Hr as (new & reqs & c' & [T1 T2 T3 T4 T5 T6 T7 T8 T9 (outs & tail & U1 & U2 & U3)] & Hstop).
  exists c'. split; [done |]. intros Hcl. rewrite Hempty in T8, Hstop. cbn [app] in T8.
  destruct Hstop as [Hstop | Hstop]; [left; change (zlen []) with 0; unfold WIRECALL_HEADER_SIZE; lia | congruence |].
  rewrite T6, decide_True in Hrecv by done. apply app_inv_head in Hrecv. subst new.
  destruct (sk_key _ _ _ _ _ _ _ (wo_side _ _ _ Hw)) as [Hk1 Hk2]. pose proof (proc_id_range name) as Hpid.
  destruct (Client.payload_ok args Hargs) as (Hb & Hmax & _). rewrite <- Hkey in Hk1, Hk2.
  destruct (packet_of_spec (cl_integrity client) (cl_mac_key client) WIRECALL_OP_RPC (wirecall_proc_id name) (cl_next_call_id client) (payload_bytes args) Hpid Hid Hb Hmax Hk1 Hk2)
    as (hd & _ & Hh & Hop & Hp & Hi & Hs & _ & Epk).
  unfold request in T8. rewrite Epk in T8.
  assert (Hrest : bytes_ok (b_bytes (cn_read c'))).
  { apply (bo_bytes _ (cw_read _ (sk_conn_wf _ _ _ _ _ _ _ (wo_side _ _ _ T1) _ _ T3))). }
  destruct (one_request (s_client s) reqs _ hd (payload_bytes args) Hh Hb (eq_sym Hs) T9 Hstop Hrest T8) as [-> Hr0].
  inversion U3 as [|? out ? outs' Ho U3']; subst. inversion U3'; subst. cbn [fst snd] in Ho.
  assert (tail = []) as -> by (destruct tail; [done |]; rewrite U2 in Hcl; done).
  unfold answer_to in Ho. rewrite Hop, Z.eqb_refl, Hp, Hrt, Hsync in Ho. destruct Ho as (f' & h & Hf' & Hi' & ->).
  assert (f' = f) as -> by congruence.
  destruct (sync_answer_spec H64 sync_handler Hsy f (rt_user_data rt) hd (payload_bytes args) h Hi' Hh Hb (eq_sym Hs)) as (Ab & Al & Ah).
  set (a := sync_answer sync_handler f (rt_user_data rt) hd (payload_bytes args) h) in *.
  destruct (packet_of_spec (cl_integrity client) (cl_mac_key client) a.1 (wirecall_proc_id name) (cl_next_call_id client) a.2 Hpid Hid Ab Al Hk1 Hk2)
    as (hd2 & _ & Hh2 & Hop2 & Hp2 & Hi2 & Hs2 & Hv2 & Epk2).
  exists hd2, a. rewrite Hi in U1, Ah. rewrite Hp in Ah. split_and!; try done.
  - rewrite U1. cbn [concat]. rewrite !app_nil_r. f_equal. unfold packet. by rewrite <- Hint, <- Hkey.
  - split_and!; [done | done | done | by rewrite Hs2].
Qed.

(** C2: a call goes through: when a worker reads, in whatever pieces, the
    request a client of the same integrity mode and key makes for a synchronous
    procedure, then, unless the connection is to be closed because memory ran
    out, exactly one packet is queued for it: one that this client takes for
    genuine and for the answer to this very call, and that holds what the
    handler wrote when it was called with the values the client encoded, or the
    error that stands for its failure or for arguments that do not decode. *)
Theorem request_answered `{Host} `{Heap W} `{Pages P} `{Net K} `{Backend B} coro_size sync_handler deferred_handler
    base fbase p c (s : worker (W := W) (P := P) (K := K) (B := B)) r s' (client : wirecall_client) name args rt f :
  size_bits = 64 -> address_limited -> sync_lawful sync_handler -> deferred_lawful deferred_handler ->
  worker_ok base fbase s -> conns (s_client s) !! p = Some c -> cn_detached c = false -> b_bytes (cn_read c) = [] ->
  cl_integrity client = sv_integrity (s_client s) -> cl_mac_key client = sv_mac_key (s_client s) -> 0 <= cl_next_call_id client < 2 ^ 64 ->
  (forall w, args = Some w -> writer_ok w) ->
  route_of (sv_routes (s_client s)) (wirecall_proc_id name) = Some rt -> rt_is_deferred rt = false -> rt_handler rt = Some f ->
  connection_read coro_size sync_handler deferred_handler p s = (r, s') ->
  net_received (cn_fd c) (wk_net (s_client s')) = net_received (cn_fd c) (wk_net (s_client s)) ++
    request client WIRECALL_OP_RPC (wirecall_proc_id name) (cl_next_call_id client) args ->
  r = Ok tt /\ exists c', conns (s_client s') !! p = Some c' /\
    (cn_closing c' = false -> exists hd a, unsent c' = unsent c ++ header_bytes hd ++ a.2 /\ genuine client hd a.2 /\
       h_call_id hd = cl_next_call_id client /\ h_op hd = op_code a.1 /\
       handler_answer sync_handler f (rt_user_data rt) (cl_next_call_id client) (wirecall_proc_id name) (payload_bytes args) a).
Proof. apply request_served. Qed.

(** the worker with other traffic on the same descriptors *)
Definition with_traffic (recvs : list toyrecv) (sends : list toysend) (k : worker (W := toy) (P := toy_pages) (K := toynet) (B := toybackend)) :=
  set_client (set_net (set_sends sends (set_recvs recvs (wk_net (s_client k)))) (s_client k)) k.

Lemma with_traffic_ok base fbase recvs sends k : worker_ok base fbase k -> worker_ok base fbase (with_traffic recvs sends k).
Proof. intros [Hs Ht Hi Hr]. constructor; [by apply sk_net | done | done | done]. Qed.

Definition toy_request : list Z := request sample_client WIRECALL_OP_RPC (wirecall_proc_id (toy_name 97)) 1 (Some sample_args).
Definition toy_worker_asked := with_traffic [TBytes (ztake 20 toy_request); TErr EINTR; TBytes (zdrop 20 toy_request)] [] toy_worker_1.
Definition toy_route : wirecall_route := sync_route (wirecall_proc_id (toy_name 97)) 7 1 (Some 50) false.

Lemma request_answered_witness :
  (toy_read toy_worker_asked).1 = Ok tt /\ exists c', conns (s_client (toy_read toy_worker_asked).2) !! toy_conn = Some c' /\
    (cn_closing c' = false -> exists hd a, unsent c' = unsent toy_connection ++ header_bytes hd ++ a.2 /\ genuine sample_client hd a.2 /\
       h_call_id hd = cl_next_call_id sample_client /\ h_op hd = op_code a.1 /\
       handler_answer (toy_sync toy_served) 7 (rt_user_data toy_route) (cl_next_call_id sample_client) (wirecall_proc_id (toy_name 97)) (payload_bytes (Some sample_args)) a).
Proof.
  apply (request_answered 4096 (toy_sync toy_served) toy_deferred toy_base toy_fbase toy_conn toy_connection toy_worker_asked
    (toy_read toy_worker_asked).1 (toy_read toy_worker_asked).2 sample_client (toy_name 97) (Some sample_args) toy_route 7).
  - reflexivity.
  - apply limited_heap_limited.
  - apply toy_sync_lawful. by_compute.
  - apply toy_deferred_lawful.
  - apply with_traffic_ok, toy_worker_1_ok.
  - by vm_compute.
  - by vm_compute.
  - by vm_compute.
  - by vm_compute.
  - by vm_compute.
  - by_compute.
  - intros w [= <-]. apply writer_init_ok.
  - by vm_compute.
  - reflexivity.
  - reflexivity.
  - apply surjective_pairing.
  - vm_compute. reflexivity.
Defined.

(** *** What goes wrong *)

(** A connection that is to be closed while its socket would block is
    never closed: once a client has sent a disconnect, or its stream has ended,
    with answers left that the socket does not take, whatever events the
    backend reports for it, that it can be written included, a turn of the
    worker changes nothing at all; a backend that reports the state of the
    socket makes the loop spin. *)
Theorem closing_connection_stuck `{Host} `{Heap W} `{Pages P} `{Net K} `{Backend B} coro_size segment sync_handler deferred_handler
    p c (s : worker (W := W) (P := P) (K := K) (B := B)) fuel events :
  stuck p c s -> Forall (fun e => event_conn e = Some p) events ->
  worker_turn coro_size segment sync_handler deferred_handler (S fuel) events s = (Ok (Some tt), s).
Proof. apply stuck_turn. Qed.

(** a request, a disconnect, and a socket that takes ten bytes *)
Definition toy_worker_blocked :=
  (toy_turn toy_reading (with_traffic [TBytes (toy_request ++ toy_packet WIRECALL_OP_DISCONNECT 0 2 [])] [TTake 10; TRefuse EAGAIN] toy_worker_1)).2.
Definition toy_connection_blocked : wirecall_connection := default zero_connection (conns (s_client toy_worker_blocked) !! toy_conn).

Lemma closing_connection_stuck_witness :
  toy_turn [toy_event 3 (UConn toy_conn)] toy_worker_blocked = (Ok (Some tt), toy_worker_blocked).
Proof.
  apply (closing_connection_stuck 4096 toy_async (toy_sync toy_served) toy_deferred toy_conn toy_connection_blocked toy_worker_blocked 0).
  - constructor.
    + by vm_compute.
    + by vm_compute.
    + by_compute.
    + split_and!; by vm_compute.
  - repeat constructor.
Defined.

(** a server with one asynchronous procedure, run until its backend has nothing
    more to report *)
Definition async_run (recvs : list toyrecv) (accepts : list (option Z)) (polls : list (list wirecall_backend_event)) : toy_system :=
  ((wirecall_server_init 4096 4 true true ;;; toy_exec (SSetWorkers 1) ;;; toy_exec (SAddAsyncRoute (toy_name 97) (Some 7) 0 None) ;;;
    toy_exec (SBind None (toy_name 48)) ;;; toy_exec SListen ;;;
    wirecall_server_run 4096 toy_async (toy_sync toy_served) toy_deferred (fun _ => true) 10 []) (toy_start recvs [] accepts polls)).2.

(** the slot of its first connection *)
Definition async_conn : Z := 1052672.
Definition async_request : list Z := toy_packet WIRECALL_OP_RPC (wirecall_proc_id (toy_name 97)) 77 [].

(** a client connects, calls and hangs up; another connects in the same turn *)
Definition async_crossed : toy_system :=
  async_run [TBytes async_request; TBytes []] [None; Some EAGAIN; None]
    [toy_accepting; [toy_event 1 (UListener 3); toy_event 1 (UConn async_conn); toy_event 4 (UListener 0)]].
(** the same with no other client *)
Definition async_alone : toy_system :=
  async_run [TBytes async_request; TBytes []] [None; Some EAGAIN] [toy_accepting; [toy_event 1 (UConn async_conn)]].

(** An asynchronous call outlives its connection: when a client sends a
    call and hangs up, connection_destroy frees the connection while the call
    still holds a pointer to it, because only deferred calls are counted.  When
    the call completes, its answer is written through that pointer: into a
    freed slot, or, if a new client has been accepted in between, on the
    connection of that client, which thus receives the answer to a call it
    never made. *)
Theorem async_answer_misdelivered :
  net_received 4 (pr_net async_crossed) = async_request /\ net_sent 4 (pr_net async_crossed) = [] /\ (4 ∉ net_open (pr_net async_crossed)) /\
  net_received 5 (pr_net async_crossed) = [] /\
  net_sent 5 (pr_net async_crossed) = toy_packet WIRECALL_OP_RESPONSE (wirecall_proc_id (toy_name 97)) 77 [] /\
  ww_fault (the_worker async_alone) = true.
Proof. split_and!; by vm_compute. Qed.
