(* ===== verification/BackendWorld.v ===== *)
(** * BackendWorld: what the event backends share (include/backend.h)

    A backend is a block of the heap; its functions work on the heap, the
    kernel and that one backend.  [backends] are those of the workers of a
    server, on one heap and one kernel. *)

From stdpp Require Import strings.
From S2P Require Import Prelude Words Memory Net Connection.
#[global] Open Scope Z_scope.

(** ** Owned descriptors and handles *)
Definition fds_own (base : gset Z) (l : list Z) (x : gset Z) : Prop :=
  NoDup l /\ (forall fd, fd ∈ l -> fd ∉ base) /\ x = base ∪ list_to_set l.

Lemma fds_own_nil base x : fds_own base [] x <-> x = base.
Proof.
  unfold fds_own. cbn. rewrite union_empty_r_L. split; [by intros (_ & _ & ?) |]. intros ->. split_and!; [constructor | by intros ? ?%elem_of_nil | done].
Qed.

Lemma fds_own_add base l x fd : fds_own base l x -> (fd ∉ x) -> fds_own base (fd :: l) ({[fd]} ∪ x).
Proof.
  intros (Hn & Hd & ->) Hfd. split_and!.
  - constructor; [| done]. intros Hin. apply Hfd. apply elem_of_union. right. by apply elem_of_list_to_set.
  - intros d [-> | Hin]%elem_of_cons; [set_solver | by apply Hd].
  - cbn. apply leibniz_equiv. set_solver.
Qed.

Lemma fds_own_remove base l x fd : fds_own base (fd :: l) x -> fds_own base l (x ∖ {[fd]}) /\ fd ∈ x.
Proof.
  intros (Hn & Hd & ->). apply list.NoDup_cons in Hn as [Hfd Hn]. specialize (Hd fd) as Hb. split; [split_and!|].
  - done.
  - intros d Hin. apply Hd. by apply list_elem_of_further.
  - assert (fd ∉ (list_to_set l : gset Z)) by (by rewrite elem_of_list_to_set). assert (fd ∉ base) by (apply Hb; apply list_elem_of_here).
    cbn. apply leibniz_equiv. set_solver.
  - cbn. set_solver.
Qed.

(** a number above those in use, for the scripted kernels *)
Definition fresh_above (l : list Z) : Z := 1 + foldr Z.max 99 l.

Lemma fresh_above_new l x : x ∈ l -> x < fresh_above l.
Proof. unfold fresh_above. induction 1; cbn [foldr]; lia. Qed.

Lemma fresh_above_set (fds : gset Z) : 0 < fresh_above (elements fds) /\ (fresh_above (elements fds) ∉ fds).
Proof.
  split.
  - unfold fresh_above. assert (H : forall l, 0 <= foldr Z.max 99 l) by (induction l; cbn; lia). specialize (H (elements fds)). lia.
  - intros Hin%elem_of_elements%fresh_above_new. lia.
Qed.

Section World.
Context {W U Bk : Type}.

(** the heap, the kernel, and the backend with its block *)
Record world := { w_heap : W; w_kernel : U; w_backend : option (Z * Bk) }.

Definition set_wheap (h : W) (s : world) : world := {| w_heap := h; w_kernel := w_kernel s; w_backend := w_backend s |}.
Definition set_kernel (u : U) (s : world) : world := {| w_heap := w_heap s; w_kernel := u; w_backend := w_backend s |}.
Definition set_bk (b : option (Z * Bk)) (s : world) : world := {| w_heap := w_heap s; w_kernel := w_kernel s; w_backend := b |}.

Definition on_wheap {A} (f : W -> A * W) : M world A := fun s => let '(a, h) := f (w_heap s) in (Ok a, set_wheap h s).
Definition on_kernel {A} (f : U -> A * U) : M world A := fun s => let '(a, u) := f (w_kernel s) in (Ok a, set_kernel u s).

(** [backend->...]; the public functions test for NULL first *)
Definition has_backend : M world bool := gets (fun s => match w_backend s with Some _ => true | None => false end).
Definition get_bk : M world Bk := fun s => match w_backend s with Some (_, b) => (Ok b, s) | None => (UB, s) end.
Definition upd_bk (f : Bk -> Bk) : M world unit := fun s =>
  match w_backend s with Some (p, b) => (Ok tt, set_bk (Some (p, f b)) s) | None => (UB, s) end.

(** [wirecall_mem_free(backend)], the last statement of destroying one *)
Definition free_bk `{Heap W} : M world unit := fun s =>
  match w_backend s with Some (p, _) => (Ok tt, set_bk None (set_wheap (heap_free p (w_heap s)) s)) | None => (UB, s) end.

Implicit Types (s : world) (b : Bk) (p : Z).

Lemma wp_get_bk p b s (Q : Bk -> world -> Prop) E : w_backend s = Some (p, b) -> Q b s -> wp get_bk Q E s.
Proof. intros Hb. unfold wp, get_bk. by rewrite Hb. Qed.

Lemma wp_upd_bk p b s f (Q : unit -> world -> Prop) E : w_backend s = Some (p, b) -> Q tt (set_bk (Some (p, f b)) s) -> wp (upd_bk f) Q E s.
Proof. intros Hb. unfold wp, upd_bk. by rewrite Hb. Qed.

Lemma wp_has_backend p b s (Q : bool -> world -> Prop) E : w_backend s = Some (p, b) -> Q true s -> wp has_backend Q E s.
Proof. intros Hb. unfold wp, has_backend, gets. by rewrite Hb. Qed.

Lemma wp_free_bk `{Heap W} p b s (Q : unit -> world -> Prop) E :
  w_backend s = Some (p, b) -> Q tt (set_bk None (set_wheap (heap_free p (w_heap s)) s)) -> wp free_bk Q E s.
Proof. intros Hb. unfold wp, free_bk. by rewrite Hb. Qed.

Lemma wp_kernel {A} (f : U -> A * U) s (Q : A -> world -> Prop) E : (forall a u, f (w_kernel s) = (a, u) -> Q a (set_kernel u s)) -> wp (on_kernel f) Q E s.
Proof. intros H. unfold wp, on_kernel. destruct (f (w_kernel s)) as [a u] eqn:Ef. by apply H. Qed.

Lemma wp_wheap {A} (f : W -> A * W) s (Q : A -> world -> Prop) E : (forall a h, f (w_heap s) = (a, h) -> Q a (set_wheap h s)) -> wp (on_wheap f) Q E s.
Proof. intros H. unfold wp, on_wheap. destruct (f (w_heap s)) as [a h] eqn:Ef. by apply H. Qed.

(** ** The backends of the workers *)
Record backends := {
  bs_heap : W;
  bs_kernel : U;
  bs_table : gmap Z (Z * Bk);
  (** an access that must not be made *)
  bs_fault : bool;
}.

Definition with_backend {A} (i : Z) (m : M world A) (b : backends) : option A * backends :=
  let '(r, s) := m {| w_heap := bs_heap b; w_kernel := bs_kernel b; w_backend := bs_table b !! i |} in
  (match r with Ok a => Some a | _ => None end,
   {| bs_heap := w_heap s; bs_kernel := w_kernel s; bs_table := partial_alter (fun _ => w_backend s) i (bs_table b);
      bs_fault := bs_fault b || match r with UB => true | _ => false end |}).

Definition succeeds {A} (r : option A * backends) : bool * backends := (match r.1 with Some _ => true | None => false end, r.2).
End World.
Arguments world : clear implicits.
Arguments backends : clear implicits.
