(* ===== verification/Uring.v ===== *)
(** * Uring: the io_uring backend (src/backend/io_uring.c)

    A backend owns a descriptor of a ring, the mappings of its queues, an
    eventfd for wake-ups, and the list of its watches, which are blocks of the
    heap.  Indices into the queues are 32-bit words that wrap around.

    The kernel is a parameter, the class [Uring]: it works on the memory of the
    ring, by itself ([ur_run], at each acquire load of an index it writes) or
    when io_uring_enter is called.  [kernel_moves] is what it may do: take
    submissions from the head of their queue and post completions at the tail
    of theirs, at most one for each request it has taken, under the user_data
    of that request.

    The [user_data] of a request, a pointer to its watch, is a [cookie]: the
    watch inside the backend, or the block of another one.  The pointers into
    the mappings are not kept: [bk_ring] is the memory they point to. *)

From stdpp Require Import strings.
From S2P Require Import Prelude Words Memory Net Connection BackendWorld.
#[global] Open Scope Z_scope.

Definition WIRECALL_URING_ENTRIES : Z := 1024.
Definition POLLIN : Z := 1.
Definition POLLOUT : Z := 4.
Definition POLLERR : Z := 8.
Definition POLLHUP : Z := 16.
Definition POLLRDHUP : Z := 8192.
Definition IORING_OP_POLL_ADD : Z := 6.
Definition IORING_OP_POLL_REMOVE : Z := 7.
Definition IORING_ENTER_GETEVENTS : Z := 1.
Definition IORING_FEAT_SINGLE_MMAP : Z := 1.
Definition IORING_OFF_SQ_RING : Z := 0.
Definition IORING_OFF_CQ_RING : Z := 134217728.
Definition IORING_OFF_SQES : Z := 268435456.
Definition ENOENT : Z := 2.
Definition EIO : Z := 5.
Definition ECANCELED : Z := 125.

Inductive cookie := CNull | CWake | CWatch (p : Z).
#[global] Instance cookie_eq_dec : EqDecision cookie.
Proof. solve_decision. Defined.

Record io_uring_sqe := { sqe_opcode : Z; sqe_fd : Z; sqe_poll_events : Z; sqe_addr : cookie; sqe_user_data : cookie }.
Record io_uring_cqe := { cqe_user_data : cookie; cqe_res : Z }.
Definition null_sqe : io_uring_sqe := {| sqe_opcode := 0; sqe_fd := 0; sqe_poll_events := 0; sqe_addr := CNull; sqe_user_data := CNull |}.
Definition null_cqe : io_uring_cqe := {| cqe_user_data := CNull; cqe_res := 0 |}.

Record io_uring_params := { up_sq_entries : Z; up_cq_entries : Z; up_features : Z; up_sq_off_array : Z; up_cq_off_cqes : Z }.
Definition params_zero : io_uring_params := {| up_sq_entries := 0; up_cq_entries := 0; up_features := 0; up_sq_off_array := 0; up_cq_off_cqes := 0 |}.

(** the memory the process shares with the kernel *)
Record ring := {
  sq_head : Z;
  sq_tail : Z;
  sq_ring_mask : Z;
  sq_ring_entries : Z;
  sq_array : list Z;
  sqes : list io_uring_sqe;
  cq_head : Z;
  cq_tail : Z;
  cq_ring_mask : Z;
  cqes : list io_uring_cqe;
}.

Definition set_sq (head tail : Z) (array : list Z) (s : list io_uring_sqe) (r : ring) : ring :=
  {| sq_head := head; sq_tail := tail; sq_ring_mask := sq_ring_mask r; sq_ring_entries := sq_ring_entries r; sq_array := array;
     sqes := s; cq_head := cq_head r; cq_tail := cq_tail r; cq_ring_mask := cq_ring_mask r; cqes := cqes r |}.
Definition set_cq (head tail : Z) (c : list io_uring_cqe) (r : ring) : ring :=
  {| sq_head := sq_head r; sq_tail := sq_tail r; sq_ring_mask := sq_ring_mask r; sq_ring_entries := sq_ring_entries r;
     sq_array := sq_array r; sqes := sqes r; cq_head := head; cq_tail := tail; cq_ring_mask := cq_ring_mask r; cqes := c |}.

(** the submissions the kernel has not taken, and the completions posted, from
    head to tail *)
Definition slot_at (mask i : Z) : nat := Z.to_nat (Z.land i mask).
Definition sq_entry (r : ring) (i : Z) : io_uring_sqe :=
  nth (Z.to_nat (nth (slot_at (sq_ring_mask r) i) (sq_array r) 0)) (sqes r) null_sqe.
Definition cq_entry (r : ring) (i : Z) : io_uring_cqe := nth (slot_at (cq_ring_mask r) i) (cqes r) null_cqe.
Definition queue {A} (entry : Z -> A) (head tail : Z) : list A :=
  map (fun i => entry (u32 (head + Z.of_nat i))) (seq 0 (Z.to_nat (u32 (tail - head)))).
Definition sq_pending (r : ring) : list io_uring_sqe := queue (sq_entry r) (sq_head r) (sq_tail r).
Definition cq_pending (r : ring) : list io_uring_cqe := queue (cq_entry r) (cq_head r) (cq_tail r).

(** queues of a power of two entries, not more than full *)
Record ring_shape (r : ring) : Prop := {
  rs_sq : exists k, 0 <= k < 31 /\ sq_ring_entries r = 2 ^ k /\ sq_ring_mask r = Z.ones k /\ zlen (sq_array r) = 2 ^ k /\ zlen (sqes r) = 2 ^ k;
  rs_sq_idx : 0 <= sq_head r < 2 ^ 32 /\ 0 <= sq_tail r < 2 ^ 32;
  rs_sq_room : u32 (sq_tail r - sq_head r) <= sq_ring_entries r;
  rs_cq : exists k, 0 <= k < 31 /\ cq_ring_mask r = Z.ones k /\ zlen (cqes r) = 2 ^ k;
  rs_cq_idx : 0 <= cq_head r < 2 ^ 32 /\ 0 <= cq_tail r < 2 ^ 32;
  rs_cq_room : u32 (cq_tail r - cq_head r) <= zlen (cqes r);
}.

(** what the process writes is left alone *)
Record same_memory (r r' : ring) : Prop := {
  sm_sq : sq_tail r' = sq_tail r /\ sq_ring_mask r' = sq_ring_mask r /\ sq_ring_entries r' = sq_ring_entries r;
  sm_sq_mem : sq_array r' = sq_array r /\ sqes r' = sqes r;
  sm_cq : cq_head r' = cq_head r /\ cq_ring_mask r' = cq_ring_mask r /\ zlen (cqes r') = zlen (cqes r);
}.

(** [n] submissions at most are taken; [fl] are the requests taken that have
    not completed *)
Definition kernel_moves {U} (fl : U -> list cookie) (n : Z) (r : ring) (u : U) (r' : ring) (u' : U) : Prop :=
  same_memory r r' /\ (ring_shape r -> ring_shape r') /\
  exists taken posted,
    zlen taken <= n /\ (ring_shape r -> sq_pending r = taken ++ sq_pending r' /\ cq_pending r' = cq_pending r ++ posted) /\
    map cqe_user_data posted ++ fl u' ⊆+ map sqe_user_data taken ++ fl u.

Class Uring (U : Type) := {
  ur_setup : Z -> U -> option (Z * io_uring_params) * U;
  (** length, descriptor, offset; [None] is MAP_FAILED *)
  ur_mmap : Z -> Z -> Z -> U -> option Z * U;
  ur_munmap : Z -> Z -> U -> U;
  (** the rings that have just been mapped *)
  ur_ring : Z -> U -> ring;
  ur_run : Z -> ring -> U -> ring * U;
  (** to_submit, min_complete, flags; the error number *)
  ur_enter : Z -> Z -> Z -> Z -> ring -> U -> option Z * (ring * U);
  ur_eventfd : U -> option Z * U;
  (** whether eight bytes are read; written, or EAGAIN *)
  ur_read : Z -> U -> bool * U;
  ur_write : Z -> U -> bool * U;
  ur_close : Z -> U -> U;

  ur_fds : U -> gset Z;
  ur_maps : U -> gmap Z Z;
  ur_flying : Z -> U -> list cookie;
  (** a bound on the reads of eventfds that succeed in a row *)
  ur_work : U -> nat;

  law_setup : forall n u r u', ur_setup n u = (r, u') ->
    ur_maps u' = ur_maps u /\
    match r with
    | Some (fd, p) => 0 <= fd /\ (fd ∉ ur_fds u) /\ ur_fds u' = {[fd]} ∪ ur_fds u /\ ur_flying fd u' = [] /\
        0 < up_sq_entries p < 2 ^ 31 /\ 0 < up_cq_entries p < 2 ^ 31 /\ 0 <= up_sq_off_array p < 2 ^ 31 /\ 0 <= up_cq_off_cqes p < 2 ^ 31
    | None => ur_fds u' = ur_fds u
    end;
  law_mmap : forall n fd off u r u', 0 < n -> ur_mmap n fd off u = (r, u') ->
    ur_fds u' = ur_fds u /\ (forall d, ur_flying d u' = ur_flying d u) /\
    match r with
    | Some p => ur_maps u !! p = None /\ ur_maps u' = <[p := n]> (ur_maps u)
    | None => ur_maps u' = ur_maps u
    end;
  law_munmap : forall p n u, ur_maps u !! p = Some n ->
    ur_maps (ur_munmap p n u) = delete p (ur_maps u) /\ ur_fds (ur_munmap p n u) = ur_fds u;
  law_ring : forall fd u, ring_shape (ur_ring fd u) /\ sq_pending (ur_ring fd u) = [] /\ cq_pending (ur_ring fd u) = [];
  law_run : forall fd r u, kernel_moves (ur_flying fd) 0 r u (ur_run fd r u).1 (ur_run fd r u).2 /\
    ur_fds (ur_run fd r u).2 = ur_fds u /\ ur_maps (ur_run fd r u).2 = ur_maps u;
  law_enter : forall fd n min flags r u e r' u', 0 <= n -> ur_enter fd n min flags r u = (e, (r', u')) ->
    kernel_moves (ur_flying fd) n r u r' u' /\ ur_fds u' = ur_fds u /\ ur_maps u' = ur_maps u;
  law_eventfd : forall u r u', ur_eventfd u = (r, u') ->
    ur_maps u' = ur_maps u /\ (forall d, ur_flying d u' = ur_flying d u) /\
    match r with
    | Some fd => 0 <= fd /\ (fd ∉ ur_fds u) /\ ur_fds u' = {[fd]} ∪ ur_fds u
    | None => ur_fds u' = ur_fds u
    end;
  law_read : forall fd u b u', ur_read fd u = (b, u') ->
    ur_fds u' = ur_fds u /\ ur_maps u' = ur_maps u /\ (forall d, ur_flying d u' = ur_flying d u) /\ (b = true -> (ur_work u' < ur_work u)%nat);
  law_write : forall fd u b u', ur_write fd u = (b, u') ->
    ur_fds u' = ur_fds u /\ ur_maps u' = ur_maps u /\ (forall d, ur_flying d u' = ur_flying d u);
  law_close_fd : forall fd u, fd ∈ ur_fds u ->
    ur_fds (ur_close fd u) = ur_fds u ∖ {[fd]} /\ ur_maps (ur_close fd u) = ur_maps u;
}.

(** ** The backend *)
Record wirecall_backend_watch := { wt_fd : Z; wt_events : Z; wt_user : watch_user; wt_active : bool; wt_armed : bool }.

Definition watch_zero : wirecall_backend_watch :=
  {| wt_fd := 0; wt_events := 0; wt_user := UConn 0; wt_active := false; wt_armed := false |}.
Definition set_armed (b : bool) (w : wirecall_backend_watch) : wirecall_backend_watch :=
  {| wt_fd := wt_fd w; wt_events := wt_events w; wt_user := wt_user w; wt_active := wt_active w; wt_armed := b |}.
Definition set_active (b : bool) (w : wirecall_backend_watch) : wirecall_backend_watch :=
  {| wt_fd := wt_fd w; wt_events := wt_events w; wt_user := wt_user w; wt_active := b; wt_armed := wt_armed w |}.
Definition set_interest (events : Z) (user : watch_user) (w : wirecall_backend_watch) : wirecall_backend_watch :=
  {| wt_fd := wt_fd w; wt_events := events; wt_user := user; wt_active := true; wt_armed := wt_armed w |}.

(** a result of mmap in a field that calloc has zeroed *)
Inductive mapping := MNull | MFailed | MAt (p : Z).
#[global] Instance mapping_eq_dec : EqDecision mapping.
Proof. solve_decision. Defined.
Definition mapped (r : option Z) : mapping := match r with Some p => MAt p | None => MFailed end.

Record wirecall_backend := {
  bk_ring_fd : Z;
  bk_wake_fd : Z;
  bk_params : io_uring_params;
  bk_sqes : mapping;
  bk_sq_ptr : mapping;
  bk_sq_map_sz : Z;
  bk_cq_ptr : mapping;
  bk_cq_map_sz : Z;
  bk_ring : option ring;
  bk_watches : list (Z * wirecall_backend_watch);
  bk_wake_watch : wirecall_backend_watch;
}.

Definition backend_zero : wirecall_backend :=
  {| bk_ring_fd := 0; bk_wake_fd := 0; bk_params := params_zero; bk_sqes := MNull; bk_sq_ptr := MNull; bk_sq_map_sz := 0;
     bk_cq_ptr := MNull; bk_cq_map_sz := 0; bk_ring := None; bk_watches := []; bk_wake_watch := watch_zero |}.
Definition set_fds (ring_fd wake_fd : Z) (p : io_uring_params) (b : wirecall_backend) : wirecall_backend :=
  {| bk_ring_fd := ring_fd; bk_wake_fd := wake_fd; bk_params := p; bk_sqes := bk_sqes b; bk_sq_ptr := bk_sq_ptr b;
     bk_sq_map_sz := bk_sq_map_sz b; bk_cq_ptr := bk_cq_ptr b; bk_cq_map_sz := bk_cq_map_sz b; bk_ring := bk_ring b;
     bk_watches := bk_watches b; bk_wake_watch := bk_wake_watch b |}.
Definition set_maps (sq : mapping) (sq_sz : Z) (cq : mapping) (cq_sz : Z) (s : mapping) (b : wirecall_backend) : wirecall_backend :=
  {| bk_ring_fd := bk_ring_fd b; bk_wake_fd := bk_wake_fd b; bk_params := bk_params b; bk_sqes := s; bk_sq_ptr := sq;
     bk_sq_map_sz := sq_sz; bk_cq_ptr := cq; bk_cq_map_sz := cq_sz; bk_ring := bk_ring b;
     bk_watches := bk_watches b; bk_wake_watch := bk_wake_watch b |}.
Definition set_ring (r : option ring) (b : wirecall_backend) : wirecall_backend :=
  {| bk_ring_fd := bk_ring_fd b; bk_wake_fd := bk_wake_fd b; bk_params := bk_params b; bk_sqes := bk_sqes b;
     bk_sq_ptr := bk_sq_ptr b; bk_sq_map_sz := bk_sq_map_sz b; bk_cq_ptr := bk_cq_ptr b; bk_cq_map_sz := bk_cq_map_sz b;
     bk_ring := r; bk_watches := bk_watches b; bk_wake_watch := bk_wake_watch b |}.
Definition set_watches (l : list (Z * wirecall_backend_watch)) (w : wirecall_backend_watch) (b : wirecall_backend) : wirecall_backend :=
  {| bk_ring_fd := bk_ring_fd b; bk_wake_fd := bk_wake_fd b; bk_params := bk_params b; bk_sqes := bk_sqes b;
     bk_sq_ptr := bk_sq_ptr b; bk_sq_map_sz := bk_sq_map_sz b; bk_cq_ptr := bk_cq_ptr b; bk_cq_map_sz := bk_cq_map_sz b;
     bk_ring := bk_ring b; bk_watches := l; bk_wake_watch := w |}.

(** sizes of the structures on LP64 *)
Definition sizeof_wirecall_backend : Z := 288.
Definition sizeof_wirecall_backend_watch : Z := 32.
Definition sizeof_io_uring_sqe : Z := 64.
Definition sizeof_io_uring_cqe : Z := 16.
Definition sizeof_unsigned : Z := 4.

Notation uworld W U := (world W U wirecall_backend).

Section Uring.
Context `{HH : Host} `{HP : Heap W} `{UU : Uring U}.

Definition get_ring : M (uworld W U) ring := b <- get_bk ;; match bk_ring b with Some r => ret r | None => ub end.
Definition put_ring (r : ring) : M (uworld W U) unit := upd_bk (set_ring (Some r)).

(** a watch behind a pointer *)
Definition get_watch (c : cookie) : M (uworld W U) wirecall_backend_watch :=
  b <- get_bk ;;
  match c with
  | CNull => ub
  | CWake => ret (bk_wake_watch b)
  | CWatch p => match find (fun x => x.1 =? p) (bk_watches b) with Some x => ret x.2 | None => ub end
  end.
Definition put_in (p : Z) (w : wirecall_backend_watch) (l : list (Z * wirecall_backend_watch)) : list (Z * wirecall_backend_watch) :=
  map (fun x => if x.1 =? p then (p, w) else x) l.
Definition put_watch (c : cookie) (w : wirecall_backend_watch) : M (uworld W U) unit :=
  get_watch c ;;;
  match c with
  | CNull => ub
  | CWake => upd_bk (fun b => set_watches (bk_watches b) w b)
  | CWatch p => upd_bk (fun b => set_watches (put_in p w (bk_watches b)) (bk_wake_watch b) b)
  end.

(** what the kernel does while the process goes on *)
Definition kernel_runs : M (uworld W U) unit :=
  b <- get_bk ;;
  r <- get_ring ;;
  x <- on_kernel (fun u => let '(r, u) := ur_run (bk_ring_fd b) r u in (r, u)) ;;
  put_ring x.

Definition uring_enter (to_submit min_complete flags : Z) : M (uworld W U) (option Z) :=
  b <- get_bk ;;
  r <- get_ring ;;
  x <- on_kernel (fun u => let '(e, (r, u)) := ur_enter (bk_ring_fd b) to_submit min_complete flags r u in ((e, r), u)) ;;
  put_ring x.2 ;;;
  ret x.1.

Definition find_watch (fd : Z) : M (uworld W U) (option Z) :=
  b <- get_bk ;;
  ret (match find (fun x => wt_fd x.2 =? fd) (bk_watches b) with Some x => Some x.1 | None => None end).

Definition poll_mask (events : Z) : Z :=
  let mask := if negb (Z.land events WIRECALL_BACKEND_READ =? 0) then Z.lor 0 (Z.lor POLLIN POLLRDHUP) else 0 in
  if negb (Z.land events WIRECALL_BACKEND_WRITE =? 0) then Z.lor mask POLLOUT else mask.

(** [__atomic_load_n(backend->sq_head, __ATOMIC_ACQUIRE)] and the tail *)
Definition load_sq : M (uworld W U) ring := kernel_runs ;;; get_ring.

(** the index of the entry, which is zeroed *)
Definition sqe_push : M (uworld W U) Z :=
  r <- load_sq ;;
  r <- (if sq_ring_entries r <=? u32 (sq_tail r - sq_head r) then
          e <- uring_enter 0 0 IORING_ENTER_GETEVENTS ;;
          if match e with Some e => negb (e =? EINTR) | None => false end then fail
          else
            r <- load_sq ;;
            if sq_ring_entries r <=? u32 (sq_tail r - sq_head r) then fail else ret r
        else ret r) ;;
  let index := Z.land (sq_tail r) (sq_ring_mask r) in
  if (index <? zlen (sqes r)) && (index <? zlen (sq_array r)) then
    put_ring (set_sq (sq_head r) (u32 (sq_tail r + 1)) (<[Z.to_nat index := index]> (sq_array r))
                (<[Z.to_nat index := null_sqe]> (sqes r)) r) ;;;
    ret index
  else ub.

(** the stores to the fields of an entry *)
Definition set_sqe (index : Z) (e : io_uring_sqe) : M (uworld W U) unit :=
  r <- get_ring ;;
  put_ring (set_sq (sq_head r) (sq_tail r) (sq_array r) (<[Z.to_nat index := e]> (sqes r)) r).

Definition submit_pending : M (uworld W U) unit :=
  r <- load_sq ;;
  let pending := u32 (sq_tail r - sq_head r) in
  if pending =? 0 then ret tt
  else
    e <- uring_enter pending 0 0 ;;
    match e with Some _ => fail | None => ret tt end.

Definition arm_watch (c : cookie) : M (uworld W U) unit :=
  w <- get_watch c ;;
  if negb (wt_active w) || wt_armed w || (wt_events w =? 0) then ret tt
  else
    index <- sqe_push ;;
    set_sqe index {| sqe_opcode := IORING_OP_POLL_ADD; sqe_fd := wt_fd w; sqe_poll_events := poll_mask (wt_events w) mod 2 ^ 16;
                     sqe_addr := CNull; sqe_user_data := c |} ;;;
    put_watch c (set_armed true w) ;;;
    submit_pending.

Definition cancel_watch (c : cookie) : M (uworld W U) unit :=
  w <- get_watch c ;;
  if negb (wt_armed w) then ret tt
  else
    index <- attempt sqe_push ;;
    match index with
    | None => ret tt
    | Some index =>
        set_sqe index {| sqe_opcode := IORING_OP_POLL_REMOVE; sqe_fd := 0; sqe_poll_events := 0; sqe_addr := c; sqe_user_data := CNull |} ;;;
        attempt submit_pending ;;;
        put_watch c (set_armed false w)
    end.

(** *** Creating and destroying *)
Definition sq_size (p : io_uring_params) : Z := usize (up_sq_off_array p + up_sq_entries p * sizeof_unsigned).
Definition cq_size (p : io_uring_params) : Z := usize (up_cq_off_cqes p + up_cq_entries p * sizeof_io_uring_cqe).
Definition sqes_size (p : io_uring_params) : Z := usize (up_sq_entries p * sizeof_io_uring_sqe).
Definition single_mmap (p : io_uring_params) : bool := negb (Z.land (up_features p) IORING_FEAT_SINGLE_MMAP =? 0).

Definition map_rings : M (uworld W U) unit :=
  b <- get_bk ;;
  let p := bk_params b in
  let sq_sz := if single_mmap p && (sq_size p <? cq_size p) then cq_size p else sq_size p in
  let cq_sz := cq_size p in
  sq <- on_kernel (ur_mmap sq_sz (bk_ring_fd b) IORING_OFF_SQ_RING) ;;
  upd_bk (set_maps (mapped sq) sq_sz MNull cq_sz MNull) ;;;
  match sq with
  | None => fail
  | Some sq =>
      cq <- (if single_mmap p then ret (Some sq) else on_kernel (ur_mmap cq_sz (bk_ring_fd b) IORING_OFF_CQ_RING)) ;;
      upd_bk (set_maps (MAt sq) sq_sz (mapped cq) cq_sz MNull) ;;;
      match cq with
      | None => fail
      | Some cq =>
          s <- on_kernel (ur_mmap (sqes_size p) (bk_ring_fd b) IORING_OFF_SQES) ;;
          upd_bk (set_maps (MAt sq) sq_sz (MAt cq) cq_sz (mapped s)) ;;;
          match s with
          | None => fail
          | Some _ => r <- on_kernel (fun u => (ur_ring (bk_ring_fd b) u, u)) ;; put_ring r
          end
      end
  end.

Fixpoint free_watches (l : list (Z * wirecall_backend_watch)) : M (uworld W U) unit :=
  match l with
  | [] => ret tt
  | (p, _) :: next => on_wheap (fun h => (tt, heap_free p h)) ;;; free_watches next
  end.

Definition unmap (m : mapping) (n : Z) : M (uworld W U) unit :=
  match m with MAt p => on_kernel (fun u => (tt, ur_munmap p n u)) | _ => ret tt end.
Definition close_fd (fd : Z) : M (uworld W U) unit := if 0 <=? fd then on_kernel (fun u => (tt, ur_close fd u)) else ret tt.

Definition wirecall_backend_destroy : M (uworld W U) unit :=
  ok <- has_backend ;;
  if negb ok then ret tt
  else
    b <- get_bk ;;
    free_watches (bk_watches b) ;;;
    close_fd (bk_wake_fd b) ;;;
    unmap (bk_sqes b) (sqes_size (bk_params b)) ;;;
    (if bool_decide (bk_cq_ptr b = bk_sq_ptr b) then ret tt else unmap (bk_cq_ptr b) (bk_cq_map_sz b)) ;;;
    unmap (bk_sq_ptr b) (bk_sq_map_sz b) ;;;
    close_fd (bk_ring_fd b) ;;;
    free_bk.

(** [{ wirecall_backend_destroy(backend); return -1; }] *)
Definition back_out : M (uworld W U) unit := wirecall_backend_destroy ;;; fail.

Definition wirecall_backend_create (out : bool) : M (uworld W U) unit :=
  if negb out then fail
  else
    block <- on_wheap (heap_calloc 1 sizeof_wirecall_backend) ;;
    match block with
    | None => fail
    | Some p =>
        modify (set_bk (Some (p, set_fds (-1) (-1) params_zero backend_zero))) ;;;
        x <- on_kernel (ur_setup WIRECALL_URING_ENTRIES) ;;
        match x with
        | None => back_out
        | Some (fd, params) =>
            upd_bk (set_fds fd (-1) params) ;;;
            ok <- attempt map_rings ;;
            match ok with
            | None => back_out
            | Some _ =>
                wake <- on_kernel ur_eventfd ;;
                match wake with
                | None => back_out
                | Some wake =>
                    upd_bk (set_fds fd wake params) ;;;
                    upd_bk (fun b => set_watches (bk_watches b)
                      {| wt_fd := wake; wt_events := WIRECALL_BACKEND_READ; wt_user := UConn 0; wt_active := true; wt_armed := false |} b) ;;;
                    ok <- attempt (arm_watch CWake) ;;
                    match ok with None => back_out | Some _ => ret tt end
                end
            end
        end
    end.

(** *** Watches *)
Definition wirecall_backend_register (fd events : Z) (user : watch_user) : M (uworld W U) unit :=
  ok <- has_backend ;;
  if negb ok || (fd <? 0) then fail
  else
    watch <- find_watch fd ;;
    p <- match watch with
         | None =>
             block <- on_wheap (heap_calloc 1 sizeof_wirecall_backend_watch) ;;
             match block with
             | None => fail
             | Some p =>
                 upd_bk (fun b => set_watches ((p, {| wt_fd := fd; wt_events := 0; wt_user := UConn 0; wt_active := false; wt_armed := false |})
                                                 :: bk_watches b) (bk_wake_watch b) b) ;;;
                 ret p
             end
         | Some p => cancel_watch (CWatch p) ;;; ret p
         end ;;
    w <- get_watch (CWatch p) ;;
    put_watch (CWatch p) (set_interest events user w) ;;;
    arm_watch (CWatch p).

Definition wirecall_backend_modify (fd events : Z) (user : watch_user) : M (uworld W U) unit := wirecall_backend_register fd events user.

Definition wirecall_backend_remove (fd : Z) : M (uworld W U) unit :=
  ok <- has_backend ;;
  if negb ok || (fd <? 0) then fail
  else
    watch <- find_watch fd ;;
    match watch with
    | None => ret tt
    | Some p =>
        w <- get_watch (CWatch p) ;;
        put_watch (CWatch p) (set_active false w) ;;;
        cancel_watch (CWatch p)
    end.

Definition wirecall_backend_wake : M (uworld W U) unit :=
  ok <- has_backend ;;
  if negb ok then fail
  else
    b <- get_bk ;;
    if bk_wake_fd b <? 0 then fail
    else n <- on_kernel (ur_write (bk_wake_fd b)) ;; if n : bool then ret tt else fail.

(** *** Polling *)
Fixpoint drain_wake (fuel : nat) (fd : Z) : M (uworld W U) unit :=
  match fuel with
  | O => ub
  | S fuel => n <- on_kernel (ur_read fd) ;; if n : bool then drain_wake fuel fd else ret tt
  end.

Definition ready_events (res : Z) : Z :=
  let ev := if negb (Z.land (u32 res) (Z.lor (Z.lor (Z.lor POLLIN POLLRDHUP) POLLHUP) POLLERR) =? 0) then Z.lor 0 WIRECALL_BACKEND_READ else 0 in
  if negb (Z.land (u32 res) (Z.lor (Z.lor POLLOUT POLLHUP) POLLERR) =? 0) then Z.lor ev WIRECALL_BACKEND_WRITE else ev.

(** one completion: the event it gives *)
Definition poll_one (c : io_uring_cqe) : M (uworld W U) (list wirecall_backend_event) :=
  match cqe_user_data c with
  | CNull => ret []
  | watch =>
      w <- get_watch watch ;;
      put_watch watch (set_armed false w) ;;;
      if bool_decide (watch = CWake) then
        b <- get_bk ;;
        work <- gets (fun s => ur_work (w_kernel s)) ;;
        drain_wake (S work) (bk_wake_fd b) ;;;
        attempt (arm_watch watch) ;;;
        ret [{| ev_fd := bk_wake_fd b; ev_events := WIRECALL_BACKEND_WAKE; ev_user := UConn 0 |}]
      else if wt_active w && (0 <=? cqe_res c) then
        let ev := ready_events (cqe_res c) in
        attempt (arm_watch watch) ;;;
        ret (if negb (ev =? 0) then [{| ev_fd := wt_fd w; ev_events := ev; ev_user := wt_user w |}] else [])
      else ret []
  end.

(** the loop; the head and the events *)
Fixpoint poll_loop (fuel : nat) (head tail : Z) (out : list wirecall_backend_event) (max_events : Z)
    : M (uworld W U) (Z * list wirecall_backend_event) :=
  if negb (head =? tail) && (zlen out <? max_events) then
    match fuel with
    | O => ub
    | S fuel =>
        r <- get_ring ;;
        match cqes r !! slot_at (cq_ring_mask r) head with
        | None => ub
        | Some c => l <- poll_one c ;; poll_loop fuel (u32 (head + 1)) tail (out ++ l) max_events
        end
    end
  else ret (head, out).

Definition wirecall_backend_poll (max_events timeout_ms : Z) : M (uworld W U) (list wirecall_backend_event) :=
  ok <- has_backend ;;
  if negb ok || (max_events <=? 0) then fail
  else
    e <- uring_enter 0 (if timeout_ms =? 0 then 0 else 1) IORING_ENTER_GETEVENTS ;;
    match e with
    | Some e => if e =? EINTR then ret [] else fail
    | None =>
        r <- get_ring ;;
        let head := cq_head r in
        kernel_runs ;;;
        r <- get_ring ;;
        let tail := cq_tail r in
        x <- poll_loop (Z.to_nat (u32 (tail - head))) head tail [] max_events ;;
        r <- get_ring ;;
        put_ring (set_cq x.1 (cq_tail r) (cqes r) r) ;;;
        attempt submit_pending ;;;
        ret x.2
    end.
(** the events of a backend are those of [Backend]; server.c polls without a
    timeout *)
#[global] Instance uring_backend : Backend (backends W U wirecall_backend) := {|
  be_create i b := succeeds (with_backend i (wirecall_backend_create true) b);
  be_destroy i b := (with_backend i wirecall_backend_destroy b).2;
  be_register i fd events user b := succeeds (with_backend i (wirecall_backend_register fd events user) b);
  be_modify i fd events user b := succeeds (with_backend i (wirecall_backend_modify fd events user) b);
  be_remove i fd b := (with_backend i (wirecall_backend_remove fd) b).2;
  be_wake i b := (with_backend i wirecall_backend_wake b).2;
  be_poll i max b := with_backend i (wirecall_backend_poll max (-1)) b;
|}.
End Uring.
