(* ===== verification/UringKernel.v ===== *)
(** * UringKernel: the queues shared with the kernel, and a scripted kernel

    A queue is the list of its entries from head to tail: what taking the first
    one and putting one at the end do to that list, with indices that wrap
    around and are masked.  Then a kernel that follows a script, with the laws
    of [Uring], to evaluate the backend in. *)

From stdpp Require Import strings.
From S2P Require Import Prelude Words Memory Net Connection BackendWorld Uring.
#[global] Open Scope Z_scope.

(** ** Queues *)
Section Queue.
Context {A : Type}.
Implicit Types (f g : Z -> A) (h t : Z).

Lemma queue_length f h t : zlen (queue f h t) = u32 (t - h).
Proof. unfold queue, zlen. rewrite length_map, length_seq. pose proof (u32_range (t - h)). lia. Qed.

Lemma queue_nil f h t : u32 (t - h) = 0 -> queue f h t = [].
Proof. unfold queue. by intros ->. Qed.

Lemma u32_between h t : 0 <= t < 2 ^ 32 -> u32 (h + u32 (t - h)) = t.
Proof.
  intros Ht. unfold u32. rewrite Zplus_mod_idemp_r. replace (h + (t - h)) with t by lia. by apply Z.mod_small.
Qed.

Lemma u32_there h m : 0 <= m < 2 ^ 32 -> u32 (u32 (h + m) - h) = m.
Proof. intros Hm. unfold u32. rewrite Zminus_mod_idemp_l. replace (h + m - h) with m by lia. by apply Z.mod_small. Qed.

Lemma u32_less h t : u32 (t - h) <> 0 -> u32 (t - u32 (h + 1)) = u32 (t - h) - 1.
Proof.
  intros Hn. pose proof (u32_range (t - h)). unfold u32 in *. rewrite Zminus_mod_idemp_r.
  replace (t - (h + 1)) with (t - h - 1) by lia. rewrite <- Zminus_mod_idemp_l. apply Z.mod_small. lia.
Qed.

Lemma u32_more h t : u32 (t - h) < 2 ^ 32 - 1 -> u32 (u32 (t + 1) - h) = u32 (t - h) + 1.
Proof.
  intros Hn. pose proof (u32_range (t - h)). unfold u32 in *. rewrite Zminus_mod_idemp_l.
  replace (t + 1 - h) with (t - h + 1) by lia. rewrite <- Zplus_mod_idemp_l. apply Z.mod_small. lia.
Qed.

Lemma queue_pop f h t : 0 <= h < 2 ^ 32 -> u32 (t - h) <> 0 -> queue f h t = f h :: queue f (u32 (h + 1)) t.
Proof.
  intros Hh Hn. pose proof (u32_range (t - h)). unfold queue. rewrite (u32_less h t Hn).
  replace (Z.to_nat (u32 (t - h))) with (S (Z.to_nat (u32 (t - h) - 1))) by lia. cbn [seq map].
  rewrite Z.add_0_r, (u32_small h Hh). f_equal. rewrite <- seq_shift, map_map. apply map_ext. intros i. f_equal.
  unfold u32. rewrite Zplus_mod_idemp_l. f_equal. lia.
Qed.

Lemma queue_push f h t : 0 <= t < 2 ^ 32 -> u32 (t - h) < 2 ^ 32 - 1 -> queue f h (u32 (t + 1)) = queue f h t ++ [f t].
Proof.
  intros Ht Hn. pose proof (u32_range (t - h)). unfold queue. rewrite (u32_more h t Hn).
  replace (Z.to_nat (u32 (t - h) + 1)) with (Z.to_nat (u32 (t - h)) + 1)%nat by lia.
  rewrite seq_app, map_app. cbn [seq map Nat.add]. rewrite Z2Nat.id by lia. by rewrite (u32_between h t Ht).
Qed.

Lemma queue_ext f g h t : (forall i, 0 <= i < u32 (t - h) -> f (u32 (h + i)) = g (u32 (h + i))) -> queue f h t = queue g h t.
Proof. intros H. unfold queue. apply map_ext_in. intros i Hi%in_seq. apply H. pose proof (u32_range (t - h)). lia. Qed.

Lemma queue_skip f h t l h' : 0 <= h' < 2 ^ 32 -> 0 <= t < 2 ^ 32 -> queue f h t = l ++ queue f h' t -> h' = u32 (h + zlen l) /\ u32 (t - h') = u32 (t - h) - zlen l.
Proof.
  intros Hh Ht E. assert (Hl : zlen (queue f h t) = zlen (l ++ queue f h' t)) by by rewrite E.
  rewrite zlen_app, !queue_length in Hl. split; [| lia].
  replace (zlen l) with (u32 (t - h) - u32 (t - h')) by lia. unfold u32.
  rewrite <- Zplus_mod_idemp_r, <- Zminus_mod, Zplus_mod_idemp_r. replace (h + (t - h - (t - h'))) with h' by lia. by rewrite Z.mod_small.
Qed.

Lemma queue_split f h t k : 0 <= h < 2 ^ 32 -> 0 <= t < 2 ^ 32 -> 0 <= k <= u32 (t - h) ->
  u32 (t - u32 (h + k)) = u32 (t - h) - k /\ queue f h t = queue f h (u32 (h + k)) ++ queue f (u32 (h + k)) t.
Proof.
  intros Hh Ht Hk. pose proof (u32_range (t - h)).
  assert (E : u32 (t - u32 (h + k)) = u32 (t - h) - k).
  { unfold u32 in *. rewrite Zminus_mod_idemp_r. replace (t - (h + k)) with (t - h - k) by lia. rewrite <- Zminus_mod_idemp_l. apply Z.mod_small. lia. }
  split; [done |]. pose proof (u32_there h k ltac:(lia)) as Ek.
  unfold queue. rewrite E, Ek. replace (Z.to_nat (u32 (t - h))) with (Z.to_nat k + Z.to_nat (u32 (t - h) - k))%nat by lia.
  rewrite seq_app, map_app. f_equal. rewrite (Nat.add_comm 0), <- (fmap_add_seq (Z.to_nat k) 0). change (@fmap list _ nat nat) with (@map nat nat). rewrite map_map. apply map_ext. intros i. f_equal.
  unfold u32. rewrite Zplus_mod_idemp_l. f_equal. lia.
Qed.

(** the cells of a queue that is not full are not the one at its tail *)
Lemma slot_free h t i k : 0 <= t < 2 ^ 32 -> 0 <= k < 31 -> 0 <= i < u32 (t - h) -> u32 (t - h) < 2 ^ k ->
  Z.land (u32 (h + i)) (Z.ones k) <> Z.land t (Z.ones k).
Proof.
  intros Ht Hk Hi Hn E. rewrite !Z.land_ones in E by lia. rewrite <- (u32_between h t Ht) in E. unfold u32 in *.
  assert (Hd : (2 ^ k | 2 ^ 32)) by (exists (2 ^ (32 - k)); rewrite <- Z.pow_add_r by lia; f_equal; lia).
  rewrite !Z.mod_mod_divide in E by done. set (n := (t - h) mod 2 ^ 32) in *.
  assert (Hz : (n - i) mod 2 ^ k = 0).
  { replace (n - i) with ((h + n) - (h + i)) by lia. rewrite Zminus_mod, E, Z.sub_diag. by rewrite Z.mod_0_l by lia. }
  rewrite Z.mod_small in Hz by lia. lia.
Qed.

Lemma slot_range i k : 0 <= k -> 0 <= Z.land i (Z.ones k) < 2 ^ k.
Proof. intros Hk. rewrite Z.land_ones by lia. apply Z.mod_pos_bound. lia. Qed.
End Queue.

(** a completion; one that does not fit is lost *)
Definition cq_post (c : io_uring_cqe) (r : ring) : ring :=
  if u32 (cq_tail r - cq_head r) <? zlen (cqes r)
  then set_cq (cq_head r) (u32 (cq_tail r + 1)) (<[slot_at (cq_ring_mask r) (cq_tail r) := c]> (cqes r)) r
  else r.

(** ** What the kernel may do *)
Section Moves.
Implicit Types (r : ring) (l : list cookie) (n : Z).

(** [kernel_moves] with the requests under way themselves *)
Definition moves n r l r' l' : Prop := kernel_moves (fun l : list cookie => l) n r l r' l'.

Lemma same_memory_refl r : same_memory r r.
Proof. by constructor. Qed.

Lemma same_memory_trans r r1 r2 : same_memory r r1 -> same_memory r1 r2 -> same_memory r r2.
Proof.
  intros [(? & ? & ?) [? ?] (? & ? & ?)] [(? & ? & ?) [? ?] (? & ? & ?)]. constructor; split_and!; congruence.
Qed.

Lemma moves_refl n r l : 0 <= n -> moves n r l r l.
Proof.
  intros Hn. split; [apply same_memory_refl |]. split; [done |]. exists [], []. rewrite zlen_nil, app_nil_r. split_and!; [done | done | done].
Qed.

Lemma moves_trans n n1 n2 r l r1 l1 r2 l2 : n1 + n2 <= n -> moves n1 r l r1 l1 -> moves n2 r1 l1 r2 l2 -> moves n r l r2 l2.
Proof.
  intros Hn (Hm1 & Hs1 & t1 & p1 & Hz1 & Hq1 & Hc1) (Hm2 & Hs2 & t2 & p2 & Hz2 & Hq2 & Hc2).
  split; [by eapply same_memory_trans |]. split; [auto |]. exists (t1 ++ t2), (p1 ++ p2). split; [rewrite zlen_app; lia |]. split.
  - intros Hs. destruct (Hq1 Hs) as [E1 F1]. destruct (Hq2 (Hs1 Hs)) as [E2 F2]. by rewrite E1, E2, F2, F1, !app_assoc.
  - rewrite !map_app, <- app_assoc. transitivity (map cqe_user_data p1 ++ map sqe_user_data t2 ++ l1); [by apply submseteq_skips_l |].
    rewrite (Permutation_app_swap_app (map cqe_user_data p1)). rewrite <- app_assoc, (Permutation_app_swap_app (map sqe_user_data t1)).
    by apply submseteq_skips_l.
Qed.

Lemma moves_fewer n r l l' : 0 <= n -> l' ⊆+ l -> moves n r l r l'.
Proof.
  intros Hn Hl. split; [apply same_memory_refl |]. split; [done |]. exists [], []. rewrite zlen_nil, app_nil_r. split_and!; [done | done | done].
Qed.

(** the first submission is taken *)
Lemma moves_take r l : sq_head r <> sq_tail r ->
  moves 1 r l (set_sq (u32 (sq_head r + 1)) (sq_tail r) (sq_array r) (sqes r) r) (l ++ [sqe_user_data (sq_entry r (sq_head r))]).
Proof.
  intros Hne. split; [by constructor |].
  assert (Hz : ring_shape r -> u32 (sq_tail r - sq_head r) <> 0).
  { intros [_ (Hh & Ht) _ _ _ _] E. apply Hne. rewrite <- (u32_between (sq_head r) (sq_tail r) Ht), E, Z.add_0_r. by rewrite u32_small. }
  split.
  - intros Hs. pose proof (Hz Hs) as Hn. destruct Hs as [H1 [H2 H2'] H3 H4 H5 H6]. constructor; try done; cbn [set_sq sq_head sq_tail sq_ring_entries].
    + split; [apply u32_range | done].
    + rewrite u32_less by done. lia.
  - exists [sq_entry r (sq_head r)], []. split; [done |]. split.
    + intros Hs. split; [| by rewrite app_nil_r]. unfold sq_pending at 1. rewrite queue_pop by (apply Hs || auto). done.
    + cbn [map app]. by rewrite Permutation_app_comm.
Qed.

(** a completion is posted, or lost *)
Lemma moves_post n r l c l' : 0 <= n -> cqe_user_data c :: l' ⊆+ l -> moves n r l (cq_post c r) l'.
Proof.
  intros Hn Hl. unfold cq_post. destruct (Z.ltb_spec (u32 (cq_tail r - cq_head r)) (zlen (cqes r))) as [Hr|Hr].
  2: { apply moves_fewer; [done |]. etransitivity; [apply submseteq_cons; reflexivity | exact Hl]. }
  assert (Hlen : zlen (<[slot_at (cq_ring_mask r) (cq_tail r):=c]> (cqes r)) = zlen (cqes r)) by (unfold zlen; by rewrite length_insert).
  assert (Hsmall : ring_shape r -> u32 (cq_tail r - cq_head r) < 2 ^ 32 - 1).
  { intros [_ _ _ (k & Hk & _ & Hz) _ _]. assert (2 ^ k <= 2 ^ 30) by (apply Z.pow_le_mono_r; lia). lia. }
  split; [by constructor |]. split.
  - intros Hs. pose proof (Hsmall Hs). destruct Hs as [H1 H2 H3 (k & Hk & Hm & Hz) [H5 H5'] H6].
    constructor; cbn [set_cq sq_ring_entries sq_ring_mask sq_array sqes sq_head sq_tail cq_head cq_tail cq_ring_mask cqes]; try done.
    + exists k. split_and!; [lia | lia | done | congruence].
    + split; [done | apply u32_range].
    + rewrite u32_more by done. lia.
  - exists [], [c]. split; [done |]. split; [| done]. intros Hs. split; [done |]. pose proof (Hsmall Hs).
    destruct Hs as [_ _ _ (k & Hk & Hm & Hz) [H5 H5'] _]. unfold cq_pending. cbn [set_cq cq_head cq_tail]. rewrite queue_push by done. f_equal.
    + apply queue_ext. intros i Hi. unfold cq_entry, slot_at. cbn [set_cq cq_ring_mask cqes]. rewrite !nth_lookup, Hm.
      rewrite list_lookup_insert_ne; [done |]. intros E. apply (slot_free (cq_head r) (cq_tail r) i k); try lia.
      pose proof (slot_range (u32 (cq_head r + i)) k). pose proof (slot_range (cq_tail r) k). lia.
    + f_equal. unfold cq_entry, slot_at. cbn [set_cq cq_ring_mask cqes]. rewrite nth_lookup, list_lookup_insert_eq; [done |].
      pose proof (slot_range (cq_tail r) k). rewrite Hm. unfold zlen in Hz. lia.
Qed.

(** other requests under way *)
Lemma moves_frame n r l r' l' k : moves n r l r' l' -> moves n r (k ++ l) r' (k ++ l').
Proof.
  intros (Hm & Hs & t & p & Hz & Hq & Hc). split; [done |]. split; [done |]. exists t, p. split_and!; [done | done |].
  rewrite (Permutation_app_swap_app (map cqe_user_data p)), (Permutation_app_swap_app (map sqe_user_data t)). by apply submseteq_skips_l.
Qed.
End Moves.

(** ** A scripted kernel *)
Record toyuring := {
  (** the descriptors that become ready at each wait, with their poll flags:
      one entry for each poll that completes *)
  tk_frames : list (list (Z * Z));
  tk_ready : list (Z * Z);
  (** the eventfd and its counter *)
  tk_eventfd : Z;
  tk_counter : nat;
  tk_flying : list io_uring_sqe;
  tk_fds : gset Z;
  tk_maps : gmap Z Z;
  (** the results of setup, mmap and eventfd, the errors of enter; success when used up *)
  tk_answers : list bool;
  tk_errors : list (option Z);
}.

Definition tk_set (ready : list (Z * Z)) (frames : list (list (Z * Z))) (flying : list io_uring_sqe) (u : toyuring) : toyuring :=
  {| tk_frames := frames; tk_ready := ready; tk_eventfd := tk_eventfd u; tk_counter := tk_counter u; tk_flying := flying;
     tk_fds := tk_fds u; tk_maps := tk_maps u; tk_answers := tk_answers u; tk_errors := tk_errors u |}.
Definition tk_own (fds : gset Z) (maps : gmap Z Z) (u : toyuring) : toyuring :=
  {| tk_frames := tk_frames u; tk_ready := tk_ready u; tk_eventfd := tk_eventfd u; tk_counter := tk_counter u; tk_flying := tk_flying u;
     tk_fds := fds; tk_maps := maps; tk_answers := tk_answers u; tk_errors := tk_errors u |}.
Definition tk_event (fd : Z) (n : nat) (u : toyuring) : toyuring :=
  {| tk_frames := tk_frames u; tk_ready := tk_ready u; tk_eventfd := fd; tk_counter := n; tk_flying := tk_flying u;
     tk_fds := tk_fds u; tk_maps := tk_maps u; tk_answers := tk_answers u; tk_errors := tk_errors u |}.
Definition tk_script (answers : list bool) (errors : list (option Z)) (u : toyuring) : toyuring :=
  {| tk_frames := tk_frames u; tk_ready := tk_ready u; tk_eventfd := tk_eventfd u; tk_counter := tk_counter u; tk_flying := tk_flying u;
     tk_fds := tk_fds u; tk_maps := tk_maps u; tk_answers := answers; tk_errors := errors |}.

(** the flags a poll of [fd] completes with, and the script that is left *)
Fixpoint tk_find (fd events : Z) (ready : list (Z * Z)) : option (Z * list (Z * Z)) :=
  match ready with
  | [] => None
  | (d, flags) :: rest =>
      let ev := Z.land flags (Z.lor events (Z.lor POLLERR POLLHUP)) in
      if (d =? fd) && negb (ev =? 0) then Some (ev, rest)
      else match tk_find fd events rest with Some (ev, rest) => Some (ev, (d, flags) :: rest) | None => None end
  end.
Definition tk_revents (u : toyuring) (ready : list (Z * Z)) (fd events : Z) : option (Z * list (Z * Z)) :=
  if (fd =? tk_eventfd u) && (0 <? tk_counter u)%nat then Some (POLLIN, ready) else tk_find fd events ready.

(** the polls whose descriptor is ready complete *)
Fixpoint tk_complete (u : toyuring) (l : list io_uring_sqe) (ready : list (Z * Z)) (r : ring) : list io_uring_sqe * list (Z * Z) * ring :=
  match l with
  | [] => ([], ready, r)
  | e :: rest =>
      match tk_revents u ready (sqe_fd e) (sqe_poll_events e) with
      | None => let '(rest, ready, r) := tk_complete u rest ready r in (e :: rest, ready, r)
      | Some (ev, ready) => tk_complete u rest ready (cq_post {| cqe_user_data := sqe_user_data e; cqe_res := ev |} r)
      end
  end.

Definition tk_run (r : ring) (u : toyuring) : ring * toyuring :=
  let '(fl, ready, r) := tk_complete u (tk_flying u) (tk_ready u) r in (r, tk_set ready (tk_frames u) fl u).

(** the first of the requests with this user_data is taken out *)
Fixpoint tk_take (c : cookie) (l : list io_uring_sqe) : option (list io_uring_sqe) :=
  match l with
  | [] => None
  | e :: rest => if bool_decide (sqe_user_data e = c) then Some rest
                 else match tk_take c rest with Some rest => Some (e :: rest) | None => None end
  end.

Definition tk_request (e : io_uring_sqe) (r : ring) (u : toyuring) : ring * toyuring :=
  if sqe_opcode e =? IORING_OP_POLL_ADD then tk_run r (tk_set (tk_ready u) (tk_frames u) (tk_flying u ++ [e]) u)
  else match tk_take (sqe_addr e) (tk_flying u) with
       | Some fl =>
           (cq_post {| cqe_user_data := sqe_user_data e; cqe_res := 0 |} (cq_post {| cqe_user_data := sqe_addr e; cqe_res := - ECANCELED |} r),
            tk_set (tk_ready u) (tk_frames u) fl u)
       | None => (cq_post {| cqe_user_data := sqe_user_data e; cqe_res := - ENOENT |} r, u)
       end.

Fixpoint tk_submit (n : nat) (r : ring) (u : toyuring) : ring * toyuring :=
  match n with
  | O => (r, u)
  | S n =>
      if sq_head r =? sq_tail r then (r, u)
      else
        let '(r, u) := tk_request (sq_entry r (sq_head r)) (set_sq (u32 (sq_head r + 1)) (sq_tail r) (sq_array r) (sqes r) r) u in
        tk_submit n r u
  end.

Definition tk_enter (to_submit min_complete : Z) (r : ring) (u : toyuring) : option Z * (ring * toyuring) :=
  match tk_errors u with
  | Some e :: rest => (Some e, (r, tk_script (tk_answers u) rest u))
  | errors =>
      let u := tk_script (tk_answers u) (tl errors) u in
      let '(r, u) := tk_submit (Z.to_nat to_submit) r u in
      if min_complete =? 0 then (None, tk_run r u)
      else match tk_frames u with
           | [] => (Some EIO, (r, u))
           | f :: rest => (None, tk_run r (tk_set (tk_ready u ++ f) rest (tk_flying u) u))
           end
  end.

Definition tk_answer (u : toyuring) : bool * toyuring :=
  match tk_answers u with
  | [] => (true, u)
  | a :: rest => (a, tk_script rest (tk_errors u) u)
  end.

Definition toy_params : io_uring_params :=
  {| up_sq_entries := 1024; up_cq_entries := 2048; up_features := IORING_FEAT_SINGLE_MMAP; up_sq_off_array := 64; up_cq_off_cqes := 64 |}.
Definition toy_ring : ring :=
  {| sq_head := 0; sq_tail := 0; sq_ring_mask := Z.ones 10; sq_ring_entries := 2 ^ 10; sq_array := zreplicate (2 ^ 10) 0;
     sqes := zreplicate (2 ^ 10) null_sqe; cq_head := 0; cq_tail := 0; cq_ring_mask := Z.ones 11; cqes := zreplicate (2 ^ 11) null_cqe |}.

Definition tk_setup (u : toyuring) : option (Z * io_uring_params) * toyuring :=
  let '(a, u) := tk_answer u in
  if a then let fd := fresh_above (elements (tk_fds u)) in
            (Some (fd, toy_params), tk_own ({[fd]} ∪ tk_fds u) (tk_maps u) (tk_set (tk_ready u) (tk_frames u) [] u))
  else (None, u).
Definition tk_mmap (n : Z) (u : toyuring) : option Z * toyuring :=
  let '(a, u) := tk_answer u in
  if a then let p := fresh_above (map fst (map_to_list (tk_maps u))) in (Some p, tk_own (tk_fds u) (<[p := n]> (tk_maps u)) u)
  else (None, u).
Definition tk_make_eventfd (u : toyuring) : option Z * toyuring :=
  let '(a, u) := tk_answer u in
  if a then let fd := fresh_above (elements (tk_fds u)) in (Some fd, tk_own ({[fd]} ∪ tk_fds u) (tk_maps u) (tk_event fd 0 u))
  else (None, u).

Lemma tk_complete_moves u l ready r l' ready' r' :
  tk_complete u l ready r = (l', ready', r') -> moves 0 r (map sqe_user_data l) r' (map sqe_user_data l').
Proof.
  revert ready r l'. induction l as [|e l IH]; intros ready r l'; cbn [tk_complete].
  { intros [= <- <- <-]. by apply moves_refl. }
  destruct (tk_revents u ready (sqe_fd e) (sqe_poll_events e)) as [[ev ready1]|].
  - intros E. eapply (moves_trans 0 0 0); [done | | by eapply IH]. by apply moves_post.
  - destruct (tk_complete u l ready r) as [[l1 ready1] r1] eqn:E. intros [= <- <- <-]. cbn [map].
    apply (moves_frame 0 _ _ _ _ [_]). by eapply IH.
Qed.

(** the kernel's steps leave descriptors and mappings alone *)
Definition tk_moves (n : Z) (r : ring) (u : toyuring) (r' : ring) (u' : toyuring) : Prop :=
  moves n r (map sqe_user_data (tk_flying u)) r' (map sqe_user_data (tk_flying u')) /\ tk_fds u' = tk_fds u /\ tk_maps u' = tk_maps u.

Lemma tk_moves_trans n n1 n2 r u r1 u1 r2 u2 : n1 + n2 <= n -> tk_moves n1 r u r1 u1 -> tk_moves n2 r1 u1 r2 u2 -> tk_moves n r u r2 u2.
Proof. intros Hn (? & ? & ?) (? & ? & ?). split_and!; [by eapply moves_trans | congruence | congruence]. Qed.

Lemma tk_run_moves r u : tk_moves 0 r u (tk_run r u).1 (tk_run r u).2.
Proof.
  unfold tk_run. destruct (tk_complete u (tk_flying u) (tk_ready u) r) as [[fl ready] r'] eqn:E. split_and!; [| done | done].
  by eapply tk_complete_moves.
Qed.

Lemma tk_take_perm c l l' : tk_take c l = Some l' -> map sqe_user_data l ≡ₚ c :: map sqe_user_data l'.
Proof.
  revert l'. induction l as [|e l IH]; intros l'; cbn [tk_take]; [done |]. case_bool_decide as He; [by intros [= <-]; subst |].
  destruct (tk_take c l) as [k|]; [| done]. intros [= <-]. cbn [map]. rewrite (IH k eq_refl). constructor.
Qed.

Lemma tk_request_moves e r u :
  moves 0 r (map sqe_user_data (tk_flying u) ++ [sqe_user_data e]) (tk_request e r u).1 (map sqe_user_data (tk_flying (tk_request e r u).2)) /\
  tk_fds (tk_request e r u).2 = tk_fds u /\ tk_maps (tk_request e r u).2 = tk_maps u.
Proof.
  unfold tk_request. destruct (_ =? _).
  - destruct (tk_run_moves r (tk_set (tk_ready u) (tk_frames u) (tk_flying u ++ [e]) u)) as (Hm & Hf & Hp). split_and!; [| done | done].
    cbn [tk_set tk_flying] in Hm. by rewrite map_app in Hm.
  - destruct (tk_take (sqe_addr e) (tk_flying u)) as [fl|] eqn:E; cbn [fst snd]; (split_and!; [| done | done]).
    + apply tk_take_perm in E. cbn [tk_set tk_flying]. eapply (moves_trans 0 0 0); [done | apply moves_post | apply moves_post]; [done | | done |].
      * cbn [cqe_user_data]. rewrite E. cbn [app]. apply submseteq_skip. reflexivity.
      * cbn [cqe_user_data]. rewrite Permutation_app_comm. reflexivity.
    + apply moves_post; [done |]. cbn [cqe_user_data]. rewrite Permutation_app_comm. reflexivity.
Qed.

Lemma tk_submit_moves n r u : tk_moves (Z.of_nat n) r u (tk_submit n r u).1 (tk_submit n r u).2.
Proof.
  revert r u. induction n as [|n IH]; intros r u; cbn [tk_submit]; [split_and!; [by apply moves_refl | done | done] |].
  destruct (Z.eqb_spec (sq_head r) (sq_tail r)) as [He|He]; [split_and!; [apply moves_refl; lia | done | done] |].
  pose proof (tk_request_moves (sq_entry r (sq_head r)) (set_sq (u32 (sq_head r + 1)) (sq_tail r) (sq_array r) (sqes r) r) u) as (Hm & Hf & Hp).
  destruct (tk_request _ _ _) as [r1 u1]. cbn [fst snd] in *. eapply (tk_moves_trans _ 1 (Z.of_nat n)); [lia | | apply IH].
  split_and!; [| done | done]. eapply (moves_trans 1 1 0); [lia | by apply moves_take | exact Hm].
Qed.

Lemma tk_enter_moves n min r u e r' u' : 0 <= n -> tk_enter n min r u = (e, (r', u')) -> tk_moves n r u r' u'.
Proof.
  intros Hn. unfold tk_enter. assert (Hgo : forall u0 : toyuring, tk_flying u0 = tk_flying u -> tk_fds u0 = tk_fds u -> tk_maps u0 = tk_maps u ->
    (let '(r, u) := tk_submit (Z.to_nat n) r u0 in
     if min =? 0 then (None, tk_run r u)
     else match tk_frames u with [] => (Some EIO, (r, u)) | f :: rest => (None, tk_run r (tk_set (tk_ready u ++ f) rest (tk_flying u) u)) end)
    = (e, (r', u')) -> tk_moves n r u r' u').
  { intros u0 E1 E2 E3. pose proof (tk_submit_moves (Z.to_nat n) r u0) as Hs. rewrite Z2Nat.id in Hs by lia.
    unfold tk_moves in Hs. rewrite E1, E2, E3 in Hs. destruct (tk_submit _ _ _) as [r1 u1]. cbn [fst snd] in Hs.
    destruct (_ =? _); [| destruct (tk_frames u1) as [|f rest]].
    - pose proof (tk_run_moves r1 u1) as Hr. destruct (tk_run r1 u1) as [r2 u2]. intros [= <- <- <-]. by eapply (tk_moves_trans n n 0); [lia | |].
    - by intros [= <- <- <-].
    - pose proof (tk_run_moves r1 (tk_set (tk_ready u1 ++ f) rest (tk_flying u1) u1)) as Hr. destruct (tk_run _ _) as [r2 u2]. intros [= <- <- <-].
      by eapply (tk_moves_trans n n 0); [lia | |]. }
  destruct (tk_errors u) as [|[err|] rest]; [by apply Hgo | | by apply Hgo].
  intros [= <- <- <-]. split_and!; [by apply moves_refl | done | done].
Qed.

Lemma tk_answer_kept u b u' : tk_answer u = (b, u') -> tk_fds u' = tk_fds u /\ tk_maps u' = tk_maps u /\ tk_flying u' = tk_flying u.
Proof. unfold tk_answer. destruct (tk_answers u); by intros [= <- <-]. Qed.

Lemma toy_ring_ok : ring_shape toy_ring /\ sq_pending toy_ring = [] /\ cq_pending toy_ring = [].
Proof.
  split; [| done]. constructor; try by vm_compute.
  - exists 10. split_and!; by vm_compute.
  - exists 11. split_and!; by vm_compute.
Qed.

(** descriptors and mappings as the kernel hands them out *)
#[local] Obligation Tactic := idtac.
#[global] Program Instance toyuring_uring : Uring toyuring := {|
  ur_setup := fun _ => tk_setup;
  ur_mmap := fun n _ _ => tk_mmap n;
  ur_munmap := fun p _ u => tk_own (tk_fds u) (delete p (tk_maps u)) u;
  ur_ring := fun _ _ => toy_ring;
  ur_run := fun _ => tk_run;
  ur_enter := fun _ n min _ => tk_enter n min;
  ur_eventfd := tk_make_eventfd;
  ur_read := fun _ u => match tk_counter u with O => (false, u) | S _ => (true, tk_event (tk_eventfd u) 0 u) end;
  ur_write := fun _ u => (true, tk_event (tk_eventfd u) (S (tk_counter u)) u);
  ur_close := fun fd u => tk_own (tk_fds u ∖ {[fd]}) (tk_maps u) u;
  ur_fds := tk_fds;
  ur_maps := tk_maps;
  ur_flying := fun _ u => map sqe_user_data (tk_flying u);
  ur_work := tk_counter;
|}.
Next Obligation.
  intros n u r u'. cbn beta. unfold tk_setup. destruct (tk_answer u) as [a u1] eqn:Ea. apply tk_answer_kept in Ea as (Ef & Em & _).
  pose proof (fresh_above_set (tk_fds u1)) as [Hp%Z.lt_le_incl Hn]. destruct a; intros [= <- <-]; cbn [tk_own tk_set tk_fds tk_maps tk_flying]; rewrite Ef in *; [| done].
  split_and!; done.
Qed.
Next Obligation.
  intros n ? ? u r u' Hn. cbn beta. unfold tk_mmap. destruct (tk_answer u) as [a u1] eqn:Ea. apply tk_answer_kept in Ea as (Ef & Em & Efl).
  destruct a; intros [= <- <-]; cbn [tk_own tk_fds tk_maps tk_flying]; rewrite ?Ef, ?Em, ?Efl; [| done].
  split_and!; [done | done | | done]. apply eq_None_not_Some. intros [m Hm]. apply elem_of_map_to_list in Hm.
  apply (list_elem_of_fmap_2 fst) in Hm. cbn [fst] in Hm. apply fresh_above_new in Hm. by apply Z.lt_irrefl in Hm.
Qed.
Next Obligation. done. Qed.
Next Obligation. intros ? ?. apply toy_ring_ok. Qed.
Next Obligation. intros ? r u. apply tk_run_moves. Qed.
Next Obligation. intros ? n m ? r u e r' u' Hn E. exact (tk_enter_moves _ _ _ _ _ _ _ Hn E). Qed.
Next Obligation.
  intros u r u'. cbn beta. unfold tk_make_eventfd. destruct (tk_answer u) as [a u1] eqn:Ea. apply tk_answer_kept in Ea as (Ef & Em & Efl).
  pose proof (fresh_above_set (tk_fds u1)) as [Hp%Z.lt_le_incl Hn]. destruct a; intros [= <- <-]; cbn [tk_own tk_event tk_fds tk_maps tk_flying]; rewrite ?Ef, ?Em, ?Efl in *; done.
Qed.
Next Obligation. intros ? u b u'. cbn beta. destruct (tk_counter u) as [|n] eqn:E; intros [= <- <-]; (split_and!; try done). intros _. cbn. lia. Qed.
Next Obligation. intros ? u b u'. cbn beta. by intros [= <- <-]. Qed.
Next Obligation. done. Qed.
