(* ===== verification/UringInv.v ===== *)
(** * UringInv: the io_uring backend keeps its queues, watches and resources

    [parts]: the blocks, descriptors and mappings of a backend, which its
    destruction gives back from any state that its creation goes through.
    [alive]: those of a backend that has been created, with queues of the
    shape the kernel works on, under every request of which is nothing, the
    wake-up watch or a watch of the list, and with one watch for a descriptor. *)

From stdpp Require Import strings.
From S2P Require Import Prelude Words Memory Net Connection BackendWorld Uring UringKernel.
#[global] Open Scope Z_scope.

(** ** Owned mappings *)
Definition maps_own (base : gmap Z Z) (l : list (Z * Z)) (x : gmap Z Z) : Prop :=
  NoDup l.*1 /\ (forall m, m ∈ l -> base !! m.1 = None) /\ x = list_to_map l ∪ base.

Lemma maps_own_nil base x : maps_own base [] x <-> x = base.
Proof.
  unfold maps_own. cbn. rewrite map_empty_union. split; [by intros (_ & _ & ?) |]. intros ->. split_and!; [constructor | by intros ? ?%elem_of_nil | done].
Qed.

Lemma maps_own_add base l x p n : maps_own base l x -> x !! p = None -> maps_own base ((p, n) :: l) (<[p:=n]> x).
Proof.
  intros (Hn & Hd & ->) [Hl Hb]%lookup_union_None. split_and!.
  - cbn. constructor; [| done]. by apply not_elem_of_list_to_map.
  - intros m [-> | Hin]%elem_of_cons; [done | by apply Hd].
  - cbn [list_to_map foldr]. by rewrite insert_union_l.
Qed.

Lemma maps_own_remove base l x p n : maps_own base ((p, n) :: l) x -> maps_own base l (delete p x) /\ x !! p = Some n.
Proof.
  intros (Hn & Hd & ->). cbn in Hn. apply list.NoDup_cons in Hn as [Hp Hn]. apply not_elem_of_list_to_map in Hp. split; [split_and!|].
  - done.
  - intros m Hin. apply Hd. by apply list_elem_of_further.
  - assert (Hb : base !! p = None) by (apply (Hd (p, n)), list_elem_of_here). cbn [list_to_map foldr fst snd].
    rewrite <- insert_union_l, delete_insert_id; [done |]. by apply lookup_union_None.
  - cbn. by rewrite <- insert_union_l, lookup_insert_eq.
Qed.

(** ** What a backend owns *)
Definition strip (w : wirecall_backend_watch) : wirecall_backend_watch := set_armed false w.
Definition own_fds (b : wirecall_backend) : list Z := filter (fun fd => 0 <= fd) [bk_wake_fd b; bk_ring_fd b].
Definition map_of (m : mapping) (n : Z) : list (Z * Z) := match m with MAt p => [(p, n)] | _ => [] end.
Definition own_maps `{Host} (b : wirecall_backend) : list (Z * Z) :=
  map_of (bk_sqes b) (sqes_size (bk_params b)) ++
  (if bool_decide (bk_cq_ptr b = bk_sq_ptr b) then [] else map_of (bk_cq_ptr b) (bk_cq_map_sz b)) ++
  map_of (bk_sq_ptr b) (bk_sq_map_sz b).

Section Resources.
Context `{HH : Host} `{HP : Heap W} `{UU : Uring U}.
Hypothesis H64 : size_bits = 64.
Variables (base : gset Z) (fds : gset Z) (maps : gmap Z Z).
Implicit Types (s : uworld W U) (b : wirecall_backend) (p : Z) (r : ring).

Record parts p b s : Prop := {
  pt_here : w_backend s = Some (p, b);
  pt_heap : owns base (p :: (bk_watches b).*1) (w_heap s);
  pt_fds : fds_own fds (own_fds b) (ur_fds (w_kernel s));
  pt_maps : maps_own maps (own_maps b) (ur_maps (w_kernel s));
}.

Definition restored s : Prop :=
  w_backend s = None /\ owns base [] (w_heap s) /\ ur_fds (w_kernel s) = fds /\ ur_maps (w_kernel s) = maps.

(** *** Destruction *)
Definition shut (hl : list Z) (fl : list Z) (ml : list (Z * Z)) o s : Prop :=
  w_backend s = o /\ owns base hl (w_heap s) /\ fds_own fds fl (ur_fds (w_kernel s)) /\ maps_own maps ml (ur_maps (w_kernel s)).

Lemma free_watches_spec l hl fl ml o s E :
  shut (l.*1 ++ hl) fl ml o s -> wp (free_watches l) (fun _ => shut hl fl ml o) E s.
Proof.
  revert s. induction l as [|[q w] l IH]; intros s (Ho & Hh & Hf & Hm); [by apply wp_ret |]. cbn [free_watches]. apply wp_bind.
  unfold wp at 1, on_wheap. apply IH. split_and!; [done | by apply (owns_free _ q) | done | done].
Qed.

Lemma close_fd_spec fd hl fl ml o s E :
  shut hl (filter (fun fd => 0 <= fd) [fd] ++ fl) ml o s -> wp (close_fd fd) (fun _ => shut hl fl ml o) E s.
Proof.
  intros (Ho & Hh & Hf & Hm). unfold close_fd. destruct (Z.leb_spec 0 fd) as [Hfd|Hfd].
  - apply wp_kernel. intros ? u [= _ <-]. rewrite list.filter_cons_True in Hf by done. cbn in Hf. apply fds_own_remove in Hf as [Hf Hin].
    destruct (law_close_fd fd _ Hin) as [E1 E2]. split_and!; [done | done | | ]; cbn [set_kernel w_kernel]; by rewrite ?E1, ?E2.
  - apply wp_ret. rewrite list.filter_cons_False in Hf by lia. done.
Qed.

Lemma unmap_spec m n hl fl ml o s E : shut hl fl (map_of m n ++ ml) o s -> wp (unmap m n) (fun _ => shut hl fl ml o) E s.
Proof.
  intros (Ho & Hh & Hf & Hm). destruct m as [| |q]; [by apply wp_ret | by apply wp_ret |]. cbn in Hm.
  apply maps_own_remove in Hm as [Hm Hl]. apply wp_kernel. intros ? u [= _ <-]. destruct (law_munmap q n _ Hl) as [E1 E2].
  split_and!; [done | done | | ]; cbn [set_kernel w_kernel]; by rewrite ?E1, ?E2.
Qed.

Lemma uring_destroy_spec p b s E : parts p b s -> wp wirecall_backend_destroy (fun _ s' => restored s') E s.
Proof.
  intros [Hb Hh Hf Hm]. unfold wirecall_backend_destroy. apply wp_bind. eapply wp_has_backend; [exact Hb |]. cbn [negb].
  apply wp_bind. eapply wp_get_bk; [exact Hb |].
  assert (Hs : shut ((bk_watches b).*1 ++ [p]) (filter (fun fd => 0 <= fd) [bk_wake_fd b] ++ filter (fun fd => 0 <= fd) [bk_ring_fd b] ++ [])
                 (own_maps b ++ []) (Some (p, b)) s).
  { split_and!; [done | by rewrite Permutation_app_comm | | by rewrite app_nil_r]. rewrite app_nil_r, <- list.filter_app. exact Hf. }
  apply wp_bind. eapply wp_mono; [eapply (free_watches_spec _ _ _ _ _ _ (fun _ => False)); exact Hs | | done]. intros ? s1 H1.
  apply wp_bind. eapply wp_mono; [eapply (close_fd_spec _ _ _ _ _ _ (fun _ => False)); exact H1 | | done]. intros ? s2 H2.
  unfold own_maps in H2. rewrite <- !app_assoc in H2.
  apply wp_bind. eapply wp_mono; [eapply (unmap_spec _ _ _ _ _ _ _ (fun _ => False)); exact H2 | | done]. intros ? s3 H3. apply wp_bind.
  eapply (wp_mono _ (fun _ => shut [p] (filter (fun fd => 0 <= fd) [bk_ring_fd b] ++ []) (map_of (bk_sq_ptr b) (bk_sq_map_sz b) ++ []) (Some (p, b)))).
  { case_bool_decide; [apply wp_ret; exact H3 | eapply (unmap_spec _ _ _ _ _ _ _ (fun _ => False)); exact H3]. }
  2: done. intros ? s4 H4.
  apply wp_bind. eapply wp_mono; [eapply (unmap_spec _ _ _ _ _ _ _ (fun _ => False)); exact H4 | | done]. intros ? s5 H5.
  apply wp_bind. eapply wp_mono; [eapply (close_fd_spec _ _ _ _ _ _ (fun _ => False)); exact H5 | | done]. intros ? s6 (Eb & Ho & Ef & Em).
  eapply wp_free_bk; [exact Eb |]. split_and!; [done | by apply (owns_free _ p) | by apply fds_own_nil | by apply maps_own_nil].
Qed.

(** *** Creation *)
Definition params_ok (q : io_uring_params) : Prop :=
  0 < up_sq_entries q < 2 ^ 31 /\ 0 < up_cq_entries q < 2 ^ 31 /\ 0 <= up_sq_off_array q < 2 ^ 31 /\ 0 <= up_cq_off_cqes q < 2 ^ 31.

Lemma sizes_pos q : params_ok q -> 0 < sq_size q /\ 0 < cq_size q /\ 0 < sqes_size q.
Proof.
  intros (H1 & H2 & H3 & H4). unfold sq_size, cq_size, sqes_size, sizeof_unsigned, sizeof_io_uring_cqe, sizeof_io_uring_sqe.
  rewrite !usize_small by (rewrite H64; lia). lia.
Qed.

(** what mmap and the descriptors leave of a backend *)
Record same_start b b' : Prop := {
  ss_fds : bk_ring_fd b' = bk_ring_fd b /\ bk_wake_fd b' = bk_wake_fd b /\ bk_params b' = bk_params b;
  ss_watches : bk_watches b' = bk_watches b /\ bk_wake_watch b' = bk_wake_watch b;
}.

Lemma same_start_trans b b1 b2 : same_start b b1 -> same_start b1 b2 -> same_start b b2.
Proof. intros [(? & ? & ?) [? ?]] [(? & ? & ?) [? ?]]. constructor; split_and!; congruence. Qed.

Lemma mmap_parts p b s n fd off o u b' :
  0 < n -> parts p b s -> ur_mmap n fd off (w_kernel s) = (o, u) -> same_start b b' ->
  (forall q, o = Some q -> ur_maps (w_kernel s) !! q = None -> own_maps b' = (q, n) :: own_maps b) -> (o = None -> own_maps b' = own_maps b) ->
  parts p b' (set_bk (Some (p, b')) (set_kernel u s)) /\ (forall d, ur_flying d u = ur_flying d (w_kernel s)).
Proof.
  intros Hn [Hb Hh Hf Hm] Eu [(E1 & E2 & _) [E3 _]] Hsome Hnone. destruct (law_mmap _ _ _ _ _ _ Hn Eu) as (Ef & Efl & Em).
  split; [| done]. constructor; [done | cbn; by rewrite E3 | cbn; unfold own_fds; by rewrite E1, E2, Ef | cbn]. destruct o as [q|].
  - destruct Em as [Hq Em]. rewrite (Hsome q), Em by done. by apply maps_own_add.
  - by rewrite Hnone, Em.
Qed.

(** the rings have just been mapped *)
Definition mapped_rings p b s' : Prop := exists b' r,
  parts p b' s' /\ same_start b b' /\ bk_ring b' = Some r /\ ring_shape r /\ sq_pending r = [] /\ cq_pending r = [] /\
  ur_flying (bk_ring_fd b) (w_kernel s') = [].

Lemma map_rings_spec p b s :
  parts p b s -> params_ok (bk_params b) -> bk_sqes b = MNull -> bk_cq_ptr b = MNull -> bk_sq_ptr b = MNull ->
  ur_flying (bk_ring_fd b) (w_kernel s) = [] ->
  wp map_rings (fun _ => mapped_rings p b) (fun s' => exists b', parts p b' s') s.
Proof.
  intros Hp Hq Hs Hc Hsq Hfl. destruct (sizes_pos _ Hq) as (Hp1 & Hp2 & Hp3). unfold map_rings.
  assert (Hnil : own_maps b = []) by (unfold own_maps; rewrite Hs, Hc, Hsq; cbn; by rewrite bool_decide_true).
  apply wp_bind. eapply wp_get_bk; [apply Hp |]. set (sz := if single_mmap _ && _ then _ else _).
  assert (Hsz : 0 < sz) by (unfold sz; destruct (_ && _); lia). apply wp_bind, wp_kernel. intros o u Eu.
  apply wp_bind. eapply wp_upd_bk; [apply Hp |].
  destruct (mmap_parts p b s sz _ _ o u (set_maps (mapped o) sz MNull (cq_size (bk_params b)) MNull b) Hsz Hp Eu) as [Hp' Hfl1].
  { done. } { intros q -> _. rewrite Hnil. unfold own_maps. cbn. by rewrite bool_decide_false. }
  { intros ->. rewrite Hnil. unfold own_maps. cbn. by rewrite bool_decide_false. }
  destruct o as [sq|]; [| apply wp_fail; by eexists]. set (s1 := set_bk _ _) in *. set (b1 := set_maps _ _ _ _ _ b) in *.
  assert (Hone : own_maps b1 = [(sq, sz)]) by (unfold own_maps; cbn; by rewrite bool_decide_false).
  apply wp_bind. set (cqb := fun cq => set_maps (MAt sq) sz (mapped cq) (cq_size (bk_params b)) MNull b).
  apply (wp_mono _ (fun cq s2 => w_backend s2 = Some (p, b1) /\ parts p (cqb cq) (set_bk (Some (p, cqb cq)) s2) /\
    ur_flying (bk_ring_fd b) (w_kernel s2) = []) _ (fun _ => False)).
  3: done.
  { apply wp_if; intros Hsingle.
    - apply wp_ret. split_and!; [apply Hp' | | cbn; by rewrite Hfl1]. destruct Hp' as [_ Hh Hf Hm]. constructor; [done | done | done |].
      cbn [set_bk w_kernel]. revert Hm. rewrite Hone. unfold own_maps. cbn. by rewrite bool_decide_true.
    - apply wp_kernel. intros o2 u2 Eu2.
      destruct (mmap_parts p b1 s1 _ _ _ o2 u2 (set_maps (MAt sq) sz (mapped o2) (cq_size (bk_params b)) MNull b) Hp2 Hp' Eu2) as [Hp2' Hfl2].
      { done. }
      { intros q -> Hqn. rewrite Hone. unfold own_maps. cbn. rewrite bool_decide_false; [done |]. intros [= ->].
        destruct (maps_own_remove _ _ _ _ _ (eq_ind _ (fun l => maps_own maps l _) (pt_maps _ _ _ Hp') _ Hone)) as [_ Hl]. congruence. }
      { intros ->. rewrite Hone. unfold own_maps. cbn. by rewrite bool_decide_false. }
      split_and!; [apply Hp' | exact Hp2' | cbn; by rewrite Hfl2, <- Hfl, <- Hfl1]. }
  intros cq s2 (Hb2 & Hp2' & Hfl2). apply wp_bind. eapply wp_upd_bk; [exact Hb2 |].
  change (set_maps (MAt sq) sz (mapped cq) (cq_size (bk_params b)) MNull b1) with (set_maps (MAt sq) sz (mapped cq) (cq_size (bk_params b)) MNull b).
  unfold cqb in Hp2'. destruct cq as [cq|]; [| apply wp_fail; by eexists]. cbn [mapped] in *. set (b2 := set_maps (MAt sq) sz (MAt cq) (cq_size (bk_params b)) MNull b) in *. set (s3 := set_bk _ s2) in *.
  apply wp_bind, wp_kernel. intros o3 u3 Eu3. apply wp_bind. eapply wp_upd_bk; [done |].
  change (set_maps (MAt sq) sz (MAt cq) (cq_size (bk_params b)) (mapped o3) b2) with (set_maps (MAt sq) sz (MAt cq) (cq_size (bk_params b)) (mapped o3) b).
  destruct (mmap_parts p b2 s3 _ _ _ o3 u3 (set_maps (MAt sq) sz (MAt cq) (cq_size (bk_params b)) (mapped o3) b) Hp3 Hp2' Eu3) as [Hp3' Hfl3].
  { done. } { by intros q ->. } { by intros ->. }
  destruct o3 as [q|]; [| apply wp_fail; by eexists]. set (b3 := set_maps _ _ _ _ (mapped (Some q)) b) in *.
  apply wp_bind, wp_kernel. intros r u4 [= <- <-]. eapply wp_upd_bk; [done |].
  destruct (law_ring (bk_ring_fd b) u3) as (Hr1 & Hr2 & Hr3). exists (set_ring (Some (ur_ring (bk_ring_fd b) u3)) b3), (ur_ring (bk_ring_fd b) u3).
  split_and!; try done. - destruct Hp3' as [_ Hh Hf Hm]. by constructor. - cbn. by rewrite Hfl3.
Qed.
End Resources.

(** ** The queues of a backend in use *)

(** the cell that [sq_array] names for a submission is its own *)
Definition own_cells (r : ring) : Prop := forall i, 0 <= i < u32 (sq_tail r - sq_head r) ->
  nth (slot_at (sq_ring_mask r) (u32 (sq_head r + i))) (sq_array r) 0 = Z.land (u32 (sq_head r + i)) (sq_ring_mask r).

(** the user_data of everything the kernel has, or has to report *)
Definition in_kernel (fl : list cookie) (r : ring) : list cookie :=
  fl ++ map sqe_user_data (sq_pending r) ++ map cqe_user_data (cq_pending r).

Lemma nth_insert_same {A} (l : list A) (n : nat) (x d : A) : (n < length l)%nat -> nth n (<[n:=x]> l) d = x.
Proof. intros Hn. by rewrite nth_lookup, list_lookup_insert_eq. Qed.
Lemma nth_insert_other {A} (l : list A) (n m : nat) (x d : A) : n <> m -> nth m (<[n:=x]> l) d = nth m l d.
Proof. intros Hn. by rewrite !nth_lookup, list_lookup_insert_ne. Qed.

Lemma sq_entry_own r i : own_cells r -> 0 <= i < u32 (sq_tail r - sq_head r) ->
  sq_entry r (u32 (sq_head r + i)) = nth (slot_at (sq_ring_mask r) (u32 (sq_head r + i))) (sqes r) null_sqe.
Proof. intros Hc Hi. unfold sq_entry. by rewrite Hc. Qed.

(** the entry that has just been pushed is in the cell [index] *)
Definition at_end (r : ring) (index : Z) : Prop :=
  0 < u32 (sq_tail r - sq_head r) /\ index = Z.land (u32 (sq_head r + (u32 (sq_tail r - sq_head r) - 1))) (sq_ring_mask r).

Lemma push_ring r (r' := set_sq (sq_head r) (u32 (sq_tail r + 1)) (<[slot_at (sq_ring_mask r) (sq_tail r):=Z.land (sq_tail r) (sq_ring_mask r)]> (sq_array r))
                          (<[slot_at (sq_ring_mask r) (sq_tail r):=null_sqe]> (sqes r)) r) :
  ring_shape r -> own_cells r -> u32 (sq_tail r - sq_head r) < sq_ring_entries r ->
  0 <= Z.land (sq_tail r) (sq_ring_mask r) < zlen (sqes r) /\ zlen (sqes r) = zlen (sq_array r) /\
  ring_shape r' /\ own_cells r' /\ at_end r' (Z.land (sq_tail r) (sq_ring_mask r)) /\
  sq_pending r' = sq_pending r ++ [null_sqe] /\ cq_pending r' = cq_pending r.
Proof.
  intros Hs Hc Hroom. destruct Hs as [(k & Hk & He & Hm & Ha & Hq) [Hh Ht] H3 H4 H5 H6].
  pose proof (slot_range (sq_tail r) k ltac:(lia)) as Hr. rewrite <- Hm in Hr.
  assert (H30 : 2 ^ k <= 2 ^ 30) by (apply Z.pow_le_mono_r; lia). pose proof (u32_range (sq_tail r - sq_head r)).
  assert (Hmore : u32 (sq_tail r' - sq_head r') = u32 (sq_tail r - sq_head r) + 1) by (unfold r'; cbn; apply u32_more; lia).
  assert (Hcell : own_cells r').
  { intros i Hi. rewrite Hmore in Hi. unfold r'. cbn [set_sq sq_head sq_array sq_ring_mask].
    destruct (Z.eq_dec i (u32 (sq_tail r - sq_head r))) as [->|Hne].
    - rewrite u32_between by done. apply nth_insert_same. unfold slot_at, zlen in *. lia.
    - rewrite nth_insert_other; [apply Hc; lia |]. unfold slot_at. rewrite Hm.
      pose proof (slot_free (sq_head r) (sq_tail r) i k Ht Hk ltac:(lia) ltac:(lia)).
      pose proof (slot_range (u32 (sq_head r + i)) k). pose proof (slot_range (sq_tail r) k). lia. }
  split; [lia |]. split; [congruence |]. split; [| split; [done |]]; [| split; [| split]].
  - constructor; try done; unfold r'; cbn [set_sq sq_head sq_tail sq_ring_entries sq_ring_mask sq_array sqes].
    + exists k. unfold zlen in *. rewrite !length_insert. done.
    + split; [done | apply u32_range].
    + rewrite u32_more by lia. lia.
  - unfold at_end. rewrite Hmore. replace (u32 (sq_tail r - sq_head r) + 1 - 1) with (u32 (sq_tail r - sq_head r)) by lia.
    unfold r'. cbn [set_sq sq_head sq_ring_mask]. rewrite u32_between by done. split; [lia | done].
  - unfold sq_pending at 1. change (sq_head r') with (sq_head r). change (sq_tail r') with (u32 (sq_tail r + 1)). rewrite queue_push by lia. f_equal.
    + apply queue_ext. intros i Hi. rewrite sq_entry_own by done. change (sq_head r) with (sq_head r') at 1. rewrite sq_entry_own by (done || lia).
      unfold r'. cbn [set_sq sq_head sqes sq_ring_mask]. apply nth_insert_other. unfold slot_at. rewrite Hm.
      pose proof (slot_free (sq_head r) (sq_tail r) i k Ht Hk ltac:(lia) ltac:(lia)).
      pose proof (slot_range (u32 (sq_head r + i)) k). pose proof (slot_range (sq_tail r) k). lia.
    + f_equal. rewrite <- (u32_between (sq_head r') (sq_tail r)) by done. change (sq_head r') with (sq_head r). change (sq_head r) with (sq_head r') at 1.
      rewrite sq_entry_own by (done || lia). change (sq_head r') with (sq_head r). rewrite u32_between by done. unfold r'. cbn [set_sq sqes sq_ring_mask].
      apply nth_insert_same. unfold slot_at, zlen in *. lia.
  - done.
Qed.

Lemma fill_ring r index e (r' := set_sq (sq_head r) (sq_tail r) (sq_array r) (<[Z.to_nat index:=e]> (sqes r)) r) :
  ring_shape r -> own_cells r -> at_end r index ->
  ring_shape r' /\ own_cells r' /\ cq_pending r' = cq_pending r /\ exists l x, sq_pending r = l ++ [x] /\ sq_pending r' = l ++ [e].
Proof.
  intros Hs Hc [Hn ->]. destruct Hs as [(k & Hk & He & Hm & Ha & Hq) [Hh Ht] H3 H4 H5 H6]. set (n := u32 (sq_tail r - sq_head r)) in *.
  pose proof (u32_range (sq_tail r - sq_head r)) as Hrange. fold n in Hrange.
  split; [| split; [done | split; [done |]]].
  - constructor; try done. exists k. unfold r', zlen in *. cbn [set_sq sqes sq_array sq_ring_entries sq_ring_mask]. rewrite length_insert. done.
  - set (t := u32 (sq_head r + (n - 1))). destruct (queue_split (sq_entry r) (sq_head r) (sq_tail r) (n - 1) Hh Ht ltac:(fold n; lia)) as [E1 E2].
    destruct (queue_split (sq_entry r') (sq_head r) (sq_tail r) (n - 1) Hh Ht ltac:(fold n; lia)) as [_ E3]. fold n in E1. fold t in E1, E2, E3.
    assert (Hlast : forall f : Z -> io_uring_sqe, queue f t (sq_tail r) = [f t]).
    { intros f. rewrite queue_pop; [| apply u32_range | lia]. f_equal. apply queue_nil. rewrite u32_less by lia. lia. }
    assert (Et : forall i, 0 <= i < n - 1 -> sq_entry r' (u32 (sq_head r + i)) = sq_entry r (u32 (sq_head r + i))).
    { intros i Hi. assert (Hcell : Z.land (u32 (sq_head r + i)) (sq_ring_mask r) <> Z.land t (sq_ring_mask r)).
      { rewrite Hm. apply (slot_free (sq_head r) t i k); [apply u32_range | lia | |]; unfold t; rewrite u32_there; lia. }
      change (sq_head r) with (sq_head r') at 1. rewrite (sq_entry_own r' i), (sq_entry_own r i) by (done || (unfold r'; cbn; fold n; lia)).
      apply nth_insert_other. unfold slot_at. pose proof (slot_range (u32 (sq_head r + i)) k). pose proof (slot_range t k). change (sq_ring_mask r') with (sq_ring_mask r). rewrite Hm in *. fold t. lia. }
    exists (queue (sq_entry r) (sq_head r) t), (sq_entry r t). unfold sq_pending. change (sq_head r') with (sq_head r). change (sq_tail r') with (sq_tail r).
    rewrite E2, E3, !Hlast. split; [done |]. f_equal.
    + apply queue_ext. intros i Hi. apply Et. unfold t in Hi. by rewrite u32_there in Hi by lia.
    + f_equal. unfold t. change (sq_head r) with (sq_head r') at 1. rewrite sq_entry_own by (done || (unfold r'; cbn; fold n; lia)).
      unfold r'. cbn [set_sq sq_head sqes sq_ring_mask]. fold t. apply nth_insert_same. pose proof (slot_range t k). unfold slot_at, zlen in *. rewrite Hm in *. lia.
Qed.

Lemma moves_in_kernel {U} (fl : U -> list cookie) n r u r' u' :
  ring_shape r -> kernel_moves fl n r u r' u' -> in_kernel (fl u') r' ⊆+ in_kernel (fl u) r.
Proof.
  intros Hs (_ & _ & t & p & _ & Hq & Hc). destruct (Hq Hs) as [E1 E2]. unfold in_kernel. rewrite E1, E2, !map_app.
  transitivity (map sqe_user_data (sq_pending r') ++ map cqe_user_data (cq_pending r) ++ (map cqe_user_data p ++ fl u')).
  { apply Permutation_submseteq. rewrite (Permutation_app_comm (fl u')), <- !app_assoc. done. }
  transitivity (map sqe_user_data (sq_pending r') ++ map cqe_user_data (cq_pending r) ++ (map sqe_user_data t ++ fl u)).
  { by do 2 apply submseteq_skips_l. }
  apply Permutation_submseteq. rewrite (Permutation_app_comm (fl u)), <- !app_assoc.
  rewrite (Permutation_app_swap_app (map cqe_user_data (cq_pending r)) (map sqe_user_data t)).
  apply Permutation_app_swap_app.
Qed.

Lemma moves_cells {U} (fl : U -> list cookie) n r u r' u' : ring_shape r -> kernel_moves fl n r u r' u' -> own_cells r -> own_cells r'.
Proof.
  intros Hs ([(E1 & E2 & _) [E3 E4] _] & Hs' & t & p & _ & Hq & _) Hc i Hi. destruct (Hq Hs) as [Eq _]. specialize (Hs' Hs).
  destruct Hs as [_ [_ Ht] _ _ _ _]. destruct Hs' as [_ [Hh' _] _ _ _ _].
  assert (Ee : sq_pending r' = queue (sq_entry r) (sq_head r') (sq_tail r)).
  { unfold sq_pending. rewrite E1. apply queue_ext. intros j _. unfold sq_entry. by rewrite E2, E3, E4. }
  rewrite Ee in Eq. destruct (queue_skip _ _ _ _ _ Hh' Ht Eq) as [Eh En]. rewrite E1, E2, E3 in *.
  pose proof (zlen_nonneg t). replace (u32 (sq_head r' + i)) with (u32 (sq_head r + (zlen t + i))).
  - apply Hc. lia.
  - rewrite Eh. unfold u32. rewrite Zplus_mod_idemp_l. f_equal. lia.
Qed.
