(* ===== verification/UringOps.v ===== *)
(** * UringOps: what the operations of the io_uring backend do

    Each operation keeps a backend [alive] and, but for registering and
    removing a descriptor, leaves its watches the [same] up to whether they are
    armed. *)

From stdpp Require Import strings.
From S2P Require Import Prelude Words Memory Net Connection BackendWorld Uring UringKernel UringInv.
#[global] Open Scope Z_scope.

(** ** Lists of watches *)
Definition bare (l : list (Z * wirecall_backend_watch)) : list (Z * wirecall_backend_watch) := map (fun x => (x.1, strip x.2)) l.
Definition in_list (q : Z) (l : list (Z * wirecall_backend_watch)) : option wirecall_backend_watch :=
  match find (fun x => x.1 =? q) l with Some x => Some x.2 | None => None end.

Lemma bare_keys l : (bare l).*1 = l.*1.
Proof. induction l as [|[q w] l IH]; cbn; [done | by f_equal]. Qed.

Lemma in_list_elem q l w : in_list q l = Some w -> (q, w) ∈ l.
Proof.
  unfold in_list. destruct (find _ l) as [[q' w']|] eqn:E; [| done]. intros [= ->]. apply find_some in E as [Hin Hq].
  apply list_elem_of_In. cbn in Hq. apply Z.eqb_eq in Hq. by subst.
Qed.

Lemma elem_in_list q l : q ∈ l.*1 -> exists w, in_list q l = Some w.
Proof.
  intros Hin. unfold in_list. destruct (find _ l) as [[q' w']|] eqn:E; [by eexists |]. apply list_elem_of_fmap in Hin as ([q' w] & -> & Hin).
  apply list_elem_of_In in Hin. eapply find_none in E; [| exact Hin]. cbn in E. by rewrite Z.eqb_refl in E.
Qed.

Lemma in_list_bare q l : in_list q (bare l) = match in_list q l with Some w => Some (strip w) | None => None end.
Proof.
  unfold in_list, bare. induction l as [|[q' w] l IH]; cbn [map find fst snd]; [done |]. by destruct (q' =? q).
Qed.

Lemma put_in_keys q w l : (put_in q w l).*1 = l.*1.
Proof.
  induction l as [|[q' w'] l IH]; cbn; [done |]. f_equal; [| exact IH]. destruct (Z.eqb_spec q' q); by subst.
Qed.

Lemma put_in_other q w l : q ∉ l.*1 -> put_in q w l = l.
Proof.
  induction l as [|[q' w'] l IH]; cbn; [done |]. intros [Hq Hl]%not_elem_of_cons. destruct (Z.eqb_spec q' q); [by subst |]. f_equal. by apply IH.
Qed.

Lemma put_in_map {A} (f : Z * wirecall_backend_watch -> A) q w w0 l :
  NoDup l.*1 -> in_list q l = Some w0 -> f (q, w) = f (q, w0) -> map f (put_in q w l) = map f l.
Proof.
  induction l as [|[q' w'] l IH]; [done |]. cbn [fmap list_fmap fst]. intros [Hq Hn]%list.NoDup_cons. unfold in_list. cbn [find fst put_in map].
  destruct (Z.eqb_spec q' q) as [->|Hne]; cbn [snd].
  - intros [= ->] E. rewrite E. f_equal. fold (put_in q w l). by rewrite put_in_other.
  - intros Hin E. f_equal. by apply IH.
Qed.

Lemma put_in_find q w l : q ∈ l.*1 -> in_list q (put_in q w l) = Some w.
Proof.
  induction l as [|[q' w'] l IH]; [by intros ?%elem_of_nil |]. unfold in_list, put_in. cbn [map find fst].
  destruct (Z.eqb_spec q' q) as [->|Hne]; cbn [find fst]; [by rewrite Z.eqb_refl |].
  intros [->|Hin]%elem_of_cons; [done |]. destruct (Z.eqb_spec q' q); [done |]. by apply IH.
Qed.

Lemma Forall_sub {A} (P : A -> Prop) (l k : list A) : l ⊆+ k -> Forall P k -> Forall P l.
Proof. intros Hs Hk. apply list.Forall_forall. intros x Hx. eapply list.Forall_forall in Hk; [exact Hk |]. by eapply elem_of_submseteq. Qed.

(** what a client has asked for: interests and user word of a descriptor *)
Definition registered (b : wirecall_backend) (fd : Z) : option (Z * watch_user) :=
  match find (fun x => wt_fd x.2 =? fd) (bk_watches b) with
  | Some x => if wt_active x.2 then Some (wt_events x.2, wt_user x.2) else None
  | None => None
  end.

Definition fd_of (x : Z * wirecall_backend_watch) : Z := wt_fd x.2.

Lemma find_fd_bare fd l : find (fun x => wt_fd x.2 =? fd) (bare l) = match find (fun x => wt_fd x.2 =? fd) l with Some x => Some (x.1, strip x.2) | None => None end.
Proof. induction l as [|[q w] l IH]; cbn [bare map find fst snd]; [done |]. cbn [strip set_armed wt_fd]. by destruct (wt_fd w =? fd). Qed.

Lemma find_fd_elem q w l : NoDup (map fd_of l) -> (q, w) ∈ l -> find (fun x => wt_fd x.2 =? wt_fd w) l = Some (q, w).
Proof.
  induction l as [|[q' w'] l IH]; [by intros _ ?%elem_of_nil |]. cbn [map find fst snd]. intros [Hf Hn]%list.NoDup_cons [[= -> ->]|Hin]%elem_of_cons.
  - by rewrite Z.eqb_refl.
  - destruct (Z.eqb_spec (wt_fd w') (wt_fd w)) as [E|_]; [| by apply IH]. exfalso. apply Hf. unfold fd_of at 1. cbn. rewrite E.
    apply list_elem_of_fmap. by exists (q, w).
Qed.

Lemma find_fd_put fd q w w0 l : NoDup l.*1 -> NoDup (map fd_of l) -> in_list q l = Some w0 -> wt_fd w = wt_fd w0 ->
  find (fun x => wt_fd x.2 =? fd) (put_in q w l) = if fd =? wt_fd w then Some (q, w) else find (fun x => wt_fd x.2 =? fd) l.
Proof.
  intros Hk Hf Hin E. destruct (Z.eqb_spec fd (wt_fd w)) as [->|Hne].
  - apply (find_fd_elem q w).
    + by rewrite (put_in_map fd_of q w w0).
    + apply in_list_elem, put_in_find. apply in_list_elem in Hin. apply list_elem_of_fmap. by exists (q, w0).
  - clear Hf. revert Hk Hin. unfold in_list. induction l as [|[q' w'] l IH]; [done |]. cbn [fmap list_fmap fst].
    intros [Hq Hn]%list.NoDup_cons. cbn [put_in map find fst snd]. destruct (Z.eqb_spec q' q) as [->|Hqq]; cbn [fst snd find].
    + intros [= ->]. fold (put_in q w l). rewrite put_in_other by done.
      destruct (Z.eqb_spec (wt_fd w) fd); [congruence |]. by destruct (Z.eqb_spec (wt_fd w0) fd); [congruence |].
    + intros Hin. destruct (wt_fd w' =? fd); [done |]. by apply IH.
Qed.

Section Ops.
Context `{HH : Host} `{HP : Heap W} `{UU : Uring U}.
Hypothesis H64 : size_bits = 64.
Variables (base : gset Z) (fds : gset Z) (maps : gmap Z Z).
Implicit Types (s : uworld W U) (b : wirecall_backend) (p q : Z) (r : ring) (c : cookie) (w : wirecall_backend_watch).

(** a request names nothing, the wake-up watch, or a watch of the list *)
Definition known (ptrs : list Z) c : Prop := match c with CWatch q => q ∈ ptrs | _ => True end.

Record alive p b s : Prop := {
  al_parts : parts base fds maps p b s;
  al_ring : exists r, bk_ring b = Some r /\ ring_shape r /\ own_cells r /\
    Forall (known (bk_watches b).*1) (in_kernel (ur_flying (bk_ring_fd b) (w_kernel s)) r);
  al_unique : NoDup (map fd_of (bk_watches b));
}.

(** the same backend, but for what is armed and for what the kernel has done *)
Record same b b' : Prop := {
  sb_start : same_start (set_watches [] watch_zero b) (set_watches [] watch_zero b');
  sb_maps : bk_sqes b' = bk_sqes b /\ bk_sq_ptr b' = bk_sq_ptr b /\ bk_sq_map_sz b' = bk_sq_map_sz b /\
            bk_cq_ptr b' = bk_cq_ptr b /\ bk_cq_map_sz b' = bk_cq_map_sz b;
  sb_watches : bare (bk_watches b') = bare (bk_watches b);
  sb_wake : strip (bk_wake_watch b') = strip (bk_wake_watch b);
}.

(** completions that are there stay there *)
Definition queued b b' : Prop := forall r, bk_ring b = Some r ->
  exists r', bk_ring b' = Some r' /\ cq_head r' = cq_head r /\ cq_ring_mask r' = cq_ring_mask r /\ cq_pending r `prefix_of` cq_pending r'.

Definition kept p b s' : Prop := exists b', alive p b' s' /\ same b b' /\ queued b b'.

Lemma uring_same_refl b : same b b.
Proof. by constructor. Qed.
Lemma uring_same_trans b b1 b2 : same b b1 -> same b1 b2 -> same b b2.
Proof.
  intros [A1 (? & ? & ? & ? & ?) ? ?] [A2 (? & ? & ? & ? & ?) ? ?]. constructor; [by eapply same_start_trans | split_and!; congruence | congruence | congruence].
Qed.
Lemma queued_refl b : queued b b.
Proof. intros r Hr. by exists r. Qed.
Lemma queued_trans b b1 b2 : queued b b1 -> queued b1 b2 -> queued b b2.
Proof.
  intros H1 H2 r Hr. destruct (H1 r Hr) as (r1 & Hr1 & E1 & M1 & P1). destruct (H2 r1 Hr1) as (r2 & Hr2 & E2 & M2 & P2).
  exists r2. split_and!; [done | congruence | congruence | by etransitivity].
Qed.

Lemma kept_trans p b b1 s' : same b b1 -> queued b b1 -> kept p b1 s' -> kept p b s'.
Proof. intros Hs Hq (b2 & Ha & Hs2 & Hq2). exists b2. split_and!; [done | by eapply uring_same_trans | by eapply queued_trans]. Qed.

Lemma kept_here p b s : alive p b s -> kept p b s.
Proof. intros Ha. exists b. split_and!; [done | apply uring_same_refl | apply queued_refl]. Qed.

Lemma same_fd b b' : same b b' -> bk_ring_fd b' = bk_ring_fd b /\ bk_wake_fd b' = bk_wake_fd b.
Proof. by intros [[(? & ? & _) _] _ _ _]. Qed.

Lemma same_keys b b' : same b b' -> (bk_watches b').*1 = (bk_watches b).*1.
Proof. intros [_ _ E _]. by rewrite <- bare_keys, E, bare_keys. Qed.

Lemma same_fds b b' : same b b' -> map fd_of (bk_watches b') = map fd_of (bk_watches b).
Proof.
  intros [_ _ E _]. assert (Hb : forall l, map fd_of (bare l) = map fd_of l) by (intros l; unfold bare; by rewrite map_map).
  by rewrite <- Hb, E, Hb.
Qed.

Lemma same_registered b b' fd : same b b' -> registered b' fd = registered b fd.
Proof.
  intros [_ _ E _]. unfold registered. pose proof (find_fd_bare fd (bk_watches b)) as H1. pose proof (find_fd_bare fd (bk_watches b')) as H2.
  rewrite E, H1 in H2. destruct (find _ (bk_watches b)) as [[q w]|], (find _ (bk_watches b')) as [[q' w']|]; try done.
  cbn [fst snd] in *. injection H2 as _ Hw. destruct w, w'. unfold strip, set_armed in Hw. by simplify_eq/=.
Qed.

(** *** The ring *)
Lemma alive_parts p b s b' u : alive p b s -> same b b' ->
  ur_fds u = ur_fds (w_kernel s) -> ur_maps u = ur_maps (w_kernel s) ->
  parts base fds maps p b' (set_bk (Some (p, b')) (set_kernel u s)).
Proof.
  intros [[Hb Hh Hf Hm] _ _] Hs Ef Em. pose proof (same_keys _ _ Hs) as Ek. destruct Hs as [[(E1 & E2 & E3) _] (M1 & M2 & M3 & M4 & M5) _ _]. cbn in E1, E2, E3.
  constructor; cbn [set_bk set_kernel w_backend w_heap w_kernel].
  - done.
  - by rewrite Ek.
  - unfold own_fds. by rewrite E1, E2, Ef.
  - unfold own_maps. by rewrite E3, M1, M2, M3, M4, M5, Em.
Qed.

Lemma alive_moves p b s r n r' u' : alive p b s -> bk_ring b = Some r ->
  kernel_moves (ur_flying (bk_ring_fd b)) n r (w_kernel s) r' u' -> ur_fds u' = ur_fds (w_kernel s) -> ur_maps u' = ur_maps (w_kernel s) ->
  alive p (set_ring (Some r') b) (set_bk (Some (p, set_ring (Some r') b)) (set_kernel u' s)) /\ same b (set_ring (Some r') b) /\ queued b (set_ring (Some r') b).
Proof.
  intros Ha Hr Hk Ef Em. assert (Hsame : same b (set_ring (Some r') b)) by by constructor. split; [| split; [done |]].
  - destruct (al_ring _ _ _ Ha) as (r0 & Hr0 & Hs & Hc & Hn). simplify_eq. constructor; [by eapply alive_parts | | apply Ha].
    exists r'. split_and!; [done | by apply Hk | by eapply moves_cells |]. cbn [set_bk set_kernel w_kernel set_ring bk_ring_fd bk_watches].
    eapply Forall_sub; [by eapply moves_in_kernel | exact Hn].
  - destruct (al_ring _ _ _ Ha) as (r0 & Hr0 & Hs & _). simplify_eq. intros r1 Hr1. simplify_eq. exists r'.
    destruct Hk as ([_ _ (E1 & E2 & _)] & _ & t & po & _ & Hq & _). destruct (Hq Hs) as [_ E]. split_and!; [done | done | done |]. rewrite E. by apply prefix_app_r.
Qed.

Lemma wp_get_ring p b s r (Q : ring -> uworld W U -> Prop) E : w_backend s = Some (p, b) -> bk_ring b = Some r -> Q r s -> wp get_ring Q E s.
Proof. intros Hb Hr HQ. unfold get_ring. apply wp_bind. eapply wp_get_bk; [done |]. by rewrite Hr. Qed.

Lemma put_ring_id p b s u r' : w_backend s = Some (p, b) ->
  (put_ring r') (set_kernel u s) = (Ok tt, set_bk (Some (p, set_ring (Some r') b)) (set_kernel u s)).
Proof. intros Hb. unfold put_ring, upd_bk. cbn [set_kernel w_backend]. by rewrite Hb. Qed.

Lemma set_kernel_id s : set_kernel (w_kernel s) s = s.
Proof. by destruct s. Qed.

Lemma kernel_runs_spec p b s E : alive p b s -> wp kernel_runs (fun _ => kept p b) E s.
Proof.
  intros Ha. pose proof (pt_here _ _ _ _ _ _ (al_parts _ _ _ Ha)) as Hb. destruct (al_ring _ _ _ Ha) as (r & Hr & _). unfold kernel_runs.
  apply wp_bind. eapply wp_get_bk; [done |]. apply wp_bind. eapply wp_get_ring; [done | done |]. apply wp_bind, wp_kernel. intros x u Eu.
  destruct (law_run (bk_ring_fd b) r (w_kernel s)) as (Hk & Hf & Hm). destruct (ur_run _ _ _) as [r' u']. injection Eu as <- <-. cbn [fst snd] in *.
  unfold wp. rewrite (put_ring_id p b) by done. eexists. by eapply alive_moves.
Qed.

Lemma enter_spec p b s n m f E : 0 <= n -> alive p b s -> wp (uring_enter n m f) (fun _ => kept p b) E s.
Proof.
  intros Hn Ha. pose proof (pt_here _ _ _ _ _ _ (al_parts _ _ _ Ha)) as Hb. destruct (al_ring _ _ _ Ha) as (r & Hr & _). unfold uring_enter.
  apply wp_bind. eapply wp_get_bk; [done |]. apply wp_bind. eapply wp_get_ring; [done | done |]. apply wp_bind, wp_kernel. intros x u Eu.
  destruct (ur_enter _ _ _ _ _ _) as [e [r' u']] eqn:Ee. injection Eu as <- <-. destruct (law_enter _ _ _ _ _ _ _ _ _ Hn Ee) as (Hk & Hf & Hm).
  apply wp_bind. unfold wp at 1. rewrite (put_ring_id p b) by done. apply wp_ret. eexists. by eapply alive_moves.
Qed.

Lemma load_sq_spec p b s E : alive p b s ->
  wp load_sq (fun r s' => exists b', alive p b' s' /\ same b b' /\ queued b b' /\ bk_ring b' = Some r) E s.
Proof.
  intros Ha. unfold load_sq. apply wp_bind. eapply wp_mono; [by apply (kernel_runs_spec p b s (fun _ => False)) | | done].
  intros ? s1 (b1 & Ha1 & Hs1 & Hq1). destruct (al_ring _ _ _ Ha1) as (r & Hr & _). eapply wp_get_ring; [apply Ha1 | done |]. by exists b1.
Qed.

(** the process writes the submission queue *)
Lemma alive_write p b s r r' : alive p b s -> bk_ring b = Some r -> ring_shape r' -> own_cells r' ->
  cq_pending r' = cq_pending r -> cq_head r' = cq_head r -> cq_ring_mask r' = cq_ring_mask r ->
  Forall (known (bk_watches b).*1) (map sqe_user_data (sq_pending r')) ->
  alive p (set_ring (Some r') b) (set_bk (Some (p, set_ring (Some r') b)) s) /\ same b (set_ring (Some r') b) /\ queued b (set_ring (Some r') b).
Proof.
  intros Ha Hr Hs Hc Ec Eh Em Hf. assert (Hsame : same b (set_ring (Some r') b)) by by constructor. split; [| split; [done |]].
  - destruct (al_ring _ _ _ Ha) as (r0 & Hr0 & _ & _ & Hn). simplify_eq. constructor; [by apply (alive_parts p b s (set_ring (Some r') b) (w_kernel s)) | | apply Ha].
    exists r'. split_and!; [done | done | done |]. unfold in_kernel in *. rewrite !Forall_app in *. cbn [set_ring bk_ring_fd bk_watches set_bk w_kernel].
    rewrite Ec. naive_solver.
  - intros r1 Hr1. simplify_eq. exists r'. by rewrite Ec.
Qed.

(** an entry is pushed; the ring was not full, so it has room for it *)
Definition pushed p b (i : Z) s' : Prop := exists b' r, alive p b' s' /\ same b b' /\ queued b b' /\ bk_ring b' = Some r /\ at_end r i.

Lemma push_room p b s r E : alive p b s -> bk_ring b = Some r -> u32 (sq_tail r - sq_head r) < sq_ring_entries r ->
  wp (let index := Z.land (sq_tail r) (sq_ring_mask r) in
      if (index <? zlen (sqes r)) && (index <? zlen (sq_array r)) then
        put_ring (set_sq (sq_head r) (u32 (sq_tail r + 1)) (<[Z.to_nat index := index]> (sq_array r)) (<[Z.to_nat index := null_sqe]> (sqes r)) r) ;;;
        ret index
      else ub) (pushed p b) E s.
Proof.
  intros Ha Hr Hroom. destruct (al_ring _ _ _ Ha) as (r0 & Hr0 & Hs & Hc & Hn). assert (r0 = r) as -> by congruence. clear Hr0.
  destruct (push_ring r Hs Hc Hroom) as (Hi & Hl & Hs' & Hc' & Hend & Eq & Ec). cbv zeta. rewrite <- Hl.
  destruct (Z.ltb_spec (Z.land (sq_tail r) (sq_ring_mask r)) (zlen (sqes r))); [| lia]. cbn [andb].
  apply wp_bind. unfold wp at 1. rewrite <- (set_kernel_id s), (put_ring_id p b) by apply Ha. rewrite set_kernel_id. apply wp_ret.
  destruct (alive_write p b s r _ Ha Hr Hs' Hc' Ec) as (Ha' & Hsame & Hq).
  - done.
  - done.
  - rewrite Eq, map_app, Forall_app. split; [| repeat constructor]. unfold in_kernel in Hn. rewrite !Forall_app in Hn. apply Hn.
  - do 2 eexists. split_and!; [exact Ha' | exact Hsame | exact Hq | done | exact Hend].
Qed.

Lemma sqe_push_spec p b s : alive p b s -> wp sqe_push (pushed p b) (kept p b) s.
Proof.
  intros Ha. unfold sqe_push. apply wp_bind. eapply wp_mono; [by apply (load_sq_spec p b s (fun _ => False)) | | done].
  intros r s1 (b1 & Ha1 & Hs1 & Hq1 & Hr1). apply wp_bind.
  apply (wp_mono _ (fun r s2 => exists b2, alive p b2 s2 /\ same b b2 /\ queued b b2 /\ bk_ring b2 = Some r /\ u32 (sq_tail r - sq_head r) < sq_ring_entries r) _ (kept p b)).
  - apply wp_if; intros Hfull.
    + apply wp_bind. eapply wp_mono; [apply (enter_spec p b1 s1 0 0 _ (fun _ => False)); [done | exact Ha1] | | done].
      intros e s2 (b2 & Ha2 & Hs2 & Hq2). pose proof (uring_same_trans _ _ _ Hs1 Hs2) as Hs12. pose proof (queued_trans _ _ _ Hq1 Hq2) as Hq12.
      apply wp_if; intros _; [apply wp_fail; by exists b2 |].
      apply wp_bind. eapply wp_mono; [by apply (load_sq_spec p b2 s2 (fun _ => False)) | | done].
      intros r3 s3 (b3 & Ha3 & Hs3 & Hq3 & Hr3). pose proof (uring_same_trans _ _ _ Hs12 Hs3). pose proof (queued_trans _ _ _ Hq12 Hq3).
      apply wp_if; intros Hfull3; [apply wp_fail; by exists b3 |]. apply wp_ret. exists b3. split_and!; try done. lia.
    + apply wp_ret. exists b1. split_and!; try done. lia.
  - intros r2 s2 (b2 & Ha2 & Hs2 & Hq2 & Hr2 & Hroom). eapply wp_mono; [by apply (push_room p b2 s2 r2 (fun _ => False)) | | done].
    intros i s3 (b3 & r3 & Ha3 & Hs3 & Hq3 & Hr3 & Hend). exists b3, r3. split_and!; try done; [by eapply uring_same_trans | by eapply queued_trans].
  - done.
Qed.

Lemma set_sqe_spec p b s r i e E : alive p b s -> bk_ring b = Some r -> at_end r i -> known (bk_watches b).*1 (sqe_user_data e) ->
  wp (set_sqe i e) (fun _ => kept p b) E s.
Proof.
  intros Ha Hr Hend He. destruct (al_ring _ _ _ Ha) as (r0 & Hr0 & Hs & Hc & Hn). assert (r0 = r) as -> by congruence. clear Hr0. unfold set_sqe.
  apply wp_bind. eapply wp_get_ring; [apply Ha | done |]. destruct (fill_ring r i e Hs Hc Hend) as (Hs' & Hc' & Ec & l & x & E1 & E2).
  unfold wp. rewrite <- (set_kernel_id s), (put_ring_id p b) by apply Ha. rewrite set_kernel_id.
  eexists. apply (alive_write p b s r); try done. rewrite E2. unfold in_kernel in Hn. rewrite E1, !map_app, !Forall_app in *.
  split; [apply Hn | by repeat constructor].
Qed.

Lemma uring_submit_spec p b s : alive p b s -> wp submit_pending (fun _ => kept p b) (kept p b) s.
Proof.
  intros Ha. unfold submit_pending. apply wp_bind. eapply wp_mono; [by apply (load_sq_spec p b s (fun _ => False)) | | done].
  intros r s1 (b1 & Ha1 & Hs1 & Hq1 & Hr1). cbv zeta. apply wp_if; intros _; [apply wp_ret; by exists b1 |].
  apply wp_bind. eapply wp_mono; [apply (enter_spec p b1 s1 _ _ _ (fun _ => False)); [apply u32_range | done] | | done].
  intros e s2 Hk. apply (kept_trans p b b1 s2 Hs1 Hq1) in Hk. destruct e; [by apply wp_fail | by apply wp_ret].
Qed.

(** *** Watches *)
Definition watch_of b c : option wirecall_backend_watch :=
  match c with CNull => None | CWake => Some (bk_wake_watch b) | CWatch q => in_list q (bk_watches b) end.
Definition put_of b c w : wirecall_backend :=
  match c with
  | CNull => b
  | CWake => set_watches (bk_watches b) w b
  | CWatch q => set_watches (put_in q w (bk_watches b)) (bk_wake_watch b) b
  end.

Lemma watch_known b c w : watch_of b c = Some w -> known (bk_watches b).*1 c.
Proof. destruct c as [| |q]; cbn; [done | done |]. intros Hin%in_list_elem. apply list_elem_of_fmap. by exists (q, w). Qed.

Lemma known_watch b c : known (bk_watches b).*1 c -> c <> CNull -> exists w, watch_of b c = Some w.
Proof. destruct c as [| |q]; cbn; [done | by eexists |]. intros Hin _. by apply elem_in_list. Qed.

Lemma watch_same b b' c w : same b b' -> watch_of b c = Some w -> exists w', watch_of b' c = Some w' /\ strip w' = strip w.
Proof.
  intros [_ _ Eb Ew]. destruct c as [| |q]; cbn; [done | |].
  - intros [= <-]. by eexists.
  - intros Hin. pose proof (in_list_bare q (bk_watches b)) as H1. pose proof (in_list_bare q (bk_watches b')) as H2.
    rewrite Eb, H1, Hin in H2. destruct (in_list q (bk_watches b')) as [w'|]; [| done]. apply (inj Some) in H2. by exists w'.
Qed.

Lemma wp_get_watch p b s c w (Q : wirecall_backend_watch -> uworld W U -> Prop) E :
  w_backend s = Some (p, b) -> watch_of b c = Some w -> Q w s -> wp (get_watch c) Q E s.
Proof.
  intros Hb Hw HQ. unfold get_watch. apply wp_bind. eapply wp_get_bk; [done |]. destruct c as [| |q]; cbn in Hw; [done | by injection Hw as <- |].
  unfold in_list in Hw. destruct (find _ _) as [x|]; [| done]. injection Hw as <-. by apply wp_ret.
Qed.

Lemma wp_put_watch p b s c w w0 (Q : unit -> uworld W U -> Prop) E :
  w_backend s = Some (p, b) -> watch_of b c = Some w0 -> Q tt (set_bk (Some (p, put_of b c w)) s) -> wp (put_watch c w) Q E s.
Proof.
  intros Hb Hw HQ. unfold put_watch. apply wp_bind. eapply wp_get_watch; [done | done |].
  destruct c as [| |q]; [done | eapply wp_upd_bk; [exact Hb | exact HQ] | eapply wp_upd_bk; [exact Hb | exact HQ]].
Qed.

(** a watch is changed, but not its descriptor *)
Lemma alive_put p b s c w w0 : alive p b s -> watch_of b c = Some w0 -> wt_fd w = wt_fd w0 ->
  alive p (put_of b c w) (set_bk (Some (p, put_of b c w)) s) /\ queued b (put_of b c w).
Proof.
  intros [[Hb Hh Hf Hm] Hr Hu] Hw Ew. destruct c as [| |q]; cbn in Hw; [done | |]; cbn [put_of].
  - split; [constructor; [by constructor | done | done] |]. intros r Hr1. by exists r.
  - assert (Hn : NoDup (bk_watches b).*1) by (destruct Hh as (_ & Hnd & _); by apply list.NoDup_cons in Hnd as [_ ?]).
    split; [constructor; [constructor; [done | | done | done] | |] |].
    + cbn [set_watches bk_watches set_bk w_heap]. by rewrite put_in_keys.
    + cbn [set_watches bk_watches set_bk w_kernel bk_ring bk_ring_fd]. by rewrite put_in_keys.
    + cbn [set_watches bk_watches]. by rewrite (put_in_map fd_of q w w0).
    + intros r Hr1. by exists r.
Qed.

Lemma same_put b c w w0 s p : alive p b s -> watch_of b c = Some w0 -> strip w = strip w0 -> same b (put_of b c w).
Proof.
  intros [[_ Hh _ _] _ _] Hw Ew. destruct c as [| |q]; cbn in Hw; [done | |]; constructor; try done; cbn [put_of set_watches bk_watches bk_wake_watch].
  - injection Hw as <-. done.
  - apply (put_in_map (fun x => (x.1, strip x.2)) q w w0); [| done | cbn; by rewrite Ew].
    destruct Hh as (_ & Hnd & _). by apply list.NoDup_cons in Hnd as [_ ?].
Qed.

Lemma armed_spec p b s c w0 (flag : bool) w E : alive p b s -> watch_of b c = Some w0 -> strip w = strip w0 ->
  wp (put_watch c (set_armed flag w)) (fun _ => kept p b) E s.
Proof.
  intros Ha Hw Ew. assert (Efd : wt_fd w = wt_fd w0) by (change (wt_fd (strip w) = wt_fd w0); by rewrite Ew).
  eapply wp_put_watch; [apply Ha | done |]. destruct (alive_put p b s c (set_armed flag w) w0 Ha Hw Efd) as [Ha' Hq].
  eexists. split_and!; [exact Ha' | | exact Hq]. by eapply (same_put _ _ _ w0).
Qed.

Lemma arm_spec p b s c w : alive p b s -> watch_of b c = Some w -> wp (arm_watch c) (fun _ => kept p b) (kept p b) s.
Proof.
  intros Ha Hw. unfold arm_watch. apply wp_bind. eapply wp_get_watch; [apply Ha | done |]. apply wp_if; intros _; [by apply wp_ret, kept_here |].
  apply wp_bind. eapply wp_mono; [by apply sqe_push_spec | | done]. intros i s1 (b1 & r1 & Ha1 & Hs1 & Hq1 & Hr1 & Hend).
  destruct (watch_same _ _ _ _ Hs1 Hw) as (w1 & Hw1 & Ew1).
  apply wp_bind. eapply wp_mono; [apply (set_sqe_spec p b1 s1 r1 i _ (fun _ => False)); [done | done | done | by eapply watch_known] | | done].
  intros ? s2 Hk2. apply (kept_trans p b b1 s2 Hs1 Hq1) in Hk2. destruct Hk2 as (b2 & Ha2 & Hs2 & Hq2).
  destruct (watch_same _ _ _ _ Hs2 Hw) as (w2 & Hw2 & Ew2).
  apply wp_bind. eapply wp_mono; [by apply (armed_spec p b2 s2 c w2 true w (fun _ => False)) | | done].
  intros ? s3 Hk3. apply (kept_trans p b b2 s3 Hs2 Hq2) in Hk3. destruct Hk3 as (b3 & Ha3 & Hs3 & Hq3).
  eapply wp_mono; [by apply uring_submit_spec | |]; intros; by eapply kept_trans.
Qed.

Lemma cancel_spec p b s c w E : alive p b s -> watch_of b c = Some w -> wp (cancel_watch c) (fun _ => kept p b) E s.
Proof.
  intros Ha Hw. unfold cancel_watch. apply wp_bind. eapply wp_get_watch; [apply Ha | done |]. apply wp_if; intros _; [by apply wp_ret, kept_here |].
  apply wp_bind, wp_attempt. eapply wp_mono; [by apply sqe_push_spec | |].
  2: { intros s1 Hk. by apply wp_ret. }
  intros i s1 (b1 & r1 & Ha1 & Hs1 & Hq1 & Hr1 & Hend).
  apply wp_bind. eapply wp_mono; [by apply (set_sqe_spec p b1 s1 r1 i _ (fun _ => False)) | | done].
  intros ? s2 Hk2. apply (kept_trans p b b1 s2 Hs1 Hq1) in Hk2. destruct Hk2 as (b2 & Ha2 & Hs2 & Hq2).
  assert (Hend3 : forall s3, kept p b2 s3 -> wp (put_watch c (set_armed false w)) (fun _ => kept p b) E s3).
  { intros s3 Hk3. apply (kept_trans p b b2 s3 Hs2 Hq2) in Hk3. destruct Hk3 as (b3 & Ha3 & Hs3 & Hq3).
    destruct (watch_same _ _ _ _ Hs3 Hw) as (w3 & Hw3 & Ew3).
    eapply wp_mono; [by apply (armed_spec p b3 s3 c w3 false w (fun _ => False)) | | done]. intros; by eapply kept_trans. }
  apply wp_bind, wp_attempt. eapply wp_mono; [by apply uring_submit_spec | |]; intros; by apply Hend3.
Qed.
End Ops.
