(* ===== verification/UringCalls.v ===== *)
(** * UringCalls: the public operations of the io_uring backend

    What wirecall_backend_create, register, remove, wake and poll do to the map
    from descriptors to what is [registered] for them, on every path. *)

From stdpp Require Import strings.
From S2P Require Import Prelude Words Memory Net Connection BackendWorld Uring UringKernel UringInv UringOps.
#[global] Open Scope Z_scope.

Definition unchanged (b b' : wirecall_backend) : Prop := forall d, registered b' d = registered b d.
Definition updated (fd : Z) (v : option (Z * watch_user)) (b b' : wirecall_backend) : Prop :=
  forall d, registered b' d = if d =? fd then v else registered b d.

(** an event is a wake-up, or that of a descriptor as it is registered *)
Definition event_from (b : wirecall_backend) (e : wirecall_backend_event) : Prop :=
  (ev_events e = WIRECALL_BACKEND_WAKE /\ ev_fd e = bk_wake_fd b) \/
  (exists i, registered b (ev_fd e) = Some (i, ev_user e) /\ 1 <= ev_events e <= 3).

Lemma ready_events_range res : 0 <= ready_events res <= 3.
Proof. unfold ready_events. destruct (negb _), (negb _); by vm_compute. Qed.

Section Calls.
Context `{HH : Host} `{HP : Heap W} `{UU : Uring U}.
Hypothesis H64 : size_bits = 64.
Variables (base : gset Z) (fds : gset Z) (maps : gmap Z Z).
Implicit Types (s : uworld W U) (b : wirecall_backend) (p q : Z) (r : ring) (c : cookie) (w : wirecall_backend_watch).
Notation alive := (alive base fds maps).
Notation kept := (kept base fds maps).

Lemma event_from_same b b' e : same b b' -> event_from b' e -> event_from b e.
Proof.
  intros Hs. pose proof (same_fd _ _ Hs) as [_ Ew]. unfold event_from. rewrite Ew, (same_registered _ _ _ Hs). done.
Qed.

Lemma here p b s : alive p b s -> w_backend s = Some (p, b).
Proof. intros Ha. apply Ha. Qed.

Lemma alive_quiet p b s u : alive p b s -> ur_fds u = ur_fds (w_kernel s) -> ur_maps u = ur_maps (w_kernel s) ->
  (forall d, ur_flying d u = ur_flying d (w_kernel s)) -> alive p b (set_kernel u s).
Proof.
  intros [[Hb Hh Hf Hm] Hr Hu] E1 E2 E3. constructor; [constructor; [done | done | cbn; by rewrite E1 | cbn; by rewrite E2] | | done].
  destruct Hr as (r & Hr & Hs & Hc & Hk). exists r. split_and!; try done. cbn. by rewrite E3.
Qed.

(** *** Registering *)
Definition has_watch b q fd : Prop := exists w, watch_of b (CWatch q) = Some w /\ wt_fd w = fd.

Lemma find_watch_of b fd x : find (fun x => wt_fd x.2 =? fd) (bk_watches b) = Some x -> NoDup (bk_watches b).*1 -> has_watch b x.1 fd.
Proof.
  intros E Hn. apply find_some in E as [Hin Hfd]. apply list_elem_of_In in Hin. destruct x as [q w]. cbn in *.
  destruct (elem_in_list q (bk_watches b)) as [w' Hw']; [apply list_elem_of_fmap; by exists (q, w) |].
  exists w'. split; [done |]. apply in_list_elem in Hw'. apply Z.eqb_eq in Hfd.
  assert (Some w' = Some w) as [= ->]; [| done].
  by rewrite <- (elem_of_list_to_map_1 (M := gmap Z) _ q w' Hn Hw'), <- (elem_of_list_to_map_1 (M := gmap Z) _ q w Hn Hin).
Qed.

Lemma keys_unique p b s : alive p b s -> NoDup (bk_watches b).*1.
Proof. intros [[_ (_ & Hn & _) _ _] _ _]. by apply list.NoDup_cons in Hn as [_ ?]. Qed.

(** a new watch, which is not active *)
Definition fresh_watch (fd : Z) : wirecall_backend_watch :=
  {| wt_fd := fd; wt_events := 0; wt_user := UConn 0; wt_active := false; wt_armed := false |}.

Lemma alive_new p b s q h fd (b' := set_watches ((q, fresh_watch fd) :: bk_watches b) (bk_wake_watch b) b) :
  alive p b s -> owns base (q :: p :: (bk_watches b).*1) h -> find (fun x => wt_fd x.2 =? fd) (bk_watches b) = None ->
  alive p b' (set_bk (Some (p, b')) (set_wheap h s)) /\ unchanged b b' /\ has_watch b' q fd.
Proof.
  intros [[Hb Hh Hf Hm] Hr Hu] Ho Hfd. split; [constructor; [constructor; [done | | done | done] | |] | split].
  - cbn. eapply owns_perm; [| reflexivity | exact Ho]. constructor.
  - destruct Hr as (r & Hr & Hs & Hc & Hk). exists r. split_and!; try done. eapply list.Forall_impl; [exact Hk |].
    intros [| |q'] Hq'; cbn in *; [done | done |]. by apply list_elem_of_further.
  - cbn [b' set_watches bk_watches map]. constructor; [| done]. intros Hin. apply list_elem_of_fmap in Hin as (x & Ex & Hin).
    apply list_elem_of_In in Hin. eapply find_none in Hfd; [| exact Hin]. cbn in Hfd. unfold fd_of in Ex. cbn in Ex. by rewrite <- Ex, Z.eqb_refl in Hfd.
  - intros d. unfold registered. cbn [b' set_watches bk_watches find fst snd fresh_watch wt_fd wt_active].
    destruct (Z.eqb_spec fd d) as [<-|]; [by rewrite Hfd | done].
  - exists (fresh_watch fd). split; [| done]. unfold watch_of, in_list. cbn. by rewrite Z.eqb_refl.
Qed.

Lemma register_watch p b s fd :
  alive p b s ->
  wp (watch <- find_watch fd ;;
      match watch with
      | None =>
          block <- on_wheap (heap_calloc 1 sizeof_wirecall_backend_watch) ;;
          match block with
          | None => fail
          | Some p => upd_bk (fun b => set_watches ((p, fresh_watch fd) :: bk_watches b) (bk_wake_watch b) b) ;;; ret p
          end
      | Some p => cancel_watch (CWatch p) ;;; ret p
      end)
    (fun q s' => exists b', alive p b' s' /\ unchanged b b' /\ has_watch b' q fd)
    (fun s' => exists b', alive p b' s' /\ unchanged b b') s.
Proof.
  intros Ha. unfold find_watch. apply wp_bind, wp_bind. eapply wp_get_bk; [by apply here |]. apply wp_ret.
  destruct (find _ (bk_watches b)) as [x|] eqn:Efd.
  - pose proof (find_watch_of b fd x Efd (keys_unique _ _ _ Ha)) as (w & Hw & Ew). apply wp_bind.
    eapply wp_mono; [by apply (cancel_spec base fds maps p b s _ w (fun _ => False)) | | done]. intros ? s1 (b1 & Ha1 & Hs1 & _). apply wp_ret.
    exists b1. split_and!; [done | intros d; by apply same_registered |]. destruct (watch_same _ _ _ _ Hs1 Hw) as (w1 & Hw1 & Ew1). exists w1. split; [done |].
    change (wt_fd (strip w1) = fd). by rewrite Ew1.
  - apply wp_bind. unfold wp at 1, on_wheap. destruct (heap_calloc 1 sizeof_wirecall_backend_watch (w_heap s)) as [o h] eqn:Ec.
    assert (Ho : owns base (option_list o ++ p :: (bk_watches b).*1) h).
    { eapply owns_calloc; [exact H64 | | apply Ha | exact Ec]. unfold sizeof_wirecall_backend_watch. lia. }
    destruct o as [q|].
    + apply wp_bind. eapply wp_upd_bk; [exact (here _ _ _ Ha) |]. apply wp_ret. eexists. exact (alive_new p b s q h fd Ha Ho Efd).
    + apply wp_fail. exists b. split; [| done]. destruct Ha as [[Hb Hh Hf Hm] Hr Hu]. constructor; [by constructor | exact Hr | exact Hu].
Qed.

Lemma registered_put p b s q w w0 : alive p b s -> watch_of b (CWatch q) = Some w0 -> wt_fd w = wt_fd w0 ->
  updated (wt_fd w0) (if wt_active w then Some (wt_events w, wt_user w) else None) b (put_of b (CWatch q) w).
Proof.
  intros Ha Hw Ew d. unfold registered at 1. cbn [put_of set_watches bk_watches].
  rewrite (find_fd_put d q w w0) by (done || apply Ha || by eapply keys_unique). rewrite Ew. destruct (d =? wt_fd w0); [done |]. done.
Qed.

Lemma register_spec p b s fd events user : 0 <= fd -> alive p b s ->
  wp (wirecall_backend_register fd events user)
    (fun _ s' => exists b', alive p b' s' /\ updated fd (Some (events, user)) b b')
    (fun s' => exists b', alive p b' s' /\ (unchanged b b' \/ updated fd (Some (events, user)) b b')) s.
Proof.
  intros Hfd Ha. unfold wirecall_backend_register. apply wp_bind. eapply wp_has_backend; [by apply here |].
  destruct (Z.ltb_spec fd 0); [lia |]. cbn [negb orb].
  assert (Hrest : forall (q : Z) s1, (exists b', alive p b' s1 /\ unchanged b b' /\ has_watch b' q fd) ->
    wp (w <- get_watch (CWatch q) ;; put_watch (CWatch q) (set_interest events user w) ;;; arm_watch (CWatch q))
      (fun _ s' => exists b', alive p b' s' /\ updated fd (Some (events, user)) b b')
      (fun s' => exists b', alive p b' s' /\ (unchanged b b' \/ updated fd (Some (events, user)) b b')) s1).
  { intros q s1 (b1 & Ha1 & Hu1 & w & Hw & Ew). apply wp_bind. eapply wp_get_watch; [by apply here | done |].
    apply wp_bind. eapply wp_put_watch; [by apply here | done |].
    destruct (alive_put base fds maps p b1 s1 (CWatch q) (set_interest events user w) w Ha1 Hw eq_refl) as [Ha2 _].
    assert (Hup : updated fd (Some (events, user)) b (put_of b1 (CWatch q) (set_interest events user w))).
    { intros d. rewrite (registered_put p b1 s1 q (set_interest events user w) w Ha1 Hw eq_refl d). cbn [set_interest wt_active wt_events wt_user].
      rewrite Ew. destruct (d =? fd); [done | apply Hu1]. }
    eapply wp_mono.
    - apply (arm_spec base fds maps p _ _ (CWatch q) (set_interest events user w) Ha2). cbn [watch_of put_of set_watches bk_watches].
      apply put_in_find. cbn in Hw. apply in_list_elem in Hw. apply list_elem_of_fmap. by exists (q, w).
    - intros ? s3 (b3 & Ha3 & Hs3 & _). exists b3. split; [done |]. intros d. by rewrite (same_registered _ _ _ Hs3).
    - intros s3 (b3 & Ha3 & Hs3 & _). exists b3. split; [done |]. right. intros d. by rewrite (same_registered _ _ _ Hs3). }
  pose proof (register_watch p b s fd Ha) as Hreg. apply wp_bind. unfold wp at 1. unfold wp, bind at 1 in Hreg.
  destruct (find_watch fd s) as [[o| |] s1]; [| | done].
  - apply wp_bind. eapply wp_mono; [exact Hreg | |].
    + intros q s2 H2. by apply Hrest.
    + intros s2 (b2 & Ha2 & Hu2). exists b2. by auto.
  - destruct Hreg as (b2 & Ha2 & Hu2). exists b2. by auto.
Qed.

Lemma uring_remove_spec p b s fd : 0 <= fd -> alive p b s ->
  wp (wirecall_backend_remove fd) (fun _ s' => exists b', alive p b' s' /\ updated fd None b b') (fun _ => False) s.
Proof.
  intros Hfd Ha. unfold wirecall_backend_remove. apply wp_bind. eapply wp_has_backend; [by apply here |].
  destruct (Z.ltb_spec fd 0); [lia |]. cbn [negb orb]. unfold find_watch. apply wp_bind, wp_bind. eapply wp_get_bk; [by apply here |]. apply wp_ret.
  destruct (find _ (bk_watches b)) as [x|] eqn:Efd.
  - pose proof (find_watch_of b fd x Efd (keys_unique _ _ _ Ha)) as (w & Hw & Ew).
    apply wp_bind. eapply wp_get_watch; [by apply here | done |]. apply wp_bind. eapply wp_put_watch; [by apply here | done |].
    destruct (alive_put base fds maps p b s (CWatch x.1) (set_active false w) w Ha Hw eq_refl) as [Ha2 _].
    eapply wp_mono.
    + apply (cancel_spec base fds maps p _ _ (CWatch x.1) (set_active false w) (fun _ => False) Ha2). cbn [watch_of put_of set_watches bk_watches].
      apply put_in_find. cbn in Hw. apply in_list_elem in Hw. apply list_elem_of_fmap. by exists (x.1, w).
    + intros ? s3 (b3 & Ha3 & Hs3 & _). exists b3. split; [done |]. intros d. rewrite (same_registered _ _ _ Hs3).
      rewrite (registered_put p b s x.1 (set_active false w) w Ha Hw eq_refl d). by rewrite Ew.
    + done.
  - apply wp_ret. exists b. split; [done |]. intros d. destruct (Z.eqb_spec d fd) as [->|]; [| done]. unfold registered. by rewrite Efd.
Qed.

Lemma wake_spec p b s : alive p b s -> wp wirecall_backend_wake (fun _ => alive p b) (alive p b) s.
Proof.
  intros Ha. unfold wirecall_backend_wake. apply wp_bind. eapply wp_has_backend; [by apply here |]. cbn [negb].
  apply wp_bind. eapply wp_get_bk; [by apply here |]. apply wp_if; intros _; [by apply wp_fail |].
  apply wp_bind, wp_kernel. intros n u Eu. destruct (law_write _ _ _ _ Eu) as (E1 & E2 & E3).
  destruct n; [apply wp_ret | apply wp_fail]; by apply alive_quiet.
Qed.

(** *** Polling *)
Lemma drain_wake_spec fuel fd s : (ur_work (w_kernel s) < fuel)%nat ->
  wp (drain_wake fuel fd) (fun _ s' => exists u, s' = set_kernel u s /\ ur_fds u = ur_fds (w_kernel s) /\ ur_maps u = ur_maps (w_kernel s) /\
    (forall d, ur_flying d u = ur_flying d (w_kernel s))) (fun _ => False) s.
Proof.
  revert s. induction fuel as [|fuel IH]; intros s Hf; [lia |]. cbn [drain_wake]. apply wp_bind, wp_kernel. intros n u Eu.
  destruct (law_read _ _ _ _ Eu) as (E1 & E2 & E3 & E4). destruct n.
  - eapply wp_mono; [apply IH; cbn; specialize (E4 eq_refl); lia | | done]. intros ? s1 (u1 & -> & F1 & F2 & F3).
    exists u1. cbn in *. split_and!; [done | congruence | congruence | intros d; by rewrite F3].
  - apply wp_ret. by exists u.
Qed.

Lemma rearm_spec p b s c w : alive p b s -> watch_of b c = Some w -> wp (attempt (arm_watch c)) (fun _ => kept p b) (fun _ => False) s.
Proof. intros Ha Hw. apply wp_attempt. by eapply arm_spec. Qed.

Definition polled p b (l : list wirecall_backend_event) s' : Prop := kept p b s' /\ Forall (event_from b) l /\ zlen l <= 1.

Lemma poll_one_spec p b s e : alive p b s -> known (bk_watches b).*1 (cqe_user_data e) -> wp (poll_one e) (polled p b) (fun _ => False) s.
Proof.
  intros Ha Hk. unfold poll_one. destruct (decide (cqe_user_data e = CNull)) as [->|Hne].
  { apply wp_ret. split_and!; [by apply kept_here | done | done]. }
  destruct (known_watch b _ Hk Hne) as [w Hw].
  assert (Hgo : wp (w <- get_watch (cqe_user_data e) ;; put_watch (cqe_user_data e) (set_armed false w) ;;;
      if bool_decide (cqe_user_data e = CWake) then
        b <- get_bk ;;
        work <- gets (fun s => ur_work (w_kernel s)) ;;
        drain_wake (S work) (bk_wake_fd b) ;;;
        attempt (arm_watch (cqe_user_data e)) ;;;
        ret [{| ev_fd := bk_wake_fd b; ev_events := WIRECALL_BACKEND_WAKE; ev_user := UConn 0 |}]
      else if wt_active w && (0 <=? cqe_res e) then
        let ev := ready_events (cqe_res e) in
        attempt (arm_watch (cqe_user_data e)) ;;;
        ret (if negb (ev =? 0) then [{| ev_fd := wt_fd w; ev_events := ev; ev_user := wt_user w |}] else [])
      else ret []) (polled p b) (fun _ => False) s); [| by destruct (cqe_user_data e)].
  apply wp_bind. eapply wp_get_watch; [by apply here | done |].
  apply wp_bind. eapply wp_mono; [by apply (armed_spec base fds maps p b s _ w false w (fun _ => False)) | | done].
  intros ? s1 (b1 & Ha1 & Hs1 & Hq1). destruct (watch_same _ _ _ _ Hs1 Hw) as (w1 & Hw1 & Ew1).
  apply wp_if; intros Hwake.
  - apply wp_bind. eapply wp_get_bk; [by apply here |]. apply wp_bind. unfold wp at 1, gets.
    apply wp_bind. eapply wp_mono; [apply drain_wake_spec; lia | | done]. intros ? s2 (u & -> & E1 & E2 & E3).
    apply wp_bind. eapply wp_mono; [eapply (rearm_spec p b1); [by apply alive_quiet | done] | | done]. intros ? s3 Hk3. apply wp_ret.
    split_and!; [by eapply kept_trans | | done]. constructor; [| done]. left. split; [done |]. cbn. by destruct (same_fd _ _ Hs1).
  - apply wp_if; intros Hact; [| apply wp_ret; split_and!; [by exists b1 | done | done]]. cbv zeta.
    apply wp_bind. eapply wp_mono; [by eapply (rearm_spec p b1) | | done]. intros ? s3 Hk3. apply wp_ret.
    split_and!; [by eapply kept_trans | | by destruct (negb _)]. destruct (Z.eqb_spec (ready_events (cqe_res e)) 0) as [|Hev]; [done |]. cbn [negb].
    constructor; [| done]. right. exists (wt_events w). pose proof (ready_events_range (cqe_res e)). cbn [ev_fd ev_user ev_events]. split; [| lia].
    destruct (cqe_user_data e) as [| |q]; [done | by rewrite bool_decide_true in Hwake |]. cbn in Hw.
    apply in_list_elem in Hw. unfold registered. rewrite (find_fd_elem q w) by (done || apply Ha). cbn [snd].
    apply andb_prop in Hact as [-> _]. done.
Qed.

(** the completions between the head the loop has reached and the tail it has
    loaded are still in the queue *)
Lemma poll_entry b r r0 b0 k : bk_ring b = Some r -> queued b0 b -> bk_ring b0 = Some r0 -> ring_shape r ->
  0 <= k < u32 (cq_tail r0 - cq_head r0) ->
  exists e, cqes r !! slot_at (cq_ring_mask r) (u32 (cq_head r0 + k)) = Some e /\ e ∈ cq_pending r.
Proof.
  intros Hr Hq Hr0 Hs Hk. destruct (Hq r0 Hr0) as (r1 & Hr1 & Eh & _ & Hp). simplify_eq. exists (cq_entry r (u32 (cq_head r0 + k))).
  destruct Hs as [_ _ _ (m & Hm & Em & Ez) [Hh Ht] _]. split.
  - unfold cq_entry, slot_at.  rewrite Em.
    pose proof (slot_range (u32 (cq_head r0 + k)) m ltac:(lia)). destruct (lookup_lt_is_Some_2 (cqes r) (Z.to_nat (Z.land (u32 (cq_head r0 + k)) (Z.ones m)))) as [x Hx]; [unfold zlen in Ez; lia |].
    rewrite Hx. f_equal. symmetry. by apply nth_lookup_Some.
  - apply prefix_length in Hp. pose proof (queue_length (cq_entry r0) (cq_head r0) (cq_tail r0)) as L0. pose proof (queue_length (cq_entry r) (cq_head r) (cq_tail r)) as L1.
    unfold cq_pending, zlen in *. rewrite <- Eh. unfold queue. apply list_elem_of_fmap. exists (Z.to_nat k). split; [f_equal; f_equal; lia |].
    apply elem_of_seq. lia.
Qed.

Lemma poll_loop_spec p b0 r0 max n k b s out :
  bk_ring b0 = Some r0 -> ring_shape r0 -> alive p b s -> same b0 b -> queued b0 b ->
  0 <= k -> Z.of_nat n = u32 (cq_tail r0 - cq_head r0) - k -> Forall (event_from b0) out -> zlen out <= max ->
  wp (poll_loop n (u32 (cq_head r0 + k)) (cq_tail r0) out max)
    (fun x s' => kept p b s' /\ Forall (event_from b0) x.2 /\ zlen x.2 <= max /\
       exists k', 0 <= k' <= u32 (cq_tail r0 - cq_head r0) /\ x.1 = u32 (cq_head r0 + k')) (fun _ => False) s.
Proof.
  intros Hr0 Hs0. revert k b s out. induction n as [|n IH]; intros k b s out Ha Hs Hq Hk Hn Hout Hmax; cbn [poll_loop].
  - assert (k = u32 (cq_tail r0 - cq_head r0)) as -> by lia. rewrite u32_between, Z.eqb_refl by apply Hs0. cbn [negb andb].
    apply wp_ret. split_and!; [by apply kept_here | done | done |]. exists (u32 (cq_tail r0 - cq_head r0)). pose proof (u32_range (cq_tail r0 - cq_head r0)).
    split; [lia |]. cbn. by rewrite u32_between by apply Hs0.
  - apply wp_if; intros Hcond; [| apply wp_ret; split_and!; [by apply kept_here | done | done | exists k; split; [lia | done]]].
    apply andb_prop in Hcond as [_ Hlt%Z.ltb_lt]. destruct (al_ring _ _ _ _ _ _ Ha) as (r & Hr & Hsh & _ & Hkn).
    apply wp_bind. eapply wp_get_ring; [by apply here | done |].
    destruct (poll_entry b r r0 b0 k Hr Hq Hr0 Hsh ltac:(lia)) as (e & He & Hin). rewrite He.
    assert (Hknown : known (bk_watches b).*1 (cqe_user_data e)).
    { unfold in_kernel in Hkn. rewrite !Forall_app in Hkn. destruct Hkn as (_ & _ & Hkn). eapply list.Forall_forall in Hkn; [exact Hkn |].
      apply list_elem_of_fmap. by exists e. }
    apply wp_bind. eapply wp_mono; [by apply poll_one_spec | | done]. intros l s1 ((b1 & Ha1 & Hs1 & Hq1) & Hl & Hz).
    replace (u32 (u32 (cq_head r0 + k) + 1)) with (u32 (cq_head r0 + (k + 1))) by (unfold u32; rewrite Zplus_mod_idemp_l; f_equal; lia).
    eapply wp_mono; [apply (IH (k + 1) b1 s1 (out ++ l)) | | done]; try done.
    + by eapply uring_same_trans.
    + by eapply queued_trans.
    + lia.
    + lia.
    + apply Forall_app. split; [done |]. eapply list.Forall_impl; [exact Hl |]. intros ev. by apply event_from_same.
    + rewrite zlen_app. lia.
    + intros x s2 (Hk2 & Hx). split; [by eapply kept_trans | done].
Qed.

(** the head is moved past completions that have been seen *)
Lemma alive_seen p b s r h : alive p b s -> bk_ring b = Some r -> (exists k, 0 <= k <= u32 (cq_tail r - cq_head r) /\ h = u32 (cq_head r + k)) ->
  let b' := set_ring (Some (set_cq h (cq_tail r) (cqes r) r)) b in alive p b' (set_bk (Some (p, b')) s) /\ same b b'.
Proof.
  intros Ha Hr (k & Hk & ->) b'. assert (Hsame : same b b') by by constructor. split; [| done].
  destruct (al_ring _ _ _ _ _ _ Ha) as (r1 & Hr1 & Hs & Hc & Hn). assert (r1 = r) as -> by congruence.
  pose proof Hs as [_ _ _ _ [Hh Ht] _]. destruct (queue_split (cq_entry r) (cq_head r) (cq_tail r) k Hh Ht Hk) as [El Eq].
  constructor; [by apply (alive_parts base fds maps p b s b' (w_kernel s)) | | apply Ha].
  exists (set_cq (u32 (cq_head r + k)) (cq_tail r) (cqes r) r). split_and!; [done | | done |].
  - destruct Hs as [H1 H2 H3 H4 H5 H6]. constructor; try done; cbn [set_cq cq_head cq_tail cqes]; [split; [apply u32_range | done] | lia].
  - unfold in_kernel in *. rewrite !Forall_app in *. destruct Hn as (N1 & N2 & N3). split_and!; [exact N1 | exact N2 |].
    unfold cq_pending in N3. rewrite Eq, map_app, Forall_app in N3. apply N3.
Qed.

Lemma poll_spec p b s max timeout : alive p b s ->
  wp (wirecall_backend_poll max timeout)
    (fun l s' => exists b', alive p b' s' /\ same b b' /\ Forall (event_from b) l /\ zlen l <= max)
    (fun s' => exists b', alive p b' s' /\ same b b') s.
Proof.
  intros Ha. unfold wirecall_backend_poll. apply wp_bind. eapply wp_has_backend; [by apply here |]. cbn [negb orb].
  apply wp_if; intros Hmax; [apply wp_fail; exists b; split; [done | apply uring_same_refl] |].
  apply wp_bind. eapply wp_mono; [apply (enter_spec base fds maps p b s _ _ _ (fun _ => False)); [done | done] | | done].
  intros e s1 (b1 & Ha1 & Hs1 & _). destruct e as [e|].
  { apply wp_if; intros _; [apply wp_ret | apply wp_fail]; exists b1; (split_and!; try done). change (zlen []) with 0. lia. }
  destruct (al_ring _ _ _ _ _ _ Ha1) as (r1 & Hr1 & _). apply wp_bind. eapply wp_get_ring; [by apply here | done |]. cbv zeta.
  apply wp_bind. eapply wp_mono; [by apply (kernel_runs_spec base fds maps p b1 s1 (fun _ => False)) | | done].
  intros ? s2 (b2 & Ha2 & Hs2 & Hq2). destruct (Hq2 r1 Hr1) as (r2 & Hr2 & Eh & _ & _).
  destruct (al_ring _ _ _ _ _ _ Ha2) as (r2' & Hr2' & Hsh2 & _). assert (r2' = r2) as -> by congruence. clear Hr2'.
  apply wp_bind. eapply wp_get_ring; [by apply here | done |]. cbv zeta. rewrite <- Eh. pose proof (u32_range (cq_tail r2 - cq_head r2)) as Hrange.
  apply wp_bind. eapply wp_mono.
  { replace (cq_head r2) with (u32 (cq_head r2 + 0)) at 2 by (rewrite Z.add_0_r; apply u32_small, Hsh2).
    apply (poll_loop_spec p b2 r2 max _ 0 b2 s2 []); [done | done | done | apply uring_same_refl | apply queued_refl | done | lia | done | change (zlen []) with 0; lia]. }
  2: done.
  intros x s3 ((b3 & Ha3 & Hs3 & Hq3) & Hev & Hz & k & Hk & Ex). destruct (Hq3 r2 Hr2) as (r3 & Hr3 & Eh3 & _ & Hp3).
  apply wp_bind. eapply wp_get_ring; [by apply here | done |].
  assert (Hk3 : 0 <= k <= u32 (cq_tail r3 - cq_head r3)).
  { apply prefix_length in Hp3. pose proof (queue_length (cq_entry r2) (cq_head r2) (cq_tail r2)). pose proof (queue_length (cq_entry r3) (cq_head r3) (cq_tail r3)).
    unfold cq_pending, zlen in *. lia. }
  destruct (alive_seen p b3 s3 r3 x.1 Ha3 Hr3) as [Ha4 Hs4]; [exists k; split; [exact Hk3 | by rewrite Ex, Eh3] |].
  pose proof (uring_same_trans _ _ _ (uring_same_trans _ _ _ (uring_same_trans _ _ _ Hs1 Hs2) Hs3) Hs4) as Hs.
  apply wp_bind. unfold wp at 1. rewrite <- (set_kernel_id s3), (put_ring_id p b3) by by apply here. rewrite set_kernel_id.
  apply wp_bind. apply (wp_mono _ (fun _ => kept p (set_ring (Some (set_cq x.1 (cq_tail r3) (cqes r3) r3)) b3)) _ (fun _ => False)).
  { apply wp_attempt. exact (uring_submit_spec base fds maps p _ _ Ha4). }
  2: done.
  intros ? s5 (b5 & Ha5 & Hs5 & _). apply wp_ret. exists b5. split_and!; [done | exact (uring_same_trans _ _ _ Hs Hs5) | | done].
  eapply list.Forall_impl; [exact Hev |]. intros ev. apply event_from_same. exact (uring_same_trans _ _ _ Hs1 Hs2).
Qed.

(** *** Creating *)
Lemma back_out_spec p b s (Q : unit -> uworld W U -> Prop) : parts base fds maps p b s -> wp back_out Q (restored base fds maps) s.
Proof.
  intros Hp. unfold back_out. apply wp_bind. eapply wp_mono; [by apply (uring_destroy_spec base fds maps p b s (restored base fds maps)) | | done].
  intros ? s' Hr. by apply wp_fail.
Qed.

Definition blank s : Prop := w_backend s = None /\ owns base [] (w_heap s) /\ ur_fds (w_kernel s) = fds /\ ur_maps (w_kernel s) = maps.

(** descriptors are added to a backend that is being made *)
Lemma parts_fds p b s u fd ring wake (q : io_uring_params) : parts base fds maps p b s -> own_maps (set_fds ring wake q b) = own_maps b -> 0 <= fd ->
  filter (fun fd => 0 <= fd) [wake; ring] = fd :: own_fds b ->
  (fd ∉ ur_fds (w_kernel s)) -> ur_fds u = {[fd]} ∪ ur_fds (w_kernel s) -> ur_maps u = ur_maps (w_kernel s) ->
  parts base fds maps p (set_fds ring wake q b) (set_bk (Some (p, set_fds ring wake q b)) (set_kernel u s)).
Proof.
  intros [Hb Hh Hf Hm] Em Hfd Ef Hnew Eu1 Eu2. constructor; [done | done | | cbn; by rewrite Em, Eu2].
  cbn [set_bk set_kernel w_kernel]. unfold own_fds. cbn [set_fds bk_wake_fd bk_ring_fd]. rewrite Ef, Eu1. by apply fds_own_add.
Qed.

Lemma create_spec s : blank s ->
  wp (wirecall_backend_create true) (fun _ s' => exists p b, alive p b s' /\ bk_watches b = []) (restored base fds maps) s.
Proof.
  intros (Hn & Ho & Hf & Hm). unfold wirecall_backend_create. cbn [negb]. apply wp_bind. unfold wp at 1, on_wheap.
  destruct (heap_calloc 1 sizeof_wirecall_backend (w_heap s)) as [o h] eqn:Ec.
  assert (Ho1 : owns base (option_list o ++ []) h).
  { eapply owns_calloc; [exact H64 | | exact Ho | exact Ec]. unfold sizeof_wirecall_backend. lia. }
  destruct o as [p|]; [| by apply wp_fail]. apply wp_bind. unfold wp at 1, modify. set (b0 := set_fds (-1) (-1) params_zero backend_zero).
  set (s0 := set_bk _ _). assert (Hp0 : parts base fds maps p b0 s0).
  { constructor; [done | exact Ho1 | by apply fds_own_nil |]. cbn. by apply maps_own_nil. }
  apply wp_bind, wp_kernel. intros x u Eu. destruct (law_setup _ _ _ _ Eu) as [Em Hx]. destruct x as [[fd params]|].
  2: { apply (back_out_spec p b0). destruct Hp0 as [Q1 Q2 Q3 Q4]. constructor; [done | done | by rewrite <- Hx in Q3 | by rewrite <- Em in Q4]. }
  destruct Hx as (Hfd & Hnew & Ef & Hfl & Hpar). apply wp_bind. eapply wp_upd_bk; [done |].
  assert (Hp1 : parts base fds maps p (set_fds fd (-1) params b0) (set_bk (Some (p, set_fds fd (-1) params b0)) (set_kernel u s0))).
  { apply (parts_fds p b0 s0 u fd); try done. rewrite list.filter_cons_False by lia. by rewrite list.filter_cons_True. }
  apply wp_bind, wp_attempt. eapply wp_mono; [by apply (map_rings_spec H64 base fds maps p _ _ Hp1) | |].
  2: { intros s1 (b1 & Hp). by apply (back_out_spec p b1). }
  intros ? s2 (b2 & r2 & Hp2 & [(E1 & E2 & E3) [E4 E5]] & Hr2 & Hsh & Hsq & Hcq & Hfl2). cbn in E1, E2, E3, E4, E5, Hfl2.
  apply wp_bind, wp_kernel. intros wake u3 Eu3. destruct (law_eventfd _ _ _ Eu3) as (Em3 & Hfl3 & Hw). destruct wake as [wake|].
  2: { apply (back_out_spec p b2). destruct Hp2 as [Q1 Q2 Q3 Q4]. constructor; [done | done | by rewrite <- Hw in Q3 | by rewrite <- Em3 in Q4]. }
  destruct Hw as (Hw0 & Hwn & Ew). apply wp_bind. eapply wp_upd_bk; [apply Hp2 |].
  assert (Hp3 : parts base fds maps p (set_fds fd wake params b2) (set_bk (Some (p, set_fds fd wake params b2)) (set_kernel u3 s2))).
  { apply (parts_fds p b2 s2 u3 wake); try done; [unfold own_maps; cbn; by rewrite E3 |].
    unfold own_fds. rewrite E1, E2. rewrite list.filter_cons_True by done. done. }
  apply wp_bind. eapply wp_upd_bk; [done |]. set (b4 := set_watches _ _ _). set (s4 := set_bk (Some (p, b4)) _).
  assert (Ha4 : alive p b4 s4).
  { constructor.
    - destruct Hp3 as [Q1 Q2 Q3 Q4]. by constructor.
    - exists r2. split_and!; [done | done | |].
      + intros i Hi. pose proof (queue_length (sq_entry r2) (sq_head r2) (sq_tail r2)) as Hl. unfold sq_pending in Hsq. rewrite Hsq in Hl. change (zlen []) with 0 in Hl. lia.
      + unfold in_kernel. rewrite Hsq, Hcq. cbn [s4 set_bk w_kernel set_kernel b4 set_watches set_fds bk_ring_fd]. by rewrite Hfl3, Hfl2.
    - cbn [b4 set_watches set_fds bk_watches]. rewrite E4. constructor. }
  apply wp_bind, wp_attempt. eapply wp_mono; [by eapply (arm_spec base fds maps p b4 s4 CWake) | |].
  - intros ? s5 (b5 & Ha5 & Hs5 & _). apply wp_ret. exists p, b5. split; [done |]. pose proof (same_keys _ _ Hs5) as Hk. cbn [b4 set_watches set_fds bk_watches] in Hk.
    rewrite E4 in Hk. by destruct (bk_watches b5).
  - intros s5 (b5 & Ha5 & _). by apply (back_out_spec p b5), Ha5.
Qed.
End Calls.
