(* ===== verification/UringProps.v ===== *)
(** * UringProps: what the io_uring backend promises, and what it does not

    The properties of the backend alone, then a server that runs on it. *)

From stdpp Require Import strings.
From S2P Require Import Prelude Words CString Protocol Integrity Memory Payload Arena Routes Scheduler Net Client Connection ConnInv Server.
From S2P Require Import Lifecycle ServerInv ServerLoop LifecycleInv ServerProps.
From S2P Require Import BackendWorld Uring UringKernel UringInv UringOps UringCalls.
#[global] Open Scope Z_scope.

(** ** Calls *)
Inductive uring_op :=
| URegister (fd events : Z) (user : watch_user)
| UModify (fd events : Z) (user : watch_user)
| URemove (fd : Z)
| UWake
| UPoll (max_events timeout_ms : Z).

Section Calls.
Context `{HH : Host} `{HP : Heap W} `{UU : Uring U}.
Implicit Types (s : uworld W U).

Definition uring_exec (op : uring_op) : M (uworld W U) (list wirecall_backend_event) :=
  match op with
  | URegister fd events user => wirecall_backend_register fd events user ;;; ret []
  | UModify fd events user => wirecall_backend_modify fd events user ;;; ret []
  | URemove fd => wirecall_backend_remove fd ;;; ret []
  | UWake => wirecall_backend_wake ;;; ret []
  | UPoll max_events timeout_ms => wirecall_backend_poll max_events timeout_ms
  end.

(** created from [s0], then any calls, whatever their results *)
Inductive uring_reach s0 : uworld W U -> Prop :=
| uring_created s : wirecall_backend_create true s0 = (Ok tt, s) -> uring_reach s0 s
| uring_called s op r s' : uring_reach s0 s -> uring_exec op s = (r, s') -> uring_reach s0 s'.

Definition the_backend s : wirecall_backend := match w_backend s with Some (_, b) => b | None => backend_zero end.

(** the map that the calls work on: from descriptors to interests and user word *)
Definition register_spec_of (fd events : Z) (user : watch_user) (ok : bool) (b b' : wirecall_backend) : Prop :=
  if ok then 0 <= fd /\ updated fd (Some (events, user)) b b' else unchanged b b' \/ updated fd (Some (events, user)) b b'.
Definition uring_spec (op : uring_op) (r : res (list wirecall_backend_event)) (b b' : wirecall_backend) : Prop :=
  match r with
  | UB => False
  | Ok l =>
      match op with
      | URegister fd events user | UModify fd events user => l = [] /\ register_spec_of fd events user true b b'
      | URemove fd => l = [] /\ 0 <= fd /\ updated fd None b b'
      | UWake => l = [] /\ unchanged b b'
      | UPoll max_events _ => unchanged b b' /\ zlen l <= max_events /\ Forall (event_from b) l
      end
  | Err =>
      match op with
      | URegister fd events user | UModify fd events user => register_spec_of fd events user false b b'
      | URemove fd => fd < 0 /\ unchanged b b'
      | _ => unchanged b b'
      end
  end.

Section Reach.
Hypothesis H64 : size_bits = 64.
Variables (base : gset Z) (fds : gset Z) (maps : gmap Z Z).

Lemma same_unchanged b b' : same b b' -> unchanged b b'.
Proof. intros Hs d. by apply same_registered. Qed.

Lemma exec_register p b s fd events user : alive base fds maps p b s ->
  wp (wirecall_backend_register fd events user ;;; ret [])
    (fun l s' => exists b', alive base fds maps p b' s' /\ l = ([] : list wirecall_backend_event) /\ register_spec_of fd events user true b b')
    (fun s' => exists b', alive base fds maps p b' s' /\ register_spec_of fd events user false b b') s.
Proof.
  intros Ha. apply wp_bind. destruct (Z.ltb_spec fd 0) as [Hfd|Hfd].
  - unfold wirecall_backend_register. apply wp_bind. eapply wp_has_backend; [by eapply here |]. destruct (Z.ltb_spec fd 0); [| lia]. cbn [negb orb].
    apply wp_fail. exists b. split; [done |]. by left.
  - eapply wp_mono; [by apply (register_spec H64 base fds maps p b s fd events user) | |].
    + intros ? s' (b' & Ha' & Hu). apply wp_ret. by exists b'.
    + intros s' (b' & Ha' & Hu). by exists b'.
Qed.

Lemma uring_exec_spec p b s op : alive base fds maps p b s ->
  wp (uring_exec op) (fun l s' => exists b', alive base fds maps p b' s' /\ uring_spec op (Ok l) b b')
    (fun s' => exists b', alive base fds maps p b' s' /\ uring_spec op Err b b') s.
Proof.
  intros Ha. destruct op as [fd events user|fd events user|fd| |m t]; cbn [uring_exec].
  - by apply exec_register.
  - by apply exec_register.
  - apply wp_bind. destruct (Z.ltb_spec fd 0) as [Hfd|Hfd].
    + unfold wirecall_backend_remove. apply wp_bind. eapply wp_has_backend; [by eapply here |]. destruct (Z.ltb_spec fd 0); [| lia]. cbn [negb orb].
      apply wp_fail. by exists b.
    + eapply wp_mono; [by apply (uring_remove_spec base fds maps p b s fd) | | done]. intros ? s' (b' & Ha' & Hu). apply wp_ret. by exists b'.
  - apply wp_bind. eapply wp_mono; [by apply (wake_spec base fds maps p b s) | |].
    + intros ? s' Ha'. apply wp_ret. by exists b.
    + intros s' Ha'. by exists b.
  - eapply wp_mono; [by apply (poll_spec base fds maps p b s m t) | |].
    + intros l s' (b' & Ha' & Hs & Hl & Hz). exists b'. split; [done |]. split_and!; [by apply same_unchanged | done | done].
    + intros s' (b' & Ha' & Hs). exists b'. split; [done |]. by apply same_unchanged.
Qed.
End Reach.

Lemma reach_alive s0 s : size_bits = 64 -> w_backend s0 = None -> heap_inv (w_heap s0) -> uring_reach s0 s ->
  exists p b, alive (heap_live (w_heap s0)) (ur_fds (w_kernel s0)) (ur_maps (w_kernel s0)) p b s.
Proof.
  intros H64 Hn Hi Hr. induction Hr as [s E|s op r s' Hr (p & b & Ha) E].
  - assert (Hb : blank (heap_live (w_heap s0)) (ur_fds (w_kernel s0)) (ur_maps (w_kernel s0)) s0) by (split_and!; [done | by apply owns_start | done | done]).
    destruct (wp_run _ _ _ _ _ _ E (create_spec H64 _ _ _ s0 Hb)) as (p & b & Ha & _). by exists p, b.
  - pose proof (wp_run _ _ _ _ _ _ E (uring_exec_spec H64 _ _ _ p b s op Ha)) as Hx. destruct r as [l| |]; [| | done]; destruct Hx as (b' & Ha' & _); by exists p, b'.
Qed.
End Calls.

(** ** The backend alone *)

(** a backend without a script *)
Definition toy_kernel (frames : list (list (Z * Z))) : toyuring :=
  {| tk_frames := frames; tk_ready := []; tk_eventfd := 0; tk_counter := 0; tk_flying := []; tk_fds := ∅; tk_maps := ∅;
     tk_answers := []; tk_errors := [] |}.
#[local] Existing Instance host_lp64.
#[local] Existing Instance toy_heap.
Definition toy_uworld (frames : list (list (Z * Z))) : uworld toy toyuring :=
  {| w_heap := toy_empty []; w_kernel := toy_kernel frames; w_backend := None |}.
Definition toy_uring_0 := toy_uworld [[(7, 1); (7, 1)]; []].
Definition toy_uring_1 := (wirecall_backend_create true toy_uring_0).2.
Definition toy_uring_2 := (uring_exec (URegister 7 1 (UConn 64)) toy_uring_1).2.

Lemma toy_uring_reach : uring_reach toy_uring_0 toy_uring_2.
Proof.
  eapply (uring_called toy_uring_0 toy_uring_1 (URegister 7 1 (UConn 64)) (Ok [])); [apply uring_created |]; vm_compute; reflexivity.
Qed.

(** C12: the watches of the backend implement a map from descriptors to
    interests and user word: after its creation and any calls, with whatever
    the kernel and the allocator answer, no call reaches an undefined access;
    registering or modifying a descriptor sets its entry, or, when it fails,
    leaves the map alone or has set it; removing one deletes its entry; wake and
    poll change nothing; and a poll reports at most as many events as it is
    asked for, each a wake-up or one of an entry of the map, with its
    descriptor and user word, and readable, writable or both: no event is ever
    reported for a descriptor that has been removed. *)
Theorem uring_refines_map `{Host} `{Heap W} `{Uring U} (s0 s : uworld W U) op r s' :
  size_bits = 64 -> w_backend s0 = None -> heap_inv (w_heap s0) -> uring_reach s0 s -> uring_exec op s = (r, s') ->
  uring_spec op r (the_backend s) (the_backend s').
Proof.
  intros H64 Hn Hi Hr E. destruct (reach_alive s0 s H64 Hn Hi Hr) as (p & b & Ha).
  pose proof (wp_run _ _ _ _ _ _ E (uring_exec_spec H64 _ _ _ p b s op Ha)) as Hx. unfold the_backend. rewrite (here _ _ _ _ _ _ Ha).
  destruct r as [l| |]; [| | done]; destruct Hx as (b' & Ha' & Hu); by rewrite (here _ _ _ _ _ _ Ha').
Qed.

Lemma uring_refines_map_witness :
  uring_spec (UPoll 8 (-1)) (uring_exec (UPoll 8 (-1)) toy_uring_2).1 (the_backend toy_uring_2) (the_backend (uring_exec (UPoll 8 (-1)) toy_uring_2).2).
Proof.
  apply (uring_refines_map toy_uring_0 toy_uring_2).
  - reflexivity.
  - reflexivity.
  - apply toy_empty_inv.
  - apply toy_uring_reach.
  - apply surjective_pairing.
Defined.

(** C13: an io_uring backend gives everything back: creating one ends in success or, on
    whatever failure of the allocator, io_uring_setup, mmap, eventfd or the
    first submission, with every block, descriptor and mapping released; and
    after any calls wirecall_backend_destroy, without an invalid access,
    releases all of them too. *)
Theorem uring_balance `{Host} `{Heap W} `{Uring U} (s0 : uworld W U) :
  size_bits = 64 -> w_backend s0 = None -> heap_inv (w_heap s0) ->
  let back s' := w_backend s' = None /\ heap_live (w_heap s') = heap_live (w_heap s0) /\ ur_fds (w_kernel s') = ur_fds (w_kernel s0) /\
                 ur_maps (w_kernel s') = ur_maps (w_kernel s0) in
  (forall r s, wirecall_backend_create true s0 = (r, s) -> r = Ok tt \/ (r = Err /\ back s)) /\
  (forall s, uring_reach s0 s -> exists s', wirecall_backend_destroy s = (Ok tt, s') /\ back s').
Proof.
  intros H64 Hn Hi back. split.
  - intros r s E. assert (Hb : blank (heap_live (w_heap s0)) (ur_fds (w_kernel s0)) (ur_maps (w_kernel s0)) s0) by (split_and!; [done | by apply owns_start | done | done]).
    pose proof (wp_run _ _ _ _ _ _ E (create_spec H64 _ _ _ s0 Hb)) as Hr. destruct r as [[]| |]; [by left | right | done].
    destruct Hr as (E1 & [_ E2]%owns_nil & E3 & E4). done.
  - intros s Hr. destruct (reach_alive s0 s H64 Hn Hi Hr) as (p & b & Ha).
    pose proof (uring_destroy_spec _ _ _ p b s (fun _ => False) (al_parts _ _ _ _ _ _ Ha)) as Hd. unfold wp in Hd.
    destruct (wirecall_backend_destroy s) as [[[]| |] s']; [| done | done]. exists s'. split; [done |].
    destruct Hd as (E1 & [_ E2]%owns_nil & E3 & E4). done.
Qed.

(** the last mapping fails *)
Definition toy_uring_short : uworld toy toyuring :=
  {| w_heap := toy_empty []; w_kernel := tk_script [true; true; false] [] (toy_kernel []); w_backend := None |}.

Lemma uring_balance_witness :
  (wirecall_backend_create true toy_uring_short).1 = Err /\
  let back s' := w_backend s' = None /\ heap_live (w_heap s') = heap_live (w_heap toy_uring_short) /\
                 ur_fds (w_kernel s') = ur_fds (w_kernel toy_uring_short) /\ ur_maps (w_kernel s') = ur_maps (w_kernel toy_uring_short) in
  (forall r s, wirecall_backend_create true toy_uring_short = (r, s) -> r = Ok tt \/ (r = Err /\ back s)) /\
  (forall s, uring_reach toy_uring_short s -> exists s', wirecall_backend_destroy s = (Ok tt, s') /\ back s').
Proof.
  split; [vm_compute; reflexivity |]. apply (uring_balance toy_uring_short).
  - reflexivity.
  - reflexivity.
  - apply toy_empty_inv.
Defined.

(** C31: the shape of a backend in use: after any calls the rings have the
    sizes, masks and indices the kernel works with, a descriptor has one watch,
    and everything the kernel holds or will report (submissions not taken,
    polls under way, completions not seen) carries NULL, the wake-up watch or
    the block of a watch of the list, which is allocated: a completion never
    leads to freed memory, however late it comes. *)
Theorem uring_well_formed `{Host} `{Heap W} `{Uring U} (s0 s : uworld W U) :
  size_bits = 64 -> w_backend s0 = None -> heap_inv (w_heap s0) -> uring_reach s0 s ->
  let b := the_backend s in
  exists r, bk_ring b = Some r /\ ring_shape r /\ NoDup (map fd_of (bk_watches b)) /\
    (forall q, q ∈ (bk_watches b).*1 -> q ∈ heap_live (w_heap s)) /\
    Forall (fun c => match c with CWatch q => q ∈ (bk_watches b).*1 | _ => True end) (in_kernel (ur_flying (bk_ring_fd b) (w_kernel s)) r).
Proof.
  intros H64 Hn Hi Hr. destruct (reach_alive s0 s H64 Hn Hi Hr) as (p & b & Ha). unfold the_backend. rewrite (here _ _ _ _ _ _ Ha).
  destruct (al_ring _ _ _ _ _ _ Ha) as (r & Hr1 & Hs & _ & Hk). exists r. split_and!; [done | done | apply Ha | | done].
  intros q Hq. destruct (al_parts _ _ _ _ _ _ Ha) as [_ (_ & _ & _ & ->) _ _]. apply elem_of_union. right. apply elem_of_list_to_set. by right.
Qed.

Lemma uring_well_formed_witness :
  let b := the_backend toy_uring_2 in
  exists r, bk_ring b = Some r /\ ring_shape r /\ NoDup (map fd_of (bk_watches b)) /\
    (forall q, q ∈ (bk_watches b).*1 -> q ∈ heap_live (w_heap toy_uring_2)) /\
    Forall (fun c => match c with CWatch q => q ∈ (bk_watches b).*1 | _ => True end) (in_kernel (ur_flying (bk_ring_fd b) (w_kernel toy_uring_2)) r).
Proof.
  apply (uring_well_formed toy_uring_0 toy_uring_2).
  - reflexivity.
  - reflexivity.
  - apply toy_empty_inv.
  - apply toy_uring_reach.
Defined.

(** ** A server on the backend *)
#[local] Existing Instance toy_limited | 0.
Definition uring_system : Type := system toy toy_pages toynet (backends toy toyuring wirecall_backend).

Definition uring_start (recvs : list toyrecv) (sends : list toysend) (accepts : list (option Z)) (frames : list (list (Z * Z))) : uring_system :=
  {| pr_server := None; pr_heap := toy_empty []; pr_pages := toy_pages_empty; pr_net := pr_net (toy_start recvs sends accepts []);
     pr_backend := {| bs_heap := toy_empty []; bs_kernel := toy_kernel frames; bs_table := ∅; bs_fault := false |}; pr_log := [] |}.
Definition uring_call (op : setup_op) : M uring_system unit := setup_exec 4096 4 (fun _ => (true, true)) op.

(** a server with one worker and one synchronous procedure, run for some turns *)
Definition uring_run (turns : nat) (s : uring_system) : res (option Z) * uring_system :=
  (wirecall_server_init 4096 4 true true ;;; uring_call (SSetWorkers 1) ;;; uring_call (SAddRoute (toy_name 97) (Some 7) 1 None) ;;;
   uring_call (SBind None (toy_name 48)) ;;; uring_call SListen ;;;
   wirecall_server_run 4096 toy_async (toy_sync toy_served) toy_deferred (fun _ => true) turns []) s.

(** one client: it connects, sends a request, takes the answer only after the
    server's first attempt to send it would have blocked, and hangs up *)
Definition slow_client : uring_system :=
  uring_start [TBytes toy_request; TErr EAGAIN; TErr EAGAIN; TBytes []] [TRefuse EAGAIN] [None; Some EAGAIN]
    [[(3, POLLIN)]; []; [(4, POLLIN); (4, POLLIN)]; []; [(4, POLLOUT); (4, POLLOUT); (4, POLLOUT); (4, POLLOUT)]; [];
     [(4, Z.lor POLLIN POLLRDHUP); (4, Z.lor POLLIN POLLRDHUP); (4, Z.lor POLLIN POLLRDHUP)]].

(** The backend breaks what the event loop relies on, that no event for a
    connection follows one that may close it: clearing [armed] for a completion that was
    already posted when its watch was cancelled and armed again makes the next
    arming a second poll of the same watch, and both are reported.  One client
    that stops reading for a moment and later hangs up is enough: within six
    turns all is well and the answer is delivered; in the seventh the first
    event of the batch destroys the connection and the second one uses it after
    it has been freed, without any fault inside the backend. *)
Theorem uring_reports_twice :
  (uring_run 6 slow_client).1 = Ok None /\ net_sent 4 (pr_net (uring_run 6 slow_client).2) = toy_packet WIRECALL_OP_RESPONSE (wirecall_proc_id (toy_name 97)) 1 (encode_values [toy_served]) /\ (4 ∈ net_open (pr_net (uring_run 6 slow_client).2)) /\
  (uring_run 7 slow_client).1 = UB /\ bs_fault (pr_backend (uring_run 7 slow_client).2) = false /\
  net_received 4 (pr_net (uring_run 7 slow_client).2) = toy_request /\ (4 ∉ net_open (pr_net (uring_run 7 slow_client).2)).
Proof. split_and!; by vm_compute. Qed.
