(* ===== verification/Kqueue.v ===== *)
(** * Kqueue: the kqueue backend (src/backend/kqueue.c)

    A backend is a block with the descriptor of a kqueue.  The kernel, a
    parameter, keeps the filters that are registered, one for an identifier and
    a kind, with the word they report: [kq_table].  A change with EV_ADD sets
    an entry, one with EV_DELETE removes it and fails only when there is none;
    a wait reports each entry at most once. *)

From stdpp Require Import strings.
From S2P Require Import Prelude Words Memory Net Connection BackendWorld.
#[global] Open Scope Z_scope.

Definition WIRECALL_KQUEUE_MAX_EVENTS : Z := 1024.
Definition EV_ADD : Z := 1.
Definition EV_DELETE : Z := 2.
Definition EV_ENABLE : Z := 4.
Definition EV_CLEAR : Z := 32.
Definition NOTE_TRIGGER : Z := 2 ^ 24.
Definition ENOENT : Z := 2.

Inductive kfilter := EVFILT_READ | EVFILT_WRITE | EVFILT_USER.
#[global] Instance kfilter_eq_dec : EqDecision kfilter.
Proof. solve_decision. Defined.
#[global] Instance kfilter_countable : Countable kfilter.
Proof.
  apply (inj_countable' (fun f => match f with EVFILT_READ => 0 | EVFILT_WRITE => 1 | EVFILT_USER => 2 end)%nat
           (fun n => match n with 0 => EVFILT_READ | 1 => EVFILT_WRITE | _ => EVFILT_USER end)%nat). by intros [].
Defined.

Record kevent := { ke_ident : Z; ke_filter : kfilter; ke_flags : Z; ke_fflags : Z; ke_udata : watch_user }.
Definition EV_SET (ident : Z) (filter : kfilter) (flags fflags : Z) (udata : watch_user) : kevent :=
  {| ke_ident := ident; ke_filter := filter; ke_flags := flags; ke_fflags := fflags; ke_udata := udata |}.

Notation filters := (gmap (Z * kfilter) watch_user).
Definition flagged (x flag : Z) : bool := negb (Z.land x flag =? 0).
Definition changed (c : kevent) (t : filters) : filters :=
  if flagged (ke_flags c) EV_ADD then <[(ke_ident c, ke_filter c) := ke_udata c]> t
  else if flagged (ke_flags c) EV_DELETE then delete (ke_ident c, ke_filter c) t
  else t.

Class Kqueue (U : Type) := {
  kq_open : U -> option Z * U;
  (** kevent with one change and no room for events: the error number *)
  kq_change : Z -> kevent -> U -> option Z * U;
  (** kevent without changes: the room, the timeout; events or the error number *)
  kq_wait : Z -> Z -> option (Z * Z) -> U -> (list kevent + Z) * U;
  kq_close : Z -> U -> U;

  kq_fds : U -> gset Z;
  kq_table : Z -> U -> filters;

  law_kq_open : forall u r u', kq_open u = (r, u') ->
    match r with
    | Some kq => 0 <= kq /\ (kq ∉ kq_fds u) /\ kq_fds u' = {[kq]} ∪ kq_fds u /\ kq_table kq u' = ∅ /\
                 (forall k, k <> kq -> kq_table k u' = kq_table k u)
    | None => kq_fds u' = kq_fds u /\ forall k, kq_table k u' = kq_table k u
    end;
  law_kq_change : forall kq c u r u', kq ∈ kq_fds u -> kq_change kq c u = (r, u') ->
    kq_fds u' = kq_fds u /\ (forall k, k <> kq -> kq_table k u' = kq_table k u) /\
    match r with
    | None => kq_table kq u' = changed c (kq_table kq u)
    | Some _ => kq_table kq u' = kq_table kq u /\
                (ke_flags c = EV_DELETE -> kq_table kq u !! (ke_ident c, ke_filter c) = None)
    end;
  law_kq_wait : forall kq n timeout u r u', kq ∈ kq_fds u -> 0 <= n -> kq_wait kq n timeout u = (r, u') ->
    kq_fds u' = kq_fds u /\ (forall k, kq_table k u' = kq_table k u) /\
    match r with
    | inl l => zlen l <= n /\ NoDup (map (fun e => (ke_ident e, ke_filter e)) l) /\
               Forall (fun e => kq_table kq u !! (ke_ident e, ke_filter e) = Some (ke_udata e)) l
    | inr _ => True
    end;
  law_kq_close : forall kq u, kq ∈ kq_fds u ->
    kq_fds (kq_close kq u) = kq_fds u ∖ {[kq]} /\ forall k, k <> kq -> kq_table k (kq_close kq u) = kq_table k u;
}.

(** ** The backend *)
Record wirecall_backend := { bk_kq : Z }.
Definition sizeof_wirecall_backend : Z := 4.

Notation kworld W U := (world W U wirecall_backend).

Section Kqueue.
Context `{HH : Host} `{HP : Heap W} `{UU : Kqueue U}.

(** 0 or -1, for the callers combine the results with bit operations *)
Definition apply_filter (fd : Z) (filter : kfilter) (flags : Z) (user : watch_user) : M (kworld W U) Z :=
  b <- get_bk ;;
  rc <- on_kernel (kq_change (bk_kq b) (EV_SET fd filter flags 0 user)) ;;
  match rc with
  | None => ret 0
  | Some errno => if (errno =? ENOENT) && flagged flags EV_DELETE then ret 0 else ret (-1)
  end.

Definition set_interest (fd events : Z) (user : watch_user) : M (kworld W U) unit :=
  r <- (if flagged events WIRECALL_BACKEND_READ then apply_filter fd EVFILT_READ (Z.lor EV_ADD EV_ENABLE) user
        else apply_filter fd EVFILT_READ EV_DELETE user) ;;
  w <- (if flagged events WIRECALL_BACKEND_WRITE then apply_filter fd EVFILT_WRITE (Z.lor EV_ADD EV_ENABLE) user
        else apply_filter fd EVFILT_WRITE EV_DELETE user) ;;
  if Z.lor (Z.lor 0 r) w =? 0 then ret tt else fail.

Definition kheap_free (p : Z) : M (kworld W U) unit := on_wheap (fun h => (tt, heap_free p h)).

Definition wirecall_backend_create (out : bool) : M (kworld W U) unit :=
  if negb out then fail
  else
    block <- on_wheap (heap_calloc 1 sizeof_wirecall_backend) ;;
    match block with
    | None => fail
    | Some p =>
        kq <- on_kernel kq_open ;;
        match kq with
        | None => kheap_free p ;;; fail
        | Some kq =>
            rc <- on_kernel (kq_change kq (EV_SET 1 EVFILT_USER (Z.lor EV_ADD EV_CLEAR) 0 (UConn 0))) ;;
            match rc with
            | Some _ => on_kernel (fun u => (tt, kq_close kq u)) ;;; kheap_free p ;;; fail
            | None => modify (set_bk (Some (p, {| bk_kq := kq |})))
            end
        end
    end.

Definition wirecall_backend_destroy : M (kworld W U) unit :=
  ok <- has_backend ;;
  if negb ok then ret tt
  else
    b <- get_bk ;;
    (if 0 <=? bk_kq b then on_kernel (fun u => (tt, kq_close (bk_kq b) u)) else ret tt) ;;;
    free_bk.

Definition wirecall_backend_register (fd events : Z) (user : watch_user) : M (kworld W U) unit :=
  ok <- has_backend ;;
  if negb ok || (fd <? 0) then fail else set_interest fd events user.

Definition wirecall_backend_modify (fd events : Z) (user : watch_user) : M (kworld W U) unit := wirecall_backend_register fd events user.

Definition wirecall_backend_remove (fd : Z) : M (kworld W U) unit :=
  ok <- has_backend ;;
  if negb ok || (fd <? 0) then fail
  else
    apply_filter fd EVFILT_READ EV_DELETE (UConn 0) ;;;
    apply_filter fd EVFILT_WRITE EV_DELETE (UConn 0) ;;;
    ret tt.

Definition wirecall_backend_wake : M (kworld W U) unit :=
  ok <- has_backend ;;
  if negb ok then fail
  else
    b <- get_bk ;;
    rc <- on_kernel (kq_change (bk_kq b) (EV_SET 1 EVFILT_USER 0 NOTE_TRIGGER (UConn 0))) ;;
    match rc with None => ret tt | Some _ => fail end.

(** the body of the loop over the events; [ident] is a descriptor, or 1 *)
Definition event_of (k : kevent) : wirecall_backend_event :=
  let ev := if bool_decide (ke_filter k = EVFILT_USER) then Z.lor 0 WIRECALL_BACKEND_WAKE else 0 in
  let ev := if bool_decide (ke_filter k = EVFILT_READ) then Z.lor ev WIRECALL_BACKEND_READ else ev in
  let ev := if bool_decide (ke_filter k = EVFILT_WRITE) then Z.lor ev WIRECALL_BACKEND_WRITE else ev in
  {| ev_fd := ke_ident k; ev_events := ev; ev_user := ke_udata k |}.

Definition wirecall_backend_poll (max_events timeout_ms : Z) : M (kworld W U) (list wirecall_backend_event) :=
  ok <- has_backend ;;
  if negb ok || (max_events <=? 0) then fail
  else
    let timeout := if 0 <=? timeout_ms then Some (Z.quot timeout_ms 1000, Z.rem timeout_ms 1000 * 1000000) else None in
    let limit := if max_events <? WIRECALL_KQUEUE_MAX_EVENTS then max_events else WIRECALL_KQUEUE_MAX_EVENTS in
    b <- get_bk ;;
    n <- on_kernel (kq_wait (bk_kq b) limit timeout) ;;
    match n with
    | inr errno => if errno =? EINTR then ret [] else fail
    | inl kev => ret (map event_of kev)
    end.

(** the events of a backend are those of [Backend]; server.c polls without a
    timeout *)
#[global] Instance kqueue_backend : Backend (backends W U wirecall_backend) := {|
  be_create i b := succeeds (with_backend i (wirecall_backend_create true) b);
  be_destroy i b := (with_backend i wirecall_backend_destroy b).2;
  be_register i fd events user b := succeeds (with_backend i (wirecall_backend_register fd events user) b);
  be_modify i fd events user b := succeeds (with_backend i (wirecall_backend_modify fd events user) b);
  be_remove i fd b := (with_backend i (wirecall_backend_remove fd) b).2;
  be_wake i b := (with_backend i wirecall_backend_wake b).2;
  be_poll i max b := with_backend i (wirecall_backend_poll max (-1)) b;
|}.
End Kqueue.
