(* ===== verification/KqueueProps.v ===== *)
(** * KqueueProps: what the kqueue backend promises

    [alive]: what a backend that has been created owns, and that the wake-up is
    registered.  Its operations against the table of filters; then its batches
    against the event loop of the server. *)

From stdpp Require Import strings.
From S2P Require Import Prelude Words CString Protocol Integrity Memory Payload Arena Routes Scheduler Net Client Connection ConnInv Server.
From S2P Require Import Lifecycle ServerInv ServerLoop LifecycleInv ServerProps.
From S2P Require Import BackendWorld Kqueue.
#[global] Open Scope Z_scope.

(** ** Calls *)
Inductive kqueue_op :=
| KRegister (fd events : Z) (user : watch_user)
| KModify (fd events : Z) (user : watch_user)
| KRemove (fd : Z)
| KWake
| KPoll (max_events timeout_ms : Z).

(** what an operation leaves of the entries of other descriptors, and of the wake-up *)
Definition elsewhere (fd : Z) (t t' : filters) : Prop := forall d f, d <> fd \/ f = EVFILT_USER -> t' !! (d, f) = t !! (d, f).
Definition wanted (events flag : Z) (user : watch_user) : option watch_user := if flagged events flag then Some user else None.

(** an entry is what it should be, or, when it should be there, what it was *)
Definition tried (k : Z * kfilter) (w : option watch_user) (t t' : filters) : Prop := t' !! k = w \/ (w <> None /\ t' !! k = t !! k).

(** an event of an entry of the table; a wake-up has no word *)
Definition event_from (t : filters) (e : wirecall_backend_event) : Prop :=
  match t !! (ev_fd e, EVFILT_READ), t !! (ev_fd e, EVFILT_WRITE) with
  | r, w => (ev_events e = WIRECALL_BACKEND_WAKE /\ ev_fd e = 1 /\ ev_user e = UConn 0) \/
            (ev_events e = WIRECALL_BACKEND_READ /\ r = Some (ev_user e)) \/ (ev_events e = WIRECALL_BACKEND_WRITE /\ w = Some (ev_user e))
  end.

Definition kqueue_spec (op : kqueue_op) (r : res (list wirecall_backend_event)) (t t' : filters) : Prop :=
  match op with
  | KRegister fd events user | KModify fd events user =>
      let r_ok := wanted events WIRECALL_BACKEND_READ user in
      let w_ok := wanted events WIRECALL_BACKEND_WRITE user in
      match r with
      | Ok l => l = [] /\ 0 <= fd /\ elsewhere fd t t' /\ t' !! (fd, EVFILT_READ) = r_ok /\ t' !! (fd, EVFILT_WRITE) = w_ok
      | Err => (fd < 0 /\ t' = t) \/
               (0 <= fd /\ elsewhere fd t t' /\ tried (fd, EVFILT_READ) r_ok t t' /\ tried (fd, EVFILT_WRITE) w_ok t t')
      | UB => False
      end
  | KRemove fd =>
      match r with
      | Ok l => l = [] /\ 0 <= fd /\ elsewhere fd t t' /\ t' !! (fd, EVFILT_READ) = None /\ t' !! (fd, EVFILT_WRITE) = None
      | Err => fd < 0 /\ t' = t
      | UB => False
      end
  | KWake => match r with Ok l => l = [] /\ t' = t | Err => t' = t | UB => False end
  | KPoll max_events _ =>
      match r with
      | Ok l => t' = t /\ zlen l <= max_events /\ NoDup (map (fun e => (ev_fd e, ev_events e)) l) /\ Forall (event_from t) l
      | Err => t' = t
      | UB => False
      end
  end.

Section Calls.
Context `{HH : Host} `{HP : Heap W} `{UU : Kqueue U}.
Implicit Types (s : kworld W U).

Definition kqueue_exec (op : kqueue_op) : M (kworld W U) (list wirecall_backend_event) :=
  match op with
  | KRegister fd events user => wirecall_backend_register fd events user ;;; ret []
  | KModify fd events user => wirecall_backend_modify fd events user ;;; ret []
  | KRemove fd => wirecall_backend_remove fd ;;; ret []
  | KWake => wirecall_backend_wake ;;; ret []
  | KPoll max_events timeout_ms => wirecall_backend_poll max_events timeout_ms
  end.

(** created from [s0], then any calls, whatever their results *)
Inductive kqueue_reach s0 : kworld W U -> Prop :=
| kqueue_created s : wirecall_backend_create true s0 = (Ok tt, s) -> kqueue_reach s0 s
| kqueue_called s op r s' : kqueue_reach s0 s -> kqueue_exec op s = (r, s') -> kqueue_reach s0 s'.

Definition the_table s : filters := match w_backend s with Some (_, b) => kq_table (bk_kq b) (w_kernel s) | None => ∅ end.

Section Reach.
Hypothesis H64 : size_bits = 64.
Variables (base fds : gset Z).

Record alive (p kq : Z) s : Prop := {
  ka_here : w_backend s = Some (p, {| bk_kq := kq |});
  ka_heap : owns base [p] (w_heap s);
  ka_kq : 0 <= kq /\ kq ∉ fds;
  ka_fds : kq_fds (w_kernel s) = {[kq]} ∪ fds;
  ka_wake : forall d user, the_table s !! (d, EVFILT_USER) = Some user -> d = 1 /\ user = UConn 0;
}.

Lemma alive_table p kq s : alive p kq s -> the_table s = kq_table kq (w_kernel s).
Proof. intros Ha. unfold the_table. by rewrite (ka_here _ _ _ Ha). Qed.

Lemma alive_open p kq s : alive p kq s -> kq ∈ kq_fds (w_kernel s).
Proof. intros Ha. rewrite (ka_fds _ _ _ Ha). set_solver. Qed.

(** the kernel moves on: the descriptors stay, the wake-up's entries are the same or known *)
Lemma alive_kernel p kq s u :
  alive p kq s -> kq_fds u = kq_fds (w_kernel s) ->
  (forall d user, kq_table kq u !! (d, EVFILT_USER) = Some user -> d = 1 /\ user = UConn 0) -> alive p kq (set_kernel u s).
Proof.
  intros [Hb Hh Hk Hf Hw] Hu Ht. constructor; try done; [cbn; congruence |]. unfold the_table. cbn. by rewrite Hb.
Qed.

(** *** One filter *)

(** a change of the entry [k] towards [w]; 0 when it is made *)
Definition filter_step (k : Z * kfilter) (w : option watch_user) (rc : Z) (t t' : filters) : Prop :=
  (forall k', k' <> k -> t' !! k' = t !! k') /\ (rc = 0 /\ t' !! k = w \/ rc = -1 /\ tried k w t t').

Lemma changed_add (fd : Z) (f : kfilter) (user : watch_user) (t : filters) : changed (EV_SET fd f (Z.lor EV_ADD EV_ENABLE) 0 user) t = <[(fd, f) := user]> t.
Proof. done. Qed.
Lemma changed_delete (fd : Z) (f : kfilter) (user : watch_user) (t : filters) : changed (EV_SET fd f EV_DELETE 0 user) t = delete (fd, f) t.
Proof. done. Qed.

Lemma kapply_filter_spec p kq s fd f (add : bool) user E :
  alive p kq s -> f <> EVFILT_USER ->
  wp (if add then apply_filter fd f (Z.lor EV_ADD EV_ENABLE) user else apply_filter fd f EV_DELETE user)
    (fun rc s' => alive p kq s' /\ filter_step (fd, f) (if add then Some user else None) rc (the_table s) (the_table s') /\
                  (add = false -> the_table s' !! (fd, f) = None)) E s.
Proof.
  intros Ha Hf. set (flags := if add then Z.lor EV_ADD EV_ENABLE else EV_DELETE).
  assert (Hgo : wp (apply_filter fd f flags user)
    (fun rc s' => alive p kq s' /\ filter_step (fd, f) (if add then Some user else None) rc (the_table s) (the_table s') /\
                  (add = false -> the_table s' !! (fd, f) = None)) E s); [| by subst flags; destruct add].
  unfold apply_filter. apply wp_bind. eapply wp_get_bk; [by eapply ka_here |]. cbn [bk_kq]. apply wp_bind, wp_kernel. intros r u Ec.
  destruct (law_kq_change _ _ _ _ _ (alive_open _ _ _ Ha) Ec) as (Hu & _ & Ht).
  assert (Hwake : forall d us, kq_table kq u !! (d, EVFILT_USER) = Some us -> d = 1 /\ us = UConn 0).
  { intros d us Hd. apply (ka_wake _ _ _ Ha d us). rewrite (alive_table _ _ _ Ha). rewrite <- Hd. destruct r as [e|].
    - destruct Ht as [-> _]. done.
    - rewrite Ht. subst flags. destruct add; [rewrite changed_add, lookup_insert_ne | rewrite changed_delete, lookup_delete_ne]; congruence. }
  pose proof (alive_kernel _ _ _ _ Ha Hu Hwake) as Ha'.
  assert (Hsame : forall rc, wp (ret rc) (fun rc s' => alive p kq s' /\ filter_step (fd, f) (if add then Some user else None) rc (the_table s) (the_table s') /\
                  (add = false -> the_table s' !! (fd, f) = None)) E (set_kernel u s) <->
    filter_step (fd, f) (if add then Some user else None) rc (kq_table kq (w_kernel s)) (kq_table kq u) /\ (add = false -> kq_table kq u !! (fd, f) = None)).
  { intros rc. unfold wp, ret. rewrite (alive_table _ _ _ Ha), (alive_table _ _ _ Ha'). cbn. naive_solver. }
  destruct r as [e|].
  - destruct Ht as [Ht Hdel]. cbn in Hdel. destruct add; subst flags; cbn [ke_ident EV_SET] in *.
    + replace (flagged (Z.lor EV_ADD EV_ENABLE) EV_DELETE) with false by done. rewrite andb_false_r. apply Hsame. rewrite Ht.
      split; [| done]. split; [done |]. right. split; [done |]. by right.
    + specialize (Hdel eq_refl). destruct (_ && _); apply Hsame; rewrite Ht; (split; [split; [done |] | done]); [by left | right; split; [done | by left]].
  - apply Hsame. rewrite Ht. destruct add; subst flags; [rewrite changed_add | rewrite changed_delete].
    + split; [| done]. split; [intros k' Hk; by rewrite lookup_insert_ne |]. left. by rewrite lookup_insert_eq.
    + split; [| intros _; apply lookup_delete_eq]. split; [intros k' Hk; by rewrite lookup_delete_ne |]. left. split; [done | apply lookup_delete_eq].
Qed.

(** two steps for the two directions of a descriptor *)
Lemma filter_steps (fd : Z) (rw ww : option watch_user) (rc1 rc2 : Z) (t t1 t2 : filters) :
  filter_step (fd, EVFILT_READ) rw rc1 t t1 -> filter_step (fd, EVFILT_WRITE) ww rc2 t1 t2 ->
  elsewhere fd t t2 /\ tried (fd, EVFILT_READ) rw t t2 /\ tried (fd, EVFILT_WRITE) ww t t2 /\
  (Z.lor (Z.lor 0 rc1) rc2 = 0 -> t2 !! (fd, EVFILT_READ) = rw /\ t2 !! (fd, EVFILT_WRITE) = ww).
Proof.
  intros [H1 C1] [H2 C2]. assert (Er : t2 !! (fd, EVFILT_READ) = t1 !! (fd, EVFILT_READ)) by (apply H2; congruence).
  assert (Ew : t1 !! (fd, EVFILT_WRITE) = t !! (fd, EVFILT_WRITE)) by (apply H1; congruence). unfold tried in *. rewrite Er. rewrite Ew in C2. split_and!.
  - intros d f Hd. assert ((d, f) <> (fd, EVFILT_READ) /\ (d, f) <> (fd, EVFILT_WRITE)) as [? ?].
    { split; intros [= -> ->]; by destruct Hd. }
    by rewrite H2, H1.
  - destruct C1 as [[_ C1] | [_ C1]]; [by left | done].
  - destruct C2 as [[_ C2] | [_ C2]]; [by left | done].
  - intros Hz. destruct C1 as [[-> C1] | [-> _]], C2 as [[-> C2] | [-> _]]; done.
Qed.

Lemma kset_interest_spec p kq s fd events user :
  alive p kq s ->
  let rw := wanted events WIRECALL_BACKEND_READ user in
  let ww := wanted events WIRECALL_BACKEND_WRITE user in
  wp (set_interest fd events user)
    (fun _ s' => alive p kq s' /\ elsewhere fd (the_table s) (the_table s') /\
       the_table s' !! (fd, EVFILT_READ) = rw /\ the_table s' !! (fd, EVFILT_WRITE) = ww)
    (fun s' => alive p kq s' /\ elsewhere fd (the_table s) (the_table s') /\
       tried (fd, EVFILT_READ) rw (the_table s) (the_table s') /\ tried (fd, EVFILT_WRITE) ww (the_table s) (the_table s')) s.
Proof.
  intros Ha rw ww. unfold set_interest. apply wp_bind. eapply wp_mono; [by apply (kapply_filter_spec p kq s fd EVFILT_READ) | | intros s'; exact (fun H => H)].
  intros rc1 s1 (Ha1 & F1 & _). apply wp_bind. eapply wp_mono; [by apply (kapply_filter_spec p kq s1 fd EVFILT_WRITE) | | intros s'; exact (fun H => H)].
  intros rc2 s2 (Ha2 & F2 & _). destruct (filter_steps _ _ _ _ _ _ _ _ F1 F2) as (G1 & G2 & G3 & G4).
  apply wp_if; intros Hz; zb; [apply wp_ret; split_and!; [done | done | by apply G4 ..] | by apply wp_fail].
Qed.

Lemma kregister_spec p kq s fd events user :
  alive p kq s ->
  wp (wirecall_backend_register fd events user ;;; ret [])
    (fun l s' => alive p kq s' /\ kqueue_spec (KRegister fd events user) (Ok l) (the_table s) (the_table s'))
    (fun s' => alive p kq s' /\ kqueue_spec (KRegister fd events user) Err (the_table s) (the_table s')) s.
Proof.
  intros Ha. unfold wirecall_backend_register. apply wp_bind, wp_bind. eapply wp_has_backend; [by eapply ka_here |]. cbn [negb orb kqueue_spec].
  apply wp_if; intros Hfd; zb; [apply wp_fail; by auto |].
  eapply wp_mono; [by apply kset_interest_spec | |].
  - intros _ s' (Ha' & G1 & G2 & G3). apply wp_ret. done.
  - intros s' (Ha' & G1 & G2 & G3). split; [done |]. by right.
Qed.

Lemma kremove_spec p kq s fd :
  alive p kq s ->
  wp (wirecall_backend_remove fd ;;; ret [])
    (fun l s' => alive p kq s' /\ kqueue_spec (KRemove fd) (Ok l) (the_table s) (the_table s'))
    (fun s' => alive p kq s' /\ kqueue_spec (KRemove fd) Err (the_table s) (the_table s')) s.
Proof.
  intros Ha. unfold wirecall_backend_remove. apply wp_bind, wp_bind. eapply wp_has_backend; [by eapply ka_here |]. cbn [negb orb kqueue_spec].
  apply wp_if; intros Hfd; zb; [by apply wp_fail |].
  apply wp_bind. eapply wp_mono; [by apply (kapply_filter_spec p kq s fd EVFILT_READ false) | | intros s'; exact (fun H => H)].
  intros rc1 s1 (Ha1 & F1 & D1). apply wp_bind. eapply wp_mono; [by apply (kapply_filter_spec p kq s1 fd EVFILT_WRITE false) | | intros s'; exact (fun H => H)].
  intros rc2 s2 (Ha2 & F2 & D2). apply wp_ret, wp_ret. destruct (filter_steps _ _ _ _ _ _ _ _ F1 F2) as (G1 & _).
  split_and!; [done | done | done | done | | by apply D2]. rewrite (proj1 F2) by congruence. by apply D1.
Qed.

Lemma kwake_spec p kq s :
  alive p kq s ->
  wp (wirecall_backend_wake ;;; ret []) (fun l s' => alive p kq s' /\ kqueue_spec KWake (Ok l) (the_table s) (the_table s'))
    (fun s' => alive p kq s' /\ kqueue_spec KWake Err (the_table s) (the_table s')) s.
Proof.
  intros Ha. unfold wirecall_backend_wake. apply wp_bind, wp_bind. eapply wp_has_backend; [by eapply ka_here |]. cbn [negb].
  apply wp_bind. eapply wp_get_bk; [by eapply ka_here |]. cbn [bk_kq]. apply wp_bind, wp_kernel. intros r u Ec.
  destruct (law_kq_change _ _ _ _ _ (alive_open _ _ _ Ha) Ec) as (Hu & _ & Ht).
  assert (Et : kq_table kq u = kq_table kq (w_kernel s)) by (destruct r; [apply Ht | rewrite Ht; done]).
  assert (Ha' : alive p kq (set_kernel u s)).
  { apply alive_kernel; [done | done |]. rewrite Et, <- (alive_table _ _ _ Ha). apply (ka_wake _ _ _ Ha). }
  destruct r; [apply wp_fail | apply wp_ret, wp_ret]; rewrite (alive_table _ _ _ Ha), (alive_table _ _ _ Ha'); done.
Qed.

Lemma event_of_from kq u e : (forall d user, kq_table kq u !! (d, EVFILT_USER) = Some user -> d = 1 /\ user = UConn 0) ->
  kq_table kq u !! (ke_ident e, ke_filter e) = Some (ke_udata e) -> event_from (kq_table kq u) (event_of e).
Proof.
  intros Hw He. unfold event_from, event_of. destruct e as [i f fl ff ud]. cbn [ke_ident ke_filter ke_udata ev_fd ev_events ev_user] in *. destruct f; cbn -[lookup].
  - right. by left.
  - right. by right.
  - left. by destruct (Hw i ud He) as [-> ->].
Qed.

Lemma event_of_key l : NoDup (map (fun e => (ke_ident e, ke_filter e)) l) -> NoDup (map (fun e => (ev_fd e, ev_events e)) (map event_of l)).
Proof.
  induction l as [|e l IH]; [intros _; constructor |]. cbn [map]. intros [He Hl]%list.NoDup_cons. apply list.NoDup_cons. split; [| by apply IH].
  intros Hin. apply He. rewrite map_map in Hin. apply list_elem_of_In, in_map_iff in Hin as (e' & Ee & Hin). apply list_elem_of_In, in_map_iff. exists e'.
  split; [| done]. destruct e as [i f ? ? ?], e' as [i' f' ? ? ?]. unfold event_of in Ee. cbn in Ee. injection Ee as Ei Ef. cbn. rewrite Ei. f_equal. by destruct f, f'.
Qed.

Lemma kpoll_spec p kq s max timeout :
  alive p kq s ->
  wp (wirecall_backend_poll max timeout) (fun l s' => alive p kq s' /\ kqueue_spec (KPoll max timeout) (Ok l) (the_table s) (the_table s'))
    (fun s' => alive p kq s' /\ kqueue_spec (KPoll max timeout) Err (the_table s) (the_table s')) s.
Proof.
  intros Ha. unfold wirecall_backend_poll. apply wp_bind. eapply wp_has_backend; [by eapply ka_here |]. cbn [negb orb kqueue_spec].
  apply wp_if; intros Hm; zb; [by apply wp_fail |].
  apply wp_bind. eapply wp_get_bk; [by eapply ka_here |]. cbn [bk_kq]. apply wp_bind, wp_kernel. intros r u Ec.
  set (limit := if max <? _ then _ else _) in Ec. assert (Hlim : 0 <= limit <= max) by (subst limit; destruct (Z.ltb_spec max WIRECALL_KQUEUE_MAX_EVENTS); unfold WIRECALL_KQUEUE_MAX_EVENTS in *; lia).
  destruct (law_kq_wait _ _ _ _ _ _ (alive_open _ _ _ Ha) (proj1 Hlim) Ec) as (Hu & Ht & Hr).
  assert (Ha' : alive p kq (set_kernel u s)).
  { apply alive_kernel; [done | done |]. rewrite Ht, <- (alive_table _ _ _ Ha). apply (ka_wake _ _ _ Ha). }
  assert (Et : the_table (set_kernel u s) = the_table s) by (rewrite (alive_table _ _ _ Ha), (alive_table _ _ _ Ha'); apply Ht).
  destruct r as [l|e].
  - destruct Hr as (Hl & Hn & Hf). apply wp_ret. split_and!; [done | done | | by apply event_of_key |].
    + unfold zlen in *. rewrite length_map. lia.
    + apply list.Forall_forall. intros e He. apply list_elem_of_In, in_map_iff in He as (k & <- & Hk). apply list_elem_of_In in Hk.
      rewrite (alive_table _ _ _ Ha). apply event_of_from; [| by eapply (proj1 (list.Forall_forall _ _) Hf)].
      intros d user. rewrite <- (alive_table _ _ _ Ha). apply (ka_wake _ _ _ Ha).
  - apply wp_if; intros _; [apply wp_ret | by apply wp_fail]. split_and!; [done | done | change (zlen (@nil wirecall_backend_event)) with 0; lia | constructor | constructor].
Qed.

Lemma kqueue_exec_spec p kq s op :
  alive p kq s ->
  wp (kqueue_exec op) (fun l s' => alive p kq s' /\ kqueue_spec op (Ok l) (the_table s) (the_table s'))
    (fun s' => alive p kq s' /\ kqueue_spec op Err (the_table s) (the_table s')) s.
Proof.
  intros Ha. destruct op; [by apply kregister_spec | by apply kregister_spec | by apply kremove_spec | by apply kwake_spec | by apply kpoll_spec].
Qed.

(** *** Creating and destroying *)
Definition blank s : Prop := w_backend s = None /\ owns base [] (w_heap s) /\ kq_fds (w_kernel s) = fds.

Lemma kcreate_spec s : blank s -> wp (wirecall_backend_create true) (fun _ s' => exists p kq, alive p kq s') blank s.
Proof.
  intros (Hn & Ho & Hf). unfold wirecall_backend_create. cbn [negb]. apply wp_bind. apply wp_wheap. intros r h Ec. apply (owns_calloc base []) in Ec; [| done | by_compute | done].
  destruct r as [p|]; [| by apply wp_fail]. cbn [option_list app] in Ec. apply wp_bind, wp_kernel. intros kq u Eq.
  pose proof (law_kq_open _ _ _ Eq) as L. cbn [set_wheap w_kernel] in L. assert (Hback : forall u', kq_fds u' = fds ->
    wp (kheap_free p ;;; fail (A := unit)) (fun _ s' => exists p kq, alive p kq s') blank (set_kernel u' (set_kernel u (set_wheap h s)))).
  { intros u' Hu'. apply wp_bind. apply wp_wheap. intros ? h2 [= _ <-]. apply wp_fail. split_and!; [done | by apply (owns_free _ p) | done]. }
  destruct kq as [kq|]; [| apply (Hback u); by destruct L as [-> _]]. destruct L as (Hk & Hfresh & Hu & Ht & _).
  apply wp_bind, wp_kernel. intros rc u2 Ew. cbn [set_kernel w_kernel] in Ew. assert (Hin : kq ∈ kq_fds u) by (rewrite Hu; set_solver).
  destruct (law_kq_change _ _ _ _ _ Hin Ew) as (Hu2 & _ & Ht2). rewrite Hf in *. destruct rc as [e|].
  - apply wp_bind, wp_kernel. intros ? u3 [= _ <-]. cbn [set_kernel w_kernel]. apply (Hback (kq_close kq u2)).
    destruct (law_kq_close kq u2) as [-> _]; [by rewrite Hu2 |]. rewrite Hu2, Hu. set_solver.
  - unfold wp, modify. exists p, kq. constructor; cbn; [done | done | done | by rewrite Hu2, Hu |].
    unfold the_table. cbn. rewrite Ht2, Ht. intros d user. change (changed _ ∅) with (<[(1, EVFILT_USER) := UConn 0]> ∅ : filters).
    rewrite lookup_insert_Some, lookup_empty. by intros [[[= <-] <-] | [_ ?]].
Qed.

Lemma kdestroy_spec p kq s E : alive p kq s -> wp wirecall_backend_destroy (fun _ => blank) E s.
Proof.
  intros Ha. pose proof Ha as [Hb Hh [Hk Hn] Hf _]. unfold wirecall_backend_destroy. apply wp_bind. eapply wp_has_backend; [by eapply ka_here |]. cbn [negb].
  apply wp_bind. eapply wp_get_bk; [by eapply ka_here |]. cbn [bk_kq]. apply wp_bind, wp_if; intros Hz; zb; [| lia]. apply wp_kernel. intros ? u [= _ <-].
  eapply wp_free_bk; [exact Hb |]. split_and!; [done | by apply (owns_free _ p) |]. cbn. destruct (law_kq_close kq (w_kernel s)) as [-> _]; [by eapply alive_open |].
  rewrite Hf. set_solver.
Qed.
End Reach.

Lemma kqueue_reach_alive s0 s : size_bits = 64 -> w_backend s0 = None -> heap_inv (w_heap s0) -> kqueue_reach s0 s ->
  exists p kq, alive (heap_live (w_heap s0)) (kq_fds (w_kernel s0)) p kq s.
Proof.
  intros H64 Hn Hi Hr. induction Hr as [s E|s op r s' Hr (p & b & Ha) E].
  - assert (Hb : blank (heap_live (w_heap s0)) (kq_fds (w_kernel s0)) s0) by (split_and!; [done | by apply owns_start | done]).
    apply (wp_run _ _ _ _ _ _ E (kcreate_spec H64 _ _ s0 Hb)).
  - pose proof (wp_run _ _ _ _ _ _ E (kqueue_exec_spec H64 _ _ p b s op Ha)) as Hx. destruct r as [l| |]; [| | done]; destruct Hx as (Ha' & _); by exists p, b.
Qed.
End Calls.

(** ** Batches and the event loop *)
Section Batches.
Context `{HH : Host} `{HP : Heap W} `{PP : Pages P} `{NN : Net K} `{BB : Backend B}.
Implicit Types (k : worker (W := W) (P := P) (K := K) (B := B)) (t : filters).

(** the filters of a worker: those of a descriptor name the live connection
    that has it, or a listener; a connection that is watched for writing has
    data to send *)
Record kqueue_watches (fbase : gset Z) k t : Prop := {
  kw_live : forall d f p, f <> EVFILT_USER -> t !! (d, f) = Some (UConn p) ->
    exists c, conns (s_client k) !! p = Some c /\ cn_detached c = false /\ cn_fd c = d;
  kw_listens : forall d f fd, f <> EVFILT_USER -> t !! (d, f) = Some (UListener fd) -> fd ∈ fbase;
  kw_data : forall d p, t !! (d, EVFILT_WRITE) = Some (UConn p) -> sends_data k p;
}.

(** an event that is not a wake-up comes from one of the two filters *)
Lemma event_from_filter t e :
  event_from t e -> (event_conn e = None /\ ev_events e = WIRECALL_BACKEND_WAKE) \/
    exists f, f <> EVFILT_USER /\ t !! (ev_fd e, f) = Some (ev_user e) /\ one_way e /\
      ev_events e = (if decide (f = EVFILT_READ) then WIRECALL_BACKEND_READ else WIRECALL_BACKEND_WRITE) /\
      event_conn e = (match ev_user e with UConn p => Some p | UListener _ => None end).
Proof.
  unfold event_from, event_conn, one_way, event_wants. intros [(He & _ & Hu) | [[He Ht] | [He Ht]]]; rewrite He.
  - by left.
  - right. exists EVFILT_READ. done.
  - right. exists EVFILT_WRITE. done.
Qed.

Lemma kqueue_event_ok fbase k t e : kqueue_watches fbase k t -> event_from t e -> event_ok fbase k e.
Proof.
  intros [Hlive Hlist _] [[Hn He] | (f & Hf & Ht & _ & He & Hc)]%event_from_filter; unfold event_ok; rewrite He; [done |].
  replace (negb _) with false by (by case_decide). destruct (ev_user e) as [p|fd].
  - destruct (Hlive _ _ _ Hf Ht) as (c & ? & ? & _). by exists c.
  - by eapply Hlist.
Qed.

(** the events of one connection have its descriptor and different directions *)
Lemma kqueue_events_for fbase k t l p :
  kqueue_watches fbase k t -> NoDup (map (fun e => (ev_fd e, ev_events e)) l) -> Forall (event_from t) l ->
  exists d, events_for p l ⊆ l /\ NoDup (map ev_events (events_for p l)) /\
    Forall (fun e => ev_fd e = d /\ one_way e /\ (ev_events e = WIRECALL_BACKEND_READ \/ (ev_events e = WIRECALL_BACKEND_WRITE /\ sends_data k p))) (events_for p l).
Proof.
  intros Hw Hnd Hall. destruct (conns (s_client k) !! p) as [c|] eqn:Ec.
  - exists (cn_fd c). assert (Hf : Forall (fun e => ev_fd e = cn_fd c /\ one_way e /\
      (ev_events e = WIRECALL_BACKEND_READ \/ (ev_events e = WIRECALL_BACKEND_WRITE /\ sends_data k p))) (events_for p l)).
    { apply list.Forall_forall. intros e [Hp He]%list_elem_of_filter. pose proof (proj1 (list.Forall_forall _ _) Hall e He) as Hfrom.
      apply event_from_filter in Hfrom as [[Hn _] | (f & Hf & Ht & Ho & Hev & Hc)]; [congruence |]. rewrite Hp in Hc.
      destruct (ev_user e) as [q|]; [| done]. injection Hc as <-. destruct (kw_live _ _ _ Hw _ _ _ Hf Ht) as (c' & Hc' & _ & Hfd).
      split_and!; [congruence | done |]. case_decide; [by left | right]. split; [done |]. apply (kw_data _ _ _ Hw (ev_fd e)). by destruct f. }
    split; [intros e [_ He]%list_elem_of_filter; done |]. split; [| done]. clear Hall. induction l as [|e l IH]; [constructor |].
    cbn [map] in Hnd. apply list.NoDup_cons in Hnd as [He Hnd]. rewrite events_for_cons in *. case_decide as Hp; [| by apply IH].
    apply list.Forall_cons in Hf as [[Hfd _] Hf]. cbn [map]. apply list.NoDup_cons. split; [| by apply IH]. intros Hin. apply He.
    apply list_elem_of_In, in_map_iff in Hin as (e' & Ee & Hin). apply list_elem_of_In in Hin. apply list_elem_of_In, in_map_iff. exists e'.
    split; [| by apply list_elem_of_In; apply list_elem_of_filter in Hin as [_ ?]]. rewrite Ee. f_equal.
    destruct (proj1 (list.Forall_forall _ _) Hf e' Hin) as [-> _]. done.
  - exists 0. assert (Hn : events_for p l = []).
    { destruct (events_for p l) as [|e m] eqn:El; [done |]. assert (Hin : e ∈ events_for p l) by (rewrite El; by left).
      apply list_elem_of_filter in Hin as [Hp He]. pose proof (kqueue_event_ok _ _ _ _ Hw (proj1 (list.Forall_forall _ _) Hall e He)) as Hok.
      unfold event_ok in Hok. unfold event_conn in Hp. destruct (negb _); [done |]. destruct (ev_user e); [| done]. injection Hp as ->. destruct Hok as (? & ? & _). congruence. }
    rewrite Hn. split_and!; [set_solver | constructor | constructor].
Qed.

Lemma kqueue_batch_ok fbase k t l :
  kqueue_watches fbase k t -> NoDup (map (fun e => (ev_fd e, ev_events e)) l) -> Forall (event_from t) l -> batch_ok fbase k l.
Proof.
  intros Hw Hnd Hall. split; [eapply list.Forall_impl; [exact Hall |]; intros e; by apply kqueue_event_ok |].
  intros p. destruct (kqueue_events_for fbase k t l p Hw Hnd Hall) as (d & _ & Hn & Hf). destruct (events_for p l) as [|e1 [|e2 [|e3 m]]]; [left; cbn; lia | left; cbn; lia | |].
  - right. split; [done |]. split; [eapply list.Forall_impl; [exact Hf |]; by intros e (_ & ? & _) |].
    apply list.Forall_cons in Hf as [(_ & _ & [E1 | [_ ?]]) Hf]; [| done]. apply list.Forall_cons in Hf as [(_ & _ & [E2 | [_ ?]]) _]; [| done].
    cbn in Hn. rewrite E1, E2 in Hn. apply list.NoDup_cons in Hn as [Hn _]. destruct Hn. by left.
  - exfalso. repeat (apply list.Forall_cons in Hf as [(_ & _ & ?) Hf]). cbn [map] in Hn.
    apply list.NoDup_cons in Hn as [Hn1 Hn]. apply list.NoDup_cons in Hn as [Hn2 _]. rewrite !elem_of_cons in *. naive_solver congruence.
Qed.
End Batches.

(** ** A scripted kernel *)
Record toykqueue := {
  (** the filters that are ready at each wait *)
  tq_frames : list (list (Z * kfilter));
  tq_fds : gset Z;
  tq_tables : gmap Z filters;
  (** the errors of kqueue and of additions; success when used up *)
  tq_errors : list (option Z);
}.

Definition tq_set (fds : gset Z) (tables : gmap Z filters) (u : toykqueue) : toykqueue :=
  {| tq_frames := tq_frames u; tq_fds := fds; tq_tables := tables; tq_errors := tl (tq_errors u) |}.
Definition tq_table (kq : Z) (u : toykqueue) : filters := default ∅ (tq_tables u !! kq).
Definition tq_next (u : toykqueue) : option Z := default None (head (tq_errors u)).

Definition tq_open (u : toykqueue) : option Z * toykqueue :=
  match tq_next u with
  | Some _ => (None, tq_set (tq_fds u) (tq_tables u) u)
  | None => let kq := fresh_above (elements (tq_fds u)) in (Some kq, tq_set ({[kq]} ∪ tq_fds u) (<[kq := ∅]> (tq_tables u)) u)
  end.
Definition tq_change (kq : Z) (c : kevent) (u : toykqueue) : option Z * toykqueue :=
  let u' := {| tq_frames := tq_frames u; tq_fds := tq_fds u; tq_tables := <[kq := changed c (tq_table kq u)]> (tq_tables u); tq_errors := tq_errors u |} in
  if flagged (ke_flags c) EV_ADD then
    match tq_next u with
    | Some e => (Some e, tq_set (tq_fds u) (tq_tables u) u)
    | None => (None, tq_set (tq_fds u) (tq_tables u') u)
    end
  else match tq_table kq u !! (ke_ident c, ke_filter c) with None => (Some ENOENT, u) | Some _ => (None, u') end.

(** those of the frame that are registered, each once *)
Fixpoint tq_ready (t : filters) (l : list (Z * kfilter)) : list kevent :=
  match l with
  | [] => []
  | k :: rest =>
      match t !! k with
      | Some ud => {| ke_ident := k.1; ke_filter := k.2; ke_flags := 0; ke_fflags := 0; ke_udata := ud |} :: tq_ready (delete k t) rest
      | None => tq_ready t rest
      end
  end.
Definition tq_wait (kq n : Z) (timeout : option (Z * Z)) (u : toykqueue) : (list kevent + Z) * toykqueue :=
  match tq_frames u with
  | [] => (inr 5, u)
  | f :: rest =>
      (inl (take (Z.to_nat n) (tq_ready (tq_table kq u) f)),
       {| tq_frames := rest; tq_fds := tq_fds u; tq_tables := tq_tables u; tq_errors := tq_errors u |})
  end.
Definition tq_close (kq : Z) (u : toykqueue) : toykqueue :=
  {| tq_frames := tq_frames u; tq_fds := tq_fds u ∖ {[kq]}; tq_tables := delete kq (tq_tables u); tq_errors := tq_errors u |}.

Lemma tq_ready_ok t l :
  NoDup (map (fun e => (ke_ident e, ke_filter e)) (tq_ready t l)) /\
  Forall (fun e => t !! (ke_ident e, ke_filter e) = Some (ke_udata e)) (tq_ready t l).
Proof.
  revert t. induction l as [|k l IH]; intros t; cbn [tq_ready]; [split; constructor |].
  destruct (t !! k) as [ud|] eqn:Ek; [| apply IH]. destruct (IH (delete k t)) as [Hn Hf]. destruct k as [i f]. split.
  - cbn [map ke_ident ke_filter fst snd]. apply list.NoDup_cons. split; [| done]. intros Hin.
    apply list_elem_of_In, in_map_iff in Hin as (e & Ee & Hin). apply list_elem_of_In in Hin.
    pose proof (proj1 (list.Forall_forall _ _) Hf e Hin) as He. cbn in He. rewrite Ee, lookup_delete_eq in He. done.
  - apply list.Forall_cons. split; [done |]. eapply list.Forall_impl; [exact Hf |]. intros e He. cbn in He. by apply lookup_delete_Some in He as [_ ?].
Qed.

Lemma tq_table_set kq k t fds (u : toykqueue) : tq_table k (tq_set fds (<[kq := t]> (tq_tables u)) u) = if decide (k = kq) then t else tq_table k u.
Proof. unfold tq_table. cbn. case_decide as E; [subst; by rewrite lookup_insert_eq | by rewrite lookup_insert_ne]. Qed.

#[global] Program Instance toy_kqueue : Kqueue toykqueue := {|
  kq_open := tq_open; kq_change := tq_change; kq_wait := tq_wait; kq_close := tq_close; kq_fds := tq_fds; kq_table := tq_table;
|}.
Next Obligation.
  unfold tq_open. intros u r u'. destruct (tq_next u); intros [= <- <-]; [done |]. destruct (fresh_above_set (tq_fds u)) as [?%Z.lt_le_incl ?]. split_and!; try done.
  - by rewrite tq_table_set, decide_True.
  - intros k Hk. by rewrite tq_table_set, decide_False.
Qed.
Next Obligation.
  unfold tq_change. intros kq c u r u' _. destruct (flagged (ke_flags c) EV_ADD) eqn:Ef.
  - destruct (tq_next u); intros [= <- <-]; split_and!; try done; [intros Hc; by rewrite Hc in Ef | |].
    + intros k Hk. cbn [tq_tables]. by rewrite tq_table_set, decide_False.
    + cbn [tq_tables]. by rewrite tq_table_set, decide_True.
  - destruct (tq_table kq u !! _) eqn:Et; intros [= <- <-]; split_and!; try done; unfold tq_table; cbn.
    + intros k Hk. by rewrite lookup_insert_ne.
    + by rewrite lookup_insert_eq.
Qed.
Next Obligation.
  unfold tq_wait. intros kq n timeout u r u' _ Hn. destruct (tq_frames u) as [|f rest]; intros [= <- <-]; [done |].
  destruct (tq_ready_ok (tq_table kq u) f) as [H1 H2]. split_and!; [done | done | | |].
  - unfold zlen. rewrite length_take. lia.
  - rewrite <- firstn_map. by apply (sublist_NoDup _ _ H1), sublist_take.
  - by apply Forall_take.
Qed.
Next Obligation.
  intros kq u _. split; [done |]. intros k Hk. unfold tq_table, tq_close. cbn. by rewrite lookup_delete_ne.
Qed.

(** ** The properties *)
#[local] Existing Instance host_lp64.
#[local] Existing Instance toy_heap.
Definition toy_kernel (frames : list (list (Z * kfilter))) (errors : list (option Z)) : toykqueue :=
  {| tq_frames := frames; tq_fds := ∅; tq_tables := ∅; tq_errors := errors |}.
Definition toy_kworld (frames : list (list (Z * kfilter))) (errors : list (option Z)) : kworld toy toykqueue :=
  {| w_heap := toy_empty []; w_kernel := toy_kernel frames errors; w_backend := None |}.

(** a connection watched in both directions, then one whose registration fails half-way *)
Definition toy_kqueue_0 := toy_kworld [[(4, EVFILT_WRITE); (4, EVFILT_READ); (9, EVFILT_READ); (1, EVFILT_USER)]] [None; None; None; None; None; Some 12].
Definition toy_kqueue_1 := (wirecall_backend_create true toy_kqueue_0).2.
Definition toy_kqueue_2 := (kqueue_exec (KRegister 4 3 (UConn 64)) toy_kqueue_1).2.

Lemma toy_kqueue_reach : kqueue_reach toy_kqueue_0 toy_kqueue_2.
Proof.
  eapply (kqueue_called toy_kqueue_0 toy_kqueue_1 (KRegister 4 3 (UConn 64)) (Ok [])); [apply kqueue_created |]; vm_compute; reflexivity.
Qed.

(** C14: the kqueue backend implements a map from descriptors and directions to
    user words: after its creation and any calls, whatever the kernel and the
    allocator answer, no call reaches an undefined access; registering or
    modifying a descriptor sets the two directions to what is asked for and
    touches nothing else, and when it fails each direction is as asked for or,
    if it should be watched, as it was: what should not be watched is gone in
    any case; removing a descriptor clears both; wake and poll change nothing;
    and a poll reports at most as many events as it is asked for, each the
    wake-up or one direction of a descriptor that is registered, with its user
    word, and no direction twice. *)
Theorem kqueue_refines_filters `{Host} `{Heap W} `{Kqueue U} (s0 s : kworld W U) op r s' :
  size_bits = 64 -> w_backend s0 = None -> heap_inv (w_heap s0) -> kqueue_reach s0 s -> kqueue_exec op s = (r, s') ->
  kqueue_spec op r (the_table s) (the_table s').
Proof.
  intros H64 Hn Hi Hr E. destruct (kqueue_reach_alive s0 s H64 Hn Hi Hr) as (p & kq & Ha).
  pose proof (wp_run _ _ _ _ _ _ E (kqueue_exec_spec H64 _ _ p kq s op Ha)) as Hx.
  destruct r as [l| |]; [| | done]; by destruct Hx as [_ Hx].
Qed.

Lemma kqueue_refines_filters_witness :
  kqueue_spec (KRegister 5 3 (UConn 128)) (kqueue_exec (KRegister 5 3 (UConn 128)) toy_kqueue_2).1 (the_table toy_kqueue_2)
    (the_table (kqueue_exec (KRegister 5 3 (UConn 128)) toy_kqueue_2).2) /\
  (kqueue_exec (KRegister 5 3 (UConn 128)) toy_kqueue_2).1 = Err.
Proof.
  split; [| by vm_compute]. apply (kqueue_refines_filters toy_kqueue_0 toy_kqueue_2).
  - reflexivity.
  - reflexivity.
  - apply toy_empty_inv.
  - apply toy_kqueue_reach.
  - apply surjective_pairing.
Defined.

(** a kqueue backend gives everything back: creating one succeeds or, on
    whatever failure, releases block and descriptor; and after any calls
    destroying it releases them too *)
Theorem kqueue_balance `{Host} `{Heap W} `{Kqueue U} (s0 : kworld W U) :
  size_bits = 64 -> w_backend s0 = None -> heap_inv (w_heap s0) ->
  let back s' := w_backend s' = None /\ heap_live (w_heap s') = heap_live (w_heap s0) /\ kq_fds (w_kernel s') = kq_fds (w_kernel s0) in
  (forall r s, wirecall_backend_create true s0 = (r, s) -> r = Ok tt \/ (r = Err /\ back s)) /\
  (forall s, kqueue_reach s0 s -> exists s', wirecall_backend_destroy s = (Ok tt, s') /\ back s').
Proof.
  intros H64 Hn Hi back. split.
  - intros r s E. assert (Hb : blank (heap_live (w_heap s0)) (kq_fds (w_kernel s0)) s0) by (split_and!; [done | by apply owns_start | done]).
    pose proof (wp_run _ _ _ _ _ _ E (kcreate_spec H64 _ _ s0 Hb)) as Hr. destruct r as [[]| |]; [by left | right | done].
    destruct Hr as (E1 & [_ E2]%owns_nil & E3). done.
  - intros s Hr. destruct (kqueue_reach_alive s0 s H64 Hn Hi Hr) as (p & kq & Ha).
    pose proof (kdestroy_spec H64 _ _ p kq s (fun _ => False) Ha) as Hd. unfold wp in Hd.
    destruct (wirecall_backend_destroy s) as [[[]| |] s']; [| done | done]. exists s'. split; [done |].
    destruct Hd as (E1 & [_ E2]%owns_nil & E3). done.
Qed.

(** While the filters are in step with the connections, the batches of the kqueue
    backend are ones the event loop can take, although a batch has two events for
    a connection that can be read and written: for a worker whose filters name
    live connections and listeners, and watch for writing only where there is
    data to send, whatever a poll reports, the turn of the worker on this batch
    ends without an undefined access and keeps the invariant.  That the filters
    are that way is assumed: connection_set_interests keeps [interests] as it was
    when a change of them fails half-way, and [kqueue_stale_filter] below shows
    what comes of it. *)
Lemma kqueue_turn_safe `{Host} `{Heap W} `{Pages P} `{Net K} `{Backend B} `{Heap V} `{Kqueue U} coro_size segment sync_handler deferred_handler
    base fbase fuel (k : worker (W := W) (P := P) (K := K) (B := B)) r k' (s0 s : kworld V U) max timeout l s' :
  size_bits = 64 -> address_limited (W := W) -> sync_lawful sync_handler -> deferred_lawful deferred_handler ->
  w_backend s0 = None -> heap_inv (w_heap s0) -> kqueue_reach s0 s -> kqueue_exec (KPoll max timeout) s = (Ok l, s') ->
  worker_ok base fbase k -> kqueue_watches fbase k (the_table s) ->
  worker_turn coro_size segment sync_handler deferred_handler (S fuel) l k = (r, k') ->
  r = Ok (Some tt) /\ worker_ok base fbase k'.
Proof.
  intros H64 Hlim Hsy Hde Hn Hi Hr Ep Hk Hw E. destruct (kqueue_reach_alive s0 s H64 Hn Hi Hr) as (p & kq & Ha).
  destruct (wp_run _ _ _ _ _ _ Ep (kqueue_exec_spec H64 _ _ p kq s (KPoll max timeout) Ha)) as (_ & _ & _ & Hnd & Hall).
  pose proof (wp_run _ _ _ _ _ _ E (worker_turn_spec H64 Hlim coro_size segment sync_handler deferred_handler Hsy Hde base fbase fuel k l
    (fun _ => False) Hk (kqueue_batch_ok fbase k _ l Hw Hnd Hall))) as Hx.
  destruct r as [o| |]; [| done | done]. by destruct Hx as (-> & Hk' & _).
Qed.

(** a worker with an answer that the socket did not take; it is written, and
    read, which finds the end of the stream, in one batch *)
#[local] Existing Instance toy_limited | 0.
Definition toy_worker_full := (toy_turn toy_reading (with_traffic [TBytes toy_request; TErr EAGAIN; TBytes []] [TRefuse EAGAIN] toy_worker_1)).2.
Definition toy_kqueue_3 := toy_kworld [[(4, EVFILT_READ); (4, EVFILT_WRITE)]] [].
Definition toy_kqueue_4 := (wirecall_backend_create true toy_kqueue_3).2.
Definition toy_kqueue_5 := (kqueue_exec (KRegister 4 3 (UConn toy_conn)) toy_kqueue_4).2.
Definition toy_both : list wirecall_backend_event :=
  [{| ev_fd := 4; ev_events := WIRECALL_BACKEND_READ; ev_user := UConn toy_conn |};
   {| ev_fd := 4; ev_events := WIRECALL_BACKEND_WRITE; ev_user := UConn toy_conn |}].
Definition toy_full_connection : wirecall_connection := default zero_connection (conns (s_client toy_worker_full) !! toy_conn).

Lemma toy_worker_full_ok : worker_ok toy_base toy_fbase toy_worker_full.
Proof.
  apply (turns_ok (HH := host_lp64) (HP := toy_limited) eq_refl limited_heap_limited 4096 toy_async (toy_sync toy_served) toy_deferred
    (toy_sync_lawful toy_served ltac:(by_compute)) toy_deferred_lawful toy_base toy_fbase 0
    (with_traffic [TBytes toy_request; TErr EAGAIN; TBytes []] [TRefuse EAGAIN] toy_worker_1)); [apply with_traffic_ok, toy_worker_1_ok |].
  eapply (turns_step _ _ _ _ _ 0 _ _ toy_reading (Ok (Some tt))); [constructor | | vm_compute; reflexivity].
  apply batch_once; [| by_compute]. repeat constructor. eexists. split; vm_compute; reflexivity.
Qed.

Lemma toy_watches : kqueue_watches toy_fbase toy_worker_full (the_table toy_kqueue_5).
Proof.
  assert (Et : the_table toy_kqueue_5 = {[ (1, EVFILT_USER) := UConn 0; (4, EVFILT_READ) := UConn toy_conn; (4, EVFILT_WRITE) := UConn toy_conn ]}) by by_compute.
  assert (Hall : forall d f u, f <> EVFILT_USER -> the_table toy_kqueue_5 !! (d, f) = Some u -> d = 4 /\ u = UConn toy_conn).
  { intros d f u Hf. rewrite Et. rewrite !lookup_insert_Some, lookup_singleton_Some. naive_solver. }
  assert (Ec : conns (s_client toy_worker_full) !! toy_conn = Some toy_full_connection) by (by vm_compute).
  constructor.
  - intros d f p Hf [-> [= ->]]%Hall; [| done]. exists toy_full_connection. split_and!; [done | by vm_compute | by vm_compute].
  - intros d f fd Hf [_ ?]%Hall; done.
  - intros d p [_ [= ->]]%Hall; [| done]. exists toy_full_connection. split; [done |]. by vm_compute.
Qed.

Lemma kqueue_turn_safe_witness :
  sends_data toy_worker_full toy_conn /\ (toy_turn toy_both toy_worker_full).1 = Ok (Some tt) /\ worker_ok toy_base toy_fbase (toy_turn toy_both toy_worker_full).2.
Proof.
  split; [by apply (kw_data _ _ _ toy_watches 4); vm_compute |].
  apply (kqueue_turn_safe 4096 toy_async (toy_sync toy_served) toy_deferred toy_base toy_fbase 0 toy_worker_full _ _ toy_kqueue_3 toy_kqueue_5 8 (-1) toy_both
    (kqueue_exec (KPoll 8 (-1)) toy_kqueue_5).2).
  - reflexivity.
  - apply limited_heap_limited.
  - apply toy_sync_lawful. by_compute.
  - apply toy_deferred_lawful.
  - reflexivity.
  - apply toy_empty_inv.
  - eapply (kqueue_called toy_kqueue_3 toy_kqueue_4 (KRegister 4 3 (UConn toy_conn)) (Ok [])); [apply kqueue_created |]; vm_compute; reflexivity.
  - vm_compute. reflexivity.
  - apply toy_worker_full_ok.
  - apply toy_watches.
  - apply surjective_pairing.
Defined.

(** ** A server on the backend *)
Definition kqueue_system : Type := system toy toy_pages toynet (backends toy toykqueue wirecall_backend).
Definition kqueue_start (recvs : list toyrecv) (sends : list toysend) (accepts : list (option Z)) (frames : list (list (Z * kfilter)))
    (errors : list (option Z)) : kqueue_system :=
  {| pr_server := None; pr_heap := toy_empty []; pr_pages := toy_pages_empty; pr_net := pr_net (toy_start recvs sends accepts []);
     pr_backend := {| bs_heap := toy_empty []; bs_kernel := toy_kernel frames errors; bs_table := ∅; bs_fault := false |}; pr_log := [] |}.
Definition kqueue_call (op : setup_op) : M kqueue_system unit := setup_exec 4096 4 (fun _ => (true, true)) op.

(** a server with one worker and one synchronous procedure, run for some turns *)
Definition kqueue_run (turns : nat) (s : kqueue_system) : res (option Z) * kqueue_system :=
  (wirecall_server_init 4096 4 true true ;;; kqueue_call (SSetWorkers 1) ;;; kqueue_call (SAddRoute (toy_name 97) (Some 7) 1 None) ;;;
   kqueue_call (SBind None (toy_name 48)) ;;; kqueue_call SListen ;;;
   wirecall_server_run 4096 toy_async (toy_sync toy_served) toy_deferred (fun _ => true) turns []) s.

(** one client: it connects, sends a request, takes the answer only after the
    server's first attempt to send it would have blocked, and hangs up *)
Definition patient_client : kqueue_system :=
  kqueue_start [TBytes toy_request; TErr EAGAIN; TErr EAGAIN; TBytes []] [TRefuse EAGAIN] [None; Some EAGAIN]
    [[(3, EVFILT_READ)]; [(1, EVFILT_USER)]; [(4, EVFILT_READ)]; [(4, EVFILT_READ); (4, EVFILT_WRITE)]; [(4, EVFILT_WRITE); (4, EVFILT_READ)]] [].

(** the client the io_uring backend fails on is served: the answer is sent in a
    turn with two events for the connection, and the end of its stream closes it *)
Theorem kqueue_serves_client :
  let s := (kqueue_run 5 patient_client).2 in
  (kqueue_run 5 patient_client).1 = Ok None /\ net_received 4 (pr_net s) = toy_request /\
  net_sent 4 (pr_net s) = toy_packet WIRECALL_OP_RESPONSE (wirecall_proc_id (toy_name 97)) 1 (encode_values [toy_served]) /\
  (4 ∉ net_open (pr_net s)) /\ bs_fault (pr_backend s) = false.
Proof. split_and!; by vm_compute. Qed.

(** A change of the filters that fails half-way leaves them out of step.  When the
    socket does not take the answer, kqueue has no memory for the read filter
    (that of the connection, so the fifth of the calls that may fail) but arms the
    write filter; connection_set_interests keeps [interests] at READ, and when
    the answer has been sent there is nothing to change for it, so the write
    filter stays.  Within four turns all is well and the answer is delivered; in
    the fifth the connection is reported for both directions with nothing to
    send: the first event finds the end of the stream and destroys the
    connection, the second uses it after it has been freed. *)
Definition ENOMEM : Z := 12.
Definition half_armed (turns : nat) : res (option Z) * kqueue_system :=
  kqueue_run turns (kqueue_start [TBytes toy_request; TErr EAGAIN; TBytes []] [TRefuse EAGAIN] [None; Some EAGAIN]
    [[(3, EVFILT_READ)]; [(1, EVFILT_USER)]; [(4, EVFILT_READ)]; [(4, EVFILT_WRITE)]; [(4, EVFILT_READ); (4, EVFILT_WRITE)]]
    [None; None; None; None; Some ENOMEM]).
Theorem kqueue_stale_filter :
  (half_armed 4).1 = Ok None /\ (4 ∈ net_open (pr_net (half_armed 4).2)) /\
  net_sent 4 (pr_net (half_armed 4).2) = toy_packet WIRECALL_OP_RESPONSE (wirecall_proc_id (toy_name 97)) 1 (encode_values [toy_served]) /\
  (half_armed 5).1 = UB /\ (4 ∉ net_open (pr_net (half_armed 5).2)) /\ bs_fault (pr_backend (half_armed 5).2) = false.
Proof. split_and!; by vm_compute. Qed.
