(* ===== verification/Windows.v ===== *)
(** * Windows: the backend on Winsock event objects (src/backend/windows.c)

    A backend has an event object for wake-ups and a table of watches, each a
    socket with an event object the socket signals.  Handles are numbers, 0 the
    invalid one.  The system is a parameter, the class [Winsock]. *)

From stdpp Require Import strings.
From S2P Require Import Prelude Words Memory Net Connection BackendWorld.
#[global] Open Scope Z_scope.

Definition WIRECALL_WINDOWS_MAX_WATCHES : Z := 1024.
Definition MAXIMUM_WAIT_OBJECTS : Z := 64.
Definition WSA_INVALID_EVENT : Z := 0.
Definition FD_READ : Z := 1.
Definition FD_WRITE : Z := 2.
Definition FD_ACCEPT : Z := 8.
Definition FD_CLOSE : Z := 32.

Inductive wait_result := WSA_WAIT_EVENT (index : Z) | WSA_WAIT_TIMEOUT | WSA_WAIT_FAILED.
#[global] Instance wait_result_eq_dec : EqDecision wait_result.
Proof. solve_decision. Defined.

Class Winsock (U : Type) := {
  ws_startup : U -> bool * U;
  ws_cleanup : U -> U;
  ws_create_event : U -> Z * U;
  ws_close_event : Z -> U -> U;
  (** socket, event object or NULL, network events: whether it succeeds *)
  ws_select : Z -> Z -> Z -> U -> bool * U;
  ws_set_event : Z -> U -> bool * U;
  ws_reset_event : Z -> U -> U;
  (** event objects, for all of them, timeout *)
  ws_wait : list Z -> bool -> option Z -> U -> wait_result * U;
  (** the network events of a socket *)
  ws_enum : Z -> Z -> U -> option Z * U;

  (** the event objects that are open, and the startups not cleaned up *)
  ws_events : U -> gset Z;
  ws_started : U -> nat;

  law_startup : forall u b u', ws_startup u = (b, u') -> ws_events u' = ws_events u /\ ws_started u' = if b then S (ws_started u) else ws_started u;
  law_cleanup : forall u, (0 < ws_started u)%nat -> ws_events (ws_cleanup u) = ws_events u /\ ws_started (ws_cleanup u) = pred (ws_started u);
  law_create_event : forall u e u', (0 < ws_started u)%nat -> ws_create_event u = (e, u') ->
    ws_started u' = ws_started u /\
    if decide (e = WSA_INVALID_EVENT) then ws_events u' = ws_events u else (e ∉ ws_events u) /\ ws_events u' = {[e]} ∪ ws_events u;
  law_close_event : forall e u, e ∈ ws_events u -> ws_events (ws_close_event e u) = ws_events u ∖ {[e]} /\ ws_started (ws_close_event e u) = ws_started u;
  law_select : forall s e n u b u', e = 0 \/ e ∈ ws_events u -> ws_select s e n u = (b, u') -> ws_events u' = ws_events u /\ ws_started u' = ws_started u;
  law_set_event : forall e u b u', e ∈ ws_events u -> ws_set_event e u = (b, u') -> ws_events u' = ws_events u /\ ws_started u' = ws_started u;
  law_reset_event : forall e u, e ∈ ws_events u -> ws_events (ws_reset_event e u) = ws_events u /\ ws_started (ws_reset_event e u) = ws_started u;
  law_wait : forall l all timeout u r u', 0 < zlen l <= MAXIMUM_WAIT_OBJECTS -> Forall (fun e => e ∈ ws_events u) l -> ws_wait l all timeout u = (r, u') ->
    ws_events u' = ws_events u /\ ws_started u' = ws_started u /\
    match r with WSA_WAIT_EVENT i => 0 <= i < zlen l | _ => True end;
  law_enum : forall s e u r u', e ∈ ws_events u -> ws_enum s e u = (r, u') -> ws_events u' = ws_events u /\ ws_started u' = ws_started u;
}.

(** ** The backend *)
Record wirecall_backend_watch := { wt_socket : Z; wt_event : Z; wt_interests : Z; wt_user : watch_user; wt_active : bool }.
Definition watch_zero : wirecall_backend_watch := {| wt_socket := 0; wt_event := 0; wt_interests := 0; wt_user := UConn 0; wt_active := false |}.

Record wirecall_backend := { bk_wake_event : Z; bk_watches : list wirecall_backend_watch; bk_wsa_ready : bool }.
Definition backend_zero : wirecall_backend :=
  {| bk_wake_event := 0; bk_watches := zreplicate WIRECALL_WINDOWS_MAX_WATCHES watch_zero; bk_wsa_ready := false |}.
Definition set_wake (e : Z) (b : wirecall_backend) : wirecall_backend :=
  {| bk_wake_event := e; bk_watches := bk_watches b; bk_wsa_ready := bk_wsa_ready b |}.
Definition set_ready (b : wirecall_backend) : wirecall_backend :=
  {| bk_wake_event := bk_wake_event b; bk_watches := bk_watches b; bk_wsa_ready := true |}.
Definition set_watch (i : nat) (w : wirecall_backend_watch) (b : wirecall_backend) : wirecall_backend :=
  {| bk_wake_event := bk_wake_event b; bk_watches := <[i := w]> (bk_watches b); bk_wsa_ready := bk_wsa_ready b |}.

(** on a 64-bit system *)
Definition sizeof_wirecall_backend : Z := 41384.

Notation wworld W U := (world W U wirecall_backend).

Section Windows.
Context `{HH : Host} `{HP : Heap W} `{UU : Winsock U}.

Definition wants (x flag : Z) : bool := negb (Z.land x flag =? 0).

Definition network_events (interests : Z) : Z :=
  let events := FD_CLOSE in
  let events := if wants interests WIRECALL_BACKEND_READ then Z.lor events (Z.lor FD_ACCEPT FD_READ) else events in
  if wants interests WIRECALL_BACKEND_WRITE then Z.lor events FD_WRITE else events.

(** the index of the first watch with [f] *)
Fixpoint first_watch (f : wirecall_backend_watch -> bool) (i : nat) (l : list wirecall_backend_watch) : option nat :=
  match l with
  | [] => None
  | w :: rest => if f w then Some i else first_watch f (S i) rest
  end.
Definition find_watch (fd : Z) : M (wworld W U) (option nat) :=
  b <- get_bk ;; ret (first_watch (fun w => wt_active w && (wt_socket w =? fd)) 0 (bk_watches b)).
Definition alloc_watch : M (wworld W U) (option nat) :=
  b <- get_bk ;; ret (first_watch (fun w => negb (wt_active w)) 0 (bk_watches b)).

Definition get_watch (i : nat) : M (wworld W U) wirecall_backend_watch :=
  b <- get_bk ;; match bk_watches b !! i with Some w => ret w | None => ub end.
Definition put_watch (i : nat) (w : wirecall_backend_watch) : M (wworld W U) unit := get_watch i ;;; upd_bk (set_watch i w).

Definition close_event (e : Z) : M (wworld W U) unit := on_kernel (fun u => (tt, ws_close_event e u)).

Fixpoint close_watches (l : list wirecall_backend_watch) : M (wworld W U) unit :=
  match l with
  | [] => ret tt
  | w :: rest =>
      (if wt_active w then on_kernel (ws_select (wt_socket w) 0 0) ;;; close_event (wt_event w) else ret tt) ;;;
      close_watches rest
  end.

Definition wirecall_backend_destroy : M (wworld W U) unit :=
  ok <- has_backend ;;
  if negb ok then ret tt
  else
    b <- get_bk ;;
    close_watches (bk_watches b) ;;;
    (if negb (bk_wake_event b =? WSA_INVALID_EVENT) then close_event (bk_wake_event b) else ret tt) ;;;
    (if bk_wsa_ready b then on_kernel (fun u => (tt, ws_cleanup u)) else ret tt) ;;;
    free_bk.

Definition wirecall_backend_create (out : bool) : M (wworld W U) unit :=
  if negb out then fail
  else
    block <- on_wheap (heap_calloc 1 sizeof_wirecall_backend) ;;
    match block with
    | None => fail
    | Some p =>
        ok <- on_kernel ws_startup ;;
        if negb (ok : bool) then on_wheap (fun h => (tt, heap_free p h)) ;;; fail
        else
          modify (set_bk (Some (p, set_ready backend_zero))) ;;;
          wake <- on_kernel ws_create_event ;;
          upd_bk (set_wake wake) ;;;
          if wake =? WSA_INVALID_EVENT then wirecall_backend_destroy ;;; fail else ret tt
    end.

Definition wirecall_backend_register (fd events : Z) (user : watch_user) : M (wworld W U) unit :=
  ok <- has_backend ;;
  if negb ok || (fd <? 0) then fail
  else
    watch <- find_watch fd ;;
    i <- match watch with
         | Some i => ret i
         | None =>
             watch <- alloc_watch ;;
             match watch with
             | None => fail
             | Some i =>
                 event <- on_kernel ws_create_event ;;
                 w <- get_watch i ;;
                 put_watch i {| wt_socket := wt_socket w; wt_event := event; wt_interests := wt_interests w; wt_user := wt_user w; wt_active := wt_active w |} ;;;
                 if event =? WSA_INVALID_EVENT then fail
                 else
                   put_watch i {| wt_socket := fd; wt_event := event; wt_interests := wt_interests w; wt_user := wt_user w; wt_active := true |} ;;;
                   ret i
             end
         end ;;
    w <- get_watch i ;;
    put_watch i {| wt_socket := wt_socket w; wt_event := wt_event w; wt_interests := events; wt_user := user; wt_active := wt_active w |} ;;;
    ok <- on_kernel (ws_select (wt_socket w) (wt_event w) (network_events events)) ;;
    if ok : bool then ret tt else fail.

Definition wirecall_backend_modify (fd events : Z) (user : watch_user) : M (wworld W U) unit := wirecall_backend_register fd events user.

Definition wirecall_backend_remove (fd : Z) : M (wworld W U) unit :=
  ok <- has_backend ;;
  if negb ok || (fd <? 0) then fail
  else
    watch <- find_watch fd ;;
    match watch with
    | None => ret tt
    | Some i =>
        w <- get_watch i ;;
        on_kernel (ws_select (wt_socket w) 0 0) ;;;
        close_event (wt_event w) ;;;
        put_watch i watch_zero
    end.

Definition wirecall_backend_wake : M (wworld W U) unit :=
  ok <- has_backend ;;
  if negb ok then fail
  else
    b <- get_bk ;;
    ok <- on_kernel (ws_set_event (bk_wake_event b)) ;;
    if ok : bool then ret tt else fail.

(** *** Polling *)

(** the event objects to wait for, with the indices of their watches *)
Fixpoint gather (i : nat) (l : list wirecall_backend_watch) (count : Z) : list (Z * nat) :=
  match l with
  | [] => []
  | w :: rest =>
      if count <? MAXIMUM_WAIT_OBJECTS then
        if wt_active w then (wt_event w, i) :: gather (S i) rest (count + 1) else gather (S i) rest count
      else []
  end.

Definition ready_events (network : Z) : Z :=
  let ev := if wants network (Z.lor (Z.lor FD_ACCEPT FD_READ) FD_CLOSE) then Z.lor 0 WIRECALL_BACKEND_READ else 0 in
  if wants network FD_WRITE then Z.lor ev WIRECALL_BACKEND_WRITE else ev.

(** one handle: the event it gives; [None] is the wake-up event object *)
Definition poll_one (handle : Z) (watch : option nat) : M (wworld W U) (list wirecall_backend_event) :=
  r <- on_kernel (ws_wait [handle] true (Some 0)) ;;
  if negb (bool_decide (r = WSA_WAIT_EVENT 0)) then ret []
  else
    match watch with
    | None =>
        b <- get_bk ;;
        on_kernel (fun u => (tt, ws_reset_event (bk_wake_event b) u)) ;;;
        ret [{| ev_fd := -1; ev_events := WIRECALL_BACKEND_WAKE; ev_user := UConn 0 |}]
    | Some i =>
        w <- get_watch i ;;
        network <- on_kernel (ws_enum (wt_socket w) (wt_event w)) ;;
        match network with
        | None => ret []
        | Some network =>
            let ev := ready_events network in
            ret (if negb (ev =? 0) then [{| ev_fd := wt_socket w; ev_events := ev; ev_user := wt_user w |}] else [])
        end
    end.

Fixpoint poll_loop (handles : list (Z * option nat)) (out : list wirecall_backend_event) (max_events : Z) : M (wworld W U) (list wirecall_backend_event) :=
  match handles with
  | [] => ret out
  | (h, watch) :: rest =>
      if zlen out <? max_events then l <- poll_one h watch ;; poll_loop rest (out ++ l) max_events else ret out
  end.

Definition wirecall_backend_poll (max_events timeout_ms : Z) : M (wworld W U) (list wirecall_backend_event) :=
  ok <- has_backend ;;
  if negb ok || (max_events <=? 0) then fail
  else
    b <- get_bk ;;
    let handles := (bk_wake_event b, None) :: map (fun x => (x.1, Some x.2)) (gather 0 (bk_watches b) 1) in
    let timeout := if timeout_ms <? 0 then None else Some timeout_ms in
    index <- on_kernel (ws_wait (map fst handles) false timeout) ;;
    match index with
    | WSA_WAIT_TIMEOUT => ret []
    | WSA_WAIT_FAILED => fail
    | WSA_WAIT_EVENT start => poll_loop (zdrop start handles) [] max_events
    end.

(** the events of a backend are those of [Backend]; server.c polls without a
    timeout *)
#[global] Instance windows_backend : Backend (backends W U wirecall_backend) := {|
  be_create i b := succeeds (with_backend i (wirecall_backend_create true) b);
  be_destroy i b := (with_backend i wirecall_backend_destroy b).2;
  be_register i fd events user b := succeeds (with_backend i (wirecall_backend_register fd events user) b);
  be_modify i fd events user b := succeeds (with_backend i (wirecall_backend_modify fd events user) b);
  be_remove i fd b := (with_backend i (wirecall_backend_remove fd) b).2;
  be_wake i b := (with_backend i wirecall_backend_wake b).2;
  be_poll i max b := with_backend i (wirecall_backend_poll max (-1)) b;
|}.
End Windows.
