(* ===== verification/WindowsProps.v ===== *)
(** * WindowsProps: what the Windows backend promises, and what it does not

    [alive]: what a backend owns, and that its watches have different sockets.
    The table of watches is a map from sockets to what is registered for them;
    a poll looks at the first 63 of them only. *)

From stdpp Require Import strings.
From S2P Require Import Prelude Words Memory Net Connection BackendWorld Windows.
#[global] Open Scope Z_scope.

(** ** The table *)
Definition act (l : list wirecall_backend_watch) : list (Z * wirecall_backend_watch) :=
  omap (fun w => if wt_active w then Some (wt_socket w, w) else None) l.
Definition entries (b : wirecall_backend) : gmap Z (Z * watch_user) :=
  list_to_map (prod_map id (fun w => (wt_interests w, wt_user w)) <$> act (bk_watches b)).
Definition own_events (b : wirecall_backend) : list Z := bk_wake_event b :: map (fun x => wt_event x.2) (act (bk_watches b)).

Lemma act_app l k : act (l ++ k) = act l ++ act k.
Proof. apply omap_app. Qed.

(** an update of one watch *)
Lemma act_insert l i w w' : l !! i = Some w ->
  exists rest, act l ≡ₚ act [w] ++ rest /\ act (<[i := w']> l) ≡ₚ act [w'] ++ rest.
Proof.
  intros Hi. exists (act (take i l) ++ act (drop (S i) l)). pose proof (lookup_lt_Some _ _ _ Hi) as Hlt.
  rewrite insert_take_drop by done. rewrite <- (take_drop_middle l i w Hi) at 1.
  change (w :: drop (S i) l) with ([w] ++ drop (S i) l). change (w' :: drop (S i) l) with ([w'] ++ drop (S i) l).
  rewrite !act_app. split; apply Permutation_app_swap_app.
Qed.

Lemma first_watch_some f i l j : first_watch f i l = Some j -> exists w, l !! (j - i)%nat = Some w /\ f w = true /\ (i <= j)%nat.
Proof.
  revert i. induction l as [|w l IH]; intros i; cbn [first_watch]; [done |]. destruct (f w) eqn:Ef.
  - intros [= <-]. exists w. rewrite Nat.sub_diag. done.
  - intros (w' & Hw & Hf & Hij)%IH. exists w'. replace (j - i)%nat with (S (j - S i)) by lia. split_and!; [done | done | lia].
Qed.

Lemma first_watch_none f i l : first_watch f i l = None -> Forall (fun w => f w = false) l.
Proof.
  revert i. induction l as [|w l IH]; intros i; cbn [first_watch]; [by constructor |]. destruct (f w) eqn:Ef; [done |].
  intros H. constructor; [done | by eapply IH].
Qed.

Lemma act_in l fd w : (fd, w) ∈ act l <-> w ∈ l /\ wt_active w = true /\ fd = wt_socket w.
Proof.
  unfold act. rewrite list_elem_of_omap. split.
  - intros (w' & Hin & E). destruct (wt_active w') eqn:Ea; by simplify_eq.
  - intros (Hin & Ha & ->). exists w. by rewrite Ha.
Qed.

(** the entries of a table that is a permutation of one with a first watch *)
Lemma entries_perm l k : NoDup (act l).*1 -> act l ≡ₚ k ->
  (list_to_map (prod_map id (fun w => (wt_interests w, wt_user w)) <$> act l) : gmap Z (Z * watch_user)) =
  list_to_map (prod_map id (fun w => (wt_interests w, wt_user w)) <$> k).
Proof.
  intros Hn Hp. apply list_to_map_proper; [| by rewrite Hp]. rewrite <- list_fmap_compose. erewrite list_fmap_ext; [exact Hn |]. by intros ? [].
Qed.

Lemma entries_lookup b fd w : NoDup (act (bk_watches b)).*1 -> (fd, w) ∈ act (bk_watches b) -> entries b !! fd = Some (wt_interests w, wt_user w).
Proof.
  intros Hn Hin. apply elem_of_list_to_map.
  - rewrite <- list_fmap_compose. erewrite list_fmap_ext; [exact Hn |]. by intros ? [].
  - apply list_elem_of_fmap. by exists (fd, w).
Qed.

(** ** Calls *)
Inductive windows_op :=
| WRegister (fd events : Z) (user : watch_user)
| WModify (fd events : Z) (user : watch_user)
| WRemove (fd : Z)
| WWake
| WPoll (max_events timeout_ms : Z).

(** the number of watches in use before one *)
Definition before (j : nat) (b : wirecall_backend) : Z := zlen (act (take j (bk_watches b))).

(** an event is the wake-up, or that of a watch that is among the first 63 *)
Definition wake_event : wirecall_backend_event := {| ev_fd := -1; ev_events := WIRECALL_BACKEND_WAKE; ev_user := UConn 0 |}.
Definition reported_by (b : wirecall_backend) (who : option nat) (e : wirecall_backend_event) : Prop :=
  match who with
  | None => e = wake_event
  | Some j => exists w, bk_watches b !! j = Some w /\ wt_active w = true /\ before j b < MAXIMUM_WAIT_OBJECTS - 1 /\
      ev_fd e = wt_socket w /\ ev_user e = wt_user w /\
      (ev_events e = WIRECALL_BACKEND_READ \/ ev_events e = WIRECALL_BACKEND_WRITE \/ ev_events e = Z.lor WIRECALL_BACKEND_READ WIRECALL_BACKEND_WRITE)
  end.

Definition windows_spec (op : windows_op) (r : res (list wirecall_backend_event)) (b b' : wirecall_backend) : Prop :=
  match op with
  | WRegister fd events user | WModify fd events user =>
      match r with
      | Ok l => l = [] /\ 0 <= fd /\ entries b' = <[fd := (events, user)]> (entries b)
      | Err => entries b' = entries b \/ (0 <= fd /\ entries b' = <[fd := (events, user)]> (entries b))
      | UB => False
      end
  | WRemove fd =>
      match r with
      | Ok l => l = [] /\ 0 <= fd /\ entries b' = delete fd (entries b)
      | Err => fd < 0 /\ b' = b
      | UB => False
      end
  | WWake => match r with Ok l => l = [] /\ b' = b | Err => b' = b | UB => False end
  | WPoll max_events _ =>
      match r with
      | Ok l => b' = b /\ zlen l <= max_events /\ NoDup (map ev_fd l) /\ Forall (fun e => exists who, reported_by b who e) l
      | Err => b' = b
      | UB => False
      end
  end.

Section Calls.
Context `{HH : Host} `{HP : Heap W} `{UU : Winsock U}.
Implicit Types (s : wworld W U).

Definition windows_exec (op : windows_op) : M (wworld W U) (list wirecall_backend_event) :=
  match op with
  | WRegister fd events user => wirecall_backend_register fd events user ;;; ret []
  | WModify fd events user => wirecall_backend_modify fd events user ;;; ret []
  | WRemove fd => wirecall_backend_remove fd ;;; ret []
  | WWake => wirecall_backend_wake ;;; ret []
  | WPoll max_events timeout_ms => wirecall_backend_poll max_events timeout_ms
  end.

(** created from [s0], then any calls, whatever their results *)
Inductive windows_reach s0 : wworld W U -> Prop :=
| windows_created s : wirecall_backend_create true s0 = (Ok tt, s) -> windows_reach s0 s
| windows_called s op r s' : windows_reach s0 s -> windows_exec op s = (r, s') -> windows_reach s0 s'.

Definition the_windows s : wirecall_backend := match w_backend s with Some (_, b) => b | None => backend_zero end.

Section Reach.
Hypothesis H64 : size_bits = 64.
Variables (base evs : gset Z) (st : nat).
Implicit Types (b : wirecall_backend) (p : Z).

Record alive (p : Z) b s : Prop := {
  wa_here : w_backend s = Some (p, b);
  wa_heap : owns base [p] (w_heap s);
  wa_table : length (bk_watches b) = Z.to_nat WIRECALL_WINDOWS_MAX_WATCHES;
  wa_sockets : NoDup (act (bk_watches b)).*1 /\ Forall (fun fd => 0 <= fd) (act (bk_watches b)).*1;
  wa_events : fds_own evs (own_events b) (ws_events (w_kernel s));
  wa_ready : bk_wsa_ready b = true /\ ws_started (w_kernel s) = S st;
  wa_wake : bk_wake_event b <> WSA_INVALID_EVENT;
}.

Lemma fds_own_perm x l k : l ≡ₚ k -> fds_own evs l x -> fds_own evs k x.
Proof.
  intros Hp (Hn & Hd & ->). split_and!; [by rewrite <- Hp | intros fd Hfd; apply Hd; by rewrite Hp | by rewrite Hp].
Qed.

Lemma fds_own_in x l e : fds_own evs l x -> e ∈ l -> e ∈ x.
Proof. intros (_ & _ & ->) He. apply elem_of_union. right. by apply elem_of_list_to_set. Qed.

(** the kernel moves on and keeps the event objects *)
Definition quiet (u u' : U) : Prop := ws_events u' = ws_events u /\ ws_started u' = ws_started u.

Lemma alive_moves_on p b s u : alive p b s -> quiet (w_kernel s) u -> alive p b (set_kernel u s).
Proof. intros [H1 H2 H3 H4 H5 [H6 H6'] H7] [E1 E2]. constructor; try done; cbn [set_kernel w_kernel]; [by rewrite E1 | split; [done | congruence]]. Qed.

Lemma wake_open p b s : alive p b s -> bk_wake_event b ∈ ws_events (w_kernel s).
Proof. intros Ha. eapply fds_own_in; [apply (wa_events _ _ _ Ha) | by left]. Qed.

Lemma watch_open p b s j w : alive p b s -> bk_watches b !! j = Some w -> wt_active w = true -> wt_event w ∈ ws_events (w_kernel s).
Proof.
  intros Ha Hj Hw. eapply fds_own_in; [apply (wa_events _ _ _ Ha) |]. right. apply list_elem_of_In, in_map_iff. exists (wt_socket w, w).
  split; [done |]. apply list_elem_of_In, act_in. split_and!; [by eapply list_elem_of_lookup_2 | done | done].
Qed.

Lemma wp_watch p b s j w (Q : wirecall_backend_watch -> wworld W U -> Prop) E :
  w_backend s = Some (p, b) -> bk_watches b !! j = Some w -> Q w s -> wp (get_watch j) Q E s.
Proof. intros Hb Hj HQ. unfold get_watch. apply wp_bind. eapply wp_get_bk; [done |]. by rewrite Hj. Qed.

Lemma wp_set_watch p b s j w w' (Q : unit -> wworld W U -> Prop) E :
  w_backend s = Some (p, b) -> bk_watches b !! j = Some w -> Q tt (set_bk (Some (p, set_watch j w' b)) s) -> wp (put_watch j w') Q E s.
Proof. intros Hb Hj HQ. unfold put_watch. apply wp_bind. eapply wp_watch; [done | done |]. by eapply wp_upd_bk. Qed.

(** *** Changing one watch *)
Lemma alive_set p b s i w w' u :
  alive p b s -> bk_watches b !! i = Some w -> ws_started u = ws_started (w_kernel s) ->
  (forall rest, act (bk_watches b) ≡ₚ act [w] ++ rest ->
     NoDup (act [w'] ++ rest).*1 /\ Forall (fun fd => 0 <= fd) (act [w'] ++ rest).*1 /\
     fds_own evs (bk_wake_event b :: map (fun x => wt_event x.2) (act [w'] ++ rest)) (ws_events u)) ->
  alive p (set_watch i w' b) (set_bk (Some (p, set_watch i w' b)) (set_kernel u s)).
Proof.
  intros [H1 H2 H3 H4 H5 [H6 H6'] H7] Hi Hu Hrest. destruct (act_insert _ _ _ w' Hi) as (rest & P1 & P2). destruct (Hrest rest P1) as (R1 & R2 & R3).
  constructor; cbn [set_watch set_bk set_kernel bk_watches bk_wake_event bk_wsa_ready w_backend w_heap w_kernel]; try done.
  - by rewrite length_insert.
  - rewrite P2. done.
  - eapply fds_own_perm; [| exact R3]. unfold own_events. cbn [set_watch bk_watches bk_wake_event]. by rewrite P2.
  - split; [done | congruence].
Qed.

Lemma entries_set b i w w' :
  NoDup (act (bk_watches b)).*1 -> NoDup (act (<[i := w']> (bk_watches b))).*1 -> bk_watches b !! i = Some w ->
  exists rest, entries b = list_to_map (prod_map id (fun w => (wt_interests w, wt_user w)) <$> act [w] ++ rest) /\
    entries (set_watch i w' b) = list_to_map (prod_map id (fun w => (wt_interests w, wt_user w)) <$> act [w'] ++ rest) /\
    act (bk_watches b) ≡ₚ act [w] ++ rest.
Proof.
  intros Hn Hn' Hi. destruct (act_insert _ _ _ w' Hi) as (rest & P1 & P2). exists rest. split_and!; [by apply entries_perm | by apply entries_perm | done].
Qed.

(** other interests of a watch in use, or another watch that is not in use *)
Lemma alive_interests p b s i w events user :
  alive p b s -> bk_watches b !! i = Some w -> wt_active w = true ->
  let w' := {| wt_socket := wt_socket w; wt_event := wt_event w; wt_interests := events; wt_user := user; wt_active := wt_active w |} in
  alive p (set_watch i w' b) (set_bk (Some (p, set_watch i w' b)) s) /\ entries (set_watch i w' b) = <[wt_socket w := (events, user)]> (entries b).
Proof.
  intros Ha Hi Hw w'. assert (Ha' : alive p (set_watch i w' b) (set_bk (Some (p, set_watch i w' b)) (set_kernel (w_kernel s) s))).
  { eapply alive_set; [done | done | done |]. intros rest Hp. pose proof (wa_sockets _ _ _ Ha) as [S1 S2]. pose proof (wa_events _ _ _ Ha) as E1.
    rewrite Hp in S1, S2. unfold act in *. cbn [omap list_omap] in *. subst w'. cbn [wt_active]. rewrite Hw in *. cbn in *. split_and!; [done | done |].
    eapply fds_own_perm; [| exact E1]. unfold own_events. by rewrite Hp. }
  assert (Es : set_kernel (w_kernel s) s = s) by (by destruct s). rewrite Es in Ha'. split; [done |].
  destruct (entries_set b i w w') as (rest & -> & -> & _); [apply (wa_sockets _ _ _ Ha) | apply (wa_sockets _ _ _ Ha') | done |].
  unfold act. cbn [omap list_omap]. subst w'. cbn [wt_active]. rewrite Hw. cbn. by rewrite insert_insert_eq.
Qed.

Lemma alive_unused p b s i w w' :
  alive p b s -> bk_watches b !! i = Some w -> wt_active w = false -> wt_active w' = false ->
  alive p (set_watch i w' b) (set_bk (Some (p, set_watch i w' b)) s) /\ entries (set_watch i w' b) = entries b.
Proof.
  intros Ha Hi Hw Hw'. assert (Ha' : alive p (set_watch i w' b) (set_bk (Some (p, set_watch i w' b)) (set_kernel (w_kernel s) s))).
  { eapply alive_set; [done | done | done |]. intros rest Hp. pose proof (wa_sockets _ _ _ Ha) as [S1 S2]. pose proof (wa_events _ _ _ Ha) as E1.
    rewrite Hp in S1, S2. unfold act in *. cbn [omap list_omap] in *. rewrite Hw, Hw' in *. cbn in *. split_and!; [done | done |].
    eapply fds_own_perm; [| exact E1]. unfold own_events. by rewrite Hp. }
  assert (Es : set_kernel (w_kernel s) s = s) by (by destruct s). rewrite Es in Ha'. split; [done |].
  destruct (entries_set b i w w') as (rest & -> & -> & _); [apply (wa_sockets _ _ _ Ha) | apply (wa_sockets _ _ _ Ha') | done |].
  unfold act. cbn [omap list_omap]. by rewrite Hw, Hw'.
Qed.

(** a watch is taken into use, with an event object that has just been created *)
Lemma alive_taken p b s i w w' u :
  alive p b s -> bk_watches b !! i = Some w -> wt_active w = false -> wt_active w' = true -> 0 <= wt_socket w' ->
  (wt_socket w' ∉ (act (bk_watches b)).*1) -> (wt_event w' ∉ ws_events (w_kernel s)) -> ws_events u = {[wt_event w']} ∪ ws_events (w_kernel s) ->
  ws_started u = ws_started (w_kernel s) ->
  alive p (set_watch i w' b) (set_bk (Some (p, set_watch i w' b)) (set_kernel u s)).
Proof.
  intros Ha Hi Hw Hw' Hfd Hnew He Eu Est. eapply alive_set; [done | done | done |]. intros rest Hp.
  pose proof (wa_sockets _ _ _ Ha) as [S1 S2]. pose proof (wa_events _ _ _ Ha) as E1. rewrite Hp in S1, S2, Hnew.
  unfold act in *. cbn [omap list_omap] in *. rewrite Hw, Hw' in *. cbn in *. split_and!; [by constructor | by constructor |].
  rewrite Eu. eapply fds_own_perm; [| apply fds_own_add; [exact E1 | exact He]]. unfold own_events. rewrite Hp. cbn. apply Permutation_swap.
Qed.

(** a watch is given up with its event object *)
Lemma alive_drop p b s i w u :
  alive p b s -> bk_watches b !! i = Some w -> wt_active w = true ->
  ws_events u = ws_events (w_kernel s) ∖ {[wt_event w]} -> ws_started u = ws_started (w_kernel s) ->
  alive p (set_watch i watch_zero b) (set_bk (Some (p, set_watch i watch_zero b)) (set_kernel u s)) /\
  entries (set_watch i watch_zero b) = delete (wt_socket w) (entries b).
Proof.
  intros Ha Hi Hw Eu Est. assert (Ha' : alive p (set_watch i watch_zero b) (set_bk (Some (p, set_watch i watch_zero b)) (set_kernel u s))).
  { eapply alive_set; [done | done | done |]. intros rest Hp. pose proof (wa_sockets _ _ _ Ha) as [S1 S2]. pose proof (wa_events _ _ _ Ha) as E1.
    rewrite Hp in S1, S2. unfold act in *. cbn [omap list_omap] in *. rewrite Hw in *. cbn in *.
    apply list.NoDup_cons in S1 as [_ S1]. apply list.Forall_cons in S2 as [_ S2]. split_and!; [done | done |].
    rewrite Eu. eapply fds_own_remove. eapply fds_own_perm; [| exact E1]. unfold own_events. rewrite Hp. cbn. apply Permutation_swap. }
  split; [done |].
  destruct (entries_set b i w watch_zero) as (rest & -> & -> & Hp); [apply (wa_sockets _ _ _ Ha) | apply (wa_sockets _ _ _ Ha') | done |].
  pose proof (wa_sockets _ _ _ Ha) as [S1 _]. rewrite Hp in S1. unfold act in *. cbn [omap list_omap] in *. rewrite Hw in *. cbn in *.
  apply list.NoDup_cons in S1 as [S1 _]. rewrite delete_insert_id; [done |]. apply not_elem_of_list_to_map.
  rewrite <- list_fmap_compose. erewrite list_fmap_ext; [exact S1 |]. by intros ? [].
Qed.

(** *** Registering and removing *)
Lemma wp_find_watch p b s fd (Q : option nat -> wworld W U -> Prop) E :
  alive p b s ->
  (forall i w, bk_watches b !! i = Some w -> wt_active w = true -> wt_socket w = fd -> Q (Some i) s) ->
  ((fd ∉ (act (bk_watches b)).*1) -> Q None s) -> wp (find_watch fd) Q E s.
Proof.
  intros Ha HS HN. unfold find_watch. apply wp_bind. eapply wp_get_bk; [by eapply wa_here |]. apply wp_ret.
  destruct (first_watch _ 0 (bk_watches b)) as [i|] eqn:Ef.
  - apply first_watch_some in Ef as (w & Hi & Hw & _). rewrite Nat.sub_0_r in Hi. apply andb_prop in Hw as [Hw Hfd]. zb. by eapply HS.
  - apply HN. apply first_watch_none in Ef. intros Hin. apply list_elem_of_fmap in Hin as ([fd' w] & -> & Hin). apply act_in in Hin as (Hin & Hw & ->).
    pose proof (proj1 (list.Forall_forall _ _) Ef w Hin) as Hx. cbn in Hx. rewrite Hw, Z.eqb_refl in Hx. done.
Qed.

Definition registered p fd events user b s : Prop :=
  exists b', alive p b' s /\ entries b' = <[fd := (events, user)]> (entries b).
Definition untouched p b s : Prop := exists b', alive p b' s /\ entries b' = entries b.

(** the end of registering, with the watch at hand *)
Lemma register_end p b b0 s fd i w events user :
  alive p b s -> bk_watches b !! i = Some w -> wt_active w = true -> wt_socket w = fd -> <[fd := (events, user)]> (entries b) = <[fd := (events, user)]> (entries b0) ->
  wp (w <- get_watch i ;;
      put_watch i {| wt_socket := wt_socket w; wt_event := wt_event w; wt_interests := events; wt_user := user; wt_active := wt_active w |} ;;;
      ok <- on_kernel (ws_select (wt_socket w) (wt_event w) (network_events events)) ;;
      if ok : bool then ret tt else fail)
    (fun _ => registered p fd events user b0) (registered p fd events user b0) s.
Proof.
  intros Ha Hi Hw <- He. apply wp_bind. eapply wp_watch; [by eapply wa_here | done |].
  apply wp_bind. eapply wp_set_watch; [by eapply wa_here | done |]. destruct (alive_interests p b s i w events user Ha Hi Hw) as [Ha1 E1].
  apply wp_bind, wp_kernel. intros ok u Es. assert (Hq : quiet (w_kernel s) u).
  { eapply law_select; [| exact Es]. right. by eapply (watch_open p b s i w). }
  pose proof (alive_moves_on _ _ _ u Ha1 Hq) as Ha2. rewrite He in E1. destruct ok; [apply wp_ret | apply wp_fail]; by eexists.
Qed.

Lemma wregister_spec p b s fd events user :
  alive p b s -> 0 <= fd ->
  wp (wirecall_backend_register fd events user) (fun _ => registered p fd events user b)
    (fun s' => untouched p b s' \/ registered p fd events user b s') s.
Proof.
  intros Ha Hfd. unfold wirecall_backend_register. apply wp_bind. eapply wp_has_backend; [by eapply wa_here |]. cbn [negb orb].
  replace (fd <? 0) with false by (symmetry; by apply Z.ltb_ge). apply wp_bind. eapply wp_find_watch; [done | |].
  - intros i w Hi Hw Hs. apply wp_bind, wp_ret. eapply wp_mono; [by eapply (register_end p b b s fd i w) | intros ? s'; exact (fun H => H) | intros s' Hs'; by right].
  - intros Hnew. apply wp_bind, wp_bind. unfold alloc_watch. apply wp_bind. eapply wp_get_bk; [by eapply wa_here |]. apply wp_ret.
    destruct (first_watch _ 0 (bk_watches b)) as [i|] eqn:Ef; [| apply wp_fail; left; by exists b].
    apply first_watch_some in Ef as (w & Hi & Hw & _). rewrite Nat.sub_0_r in Hi. apply negb_true_iff in Hw.
    apply wp_bind, wp_kernel. intros e u Ec. pose proof (law_create_event _ _ _ ltac:(rewrite (proj2 (wa_ready _ _ _ Ha)); lia) Ec) as [Est L].
    apply wp_bind. eapply wp_watch; [exact (wa_here _ _ _ Ha) | done |].
    apply wp_bind. eapply wp_set_watch; [exact (wa_here _ _ _ Ha) | done |].
    set (w1 := {| wt_socket := wt_socket w; wt_event := e; wt_interests := _; wt_user := _; wt_active := _ |}). change (WSA_INVALID_EVENT) with 0 in *.
    case_decide as He.
    + rewrite He, Z.eqb_refl. apply wp_fail. left. assert (Ha1 : alive p b (set_kernel u s)) by (by apply alive_moves_on).
      destruct (alive_unused p b _ i w w1 Ha1 Hi Hw Hw) as [Ha2 E2]. by exists (set_watch i w1 b).
    + replace (e =? 0) with false by (symmetry; by apply Z.eqb_neq). destruct L as [Hfresh Eu].
      set (w2 := {| wt_socket := fd; wt_event := e; wt_interests := wt_interests w; wt_user := wt_user w; wt_active := true |}).
      assert (Ha2 : alive p (set_watch i w2 b) (set_bk (Some (p, set_watch i w2 b)) (set_kernel u s))) by (by eapply alive_taken).
      assert (Et : set_watch i w2 (set_watch i w1 b) = set_watch i w2 b) by (unfold set_watch; cbn; by rewrite list_insert_insert_eq).
      assert (Hi1 : bk_watches (set_watch i w1 b) !! i = Some w1) by (cbn; rewrite list_lookup_insert_eq; [done | by eapply lookup_lt_Some]).
      assert (Hi2 : bk_watches (set_watch i w2 b) !! i = Some w2) by (cbn; rewrite list_lookup_insert_eq; [done | by eapply lookup_lt_Some]).
      apply wp_bind. eapply wp_set_watch; [done | exact Hi1 |]. rewrite Et. apply wp_ret.
      eapply wp_mono; [apply (register_end p (set_watch i w2 b) b _ fd i w2); try done | intros ? s'; exact (fun H => H) | intros s' Hs'; by right].
      destruct (entries_set b i w w2) as (rest & -> & -> & _); [apply (wa_sockets _ _ _ Ha) | apply (wa_sockets _ _ _ Ha2) | done |].
      unfold act. cbn [omap list_omap]. rewrite Hw. cbn. by rewrite insert_insert_eq.
Qed.

Lemma wremove_spec p b s fd E :
  alive p b s -> 0 <= fd ->
  wp (wirecall_backend_remove fd) (fun _ s' => exists b', alive p b' s' /\ entries b' = delete fd (entries b)) E s.
Proof.
  intros Ha Hfd. unfold wirecall_backend_remove. apply wp_bind. eapply wp_has_backend; [by eapply wa_here |]. cbn [negb orb].
  replace (fd <? 0) with false by (symmetry; by apply Z.ltb_ge). apply wp_bind. eapply wp_find_watch; [done | |].
  - intros i w Hi Hw Hs. apply wp_bind. eapply wp_watch; [by eapply wa_here | done |].
    apply wp_bind, wp_kernel. intros ok u Es. assert (Hq : quiet (w_kernel s) u) by (eapply law_select; [by left | exact Es]).
    apply wp_bind, wp_kernel. intros ? u2 [= _ <-]. cbn [set_kernel w_kernel].
    pose proof (alive_moves_on _ _ _ u Ha Hq) as Ha1. pose proof (watch_open _ _ _ _ _ Ha1 Hi Hw) as Hopen. cbn [set_kernel w_kernel] in Hopen.
    destruct (law_close_event _ _ Hopen) as [E1 E2]. eapply wp_set_watch; [exact (wa_here _ _ _ Ha) | done |].
    destruct (alive_drop p b _ i w (ws_close_event (wt_event w) u) Ha1 Hi Hw E1 E2) as [Ha2 E3]. rewrite Hs in E3. by eexists.
  - intros Hnew. apply wp_ret. exists b. split; [done |]. rewrite delete_id; [done |]. apply not_elem_of_list_to_map.
    rewrite <- list_fmap_compose. erewrite list_fmap_ext; [exact Hnew |]. by intros ? [].
Qed.

(** *** Polling *)

(** [gather] takes the watches in use, in order, while there is room *)
Lemma gather_spec l i count e j : (e, j) ∈ gather i l count ->
  exists w, l !! (j - i)%nat = Some w /\ wt_active w = true /\ wt_event w = e /\ (i <= j)%nat /\ count + zlen (act (take (j - i) l)) < MAXIMUM_WAIT_OBJECTS.
Proof.
  revert i count. induction l as [|w l IH]; intros i count; cbn [gather]; [by intros ?%elem_of_nil |].
  destruct (count <? MAXIMUM_WAIT_OBJECTS) eqn:Ec; zb; [| by intros ?%elem_of_nil].
  assert (Hrest : forall c, (e, j) ∈ gather (S i) l c -> c = count + zlen (act [w]) ->
    exists w0, (w :: l) !! (j - i)%nat = Some w0 /\ wt_active w0 = true /\ wt_event w0 = e /\ (i <= j)%nat /\ count + zlen (act (take (j - i) (w :: l))) < MAXIMUM_WAIT_OBJECTS).
  { intros c (w0 & Hw & Ha & He & Hj & Hc)%IH ->. exists w0. replace (j - i)%nat with (S (j - S i)) by lia. split_and!; [done | done | done | lia |].
    cbn [take]. change (w :: take (j - S i) l) with ([w] ++ take (j - S i) l). rewrite act_app, zlen_app. lia. }
  destruct (wt_active w) eqn:Ew.
  - intros [[= -> ->] | Hin]%elem_of_cons; [exists w; rewrite Nat.sub_diag; split_and!; [done | done | done | lia | unfold zlen; cbn; lia] |].
    apply (Hrest (count + 1)); [done |]. unfold act. cbn [omap list_omap]. by rewrite Ew.
  - intros Hin. apply (Hrest count); [done |]. unfold act. cbn [omap list_omap]. rewrite Ew. unfold zlen. cbn. lia.
Qed.

Lemma gather_room l i count : count <= MAXIMUM_WAIT_OBJECTS -> count + zlen (gather i l count) <= MAXIMUM_WAIT_OBJECTS.
Proof.
  revert i count. induction l as [|w l IH]; intros i count Hc; cbn [gather]; [change (zlen []) with 0; lia |].
  destruct (count <? MAXIMUM_WAIT_OBJECTS) eqn:Ec; zb; [| change (zlen []) with 0; lia]. destruct (wt_active w); [| by apply IH].
  rewrite zlen_cons. specialize (IH (S i) (count + 1)). lia.
Qed.

Lemma gather_fresh l i count : NoDup (gather i l count).*2.
Proof.
  revert i count. induction l as [|w l IH]; intros i count; cbn [gather]; [constructor |]. destruct (_ <? _); [| constructor].
  destruct (wt_active w); [| apply IH]. cbn [fmap list_fmap snd]. apply list.NoDup_cons. split; [| apply IH].
  intros ([e j] & Hj & Hin)%list_elem_of_fmap. cbn in Hj. subst j. apply gather_spec in Hin as (_ & _ & _ & _ & Hij & _). lia.
Qed.

Lemma ready_events_cases n : ready_events n = 0 \/ ready_events n = WIRECALL_BACKEND_READ \/ ready_events n = WIRECALL_BACKEND_WRITE \/
  ready_events n = Z.lor WIRECALL_BACKEND_READ WIRECALL_BACKEND_WRITE.
Proof. unfold ready_events. destruct (wants _ _), (wants _ _); cbn; auto. Qed.

(** the handles of a poll: what they lead to *)
Definition handle_ok b (x : Z * option nat) : Prop :=
  match x.2 with
  | None => x.1 = bk_wake_event b
  | Some j => exists w, bk_watches b !! j = Some w /\ wt_active w = true /\ wt_event w = x.1 /\ before j b < MAXIMUM_WAIT_OBJECTS - 1
  end.

Lemma handle_open p b s x : alive p b s -> handle_ok b x -> x.1 ∈ ws_events (w_kernel s).
Proof.
  intros Ha. unfold handle_ok. destruct x as [h [j|]]; cbn; [intros (w & Hj & Hw & <- & _); by eapply watch_open | intros ->; by eapply wake_open].
Qed.

Lemma windows_poll_one_spec p b s x E :
  alive p b s -> handle_ok b x ->
  wp (poll_one x.1 x.2) (fun l s' => alive p b s' /\ (l = [] \/ exists e, l = [e] /\ reported_by b x.2 e)) E s.
Proof.
  intros Ha Hx. pose proof (handle_open _ _ _ _ Ha Hx) as Hopen. unfold poll_one. apply wp_bind, wp_kernel. intros r u Er.
  destruct (law_wait [x.1] true (Some 0) (w_kernel s) r u) as (E1 & E2 & _); [done | by apply list.Forall_singleton | done |].
  assert (Ha1 : alive p b (set_kernel u s)) by (by apply alive_moves_on). apply wp_if; intros _; [apply wp_ret; auto |].
  destruct x as [h [j|]]; cbn [fst snd] in *.
  - destruct Hx as (w & Hj & Hw & He & Hb). apply wp_bind. eapply wp_watch; [by eapply wa_here | done |].
    apply wp_bind, wp_kernel. intros n u2 En. cbn [set_kernel w_kernel] in En.
    pose proof (law_enum _ _ _ _ _ (watch_open _ _ _ _ _ Ha1 Hj Hw) En) as Hq. pose proof (alive_moves_on _ _ _ u2 Ha1 Hq) as Ha2.
    destruct n as [n|]; [| apply wp_ret; auto]. apply wp_ret. split; [done |]. pose proof (ready_events_cases n) as Hc.
    destruct (ready_events n =? 0) eqn:E0; zb; [by left |]. right. eexists. split; [done |]. exists w. cbn [ev_fd ev_events ev_user]. split_and!; try done. by destruct Hc.
  - apply wp_bind. eapply wp_get_bk; [by eapply wa_here |]. apply wp_bind, wp_kernel. intros ? u2 [= _ <-]. cbn [set_kernel w_kernel].
    pose proof (law_reset_event _ _ (wake_open _ _ _ Ha1)) as Hq. apply wp_ret. split; [apply (alive_moves_on _ _ _ _ Ha1 Hq) |]. right. by eexists.
Qed.

Lemma windows_poll_loop_spec p b s handles out max E :
  alive p b s -> Forall (handle_ok b) handles -> zlen out <= max ->
  wp (poll_loop handles out max)
    (fun r s' => alive p b s' /\ zlen r <= max /\ exists l hs, r = out ++ l /\ sublist hs handles.*2 /\ Forall2 (reported_by b) hs l) E s.
Proof.
  revert s out. induction handles as [|[h who] handles IH]; intros s out Ha Hh Hz; cbn [poll_loop].
  - apply wp_ret. split_and!; [done | done |]. exists [], []. split_and!; [by rewrite app_nil_r | constructor | constructor].
  - apply list.Forall_cons in Hh as [Hx Hh]. apply wp_if; intros Hm; zb.
    + apply wp_bind. eapply wp_mono; [by apply (windows_poll_one_spec p b s (h, who)) | | intros s'; exact (fun H => H)]. intros l1 s1 [Ha1 Hl1].
      eapply wp_mono; [apply (IH s1 (out ++ l1)); [done | done |] | | intros s'; exact (fun H => H)].
      { rewrite zlen_app. destruct Hl1 as [-> | (e & -> & _)]; [change (zlen []) with 0 | change (zlen [e]) with 1]; lia. }
      intros r s2 (Ha2 & Hr & l & hs & -> & Hs & Hf). split_and!; [done | done |]. destruct Hl1 as [-> | (e & -> & He)].
      * exists l, hs. rewrite app_nil_r. split_and!; [done | by apply sublist_cons | done].
      * exists (e :: l), (who :: hs). rewrite <- app_assoc. split_and!; [done | by apply sublist_skip | by constructor].
    + apply wp_ret. split_and!; [done | done |]. exists [], []. split_and!; [by rewrite app_nil_r | apply sublist_nil_l | constructor].
Qed.

(** different watches in use have different sockets *)
Lemma same_socket l i j w w' :
  NoDup (act l).*1 -> l !! i = Some w -> l !! j = Some w' -> wt_active w = true -> wt_active w' = true -> wt_socket w = wt_socket w' -> i = j.
Proof.
  intros Hn Hi Hj Hw Hw' E. destruct (decide (i = j)) as [| Hij]; [done | exfalso].
  destruct (act_insert _ _ _ watch_zero Hi) as (rest & P1 & P2). rewrite P1 in Hn. unfold act in Hn at 1. cbn [omap list_omap] in Hn. rewrite Hw in Hn. cbn in Hn.
  apply list.NoDup_cons in Hn as [Hn _]. apply Hn. apply list_elem_of_fmap. exists (wt_socket w', w'). split; [done |].
  assert (Hin : (wt_socket w', w') ∈ act (<[i := watch_zero]> l)).
  { apply act_in. split_and!; [| done | done]. eapply list_elem_of_lookup_2. by rewrite list_lookup_insert_ne. }
  rewrite P2 in Hin. done.
Qed.

(** events of different handles are of different descriptors *)
Lemma events_distinct b hs l :
  NoDup (act (bk_watches b)).*1 -> Forall (fun fd => 0 <= fd) (act (bk_watches b)).*1 ->
  NoDup hs -> Forall2 (reported_by b) hs l -> NoDup (map ev_fd l).
Proof.
  intros Hn Hpos Hd Hf. assert (Hin : forall j w, bk_watches b !! j = Some w -> wt_active w = true -> (wt_socket w, w) ∈ act (bk_watches b)).
  { intros j w Hj Hw. apply act_in. split_and!; [by eapply list_elem_of_lookup_2 | done | done]. }
  assert (Hge : forall j w, bk_watches b !! j = Some w -> wt_active w = true -> 0 <= wt_socket w).
  { intros j w Hj Hw. apply (proj1 (list.Forall_forall _ _) Hpos), list_elem_of_fmap. exists (wt_socket w, w). split; [done | by eapply Hin]. }
  assert (Hfd : forall who who' e e', reported_by b who e -> reported_by b who' e' -> ev_fd e = ev_fd e' -> who = who').
  { intros [j|] [j'|] e e'; cbn [reported_by].
    - intros (w & Hj & Hw & _ & E1 & _) (w' & Hj' & Hw' & _ & E2 & _) E. f_equal. eapply same_socket; [exact Hn | exact Hj | exact Hj' | done | done | congruence].
    - intros (w & Hj & Hw & _ & E1 & _) -> E. exfalso. rewrite E1 in E. cbn in E. specialize (Hge _ _ Hj Hw). lia.
    - intros -> (w & Hj & Hw & _ & E1 & _) E. exfalso. rewrite E1 in E. cbn in E. specialize (Hge _ _ Hj Hw). lia.
    - done. }
  induction Hf as [|who e hs l He Hf IH]; [constructor |]. apply list.NoDup_cons in Hd as [Hw Hd]. cbn [map]. apply list.NoDup_cons. split; [| by apply IH].
  intros Hin2. apply Hw. apply list_elem_of_In, in_map_iff in Hin2 as (e' & Ee & Hin2). apply list_elem_of_In in Hin2.
  apply list_elem_of_lookup in Hin2 as [k Hk]. destruct (Forall2_lookup_r _ _ _ _ _ Hf Hk) as (who' & Hk' & He').
  rewrite (Hfd who who' e e' He He' (eq_sym Ee)). by eapply list_elem_of_lookup_2.
Qed.

Lemma zdrop_sub {A} n (l : list A) : sublist (zdrop n l) l.
Proof. apply sublist_drop. Qed.

Definition handles b : list (Z * option nat) := (bk_wake_event b, None) :: map (fun x => (x.1, Some x.2)) (gather 0 (bk_watches b) 1).

Lemma handles_ok b : Forall (handle_ok b) (handles b) /\ NoDup (handles b).*2 /\ 0 < zlen (handles b) <= MAXIMUM_WAIT_OBJECTS.
Proof.
  unfold handles. split_and!.
  - apply list.Forall_cons. split; [done |]. apply list.Forall_forall. intros x Hx. apply list_elem_of_In, in_map_iff in Hx as ([e j] & <- & Hx).
    apply list_elem_of_In, gather_spec in Hx as (w & Hj & Hw & He & _ & Hc). rewrite Nat.sub_0_r in *. exists w. split_and!; [done | done | done | unfold before; cbn [snd]; lia].
  - cbn [fmap list_fmap snd]. apply list.NoDup_cons. assert (E : (map (fun x : Z * nat => (x.1, Some x.2)) (gather 0 (bk_watches b) 1)).*2 = Some <$> (gather 0 (bk_watches b) 1).*2).
    { rewrite <- !list_fmap_compose. apply list_fmap_ext. by intros ? []. }
    change (list_fmap _ _ snd) with (fmap (M := list) (snd (A := Z) (B := option nat))). rewrite E. split; [by intros (? & ? & _)%list_elem_of_fmap |]. apply NoDup_fmap_2; [apply _ | apply gather_fresh].
  - rewrite zlen_cons. unfold zlen. lia.
  - rewrite zlen_cons. unfold zlen. rewrite length_map. pose proof (gather_room (bk_watches b) 0 1) as Hr. unfold zlen in Hr.
    specialize (Hr ltac:(unfold MAXIMUM_WAIT_OBJECTS; lia)). lia.
Qed.

Lemma wpoll_spec p b s max timeout :
  alive p b s ->
  wp (wirecall_backend_poll max timeout) (fun l s' => alive p b s' /\ windows_spec (WPoll max timeout) (Ok l) b b) (alive p b) s.
Proof.
  intros Ha. unfold wirecall_backend_poll. apply wp_bind. eapply wp_has_backend; [by eapply wa_here |]. cbn [negb orb].
  apply wp_if; intros Hm; zb; [by apply wp_fail |]. apply wp_bind. eapply wp_get_bk; [by eapply wa_here |].
  change (_ :: map _ _) with (handles b). destruct (handles_ok b) as (Hh & Hd & Hz). apply wp_bind, wp_kernel. intros r u Er.
  assert (Hzf : 0 < zlen (map fst (handles b)) <= MAXIMUM_WAIT_OBJECTS) by (unfold zlen in *; by rewrite length_map).
  destruct (fun Ho => law_wait _ _ _ _ _ _ Hzf Ho Er) as (E1 & E2 & _).
  { apply list.Forall_forall. intros h Hin. apply list_elem_of_In, in_map_iff in Hin as (x & <- & Hin). apply list_elem_of_In in Hin.
    eapply handle_open; [done | by eapply (proj1 (list.Forall_forall _ _) Hh)]. }
  assert (Ha1 : alive p b (set_kernel u s)) by (by apply alive_moves_on). destruct r as [start| |].
  - eapply wp_mono; [apply (windows_poll_loop_spec p b _ (zdrop start (handles b)) [] max (alive p b) Ha1) | | done].
    + apply Forall_drop, Hh.
    + change (zlen (@nil wirecall_backend_event)) with 0. lia.
    + intros l s' (Ha' & Hl & l' & hs & -> & Hsub & Hf). split; [done |]. cbn [windows_spec app] in *. split_and!; [done | done | |].
      * destruct (wa_sockets _ _ _ Ha) as [S1 S2]. eapply events_distinct; [done | done | | done].
        eapply sublist_NoDup; [exact Hd |]. etransitivity; [exact Hsub |]. apply fmap_sublist, zdrop_sub.
      * clear Hsub Hl. induction Hf as [|who e hs l He Hf IH]; constructor; [by exists who | done].
  - apply wp_ret. split; [done |]. split_and!; [done | change (zlen (@nil wirecall_backend_event)) with 0; lia | constructor | constructor].
  - by apply wp_fail.
Qed.

Lemma windows_exec_spec p b s op :
  alive p b s ->
  wp (windows_exec op) (fun l s' => exists b', alive p b' s' /\ windows_spec op (Ok l) b b')
    (fun s' => exists b', alive p b' s' /\ windows_spec op Err b b') s.
Proof.
  intros Ha. assert (Hreg : forall fd events user, wp (wirecall_backend_register fd events user ;;; ret [])
    (fun l s' => exists b', alive p b' s' /\ windows_spec (WRegister fd events user) (Ok l) b b')
    (fun s' => exists b', alive p b' s' /\ windows_spec (WRegister fd events user) Err b b') s).
  { intros fd events user. apply wp_bind. destruct (Z.ltb_spec fd 0) as [Hfd | Hfd].
    - unfold wirecall_backend_register. apply wp_bind. eapply wp_has_backend; [by eapply wa_here |]. replace (fd <? 0) with true by (symmetry; by apply Z.ltb_lt).
      apply wp_fail. exists b. split; [done |]. by left.
    - eapply wp_mono; [apply (wregister_spec p b s fd events user Ha Hfd) | |].
      + intros _ s' (b' & Ha' & He). apply wp_ret. by exists b'.
      + intros s' [(b' & Ha' & He) | (b' & Ha' & He)]; exists b'; (split; [done |]); [by left | by right]. }
  destruct op as [fd events user|fd events user|fd| |max timeout]; cbn [windows_exec]; [apply Hreg | apply Hreg | | |].
  - apply wp_bind. destruct (Z.ltb_spec fd 0) as [Hfd | Hfd].
    + unfold wirecall_backend_remove. apply wp_bind. eapply wp_has_backend; [by eapply wa_here |]. replace (fd <? 0) with true by (symmetry; by apply Z.ltb_lt).
      apply wp_fail. by exists b.
    + eapply wp_mono; [by apply (wremove_spec p b s fd) | | intros s'; exact (fun H => H)]. intros _ s' (b' & Ha' & He). apply wp_ret. by exists b'.
  - apply wp_bind. unfold wirecall_backend_wake. apply wp_bind. eapply wp_has_backend; [by eapply wa_here |]. cbn [negb].
    apply wp_bind. eapply wp_get_bk; [by eapply wa_here |]. apply wp_bind, wp_kernel. intros ok u Es.
    pose proof (law_set_event _ _ _ _ (wake_open _ _ _ Ha) Es) as Hq. pose proof (alive_moves_on _ _ _ u Ha Hq) as Ha1.
    destruct ok; [apply wp_ret, wp_ret | apply wp_fail]; by exists b.
  - eapply wp_mono; [by apply (wpoll_spec p b s max timeout) | |].
    + intros l s' [Ha' Hs]. by exists b.
    + intros s' Ha'. by exists b.
Qed.

(** *** Creating and destroying *)
Definition blank s : Prop := w_backend s = None /\ owns base [] (w_heap s) /\ ws_events (w_kernel s) = evs /\ ws_started (w_kernel s) = st.

(** what destroying a backend has to give back *)
Definition held p b (events : list Z) s : Prop :=
  w_backend s = Some (p, b) /\ owns base [p] (w_heap s) /\ fds_own evs events (ws_events (w_kernel s)) /\ ws_started (w_kernel s) = S st.

Lemma held_close p b e events s : held p b (e :: events) s -> held p b events (set_kernel (ws_close_event e (w_kernel s)) s).
Proof.
  intros (H1 & H2 & H3 & H4). apply fds_own_remove in H3 as [H3 Hin]. destruct (law_close_event _ _ Hin) as [E1 E2].
  split_and!; [done | done | cbn [set_kernel w_kernel]; by rewrite E1 | cbn [set_kernel w_kernel]; congruence].
Qed.

Lemma close_watches_spec p b l events s E :
  held p b (map (fun x => wt_event x.2) (act l) ++ events) s -> wp (close_watches l) (fun _ => held p b events) E s.
Proof.
  revert s. induction l as [|w l IH]; intros s Hh; [by apply wp_ret |]. cbn [close_watches]. apply wp_bind. unfold act in Hh. cbn [omap list_omap] in Hh.
  apply wp_if; intros Hw; rewrite Hw in Hh; [| by apply wp_ret, IH]. apply wp_bind, wp_kernel. intros ok u Es.
  assert (Hq : quiet (w_kernel s) u) by (eapply law_select; [by left | exact Es]). apply wp_kernel. intros ? u2 [= _ <-]. apply IH.
  destruct Hh as (H1 & H2 & H3 & H4). destruct Hq as [E1 E2]. eapply (held_close p b (wt_event w)).
  split_and!; [done | done | cbn [set_kernel w_kernel]; by rewrite E1 | cbn [set_kernel w_kernel]; congruence].
Qed.

Lemma wdestroy_spec p b s E :
  held p b (map (fun x => wt_event x.2) (act (bk_watches b)) ++ (if bk_wake_event b =? WSA_INVALID_EVENT then [] else [bk_wake_event b])) s ->
  bk_wsa_ready b = true -> wp wirecall_backend_destroy (fun _ => blank) E s.
Proof.
  intros Hh Hr. unfold wirecall_backend_destroy. apply wp_bind. eapply wp_has_backend; [apply Hh |]. cbn [negb].
  apply wp_bind. eapply wp_get_bk; [apply Hh |]. apply wp_bind. eapply wp_mono; [apply (close_watches_spec p b _ _ _ E Hh) | | done].
  intros ? s1 H1. apply wp_bind. eapply (wp_mono _ (fun _ => held p b [])); [| | intros s'; exact (fun H => H)].
  - destruct (bk_wake_event b =? WSA_INVALID_EVENT); cbn [negb]; [by apply wp_ret |]. apply wp_kernel. intros ? u [= _ <-]. by apply held_close.
  - intros _ s2 (H2 & H3 & H4 & H5). rewrite Hr. apply wp_bind, wp_kernel. intros ? u [= _ <-].
    destruct (law_cleanup (w_kernel s2)) as [E1 E2]; [rewrite H5; lia |]. eapply wp_free_bk; [exact H2 |].
    split_and!; [done | by apply (owns_free _ p) | |]; cbn [set_bk set_wheap set_kernel w_kernel].
    + rewrite E1. by apply fds_own_nil in H4.
    + rewrite E2, H5. done.
Qed.

Lemma alive_held p b s : alive p b s ->
  held p b (map (fun x => wt_event x.2) (act (bk_watches b)) ++ (if bk_wake_event b =? WSA_INVALID_EVENT then [] else [bk_wake_event b])) s.
Proof.
  intros Ha. split_and!; [by eapply wa_here | by eapply wa_heap | | apply (wa_ready _ _ _ Ha)].
  destruct (Z.eqb_spec (bk_wake_event b) WSA_INVALID_EVENT) as [Hz | Hz]; [by destruct (wa_wake _ _ _ Ha) |].
  eapply fds_own_perm; [| by eapply wa_events]. apply Permutation_cons_append.
Qed.

Lemma act_zeroes : act (zreplicate WIRECALL_WINDOWS_MAX_WATCHES watch_zero) = [].
Proof. by vm_compute. Qed.

Lemma wcreate_spec s : blank s -> wp (wirecall_backend_create true) (fun _ s' => exists p b, alive p b s') blank s.
Proof.
  intros (Hn & Ho & He & Hs). unfold wirecall_backend_create. cbn [negb]. apply wp_bind, wp_wheap. intros r h Ec.
  apply (owns_calloc base []) in Ec; [| done | by_compute | done]. destruct r as [p|]; [| by apply wp_fail]. cbn [option_list app] in Ec.
  apply wp_bind, wp_kernel. intros ok u Eu. cbn [set_wheap w_kernel] in Eu. destruct (law_startup _ _ _ Eu) as [E1 E2]. apply wp_if; intros Hok.
  { destruct ok; [done |]. apply wp_bind, wp_wheap. intros ? h2 [= _ <-]. apply wp_fail. split_and!; [done | by apply (owns_free _ p) | |]; cbn; congruence. }
  destruct ok; [| done]. apply wp_bind. unfold wp at 1, modify. apply wp_bind, wp_kernel. intros wake u2 Ew. cbn [set_bk set_kernel w_kernel] in Ew.
  destruct (law_create_event u wake u2) as [E3 L]; [lia | done |]. apply wp_bind. eapply wp_upd_bk; [done |].
  set (b := set_wake wake (set_ready backend_zero)). rewrite E1, He in L. change WSA_INVALID_EVENT with 0 in *. case_decide as Hw.
  - rewrite Hw, Z.eqb_refl. apply wp_bind. eapply wp_mono; [eapply (wdestroy_spec p b) | intros ? s' Hb; by apply wp_fail | intros s'; exact (fun H => H)]; [| done].
    change (bk_watches b) with (zreplicate WIRECALL_WINDOWS_MAX_WATCHES watch_zero). rewrite act_zeroes. change (bk_wake_event b) with wake. rewrite Hw. cbn [map app].
    split_and!; [done | done | cbn; apply fds_own_nil; congruence | cbn; congruence].
  - replace (wake =? 0) with false by (symmetry; by apply Z.eqb_neq). apply wp_ret. exists p, b. destruct L as [Hf L].
    constructor; try done; unfold own_events; change (bk_watches b) with (zreplicate WIRECALL_WINDOWS_MAX_WATCHES watch_zero); rewrite ?act_zeroes.
    + split; constructor.
    + cbn. rewrite L. apply (fds_own_add evs []); [by apply fds_own_nil | done].
    + split; [done |]. cbn. congruence.
Qed.
End Reach.

Lemma windows_reach_alive s0 s : size_bits = 64 -> w_backend s0 = None -> heap_inv (w_heap s0) -> windows_reach s0 s ->
  exists p b, alive (heap_live (w_heap s0)) (ws_events (w_kernel s0)) (ws_started (w_kernel s0)) p b s.
Proof.
  intros H64 Hn Hi Hr. induction Hr as [s E|s op r s' Hr (p & b & Ha) E].
  - assert (Hb : blank (heap_live (w_heap s0)) (ws_events (w_kernel s0)) (ws_started (w_kernel s0)) s0) by (split_and!; [done | by apply owns_start | done | done]).
    apply (wp_run _ _ _ _ _ _ E (wcreate_spec H64 _ _ _ s0 Hb)).
  - pose proof (wp_run _ _ _ _ _ _ E (windows_exec_spec _ _ _ p b s op Ha)) as Hx. destruct r as [l| |]; [| | done]; destruct Hx as (b' & Ha' & _); by exists p, b'.
Qed.
End Calls.

(** ** A scripted system *)
Record toywinsock := {
  tw_started : nat;
  tw_events : gset Z;
  (** the event objects that are set; the sockets of the others *)
  tw_set : gset Z;
  tw_sockets : gmap Z Z;
  (** the network events of the sockets *)
  tw_network : gmap Z Z;
  (** whether creating an event object and selecting succeed; success when used up *)
  tw_answers : list bool;
}.
Definition tw_with (started : nat) (events set : gset Z) (sockets : gmap Z Z) (u : toywinsock) : toywinsock :=
  {| tw_started := started; tw_events := events; tw_set := set; tw_sockets := sockets; tw_network := tw_network u; tw_answers := tl (tw_answers u) |}.
Definition tw_answer (u : toywinsock) : bool := default true (head (tw_answers u)).

Definition tw_signalled (u : toywinsock) (e : Z) : bool :=
  bool_decide (e ∈ tw_set u) || match tw_sockets u !! e with Some s => negb (default 0 (tw_network u !! s) =? 0) | None => false end.
Fixpoint tw_first (u : toywinsock) (i : Z) (l : list Z) : wait_result :=
  match l with
  | [] => WSA_WAIT_TIMEOUT
  | e :: rest => if tw_signalled u e then WSA_WAIT_EVENT i else tw_first u (i + 1) rest
  end.

Lemma tw_first_range u i l : match tw_first u i l with WSA_WAIT_EVENT j => i <= j < i + zlen l | _ => True end.
Proof.
  revert i. induction l as [|e l IH]; intros i; cbn [tw_first]; [done |]. rewrite zlen_cons. destruct (tw_signalled u e); [pose proof (zlen_nonneg l); lia |].
  specialize (IH (i + 1)). destruct (tw_first u (i + 1) l); [lia | done | done].
Qed.

#[global] Program Instance toy_winsock : Winsock toywinsock := {|
  ws_startup u := (true, tw_with (S (tw_started u)) (tw_events u) (tw_set u) (tw_sockets u) u);
  ws_cleanup u := tw_with (pred (tw_started u)) (tw_events u) (tw_set u) (tw_sockets u) u;
  ws_create_event u := if tw_answer u then (fresh_above (elements (tw_events u)), tw_with (tw_started u) ({[fresh_above (elements (tw_events u))]} ∪ tw_events u) (tw_set u) (tw_sockets u) u)
                       else (WSA_INVALID_EVENT, tw_with (tw_started u) (tw_events u) (tw_set u) (tw_sockets u) u);
  ws_close_event e u := tw_with (tw_started u) (tw_events u ∖ {[e]}) (tw_set u ∖ {[e]}) (delete e (tw_sockets u)) u;
  ws_select s e n u := (tw_answer u, tw_with (tw_started u) (tw_events u) (tw_set u) (if tw_answer u && negb (e =? 0) then <[e := s]> (tw_sockets u) else tw_sockets u) u);
  ws_set_event e u := (true, tw_with (tw_started u) (tw_events u) ({[e]} ∪ tw_set u) (tw_sockets u) u);
  ws_reset_event e u := tw_with (tw_started u) (tw_events u) (tw_set u ∖ {[e]}) (tw_sockets u) u;
  ws_wait l all timeout u := (tw_first u 0 l, u);
  ws_enum s e u := (Some (default 0 (tw_network u !! s)), u);
  ws_events := tw_events; ws_started := tw_started;
|}.
Next Obligation. by intros u b u' [= <- <-]. Qed.
Next Obligation. done. Qed.
Next Obligation.
  intros u e u' _. cbn. destruct (tw_answer u); intros [= <- <-]; split; try done. destruct (fresh_above_set (tw_events u)). rewrite decide_False; [done | unfold WSA_INVALID_EVENT; lia].
Qed.
Next Obligation. done. Qed.
Next Obligation. by intros s e n u b u' _ [= <- <-]. Qed.
Next Obligation. by intros e u b u' _ [= <- <-]. Qed.
Next Obligation. done. Qed.
Next Obligation.
  intros l all timeout u r u' _ _ [= <- <-]. split_and!; [done | done |]. pose proof (tw_first_range u 0 l) as H. by destruct (tw_first u 0 l).
Qed.
Next Obligation. by intros s e u r u' _ [= <- <-]. Qed.

(** ** The properties *)
#[local] Existing Instance host_lp64.
#[local] Existing Instance toy_heap.
Definition toy_wworld (network : gmap Z Z) (answers : list bool) : wworld toy toywinsock :=
  {| w_heap := toy_empty []; w_kernel := {| tw_started := 0; tw_events := ∅; tw_set := ∅; tw_sockets := ∅; tw_network := network; tw_answers := answers |};
     w_backend := None |}.

(** connections 5 to 5 + [n] - 1 *)
Fixpoint toy_register (n : nat) (s : wworld toy toywinsock) : wworld toy toywinsock :=
  match n with
  | O => s
  | S n => (windows_exec (WRegister (5 + Z.of_nat n) WIRECALL_BACKEND_READ (UConn (1000 + Z.of_nat n))) (toy_register n s)).2
  end.
Definition toy_windows_0 := toy_wworld {[ 5 := FD_READ; 68 := FD_READ ]} [].
Definition toy_windows_1 := (wirecall_backend_create true toy_windows_0).2.
Definition toy_windows_64 := toy_register 64 toy_windows_1.

Lemma toy_windows_reach n : windows_reach toy_windows_0 (toy_register n toy_windows_1).
Proof.
  induction n as [|n IH]; [apply windows_created; vm_compute; reflexivity |].
  eapply (windows_called _ _ (WRegister (5 + Z.of_nat n) WIRECALL_BACKEND_READ (UConn (1000 + Z.of_nat n)))); [exact IH | apply surjective_pairing].
Qed.

(** C15: the table of the Windows backend implements a map from sockets to
    interests and user word: after its creation and any calls, whatever the
    system and the allocator answer, no call reaches an undefined access;
    registering or modifying a socket sets its entry or, when it fails, leaves
    the map alone or has set it; removing one deletes its entry; wake and poll
    change nothing; and a poll reports at most as many events as it is asked
    for, one for a socket at most, each the wake-up or that of a watch in use
    among the first 63 ones. *)
Theorem windows_refines_map `{Host} `{Heap W} `{Winsock U} (s0 s : wworld W U) op r s' :
  size_bits = 64 -> w_backend s0 = None -> heap_inv (w_heap s0) -> windows_reach s0 s -> windows_exec op s = (r, s') ->
  windows_spec op r (the_windows s) (the_windows s').
Proof.
  intros H64 Hn Hi Hr E. destruct (windows_reach_alive s0 s H64 Hn Hi Hr) as (p & b & Ha). unfold the_windows.
  pose proof (wp_run _ _ _ _ _ _ E (windows_exec_spec _ _ _ p b s op Ha)) as Hx. rewrite (wa_here _ _ _ _ _ _ Ha).
  destruct r as [l| |]; [| | done]; destruct Hx as (b' & Ha' & Hu); by rewrite (wa_here _ _ _ _ _ _ Ha').
Qed.

Lemma windows_refines_map_witness :
  windows_spec (WRemove 20) (windows_exec (WRemove 20) toy_windows_64).1 (the_windows toy_windows_64) (the_windows (windows_exec (WRemove 20) toy_windows_64).2).
Proof.
  apply (windows_refines_map toy_windows_0 toy_windows_64).
  - reflexivity.
  - reflexivity.
  - apply toy_empty_inv.
  - apply toy_windows_reach.
  - apply surjective_pairing.
Defined.

(** a Windows backend gives everything back: creating one succeeds or, on
    whatever failure, releases block, event objects and the startup of Winsock;
    and after any calls destroying it releases them too *)
Theorem windows_balance `{Host} `{Heap W} `{Winsock U} (s0 : wworld W U) :
  size_bits = 64 -> w_backend s0 = None -> heap_inv (w_heap s0) ->
  let back s' := w_backend s' = None /\ heap_live (w_heap s') = heap_live (w_heap s0) /\ ws_events (w_kernel s') = ws_events (w_kernel s0) /\
                 ws_started (w_kernel s') = ws_started (w_kernel s0) in
  (forall r s, wirecall_backend_create true s0 = (r, s) -> r = Ok tt \/ (r = Err /\ back s)) /\
  (forall s, windows_reach s0 s -> exists s', wirecall_backend_destroy s = (Ok tt, s') /\ back s').
Proof.
  intros H64 Hn Hi back. split.
  - intros r s E. assert (Hb : blank (heap_live (w_heap s0)) (ws_events (w_kernel s0)) (ws_started (w_kernel s0)) s0) by (split_and!; [done | by apply owns_start | done | done]).
    pose proof (wp_run _ _ _ _ _ _ E (wcreate_spec H64 _ _ _ s0 Hb)) as Hr. destruct r as [[]| |]; [by left | right | done].
    destruct Hr as (E1 & [_ E2]%owns_nil & E3 & E4). done.
  - intros s Hr. destruct (windows_reach_alive s0 s H64 Hn Hi Hr) as (p & b & Ha).
    pose proof (wdestroy_spec _ _ _ p b s (fun _ => False) (alive_held _ _ _ p b s Ha) (proj1 (wa_ready _ _ _ _ _ _ Ha))) as Hd. unfold wp in Hd.
    destruct (wirecall_backend_destroy s) as [[[]| |] s']; [| done | done]. exists s'. split; [done |].
    destruct Hd as (E1 & [_ E2]%owns_nil & E3 & E4). done.
Qed.

(** The Windows backend waits for the first 63 watches in use and no other,
    the limit of WSAWaitForMultipleEvents less the wake-up: although it accepts
    1024 of them, no poll ever reports a watch with 63 others before it, as
    long as these stay registered, whatever arrives on its socket. *)
Theorem windows_never_reports `{Host} `{Heap W} `{Winsock U} (s0 s : wworld W U) j w max timeout l s' :
  size_bits = 64 -> w_backend s0 = None -> heap_inv (w_heap s0) -> windows_reach s0 s ->
  bk_watches (the_windows s) !! j = Some w -> wt_active w = true -> 63 <= before j (the_windows s) ->
  windows_exec (WPoll max timeout) s = (Ok l, s') -> Forall (fun e => ev_fd e <> wt_socket w) l.
Proof.
  intros H64 Hn Hi Hr Hj Hw Hb E. destruct (windows_reach_alive s0 s H64 Hn Hi Hr) as (p & b & Ha). unfold the_windows in *.
  rewrite (wa_here _ _ _ _ _ _ Ha) in *. destruct (wp_run _ _ _ _ _ _ E (windows_exec_spec _ _ _ p b s _ Ha)) as (b' & _ & _ & _ & _ & Hall).
  eapply list.Forall_impl; [exact Hall |]. intros e (who & He) Ew. destruct (wa_sockets _ _ _ _ _ _ Ha) as [S1 S2].
  destruct who as [i|].
  - destruct He as (w' & Hi' & Hw' & Hlt & Efd & _). unfold MAXIMUM_WAIT_OBJECTS in Hlt.
    assert (i = j) as ->; [| lia]. eapply same_socket; [exact S1 | exact Hi' | exact Hj | done | done | congruence].
  - rewrite He in Ew. cbn in Ew. assert (0 <= wt_socket w); [| lia]. apply (proj1 (list.Forall_forall _ _) S2), list_elem_of_fmap.
    exists (wt_socket w, w). split; [done |]. apply act_in. split_and!; [by eapply list_elem_of_lookup_2 | done | done].
Qed.

Lemma windows_never_reports_witness :
  let l := [{| ev_fd := 5; ev_events := WIRECALL_BACKEND_READ; ev_user := UConn 1000 |}] in
  (windows_exec (WPoll 8 (-1)) toy_windows_64).1 = Ok l /\ Forall (fun e => ev_fd e <> 68) l.
Proof.
  cbv zeta. split; [by vm_compute |].
  apply (windows_never_reports toy_windows_0 toy_windows_64 63 {| wt_socket := 68; wt_event := 164; wt_interests := 1; wt_user := UConn 1063; wt_active := true |} 8 (-1) _
    (windows_exec (WPoll 8 (-1)) toy_windows_64).2).
  - reflexivity.
  - reflexivity.
  - apply toy_empty_inv.
  - apply toy_windows_reach.
  - by vm_compute.
  - reflexivity.
  - by vm_compute.
  - vm_compute. reflexivity.
Defined.
