(* ===== verification/Trace.v ===== *)
(** * Trace: counters of the library's own activity (src/trace.c, include/wirecall/trace.h)

    A metric has a number of samples, their total and their maximum; the
    counters are shared by all threads and changed by atomic operations.  First
    the operations as one thread runs them, the clock an argument; then the
    updates of one counter by any number of threads at the granularity of its
    atomic operations, which are relaxed: a load may return any value the
    location has had.  Printing them is in TraceDump.v. *)

From stdpp Require Import strings.
From S2P Require Import Prelude Words.
#[global] Open Scope Z_scope.

(** ** Data *)
Definition WIRECALL_TRACE_COUNT : Z := 19.
Definition WIRECALL_TRACE_WORKER_COUNT : Z := 6.
Definition WIRECALL_TRACE_MAX_WORKERS : Z := 128.

Record wirecall_trace_counter := { tc_count : Z; tc_total_ns : Z; tc_max_ns : Z }.
Definition counter_zero : wirecall_trace_counter := {| tc_count := 0; tc_total_ns := 0; tc_max_ns := 0 |}.

Definition trace_names : list string :=
  ["client.call"; "client.send"; "client.recv"; "client.decode"; "server.accept"; "server.poll_wait"; "server.poll_events";
   "server.loop_active"; "server.read"; "server.parse"; "server.route"; "server.schedule"; "server.write"; "sched.submit";
   "sched.decode"; "sched.coro_create"; "sched.resume"; "payload.decode"; "route.lookup"]%string.
Definition trace_is_time : list Z := [1; 1; 1; 1; 1; 1; 0; 1; 1; 1; 1; 1; 1; 1; 1; 1; 1; 1; 1].

Record wirecall_trace_stat := { st_name : string; st_count : Z; st_total : Z; st_max : Z; st_is_time : Z }.

(** the static variables *)
Record trace := {
  wirecall_trace_enabled : Z;
  counters : list wirecall_trace_counter;
  worker_counters : list (list wirecall_trace_counter);
}.
Definition trace_start : trace :=
  {| wirecall_trace_enabled := 0; counters := zreplicate WIRECALL_TRACE_COUNT counter_zero;
     worker_counters := zreplicate WIRECALL_TRACE_MAX_WORKERS (zreplicate WIRECALL_TRACE_WORKER_COUNT counter_zero) |}.
Definition set_counters (c : list wirecall_trace_counter) (w : list (list wirecall_trace_counter)) (t : trace) : trace :=
  {| wirecall_trace_enabled := wirecall_trace_enabled t; counters := c; worker_counters := w |}.

(** ** Operations *)
Definition wirecall_trace_set_enabled (enabled : Z) (t : trace) : trace :=
  {| wirecall_trace_enabled := if enabled =? 0 then 0 else 1; counters := counters t; worker_counters := worker_counters t |}.
Definition wirecall_trace_is_enabled (t : trace) : bool := negb (wirecall_trace_enabled t =? 0).

(** [while (old < value && !compare_exchange(&max, &old, value))], alone *)
Definition trace_counter_add (c : wirecall_trace_counter) (value : Z) : wirecall_trace_counter :=
  {| tc_count := u64 (tc_count c + 1); tc_total_ns := u64 (tc_total_ns c + value);
     tc_max_ns := if tc_max_ns c <? value then value else tc_max_ns c |}.

Definition wirecall_trace_add_slow (metric value : Z) (t : trace) : trace :=
  if WIRECALL_TRACE_COUNT <=? u32 metric then t
  else set_counters (alter (fun c => trace_counter_add c value) (Z.to_nat (u32 metric)) (counters t)) (worker_counters t) t.

Definition wirecall_trace_worker_add_slow (worker metric value : Z) (t : trace) : trace :=
  if (WIRECALL_TRACE_MAX_WORKERS <=? worker) || (WIRECALL_TRACE_WORKER_COUNT <=? u32 metric) then t
  else set_counters (counters t)
         (alter (alter (fun c => trace_counter_add c value) (Z.to_nat (u32 metric))) (Z.to_nat worker) (worker_counters t)) t.

Definition wirecall_trace_begin_slow (now : Z) : Z := now.
Definition wirecall_trace_end_slow (metric start_ns now : Z) (t : trace) : trace :=
  wirecall_trace_add_slow metric (u64 (wirecall_trace_begin_slow now - start_ns)) t.
Definition wirecall_trace_worker_end_slow (worker metric start_ns now : Z) (t : trace) : trace :=
  wirecall_trace_worker_add_slow worker metric (u64 (wirecall_trace_begin_slow now - start_ns)) t.

Definition wirecall_trace_begin (now : Z) (t : trace) : Z := if wirecall_trace_is_enabled t then wirecall_trace_begin_slow now else 0.
Definition wirecall_trace_end (metric start_ns now : Z) (t : trace) : trace :=
  if wirecall_trace_is_enabled t && negb (start_ns =? 0) then wirecall_trace_end_slow metric start_ns now t else t.
Definition wirecall_trace_add (metric value : Z) (t : trace) : trace :=
  if wirecall_trace_is_enabled t then wirecall_trace_add_slow metric value t else t.
Definition wirecall_trace_worker_end (worker metric start_ns now : Z) (t : trace) : trace :=
  if wirecall_trace_is_enabled t && negb (start_ns =? 0) then wirecall_trace_worker_end_slow worker metric start_ns now t else t.
Definition wirecall_trace_worker_add (worker metric value : Z) (t : trace) : trace :=
  if wirecall_trace_is_enabled t then wirecall_trace_worker_add_slow worker metric value t else t.

Definition wirecall_trace_reset (t : trace) : trace :=
  set_counters (map (fun _ => counter_zero) (counters t)) (map (map (fun _ => counter_zero)) (worker_counters t)) t.

(** the names and kinds are tables as long as the counters *)
Fixpoint snapshot_loop (names : list string) (times : list Z) (cs : list wirecall_trace_counter) : list wirecall_trace_stat :=
  match names, times, cs with
  | n :: names, i :: times, c :: cs =>
      {| st_name := n; st_count := tc_count c; st_total := tc_total_ns c; st_max := tc_max_ns c; st_is_time := i |} :: snapshot_loop names times cs
  | _, _, _ => []
  end.
Definition wirecall_trace_snapshot (t : trace) : list wirecall_trace_stat := snapshot_loop trace_names trace_is_time (counters t).

(** ** One counter and many threads *)

(** where a thread is in an update with [value]: before it, before the addition
    to the number, before that to the total, before the load of the maximum, in
    the loop with [old] *)
Inductive tphase := TIdle | TCount (value : Z) | TTotal (value : Z) | TLoad (value : Z) | TMax (value old : Z).
#[global] Instance tphase_eq_dec : EqDecision tphase.
Proof. solve_decision. Defined.

Record tstate := {
  ts_count : Z;
  ts_total : Z;
  (** the values the maximum has had, the last first *)
  ts_max : list Z;
  ts_threads : gmap nat tphase;
  (** the samples of the updates that are complete *)
  ts_done : list Z;
}.
Definition tstart : tstate := {| ts_count := 0; ts_total := 0; ts_max := [0]; ts_threads := ∅; ts_done := [] |}.

(** [seen]: how old the value is that a load, or a failing exchange, returns *)
Inductive taction :=
| AStart (t : nat) (value : Z) | AAddCount (t : nat) | AAddTotal (t : nat) | ALoadMax (t seen : nat)
| AExchange (t : nat) | AMissed (t seen : nat) | AFinish (t : nat).

Definition ts_set (count total : Z) (mx : list Z) (t : nat) (ph : tphase) (done : list Z) (s : tstate) : tstate :=
  {| ts_count := count; ts_total := total; ts_max := mx; ts_threads := <[t := ph]> (ts_threads s); ts_done := done |}.

Definition tstep (a : taction) (s : tstate) : option tstate :=
  match a with
  | AStart t v =>
      match default TIdle (ts_threads s !! t) with
      | TIdle => if (0 <=? v) && (v <? 2 ^ 64) then Some (ts_set (ts_count s) (ts_total s) (ts_max s) t (TCount v) (ts_done s) s) else None
      | _ => None
      end
  | AAddCount t =>
      match ts_threads s !! t with
      | Some (TCount v) => Some (ts_set (u64 (ts_count s + 1)) (ts_total s) (ts_max s) t (TTotal v) (ts_done s) s)
      | _ => None
      end
  | AAddTotal t =>
      match ts_threads s !! t with
      | Some (TTotal v) => Some (ts_set (ts_count s) (u64 (ts_total s + v)) (ts_max s) t (TLoad v) (ts_done s) s)
      | _ => None
      end
  | ALoadMax t seen =>
      match ts_threads s !! t, ts_max s !! seen with
      | Some (TLoad v), Some old => Some (ts_set (ts_count s) (ts_total s) (ts_max s) t (TMax v old) (ts_done s) s)
      | _, _ => None
      end
  | AExchange t =>
      match ts_threads s !! t, ts_max s with
      | Some (TMax v old), m :: _ =>
          if (old <? v) && (m =? old) then Some (ts_set (ts_count s) (ts_total s) (v :: ts_max s) t TIdle (v :: ts_done s) s) else None
      | _, _ => None
      end
  | AMissed t seen =>
      match ts_threads s !! t, ts_max s !! seen with
      | Some (TMax v old), Some old' => if old <? v then Some (ts_set (ts_count s) (ts_total s) (ts_max s) t (TMax v old') (ts_done s) s) else None
      | _, _ => None
      end
  | AFinish t =>
      match ts_threads s !! t with
      | Some (TMax v old) => if old <? v then None else Some (ts_set (ts_count s) (ts_total s) (ts_max s) t TIdle (v :: ts_done s) s)
      | _ => None
      end
  end.

Fixpoint trun (l : list taction) (s : tstate) : option tstate :=
  match l with
  | [] => Some s
  | a :: rest => match tstep a s with Some s' => trun rest s' | None => None end
  end.

(** ** Theorems *)
Lemma trun_app l l' s : trun (l ++ l') s = trun l s ≫= trun l'.
Proof. revert s. induction l as [|a l IH]; intros s; cbn [trun app]; [done |]. destruct (tstep a s); [apply IH | done]. Qed.

(** the samples already counted, already in the total *)
Definition counted (ph : tphase) : list Z :=
  match ph with TTotal v | TLoad v | TMax v _ => [v] | _ => [] end.
Definition totalled (ph : tphase) : list Z :=
  match ph with TLoad v | TMax v _ => [v] | _ => [] end.
Definition zsum (l : list Z) : Z := foldr Z.add 0 l.

#[export] Instance zsum_perm : Proper ((≡ₚ) ==> eq) zsum.
Proof. intros l k. induction 1; cbn; unfold zsum in *; lia. Qed.
Lemma zsum_app l k : zsum (l ++ k) = zsum l + zsum k.
Proof. induction l as [|x l IH]; [done |]. change (x + zsum (l ++ k) = x + zsum l + zsum k). lia. Qed.
Lemma zlen_perm {A} (l k : list A) : l ≡ₚ k -> zlen l = zlen k.
Proof. intros H. unfold zlen. by rewrite H. Qed.

(** a phase has its sample, and what it loaded is a value the maximum has had *)
Definition phase_ok (mx : list Z) (ph : tphase) : Prop :=
  match ph with TIdle => True | TCount v | TTotal v | TLoad v => 0 <= v | TMax v old => 0 <= v /\ old ∈ mx end.

(** the counters hold what the updates have added so far; the values the
    maximum has had grow, and each is the first or a sample *)
Record tinv (s : tstate) : Prop := {
  ti_count : ts_count s = u64 (zlen (ts_done s) + zlen (collect counted (ts_threads s)));
  ti_total : ts_total s = u64 (zsum (ts_done s) + zsum (collect totalled (ts_threads s)));
  ti_max : exists m r, ts_max s = m :: r /\ Forall (fun x => 0 <= x <= m) (ts_max s ++ ts_done s) /\ (m = 0 \/ m ∈ ts_done s);
  ti_phases : map_Forall (fun _ => phase_ok (ts_max s)) (ts_threads s);
}.

Lemma u64_add_l x y : u64 (u64 x + y) = u64 (x + y).
Proof. unfold u64. apply Z.add_mod_idemp_l. done. Qed.

(** a thread moves on: what it adds to the number and to the total goes from
    its phase to the counter or to the finished updates *)
Lemma collect_move (f : tphase -> list Z) (g : list Z -> Z) (threads : gmap nat tphase) t ph ph' :
  f TIdle = [] -> (forall l k, g (l ++ k) = g l + g k) -> (forall l k, l ≡ₚ k -> g l = g k) ->
  default TIdle (threads !! t) = ph ->
  g (collect f (<[t := ph']> threads)) = g (collect f threads) - g (f ph) + g (f ph').
Proof.
  intros Hf Happ Hperm <-. rewrite (Hperm _ _ (collect_insert f threads t ph')), (Hperm _ _ (collect_split TIdle f Hf threads t)), !Happ. lia.
Qed.

Lemma tinv_move s t ph' count total mx dn :
  let ph := default TIdle (ts_threads s !! t) in
  tinv s ->
  count = u64 (ts_count s + (zlen dn - zlen (ts_done s) + zlen (counted ph') - zlen (counted ph))) ->
  total = u64 (ts_total s + (zsum dn - zsum (ts_done s) + zsum (totalled ph') - zsum (totalled ph))) ->
  (exists m r, mx = m :: r /\ Forall (fun x => 0 <= x <= m) (mx ++ dn) /\ (m = 0 \/ m ∈ dn)) ->
  ts_max s ⊆ mx -> phase_ok mx ph' -> tinv (ts_set count total mx t ph' dn s).
Proof.
  intros ph [Hc Ht Hm Hp] -> -> Hm' Hsub Hph. constructor; cbn [ts_set ts_count ts_total ts_max ts_threads ts_done].
  - rewrite Hc, u64_add_l. f_equal. rewrite (collect_move counted zlen _ t ph ph'); [lia | done | apply zlen_app | apply zlen_perm | done].
  - rewrite Ht, u64_add_l. f_equal. rewrite (collect_move totalled zsum _ t ph ph'); [lia | done | apply zsum_app | apply zsum_perm | done].
  - done.
  - apply map_Forall_insert_2; [done |]. eapply map_Forall_impl; [exact Hp |]. intros i [] Hi; cbn in *; naive_solver.
Qed.

Lemma tstart_inv : tinv tstart.
Proof. constructor; [done | done | | apply map_Forall_empty]. exists 0, []. split_and!; [done | by repeat constructor | by left]. Qed.

Lemma tinv_u64 s : tinv s -> u64 (ts_count s + 0) = ts_count s /\ u64 (ts_total s + 0) = ts_total s.
Proof. intros [-> -> _ _]. by rewrite !u64_add_l, !Z.add_0_r. Qed.

(** a step that adds nothing *)
Lemma tinv_quiet s t ph' :
  tinv s -> counted ph' = counted (default TIdle (ts_threads s !! t)) -> totalled ph' = totalled (default TIdle (ts_threads s !! t)) ->
  phase_ok (ts_max s) ph' -> tinv (ts_set (ts_count s) (ts_total s) (ts_max s) t ph' (ts_done s) s).
Proof.
  intros Hi Hc Ht Hp. pose proof (tinv_u64 s Hi) as [Hu1 Hu2].
  apply tinv_move; [done | rewrite Hc, <- Hu1 at 1; f_equal; lia | rewrite Ht, <- Hu2 at 1; f_equal; lia | apply (ti_max s Hi) | done | done].
Qed.

(** an update is finished: with [mx] the values the maximum has had by now *)
Lemma tinv_finish s t v old mx :
  tinv s -> ts_threads s !! t = Some (TMax v old) ->
  (exists m r, mx = m :: r /\ Forall (fun x => 0 <= x <= m) (mx ++ v :: ts_done s) /\ (m = 0 \/ m ∈ v :: ts_done s)) ->
  ts_max s ⊆ mx -> tinv (ts_set (ts_count s) (ts_total s) mx t TIdle (v :: ts_done s) s).
Proof.
  intros Hi E Hm Hsub. pose proof (tinv_u64 s Hi) as [Hu1 Hu2].
  apply tinv_move; rewrite ?E; cbn [default from_option id counted totalled]; [done | | | done | done | done].
  - rewrite <- Hu1 at 1. f_equal. rewrite !zlen_cons. change (zlen []) with 0. lia.
  - rewrite <- Hu2 at 1. f_equal. change (zsum (v :: ts_done s)) with (v + zsum (ts_done s)). cbn. lia.
Qed.

Lemma tstep_inv a s s' : tinv s -> tstep a s = Some s' -> tinv s'.
Proof.
  intros Hi. pose proof (ti_max s Hi) as (m & r & Hm & Hall & Hw). pose proof (fun t ph => ti_phases s Hi t ph) as Hp.
  assert (Hrange : forall x, x ∈ ts_max s -> 0 <= x <= m).
  { intros x Hx. rewrite list.Forall_forall in Hall. apply Hall, elem_of_app. by left. }
  destruct a as [t v|t|t|t seen|t|t seen|t]; cbn [tstep]; [destruct (default TIdle (ts_threads s !! t)) as [| | | |] eqn:Ed; try done |
    destruct (ts_threads s !! t) as [ph|] eqn:E; try done; specialize (Hp t ph E); destruct ph as [|v|v|v|v old]; try done; cbn [phase_ok] in Hp ..].
  - destruct (_ && _) eqn:Ev; [| done]. intros [= <-]. zb. apply tinv_quiet; rewrite ?Ed; cbn; [done | done | done | lia].
  - intros [= <-]. apply tinv_move; rewrite ?E; cbn; [done | f_equal; change (zlen [v]) with 1; change (zlen []) with 0; lia | | by exists m, r | done | lia].
    destruct (tinv_u64 s Hi) as [_ Hu]. rewrite <- Hu at 1. f_equal. lia.
  - intros [= <-]. apply tinv_move; rewrite ?E; cbn; [done | | f_equal; lia | by exists m, r | done | lia].
    destruct (tinv_u64 s Hi) as [Hu _]. rewrite <- Hu at 1. f_equal. lia.
  - destruct (ts_max s !! seen) as [old|] eqn:Es; [| done]. intros [= <-]. apply tinv_quiet; rewrite ?E; cbn; [done | done | done |].
    split; [done |]. by eapply list_elem_of_lookup_2.
  - rewrite Hm. destruct (_ && _) eqn:Ev; [| done]. intros [= <-]. zb. subst m. rewrite <- Hm. eapply tinv_finish; [done | done | | set_solver].
    exists v, (ts_max s). split; [done |]. split; [| right; set_solver].
    rewrite list.Forall_forall in *. intros x Hx. assert (x = v \/ x ∈ ts_max s ++ ts_done s) as [-> | Hx'] by set_solver; [lia |].
    specialize (Hall x Hx'). cbn in Hall. lia.
  - destruct (ts_max s !! seen) as [old'|] eqn:Es; [| done]. destruct (_ <? _); [| done]. intros [= <-]. apply tinv_quiet; rewrite ?E; cbn; [done | done | done |].
    split; [lia |]. by eapply list_elem_of_lookup_2.
  - destruct (old <? v) eqn:Ev; [done |]. intros [= <-]. zb. eapply tinv_finish; [done | done | | done].
    exists m, r. split; [done |]. destruct Hp as [Hv Ho]. specialize (Hrange old Ho). split; [| destruct Hw; [by left | right; set_solver]].
    rewrite list.Forall_forall in *. intros x Hx. assert (x = v \/ x ∈ ts_max s ++ ts_done s) as [-> | Hx'] by set_solver; [lia |]. by apply Hall.
Qed.

Lemma trun_inv l s s' : tinv s -> trun l s = Some s' -> tinv s'.
Proof.
  revert s. induction l as [|a l IH]; intros s Hi; cbn [trun]; [by intros [= <-] |].
  destruct (tstep a s) as [s1|] eqn:E; [| done]. apply IH. by eapply tstep_inv.
Qed.

(** the counter between updates *)
Definition counter_of (s : tstate) : wirecall_trace_counter :=
  {| tc_count := ts_count s; tc_total_ns := ts_total s; tc_max_ns := default 0 (head (ts_max s)) |}.
Definition quiet (s : tstate) : Prop := map_Forall (fun _ ph => ph = TIdle) (ts_threads s).

(** updates one after the other *)
Definition add_all (values : list Z) : wirecall_trace_counter := foldr (fun v c => trace_counter_add c v) counter_zero values.

Lemma add_all_spec l :
  tc_count (add_all l) = u64 (zlen l) /\ tc_total_ns (add_all l) = u64 (zsum l) /\
  (Forall (fun x => 0 <= x) l -> Forall (fun x => x <= tc_max_ns (add_all l)) l /\ (tc_max_ns (add_all l) = 0 \/ tc_max_ns (add_all l) ∈ l) /\ 0 <= tc_max_ns (add_all l)).
Proof.
  induction l as [|v l (Hc & Ht & Hm)].
  { split_and!; [done | done | intros _; split_and!; [by constructor | by left | done]]. }
  change (add_all (v :: l)) with (trace_counter_add (add_all l) v). cbn [trace_counter_add tc_count tc_total_ns tc_max_ns]. split_and!.
  - rewrite Hc, u64_add_l, zlen_cons. f_equal. lia.
  - rewrite Ht, u64_add_l. change (zsum (v :: l)) with (v + zsum l). f_equal. lia.
  - intros [Hv Hl]%list.Forall_cons. destruct (Hm Hl) as (Hle & Hin & Hz). destruct (Z.ltb_spec (tc_max_ns (add_all l)) v) as [H|H].
    + split_and!; [| right; by left | done]. apply list.Forall_cons. split; [lia |]. eapply list.Forall_impl; [exact Hle |]. cbn. lia.
    + split_and!; [by apply list.Forall_cons | destruct Hin; [by left | right; by right] | done].
Qed.

Lemma collect_quiet (f : tphase -> list Z) s : f TIdle = [] -> quiet s -> collect f (ts_threads s) = [].
Proof.
  intros Hf Hq. unfold collect. assert (forall kc, kc ∈ map_to_list (ts_threads s) -> f kc.2 = []) as Hall.
  { intros [t ph] Hin. apply elem_of_map_to_list in Hin. by rewrite (Hq t ph Hin). }
  induction (map_to_list (ts_threads s)) as [|kc l IH]; [done |]. cbn. rewrite Hall by by left. apply IH. intros. apply Hall. by right.
Qed.

Lemma counter_of_done s : tinv s -> quiet s -> counter_of s = add_all (ts_done s).
Proof.
  intros Hi Hq.
  pose proof (add_all_spec (ts_done s)) as (Hc & Ht & Hm). pose proof (ti_max s Hi) as (m & r & Hx & Hall & Hw).
  rewrite Hx in Hall. cbn in Hall. apply list.Forall_cons in Hall as [Hm0 Hall]. apply Forall_app in Hall as [_ Hall].
  destruct Hm as (Hle & Hin & H0); [eapply list.Forall_impl; [exact Hall | cbn; lia] |].
  rewrite list.Forall_forall in Hle, Hall. destruct (add_all (ts_done s)) as [c t mx]; cbn [tc_count tc_total_ns tc_max_ns] in *. unfold counter_of. f_equal.
  - rewrite (ti_count s Hi), collect_quiet, Hc by done. f_equal. change (zlen []) with 0. lia.
  - rewrite (ti_total s Hi), collect_quiet, Ht by done. f_equal. cbn. lia.
  - rewrite Hx. cbn. assert (m <= mx) by (destruct Hw as [-> | Hw]; [done | by apply Hle]).
    assert (mx <= m) by (destruct Hin as [-> | Hin]; [lia | by apply Hall]). lia.
Qed.

(** every update that was started is under way or finished *)
Definition sample (ph : tphase) : list Z :=
  match ph with TIdle => [] | TCount v | TTotal v | TLoad v | TMax v _ => [v] end.
Definition started (l : list taction) : list Z := omap (fun a => match a with AStart _ v => Some v | _ => None end) l.

Lemma sample_move (threads : gmap nat tphase) t ph' dn dn' :
  sample ph' ++ dn' ≡ₚ sample (default TIdle (threads !! t)) ++ dn ->
  dn' ++ collect sample (<[t := ph']> threads) ≡ₚ dn ++ collect sample threads.
Proof.
  intros H. rewrite (collect_insert sample), (collect_split TIdle sample eq_refl threads t), !app_assoc. f_equiv.
  by rewrite (Permutation_app_comm dn'), H, Permutation_app_comm.
Qed.

Lemma tstep_started a s s' :
  tstep a s = Some s' -> ts_done s' ++ collect sample (ts_threads s') ≡ₚ started [a] ++ ts_done s ++ collect sample (ts_threads s).
Proof.
  destruct a as [t v|t|t|t seen|t|t seen|t]; cbn [tstep]; [destruct (default TIdle (ts_threads s !! t)) as [| | | |] eqn:Ed; try done |
    destruct (ts_threads s !! t) as [[|v|v|v|v old]|] eqn:E; try done ..]; repeat case_match; try done; intros [= <-]; cbn [ts_set ts_done ts_threads]; [change (started [AStart t v]) with [v] | change (started _) with (@nil Z) ..].
  1: { rewrite (collect_insert sample), (collect_split TIdle sample eq_refl (ts_threads s) t), Ed. cbn. by rewrite <- Permutation_middle. }
  all: apply (sample_move (ts_threads s)); by rewrite E.
Qed.

Lemma trun_started l s s' :
  trun l s = Some s' -> ts_done s' ++ collect sample (ts_threads s') ≡ₚ started l ++ ts_done s ++ collect sample (ts_threads s).
Proof.
  revert s. induction l as [|a l IH]; intros s; cbn [trun]; [by intros [= <-] |].
  destruct (tstep a s) as [s1|] eqn:E; [| done]. intros Hr. rewrite (IH s1 Hr), (tstep_started a s s1 E).
  change (started (a :: l)) with (started ([a] ++ l)). unfold started. rewrite omap_app, !app_assoc. do 2 f_equiv. apply Permutation_app_comm.
Qed.

(** C34: However the atomic steps of any number of threads that update one trace
    counter interleave - loads of the maximum may return any value it has had,
    and an exchange may fail and be repeated - whenever no update is under way
    the samples of exactly the updates that were started are in the counter: its
    number, total and maximum are the ones these updates, run one after the
    other, leave. *)
Theorem trace_counters_exact (l : list taction) (s : tstate) :
  trun l tstart = Some s -> quiet s -> ts_done s ≡ₚ started l /\ counter_of s = add_all (ts_done s).
Proof.
  intros Hr Hq. pose proof (trun_started l tstart s Hr) as Hs. rewrite (collect_quiet sample s eq_refl Hq), !app_nil_r in Hs. split; [exact Hs |].
  apply counter_of_done; [| done]. eapply trun_inv; [apply tstart_inv | done].
Qed.

(** two threads: the second one raises the maximum to 9 between the first
    one's load of 0 and its exchange; the exchange fails twice, the first time
    with the stale 0, and finds 9 *)
Definition toy_schedule : list taction :=
  [AStart 0 5; AAddCount 0; AStart 1 9; AAddTotal 0; ALoadMax 0 0; AAddCount 1; AAddTotal 1; ALoadMax 1 0; AExchange 1; AMissed 0 1; AMissed 0 0;
   AFinish 0]%nat.

Lemma trace_counters_exact_witness :
  exists s, trun toy_schedule tstart = Some s /\ ts_done s ≡ₚ started toy_schedule /\
            counter_of s = {| tc_count := 2; tc_total_ns := 14; tc_max_ns := 9 |}.
Proof.
  destruct (trun toy_schedule tstart) as [s|] eqn:E.
  - exists s. split; [done |].
    assert (Hq : quiet s).
    { apply (bool_decide_unpack (quiet s)). assert (Ht : match trun toy_schedule tstart with Some s => bool_decide (quiet s) | None => false end = true) by (by vm_compute).
      rewrite E in Ht. by rewrite Ht. }
    destruct (trace_counters_exact toy_schedule s E Hq) as [Hd Hc]. split; [exact Hd |]. rewrite Hc.
    assert (Ht : (add_all ∘ ts_done) <$> trun toy_schedule tstart = Some {| tc_count := 2; tc_total_ns := 14; tc_max_ns := 9 |}) by (by vm_compute).
    rewrite E in Ht. by injection Ht.
  - assert (Ht : match trun toy_schedule tstart with Some _ => true | None => false end = true) by (by vm_compute). by rewrite E in Ht.
Defined.
