(* ===== verification/Machine.v ===== *)
(** * Machine: straight-line machine code and its symbolic execution

    The context switches of include/minicoro.h are assembly: they store registers
    into one buffer and load them from another.  This file has the machine they
    are run on, with a byte memory and registers of any width, and an executable
    symbolic execution of straight-line code with its soundness theorem
    ([srun_sound]), so that what a switch does is found by evaluation.  The
    programs are in Switch.v. *)

From stdpp Require Import strings.
From S2P Require Import Prelude.
#[global] Open Scope Z_scope.

(** ** Memory: little-endian accesses to bytes *)
Definition memory := Z -> Z.

Fixpoint load (n : nat) (a : Z) (m : memory) : Z :=
  match n with
  | O => 0
  | S n => m a + 256 * load n (a + 1) m
  end.

Fixpoint store (n : nat) (a v : Z) (m : memory) : memory :=
  match n with
  | O => m
  | S n => store n (a + 1) (v / 256) (fun x => if x =? a then v mod 256 else m x)
  end.

(** [len] zero bytes at [a] (memset) *)
Definition zero_at (a len : Z) (m : memory) : memory := fun x => if (a <=? x) && (x <? a + len) then 0 else m x.

(** ** The machine *)
Record machine := { regs : string -> Z; mem : memory; pc : Z }.
Definition set_reg (r : string) (v : Z) (s : machine) : machine :=
  {| regs := fun x => if decide (x = r) then v else regs s x; mem := mem s; pc := pc s |}.
Definition set_mem (m : memory) (s : machine) : machine := {| regs := regs s; mem := m; pc := pc s |}.
Definition set_pc (v : Z) (s : machine) : machine := {| regs := regs s; mem := mem s; pc := v |}.

(** what an instruction does, step by step; addresses are a register and an offset *)
Inductive uop :=
| Mov (d s : string)
| Lea (d : string) (off : Z)            (** the address of the next instruction and an offset *)
| AddI (d : string) (imm : Z)
| Ld (d b : string) (off : Z)
| St (s b : string) (off : Z)
| StPc (b : string) (off : Z)           (** the address of the next instruction *)
| JmpR (r : string)
| JmpM (b : string) (off : Z).

(** an instruction: its size and what it does *)
Definition code := list (Z * list uop).

(** the instruction that starts at an offset *)
Fixpoint code_at (c : code) (off : Z) : option (Z * list uop) :=
  match c with
  | [] => None
  | i :: rest => if off =? 0 then Some i else code_at rest (off - i.1)
  end.

(** bytes of an address, and of a register *)
Class Isa := { word : nat; rwidth : string -> nat }.

Section Machine.
Context `{Isa}.

Definition ea (s : machine) (b : string) (off : Z) : Z := (regs s b + off) mod 2 ^ (8 * Z.of_nat word).

Definition exec (u : uop) (s : machine) : machine :=
  match u with
  | Mov d r => set_reg d (regs s r) s
  | Lea d off => set_reg d ((pc s + off) mod 2 ^ (8 * Z.of_nat word)) s
  | AddI d imm => set_reg d (ea s d imm) s
  | Ld d b off => set_reg d (load (rwidth d) (ea s b off) (mem s)) s
  | St r b off => set_mem (store (rwidth r) (ea s b off) (regs s r) (mem s)) s
  | StPc b off => set_mem (store word (ea s b off) (pc s) (mem s)) s
  | JmpR r => set_pc (regs s r) s
  | JmpM b off => set_pc (load word (ea s b off) (mem s)) s
  end.

(** [fetch] is the code in memory *)
Definition step (fetch : Z -> option (Z * list uop)) (s : machine) : option machine :=
  match fetch (pc s) with
  | Some (size, us) => Some (fold_left (fun s u => exec u s) us (set_pc (pc s + size) s))
  | None => None
  end.

Fixpoint run (fetch : Z -> option (Z * list uop)) (n : nat) (s : machine) : option machine :=
  match n with
  | O => Some s
  | S n => match step fetch s with Some s => run fetch n s | None => None end
  end.

(** registers and memory cells hold values of their width *)
Definition machine_ok (s : machine) : Prop :=
  (forall r, 0 <= regs s r < 256 ^ Z.of_nat (rwidth r)) /\ (forall x, 0 <= mem s x < 256).

(** ** Symbolic execution

    Addresses are a named base and an offset.  Each base has a region around it;
    the regions of different bases are disjoint. *)
Inductive sval :=
| VReg (r : string)                       (** what a register held at the start *)
| VMem (b : string) (off : Z) (n : nat)   (** what memory held at the start *)
| VPtr (b : string) (off : Z).

#[global] Instance sval_eq_dec : EqDecision sval.
Proof. solve_decision. Defined.

Record sstate := { sregs : list (string * sval); smem : list (string * Z * nat * sval); spc : sval }.

Definition assoc {A} (l : list (string * A)) (k : string) : option A :=
  match list_find (fun x => x.1 = k) l with Some (_, x) => Some x.2 | None => None end.

Record layout := { regions : list (string * (Z * Z)); sections : list (string * code) }.

Section Symbolic.
Variable L : layout.

Definition sreg (ss : sstate) (r : string) : sval := default (VReg r) (assoc (sregs ss) r).

(** [n] bytes at an offset of a base are in its region *)
Definition inside (b : string) (off : Z) (n : Z) : bool :=
  match assoc (regions L) b with Some (lo, hi) => (lo <=? off) && (off + n <=? hi) | None => false end.

Definition vwidth (v : sval) : nat := match v with VReg r => rwidth r | VMem _ _ n => n | VPtr _ _ => word end.
Definition vok (v : sval) : bool := match v with VPtr b off => inside b off 0 | VMem b off n => inside b off (Z.of_nat n) | _ => true end.

Fixpoint sload_in (l : list (string * Z * nat * sval)) (b : string) (off : Z) (n : nat) : option sval :=
  match l with
  | [] => Some (VMem b off n)
  | (b', off', n', v) :: rest =>
      if bool_decide (b = b') then
        if (off =? off') && (n =? n')%nat then Some v
        else if (off + Z.of_nat n <=? off') || (off' + Z.of_nat n' <=? off) then sload_in rest b off n
        else None
      else sload_in rest b off n
  end.
Definition sload (ss : sstate) (r : string) (off : Z) (n : nat) : option sval :=
  match sreg ss r with
  | VPtr b o => if inside b (o + off) (Z.of_nat n) then sload_in (smem ss) b (o + off) n else None
  | _ => None
  end.

Definition sset (d : string) (v : sval) (ss : sstate) : option sstate :=
  if vok v && (vwidth v =? rwidth d)%nat then Some {| sregs := (d, v) :: sregs ss; smem := smem ss; spc := spc ss |} else None.
Definition sjump (v : sval) (ss : sstate) : option sstate :=
  if vok v then Some {| sregs := sregs ss; smem := smem ss; spc := v |} else None.
Definition sstore (v : sval) (r : string) (off : Z) (ss : sstate) : option sstate :=
  match sreg ss r with
  | VPtr b o =>
      if inside b (o + off) (Z.of_nat (vwidth v)) && vok v
      then Some {| sregs := sregs ss; smem := (b, o + off, vwidth v, v) :: smem ss; spc := spc ss |} else None
  | _ => None
  end.
Definition sadd (v : sval) (imm : Z) : option sval := match v with VPtr b o => Some (VPtr b (o + imm)) | _ => None end.

Definition sexec (u : uop) (ss : sstate) : option sstate :=
  match u with
  | Mov d r => sset d (sreg ss r) ss
  | Lea d off => v ← sadd (spc ss) off; sset d v ss
  | AddI d imm => v ← sadd (sreg ss d) imm; sset d v ss
  | Ld d b off => v ← sload ss b off (rwidth d); sset d v ss
  | St r b off => sstore (sreg ss r) b off ss
  | StPc b off => sstore (spc ss) b off ss
  | JmpR r => if (rwidth r =? word)%nat then sjump (sreg ss r) ss else None
  | JmpM b off => v ← sload ss b off word; sjump v ss
  end.

Fixpoint sexecs (us : list uop) (ss : sstate) : option sstate :=
  match us with
  | [] => Some ss
  | u :: us => ss ← sexec u ss; sexecs us ss
  end.

Definition sfetch (v : sval) : option (string * Z * (Z * list uop)) :=
  match v with
  | VPtr b off => match assoc (sections L) b with Some c => i ← code_at c off; Some (b, off, i) | None => None end
  | _ => None
  end.

(** run until the program counter leaves the code, with the number of steps *)
Fixpoint srun (fuel : nat) (ss : sstate) : option (nat * sstate) :=
  match sfetch (spc ss) with
  | None => Some (O, ss)
  | Some (b, off, (size, us)) =>
      match fuel with
      | O => None
      | S fuel => ss ← sjump (VPtr b (off + size)) ss; ss ← sexecs us ss; r ← srun fuel ss; Some (S r.1, r.2)
      end
  end.
End Symbolic.
End Machine.

(** ** Memory: lemmas *)
Lemma load_range n a m : (forall x, 0 <= m x < 256) -> 0 <= load n a m < 256 ^ Z.of_nat n.
Proof.
  intros Hm. revert a. induction n as [|n IH]; intros a; cbn [load]; [lia |].
  rewrite Nat2Z.inj_succ, Z.pow_succ_r by lia. specialize (IH (a + 1)). specialize (Hm a). lia.
Qed.

Lemma store_outside n a v m x : x < a \/ a + Z.of_nat n <= x -> store n a v m x = m x.
Proof.
  revert a v m. induction n as [|n IH]; intros a v m Hx; cbn [store]; [done |].
  rewrite IH by lia. destruct (x =? a) eqn:E; zb; [lia | done].
Qed.

Lemma load_ext n a m m' : (forall x, a <= x < a + Z.of_nat n -> m x = m' x) -> load n a m = load n a m'.
Proof.
  revert a. induction n as [|n IH]; intros a Hm; cbn [load]; [done |].
  rewrite (Hm a), (IH (a + 1)) by (lia || intros; apply Hm; lia). done.
Qed.

Lemma load_store_ne n a k b v m : a + Z.of_nat n <= b \/ b + Z.of_nat k <= a -> load n a (store k b v m) = load n a m.
Proof. intros Hd. apply load_ext. intros x Hx. apply store_outside. lia. Qed.

Lemma load_store n a v m : 0 <= v < 256 ^ Z.of_nat n -> load n a (store n a v m) = v.
Proof.
  revert a v m. induction n as [|n IH]; intros a v m Hv; cbn [load store]; [lia |].
  rewrite Nat2Z.inj_succ, Z.pow_succ_r in Hv by lia.
  rewrite store_outside by lia. rewrite Z.eqb_refl, IH by (split; [apply Z.div_pos | apply Z.div_lt_upper_bound]; lia).
  pose proof (Z.div_mod v 256). lia.
Qed.

(** storing what is there changes nothing *)
Lemma store_load n a m m' x :
  (forall y, 0 <= m y < 256) -> (forall y, m' y = m y) -> store n a (load n a m) m' x = m x.
Proof.
  intros Hm. revert a m'. induction n as [|n IH]; intros a m' He; cbn [load store]; [done |].
  specialize (Hm a) as Ha.
  replace ((m a + 256 * load n (a + 1) m) mod 256) with (m a) by (Z.div_mod_to_equations; lia).
  replace ((m a + 256 * load n (a + 1) m) / 256) with (load n (a + 1) m) by (Z.div_mod_to_equations; lia).
  apply IH. intros y. destruct (y =? a) eqn:E; zb; [by subst | apply He].
Qed.

Lemma store_bytes n a v m : (forall y, 0 <= m y < 256) -> forall y, 0 <= store n a v m y < 256.
Proof.
  revert a v m. induction n as [|n IH]; intros a v m Hm; cbn [store]; [done |].
  apply IH. intros y. destruct (y =? a); [apply Z.mod_pos_bound; lia | apply Hm].
Qed.

Lemma store_ext n a v m m' x : (forall y, m y = m' y) -> store n a v m x = store n a v m' x.
Proof.
  revert a v m m'. induction n as [|n IH]; intros a v m m' He; cbn [store]; [done |].
  apply IH. intros y. by rewrite He.
Qed.

(** ** Soundness of the symbolic execution *)
Lemma assoc_cons {A} (l : list (string * A)) k k' v :
  assoc ((k', v) :: l) k = if decide (k' = k) then Some v else assoc l k.
Proof.
  unfold assoc. cbn [list_find fst]. destruct (decide (k' = k)); [done |].
  by destruct (list_find _ l) as [[? []]|].
Qed.

Section Sound.
Context `{Isa} (L : layout) (s0 : machine) (addr : string -> Z).
Variable fetch : Z -> option (Z * list uop).

Definition denote (v : sval) : Z :=
  match v with
  | VReg r => regs s0 r
  | VMem b off n => load n (addr b + off) (mem s0)
  | VPtr b off => addr b + off
  end.

(** memory after the stores of a symbolic state *)
Definition stores (l : list (string * Z * nat * sval)) : memory :=
  foldr (fun '(b, off, n, v) m => store n (addr b + off) (denote v) m) (mem s0) l.

(** the regions are apart and in the address space *)
Record placed := {
  p_init : machine_ok s0;
  p_space : forall b lo hi, assoc (regions L) b = Some (lo, hi) -> 0 <= addr b + lo /\ addr b + hi < 2 ^ (8 * Z.of_nat word);
  p_apart : forall b lo hi b' lo' hi', assoc (regions L) b = Some (lo, hi) -> assoc (regions L) b' = Some (lo', hi') -> b <> b' ->
    addr b + hi <= addr b' + lo' \/ addr b' + hi' <= addr b + lo;
  p_code : forall b c off i, assoc (sections L) b = Some c -> code_at c off = Some i -> fetch (addr b + off) = Some i;
}.

Definition value_ok (n : nat) (v : sval) : Prop := vok L v = true /\ vwidth v = n.
Definition entry_ok (e : string * Z * nat * sval) : Prop :=
  let '(b, off, n, v) := e in inside L b off (Z.of_nat n) = true /\ value_ok n v.
Record sstate_ok (ss : sstate) : Prop := {
  so_regs : forall r v, assoc (sregs ss) r = Some v -> value_ok (rwidth r) v;
  so_mem : Forall entry_ok (smem ss);
  so_pc : value_ok word (spc ss);
}.

Record matches (ss : sstate) (s : machine) : Prop := {
  m_ok : sstate_ok ss;
  m_regs : forall r, regs s r = denote (sreg ss r);
  m_mem : forall x, mem s x = stores (smem ss) x;
  m_pc : pc s = denote (spc ss);
}.

Hypothesis P : placed.

Lemma inside_apart b off n b' off' n' :
  inside L b off n = true -> inside L b' off' n' = true -> b <> b' ->
  addr b + off + n <= addr b' + off' \/ addr b' + off' + n' <= addr b + off.
Proof.
  unfold inside. destruct (assoc _ b) as [[lo hi]|] eqn:E; [| done]. destruct (assoc _ b') as [[lo' hi']|] eqn:E'; [| done].
  intros Hb Hb' Hne. zb. destruct (p_apart P _ _ _ _ _ _ E E' Hne); lia.
Qed.

Lemma inside_space b off n : inside L b off n = true -> 0 <= n -> 0 <= addr b + off /\ addr b + off + n < 2 ^ (8 * Z.of_nat word).
Proof.
  unfold inside. destruct (assoc _ b) as [[lo hi]|] eqn:E; [| done]. intros Hb Hn. zb. pose proof (p_space P _ _ _ E). lia.
Qed.

Lemma pow_bytes n : 256 ^ Z.of_nat n = 2 ^ (8 * Z.of_nat n).
Proof. by rewrite Z.pow_mul_r by lia. Qed.

Lemma denote_range n v : value_ok n v -> 0 <= denote v < 256 ^ Z.of_nat n.
Proof.
  intros [Hv <-]. destruct (p_init P) as [Hr Hm]. destruct v as [r | b off n' | b off]; cbn [denote vwidth].
  - apply Hr.
  - by apply load_range.
  - rewrite pow_bytes. pose proof (inside_space b off 0 Hv). lia.
Qed.

Lemma sreg_ok ss r : sstate_ok ss -> value_ok (rwidth r) (sreg ss r).
Proof. intros Hs. unfold sreg. destruct (assoc _ r) eqn:E; cbn; [by apply (so_regs _ Hs) | done]. Qed.

Lemma stores_bytes l x : 0 <= stores l x < 256.
Proof.
  revert x. induction l as [|[[[b off] n] v] l IH]; intros x; cbn [stores foldr]; [apply (p_init P) |].
  by apply store_bytes.
Qed.

Lemma sload_in_sound l b off n v :
  Forall entry_ok l -> inside L b off (Z.of_nat n) = true -> sload_in l b off n = Some v ->
  value_ok n v /\ load n (addr b + off) (stores l) = denote v.
Proof.
  intros Hl Hb. induction l as [|[[[b' off'] n'] v'] l IH]; cbn [sload_in stores foldr]; [by intros [= <-] |].
  apply Forall_cons_1 in Hl as [[Hb' Hv'] Hl]. specialize (IH Hl).
  assert (Hskip : sload_in l b off n = Some v ->
    addr b + off + Z.of_nat n <= addr b' + off' \/ addr b' + off' + Z.of_nat n' <= addr b + off ->
    value_ok n v /\ load n (addr b + off) (store n' (addr b' + off') (denote v') (stores l)) = denote v).
  { intros E Hd. destruct (IH E) as [Hv Hld]. split; [done |]. by rewrite load_store_ne. }
  case_bool_decide as Eb.
  - subst b'. destruct ((off =? off') && (n =? n')%nat) eqn:E1.
    + apply andb_prop in E1 as [E1 E2]. apply Nat.eqb_eq in E2 as <-. zb. subst off'. intros [= <-]. split; [done |].
      by rewrite load_store by (by apply denote_range).
    + destruct ((off + _ <=? off') || (off' + _ <=? off)) eqn:E2; [| done]. intros E. apply Hskip; [done |].
      apply orb_prop in E2 as [?|?]; zb; lia.
  - intros E. apply Hskip; [done |]. by apply inside_apart.
Qed.

Lemma ea_sound ss s r b o off n :
  matches ss s -> sreg ss r = VPtr b o -> inside L b (o + off) n = true -> 0 <= n -> ea s r off = addr b + (o + off).
Proof.
  intros Hm Er Hb Hn. unfold ea. rewrite (m_regs _ _ Hm), Er. cbn [denote]. rewrite Z.mod_small; [lia |].
  pose proof (inside_space _ _ _ Hb Hn). lia.
Qed.

Lemma sload_sound ss s r off n v :
  matches ss s -> sload L ss r off n = Some v -> value_ok n v /\ load n (ea s r off) (mem s) = denote v.
Proof.
  unfold sload. intros Hm. destruct (sreg ss r) as [| | b o] eqn:Er; try done.
  destruct (inside _ _ _ _) eqn:Eb; [| done]. intros E.
  rewrite (ea_sound _ _ _ _ _ _ _ Hm Er Eb) by lia.
  destruct (sload_in_sound _ _ _ _ _ (so_mem _ (m_ok _ _ Hm)) Eb E) as [Hv <-]. split; [done |].
  apply load_ext. intros x _. apply (m_mem _ _ Hm).
Qed.

Lemma sset_sound ss s d v ss' :
  matches ss s -> sset L d v ss = Some ss' -> matches ss' (set_reg d (denote v) s).
Proof.
  unfold sset. intros Hm. destruct (vok L v && (vwidth v =? rwidth d)%nat) eqn:E; [| done]. intros [= <-].
  apply andb_prop in E as [Ev Ew]. apply Nat.eqb_eq in Ew. constructor; cbn [regs mem pc smem spc set_reg].
  - constructor; [| apply Hm | apply Hm]. intros r w. cbn [sregs]. rewrite assoc_cons.
    destruct (decide (d = r)) as [->|]; [by intros [= <-] | apply (m_ok _ _ Hm)].
  - intros r. unfold sreg. cbn [sregs]. rewrite assoc_cons.
    destruct (decide (d = r)) as [->|], (decide (r = _)); try done. apply (m_regs _ _ Hm).
  - apply Hm.
  - apply Hm.
Qed.

Lemma sjump_sound ss s v ss' :
  matches ss s -> vwidth v = word -> sjump L v ss = Some ss' -> matches ss' (set_pc (denote v) s).
Proof.
  unfold sjump. intros Hm Hw. destruct (vok L v) eqn:Ev; [| done]. intros [= <-].
  constructor; cbn [regs mem pc smem spc set_pc]; try apply Hm; [| done].
  constructor; [apply (m_ok _ _ Hm) | apply (m_ok _ _ Hm) | done].
Qed.

Lemma sstore_sound ss s v b off n ss' :
  matches ss s -> vwidth v = n -> sstore L v b off ss = Some ss' -> matches ss' (set_mem (store n (ea s b off) (denote v) (mem s)) s).
Proof.
  unfold sstore. intros Hm <-. destruct (sreg ss b) as [| | c o] eqn:Er; try done.
  destruct (inside _ _ _ _ && vok L v) eqn:Eb; [| done]. apply andb_prop in Eb as [Eb Ev]. intros [= <-].
  rewrite (ea_sound _ _ _ _ _ _ _ Hm Er Eb) by lia. constructor; cbn [regs mem pc smem spc set_mem].
  - constructor; [apply (m_ok _ _ Hm) | | apply (m_ok _ _ Hm)]. constructor; [| apply (m_ok _ _ Hm)]. done.
  - apply (m_regs _ _ Hm).
  - intros x. cbn [stores foldr]. apply store_ext. apply (m_mem _ _ Hm).
  - apply (m_pc _ _ Hm).
Qed.

Lemma sadd_sound v imm v' : sadd v imm = Some v' -> vok L v' = true -> denote v' = (denote v + imm) mod 2 ^ (8 * Z.of_nat word) /\ vwidth v = word.
Proof.
  destruct v as [| | b o]; try done. intros [= <-] Hb. cbn [denote]. pose proof (inside_space b (o + imm) 0 Hb ltac:(done)).
  rewrite Z.mod_small by lia. split; [lia | done].
Qed.

Lemma sset_vok d v ss ss' : sset L d v ss = Some ss' -> vok L v = true.
Proof. unfold sset. destruct (vok L v); done. Qed.

Lemma sexec_sound u ss s ss' : matches ss s -> sexec L u ss = Some ss' -> matches ss' (exec u s).
Proof.
  intros Hm. pose proof (m_ok _ _ Hm) as Hok. pose proof (so_pc _ Hok) as [_ Hpc].
  destruct u as [d r | d off | d imm | d b off | r b off | b off | r | b off]; cbn [sexec exec]; intros E.
  - rewrite (m_regs _ _ Hm). by apply (sset_sound ss).
  - apply bind_Some in E as (v & Ea & E). destruct (sadd_sound _ _ _ Ea (sset_vok _ _ _ _ E)) as [Ev _].
    rewrite (m_pc _ _ Hm), <- Ev. by apply (sset_sound ss).
  - apply bind_Some in E as (v & Ea & E). destruct (sadd_sound _ _ _ Ea (sset_vok _ _ _ _ E)) as [Ev _].
    unfold ea. rewrite (m_regs _ _ Hm), <- Ev. by apply (sset_sound ss).
  - apply bind_Some in E as (v & El & E). destruct (sload_sound _ _ _ _ _ _ Hm El) as [_ ->]. by apply (sset_sound ss).
  - rewrite (m_regs _ _ Hm). destruct (sreg_ok ss r Hok) as [_ Hw]. by apply (sstore_sound ss).
  - rewrite (m_pc _ _ Hm). by apply (sstore_sound ss).
  - destruct (rwidth r =? word)%nat eqn:Ew; [| done]. apply Nat.eqb_eq in Ew. rewrite (m_regs _ _ Hm).
    destruct (sreg_ok ss r Hok) as [_ Hw]. apply (sjump_sound ss); [done | by rewrite Hw | done].
  - apply bind_Some in E as (v & El & E). destruct (sload_sound _ _ _ _ _ _ Hm El) as [[_ Hw] ->]. by apply (sjump_sound ss).
Qed.

Lemma sexecs_sound us ss s ss' :
  matches ss s -> sexecs L us ss = Some ss' -> matches ss' (fold_left (fun s u => exec u s) us s).
Proof.
  revert ss s. induction us as [|u us IH]; intros ss s Hm; cbn [sexecs fold_left]; [by intros [= <-] |].
  intros E. apply bind_Some in E as (ss1 & E1 & E). by eapply IH, E; eapply sexec_sound, E1.
Qed.

(** a symbolic run is a run of the machine *)
Theorem srun_sound fuel ss s n ss' :
  matches ss s -> srun L fuel ss = Some (n, ss') -> exists s', run fetch n s = Some s' /\ matches ss' s'.
Proof.
  revert ss s n. induction fuel as [|fuel IH]; intros ss s n Hm; cbn [srun].
  - destruct (sfetch L (spc ss)) as [[[b off] [size us]]|]; [done |]. intros [= <- <-]. by exists s.
  - destruct (sfetch L (spc ss)) as [[[b off] [size us]]|] eqn:Ef; [| intros [= <- <-]; by exists s].
    intros E. apply bind_Some in E as (ss1 & E1 & E). apply bind_Some in E as (ss2 & E2 & E).
    apply bind_Some in E as ([n' ss3] & E3 & E). injection E as <- <-.
    unfold sfetch in Ef. destruct (spc ss) as [| | b' off'] eqn:Epc; try done.
    destruct (assoc (sections L) b') as [c|] eqn:Ec; [| done].
    apply bind_Some in Ef as (i & Ei & [= -> -> ->]).
    pose proof (p_code P _ _ _ _ Ec Ei) as Hf. cbn [run step fst]. unfold step.
    rewrite (m_pc _ _ Hm), Epc. cbn [denote]. rewrite Hf.
    pose proof (sjump_sound ss s (VPtr b (off + size)) ss1 Hm eq_refl E1) as Hm1. cbn [denote] in Hm1.
    rewrite Z.add_assoc in Hm1. pose proof (sexecs_sound _ _ _ _ Hm1 E2) as Hm2. by apply (IH _ _ _ Hm2).
Qed.

(** bytes that no store of a run is to stay as they were *)
Lemma stores_outside l x :
  Forall (fun '(b, off, n, _) => x < addr b + off \/ addr b + off + Z.of_nat n <= x) l -> stores l x = mem s0 x.
Proof.
  induction 1 as [|[[[b off] n] v] l Hx _ IH]; cbn [stores foldr]; [done |].
  rewrite store_outside by lia. exact IH.
Qed.

Lemma matches_ok ss s : matches ss s -> machine_ok s.
Proof.
  intros Hm. split.
  - intros r. rewrite (m_regs _ _ Hm). by apply denote_range, sreg_ok, (m_ok _ _ Hm).
  - intros x. rewrite (m_mem _ _ Hm). apply stores_bytes.
Qed.
End Sound.
