(* ===== verification/Switch.v ===== *)
(** * Switch: the context switches of include/minicoro.h

    For every architecture of the header: the layout of [_mco_ctxbuf], the
    assembly of [_mco_switch] and [_mco_wrap_main], and the context
    [_mco_makectx] prepares.  On Windows the code is an array of bytes, which is
    decoded.  The tests at the end ([switch_check], [resume_check],
    [entry_check]) run the programs symbolically; what they mean for the machine
    is in SwitchProps.v. *)

From stdpp Require Import strings.
From S2P Require Import Prelude Machine.
#[global] Open Scope Z_scope.

(** a register or a piece of memory that a context keeps *)
Inductive loc := LReg (r : string) | LMem (b : string) (off : Z) (n : nat).

#[global] Instance loc_eq_dec : EqDecision loc.
Proof. solve_decision. Defined.

Record arch := {
  a_isa : Isa;
  a_switch : code;
  a_wrap_main : code;
  (** sizeof(_mco_ctxbuf) *)
  a_size : Z;
  (** where the buffer has what it keeps, and where to go on *)
  a_slots : list (loc * Z);
  a_pc : Z;
  (** the registers at the entry of _mco_switch(from, to), and the memory read besides the buffers *)
  a_known : list (string * sval);
  a_facts : list (string * Z * nat * sval);
  a_extra : list (string * (Z * Z));
  (** the stack pointer, and the instruction the saved context goes on at: one that
      returns through the stack, or the return address in the link register *)
  a_sp : string;
  a_resume : Z + string;
  (** where _mco_makectx has the stack pointer start: bytes below the end of the stack *)
  a_reserve : Z;
  (** the words _mco_makectx puts in the buffer and, relative to the stack pointer, on the stack *)
  a_context : list (Z * nat * sval);
  a_frame : list (Z * nat * sval);
  (** the first argument of a function, as the stack pointer is at its entry *)
  a_arg : loc;
  (** sp + a_align is a multiple of 16 at the entry of a function *)
  a_align : Z;
  (** what the architecture's calling convention has a function preserve: the
      registers, the stack pointer aside, and the control registers *)
  a_preserved : list string;
  a_control : list string;
}.
Existing Class arch.

(** ** x86-64, System V *)
Definition isa64 (wide : list string) (w : nat) : Isa :=
  {| word := 8; rwidth r := if bool_decide (r ∈ wide) then w else 8%nat |}.

(** bytes of an instruction of these programs, from the encoding of its operands *)
Definition disp (off : Z) (op : uop) : Z * list uop := (if off =? 0 then 3 else 4, [op]).
Definition store64 (b : string) (off : Z) (r : string) := disp off (St r b off).
Definition load64 (b : string) (off : Z) (r : string) := disp off (Ld r b off).
Definition ret_to (sp : string) (w : Z) (size : Z) : Z * list uop := (size, [JmpM sp 0; AddI sp w]).

Module X64.
Definition _mco_ctxbuf : list (loc * Z) :=
  [(LReg "rsp", 8); (LReg "rbp", 16); (LReg "rbx", 24); (LReg "r12", 32); (LReg "r13", 40); (LReg "r14", 48); (LReg "r15", 56)].
Definition _mco_wrap_main : code := [(3, [Mov "rdi" "r13"]); (3, [JmpR "r12"])].
Definition _mco_switch : code :=
  [(7, [Lea "rax" 0x3d]);
   store64 "rdi" 0 "rax"; store64 "rdi" 8 "rsp"; store64 "rdi" 16 "rbp"; store64 "rdi" 24 "rbx";
   store64 "rdi" 32 "r12"; store64 "rdi" 40 "r13"; store64 "rdi" 48 "r14"; store64 "rdi" 56 "r15";
   load64 "rsi" 56 "r15"; load64 "rsi" 48 "r14"; load64 "rsi" 40 "r13"; load64 "rsi" 32 "r12";
   load64 "rsi" 24 "rbx"; load64 "rsi" 16 "rbp"; load64 "rsi" 8 "rsp";
   (2, [JmpM "rsi" 0]);
   ret_to "rsp" 8 1].
(** [_mco_makectx]: 128 bytes of red zone and a dummy return address *)
Definition _mco_makectx : list (Z * nat * sval) :=
  [(0, 8%nat, VPtr "wrap_main" 0); (8, 8%nat, VPtr "top" 0); (32, 8%nat, VPtr "main" 0); (40, 8%nat, VPtr "co" 0)].

Definition a : arch :=
  {| a_isa := isa64 [] 8; a_switch := _mco_switch; a_wrap_main := _mco_wrap_main; a_size := 64; a_slots := _mco_ctxbuf; a_pc := 0;
     a_known := [("rdi", VPtr "from" 0); ("rsi", VPtr "to" 0); ("rsp", VPtr "stk" 0)]; a_facts := []; a_extra := [("stk", (0, 8))];
     a_sp := "rsp"; a_resume := inl 68; a_reserve := 128 + 8; a_context := _mco_makectx;
     a_frame := [(0, 8%nat, VPtr "dummy" 0)]; a_arg := LReg "rdi"; a_align := 8;
     a_preserved := ["rbx"; "rbp"; "r12"; "r13"; "r14"; "r15"]; a_control := ["mxcsr"; "fpucw"] |}.
End X64.

(** ** x86-64, Windows: machine code as bytes *)
Module Win64.
Definition _mco_wrap_main_code : list Z :=
  [0x4c; 0x89; 0xe9; 0x41; 0xff; 0xe4; 0xc3; 0x90; 0x90; 0x90; 0x90; 0x90; 0x90; 0x90; 0x90; 0x90].
Definition _mco_switch_code : list Z :=
  [0x48; 0x8d; 0x05; 0x3e; 0x01; 0x00; 0x00;
   0x48; 0x89; 0x01;
   0x48; 0x89; 0x61; 0x08;
   0x48; 0x89; 0x69; 0x10;
   0x48; 0x89; 0x59; 0x18;
   0x4c; 0x89; 0x61; 0x20;
   0x4c; 0x89; 0x69; 0x28;
   0x4c; 0x89; 0x71; 0x30;
   0x4c; 0x89; 0x79; 0x38;
   0x48; 0x89; 0x79; 0x40;
   0x48; 0x89; 0x71; 0x48;
   0x0f; 0x11; 0x71; 0x50;
   0x0f; 0x11; 0x79; 0x60;
   0x44; 0x0f; 0x11; 0x41; 0x70;
   0x44; 0x0f; 0x11; 0x89; 0x80; 0x00; 0x00; 0x00;
   0x44; 0x0f; 0x11; 0x91; 0x90; 0x00; 0x00; 0x00;
   0x44; 0x0f; 0x11; 0x99; 0xa0; 0x00; 0x00; 0x00;
   0x44; 0x0f; 0x11; 0xa1; 0xb0; 0x00; 0x00; 0x00;
   0x44; 0x0f; 0x11; 0xa9; 0xc0; 0x00; 0x00; 0x00;
   0x44; 0x0f; 0x11; 0xb1; 0xd0; 0x00; 0x00; 0x00;
   0x44; 0x0f; 0x11; 0xb9; 0xe0; 0x00; 0x00; 0x00;
   0x65; 0x4c; 0x8b; 0x14; 0x25; 0x30; 0x00; 0x00; 0x00;
   0x49; 0x8b; 0x42; 0x20;
   0x48; 0x89; 0x81; 0xf0; 0x00; 0x00; 0x00;
   0x49; 0x8b; 0x82; 0x78; 0x14; 0x00; 0x00;
   0x48; 0x89; 0x81; 0xf8; 0x00; 0x00; 0x00;
   0x49; 0x8b; 0x42; 0x10;
   0x48; 0x89; 0x81; 0x00; 0x01; 0x00; 0x00;
   0x49; 0x8b; 0x42; 0x08;
   0x48; 0x89; 0x81; 0x08; 0x01; 0x00; 0x00;
   0x48; 0x8b; 0x82; 0x08; 0x01; 0x00; 0x00;
   0x49; 0x89; 0x42; 0x08;
   0x48; 0x8b; 0x82; 0x00; 0x01; 0x00; 0x00;
   0x49; 0x89; 0x42; 0x10;
   0x48; 0x8b; 0x82; 0xf8; 0x00; 0x00; 0x00;
   0x49; 0x89; 0x82; 0x78; 0x14; 0x00; 0x00;
   0x48; 0x8b; 0x82; 0xf0; 0x00; 0x00; 0x00;
   0x49; 0x89; 0x42; 0x20;
   0x44; 0x0f; 0x10; 0xba; 0xe0; 0x00; 0x00; 0x00;
   0x44; 0x0f; 0x10; 0xb2; 0xd0; 0x00; 0x00; 0x00;
   0x44; 0x0f; 0x10; 0xaa; 0xc0; 0x00; 0x00; 0x00;
   0x44; 0x0f; 0x10; 0xa2; 0xb0; 0x00; 0x00; 0x00;
   0x44; 0x0f; 0x10; 0x9a; 0xa0; 0x00; 0x00; 0x00;
   0x44; 0x0f; 0x10; 0x92; 0x90; 0x00; 0x00; 0x00;
   0x44; 0x0f; 0x10; 0x8a; 0x80; 0x00; 0x00; 0x00;
   0x44; 0x0f; 0x10; 0x42; 0x70;
   0x0f; 0x10; 0x7a; 0x60;
   0x0f; 0x10; 0x72; 0x50;
   0x48; 0x8b; 0x72; 0x48;
   0x48; 0x8b; 0x7a; 0x40;
   0x4c; 0x8b; 0x7a; 0x38;
   0x4c; 0x8b; 0x72; 0x30;
   0x4c; 0x8b; 0x6a; 0x28;
   0x4c; 0x8b; 0x62; 0x20;
   0x48; 0x8b; 0x5a; 0x18;
   0x48; 0x8b; 0x6a; 0x10;
   0x48; 0x8b; 0x62; 0x08;
   0xff; 0x22;
   0xc3;
   0x90; 0x90; 0x90; 0x90; 0x90; 0x90; 0x90; 0x90;
   0x90; 0x90].

(** *** Decoding: the instructions of these two programs, by the encoding of x86-64 *)
Definition gpr : list string :=
  ["rax"; "rcx"; "rdx"; "rbx"; "rsp"; "rbp"; "rsi"; "rdi"; "r8"; "r9"; "r10"; "r11"; "r12"; "r13"; "r14"; "r15"].
Definition xmm : list string :=
  ["xmm0"; "xmm1"; "xmm2"; "xmm3"; "xmm4"; "xmm5"; "xmm6"; "xmm7"; "xmm8"; "xmm9"; "xmm10"; "xmm11"; "xmm12"; "xmm13"; "xmm14"; "xmm15"].
Definition name (l : list string) (n : Z) : string := nth (Z.to_nat n) l "".

(** an operand of a ModRM byte: a register or memory at a register and a displacement;
    with the register field and the bytes used.  [r] and [b] are the REX bits *)
Inductive operand := OReg (n : Z) | OMem (base : string) (off : Z).
Definition sext8 (x : Z) : Z := if x <? 128 then x else x - 256.
Definition sext32 (x : Z) : Z := if x <? 2 ^ 31 then x else x - 2 ^ 32.
Definition bytes4 (l : list Z) : option (Z * list Z) :=
  match l with a :: b :: c :: d :: l => Some (a + 256 * (b + 256 * (c + 256 * d)), l) | _ => None end.

Definition modrm (gs : bool) (r b : Z) (l : list Z) : option (operand * Z * list Z) :=
  match l with
  | [] => None
  | m :: l =>
      let mode := m / 64 in let reg := m / 8 mod 8 + 8 * r in let rm := m mod 8 + 8 * b in
      if mode =? 3 then Some (OReg rm, reg, l)
      else if m mod 8 =? 4 then
        (* a SIB byte: only absolute addresses *)
        match l with
        | 0x25 :: l => if (mode =? 0) && gs then '(d, l) ← bytes4 l; Some (OMem "gs" (sext32 d), reg, l) else None
        | _ => None
        end
      else if gs then None
      else if (mode =? 0) && (m mod 8 =? 5) then '(d, l) ← bytes4 l; Some (OMem "rip" (sext32 d), reg, l)
      else if mode =? 0 then Some (OMem (name gpr rm) 0, reg, l)
      else if mode =? 1 then match l with d :: l => Some (OMem (name gpr rm) (sext8 d), reg, l) | [] => None end
      else '(d, l) ← bytes4 l; Some (OMem (name gpr rm) (sext32 d), reg, l)
  end.

Definition decode_op (gs : bool) (w r b : Z) (l : list Z) : option (list uop * list Z) :=
  match l with
  | 0x90 :: l => Some ([], l)
  | 0xc3 :: l => Some ([JmpM "rsp" 0; AddI "rsp" 8], l)
  | 0x8d :: l => '(o, reg, l) ← modrm gs r b l; match o with OMem "rip" d => Some ([Lea (name gpr reg) d], l) | _ => None end
  | 0x89 :: l =>
      '(o, reg, l) ← modrm gs r b l;
      if w =? 1 then match o with OReg n => Some ([Mov (name gpr n) (name gpr reg)], l) | OMem base d => Some ([St (name gpr reg) base d], l) end
      else None
  | 0x8b :: l =>
      '(o, reg, l) ← modrm gs r b l;
      if w =? 1 then match o with OReg n => Some ([Mov (name gpr reg) (name gpr n)], l) | OMem base d => Some ([Ld (name gpr reg) base d], l) end
      else None
  | 0x0f :: 0x11 :: l => '(o, reg, l) ← modrm gs r b l; match o with OMem base d => Some ([St (name xmm reg) base d], l) | _ => None end
  | 0x0f :: 0x10 :: l => '(o, reg, l) ← modrm gs r b l; match o with OMem base d => Some ([Ld (name xmm reg) base d], l) | _ => None end
  | 0xff :: l =>
      '(o, reg, l) ← modrm gs r b l;
      if reg mod 8 =? 4 then match o with OReg n => Some ([JmpR (name gpr n)], l) | OMem base d => Some ([JmpM base d], l) end else None
  | _ => None
  end.

(** a segment prefix, a REX prefix and the operation *)
Definition decode1 (l : list Z) : option (list uop * list Z) :=
  let '(gs, l) := match l with 0x65 :: l => (true, l) | _ => (false, l) end in
  match l with
  | x :: rest => if x / 16 =? 4 then decode_op gs (x / 8 mod 2) (x / 4 mod 2) (x mod 2) rest else decode_op gs 0 0 0 l
  | [] => None
  end.

Fixpoint decode (fuel : nat) (l : list Z) : option code :=
  match l, fuel with
  | [], _ => Some []
  | _, O => None
  | _, S fuel => '(us, rest) ← decode1 l; c ← decode fuel rest; Some ((zlen l - zlen rest, us) :: c)
  end.

Definition _mco_wrap_main : code := default [] (decode 100 _mco_wrap_main_code).
Definition _mco_switch : code := default [] (decode 500 _mco_switch_code).

(** the buffer: registers, xmm6 to xmm15, and four fields of the thread's control block *)
Definition _mco_ctxbuf : list (loc * Z) :=
  [(LReg "rsp", 8); (LReg "rbp", 16); (LReg "rbx", 24); (LReg "r12", 32); (LReg "r13", 40); (LReg "r14", 48); (LReg "r15", 56);
   (LReg "rdi", 64); (LReg "rsi", 72);
   (LReg "xmm6", 80); (LReg "xmm7", 96); (LReg "xmm8", 112); (LReg "xmm9", 128); (LReg "xmm10", 144);
   (LReg "xmm11", 160); (LReg "xmm12", 176); (LReg "xmm13", 192); (LReg "xmm14", 208); (LReg "xmm15", 224);
   (LMem "teb" 0x20 8, 240); (LMem "teb" 0x1478 8, 248); (LMem "teb" 0x10 8, 256); (LMem "teb" 0x08 8, 264)].
(** [_mco_makectx]: 32 bytes of shadow space; the last two words are stack_limit and
    dealloc_stack, and stack_base is the end of the usable stack *)
Definition _mco_makectx : list (Z * nat * sval) :=
  [(0, 8%nat, VPtr "wrap_main" 0); (8, 8%nat, VPtr "top" 0); (32, 8%nat, VPtr "main" 0); (40, 8%nat, VPtr "co" 0);
   (264, 8%nat, VPtr "top" 8); (256, 8%nat, VPtr "base" 0); (248, 8%nat, VPtr "base" 0)].

Definition a : arch :=
  {| a_isa := isa64 xmm 16; a_switch := _mco_switch; a_wrap_main := _mco_wrap_main; a_size := 272; a_slots := _mco_ctxbuf; a_pc := 0;
     a_known := [("rcx", VPtr "from" 0); ("rdx", VPtr "to" 0); ("rsp", VPtr "stk" 0); ("gs", VPtr "teb" 0)];
     a_facts := [("teb", 0x30, 8%nat, VPtr "teb" 0)]; a_extra := [("stk", (0, 8)); ("teb", (0, 0x1480))];
     a_sp := "rsp"; a_resume := inl 325; a_reserve := 32 + 8; a_context := _mco_makectx;
     a_frame := [(0, 8%nat, VPtr "dummy" 0)]; a_arg := LReg "rcx"; a_align := 8;
     a_preserved := ["rbx"; "rbp"; "rdi"; "rsi"; "r12"; "r13"; "r14"; "r15";
       "xmm6"; "xmm7"; "xmm8"; "xmm9"; "xmm10"; "xmm11"; "xmm12"; "xmm13"; "xmm14"; "xmm15"]; a_control := ["mxcsr"; "fpucw"] |}.
End Win64.

(** ** RISC-V *)
Module Riscv.
Section Variants.
(** bytes of a register, and of a floating-point register where there are any *)
Variables (xlen : Z) (flen : option Z).

Definition s_regs : list string := ["s0"; "s1"; "s2"; "s3"; "s4"; "s5"; "s6"; "s7"; "s8"; "s9"; "s10"; "s11"].
Definition fs_regs : list string := ["fs0"; "fs1"; "fs2"; "fs3"; "fs4"; "fs5"; "fs6"; "fs7"; "fs8"; "fs9"; "fs10"; "fs11"].
(** registers one after the other, from an offset *)
Fixpoint at_offsets (off size : Z) (l : list string) : list (string * Z) :=
  match l with [] => [] | r :: l => (r, off) :: at_offsets (off + size) size l end.

Definition f_slots : list (string * Z) := match flen with Some f => at_offsets (15 * xlen) f fs_regs | None => [] end.
Definition x_slots : list (string * Z) := at_offsets 0 xlen s_regs ++ [("ra", 12 * xlen)].

Definition isa : Isa :=
  {| word := Z.to_nat xlen; rwidth r := match flen with Some f => if bool_decide (r ∈ fs_regs) then Z.to_nat f else Z.to_nat xlen | None => Z.to_nat xlen end |}.

Definition s_store (x : string * Z) : Z * list uop := (4, [St x.1 "a0" x.2]).
Definition s_load (x : string * Z) : Z * list uop := (4, [Ld x.1 "a1" x.2]).
Definition _mco_wrap_main : code := [(4, [Mov "a0" "s0"]); (4, [JmpR "s1"])].
Definition _mco_switch : code :=
  map s_store x_slots ++ [s_store ("ra", 13 * xlen); s_store ("sp", 14 * xlen)] ++ map s_store f_slots ++
  map s_load f_slots ++ map s_load x_slots ++ [s_load ("a2", 13 * xlen); s_load ("sp", 14 * xlen)] ++ [(4, [JmpR "a2"])].

Definition _mco_ctxbuf : list (loc * Z) := map (fun x => (LReg x.1, x.2)) (x_slots ++ ("sp", 14 * xlen) :: f_slots).
Definition _mco_makectx : list (Z * nat * sval) :=
  let w := Z.to_nat xlen in
  [(0, w, VPtr "co" 0); (xlen, w, VPtr "main" 0); (13 * xlen, w, VPtr "wrap_main" 0); (12 * xlen, w, VPtr "dummy" 0); (14 * xlen, w, VPtr "top" 0)].

Definition a (size : Z) : arch :=
  {| a_isa := isa; a_switch := _mco_switch; a_wrap_main := _mco_wrap_main; a_size := size; a_slots := _mco_ctxbuf; a_pc := 13 * xlen;
     a_known := [("a0", VPtr "from" 0); ("a1", VPtr "to" 0)]; a_facts := []; a_extra := [];
     a_sp := "sp"; a_resume := inr "ra"; a_reserve := 0; a_context := _mco_makectx; a_frame := []; a_arg := LReg "a0"; a_align := 0;
     a_preserved := ["s0"; "s1"; "s2"; "s3"; "s4"; "s5"; "s6"; "s7"; "s8"; "s9"; "s10"; "s11"] ++
       match flen with Some _ => ["fs0"; "fs1"; "fs2"; "fs3"; "fs4"; "fs5"; "fs6"; "fs7"; "fs8"; "fs9"; "fs10"; "fs11"] | None => [] end;
     a_control := [] |}.
End Variants.
(** the combinations the header has code for, with sizeof(_mco_ctxbuf); on a 32-bit
    machine with 64-bit floats the compiler aligns [fs] to 64, the assembly uses 60 *)
Definition rv64 : arch := a 8 None 120.
Definition rv64d : arch := a 8 (Some 8) 216.
Definition rv32 : arch := a 4 None 60.
Definition rv32f : arch := a 4 (Some 4) 108.
Definition rv32d : arch := a 4 (Some 8) 160.
End Riscv.

(** ** i386 *)
Module I386.
Definition isa : Isa := {| word := 4; rwidth _ := 4%nat |}.
(** the labels of the code, for the short forms of its instructions *)
Definition label_1 : Z := 5.
Definition label_2 : Z := 51.
Definition _mco_switch : code :=
  [(5, [AddI "esp" (-4); StPc "esp" 0]);
   (1, [Ld "ecx" "esp" 0; AddI "esp" 4]); (3, [AddI "ecx" (label_2 - label_1)]);
   (4, [Ld "eax" "esp" 4]); (4, [Ld "edx" "esp" 8]);
   (2, [St "ecx" "eax" 0]); (3, [St "esp" "eax" 4]); (3, [St "ebp" "eax" 8]); (3, [St "ebx" "eax" 12]); (3, [St "esi" "eax" 16]); (3, [St "edi" "eax" 20]);
   (3, [Ld "edi" "edx" 20]); (3, [Ld "esi" "edx" 16]); (3, [Ld "ebx" "edx" 12]); (3, [Ld "ebp" "edx" 8]); (3, [Ld "esp" "edx" 4]);
   (2, [JmpM "edx" 0]);
   ret_to "esp" 4 1].
Definition _mco_ctxbuf : list (loc * Z) :=
  [(LReg "esp", 4); (LReg "ebp", 8); (LReg "ebx", 12); (LReg "esi", 16); (LReg "edi", 20)].
Definition _mco_makectx : list (Z * nat * sval) := [(0, 4%nat, VPtr "main" 0); (4, 4%nat, VPtr "top" 0)].

Definition a : arch :=
  {| a_isa := isa; a_switch := _mco_switch; a_wrap_main := []; a_size := 24; a_slots := _mco_ctxbuf; a_pc := 0;
     a_known := [("esp", VPtr "stk" 0)]; a_facts := [("stk", 4, 4%nat, VPtr "from" 0); ("stk", 8, 4%nat, VPtr "to" 0)];
     a_extra := [("stk", (-4, 12))]; a_sp := "esp"; a_resume := inl label_2; a_reserve := 16 + 4; a_context := _mco_makectx;
     a_frame := [(0, 4%nat, VPtr "dummy" 0); (4, 4%nat, VPtr "co" 0)]; a_arg := LMem "top" 4 4; a_align := 4;
     a_preserved := ["ebx"; "esi"; "edi"; "ebp"]; a_control := ["mxcsr"; "fpucw"] |}.
End I386.

(** ** ARM *)
Module Arm.
Section Variants.
(** __SOFTFP__ *)
Variable softfp : bool.
Definition d_regs : list string := ["d8"; "d9"; "d10"; "d11"; "d12"; "d13"; "d14"; "d15"].
Definition r_regs : list string := ["r4"; "r5"; "r6"; "r7"; "r8"; "r9"; "r10"; "r11"].
Definition isa : Isa := {| word := 4; rwidth r := if bool_decide (r ∈ d_regs) then 8%nat else 4%nat |}.

(** store or load multiple: registers to or from consecutive addresses *)
Definition stm (b : string) (size : Z) (l : list string) : list uop := map (fun x => St x.1 b x.2) (Riscv.at_offsets 0 size l).
Definition ldm (b : string) (size : Z) (l : list string) : list uop := map (fun x => Ld x.1 b x.2) (Riscv.at_offsets 0 size l).

Definition _mco_switch : code :=
  (if softfp then [] else [(4, stm "r0" 8 d_regs ++ [AddI "r0" 64])]) ++
  [(4, stm "r0" 4 (r_regs ++ ["lr"])); (4, [St "sp" "r0" (9 * 4)])] ++
  (if softfp then [] else [(4, ldm "r1" 8 d_regs ++ [AddI "r1" 64])]) ++
  [(4, [Ld "sp" "r1" (9 * 4)]); (4, ldm "r1" 4 r_regs ++ [JmpM "r1" 32])].
Definition _mco_wrap_main : code := [(4, [Mov "r0" "r4"]); (4, [Mov "ip" "r5"]); (4, [Mov "lr" "r6"]); (4, [JmpR "ip"])].

(** the core registers come after the floating-point ones *)
Definition core : Z := if softfp then 0 else 64.
Definition _mco_ctxbuf : list (loc * Z) :=
  map (fun x => (LReg x.1, x.2)) ((if softfp then [] else Riscv.at_offsets 0 8 d_regs) ++ Riscv.at_offsets core 4 r_regs ++ [("sp", core + 36)]).
Definition _mco_makectx : list (Z * nat * sval) :=
  [(core, 4%nat, VPtr "co" 0); (core + 4, 4%nat, VPtr "main" 0); (core + 8, 4%nat, VPtr "dummy" 0);
   (core + 32, 4%nat, VPtr "wrap_main" 0); (core + 36, 4%nat, VPtr "top" 0)].

Definition a : arch :=
  {| a_isa := isa; a_switch := _mco_switch; a_wrap_main := _mco_wrap_main; a_size := core + 40; a_slots := _mco_ctxbuf; a_pc := core + 32;
     a_known := [("r0", VPtr "from" 0); ("r1", VPtr "to" 0)]; a_facts := []; a_extra := [];
     a_sp := "sp"; a_resume := inr "lr"; a_reserve := 0; a_context := _mco_makectx; a_frame := []; a_arg := LReg "r0"; a_align := 0;
     a_preserved := ["r4"; "r5"; "r6"; "r7"; "r8"; "r9"; "r10"; "r11"] ++
       (if softfp then [] else ["d8"; "d9"; "d10"; "d11"; "d12"; "d13"; "d14"; "d15"]);
     a_control := [] |}.
End Variants.
End Arm.

(** ** AArch64 *)
Module Aarch64.
Definition isa : Isa := {| word := 8; rwidth _ := 8%nat |}.
(** store or load a pair *)
Definition stp (r1 r2 : string) (off : Z) : Z * list uop := (4, [St r1 "x0" off; St r2 "x0" (off + 8)]).
Definition ldp (r1 r2 : string) (off : Z) : Z * list uop := (4, [Ld r1 "x1" off; Ld r2 "x1" (off + 8)]).
Definition _mco_switch : code :=
  [(4, [Mov "x10" "sp"]); (4, [Mov "x11" "x30"]);
   stp "x19" "x20" (0*16); stp "x21" "x22" (1*16); stp "d8" "d9" (7*16); stp "x23" "x24" (2*16); stp "d10" "d11" (8*16);
   stp "x25" "x26" (3*16); stp "d12" "d13" (9*16); stp "x27" "x28" (4*16); stp "d14" "d15" (10*16); stp "x29" "x30" (5*16);
   stp "x10" "x11" (6*16);
   ldp "x19" "x20" (0*16); ldp "x21" "x22" (1*16); ldp "d8" "d9" (7*16); ldp "x23" "x24" (2*16); ldp "d10" "d11" (8*16);
   ldp "x25" "x26" (3*16); ldp "d12" "d13" (9*16); ldp "x27" "x28" (4*16); ldp "d14" "d15" (10*16); ldp "x29" "x30" (5*16);
   ldp "x10" "x11" (6*16);
   (4, [Mov "sp" "x10"]); (4, [JmpR "x11"])].
Definition _mco_wrap_main : code := [(4, [Mov "x0" "x19"]); (4, [Mov "x30" "x21"]); (4, [JmpR "x20"])].
Definition _mco_ctxbuf : list (loc * Z) :=
  map (fun x => (LReg x.1, x.2))
    (Riscv.at_offsets 0 8 ["x19"; "x20"; "x21"; "x22"; "x23"; "x24"; "x25"; "x26"; "x27"; "x28"; "x29"; "x30"; "sp"] ++
     Riscv.at_offsets 112 8 ["d8"; "d9"; "d10"; "d11"; "d12"; "d13"; "d14"; "d15"]).
Definition _mco_makectx : list (Z * nat * sval) :=
  [(0, 8%nat, VPtr "co" 0); (8, 8%nat, VPtr "main" 0); (16, 8%nat, VPtr "dummy" 0); (96, 8%nat, VPtr "top" 0); (104, 8%nat, VPtr "wrap_main" 0)].

Definition a : arch :=
  {| a_isa := isa; a_switch := _mco_switch; a_wrap_main := _mco_wrap_main; a_size := 176; a_slots := _mco_ctxbuf; a_pc := 104;
     a_known := [("x0", VPtr "from" 0); ("x1", VPtr "to" 0)]; a_facts := []; a_extra := [];
     a_sp := "sp"; a_resume := inr "x30"; a_reserve := 0; a_context := _mco_makectx; a_frame := []; a_arg := LReg "x0"; a_align := 0;
     a_preserved := ["x19"; "x20"; "x21"; "x22"; "x23"; "x24"; "x25"; "x26"; "x27"; "x28"; "x29"; "d8"; "d9"; "d10"; "d11"; "d12"; "d13"; "d14"; "d15"];
     a_control := [] |}.
End Aarch64.

(** the architectures of the header *)
Definition archs : list arch :=
  [X64.a; Win64.a; Riscv.rv64; Riscv.rv64d; Riscv.rv32; Riscv.rv32f; Riscv.rv32d; I386.a; Arm.a false; Arm.a true; Aarch64.a].

(** ** The tests of a program *)
Section Checks.
Variable a : arch.
#[local] Existing Instance a_isa.

Definition lwidth (l : loc) : nat := match l with LReg r => @rwidth (a_isa a) r | LMem _ _ n => n end.
Definition wd : nat := @word (a_isa a).
Definition csize (c : code) : Z := fold_right (fun i n => i.1 + n) 0 c.

(** the regions of a switch: the buffers, the code and what else it reads *)
Definition switch_layout (more : list (string * (Z * Z))) : layout :=
  {| regions := [("from", (0, a_size a)); ("to", (0, a_size a)); ("switch", (0, csize (a_switch a)))] ++ a_extra a ++ more;
     sections := [("switch", a_switch a); ("wrap_main", a_wrap_main a)] |}.
(** the stack pointer of the context that is resumed *)
Definition resume_layout : layout := switch_layout [("oldstk", (0, Z.of_nat wd))].
(** the new coroutine and its stack *)
Definition entry_layout : layout :=
  switch_layout [("wrap_main", (0, csize (a_wrap_main a))); ("main", (0, 0)); ("co", (0, 0)); ("base", (0, 0)); ("top", (0, a_reserve a)); ("dummy", (0, 0))].

Definition start (facts : list (string * Z * nat * sval)) : sstate :=
  {| sregs := a_known a; smem := facts ++ a_facts a; spc := VPtr "switch" 0 |}.

Definition sget (ss : sstate) (l : loc) : option sval :=
  match l with LReg r => Some (sreg ss r) | LMem b off n => sload_in (smem ss) b off n end.
Definition is_val (o : option sval) (v : sval) : bool := bool_decide (o = Some v).

(** where the context that is left goes on *)
Definition cont : sval := match a_resume a with inl off => VPtr "switch" off | inr lr => VReg lr end.

(** bytes besides the buffer that a switch writes: its own stack and the fields a context has outside registers *)
Definition scratch (b : string) (off : Z) (n : nat) : bool :=
  bool_decide (b = "stk" /\ off + Z.of_nat n <= 0) || existsb (fun x => bool_decide (x.1 = LMem b off n)) (a_slots a).

Definition fuel : nat := 200.
(** the stores of a run that started with the facts of the architecture in memory *)
Definition writes (ss : sstate) : list (string * Z * nat * sval) := take (length (smem ss) - length (a_facts a)) (smem ss).

Definition facts_ok (L : layout) (facts : list (string * Z * nat * sval)) : bool :=
  forallb (fun '(b, off, n, v) => inside L b off (Z.of_nat n) && vok L v && (@vwidth (a_isa a) v =? n)%nat) facts.
Definition known_ok (L : layout) : bool :=
  forallb (fun '(r, v) => vok L v && (@vwidth (a_isa a) v =? @rwidth (a_isa a) r)%nat) (a_known a) && vok L (VPtr "switch" 0).
Definition slots_inside : bool :=
  forallb (fun '(l, off) => (0 <=? off) && (off + Z.of_nat (lwidth l) <=? a_size a) &&
                            match l with LMem b o n => inside (switch_layout []) b o (Z.of_nat n) | _ => true end) ((LReg "pc", a_pc a) :: a_slots a).

Definition switch_check : bool :=
  facts_ok (switch_layout []) (a_facts a) && known_ok (switch_layout []) && slots_inside && (@rwidth (a_isa a) "pc" =? wd)%nat &&
  match @srun (a_isa a) (switch_layout []) fuel (start []) with
  | Some (_, ss) =>
      forallb (fun '(l, off) =>
        match sget (start []) l with Some v => is_val (sload_in (smem ss) "from" off (lwidth l)) v | None => false end && is_val (sget ss l) (VMem "to" off (lwidth l))) (a_slots a) &&
      bool_decide (spc ss = VMem "to" (a_pc a) wd) && is_val (sload_in (smem ss) "from" (a_pc a) wd) cont &&
      bool_decide (smem ss = writes ss ++ a_facts a) && forallb (fun r => bool_decide (sreg ss r = VReg r)) (a_control a) &&
      forallb (fun '(b, off, n, _) => bool_decide (b = "from") || scratch b off n) (writes ss)
  | None => false
  end.

(** *** going back to a context that a switch has left, where the saved address is inside the switch *)
Definition sp_slot : Z := match list_find (fun x => x.1 = LReg (a_sp a)) (a_slots a) with Some (_, x) => x.2 | None => 0 end.
Definition resume_facts (off : Z) : list (string * Z * nat * sval) :=
  [("to", a_pc a, wd, VPtr "switch" off); ("to", sp_slot, wd, VPtr "oldstk" 0)].
Definition resume_check (off : Z) : bool :=
  facts_ok resume_layout (resume_facts off ++ a_facts a) && known_ok resume_layout &&
  match @srun (a_isa a) resume_layout fuel (start (resume_facts off)) with
  | Some (_, ss) =>
      forallb (fun '(l, o) => bool_decide (l = LReg (a_sp a)) || is_val (sget ss l) (VMem "to" o (lwidth l))) (a_slots a) &&
      forallb (fun r => bool_decide (sreg ss r = VReg r)) (a_control a) &&
      is_val (sget ss (LReg (a_sp a))) (VPtr "oldstk" (Z.of_nat wd)) && bool_decide (spc ss = VMem "oldstk" 0 wd)
  | None => false
  end.

(** *** going to a context that _mco_makectx has prepared *)
Definition is_pointer (v : sval) : bool := match v with VPtr _ _ => true | _ => false end.
Definition is_dummy (v : sval) : bool := bool_decide (v = VPtr "dummy" 0).
Definition context_facts : list (string * Z * nat * sval) :=
  map (fun '(off, n, v) => ("to", off, n, v)) (List.filter (fun '(_, _, v) => negb (is_dummy v)) (a_context a)) ++
  map (fun '(off, n, v) => ("top", off, n, v)) (List.filter (fun '(_, _, v) => negb (is_dummy v)) (a_frame a)).
(** what _mco_makectx stores, the dummy return addresses included *)
Definition context_stores : list (string * Z * nat * sval) :=
  map (fun '(off, n, v) => ("to", off, n, v)) (a_context a) ++ map (fun '(off, n, v) => ("top", off, n, v)) (a_frame a).
Definition entry_check : bool :=
  facts_ok entry_layout context_stores &&
  forallb (fun '(b, off, n, v) => bool_decide (b = "to" \/ b = "top") && is_pointer v && is_val (sload_in context_stores b off n) v) context_facts &&
  forallb (fun '(_, _, _, v) => is_pointer v) context_stores &&
  ((a_align a - a_reserve a) mod 16 =? 0) &&
  facts_ok entry_layout (context_facts ++ a_facts a) && known_ok entry_layout &&
  match @srun (a_isa a) entry_layout fuel (start context_facts) with
  | Some (_, ss) =>
      bool_decide (spc ss = VPtr "main" 0) &&
      match a_arg a with LMem b off n => inside entry_layout b off (Z.of_nat n) | _ => true end && is_val (sget ss (a_arg a)) (VPtr "co" 0) && is_val (sget ss (LReg (a_sp a))) (VPtr "top" 0)
  | None => false
  end.
End Checks.

Definition check (a : arch) : bool :=
  bool_decide ((LReg (a_sp a), sp_slot a) ∈ a_slots a) && (@rwidth (a_isa a) (a_sp a) =? wd a)%nat && (0 <? wd a)%nat &&
  forallb (fun r => negb (bool_decide (r = a_sp a)) && existsb (fun x => bool_decide (x.1 = LReg r)) (a_slots a)) (a_preserved a) &&
  switch_check a && entry_check a && match a_resume a with inl off => resume_check a off | inr _ => true end.

Lemma archs_check : forallb check archs = true.
Proof. vm_compute. reflexivity. Qed.
