(* ===== verification/SwitchProps.v ===== *)
(** * SwitchProps: what the context switches do

    One proof covers the architectures of Switch.v: a switch keeps what a caller
    relies on across a call, and switching back to a context is a return from the
    switch that has left it ([switch_round_trip]); switching to a new context
    calls [_mco_main] on the coroutine's stack ([first_switch_enters_main]). *)

From stdpp Require Import strings.
From S2P Require Import Prelude Machine Switch.
#[global] Open Scope Z_scope.

(** ** What the tests mean *)
Lemma assoc_in {A} (l : list (string * A)) k v : assoc l k = Some v -> (k, v) ∈ l.
Proof.
  unfold assoc. destruct (list_find _ l) as [[i [k' v']]|] eqn:E; [| done]. cbn. intros [= <-].
  apply list_find_Some in E as (E & <- & _). by apply list_elem_of_lookup_2 in E.
Qed.

Lemma forallb_elem {A} (f : A -> bool) l x : forallb f l = true -> x ∈ l -> f x = true.
Proof. intros Hf Hx. rewrite forallb_forall in Hf. apply Hf. by apply list_elem_of_In. Qed.

Section Meaning.
Context (a : arch) (addr : string -> Z) (fetch : Z -> option (Z * list uop)).
#[local] Existing Instance a_isa.
Implicit Type s : machine.

(** the value of a register or of memory *)
Definition get_loc (s : machine) (l : loc) : Z :=
  match l with LReg r => regs s r | LMem b off n => load n (addr b + off) (mem s) end.
(** an address that is known by name *)
Definition named (v : sval) : Z := match v with VPtr b off => addr b + off | _ => 0 end.

(** [s] is about to run _mco_switch(from, to) *)
Record calls (s : machine) : Prop := {
  ca_known : Forall (fun '(r, v) => is_pointer v = true /\ regs s r = named v) (a_known a);
  ca_facts : Forall (fun '(b, off, n, v) => is_pointer v = true /\ load n (addr b + off) (mem s) = named v) (a_facts a);
  ca_pc : pc s = addr "switch";
}.

(** memory holds the words of a list *)
Definition holds (facts : list (string * Z * nat * sval)) (s : machine) : Prop :=
  Forall (fun '(b, off, n, v) => is_pointer v = true /\ load n (addr b + off) (mem s) = named v) facts.

Definition switch_placed (s : machine) : Prop := @placed (a_isa a) (switch_layout a []) s addr fetch.

Lemma named_denote s v : is_pointer v = true -> denote s addr v = named v.
Proof. by destruct v. Qed.

Lemma stores_facts (L : layout) s facts x : machine_ok s -> holds facts s -> stores s addr facts x = mem s x.
Proof.
  intros [_ Hm] Hf. revert x. induction Hf as [|[[[b off] n] v] l [Hp Hv] _ IH]; intros x; cbn [stores foldr]; [done |].
  rewrite named_denote, <- Hv by done. by apply store_load.
Qed.

(** [_mco_makectx] on memory: "to" is the buffer, "top" where the stack pointer starts *)
Definition makectx (m : memory) : memory :=
  foldr (fun '(b, off, n, v) m => store n (addr b + off) (named v) m) m (context_stores a).

Lemma start_matches (L : layout) s facts :
  placed L s addr fetch -> facts_ok a L (facts ++ a_facts a) = true -> known_ok a L = true ->
  holds facts s -> calls s -> matches L s addr (start a facts) s.
Proof.
  intros Hp Hf Hk Hh Hc. unfold facts_ok, known_ok in *. apply andb_prop in Hk as [Hk Hsw].
  constructor; cbn [start sregs smem spc].
  - constructor; cbn [start sregs smem spc]; [| | done].
    + intros r v Hr%assoc_in. apply (forallb_elem _ _ _ Hk) in Hr. apply andb_prop in Hr as [? ?%Nat.eqb_eq]. done.
    + apply Forall_forall. intros [[[b off] n] v] Hin%list_elem_of_In. apply (forallb_elem _ _ _ Hf) in Hin.
      apply andb_prop in Hin as [[? ?]%andb_prop ?%Nat.eqb_eq]. done.
  - intros r. unfold sreg. cbn [start sregs]. destruct (assoc (a_known a) r) as [v|] eqn:E; cbn; [| done].
    apply assoc_in in E. pose proof (ca_known _ Hc) as Hkn. rewrite Forall_forall in Hkn.
    destruct (Hkn _ (proj1 (list_elem_of_In _ _) E)) as [? ?]. by rewrite named_denote.
  - intros x. symmetry. apply (stores_facts L); [apply (p_init L s addr fetch Hp) |]. apply Forall_app. split; [done | apply Hc].
  - cbn. rewrite (ca_pc _ Hc). lia.
Qed.

(** a symbolic value that is read in the final state *)
Lemma sget_sound (L : layout) s0 ss s l v :
  placed L s0 addr fetch -> matches L s0 addr ss s ->
  match l with LMem b off n => inside L b off (Z.of_nat n) = true | _ => True end ->
  sget ss l = Some v -> get_loc s l = denote s0 addr v.
Proof.
  intros Hp Hm Hi E. destruct l as [r | b off n]; cbn [sget get_loc] in *.
  - injection E as <-. apply (m_regs _ _ _ _ _ Hm).
  - destruct (sload_in_sound L s0 addr fetch Hp _ _ _ _ _ (so_mem _ _ (m_ok _ _ _ _ _ Hm)) Hi E) as [_ <-].
    apply load_ext. intros x _. apply (m_mem _ _ _ _ _ Hm).
Qed.

(** bytes a switch may write besides the buffer *)
Definition scratch_at (x : Z) : Prop :=
  exists b off n, scratch a b off n = true /\ inside (switch_layout a []) b off (Z.of_nat n) = true /\ addr b + off <= x < addr b + off + Z.of_nat n.

(** _mco_switch(from, to), from [s] to [s'] *)
Record switched (s s' : machine) : Prop := {
  sw_saved : forall l off, (l, off) ∈ a_slots a -> load (lwidth a l) (addr "from" + off) (mem s') = get_loc s l;
  sw_loaded : forall l off, (l, off) ∈ a_slots a -> get_loc s' l = load (lwidth a l) (addr "to" + off) (mem s);
  sw_pc : pc s' = load (wd a) (addr "to" + a_pc a) (mem s);
  sw_cont : load (wd a) (addr "from" + a_pc a) (mem s') = match a_resume a with inl off => addr "switch" + off | inr lr => regs s lr end;
  sw_control : forall r, r ∈ a_control a -> regs s' r = regs s r;
  sw_ok : machine_ok s';
  sw_frame : forall x, x < addr "from" \/ addr "from" + a_size a <= x -> ~ scratch_at x -> mem s' x = mem s x;
}.

Lemma slot_inside l off :
  slots_inside a = true -> (l, off) ∈ (LReg "pc", a_pc a) :: a_slots a ->
  inside (switch_layout a []) "from" off (Z.of_nat (lwidth a l)) = true /\
  inside (switch_layout a []) "to" off (Z.of_nat (lwidth a l)) = true /\
  match l with LMem b o n => inside (switch_layout a []) b o (Z.of_nat n) = true | _ => True end.
Proof.
  intros Hs Hin. apply (forallb_elem _ _ _ Hs) in Hin. apply andb_prop in Hin as [Hin Hl].
  split; [exact Hin |]. split; [exact Hin |]. by destruct l.
Qed.

Lemma switch_sound s :
  switch_check a = true -> switch_placed s -> calls s -> exists n s', run fetch n s = Some s' /\ switched s s'.
Proof.
  unfold switch_check. intros Hc Hp Hs.
  apply andb_prop in Hc as [Hc Hr]. apply andb_prop in Hc as [Hc Hpw]. apply andb_prop in Hc as [Hc Hsi].
  apply andb_prop in Hc as [Hf Hk]. apply Nat.eqb_eq in Hpw.
  destruct (srun _ _ _) as [[n ss]|] eqn:E; [| done].
  apply andb_prop in Hr as [Hr Hw]. apply andb_prop in Hr as [Hr Hctl]. apply andb_prop in Hr as [Hr Hws]. apply andb_prop in Hr as [Hr Hcont].
  apply andb_prop in Hr as [Hr Hpc]. apply bool_decide_eq_true_1 in Hws, Hcont, Hpc.
  pose proof (start_matches (switch_layout a []) s [] Hp Hf Hk (List.Forall_nil _) Hs) as Hm0.
  destruct (srun_sound _ s addr fetch Hp _ _ _ _ _ Hm0 E) as (s' & Hrun & Hm). exists n, s'. split; [done |].
  assert (Hslot : forall l off, (l, off) ∈ a_slots a ->
    load (lwidth a l) (addr "from" + off) (mem s') = get_loc s l /\ get_loc s' l = load (lwidth a l) (addr "to" + off) (mem s)).
  { intros l off Hin. destruct (slot_inside l off Hsi (list_elem_of_further _ _ _ Hin)) as (Hfr & _ & Hl).
    apply (forallb_elem _ _ _ Hr) in Hin. apply andb_prop in Hin as [H1 H2]. apply bool_decide_eq_true_1 in H2.
    destruct (sget (start a []) l) as [v|] eqn:Ev; [| done]. apply bool_decide_eq_true_1 in H1.
    rewrite (sget_sound _ s ss s' l _ Hp Hm Hl H2), (sget_sound _ s _ s l v Hp Hm0 Hl Ev). split; [| done].
    exact (sget_sound _ s ss s' (LMem "from" off (lwidth a l)) v Hp Hm Hfr H1). }
  destruct (slot_inside _ _ Hsi (list_elem_of_here _ _)) as (Hpf & _ & _). cbn [lwidth] in Hpf. rewrite Hpw in Hpf.
  constructor.
  - intros l off Hin. by apply Hslot.
  - intros l off Hin. by apply Hslot.
  - rewrite (m_pc _ _ _ _ _ Hm), Hpc. done.
  - pose proof (sget_sound _ s ss s' (LMem "from" (a_pc a) (wd a)) _ Hp Hm Hpf Hcont) as Hg. cbn [get_loc] in Hg.
    rewrite Hg. unfold cont. by destruct (a_resume a).
  - intros r Hin%(forallb_elem _ _ _ Hctl). apply bool_decide_eq_true_1 in Hin. by rewrite (m_regs _ _ _ _ _ Hm), Hin.
  - exact (matches_ok _ _ _ _ Hp _ _ Hm).
  - intros x Hx Hns. rewrite (m_mem _ _ _ _ _ Hm), Hws. pose proof (so_mem _ _ (m_ok _ _ _ _ _ Hm)) as Hin. rewrite Hws in Hin.
    apply Forall_app in Hin as [Hin _]. unfold stores. rewrite foldr_app.
    assert (Hbase : forall y, stores s addr (a_facts a) y = mem s y).
    { intros y. apply (stores_facts (switch_layout a [])); [apply (p_init _ _ _ _ Hp) | apply Hs]. }
    fold (stores s addr (a_facts a)). clear Hws. revert Hw Hin. generalize (writes a ss) as ws.
    induction ws as [|[[[b off] n'] v] l IH]; intros Hw Hin; cbn [foldr]; [apply Hbase |].
    cbn [forallb] in Hw. apply andb_prop in Hw as [Hb Hw]. apply Forall_cons_1 in Hin as [[Hi _] Hin].
    rewrite store_outside; [by apply IH |]. destruct (decide (b = "from")) as [->|Hne].
    + change (((0 <=? off) && (off + Z.of_nat n' <=? a_size a)) = true) in Hi. zb. lia.
    + rewrite bool_decide_eq_false_2 in Hb by done. destruct (decide (addr b + off <= x < addr b + off + Z.of_nat n')); [| lia].
      exfalso. apply Hns. by exists b, off, n'.
Qed.

(** more regions are no less *)
Lemma placed_less more s : placed (switch_layout a more) s addr fetch -> switch_placed s.
Proof.
  assert (Hin : forall b r, assoc (regions (switch_layout a [])) b = Some r -> assoc (regions (switch_layout a more)) b = Some r).
  { intros b r. cbn [switch_layout regions]. rewrite app_nil_r, (app_assoc _ (a_extra a)). unfold assoc.
    destruct (list_find _ (_ ++ a_extra a)) as [[i [k v]]|] eqn:E; [| done]. by rewrite (list_find_app_l _ _ _ _ _ E). }
  intros [Hi Hs Ha Hc]. constructor; [done | | | done].
  - intros b lo hi Hb. by apply Hs, Hin.
  - intros b lo hi b' lo' hi' Hb Hb'. by apply Ha; apply Hin.
Qed.

(** going on after a switch, where a context returns through its stack *)
Lemma resume_sound s off :
  resume_check a off = true -> slots_inside a = true -> placed (resume_layout a) s addr fetch -> calls s -> holds (resume_facts a off) s ->
  exists n s', run fetch n s = Some s' /\
    (forall l o, (l, o) ∈ a_slots a -> l <> LReg (a_sp a) -> get_loc s' l = load (lwidth a l) (addr "to" + o) (mem s)) /\
    (forall r, r ∈ a_control a -> regs s' r = regs s r) /\
    regs s' (a_sp a) = addr "oldstk" + Z.of_nat (wd a) /\ pc s' = load (wd a) (addr "oldstk") (mem s).
Proof.
  unfold resume_check. intros Hc Hsi Hp Hs Hh.
  apply andb_prop in Hc as [Hc Hr]. apply andb_prop in Hc as [Hf Hk].
  destruct (srun _ _ _) as [[n ss]|] eqn:E; [| done].
  apply andb_prop in Hr as [Hr Hpc]. apply andb_prop in Hr as [Hr Hsp]. apply andb_prop in Hr as [Hr Hctl]. apply bool_decide_eq_true_1 in Hpc, Hsp.
  pose proof (start_matches (resume_layout a) s _ Hp Hf Hk Hh Hs) as Hm0.
  destruct (srun_sound _ s addr fetch Hp _ _ _ _ _ Hm0 E) as (s' & Hrun & Hm). exists n, s'. split; [done |]. split; [| split; [| split]].
  - intros l o Hin Hne. pose proof (forallb_elem _ _ _ Hr Hin) as Hl. cbn beta iota in Hl.
    rewrite bool_decide_eq_false_2 in Hl by done. apply bool_decide_eq_true_1 in Hl.
    refine (sget_sound _ s ss s' l _ Hp Hm _ Hl). pose proof (slot_inside l o Hsi (list_elem_of_further _ _ _ Hin)) as (_ & _ & Hi).
    destruct l as [|b o' n']; [done |]. revert Hi. unfold inside, resume_layout. cbn [switch_layout regions].
    rewrite app_nil_r, (app_assoc _ (a_extra a)). unfold assoc.
    destruct (list_find _ (_ ++ a_extra a)) as [[i [k v]]|] eqn:El; [| done]. by rewrite (list_find_app_l _ _ _ _ _ El).
  - intros r Hin%(forallb_elem _ _ _ Hctl). apply bool_decide_eq_true_1 in Hin. by rewrite (m_regs _ _ _ _ _ Hm), Hin.
  - exact (sget_sound _ s ss s' (LReg (a_sp a)) _ Hp Hm I Hsp).
  - rewrite (m_pc _ _ _ _ _ Hm), Hpc. cbn. by rewrite Z.add_0_r.
Qed.
End Meaning.

(** ** A switch is a call that returns when its context is switched to *)
Section RoundTrip.
Context (a : arch) (fetch : Z -> option (Z * list uop)).
#[local] Existing Instance a_isa.
Hypothesis Ha : a ∈ archs.

Lemma archs_ok : check a = true.
Proof. exact (forallb_elem _ _ _ archs_check Ha). Qed.

Lemma check_parts :
  (LReg (a_sp a), sp_slot a) ∈ a_slots a /\ @rwidth (a_isa a) (a_sp a) = wd a /\ (0 < wd a)%nat /\
  (forall r, r ∈ a_preserved a -> r <> a_sp a /\ exists off, (LReg r, off) ∈ a_slots a) /\
  switch_check a = true /\ slots_inside a = true /\ entry_check a = true /\
  match a_resume a with inl off => resume_check a off = true | inr _ => True end.
Proof.
  pose proof archs_ok as H. unfold check in H.
  apply andb_prop in H as [H Hr]. apply andb_prop in H as [H He]. apply andb_prop in H as [H Hs]. apply andb_prop in H as [H Hpr].
  apply andb_prop in H as [H Hw]. apply andb_prop in H as [Hsp Hrw]. apply bool_decide_eq_true_1 in Hsp.
  apply Nat.eqb_eq in Hrw. apply Nat.ltb_lt in Hw. split_and!; try done.
  - intros r Hin%(forallb_elem _ _ _ Hpr). apply andb_prop in Hin as [Hne Hex]. apply negb_true_iff, bool_decide_eq_false_1 in Hne. split; [done |].
    apply existsb_exists in Hex as ([l off] & Hl%list_elem_of_In & E). apply bool_decide_eq_true_1 in E. cbn in E. subst l. by exists off.
  - unfold switch_check in Hs. apply andb_prop in Hs as [Hs _]. apply andb_prop in Hs as [Hs _]. by apply andb_prop in Hs as [_ Hs].
  - by destruct (a_resume a).
Qed.

(** where the call of [_mco_switch] made in [s] returns to, and what is popped there *)
Definition return_address (s : machine) : Z :=
  match a_resume a with inl _ => load (wd a) (regs s (a_sp a)) (mem s) | inr lr => regs s lr end.
Definition popped : Z := match a_resume a with inl _ => Z.of_nat (wd a) | inr _ => 0 end.

(** [s'] is [s] after that call has returned: the registers that the calling
    convention has a call preserve, and all else a buffer keeps, have their values,
    and the stack pointer is where the caller has it.  Not so the control registers
    of x86, which no switch touches: they are as in the state [back] that has
    switched back *)
Record returned (addr : string -> Z) (s back s' : machine) : Prop := {
  rt_preserved : forall r, r ∈ a_preserved a -> regs s' r = regs s r;
  rt_control : forall r, r ∈ a_control a -> regs s' r = regs back r;
  rt_pc : pc s' = return_address s;
  rt_sp : regs s' (a_sp a) = regs s (a_sp a) + popped;
  rt_kept : forall l off, (l, off) ∈ a_slots a -> l <> LReg (a_sp a) -> get_loc addr s' l = get_loc addr s l;
}.

(** the places of two switches: the second goes to the context the first has left *)
Record back_to (addr0 addr : string -> Z) (s0 : machine) : Prop := {
  bk_buffer : addr "to" = addr0 "from";
  bk_code : addr "switch" = addr0 "switch";
  bk_stack : addr "oldstk" = regs s0 (a_sp a);
  bk_fields : forall b o n off, (LMem b o n, off) ∈ a_slots a -> addr b = addr0 b;
}.

Lemma get_loc_fields addr0 addr s0 s l off :
  back_to addr0 addr s0 -> (l, off) ∈ a_slots a -> get_loc addr s l = get_loc addr0 s l.
Proof. intros Hb Hin. destruct l as [|b o n]; [done |]. cbn. by rewrite (bk_fields _ _ _ Hb _ _ _ _ Hin). Qed.

Lemma round_trip addr0 addr s0 s1 s :
  switched a addr0 s0 s1 -> back_to addr0 addr s0 -> placed (resume_layout a) s addr fetch -> calls a addr s ->
  (forall x, addr "to" <= x < addr "to" + a_size a -> mem s x = mem s1 x) ->
  (forall x, addr "oldstk" <= x < addr "oldstk" + Z.of_nat (wd a) -> mem s x = mem s0 x) ->
  exists n s', run fetch n s = Some s' /\ returned addr0 s0 s s'.
Proof.
  intros Hsw Hb Hp Hc Hbuf Hstk. destruct check_parts as (Hsp & Hrw & Hw & Hpr & Hs & Hsi & _ & Hr).
  assert (Hld : forall l o, (l, o) ∈ (LReg "pc", a_pc a) :: a_slots a ->
    load (lwidth a l) (addr "to" + o) (mem s) = load (lwidth a l) (addr0 "from" + o) (mem s1)).
  { intros l o Hin. rewrite (bk_buffer _ _ _ Hb). apply load_ext. intros x Hx. apply Hbuf.
    destruct (slot_inside a l o Hsi Hin) as (Hi & _ & _). revert Hi.
    change (inside (switch_layout a []) "from" o (Z.of_nat (lwidth a l)))
      with ((0 <=? o) && (o + Z.of_nat (lwidth a l) <=? a_size a)).
    rewrite (bk_buffer _ _ _ Hb). intros Hi. zb. lia. }
  assert (Hpcw : lwidth a (LReg "pc") = wd a).
  { unfold switch_check in Hs. apply andb_prop in Hs as [Hs _]. apply andb_prop in Hs as [_ Hs]. by apply Nat.eqb_eq. }
  assert (Hk : forall s', (forall l o, (l, o) ∈ a_slots a -> l <> LReg (a_sp a) -> get_loc addr s' l = load (lwidth a l) (addr "to" + o) (mem s)) ->
    forall l off, (l, off) ∈ a_slots a -> l <> LReg (a_sp a) -> get_loc addr0 s' l = get_loc addr0 s0 l).
  { intros s' H' l off Hin Hne. rewrite <- (get_loc_fields addr0 addr s0 s' l off Hb Hin), (H' l off Hin Hne).
    rewrite (Hld l off (list_elem_of_further _ _ _ Hin)). by apply (sw_saved _ _ _ _ Hsw). }
  assert (Hregs : forall s', (forall l o, (l, o) ∈ a_slots a -> l <> LReg (a_sp a) -> get_loc addr s' l = load (lwidth a l) (addr "to" + o) (mem s)) ->
    forall r, r ∈ a_preserved a -> regs s' r = regs s0 r).
  { intros s' H' r Hin. destruct (Hpr r Hin) as (Hne & off & Hoff). apply (Hk s' H' (LReg r) off Hoff). congruence. }
  assert (Hcont : load (wd a) (addr "to" + a_pc a) (mem s) = match a_resume a with inl off => addr "switch" + off | inr lr => regs s0 lr end).
  { rewrite <- Hpcw, (Hld _ _ (list_elem_of_here _ _)), Hpcw, (sw_cont _ _ _ _ Hsw), (bk_code _ _ _ Hb). done. }
  assert (Hspv : load (wd a) (addr "to" + sp_slot a) (mem s) = regs s0 (a_sp a)).
  { rewrite <- Hrw. change (rwidth (a_sp a)) with (lwidth a (LReg (a_sp a))).
    rewrite (Hld _ _ (list_elem_of_further _ _ _ Hsp)). by apply (sw_saved _ _ _ _ Hsw). }
  destruct (a_resume a) as [off | lr] eqn:Er.
  - destruct (resume_sound a addr fetch s off Hr Hsi Hp Hc) as (n & s' & Hrun & Hl & Hctl & Hsp' & Hpc').
    { constructor; [by rewrite Hcont | constructor; [| constructor]]. split; [done |]. rewrite Hspv. cbn. rewrite (bk_stack _ _ _ Hb). lia. }
    exists n, s'. split; [done |]. constructor; unfold return_address, popped; rewrite ?Er; [by apply Hregs | done | | |].
    + rewrite Hpc', <- (bk_stack _ _ _ Hb). by apply load_ext.
    + by rewrite Hsp', (bk_stack _ _ _ Hb).
    + by apply Hk.
  - destruct (switch_sound a addr fetch s Hs (placed_less _ _ _ _ _ Hp) Hc) as (n & s' & Hrun & Hsw').
    exists n, s'. split; [done |]. constructor; unfold return_address, popped; rewrite ?Er; [| by apply (sw_control _ _ _ _ Hsw') | | |].
    + apply Hregs. intros l o Hin _. by apply (sw_loaded _ _ _ _ Hsw').
    + by rewrite (sw_pc _ _ _ _ Hsw').
    + pose proof (sw_loaded _ _ _ _ Hsw' _ _ Hsp) as Hg. cbn [get_loc lwidth] in Hg. rewrite Hg, Hrw, Hspv. lia.
    + apply Hk. intros l o Hin _. by apply (sw_loaded _ _ _ _ Hsw').
Qed.
End RoundTrip.

(** ** The first switch to a coroutine calls [_mco_main] *)
Section Entry.
Context (a : arch) (addr : string -> Z) (fetch : Z -> option (Z * list uop)).
#[local] Existing Instance a_isa.

Lemma facts_entries (L : layout) facts : facts_ok a L facts = true -> Forall (entry_ok L) facts.
Proof.
  intros Hf. apply Forall_forall. intros [[[b off] n] v] Hin%list_elem_of_In. apply (forallb_elem _ _ _ Hf) in Hin.
  apply andb_prop in Hin as [[? ?]%andb_prop ?%Nat.eqb_eq]. done.
Qed.

(** every word of the context is a pointer, so the stores are those of the symbolic memory *)
Lemma makectx_stores s x :
  Forall (fun '(_, _, _, v) => is_pointer v = true) (context_stores a) ->
  makectx a addr (mem s) x = stores s addr (context_stores a) x.
Proof.
  unfold makectx, stores. intros Hp. revert x. induction Hp as [|[[[b off] n] v] l Hv _ IH]; intros x; cbn [foldr]; [done |].
  rewrite named_denote by done. apply store_ext. exact IH.
Qed.

Lemma entry_parts : entry_check a = true ->
  Forall (entry_ok (entry_layout a)) (context_stores a) /\ Forall (fun '(_, _, _, v) => is_pointer v = true) (context_stores a) /\
  Forall (fun '(b, off, n, v) => (b = "to" \/ b = "top") /\ inside (entry_layout a) b off (Z.of_nat n) = true /\
            is_pointer v = true /\ sload_in (context_stores a) b off n = Some v) (context_facts a) /\
  (a_align a - a_reserve a) mod 16 = 0.
Proof.
  unfold entry_check. intros H.
  apply andb_prop in H as [H _]. apply andb_prop in H as [H _]. apply andb_prop in H as [H Hf2].
  apply andb_prop in H as [H Hal]. apply andb_prop in H as [H Hp]. apply andb_prop in H as [Hf Hv]. apply Z.eqb_eq in Hal.
  split; [by apply facts_entries |]. split; [| split; [| done]].
  - apply Forall_forall. intros [[[b off] n] v] Hin%list_elem_of_In. exact (forallb_elem _ _ _ Hp Hin).
  - apply Forall_forall. intros [[[b off] n] v] Hin%list_elem_of_In.
    pose proof (forallb_elem _ _ _ Hv Hin) as E. cbn beta iota in E. apply andb_prop in E as [Eb E]. apply andb_prop in Eb as [Eb Ep].
    apply bool_decide_eq_true_1 in Eb, E. split; [done |].
    assert (Hin' : (b, off, n, v) ∈ context_facts a ++ a_facts a) by (apply elem_of_app; by left).
    pose proof (forallb_elem _ _ _ Hf2 Hin') as E2. cbn beta iota in E2. apply andb_prop in E2 as [E2 _]. apply andb_prop in E2 as [E2 _].
    done.
Qed.

(** the words of a context are what a switch to it reads, when they are as
    _mco_makectx has left them *)
Lemma makectx_holds m s :
  entry_check a = true -> placed (entry_layout a) (set_mem m s) addr fetch ->
  (forall b off n x, b = "to" \/ b = "top" -> inside (entry_layout a) b off n = true ->
     addr b + off <= x < addr b + off + n -> mem s x = makectx a addr m x) ->
  holds addr (context_facts a) s.
Proof.
  intros Hc Hp Hm. destruct (entry_parts Hc) as (Hst & Hptr & Hf & _). unfold holds.
  refine (List.Forall_impl _ _ Hf). intros [[[b off] n] v] (Hb & Hi & Hv & Hl). split; [done |].
  destruct (sload_in_sound (entry_layout a) _ addr fetch Hp _ _ _ _ _ Hst Hi Hl) as [_ E].
  rewrite <- (named_denote addr (set_mem m s)), <- E by done. apply load_ext. intros x Hx.
  rewrite (Hm b off (Z.of_nat n) x Hb Hi) by lia. exact (makectx_stores (set_mem m s) x Hptr).
Qed.

(** switching to a new context: [_mco_main] is entered with the coroutine as its
    argument, at the top of the coroutine's stack *)
Lemma entry_sound s :
  entry_check a = true -> placed (entry_layout a) s addr fetch -> calls a addr s -> holds addr (context_facts a) s ->
  exists n s', run fetch n s = Some s' /\ pc s' = addr "main" /\ get_loc addr s' (a_arg a) = addr "co" /\ regs s' (a_sp a) = addr "top".
Proof.
  intros Hc Hp Hs Hh. unfold entry_check in Hc. apply andb_prop in Hc as [Hc Hr]. apply andb_prop in Hc as [Hc Hk].
  apply andb_prop in Hc as [_ Hf]. destruct (srun _ _ _) as [[n ss]|] eqn:E; [| done].
  apply andb_prop in Hr as [Hr Hsp]. apply andb_prop in Hr as [Hr Harg]. apply andb_prop in Hr as [Hpc Hi].
  apply bool_decide_eq_true_1 in Hpc, Harg, Hsp.
  pose proof (start_matches a addr fetch (entry_layout a) s _ Hp Hf Hk Hh Hs) as Hm0.
  destruct (srun_sound _ s addr fetch Hp _ _ _ _ _ Hm0 E) as (s' & Hrun & Hm). exists n, s'. split; [done |]. split_and!.
  - rewrite (m_pc _ _ _ _ _ Hm), Hpc. cbn. lia.
  - rewrite (sget_sound a addr fetch _ s ss s' (a_arg a) (VPtr "co" 0) Hp Hm); [cbn; by rewrite Z.add_0_r | | done]. by destruct (a_arg a).
  - pose proof (sget_sound a addr fetch _ s ss s' (LReg (a_sp a)) _ Hp Hm I Hsp) as Hg. cbn in Hg. lia.
Qed.
End Entry.

(** ** Concrete places *)
Definition places (l : list (string * Z)) (b : string) : Z := default 0 (assoc l b).

(** the code of a layout in memory *)
Fixpoint fetch_in (sections : list (string * code)) (addr : string -> Z) (x : Z) : option (Z * list uop) :=
  match sections with
  | [] => None
  | (b, c) :: rest => match code_at c (x - addr b) with Some i => Some i | None => fetch_in rest addr x end
  end.

Definition apart (x y : Z * Z) : bool := (x.2 <=? y.1) || (y.2 <=? x.1).
Definition span (addr : string -> Z) (r : string * (Z * Z)) : Z * Z := (addr r.1 + r.2.1, addr r.1 + r.2.2).
Fixpoint pairwise {A} (f : A -> A -> bool) (l : list A) : bool :=
  match l with [] => true | x :: l => forallb (f x) l && pairwise f l end.

(** the regions and the code are apart, and in the address space *)
Definition place_check (a : arch) (L : layout) (addr : string -> Z) : bool :=
  forallb (fun r => (0 <=? (span addr r).1) && ((span addr r).2 <? 2 ^ (8 * Z.of_nat (wd a)))) (regions L) &&
  pairwise (fun r r' => apart (span addr r) (span addr r')) (regions L) &&
  pairwise (fun s s' => apart (addr s.1, addr s.1 + csize s.2) (addr s'.1, addr s'.1 + csize s'.2)) (sections L) &&
  forallb (fun s => forallb (fun i => 0 <? i.1) s.2) (sections L).

Lemma code_at_range c off i : forallb (fun i => 0 <? i.1) c = true -> code_at c off = Some i -> 0 <= off < csize c.
Proof.
  revert off. induction c as [|j c IH]; intros off Hc; cbn [code_at]; [done |].
  apply andb_prop in Hc as [Hj Hc]. change (csize (j :: c)) with (j.1 + csize c).
  assert (0 <= csize c) by (clear -Hc; induction c as [|k c IH]; [done |]; apply andb_prop in Hc as [? ?];
    change (csize (k :: c)) with (k.1 + csize c); specialize (IH ltac:(done)); zb; lia).
  zb. destruct (off =? 0) eqn:E; zb; [intros _; lia |]. intros Hi. specialize (IH _ Hc Hi). lia.
Qed.

Lemma pairwise_elem {A} (f : A -> A -> bool) l x y :
  pairwise f l = true -> (forall x y, f x y = f y x) -> x ∈ l -> y ∈ l -> x <> y -> f x y = true.
Proof.
  intros Hp Hf. induction l as [|z l IH]; cbn [pairwise] in Hp; [by intros ?%elem_of_nil |].
  apply andb_prop in Hp as [Hz Hp]. intros [-> | Hx]%elem_of_cons [-> | Hy]%elem_of_cons Hne; [done | | | by apply IH].
  - exact (forallb_elem _ _ _ Hz Hy).
  - rewrite Hf. exact (forallb_elem _ _ _ Hz Hx).
Qed.

Lemma apart_comm x y : apart x y = apart y x.
Proof. unfold apart. by rewrite orb_comm. Qed.

Lemma fetch_in_at l addr b c off i :
  forallb (fun s => forallb (fun i => 0 <? i.1) s.2) l = true ->
  pairwise (fun s s' => apart (addr s.1, addr s.1 + csize s.2) (addr s'.1, addr s'.1 + csize s'.2)) l = true ->
  (b, c) ∈ l -> code_at c off = Some i -> fetch_in l addr (addr b + off) = Some i.
Proof.
  induction l as [|[b' c'] l IH]; intros Hs Hp Hin Hi; [by apply elem_of_nil in Hin |].
  apply andb_prop in Hs as [Hs' Hs]. apply andb_prop in Hp as [Hp' Hp]. cbn [fetch_in].
  apply elem_of_cons in Hin as [[= <- <-] | Hin].
  - replace (addr b + off - addr b) with off by lia. by rewrite Hi.
  - destruct (code_at c' _) as [j|] eqn:E; [| by apply IH]. exfalso.
    apply code_at_range in E; [| done]. pose proof (forallb_elem _ _ _ Hs Hin) as Hsc. apply code_at_range in Hi; [| done].
    pose proof (forallb_elem _ _ _ Hp' Hin) as Ha. unfold apart in Ha. cbn [fst snd] in *.
    apply orb_prop in Ha as [?|?]; zb; lia.
Qed.

Lemma placed_of_check a L addr s :
  place_check a L addr = true -> @machine_ok (a_isa a) s -> @placed (a_isa a) L s addr (fetch_in (sections L) addr).
Proof.
  unfold place_check. intros Hc Hm. apply andb_prop in Hc as [Hc Hs]. apply andb_prop in Hc as [Hc Hp].
  apply andb_prop in Hc as [Hsp Hr]. constructor; [done | | |].
  - intros b lo hi Hb%assoc_in. apply (forallb_elem _ _ _ Hsp) in Hb. unfold span in Hb. cbn [fst snd] in Hb. zb. change (@word (a_isa a)) with (wd a). split; lia.
  - intros b lo hi b' lo' hi' Hb%assoc_in Hb'%assoc_in Hne.
    assert (E : apart (span addr (b, (lo, hi))) (span addr (b', (lo', hi'))) = true).
    { apply (pairwise_elem (fun r r' => apart (span addr r) (span addr r')) (regions L)); try done; [intros; apply apart_comm | by intros [= ->]]. }
    unfold apart, span in E. cbn in E. apply orb_prop in E as [?|?]; zb; lia.
  - intros b c off i Hb%assoc_in Hi. by eapply fetch_in_at.
Qed.

(** ** The properties *)
Section Properties.
#[local] Existing Instance a_isa.

(** C10: On every architecture minicoro.h has assembly for (x86-64 System V and
    Windows, RISC-V in its five variants, i386, ARM with and without hardware
    floats, AArch64), _mco_switch(from, to) stores all the buffer has a field for
    in [from], loads it from [to] and goes on where [to] says, and writes nothing
    else; and whenever a later switch goes to the buffer the first has left, with
    the buffer and the return address on the stack as they were, the machine is
    as if the first call had returned: at its return address, with the same stack
    pointer, thread fields on Windows, and general and floating-point registers of
    the list the platform's calling convention has a call preserve.  The control
    registers that are preserved by convention on x86 (MXCSR and the x87 control
    word) are no part of that: they are as the other side has left them. *)
Theorem switch_round_trip (a : arch) (fetch : Z -> option (Z * list uop)) (addr0 : string -> Z) (s0 : machine) :
  a ∈ archs -> switch_placed a addr0 fetch s0 -> calls a addr0 s0 ->
  exists n s1, run fetch n s0 = Some s1 /\ switched a addr0 s0 s1 /\
    forall addr s, back_to a addr0 addr s0 -> placed (resume_layout a) s addr fetch -> calls a addr s ->
      (forall x, addr "to" <= x < addr "to" + a_size a -> mem s x = mem s1 x) ->
      (forall x, addr "oldstk" <= x < addr "oldstk" + Z.of_nat (wd a) -> mem s x = mem s0 x) ->
      exists n' s', run fetch n' s = Some s' /\ returned a addr0 s0 s s'.
Proof.
  intros Ha Hp Hc. destruct (check_parts a Ha) as (_ & _ & _ & _ & Hs & _).
  destruct (switch_sound a addr0 fetch s0 Hs Hp Hc) as (n & s1 & Hr & Hsw). exists n, s1. split; [done |]. split; [done |].
  intros addr s Hb Hp' Hc' Hbuf Hstk. exact (round_trip a fetch Ha addr0 addr s0 s1 s Hsw Hb Hp' Hc' Hbuf Hstk).
Qed.

Lemma placed_mem L s m addr fetch `{Isa} : placed L s addr fetch -> (forall x, 0 <= m x < 256) -> placed L (set_mem m s) addr fetch.
Proof. intros [[Hr _] Hs Ha Hc] Hm. by constructor. Qed.

(** C18: The first switch to a coroutine, on every architecture: with the buffer
    and the top of the stack as _mco_makectx leaves them, the machine reaches the
    entry of _mco_main with the coroutine as its argument and a stack pointer
    that is inside the coroutine's stack and aligned as the calling convention
    asks at the entry of a function. *)
Theorem first_switch_enters_main (a : arch) (fetch : Z -> option (Z * list uop)) (addr : string -> Z) (m : memory) (s : machine) (base size : Z) :
  a ∈ archs -> placed (entry_layout a) s addr fetch -> calls a addr s ->
  addr "top" + a_reserve a = base + size -> base mod 16 = 0 -> size mod 16 = 0 -> a_reserve a <= size ->
  (forall x, 0 <= m x < 256) ->
  (forall b off n x, b = "to" \/ b = "top" -> inside (entry_layout a) b off n = true ->
     addr b + off <= x < addr b + off + n -> mem s x = makectx a addr m x) ->
  exists n s', run fetch n s = Some s' /\ pc s' = addr "main" /\ get_loc addr s' (a_arg a) = addr "co" /\
    base <= regs s' (a_sp a) <= base + size /\ (regs s' (a_sp a) + a_align a) mod 16 = 0.
Proof.
  intros Ha Hp Hc Htop Hbase Hsize Hres Hm Hmem. destruct (check_parts a Ha) as (_ & _ & _ & _ & _ & _ & He & _).
  destruct (entry_parts a He) as (_ & _ & _ & Hal).
  pose proof (makectx_holds a addr fetch m s He (placed_mem _ _ _ _ _ Hp Hm) Hmem) as Hh.
  destruct (entry_sound a addr fetch s He Hp Hc Hh) as (n & s' & Hr & Hpc & Harg & Hsp).
  exists n, s'. split; [done |]. split; [done |]. split; [done |]. rewrite Hsp.
  assert (0 <= a_reserve a) by (clear -Ha; revert Ha; unfold archs; rewrite !elem_of_cons, elem_of_nil; intuition subst; cbn; lia).
  split; [lia |]. replace (addr "top" + a_align a) with (base + size + (a_align a - a_reserve a)) by lia.
  rewrite Zplus_mod, Hal, (Zplus_mod base), Hbase, Hsize. done.
Qed.
End Properties.

(** ** A machine to try it on: x86-64 *)
Definition toy_places (from to : Z) : list (string * Z) :=
  [("from", from); ("to", to); ("switch", 0x4000); ("wrap_main", 0x5000); ("stk", 0x9000); ("oldstk", 0x8000);
   ("main", 0x6000); ("co", 0x7000); ("base", 0x10000); ("top", 0x20000 - 136); ("dummy", 0xdeaddeaddeaddead)].
Definition toy_machine (from to sp : Z) (m : memory) : machine :=
  {| regs r := if bool_decide (r = "rdi") then from else if bool_decide (r = "rsi") then to else if bool_decide (r = "rsp") then sp
               else if bool_decide (r = "rbx") then 77 else 5;
     mem := m; pc := 0x4000 |}.
Definition toy_memory : memory := fun x => (x * 7) mod 256.
Definition toy_fetch : Z -> option (Z * list uop) := fetch_in (sections (switch_layout X64.a [])) (places (toy_places 0x1000 0x2000)).
(** the stack pointer of the first switch is where the second layout has "oldstk" *)
Definition toy_addr0 : string -> Z := places (("stk", 0x8000) :: toy_places 0x1000 0x2000).
Definition toy_addr1 : string -> Z := places (toy_places 0x3000 0x1000).

Lemma toy_machine_ok from to sp m :
  0 <= from < 2 ^ 64 -> 0 <= to < 2 ^ 64 -> 0 <= sp < 2 ^ 64 -> (forall x, 0 <= m x < 256) ->
  @machine_ok (a_isa X64.a) (toy_machine from to sp m).
Proof.
  intros Hf Ht Hs Hm. split; [| done]. intros r. change (256 ^ Z.of_nat (@rwidth (a_isa X64.a) r)) with (2 ^ 64).
  cbn [regs toy_machine]. repeat case_bool_decide; lia.
Qed.

Lemma toy_memory_ok x : 0 <= toy_memory x < 256.
Proof. apply Z.mod_pos_bound. lia. Qed.

Lemma toy_calls addr from to sp m :
  addr "from" = from -> addr "to" = to -> addr "stk" = sp -> addr "switch" = 0x4000 -> calls X64.a addr (toy_machine from to sp m).
Proof. intros Hf Ht Hs Hw. constructor; [| apply List.Forall_nil | done].
  apply List.Forall_cons; [split; [done |]; change (from = addr "from" + 0); lia |].
  apply List.Forall_cons; [split; [done |]; change (to = addr "to" + 0); lia |].
  apply List.Forall_cons; [split; [done |]; change (sp = addr "stk" + 0); lia |]. apply List.Forall_nil.
Qed.

Lemma toy_slots b o n off : (LMem b o n, off) ∉ a_slots X64.a.
Proof.
  intros Hin. assert (Hf : forallb (fun x => match x.1 with LReg _ => true | _ => false end) (a_slots X64.a) = true) by done.
  by apply (forallb_elem _ _ _ Hf) in Hin.
Qed.

Lemma toy_no_scratch addr x : ~ scratch_at X64.a addr x.
Proof.
  intros (b & off & k & Hsc & Hin & Hx). unfold scratch in Hsc. apply orb_prop in Hsc as [Hs | Hs].
  - apply bool_decide_eq_true_1 in Hs as [-> Hk]. change (((0 <=? off) && (off + Z.of_nat k <=? 8)) = true) in Hin. zb. lia.
  - apply existsb_exists in Hs as ([l o] & Hl & E). apply bool_decide_eq_true_1 in E. cbn in E. subst l.
    by apply list_elem_of_In, toy_slots in Hl.
Qed.

(** a coroutine is left and gone back to *)
Lemma switch_round_trip_witness :
  let s0 := toy_machine 0x1000 0x2000 0x8000 toy_memory in
  exists n s1 n' s', @run (a_isa X64.a) toy_fetch n s0 = Some s1 /\ switched X64.a toy_addr0 s0 s1 /\
    @run (a_isa X64.a) toy_fetch n' (toy_machine 0x3000 0x1000 0x9000 (mem s1)) = Some s' /\ returned X64.a toy_addr0 s0 (toy_machine 0x3000 0x1000 0x9000 (mem s1)) s' /\
    regs s' "rbx" = 77 /\ regs s' "rsp" = 0x8008.
Proof.
  intros s0.
  assert (Hp : switch_placed X64.a toy_addr0 toy_fetch s0).
  { apply (placed_of_check X64.a (switch_layout X64.a []) toy_addr0 s0); [by vm_compute |]. by apply toy_machine_ok, toy_memory_ok. }
  destruct (switch_round_trip X64.a toy_fetch toy_addr0 s0 (list_elem_of_here _ _) Hp ltac:(by apply toy_calls)) as (n & s1 & Hr & Hsw & Hback).
  destruct (Hback toy_addr1 (toy_machine 0x3000 0x1000 0x9000 (mem s1))) as (n' & s' & Hr' & Hrt).
  - constructor; [done | done | done |]. by intros b o k off ?%toy_slots.
  - apply (placed_of_check X64.a (resume_layout X64.a) toy_addr1); [by vm_compute |].
    apply toy_machine_ok; try done. apply (sw_ok _ _ _ _ Hsw).
  - by apply toy_calls.
  - done.
  - intros x Hx. apply (sw_frame _ _ _ _ Hsw); [right |].
    { change (0x1000 + 64 <= x). change (0x8000 <= x < 0x8000 + 8) in Hx. lia. }
    by apply toy_no_scratch.
  - exists n, s1, n', s'. do 4 (split; [done |]). split.
    + refine (rt_preserved _ _ _ _ _ Hrt "rbx" _). by_compute.
    + exact (rt_sp _ _ _ _ _ Hrt).
Defined.

(** a new coroutine with a stack of 64 KB is entered *)
Lemma first_switch_enters_main_witness :
  let m := makectx X64.a toy_addr0 toy_memory in
  exists n s', @run (a_isa X64.a) (fetch_in (sections (entry_layout X64.a)) toy_addr0) n (toy_machine 0x1000 0x2000 0x8000 m) = Some s' /\
    pc s' = 0x6000 /\ regs s' "rdi" = 0x7000 /\ 0x10000 <= regs s' "rsp" <= 0x20000 /\ (regs s' "rsp" + 8) mod 16 = 0.
Proof.
  intros m.
  assert (Hm : forall x, 0 <= m x < 256).
  { unfold m, makectx. induction (context_stores X64.a) as [|[[[b off] n] v] l IH]; cbn [foldr]; [apply toy_memory_ok |].
    by apply store_bytes. }
  apply (first_switch_enters_main X64.a _ toy_addr0 toy_memory (toy_machine 0x1000 0x2000 0x8000 m) 0x10000 0x10000); try done.
  - apply list_elem_of_here.
  - apply placed_of_check; [by vm_compute | by apply toy_machine_ok].
  - by apply toy_calls.
  - apply toy_memory_ok.
Defined.
