(* ===== verification/Minicoro.v ===== *)
(** * Minicoro: the coroutines of include/minicoro.h

    The library behind the scheduler, as src/scheduler.c configures it: memory from
    mmap (MCO_USE_VMEM_ALLOCATOR), popped storage cleared (MCO_ZERO_MEMORY), the
    assembly contexts of Switch.v.  A coroutine is one block: its structure, two
    register buffers, a storage area and its stack, at addresses that are computed
    in size_t.  What a context switch saves and loads is a continuation: [ctx] is
    where the coroutine goes on, [back_ctx] where the one that has resumed it does
    (SwitchProps.v shows that a switch is a call that returns when its buffer is
    switched to).  A call returns at once or passes control to a continuation
    ([outcome]).  [UB] is an access outside the block, through a dangling pointer,
    or a failed MCO_ASSERT. *)

From stdpp Require Import strings.
From S2P Require Import Prelude CString Memory Arena Machine Switch Scheduler.
#[global] Open Scope Z_scope.

(** ** Data *)
Definition MCO_DEFAULT_STORAGE_SIZE : Z := 1024.
Definition MCO_MIN_STACK_SIZE : Z := 32768.
(** set by src/scheduler.c *)
Definition MCO_DEFAULT_STACK_SIZE : Z := 1024 * 1024.
Definition MCO_MAGIC_NUMBER : Z := 0x7E3CB1A9.

#[global] Instance mco_result_eq_dec : EqDecision mco_result.
Proof. solve_decision. Defined.

(** where control can be: [Start p] is the entry of _mco_main(p) *)
Inductive context (K : Type) := Start (p : Z) | At (k : K).
Arguments Start {K} p.
Arguments At {K} k.

(** struct mco_coro, with what is in the two buffers and in the storage area; a
    null pointer is 0 (or [None] for [prev_co]) *)
Record mco_coro {K : Type} := {
  co_context : Z;
  co_state : mco_state;
  co_func : Z;
  co_prev_co : option Z;
  co_user_data : Z;
  co_coro_size : Z;
  co_dealloc_cb : bool;
  co_stack_base : Z;
  co_stack_size : Z;
  co_storage : Z;
  co_bytes_stored : Z;
  co_storage_size : Z;
  co_magic_number : Z;
  co_ctx : option (context K);
  co_back_ctx : option (context K);
  co_bytes : list Z;
}.
Arguments mco_coro : clear implicits.

Record mco_desc := {
  d_func : Z;
  d_user_data : Z;
  d_alloc_cb : bool;
  d_dealloc_cb : bool;
  d_storage_size : Z;
  d_coro_size : Z;
  d_stack_size : Z;
}.

Section Sizes.
Context (a : arch).

(** size_t, and the sizes of the structures: seventeen words, and two register buffers *)
Definition size_t (x : Z) : Z := x mod 2 ^ (8 * Z.of_nat (wd a)).
Definition sizeof_mco_coro : Z := 17 * Z.of_nat (wd a).
Definition sizeof_mco_context : Z := 2 * a_size a.

Definition _mco_align_forward (addr align : Z) : Z := Z.land (size_t (addr + (align - 1))) (size_t (Z.lnot (align - 1))).

Definition _mco_init_desc_sizes (desc : mco_desc) (stack_size : Z) : mco_desc :=
  {| d_func := d_func desc; d_user_data := d_user_data desc; d_alloc_cb := d_alloc_cb desc; d_dealloc_cb := d_dealloc_cb desc;
     d_storage_size := d_storage_size desc;
     d_coro_size := size_t (_mco_align_forward sizeof_mco_coro 16 + _mco_align_forward sizeof_mco_context 16 +
                            _mco_align_forward (d_storage_size desc) 16 + stack_size + 16);
     d_stack_size := stack_size |}.

Definition mco_desc_init (func stack_size : Z) : mco_desc :=
  let stack_size := if negb (stack_size =? 0)
                    then (if stack_size <? MCO_MIN_STACK_SIZE then MCO_MIN_STACK_SIZE else stack_size)
                    else MCO_DEFAULT_STACK_SIZE in
  let stack_size := _mco_align_forward stack_size 16 in
  _mco_init_desc_sizes {| d_func := func; d_user_data := 0; d_alloc_cb := true; d_dealloc_cb := true;
                          d_storage_size := MCO_DEFAULT_STORAGE_SIZE; d_coro_size := 0; d_stack_size := 0 |} stack_size.

Definition _mco_validate_desc (desc : option mco_desc) : mco_result :=
  match desc with
  | None => MCO_INVALID_ARGUMENTS
  | Some d =>
      if d_func d =? 0 then MCO_INVALID_ARGUMENTS
      else if d_stack_size d <? MCO_MIN_STACK_SIZE then MCO_INVALID_ARGUMENTS
      else if d_coro_size d <? sizeof_mco_coro then MCO_INVALID_ARGUMENTS
      else MCO_SUCCESS
  end.

(** *** the parts of a block at [co] *)
Definition context_addr (co : Z) : Z := _mco_align_forward (size_t (co + sizeof_mco_coro)) 16.
Definition storage_addr (co : Z) : Z := _mco_align_forward (size_t (context_addr co + sizeof_mco_context)) 16.
Definition stack_addr (co : Z) (d : mco_desc) : Z := _mco_align_forward (size_t (storage_addr co + d_storage_size d)) 16.
(** where _mco_makectx has the stack start, and the bytes it writes there *)
Definition stack_high_ptr (co : Z) (d : mco_desc) : Z := size_t (stack_addr co d + d_stack_size d - a_reserve a).
Definition frame_size : Z := fold_right (fun '(off, n, _) m => Z.max (off + Z.of_nat n) m) 0 (a_frame a).

Definition within (co size x n : Z) : bool := (co <=? x) && (x + n <=? co + size).

Section Coroutines.
Context {K : Type}.

Definition mco_coro_zero : mco_coro K :=
  {| co_context := 0; co_state := MCO_DEAD; co_func := 0; co_prev_co := None; co_user_data := 0; co_coro_size := 0; co_dealloc_cb := false;
     co_stack_base := 0; co_stack_size := 0; co_storage := 0; co_bytes_stored := 0; co_storage_size := 0; co_magic_number := 0;
     co_ctx := None; co_back_ctx := None; co_bytes := [] |}.

(** [_mco_create_context], in a block of [size] bytes that mmap has zeroed *)
Definition _mco_create_context (p size : Z) (d : mco_desc) (co : mco_coro K) : res (mco_coro K) :=
  if within p size (context_addr p) sizeof_mco_context && within p size (stack_high_ptr p d) frame_size then
    Ok {| co_context := context_addr p; co_state := co_state co; co_func := co_func co; co_prev_co := co_prev_co co;
          co_user_data := co_user_data co; co_coro_size := co_coro_size co; co_dealloc_cb := co_dealloc_cb co;
          co_stack_base := stack_addr p d; co_stack_size := d_stack_size d; co_storage := storage_addr p;
          co_bytes_stored := co_bytes_stored co; co_storage_size := d_storage_size d; co_magic_number := co_magic_number co;
          co_ctx := Some (Start p); co_back_ctx := None; co_bytes := zreplicate (d_storage_size d) 0 |}
  else UB.

Definition set_state (st : mco_state) (co : mco_coro K) : mco_coro K :=
  {| co_context := co_context co; co_state := st; co_func := co_func co; co_prev_co := co_prev_co co; co_user_data := co_user_data co;
     co_coro_size := co_coro_size co; co_dealloc_cb := co_dealloc_cb co; co_stack_base := co_stack_base co; co_stack_size := co_stack_size co;
     co_storage := co_storage co; co_bytes_stored := co_bytes_stored co; co_storage_size := co_storage_size co;
     co_magic_number := co_magic_number co; co_ctx := co_ctx co; co_back_ctx := co_back_ctx co; co_bytes := co_bytes co |}.
Definition set_prev (prev : option Z) (co : mco_coro K) : mco_coro K :=
  {| co_context := co_context co; co_state := co_state co; co_func := co_func co; co_prev_co := prev; co_user_data := co_user_data co;
     co_coro_size := co_coro_size co; co_dealloc_cb := co_dealloc_cb co; co_stack_base := co_stack_base co; co_stack_size := co_stack_size co;
     co_storage := co_storage co; co_bytes_stored := co_bytes_stored co; co_storage_size := co_storage_size co;
     co_magic_number := co_magic_number co; co_ctx := co_ctx co; co_back_ctx := co_back_ctx co; co_bytes := co_bytes co |}.
Definition set_ctxs (c b : option (context K)) (co : mco_coro K) : mco_coro K :=
  {| co_context := co_context co; co_state := co_state co; co_func := co_func co; co_prev_co := co_prev_co co; co_user_data := co_user_data co;
     co_coro_size := co_coro_size co; co_dealloc_cb := co_dealloc_cb co; co_stack_base := co_stack_base co; co_stack_size := co_stack_size co;
     co_storage := co_storage co; co_bytes_stored := co_bytes_stored co; co_storage_size := co_storage_size co;
     co_magic_number := co_magic_number co; co_ctx := c; co_back_ctx := b; co_bytes := co_bytes co |}.
Definition set_storage (n : Z) (bytes : list Z) (co : mco_coro K) : mco_coro K :=
  {| co_context := co_context co; co_state := co_state co; co_func := co_func co; co_prev_co := co_prev_co co; co_user_data := co_user_data co;
     co_coro_size := co_coro_size co; co_dealloc_cb := co_dealloc_cb co; co_stack_base := co_stack_base co; co_stack_size := co_stack_size co;
     co_storage := co_storage co; co_bytes_stored := n; co_storage_size := co_storage_size co;
     co_magic_number := co_magic_number co; co_ctx := co_ctx co; co_back_ctx := co_back_ctx co; co_bytes := bytes |}.

(** what mco_init fills in after the context has been created *)
Definition init_fields (d : mco_desc) (co : mco_coro K) : mco_coro K :=
  {| co_context := co_context co; co_state := MCO_SUSPENDED; co_func := d_func d; co_prev_co := co_prev_co co; co_user_data := d_user_data d;
     co_coro_size := d_coro_size d; co_dealloc_cb := d_dealloc_cb d; co_stack_base := co_stack_base co; co_stack_size := co_stack_size co;
     co_storage := co_storage co; co_bytes_stored := co_bytes_stored co; co_storage_size := co_storage_size co;
     co_magic_number := MCO_MAGIC_NUMBER; co_ctx := co_ctx co; co_back_ctx := co_back_ctx co; co_bytes := co_bytes co |}.
End Coroutines.
End Sizes.

(** ** The coroutines of a thread *)
Section Thread.
Context (a : arch) `{PP : Pages P} {K : Type}.

Record thread := { cos : gmap Z (mco_coro K); mco_current_co : option Z; t_pages : P }.
Definition set_cos (m : gmap Z (mco_coro K)) (t : thread) : thread :=
  {| cos := m; mco_current_co := mco_current_co t; t_pages := t_pages t |}.
Definition set_current (c : option Z) (t : thread) : thread := {| cos := cos t; mco_current_co := c; t_pages := t_pages t |}.
Definition set_pages (w : P) (t : thread) : thread := {| cos := cos t; mco_current_co := mco_current_co t; t_pages := w |}.

(** what a pointer refers to: [UB] unless it is a coroutine *)
Definition get_co (p : Z) : M thread (mco_coro K) := fun t =>
  match cos t !! p with Some c => (Ok c, t) | None => (UB, t) end.
Definition put_co (p : Z) (c : mco_coro K) : M thread unit := fun t =>
  match cos t !! p with Some _ => (Ok tt, set_cos (<[p := c]> (cos t)) t) | None => (UB, t) end.
(** MCO_ASSERT, which the build leaves on *)
Definition MCO_ASSERT (b : bool) : M thread unit := if b then ret tt else ub.

(** a call returns at once, or control goes to a context *)
Inductive outcome := Returned (r : mco_result) | Switched (k : context K).

(** [_mco_switch(from, to)]: the context that is left is saved, the one in the
    buffer goes on.  A buffer that was never filled has none. *)
Definition switch_to (k : option (context K)) : M thread outcome :=
  match k with Some k => ret (Switched k) | None => ub end.

Definition mco_running : M thread (option Z) := gets mco_current_co.

Definition _mco_prepare_jumpin (p : Z) : M thread unit :=
  prev_co <- mco_running ;;
  co <- get_co p ;;
  MCO_ASSERT (bool_decide (co_prev_co co = None)) ;;;
  put_co p (set_prev prev_co co) ;;;
  match prev_co with
  | Some q => prev <- get_co q ;; MCO_ASSERT (bool_decide (co_state prev = MCO_RUNNING)) ;;; put_co q (set_state MCO_NORMAL prev)
  | None => ret tt
  end ;;;
  modify (set_current (Some p)).

Definition _mco_prepare_jumpout (p : Z) : M thread unit :=
  co <- get_co p ;;
  let prev_co := co_prev_co co in
  put_co p (set_prev None co) ;;;
  match prev_co with
  | Some q => prev <- get_co q ;; put_co q (set_state MCO_RUNNING prev)
  | None => ret tt
  end ;;;
  modify (set_current prev_co).

(** [here] is where the caller goes on *)
Definition _mco_jumpin (p : Z) (here : context K) : M thread outcome :=
  _mco_prepare_jumpin p ;;;
  co <- get_co p ;;
  put_co p (set_ctxs (co_ctx co) (Some here) co) ;;;
  switch_to (co_ctx co).
Definition _mco_jumpout (p : Z) (here : context K) : M thread outcome :=
  _mco_prepare_jumpout p ;;;
  co <- get_co p ;;
  put_co p (set_ctxs (Some here) (co_back_ctx co) co) ;;;
  switch_to (co_back_ctx co).

(** the end of [_mco_main], when the function of the coroutine has returned *)
Definition _mco_main_end (p : Z) (here : context K) : M thread outcome :=
  co <- get_co p ;;
  put_co p (set_state MCO_DEAD co) ;;;
  _mco_jumpout p here.

Definition mco_init (p : option Z) (size : Z) (desc : option mco_desc) : M thread mco_result :=
  match p with
  | None => ret MCO_INVALID_COROUTINE
  | Some p =>
      get_co p ;;;
      put_co p mco_coro_zero ;;;
      match _mco_validate_desc a desc, desc with
      | MCO_SUCCESS, Some d =>
          co <- lift (_mco_create_context a p size d mco_coro_zero) ;;
          put_co p (init_fields d co) ;;;
          ret MCO_SUCCESS
      | res, _ => ret res
      end
  end.

(** [_mco_destroy_context] does nothing for these contexts *)
Definition mco_uninit (p : option Z) : M thread mco_result :=
  match p with
  | None => ret MCO_INVALID_COROUTINE
  | Some p =>
      co <- get_co p ;;
      if negb (bool_decide (co_state co = MCO_SUSPENDED) || bool_decide (co_state co = MCO_DEAD)) then ret MCO_INVALID_OPERATION
      else put_co p (set_state MCO_DEAD co) ;;; ret MCO_SUCCESS
  end.

(** mco_alloc and mco_dealloc: mmap and munmap; the block holds a coroutine from
    the moment it is there, all of it zero *)
Definition mco_alloc (size : Z) : M thread (option Z) := fun t =>
  match pages_alloc size (t_pages t) with
  | (Some p, w) => (Ok (Some p), set_cos (<[p := mco_coro_zero]> (cos t)) (set_pages w t))
  | (None, w) => (Ok None, set_pages w t)
  end.
Definition mco_dealloc (p size : Z) : M thread unit := fun t =>
  (Ok tt, set_cos (delete p (cos t)) (set_pages (pages_free p size (t_pages t)) t)).

(** the result and *out_co; [out_co] tells whether there is a place for it *)
Definition mco_create (out_co : bool) (desc : option mco_desc) : M thread (mco_result * option Z) :=
  if negb out_co then ret (MCO_INVALID_POINTER, None) else
  match desc with
  | Some d =>
      if negb (d_alloc_cb d && d_dealloc_cb d) then ret (MCO_INVALID_ARGUMENTS, None) else
      p <- mco_alloc (d_coro_size d) ;;
      match p with
      | None => ret (MCO_OUT_OF_MEMORY, None)
      | Some p =>
          res <- mco_init (Some p) (d_coro_size d) desc ;;
          if bool_decide (res = MCO_SUCCESS) then ret (MCO_SUCCESS, Some p)
          else mco_dealloc p (d_coro_size d) ;;; ret (res, None)
      end
  | None => ret (MCO_INVALID_ARGUMENTS, None)
  end.

Definition mco_destroy (p : option Z) : M thread mco_result :=
  match p with
  | None => ret MCO_INVALID_COROUTINE
  | Some q =>
      res <- mco_uninit p ;;
      if negb (bool_decide (res = MCO_SUCCESS)) then ret res else
      co <- get_co q ;;
      if negb (co_dealloc_cb co) then ret MCO_INVALID_POINTER
      else mco_dealloc q (co_coro_size co) ;;; ret MCO_SUCCESS
  end.

Definition mco_resume (p : option Z) (here : context K) : M thread outcome :=
  match p with
  | None => ret (Returned MCO_INVALID_COROUTINE)
  | Some p =>
      co <- get_co p ;;
      if negb (bool_decide (co_state co = MCO_SUSPENDED)) then ret (Returned MCO_NOT_SUSPENDED)
      else put_co p (set_state MCO_RUNNING co) ;;; _mco_jumpin p here
  end.

(** [sp] is the address of a local variable: where the caller's stack is *)
Definition mco_yield (p : option Z) (sp : Z) (here : context K) : M thread outcome :=
  match p with
  | None => ret (Returned MCO_INVALID_COROUTINE)
  | Some p =>
      co <- get_co p ;;
      let stack_min := co_stack_base co in
      let stack_max := size_t a (stack_min + co_stack_size co) in
      if negb (co_magic_number co =? MCO_MAGIC_NUMBER) || (sp <? stack_min) || (stack_max <? sp) then ret (Returned MCO_STACK_OVERFLOW)
      else if negb (bool_decide (co_state co = MCO_RUNNING)) then ret (Returned MCO_NOT_RUNNING)
      else put_co p (set_state MCO_SUSPENDED co) ;;; _mco_jumpout p here
  end.

(** src/scheduler.c: a handler's yield, whose result it ignores: [None], and it
    goes on at once, outside a coroutine or when the yield is refused *)
Definition wirecall_ctx_yield (sp : Z) (here : context K) : M thread (option (context K)) :=
  co <- mco_running ;;
  match co with
  | None => ret None
  | Some p => r <- mco_yield (Some p) sp here ;; ret (match r with Switched k => Some k | Returned _ => None end)
  end.

Definition mco_status (p : option Z) : M thread mco_state :=
  match p with Some p => co <- get_co p ;; ret (co_state co) | None => ret MCO_DEAD end.
Definition mco_get_user_data (p : option Z) : M thread Z :=
  match p with Some p => co <- get_co p ;; ret (co_user_data co) | None => ret 0 end.

(** *** The storage of a coroutine: [src] are the bytes at the source pointer, or NULL *)
Definition mco_push (p : option Z) (src : option (list Z)) (len : Z) : M thread mco_result :=
  match p with
  | None => ret MCO_INVALID_COROUTINE
  | Some p =>
      co <- get_co p ;;
      if len =? 0 then ret MCO_SUCCESS else
      let bytes_stored := size_t a (co_bytes_stored co + len) in
      if co_storage_size co <? bytes_stored then ret MCO_NOT_ENOUGH_SPACE else
      match src with
      | None => ret MCO_INVALID_POINTER
      | Some src =>
          (* memcpy into the storage area *)
          if (len <=? zlen src) && (co_bytes_stored co + len <=? zlen (co_bytes co)) then
            put_co p (set_storage bytes_stored
              (ztake (co_bytes_stored co) (co_bytes co) ++ ztake len src ++ zdrop (co_bytes_stored co + len) (co_bytes co)) co) ;;;
            ret MCO_SUCCESS
          else ub
      end
  end.

(** [dest] tells whether the destination is a buffer; the bytes copied there are returned *)
Definition mco_pop (p : option Z) (dest : bool) (len : Z) : M thread (mco_result * list Z) :=
  match p with
  | None => ret (MCO_INVALID_COROUTINE, [])
  | Some p =>
      co <- get_co p ;;
      if len =? 0 then ret (MCO_SUCCESS, []) else
      if co_bytes_stored co <? len then ret (MCO_NOT_ENOUGH_SPACE, []) else
      let bytes_stored := co_bytes_stored co - len in
      if zlen (co_bytes co) <? bytes_stored + len then ub else
      let out := if dest then ztake len (zdrop bytes_stored (co_bytes co)) else [] in
      (* MCO_ZERO_MEMORY *)
      put_co p (set_storage bytes_stored
        (ztake bytes_stored (co_bytes co) ++ zreplicate len 0 ++ zdrop (bytes_stored + len) (co_bytes co)) co) ;;;
      ret (MCO_SUCCESS, out)
  end.

Definition mco_peek (p : option Z) (dest : bool) (len : Z) : M thread (mco_result * list Z) :=
  match p with
  | None => ret (MCO_INVALID_COROUTINE, [])
  | Some p =>
      co <- get_co p ;;
      if len =? 0 then ret (MCO_SUCCESS, []) else
      if co_bytes_stored co <? len then ret (MCO_NOT_ENOUGH_SPACE, []) else
      if negb dest then ret (MCO_INVALID_POINTER, []) else
      if zlen (co_bytes co) <? co_bytes_stored co then ub else
      ret (MCO_SUCCESS, ztake len (zdrop (co_bytes_stored co - len) (co_bytes co)))
  end.

Definition mco_get_bytes_stored (p : option Z) : M thread Z :=
  match p with Some p => co <- get_co p ;; ret (co_bytes_stored co) | None => ret 0 end.
Definition mco_get_storage_size (p : option Z) : M thread Z :=
  match p with Some p => co <- get_co p ;; ret (co_storage_size co) | None => ret 0 end.
End Thread.
