(* ===== verification/MinicoroProps.v ===== *)
(** * MinicoroProps: what the coroutine library guarantees

    The parts of a block are apart and inside it ([block_layout]); the coroutines
    of a thread are a stack of those that run, each to go back to the one that has
    resumed it, and a set of suspended ones ([coroutines_refine_calls]); the
    storage is a stack of bytes ([storage_refines_bytes]); and the scheduler's
    view of a coroutine (Scheduler.v) is sound ([scheduler_coroutines_sound]). *)

From stdpp Require Import strings.
From S2P Require Import Prelude CString Memory Arena Machine Switch SwitchProps Scheduler Minicoro.
#[global] Open Scope Z_scope.

(** ** The parts of a block *)
Definition up16 (x : Z) : Z := (x + 15) / 16 * 16.

Definition arch_sizes (a : arch) : bool :=
  ((wd a =? 4)%nat || (wd a =? 8)%nat) && (0 <? a_size a) && (a_size a <=? 512) && (0 <=? a_reserve a) && (a_reserve a <=? 512) &&
  (0 <=? frame_size a) && (frame_size a <=? a_reserve a).
Lemma archs_sizes : forallb arch_sizes archs = true.
Proof. vm_compute. reflexivity. Qed.

Section Layout.
Context (a : arch).
Hypothesis Ha : a ∈ archs.
#[local] Abbreviation bits := (8 * Z.of_nat (wd a)).

Lemma sizes_ok : (wd a = 4%nat \/ wd a = 8%nat) /\ 0 < a_size a <= 512 /\ 0 <= a_reserve a <= 512 /\ 0 <= frame_size a <= a_reserve a.
Proof.
  pose proof (forallb_elem _ _ _ archs_sizes Ha) as H. unfold arch_sizes in H.
  apply andb_prop in H as [H ?]. apply andb_prop in H as [H ?]. apply andb_prop in H as [H ?]. apply andb_prop in H as [H ?].
  apply andb_prop in H as [H ?]. apply andb_prop in H as [H ?]. zb. split; [| lia].
  apply orb_prop in H as [H|H]; apply Nat.eqb_eq in H; auto.
Qed.

Lemma bits_range : bits = 32 \/ bits = 64.
Proof. destruct sizes_ok as [[-> | ->] _]; auto. Qed.

Lemma size_t_small x : 0 <= x < 2 ^ bits -> size_t a x = x.
Proof. apply Z.mod_small. Qed.

Lemma land_mod_pow2 y z n : 0 <= n -> 0 <= y < 2 ^ n -> Z.land y (z mod 2 ^ n) = Z.land y z.
Proof.
  intros Hn Hy. rewrite <- Z.land_ones by done. rewrite (Z.land_comm z), Z.land_assoc, Z.land_ones, Z.mod_small by done. done.
Qed.

Lemma align_up x : 0 <= x -> x + 15 < 2 ^ bits -> _mco_align_forward a x 16 = up16 x.
Proof.
  intros Hx Hb. unfold _mco_align_forward. change (16 - 1) with 15. rewrite size_t_small by lia.
  unfold size_t. rewrite land_mod_pow2 by lia. change 15 with (Z.ones 4) at 2. rewrite <- Z.ldiff_land, Z.ldiff_ones_r by lia.
  rewrite Z.shiftl_mul_pow2, Z.shiftr_div_pow2 by lia. done.
Qed.

(** the size of the stack asked for *)
Definition stack_asked (n : Z) : Z := if n =? 0 then MCO_DEFAULT_STACK_SIZE else Z.max n MCO_MIN_STACK_SIZE.

Lemma desc_init_sizes f n :
  0 <= n -> n + 4096 < 2 ^ bits ->
  let d := mco_desc_init a f n in
  d_stack_size d = up16 (stack_asked n) /\ d_storage_size d = 1024 /\
  d_coro_size d = up16 (sizeof_mco_coro a) + up16 (sizeof_mco_context a) + 1024 + up16 (stack_asked n) + 16.
Proof.
  intros Hn Hb. destruct sizes_ok as (Hw & Hs & _). pose proof bits_range as Hbits.
  assert (H32 : 2 ^ 32 <= 2 ^ bits) by (apply Z.pow_le_mono_r; lia).
  assert (Hst : (if negb (n =? 0) then if n <? MCO_MIN_STACK_SIZE then MCO_MIN_STACK_SIZE else n else MCO_DEFAULT_STACK_SIZE) = stack_asked n).
  { unfold stack_asked, MCO_MIN_STACK_SIZE. split_ifs; zb; try done; lia. }
  unfold mco_desc_init. rewrite Hst.
  assert (Hr : 0 < stack_asked n /\ stack_asked n + 4000 < 2 ^ bits).
  { unfold stack_asked, MCO_DEFAULT_STACK_SIZE, MCO_MIN_STACK_SIZE. split_ifs; zb; lia. }
  cbn [mco_desc_init _mco_init_desc_sizes d_stack_size d_storage_size d_coro_size].
  unfold sizeof_mco_coro, sizeof_mco_context, MCO_DEFAULT_STORAGE_SIZE.
  rewrite !align_up by lia. change (up16 1024) with 1024. split; [done |]. split; [done |].
  apply size_t_small. unfold up16. Z.div_mod_to_equations. lia.
Qed.

Lemma up16_spec x : x <= up16 x <= x + 15 /\ up16 x mod 16 = 0.
Proof. unfold up16. split; [Z.div_mod_to_equations; lia | apply Z.mod_mul; lia]. Qed.

Lemma up16_add x y : x mod 16 = 0 -> up16 (x + y) = x + up16 y.
Proof. unfold up16. intros Hx. Z.div_mod_to_equations. lia. Qed.

Lemma stack_asked_bounds n : n <= stack_asked n /\ MCO_MIN_STACK_SIZE <= stack_asked n.
Proof. unfold stack_asked, MCO_DEFAULT_STACK_SIZE, MCO_MIN_STACK_SIZE. split_ifs; zb; lia. Qed.

(** the addresses, without wrap-around *)
Lemma block_addresses f n co :
  0 <= n -> n + 4096 < 2 ^ bits -> let d := mco_desc_init a f n in 0 < co -> co + d_coro_size d <= 2 ^ bits ->
  context_addr a co = up16 (co + sizeof_mco_coro a) /\
  storage_addr a co = up16 (context_addr a co + sizeof_mco_context a) /\
  stack_addr a co d = up16 (storage_addr a co + 1024).
Proof.
  intros Hn Hb d Hco Hend. destruct (desc_init_sizes f n Hn Hb) as (Hst & Hsg & Hsz). fold d in Hst, Hsg, Hsz.
  destruct sizes_ok as (Hw & Hs & _). pose proof (stack_asked_bounds n) as Hlo. unfold MCO_MIN_STACK_SIZE in Hlo.
  pose proof (up16_spec (stack_asked n)) as Hu. pose proof (up16_spec (sizeof_mco_coro a)) as Hu4.
  pose proof (up16_spec (sizeof_mco_context a)) as Hu5.
  assert (Hpos : 0 < sizeof_mco_coro a /\ 0 < sizeof_mco_context a) by (unfold sizeof_mco_coro, sizeof_mco_context; lia).
  assert (Ec : context_addr a co = up16 (co + sizeof_mco_coro a)).
  { unfold context_addr. rewrite size_t_small, align_up by lia. done. }
  pose proof (up16_spec (co + sizeof_mco_coro a)) as Hu1. rewrite <- Ec in Hu1.
  assert (Es : storage_addr a co = up16 (context_addr a co + sizeof_mco_context a)).
  { unfold storage_addr. rewrite size_t_small, align_up by lia. done. }
  pose proof (up16_spec (context_addr a co + sizeof_mco_context a)) as Hu2. rewrite <- Es in Hu2.
  split; [done |]. split; [done |]. unfold stack_addr. rewrite Hsg, size_t_small, align_up by lia. done.
Qed.

(** C29: Every coroutine that is created from mco_desc_init, on every architecture,
    for every stack size that leaves room in the address space and wherever the
    block is, aligned or not: the structure, the register buffers, the storage and
    the stack follow each other without overlap inside the coro_size bytes that
    are allocated; buffers, storage and stack are 16-byte aligned; the stack has at
    least the size asked for (and 32 KB) in multiples of 16; and the words
    _mco_makectx writes are at the stack's end, so that mco_init does not write
    outside the block. *)
Theorem block_layout f n co :
  0 <= n -> n + 4096 < 2 ^ bits -> let d := mco_desc_init a f n in 0 < co -> co + d_coro_size d <= 2 ^ bits ->
  co + sizeof_mco_coro a <= context_addr a co /\ context_addr a co + sizeof_mco_context a <= storage_addr a co /\
  storage_addr a co + d_storage_size d <= stack_addr a co d /\ stack_addr a co d + d_stack_size d <= co + d_coro_size d /\
  context_addr a co mod 16 = 0 /\ storage_addr a co mod 16 = 0 /\ stack_addr a co d mod 16 = 0 /\ d_stack_size d mod 16 = 0 /\
  n <= d_stack_size d /\ MCO_MIN_STACK_SIZE <= d_stack_size d /\
  stack_addr a co d + d_stack_size d < 2 ^ bits /\ stack_high_ptr a co d + a_reserve a = stack_addr a co d + d_stack_size d /\
  within co (d_coro_size d) (stack_high_ptr a co d) (frame_size a) = true /\
  within co (d_coro_size d) (context_addr a co) (sizeof_mco_context a) = true.
Proof.
  intros Hn Hb d Hco Hend. destruct (desc_init_sizes f n Hn Hb) as (Hst & Hsg & Hsz). fold d in Hst, Hsg, Hsz.
  destruct (block_addresses f n co Hn Hb Hco Hend) as (Ec & Es & Ek). fold d in Ek.
  destruct sizes_ok as (Hw & Hs & Hres & Hfr). pose proof bits_range as Hbits.
  pose proof (stack_asked_bounds n) as Hlo. pose proof (up16_spec (stack_asked n)) as Hu.
  pose proof (up16_spec (co + sizeof_mco_coro a)) as Hu1. pose proof (up16_spec (context_addr a co + sizeof_mco_context a)) as Hu2.
  pose proof (up16_spec (storage_addr a co + 1024)) as Hu3. pose proof (up16_spec (sizeof_mco_coro a)) as Hu4.
  pose proof (up16_spec (sizeof_mco_context a)) as Hu5. rewrite <- Ec in Hu1. rewrite <- Es in Hu2. rewrite <- Ek in Hu3.
  assert (Hpos : 0 < sizeof_mco_coro a /\ 0 < sizeof_mco_context a) by (unfold sizeof_mco_coro, sizeof_mco_context; lia).
  assert (Es' : storage_addr a co = context_addr a co + up16 (sizeof_mco_context a)) by (rewrite Es; apply up16_add, Hu1).
  assert (Ek' : stack_addr a co d = storage_addr a co + 1024) by (rewrite Ek, up16_add by apply Hu2; done).
  assert (Hend2 : stack_addr a co d + up16 (stack_asked n) + 1 <= co + d_coro_size d) by (rewrite Hsz; lia).
  unfold MCO_MIN_STACK_SIZE in *.
  assert (Htop : stack_high_ptr a co d = stack_addr a co d + d_stack_size d - a_reserve a).
  { unfold stack_high_ptr. apply size_t_small. rewrite Hst. lia. }
  unfold within. rewrite Htop, Hst, Hsg.
  split_and!; try lia; apply andb_true_intro; split; apply Z.leb_le; lia.
Qed.
End Layout.

(** ** Coroutines as calls *)
Section Calls.
Context (a : arch) `{PP : Pages P} {K : Type}.
Hypothesis Ha : a ∈ archs.
#[local] Abbreviation thread := (@thread P K).
#[local] Abbreviation context := (context K).

(** the coroutines that run, innermost first, each with where to go on when it
    stops; the suspended ones, with where they go on; the finished ones; and the
    stack of every coroutine there is *)
Record calls := {
  active : list (Z * context);
  idle : gmap Z context;
  finished : gset Z;
  stacks : gmap Z (Z * Z);
}.

Inductive op :=
| OCreate (func stack_size : Z)
| OResume (p : Z) (here : context)
| OYield (p sp : Z) (here : context)
| OEnd (p : Z) (here : context)
| ODestroy (p : Z).

Inductive answer :=
| ACreated (r : mco_result) (p : option Z)
| ACall (o : @outcome K)
| ADestroyed (r : mco_result).

Definition run_op (o : op) : M thread answer :=
  match o with
  | OCreate f n => r <- mco_create a true (Some (mco_desc_init a f n)) ;; ret (ACreated r.1 r.2)
  | OResume p here => r <- mco_resume (Some p) here ;; ret (ACall r)
  | OYield p sp here => r <- mco_yield a (Some p) sp here ;; ret (ACall r)
  | OEnd p here => r <- _mco_main_end p here ;; ret (ACall r)
  | ODestroy p => r <- mco_destroy (Some p) ;; ret (ADestroyed r)
  end.

Definition on_stack (σ : calls) (p sp : Z) : Prop :=
  match stacks σ !! p with Some (lo, hi) => lo <= sp <= hi | None => False end.

(** the specification: resuming is a call, stopping is its return *)
Inductive call_step (σ : calls) : op -> answer -> calls -> Prop :=
| cs_create f n p stack :
    stacks σ !! p = None -> n <= stack.2 - stack.1 ->
    call_step σ (OCreate f n) (ACreated MCO_SUCCESS (Some p))
      {| active := active σ; idle := <[p := Start p]> (idle σ); finished := finished σ; stacks := <[p := stack]> (stacks σ) |}
| cs_no_memory f n :
    call_step σ (OCreate f n) (ACreated MCO_OUT_OF_MEMORY None) σ
| cs_resume p here k :
    idle σ !! p = Some k ->
    call_step σ (OResume p here) (ACall (Switched k))
      {| active := (p, here) :: active σ; idle := delete p (idle σ); finished := finished σ; stacks := stacks σ |}
| cs_not_suspended p here :
    idle σ !! p = None -> call_step σ (OResume p here) (ACall (Returned MCO_NOT_SUSPENDED)) σ
| cs_yield p sp here k rest :
    active σ = (p, k) :: rest -> on_stack σ p sp ->
    call_step σ (OYield p sp here) (ACall (Switched k))
      {| active := rest; idle := <[p := here]> (idle σ); finished := finished σ; stacks := stacks σ |}
| cs_overflow p sp here :
    ~ on_stack σ p sp -> call_step σ (OYield p sp here) (ACall (Returned MCO_STACK_OVERFLOW)) σ
| cs_not_running p sp here :
    on_stack σ p sp -> head (active σ).*1 <> Some p -> call_step σ (OYield p sp here) (ACall (Returned MCO_NOT_RUNNING)) σ
| cs_end p here k rest :
    active σ = (p, k) :: rest ->
    call_step σ (OEnd p here) (ACall (Switched k))
      {| active := rest; idle := idle σ; finished := {[p]} ∪ finished σ; stacks := stacks σ |}
| cs_destroy p :
    p ∉ (active σ).*1 ->
    call_step σ (ODestroy p) (ADestroyed MCO_SUCCESS)
      {| active := active σ; idle := delete p (idle σ); finished := finished σ ∖ {[p]}; stacks := delete p (stacks σ) |}
| cs_busy p :
    p ∈ (active σ).*1 -> call_step σ (ODestroy p) (ADestroyed MCO_INVALID_OPERATION) σ.

(** what a caller has to see to: pointers to coroutines that exist, and the end of
    a coroutine is reached by that coroutine *)
Definition op_ok (σ : calls) (o : op) : Prop :=
  match o with
  | OCreate f n => f <> 0 /\ 0 <= n /\ n + 4096 < 2 ^ (8 * Z.of_nat (wd a))
  | OResume p _ | OYield p _ _ | ODestroy p => is_Some (stacks σ !! p)
  | OEnd p _ => head (active σ).*1 = Some p
  end.

(** the state of a coroutine in the [i]-th place of those that run *)
Definition place_state (i : nat) : mco_state := match i with O => MCO_RUNNING | S _ => MCO_NORMAL end.

(** the blocks: each coroutine has its pages, and there are no others *)
Record blocks (base : gmap Z Z) (t : thread) (stk : gmap Z (Z * Z)) : Prop := {
  bl_pages : pages_inv (t_pages t);
  bl_live : forall p, pages_live (t_pages t) !! p = match cos t !! p with Some c => Some (co_coro_size c) | None => base !! p end;
  bl_base : forall p, is_Some (cos t !! p) -> base !! p = None;
  bl_stacks : forall p, stk !! p = (fun c => (co_stack_base c, size_t a (co_stack_base c + co_stack_size c))) <$> cos t !! p;
  bl_fields : forall p c, cos t !! p = Some c -> co_magic_number c = MCO_MAGIC_NUMBER /\ co_dealloc_cb c = true;
}.

(** the states and links of the coroutines *)
Record control (m : gmap Z (mco_coro K)) (current : option Z) (σ : calls) : Prop := {
  ct_current : current = head (active σ).*1;
  ct_nodup : NoDup (active σ).*1;
  ct_active : forall i p k, active σ !! i = Some (p, k) ->
    exists c, m !! p = Some c /\ co_state c = place_state i /\ co_back_ctx c = Some k /\ co_prev_co c = (active σ).*1 !! S i;
  ct_running : forall p c, m !! p = Some c -> co_state c = MCO_RUNNING \/ co_state c = MCO_NORMAL -> p ∈ (active σ).*1;
  ct_idle : forall p k, idle σ !! p = Some k <-> exists c, m !! p = Some c /\ co_state c = MCO_SUSPENDED /\ co_ctx c = Some k;
  ct_finished : forall p, p ∈ finished σ <-> exists c, m !! p = Some c /\ co_state c = MCO_DEAD;
  ct_rest : forall p c, m !! p = Some c -> co_state c = MCO_SUSPENDED \/ co_state c = MCO_DEAD ->
    co_prev_co c = None /\ (co_state c = MCO_SUSPENDED -> is_Some (co_ctx c));
}.

Definition stands_for (base : gmap Z Z) (t : thread) (σ : calls) : Prop :=
  blocks base t (stacks σ) /\ control (cos t) (mco_current_co t) σ.

(** *** what the two switches leave behind *)
Definition update (f : mco_coro K -> mco_coro K) (q : option Z) (m : gmap Z (mco_coro K)) : gmap Z (mco_coro K) :=
  match q with Some q => alter f q m | None => m end.

Lemma lookup_update f q m p : update f q m !! p = if decide (q = Some p) then f <$> m !! p else m !! p.
Proof.
  destruct q as [q|]; cbn [update]; [| done]. destruct (decide (Some q = Some p)) as [[= ->]|Hne].
  - apply lookup_alter_eq.
  - apply lookup_alter_ne. congruence.
Qed.

(** [co_run]: run a step of the library on a known coroutine *)
Ltac co_run :=
  repeat (unfold bind, get_co, put_co, MCO_ASSERT, ret, ub, modify, gets, switch_to, lift;
          cbn [cos set_cos set_current set_pages mco_current_co t_pages fst snd co_prev_co co_state co_ctx co_back_ctx set_prev set_state set_ctxs];
          rewrite ?lookup_insert_eq, ?bool_decide_eq_true_2 by done).

Lemma lookup_moved f q m p c r :
  <[p := c]> (update f q m) !! r = if decide (r = p) then Some c else if decide (q = Some r) then f <$> m !! r else m !! r.
Proof.
  destruct (decide (r = p)) as [->|]; [by rewrite lookup_insert_eq |]. rewrite lookup_insert_ne by done. apply lookup_update.
Qed.

Lemma insert_alter (f : mco_coro K -> mco_coro K) q cq (m : gmap Z (mco_coro K)) :
  m !! q = Some cq -> <[q := f cq]> m = alter f q m.
Proof.
  intros Hq. apply map_eq. intros r. destruct (decide (r = q)) as [->|].
  - by rewrite lookup_insert_eq, lookup_alter_eq, Hq.
  - by rewrite lookup_insert_ne, lookup_alter_ne.
Qed.

Lemma jumpin_run (t : thread) p c here k :
  cos t !! p = Some c -> co_prev_co c = None -> co_ctx c = Some k ->
  (forall q, mco_current_co t = Some q -> q <> p /\ exists cq, cos t !! q = Some cq /\ co_state cq = MCO_RUNNING) ->
  _mco_jumpin p here t =
    (Ok (Switched k), set_current (Some p) (set_cos (<[p := set_ctxs (Some k) (Some here) (set_prev (mco_current_co t) c)]>
                                                       (update (set_state MCO_NORMAL) (mco_current_co t) (cos t))) t)).
Proof.
  intros Hp Hprev Hk Hq. destruct t as [m cur w]. cbn [cos mco_current_co] in *.
  unfold _mco_jumpin, _mco_prepare_jumpin, mco_running. co_run. rewrite Hp. co_run.
  destruct cur as [q|]; cbn [update].
  - destruct (Hq q eq_refl) as (Hne & cq & Hcq & Hst).
    rewrite Hp. co_run. rewrite lookup_insert_ne, Hcq by done. co_run.
    rewrite lookup_insert_ne, Hcq by done. co_run. rewrite lookup_insert_ne by done. co_run. rewrite Hk. 
    rewrite (insert_insert_ne _ q p) by done. co_run. by rewrite insert_insert_eq, (insert_alter _ q cq).
  - rewrite Hp. co_run. rewrite Hk. by rewrite insert_insert_eq.
Qed.

Lemma jumpout_run (t : thread) p c here k :
  cos t !! p = Some c -> co_back_ctx c = Some k ->
  (forall q, co_prev_co c = Some q -> q <> p /\ is_Some (cos t !! q)) ->
  _mco_jumpout p here t =
    (Ok (Switched k), set_current (co_prev_co c) (set_cos (<[p := set_ctxs (Some here) (Some k) (set_prev None c)]>
                                                       (update (set_state MCO_RUNNING) (co_prev_co c) (cos t))) t)).
Proof.
  intros Hp Hk Hq. destruct t as [m cur w]. cbn [cos mco_current_co] in *.
  unfold _mco_jumpout, _mco_prepare_jumpout. co_run. rewrite Hp. co_run. rewrite Hp. co_run.
  destruct (co_prev_co c) as [q|]; cbn [update].
  - destruct (Hq q eq_refl) as (Hne & cq & Hcq). co_run.
    rewrite lookup_insert_ne, Hcq by done. co_run.
    rewrite lookup_insert_ne, Hcq by done. co_run. rewrite lookup_insert_ne by done. co_run. rewrite Hk. 
    rewrite (insert_insert_ne _ q p) by done. co_run. by rewrite insert_insert_eq, (insert_alter _ q cq).
  - co_run. rewrite Hk. by rewrite insert_insert_eq.
Qed.

(** *** the simulation *)
Definition fixed (c : mco_coro K) := (co_coro_size c, co_stack_base c, co_stack_size c, co_magic_number c, co_dealloc_cb c).

(** blocks do not depend on states and links *)
Lemma blocks_fixed base (t t' : thread) stk :
  blocks base t stk -> t_pages t' = t_pages t -> (forall p, fixed <$> cos t' !! p = fixed <$> cos t !! p) -> blocks base t' stk.
Proof.
  intros [Hi Hl Hb Hs Hf] Hw He. constructor; rewrite ?Hw; [done | | | |]; intros p; specialize (He p).
  - rewrite Hl. destruct (cos t' !! p), (cos t !! p); cbn in He; unfold fixed in *; congruence.
  - intros Hp. apply Hb. destruct (cos t' !! p), (cos t !! p); cbn in He; by (done || destruct Hp).
  - rewrite Hs. destruct (cos t' !! p), (cos t !! p); cbn in *; unfold fixed in *; congruence.
  - intros c Hc. rewrite Hc in He. destruct (cos t !! p) as [c'|] eqn:E; cbn in He; [| done].
    unfold fixed in He. destruct (Hf _ _ E). split; congruence.
Qed.

Lemma active_not_idle m cur σ p c : control m cur σ -> m !! p = Some c -> p ∈ (active σ).*1 -> co_state c = MCO_RUNNING \/ co_state c = MCO_NORMAL.
Proof.
  intros Hc Hp Hin. apply list_elem_of_fmap in Hin as ([q k] & -> & Hin). apply list_elem_of_lookup in Hin as [i Hi].
  destruct (ct_active _ _ _ Hc _ _ _ Hi) as (c' & Hc' & Hst & _). cbn in Hp. rewrite Hp in Hc'. injection Hc' as <-.
  rewrite Hst. destruct i; auto.
Qed.

(** resuming: the coroutine that runs becomes NORMAL, [p] goes on top *)
Lemma control_resume m cur σ p c k here :
  control m cur σ -> m !! p = Some c -> co_state c = MCO_SUSPENDED -> co_ctx c = Some k ->
  control (<[p := set_ctxs (Some k) (Some here) (set_prev cur (set_state MCO_RUNNING c))]> (update (set_state MCO_NORMAL) cur m)) (Some p)
    {| active := (p, here) :: active σ; idle := delete p (idle σ); finished := finished σ; stacks := stacks σ |}.
Proof.
  intros Hc Hp Hst Hk.
  assert (Hnp : p ∉ (active σ).*1) by (intros Hin; destruct (active_not_idle _ _ _ _ _ Hc Hp Hin); congruence).
  pose proof (lookup_moved (set_state MCO_NORMAL) cur m p (set_ctxs (Some k) (Some here) (set_prev cur (set_state MCO_RUNNING c)))) as Hl.
  assert (Hcur : forall r, cur = Some r -> r ∈ (active σ).*1).
  { intros r E. rewrite (ct_current _ _ _ Hc) in E. destruct ((active σ).*1); [done |]. injection E as ->. apply list_elem_of_here. }
  constructor; cbn [active idle finished fmap list_fmap head].
  - done.
  - constructor; [done | apply Hc].
  - intros [|i] q h Hq; cbn [lookup list_lookup] in Hq.
    + injection Hq as <- <-. rewrite Hl, decide_True by done. eexists; split; [done |]. cbn. split; [done |]. split; [done |].
      rewrite (ct_current _ _ _ Hc). by destruct ((active σ).*1).
    + destruct (ct_active _ _ _ Hc _ _ _ Hq) as (d & Hd & Hsd & Hb & Hpr). rewrite Hl.
      assert (q ∈ (active σ).*1) by (apply list_elem_of_fmap; exists (q, h); split; [done | by apply list_elem_of_lookup_2 in Hq]).
      destruct (decide (q = p)) as [->|]; [done |]. destruct (decide (cur = Some q)) as [E|E]; rewrite Hd; eexists; (split; [done |]).
      * cbn. split; [done |]. split; [done |]. exact Hpr.
      * split; [| done]. rewrite Hsd. destruct i; [| done]. exfalso. apply E. rewrite (ct_current _ _ _ Hc).
        destruct (active σ) as [|[q' h'] l]; [done |]. injection Hq as -> ->. done.
  - intros r d. rewrite Hl. destruct (decide (r = p)) as [->|]; [intros _ _; apply list_elem_of_here |].
    destruct (decide (cur = Some r)) as [E|E]; intros Hd Hs; apply list_elem_of_further; [by apply Hcur | by eapply ct_running].
  - intros r h. rewrite Hl. destruct (decide (r = p)) as [->|].
    + rewrite lookup_delete_eq. split; [done |]. intros (d & [= <-] & Hd & _). done.
    + rewrite lookup_delete_ne by done. rewrite (ct_idle _ _ _ Hc r h). destruct (decide (cur = Some r)) as [E|E]; [| done].
      split.
      * intros (d & Hd & Hsd & _). destruct (active_not_idle _ _ _ _ _ Hc Hd (Hcur _ E)); congruence.
      * intros (d & Hd & Hsd & _). apply fmap_Some in Hd as (d' & _ & ->). done.
  - intros r. rewrite Hl, (ct_finished _ _ _ Hc r). destruct (decide (r = p)) as [->|].
    + split; intros (d & Hd & Hsd); [congruence |]. by injection Hd as <-.
    + destruct (decide (cur = Some r)) as [E|E]; [| done]. split; intros (d & Hd & Hsd).
      * destruct (active_not_idle _ _ _ _ _ Hc Hd (Hcur _ E)); congruence.
      * apply fmap_Some in Hd as (d' & _ & ->). done.
  - intros r d. rewrite Hl. destruct (decide (r = p)) as [->|]; [intros [= <-] [?|?]; done |].
    destruct (decide (cur = Some r)) as [E|E]; [| apply Hc].
    intros Hd Hs. apply fmap_Some in Hd as (d' & _ & ->). by destruct Hs.
Qed.

(** stopping, for good or not: the one that has resumed [p] runs again *)
Definition stopped (st : mco_state) (p : Z) (here : context) (rest : list (Z * context)) (σ : calls) : calls :=
  {| active := rest; idle := if bool_decide (st = MCO_SUSPENDED) then <[p := here]> (idle σ) else idle σ;
     finished := if bool_decide (st = MCO_SUSPENDED) then finished σ else {[p]} ∪ finished σ; stacks := stacks σ |}.

Lemma control_stop m cur σ p k rest c st here :
  control m cur σ -> active σ = (p, k) :: rest -> m !! p = Some c -> st = MCO_SUSPENDED \/ st = MCO_DEAD ->
  control (<[p := set_ctxs (Some here) (Some k) (set_prev None (set_state st c))]> (update (set_state MCO_RUNNING) (co_prev_co c) m)) (co_prev_co c)
    (stopped st p here rest σ).
Proof.
  intros Hc Ha1 Hp Hst.
  destruct (ct_active _ _ _ Hc 0 p k ltac:(by rewrite Ha1)) as (c' & Hc' & Hsc & _ & Hprev). rewrite Hp in Hc'. injection Hc' as <-.
  rewrite Ha1 in Hprev. cbn in Hprev. assert (Hprev' : co_prev_co c = head rest.*1) by (rewrite Hprev; by destruct rest).
  pose proof (ct_nodup _ _ _ Hc) as Hnd. rewrite Ha1 in Hnd. cbn in Hnd. apply list.NoDup_cons in Hnd as [Hnp Hnd].
  assert (Hpp : co_prev_co c <> Some p) by (rewrite Hprev'; intros E; apply Hnp; destruct (rest.*1); [done |]; injection E as ->; apply list_elem_of_here).
  pose proof (lookup_moved (set_state MCO_RUNNING) (co_prev_co c) m p (set_ctxs (Some here) (Some k) (set_prev None (set_state st c)))) as Hl.
  assert (Hin : forall r, co_prev_co c = Some r -> r ∈ rest.*1).
  { intros r E. rewrite Hprev' in E. destruct (rest.*1); [done |]. injection E as ->. apply list_elem_of_here. }
  assert (Hact : forall r d, m !! r = Some d -> r ∈ rest.*1 -> co_state d = MCO_RUNNING \/ co_state d = MCO_NORMAL).
  { intros r d Hd Hr. apply (active_not_idle _ _ _ _ _ Hc Hd). rewrite Ha1. by apply list_elem_of_further. }
  constructor; unfold stopped; cbn [active idle finished].
  - done.
  - done.
  - intros i q h Hq. destruct (ct_active _ _ _ Hc (S i) q h) as (d & Hd & Hsd & Hb & Hpr); [by rewrite Ha1 |].
    rewrite Ha1 in Hpr. cbn in Hpr. assert (q ∈ rest.*1) by (apply list_elem_of_fmap; exists (q, h); split; [done | by apply list_elem_of_lookup_2 in Hq]).
    rewrite Hl. destruct (decide (q = p)) as [->|]; [done |]. destruct (decide (co_prev_co c = Some q)) as [E|E]; rewrite Hd; eexists; (split; [done |]).
    + cbn. split; [| done]. destruct i; [done |]. exfalso. rewrite Hprev' in E.
      assert (Hq' : rest.*1 !! S i = Some q) by (by rewrite list_lookup_fmap, Hq).
      assert (Hq0 : rest.*1 !! O = Some q) by (by destruct (rest.*1)).
      by pose proof (NoDup_lookup _ _ _ _ Hnd Hq' Hq0).
    + split; [| done]. rewrite Hsd. destruct i; [| done]. exfalso. apply E. rewrite Hprev'. destruct rest as [|[q' h'] l]; [done |]. by injection Hq as -> ->.
  - intros r d. rewrite Hl. destruct (decide (r = p)) as [->|]; [intros [= <-] [Hs|Hs]; cbn in Hs; destruct Hst; congruence |].
    destruct (decide (co_prev_co c = Some r)) as [E|E]; intros Hd Hs; [by apply Hin |].
    pose proof (ct_running _ _ _ Hc _ _ Hd Hs) as Hr. rewrite Ha1 in Hr. cbn in Hr. by apply elem_of_cons in Hr as [->|?].
  - intros r h. rewrite Hl. destruct (decide (r = p)) as [->|].
    + case_bool_decide as Es.
      * rewrite lookup_insert_eq. split; [intros [= <-]; eexists; cbn; eauto |]. intros (d & [= <-] & _ & Hk). done.
      * split; [| intros (d & [= <-] & Hd & _); done]. rewrite (ct_idle _ _ _ Hc p h). intros (d & Hd & Hs & _).
        rewrite Hp in Hd. injection Hd as <-. cbn in Hsc. congruence.
    + assert (Hi : (if bool_decide (st = MCO_SUSPENDED) then <[p:=here]> (idle σ) else idle σ) !! r = idle σ !! r)
        by (case_bool_decide; [by rewrite lookup_insert_ne | done]).
      rewrite Hi, (ct_idle _ _ _ Hc r h). destruct (decide (co_prev_co c = Some r)) as [E|E]; [| done]. split.
      * intros (d & Hd & Hsd & _). destruct (Hact _ _ Hd (Hin _ E)); congruence.
      * intros (d & Hd & Hsd & _). apply fmap_Some in Hd as (d' & _ & ->). done.
  - intros r. rewrite Hl. destruct (decide (r = p)) as [->|].
    + case_bool_decide as Es.
      * rewrite (ct_finished _ _ _ Hc p). split; intros (d & Hd & Hs); [rewrite Hp in Hd; injection Hd as <-; cbn in Hsc; congruence |].
        injection Hd as <-. cbn in Hs. congruence.
      * split; [intros _; eexists; split; [done |]; cbn; destruct Hst; done |]. intros _. set_solver.
    + assert (Hf : r ∈ (if bool_decide (st = MCO_SUSPENDED) then finished σ else {[p]} ∪ finished σ) <-> r ∈ finished σ) by (case_bool_decide; set_solver).
      rewrite Hf, (ct_finished _ _ _ Hc r). destruct (decide (co_prev_co c = Some r)) as [E|E]; [| done]. split; intros (d & Hd & Hsd).
      * destruct (Hact _ _ Hd (Hin _ E)); congruence.
      * apply fmap_Some in Hd as (d' & _ & ->). done.
  - intros r d. rewrite Hl. destruct (decide (r = p)) as [->|]; [intros [= <-] _; cbn; eauto |].
    destruct (decide (co_prev_co c = Some r)) as [E|E]; [| apply Hc].
    intros Hd Hs. apply fmap_Some in Hd as (d' & _ & ->). by destruct Hs.
Qed.

Lemma fixed_moved f q (m : gmap Z (mco_coro K)) p c c' r :
  m !! p = Some c -> fixed c' = fixed c -> (forall d, fixed (f d) = fixed d) ->
  fixed <$> <[p := c']> (update f q m) !! r = fixed <$> m !! r.
Proof.
  intros Hp Hc Hf. rewrite lookup_moved. destruct (decide (r = p)) as [->|]; [by rewrite Hp; cbn; rewrite Hc |].
  destruct (decide (q = Some r)); [| done]. destruct (m !! r); cbn; [by rewrite Hf | done].
Qed.

Lemma update_inserted f q (m : gmap Z (mco_coro K)) p c c' :
  q <> Some p -> <[p := c']> (update f q (<[p := c]> m)) = <[p := c']> (update f q m).
Proof.
  intros Hq. apply map_eq. intros r. rewrite !lookup_moved. destruct (decide (r = p)); [done |].
  by rewrite lookup_insert_ne by done.
Qed.

(** [simulated]: the operation ends, as the specification has it *)
Definition simulated base (o : op) (t : thread) (σ : calls) : Prop :=
  exists r t' σ', run_op o t = (Ok r, t') /\ call_step σ o r σ' /\ stands_for base t' σ'.

Lemma not_current m cur σ p c : control m cur σ -> m !! p = Some c -> co_state c = MCO_SUSPENDED -> cur <> Some p.
Proof.
  intros Hc Hp Hs E. rewrite (ct_current _ _ _ Hc) in E. assert (Hin : p ∈ (active σ).*1).
  { destruct ((active σ).*1); [done |]. injection E as ->. apply list_elem_of_here. }
  destruct (active_not_idle _ _ _ _ _ Hc Hp Hin); congruence.
Qed.

Lemma stacks_some base t σ p : stands_for base t σ -> is_Some (stacks σ !! p) -> exists c, cos t !! p = Some c.
Proof. intros [Hb _] Hs. rewrite (bl_stacks _ _ _ Hb) in Hs. destruct (cos t !! p); [eauto |]. by destruct Hs. Qed.

Lemma sim_resume base p here t σ : stands_for base t σ -> op_ok σ (OResume p here) -> simulated base (OResume p here) t σ.
Proof.
  intros Hsf Hp. destruct (stacks_some _ _ _ _ Hsf Hp) as [c Hc]. destruct Hsf as [Hb Hct]. unfold simulated, run_op, mco_resume.
  destruct t as [m cur w]. cbn [cos mco_current_co] in *. co_run. rewrite Hc. co_run.
  destruct (decide (co_state c = MCO_SUSPENDED)) as [Es|Es].
  - rewrite bool_decide_eq_true_2 by done. cbn [negb]. co_run. rewrite Hc.
    destruct (ct_rest _ _ _ Hct _ _ Hc (or_introl Es)) as [Hprev Hk]. destruct (Hk Es) as [k Hk'].
    pose proof (not_current _ _ _ _ _ Hct Hc Es) as Hnc.
    rewrite (jumpin_run _ p (set_state MCO_RUNNING c) here k); cbn [cos set_cos mco_current_co].
    + cbn [set_cos set_current cos mco_current_co t_pages]. rewrite update_inserted by done. eexists _, _, _. split; [done |]. split.
      * apply cs_resume. apply (ct_idle _ _ _ Hct). eauto.
      * split; cbn [cos mco_current_co stacks]; [| by apply control_resume].
        eapply blocks_fixed; [exact Hb | done |]. intros r. cbn [cos]. by apply (fixed_moved _ _ _ _ c).
    + apply lookup_insert_eq.
    + done.
    + done.
    + intros q ->. assert (q <> p) by congruence. split; [done |].
      pose proof (ct_current _ _ _ Hct) as Hcur. destruct (active σ) as [|[q' h] rest] eqn:Ea; [done |]. cbn in Hcur. injection Hcur as <-.
      destruct (ct_active _ _ _ Hct 0 q h ltac:(by rewrite Ea)) as (d & Hd & Hsd & _). exists d. by rewrite lookup_insert_ne.
  - rewrite bool_decide_eq_false_2 by done. cbn [negb]. eexists _, _, _. split; [done |]. split; [| by split].
    apply cs_not_suspended. destruct (idle σ !! p) as [k|] eqn:Ei; [| done]. apply (ct_idle _ _ _ Hct) in Ei as (d & Hd & Hsd & _). congruence.
Qed.

(** the coroutine that runs stops *)
Lemma stop_run base p here t σ c k rest st :
  stands_for base t σ -> active σ = (p, k) :: rest -> cos t !! p = Some c -> st = MCO_SUSPENDED \/ st = MCO_DEAD ->
  exists t', _mco_jumpout p here (set_cos (<[p := set_state st c]> (cos t)) t) = (Ok (Switched k), t') /\
    stands_for base t' (stopped st p here rest σ).
Proof.
  intros [Hb Hct] Ea Hc Hst. destruct t as [m cur w]. cbn [cos mco_current_co] in *.
  destruct (ct_active _ _ _ Hct 0 p k ltac:(by rewrite Ea)) as (c' & Hc' & _ & Hbk & Hprev). rewrite Hc in Hc'. injection Hc' as <-.
  rewrite Ea in Hprev. cbn in Hprev. pose proof (ct_nodup _ _ _ Hct) as Hnd. rewrite Ea in Hnd. apply list.NoDup_cons in Hnd as [Hnp _].
  assert (Hpp : co_prev_co c <> Some p) by (rewrite Hprev; intros E; apply Hnp; by apply list_elem_of_lookup_2 in E).
  rewrite (jumpout_run _ p (set_state st c) here k); cbn [cos set_cos mco_current_co].
  - eexists. split; [done |]. cbn [set_state co_prev_co set_current set_cos cos t_pages]. rewrite update_inserted by done.
    split; cbn [cos mco_current_co stopped stacks]; [| by eapply control_stop].
    eapply blocks_fixed; [exact Hb | done |]. intros r. cbn [cos]. by apply (fixed_moved _ _ _ _ c).
  - apply lookup_insert_eq.
  - done.
  - cbn [set_state co_prev_co]. intros q Hq. assert (q <> p) by congruence. split; [done |]. rewrite lookup_insert_ne by done.
    rewrite Hq in Hprev. destruct rest as [|[q' h] rest]; [done |]. injection Hprev as ->.
    destruct (ct_active _ _ _ Hct 1 q' h ltac:(by rewrite Ea)) as (d & -> & _). done.
Qed.

Lemma sim_yield base p sp here t σ : stands_for base t σ -> op_ok σ (OYield p sp here) -> simulated base (OYield p sp here) t σ.
Proof.
  intros Hsf Hp. destruct (stacks_some _ _ _ _ Hsf Hp) as [c Hc]. pose proof Hsf as [Hb Hct]. unfold simulated, run_op, mco_yield.
  destruct (bl_fields _ _ _ Hb _ _ Hc) as [Hmg _]. pose proof (bl_stacks _ _ _ Hb p) as Hstk. rewrite Hc in Hstk. cbn in Hstk.
  unfold bind, get_co. rewrite Hc, Hmg. change (MCO_MAGIC_NUMBER =? MCO_MAGIC_NUMBER) with true. cbn [negb orb].
  destruct ((sp <? co_stack_base c) || (size_t a (co_stack_base c + co_stack_size c) <? sp)) eqn:Er.
  - eexists _, _, _. split; [done |]. split; [| by split]. apply cs_overflow. unfold on_stack. rewrite Hstk. apply orb_prop in Er as [?|?]; zb; lia.
  - assert (Hon : on_stack σ p sp) by (unfold on_stack; rewrite Hstk; zb; lia).
    destruct (decide (head (active σ).*1 = Some p)) as [Eh|Eh].
    + destruct (active σ) as [|[q k] rest] eqn:Ea; [done |]. injection Eh as ->.
      destruct (ct_active _ _ _ Hct 0 p k ltac:(by rewrite Ea)) as (c' & Hc' & Hsc & _). rewrite Hc in Hc'. injection Hc' as <-.
      rewrite bool_decide_eq_true_2 by done. cbn [negb]. unfold put_co. rewrite Hc.
      destruct (stop_run base p here t σ c k rest MCO_SUSPENDED Hsf Ea Hc (or_introl eq_refl)) as (t' & -> & Hsf').
      eexists _, _, _. split; [done |]. split; [by apply cs_yield with (k := k) | exact Hsf'].
    + assert (Hn : co_state c <> MCO_RUNNING).
      { intros Er'. pose proof (ct_running _ _ _ Hct _ _ Hc (or_introl Er')) as Hin. apply list_elem_of_lookup in Hin as [i Hi].
        rewrite list_lookup_fmap in Hi. destruct (active σ !! i) as [[q k]|] eqn:Ei; [| done]. injection Hi as ->.
        destruct (ct_active _ _ _ Hct _ _ _ Ei) as (d & Hd & Hsd & _). rewrite Hc in Hd. injection Hd as <-. rewrite Er' in Hsd.
        destruct i; [| done]. apply Eh. by destruct (active σ) as [|[? ?] ?]; [done | injection Ei as -> ->]. }
      rewrite bool_decide_eq_false_2 by done. cbn [negb]. eexists _, _, _. split; [done |]. split; [by apply cs_not_running | by split].
Qed.

Lemma sim_end base p here t σ : stands_for base t σ -> op_ok σ (OEnd p here) -> simulated base (OEnd p here) t σ.
Proof.
  intros Hsf Hp. cbn in Hp. pose proof Hsf as [Hb Hct]. destruct (active σ) as [|[q k] rest] eqn:Ea; [done |]. injection Hp as ->.
  destruct (ct_active _ _ _ Hct 0 p k ltac:(by rewrite Ea)) as (c & Hc & _).
  unfold simulated, run_op, _mco_main_end, bind, get_co. rewrite Hc. unfold put_co. rewrite Hc.
  destruct (stop_run base p here t σ c k rest MCO_DEAD Hsf Ea Hc (or_intror eq_refl)) as (t' & -> & Hsf').
  eexists _, _, _. split; [done |]. split; [by apply cs_end with (k := k) | exact Hsf'].
Qed.

Lemma control_destroy m cur σ p :
  control m cur σ -> p ∉ (active σ).*1 ->
  control (delete p m) cur
    {| active := active σ; idle := delete p (idle σ); finished := finished σ ∖ {[p]}; stacks := delete p (stacks σ) |}.
Proof.
  intros Hc Hp. constructor; cbn [active idle finished]; try apply Hc.
  - intros i q k Hq. destruct (ct_active _ _ _ Hc _ _ _ Hq) as (c & Hcq & H). exists c. rewrite lookup_delete_ne; [done |].
    intros <-. apply Hp, list_elem_of_fmap. exists (p, k). split; [done |]. by apply list_elem_of_lookup_2 in Hq.
  - intros q c [_ Hq]%lookup_delete_Some. exact (ct_running _ _ _ Hc q c Hq).
  - intros q k. rewrite lookup_delete_Some, (ct_idle _ _ _ Hc q k). setoid_rewrite lookup_delete_Some. naive_solver.
  - intros q. rewrite elem_of_difference, (ct_finished _ _ _ Hc q), elem_of_singleton. setoid_rewrite lookup_delete_Some. naive_solver.
  - intros q c [_ Hq]%lookup_delete_Some. exact (ct_rest _ _ _ Hc q c Hq).
Qed.

Lemma control_create m cur σ p c stk k :
  control m cur σ -> m !! p = None -> co_state c = MCO_SUSPENDED -> co_prev_co c = None -> co_ctx c = Some k ->
  control (<[p := c]> m) cur {| active := active σ; idle := <[p := k]> (idle σ); finished := finished σ; stacks := stk |}.
Proof.
  intros Hc Hp Hs Hpr Hk. constructor; cbn [active idle finished]; try apply Hc.
  - intros i q h Hq. destruct (ct_active _ _ _ Hc _ _ _ Hq) as (d & Hd & H). exists d. rewrite lookup_insert_ne; [done | congruence].
  - intros q d. destruct (decide (q = p)) as [->|]; [rewrite lookup_insert_eq; intros [= <-] [?|?]; congruence |].
    rewrite lookup_insert_ne by done. apply (ct_running _ _ _ Hc).
  - intros q h. destruct (decide (q = p)) as [->|]; [rewrite !lookup_insert_eq; naive_solver congruence |].
    rewrite !lookup_insert_ne by done. apply (ct_idle _ _ _ Hc).
  - intros q. rewrite (ct_finished _ _ _ Hc q). destruct (decide (q = p)) as [->|]; [rewrite lookup_insert_eq; naive_solver congruence |].
    by rewrite lookup_insert_ne by done.
  - intros q d. destruct (decide (q = p)) as [->|]; [rewrite lookup_insert_eq; intros [= <-] _; rewrite Hk; eauto |].
    rewrite lookup_insert_ne by done. apply (ct_rest _ _ _ Hc).
Qed.

Lemma destroy_run (t : thread) p c :
  cos t !! p = Some c -> co_dealloc_cb c = true ->
  mco_destroy (Some p) t =
    if bool_decide (co_state c = MCO_SUSPENDED) || bool_decide (co_state c = MCO_DEAD)
    then (Ok MCO_SUCCESS, set_cos (delete p (cos t)) (set_pages (pages_free p (co_coro_size c) (t_pages t)) t))
    else (Ok MCO_INVALID_OPERATION, t).
Proof.
  intros Hc Hdl. unfold mco_destroy, mco_uninit, bind, get_co. rewrite Hc.
  destruct (bool_decide (co_state c = MCO_SUSPENDED) || bool_decide (co_state c = MCO_DEAD)) eqn:E; cbn [negb]; [| done].
  unfold put_co, ret. rewrite Hc. rewrite bool_decide_eq_true_2 by done. cbn [negb cos set_cos]. rewrite lookup_insert_eq.
  cbn [set_state co_dealloc_cb]. rewrite Hdl. cbn [negb]. unfold mco_dealloc, set_cos, set_pages. cbn [cos t_pages mco_current_co].
  by rewrite delete_insert_eq.
Qed.

Lemma sim_destroy base p t σ : stands_for base t σ -> op_ok σ (ODestroy p) -> simulated base (ODestroy p) t σ.
Proof.
  intros Hsf Hp. destruct (stacks_some _ _ _ _ Hsf Hp) as [c Hc]. destruct Hsf as [Hb Hct].
  destruct (bl_fields _ _ _ Hb _ _ Hc) as [_ Hdl]. pose proof (bl_live _ _ _ Hb p) as Hlive. rewrite Hc in Hlive.
  unfold simulated, run_op, bind. rewrite (destroy_run _ _ _ Hc Hdl). destruct t as [m cur w]. cbn [cos mco_current_co t_pages] in *.
  destruct (decide (p ∈ (active σ).*1)) as [Hin|Hin].
  - destruct (active_not_idle _ _ _ _ _ Hct Hc Hin) as [-> | ->];
      (eexists _, _, _; split; [done |]; split; [by apply cs_busy | by split]).
  - assert (E : bool_decide (co_state c = MCO_SUSPENDED) || bool_decide (co_state c = MCO_DEAD) = true).
    { destruct (co_state c) eqn:Es; try done; exfalso; apply Hin, (ct_running _ _ _ Hct _ _ Hc); rewrite Es; auto. }
    rewrite E. eexists _, _, _. split; [done |]. split; [by apply cs_destroy |].
    split; cbn [cos mco_current_co stacks]; [| by apply control_destroy].
    destruct (pages_free_law p _ w (bl_pages _ _ _ Hb) Hlive) as [Hi Hl].
    constructor; cbn [cos t_pages set_cos set_pages]; [done | | | |].
    + intros q. rewrite Hl. destruct (decide (q = p)) as [->|]; [rewrite !lookup_delete_eq; symmetry; apply (bl_base _ _ _ Hb); eauto |].
      rewrite !lookup_delete_ne by done. apply (bl_live _ _ _ Hb).
    + intros q [d [_ Hd]%lookup_delete_Some]. apply (bl_base _ _ _ Hb). eauto.
    + intros q. destruct (decide (q = p)) as [->|]; [by rewrite !lookup_delete_eq |]. rewrite !lookup_delete_ne by done. apply (bl_stacks _ _ _ Hb).
    + intros q d [_ Hd]%lookup_delete_Some. exact (bl_fields _ _ _ Hb q d Hd).
Qed.

(** *** creating a coroutine *)
Hypothesis H64 : wd a = 8%nat.

(** a new coroutine in a block at [p] *)
Definition new_co (f n p : Z) : mco_coro K :=
  let d := mco_desc_init a f n in
  init_fields d
    {| co_context := context_addr a p; co_state := MCO_DEAD; co_func := 0; co_prev_co := None; co_user_data := 0; co_coro_size := 0;
       co_dealloc_cb := false; co_stack_base := stack_addr a p d; co_stack_size := d_stack_size d; co_storage := storage_addr a p;
       co_bytes_stored := 0; co_storage_size := d_storage_size d; co_magic_number := 0; co_ctx := Some (Start p); co_back_ctx := None;
       co_bytes := zreplicate (d_storage_size d) 0 |}.

Lemma new_co_stack f n p :
  let d := mco_desc_init a f n in
  (stack_addr a p d, size_t a (stack_addr a p d + d_stack_size d)) =
  (co_stack_base (new_co f n p), size_t a (co_stack_base (new_co f n p) + co_stack_size (new_co f n p))).
Proof. unfold new_co. cbn [init_fields co_stack_base co_stack_size]. reflexivity. Qed.

Lemma desc_coro_size f n : 0 <= n -> n + 4096 < 2 ^ 64 -> 0 < sizeof_mco_coro a <= d_coro_size (mco_desc_init a f n).
Proof.
  intros Hn Hb. destruct (desc_init_sizes a Ha f n Hn) as (_ & _ & Hsz); [by rewrite H64 |]. rewrite Hsz.
  pose proof (up16_spec (sizeof_mco_coro a)). pose proof (up16_spec (sizeof_mco_context a)). pose proof (up16_spec (stack_asked n)).
  pose proof (stack_asked_bounds n). destruct (sizes_ok a Ha) as (_ & Hs & _).
  unfold sizeof_mco_coro, sizeof_mco_context, MCO_MIN_STACK_SIZE in *. lia.
Qed.

Lemma create_run f n t :
  f <> 0 -> 0 <= n -> n + 4096 < 2 ^ 64 -> pages_inv (t_pages t) ->
  mco_create a true (Some (mco_desc_init a f n)) t =
    match pages_alloc (d_coro_size (mco_desc_init a f n)) (t_pages t) with
    | (Some p, w) => (Ok (MCO_SUCCESS, Some p), set_cos (<[p := new_co f n p]> (cos t)) (set_pages w t))
    | (None, w) => (Ok (MCO_OUT_OF_MEMORY, None), set_pages w t)
    end.
Proof.
  intros Hf Hn Hb Hi. pose proof (desc_coro_size f n Hn Hb) as Hsz. assert (Hpos : 0 < d_coro_size (mco_desc_init a f n)) by lia. unfold mco_create, mco_alloc.
  change (d_alloc_cb (mco_desc_init a f n) && d_dealloc_cb (mco_desc_init a f n)) with true. cbn [negb]. unfold bind at 1.
  destruct (pages_alloc _ (t_pages t)) as [[p|] w] eqn:Ep; [| done].
  destruct (pages_alloc_law _ _ _ _ Hpos Hi Ep) as (_ & Hp0 & Hp & _).
  destruct (block_layout a Ha f n p Hn ltac:(by rewrite H64) Hp0 ltac:(by rewrite H64)) as (_ & _ & _ & _ & _ & _ & _ & _ & _ & Hmin & _ & _ & Hw1 & Hw2).
  assert (Hv : _mco_validate_desc a (Some (mco_desc_init a f n)) = MCO_SUCCESS).
  { unfold _mco_validate_desc. change (d_func (mco_desc_init a f n)) with f. destruct (f =? 0) eqn:E0; zb; [done |].
    destruct (_ <? MCO_MIN_STACK_SIZE) eqn:E1; zb; [lia |]. destruct (_ <? sizeof_mco_coro a) eqn:E2; zb; [lia | done]. }
  unfold mco_init, bind, get_co, put_co, lift. cbn [cos set_cos]. rewrite lookup_insert_eq. cbn [cos set_cos]. rewrite lookup_insert_eq, Hv.
  unfold _mco_create_context. rewrite Hw1, Hw2. cbn [andb cos set_cos]. rewrite lookup_insert_eq. unfold ret.
  rewrite bool_decide_eq_true_2 by done. unfold set_cos. cbn. by rewrite !insert_insert_eq.
Qed.

Lemma sim_create base f n t σ : stands_for base t σ -> op_ok σ (OCreate f n) -> simulated base (OCreate f n) t σ.
Proof.
  intros [Hb Hct] (Hf & Hn & Hbd). rewrite H64 in Hbd. change (2 ^ (8 * Z.of_nat 8)) with (2 ^ 64) in Hbd.
  unfold simulated, run_op, bind. rewrite (create_run f n t Hf Hn Hbd (bl_pages _ _ _ Hb)).
  pose proof (desc_coro_size f n Hn Hbd) as Hsz. assert (Hpos : 0 < d_coro_size (mco_desc_init a f n)) by lia.
  destruct (pages_alloc _ (t_pages t)) as [[p|] w] eqn:Ep;
    destruct (pages_alloc_law _ _ _ _ Hpos (bl_pages _ _ _ Hb) Ep) as (Hi & Hl).
  - destruct Hl as (Hp0 & Hp & _ & Hfr & Hl). rewrite (bl_live _ _ _ Hb) in Hfr. destruct (cos t !! p) eqn:Ec; [done |].
    destruct (block_layout a Ha f n p Hn ltac:(by rewrite H64) Hp0 ltac:(by rewrite H64)) as (B1 & B2 & B3 & B4 & _ & _ & _ & _ & B5 & _ & B6 & _). rewrite H64 in B6.
    destruct (desc_init_sizes a Ha f n Hn ltac:(by rewrite H64)) as (_ & Hsg & Hcz). set (d := mco_desc_init a f n) in *.
    destruct (block_addresses a Ha f n p Hn ltac:(by rewrite H64) Hp0 ltac:(by rewrite H64)) as (Ec1 & Es1 & Ek1).
    eexists _, _, _. split; [done |]. split.
    + apply (cs_create _ f n p (stack_addr a p d, size_t a (stack_addr a p d + d_stack_size d))).
      * by rewrite (bl_stacks _ _ _ Hb), Ec.
      * cbn [fst snd]. unfold size_t. rewrite H64. destruct (sizes_ok a Ha) as (_ & Hs & _).
        assert (0 < sizeof_mco_coro a) by lia. assert (0 < sizeof_mco_context a) by (unfold sizeof_mco_context; lia).
        rewrite Z.mod_small by lia. lia.
    + split; cbn [cos mco_current_co stacks set_cos set_pages]; [| by apply control_create].
      constructor; cbn [cos t_pages set_cos set_pages]; [done | | | |].
      * intros q. rewrite Hl. destruct (decide (q = p)) as [->|]; [by rewrite !lookup_insert_eq |].
        rewrite !lookup_insert_ne by done. apply (bl_live _ _ _ Hb).
      * intros q. destruct (decide (q = p)) as [->|]; [done |]. rewrite lookup_insert_ne by done. apply (bl_base _ _ _ Hb).
      * intros q. destruct (decide (q = p)) as [->|]; [rewrite !lookup_insert_eq; apply (f_equal Some), new_co_stack |].
        rewrite !lookup_insert_ne by done. apply (bl_stacks _ _ _ Hb).
      * intros q c. destruct (decide (q = p)) as [->|]; [rewrite lookup_insert_eq; intros E; apply Some_inj in E as <-; split; reflexivity |].
        rewrite lookup_insert_ne by done. apply (bl_fields _ _ _ Hb).
  - eexists _, _, _. split; [done |]. split; [apply cs_no_memory |]. split; [| done].
    constructor; cbn [cos t_pages set_pages]; [done | | | |]; try apply Hb. intros q. rewrite Hl. apply (bl_live _ _ _ Hb).
Qed.

Definition no_coroutines (w : P) : thread := {| cos := ∅; mco_current_co := None; t_pages := w |}.
Definition no_calls : calls := {| active := []; idle := ∅; finished := ∅; stacks := ∅ |}.

Lemma no_calls_stand (w : P) : pages_inv w -> stands_for (pages_live w) (no_coroutines w) no_calls.
Proof.
  intros Hi. split; constructor; cbn; try done.
  - intros p. rewrite lookup_empty. by intros [].
  - constructor.
  - intros p k. rewrite lookup_empty. split; [done |]. intros (c & Hc & _). by rewrite lookup_empty in Hc.
  - intros p. split; [set_solver |]. intros (c & Hc & _). by rewrite lookup_empty in Hc.
Qed.

(** C9: The coroutine library implements calls: the coroutines that run are a
    stack, resuming a suspended one calls it, a yield or the end of its function
    returns to whoever has resumed it, and every other use is refused with the
    error the header names (not suspended, not running, stack overflow, busy).
    From a thread without coroutines, every operation whose pointers refer to
    coroutines that exist ends, does nothing undefined (no failed assertion, no
    access outside a block) and answers as the specification; and the pages that
    are mapped are those of the coroutines that exist. *)
Theorem coroutines_refine_calls (w : P) :
  pages_inv w ->
  stands_for (pages_live w) (no_coroutines w) no_calls /\
  forall t σ o, stands_for (pages_live w) t σ -> op_ok σ o -> simulated (pages_live w) o t σ.
Proof.
  intros Hi. split; [by apply no_calls_stand |].
  intros t σ [] Hs Ho; [by apply sim_create | by apply sim_resume | by apply sim_yield | by apply sim_end | by apply sim_destroy].
Qed.

(** ** The storage of a coroutine *)
Definition stored (c : mco_coro K) : list Z := ztake (co_bytes_stored c) (co_bytes c).
(** what is not stored is zero *)
Record storage_ok (c : mco_coro K) : Prop := {
  so_size : zlen (co_bytes c) = co_storage_size c;
  so_stored : 0 <= co_bytes_stored c <= co_storage_size c;
  so_zero : zdrop (co_bytes_stored c) (co_bytes c) = zreplicate (co_storage_size c - co_bytes_stored c) 0;
}.

Lemma zlen_stored c : storage_ok c -> zlen (stored c) = co_bytes_stored c.
Proof. intros [Hs Hb _]. unfold stored. apply zlen_ztake. lia. Qed.

Lemma zdrop_zreplicate n m : 0 <= n <= m -> zdrop n (zreplicate m 0) = zreplicate (m - n) 0.
Proof. intros Hn. unfold zdrop, zreplicate. rewrite drop_replicate. f_equal. lia. Qed.

Lemma storage_ok_new f n p : storage_ok (new_co f n p) /\ stored (new_co f n p) = [].
Proof.
  split; [| done]. unfold new_co. change (d_storage_size (mco_desc_init a f n)) with 1024.
  constructor; cbn [init_fields co_bytes co_bytes_stored co_storage_size]; [| lia |].
  - by apply zlen_zreplicate.
  - by rewrite zdrop_0, Z.sub_0_r.
Qed.

(** [replaced t p c' s]: the coroutine at [p] holds the bytes [s] *)
Definition replaced (t : thread) (p : Z) (s : list Z) (t' : thread) : Prop :=
  exists c', t' = set_cos (<[p := c']> (cos t)) t /\ storage_ok c' /\ stored c' = s.

Lemma push_spec t p c src :
  cos t !! p = Some c -> storage_ok c -> 0 < zlen src -> co_bytes_stored c + zlen src < 2 ^ (8 * Z.of_nat (wd a)) ->
  exists r t', mco_push a (Some p) (Some src) (zlen src) t = (Ok r, t') /\
    if zlen (stored c) + zlen src <=? co_storage_size c then r = MCO_SUCCESS /\ replaced t p (stored c ++ src) t'
    else r = MCO_NOT_ENOUGH_SPACE /\ t' = t.
Proof.
  intros Hc Hok Hn Hb. rewrite (zlen_stored c Hok). destruct Hok as [Hs Hst Hz]. unfold mco_push, bind, get_co. rewrite Hc.
  replace (zlen src =? 0) with false by (symmetry; apply Z.eqb_neq; lia).
  unfold size_t. rewrite Z.mod_small by lia.
  destruct (co_storage_size c <? co_bytes_stored c + zlen src) eqn:E; zb.
  - replace (_ <=? _) with false by (symmetry; apply Z.leb_gt; lia). by eexists _, _.
  - replace (co_bytes_stored c + zlen src <=? co_storage_size c) with true by (symmetry; apply Z.leb_le; lia).
    rewrite Z.leb_refl, Hs. replace (co_bytes_stored c + zlen src <=? co_storage_size c) with true by (symmetry; apply Z.leb_le; lia).
    cbn [andb]. unfold put_co. rewrite Hc. eexists _, _. split; [done |]. split; [done |].
    eexists. split; [done |]. rewrite (ztake_ge _ src) by lia.
    assert (Hl : zlen (ztake (co_bytes_stored c) (co_bytes c)) = co_bytes_stored c) by (apply zlen_ztake; lia).
    split.
    + constructor; cbn [set_storage co_bytes co_bytes_stored co_storage_size]; [| lia |].
      * autorewrite with wlen. rewrite Hl, zlen_zdrop by lia. lia.
      * rewrite app_assoc, zdrop_app_eq by (autorewrite with wlen; lia).
        rewrite <- zdrop_zdrop by lia. rewrite Hz, zdrop_zreplicate by lia. f_equal. lia.
    + unfold stored. cbn [set_storage co_bytes co_bytes_stored]. rewrite app_assoc. apply ztake_app_eq. autorewrite with wlen. lia.
Qed.

Lemma pop_spec t p c dest len :
  cos t !! p = Some c -> storage_ok c -> 0 < len ->
  exists r out t', mco_pop (Some p) dest len t = (Ok (r, out), t') /\
    if len <=? zlen (stored c)
    then r = MCO_SUCCESS /\ replaced t p (ztake (zlen (stored c) - len) (stored c)) t' /\
         (dest = true -> out = zdrop (zlen (stored c) - len) (stored c))
    else r = MCO_NOT_ENOUGH_SPACE /\ t' = t.
Proof.
  intros Hc Hok Hn. rewrite (zlen_stored c Hok). destruct Hok as [Hs Hst Hz]. unfold mco_pop, bind, get_co. rewrite Hc.
  replace (len =? 0) with false by (symmetry; apply Z.eqb_neq; lia).
  destruct (co_bytes_stored c <? len) eqn:E; zb.
  - replace (len <=? _) with false by (symmetry; apply Z.leb_gt; lia). by eexists _, _, _.
  - replace (len <=? co_bytes_stored c) with true by (symmetry; apply Z.leb_le; lia).
    replace (zlen (co_bytes c) <? co_bytes_stored c - len + len) with false by (symmetry; apply Z.ltb_ge; lia).
    unfold put_co. rewrite Hc. eexists _, _, _. split; [done |]. split; [done |].
    assert (Hl : zlen (ztake (co_bytes_stored c - len) (co_bytes c)) = co_bytes_stored c - len) by (apply zlen_ztake; lia).
    replace (co_bytes_stored c - len + len) with (co_bytes_stored c) by lia.
    split.
    + eexists. split; [done |]. split.
      * constructor; cbn [set_storage co_bytes co_bytes_stored co_storage_size]; [| lia |].
        { autorewrite with wlen. rewrite Hl, zlen_zreplicate, zlen_zdrop by lia. lia. }
        { rewrite zdrop_app_eq by lia. rewrite Hz. unfold zreplicate. rewrite <- replicate_add. f_equal. lia. }
      * unfold stored. cbn [set_storage co_bytes co_bytes_stored]. rewrite ztake_app_eq, ztake_ztake by lia. done.
    + intros ->. unfold stored, ztake, zdrop. rewrite take_drop_commute. do 2 f_equal. lia.
Qed.

Lemma peek_spec (t : thread) p c len :
  cos t !! p = Some c -> storage_ok c -> 0 < len ->
  mco_peek (Some p) true len t =
    (Ok (if len <=? zlen (stored c) then (MCO_SUCCESS, zdrop (zlen (stored c) - len) (stored c)) else (MCO_NOT_ENOUGH_SPACE, [])), t).
Proof.
  intros Hc Hok Hn. rewrite (zlen_stored c Hok). destruct Hok as [Hs Hst Hz]. unfold mco_peek, bind, get_co. rewrite Hc.
  replace (len =? 0) with false by (symmetry; apply Z.eqb_neq; lia).
  destruct (co_bytes_stored c <? len) eqn:E; zb.
  - by replace (len <=? _) with false by (symmetry; apply Z.leb_gt; lia).
  - replace (len <=? co_bytes_stored c) with true by (symmetry; apply Z.leb_le; lia). cbn [negb].
    replace (zlen (co_bytes c) <? co_bytes_stored c) with false by (symmetry; apply Z.ltb_ge; lia).
    unfold ret. do 3 f_equal. unfold stored, ztake, zdrop. rewrite take_drop_commute. do 2 f_equal. lia.
Qed.

(** the check in mco_push wraps: with something stored there is a length for which
    it passes and memcpy leaves the storage area *)
Theorem push_length_wraps (t : thread) p c src :
  cos t !! p = Some c -> storage_ok c -> co_storage_size c < 2 ^ (8 * Z.of_nat (wd a)) -> 0 < co_bytes_stored c ->
  mco_push a (Some p) (Some src) (2 ^ (8 * Z.of_nat (wd a)) - co_bytes_stored c) t = (UB, t).
Proof.
  intros Hc [Hs Hst _] Hsz Hb. unfold mco_push, bind, get_co. rewrite Hc.
  replace (_ =? 0) with false by (symmetry; apply Z.eqb_neq; lia).
  unfold size_t. replace (co_bytes_stored c + _) with (2 ^ (8 * Z.of_nat (wd a))) by lia. rewrite Z.mod_same by lia.
  replace (co_storage_size c <? 0) with false by (symmetry; apply Z.ltb_ge; lia).
  rewrite Hs. replace (2 ^ (8 * Z.of_nat (wd a)) <=? co_storage_size c) with false by (symmetry; apply Z.leb_gt; lia).
  by rewrite andb_false_r.
Qed.

(** C30: The storage of a coroutine is a stack of bytes of bounded size: a new
    coroutine has none; mco_push appends the bytes or, when they do not fit,
    answers MCO_NOT_ENOUGH_SPACE and changes nothing; mco_pop removes the last
    bytes and hands them out, mco_peek hands them out only, and both refuse more
    than there are; what is popped is cleared; and no access leaves the storage
    area.  (Lengths that wrap around are excluded: see [push_length_wraps].) *)
Theorem storage_refines_bytes (t : thread) p c :
  cos t !! p = Some c -> storage_ok c ->
  (forall src, 0 < zlen src -> co_bytes_stored c + zlen src < 2 ^ (8 * Z.of_nat (wd a)) ->
    exists r t', mco_push a (Some p) (Some src) (zlen src) t = (Ok r, t') /\
      if zlen (stored c) + zlen src <=? co_storage_size c then r = MCO_SUCCESS /\ replaced t p (stored c ++ src) t'
      else r = MCO_NOT_ENOUGH_SPACE /\ t' = t) /\
  (forall dest len, 0 < len ->
    exists r out t', mco_pop (Some p) dest len t = (Ok (r, out), t') /\
      if len <=? zlen (stored c)
      then r = MCO_SUCCESS /\ replaced t p (ztake (zlen (stored c) - len) (stored c)) t' /\
           (dest = true -> out = zdrop (zlen (stored c) - len) (stored c))
      else r = MCO_NOT_ENOUGH_SPACE /\ t' = t) /\
  (forall len, 0 < len ->
    mco_peek (Some p) true len t =
      (Ok (if len <=? zlen (stored c) then (MCO_SUCCESS, zdrop (zlen (stored c) - len) (stored c)) else (MCO_NOT_ENOUGH_SPACE, [])), t)).
Proof.
  intros Hc Hok. split; [| split].
  - intros src Hn Hb. by apply push_spec.
  - intros dest len Hn. by apply pop_spec.
  - intros len Hn. by apply peek_spec.
Qed.

(** ** The scheduler's coroutines *)

(** the coroutine of a call as Scheduler.v has it: a block and a state *)
Definition seen_as (c : mco_coro K) (p : Z) (sc : Scheduler.mco_coro) : Prop := Scheduler.co_block sc = p /\ Scheduler.co_state sc = co_state c.

(** the coroutine resumed at top level, [c], and how it stops *)
Definition resumed (k here : context) (c : mco_coro K) : mco_coro K :=
  set_ctxs (Some k) (Some here) (set_prev None (set_state MCO_RUNNING c)).

Lemma switched_resume base (t : thread) σ p c k here :
  stands_for base t σ -> active σ = [] -> cos t !! p = Some c -> co_state c = MCO_SUSPENDED -> co_ctx c = Some k ->
  mco_resume (Some p) here t =
    (Ok (Switched k), {| cos := <[p := resumed k here c]> (cos t); mco_current_co := Some p; t_pages := t_pages t |}).
Proof.
  intros [_ Hct] Ea Hc Es Hk. destruct (ct_rest _ _ _ Hct _ _ Hc (or_introl Es)) as [Hprev _].
  pose proof (ct_current _ _ _ Hct) as Hcur. rewrite Ea in Hcur. cbn in Hcur.
  unfold mco_resume, bind, get_co, put_co. rewrite Hc, bool_decide_eq_true_2 by done. cbn [negb]. rewrite Hc.
  rewrite (jumpin_run _ p (set_state MCO_RUNNING c) here k); cbn [cos set_cos mco_current_co]; try done.
  - rewrite Hcur. cbn [update]. rewrite insert_insert_eq. by destruct t.
  - apply lookup_insert_eq.
  - rewrite Hcur. done.
Qed.

Lemma stop_back (m : gmap Z (mco_coro K)) (wt : P) p c k here st at_ :
  exists t2 c2,
    _mco_jumpout p at_ {| cos := <[p := set_state st (resumed k here c)]> m; mco_current_co := Some p; t_pages := wt |} = (Ok (Switched here), t2) /\
    mco_current_co t2 = None /\ t_pages t2 = wt /\ cos t2 = <[p := c2]> m /\ co_state c2 = st /\ co_ctx c2 = Some at_.
Proof.
  rewrite (jumpout_run _ p (set_state st (resumed k here c)) at_ here); cbn [cos]; [| apply lookup_insert_eq | done | done].
  eexists _, _. split; [done |]. cbn [set_current set_cos cos mco_current_co t_pages co_prev_co set_state resumed set_ctxs set_prev update].
  split; [done |]. split; [done |]. split; [by rewrite insert_insert_eq | done].
Qed.

Lemma yield_back (m : gmap Z (mco_coro K)) (wt : P) p c k here sp at_ :
  co_magic_number c = MCO_MAGIC_NUMBER -> co_stack_base c <= sp <= size_t a (co_stack_base c + co_stack_size c) ->
  exists t2 c2,
    mco_yield a (Some p) sp at_ {| cos := <[p := resumed k here c]> m; mco_current_co := Some p; t_pages := wt |} = (Ok (Switched here), t2) /\
    mco_current_co t2 = None /\ t_pages t2 = wt /\ cos t2 = <[p := c2]> m /\ co_state c2 = MCO_SUSPENDED /\ co_ctx c2 = Some at_.
Proof.
  intros Hmg Hsp. destruct (stop_back m wt p c k here MCO_SUSPENDED at_) as (t2 & c2 & Ho & H). exists t2, c2. split; [| done].
  unfold mco_yield, bind, get_co, put_co. cbn [cos]. rewrite lookup_insert_eq.
  cbn [resumed set_ctxs set_prev set_state co_magic_number co_stack_base co_stack_size co_state].
  rewrite Hmg. change (MCO_MAGIC_NUMBER =? MCO_MAGIC_NUMBER) with true.
  replace (sp <? co_stack_base c) with false by (symmetry; apply Z.ltb_ge; lia).
  replace (size_t a (co_stack_base c + co_stack_size c) <? sp) with false by (symmetry; apply Z.ltb_ge; lia).
  cbn [negb orb]. rewrite bool_decide_eq_true_2 by done. cbn [negb cos]. rewrite lookup_insert_eq.
  unfold set_cos. cbn [cos mco_current_co t_pages]. rewrite insert_insert_eq. exact Ho.
Qed.

Lemma end_back (m : gmap Z (mco_coro K)) (wt : P) p c k here at_ :
  exists t2 c2,
    _mco_main_end p at_ {| cos := <[p := resumed k here c]> m; mco_current_co := Some p; t_pages := wt |} = (Ok (Switched here), t2) /\
    mco_current_co t2 = None /\ t_pages t2 = wt /\ cos t2 = <[p := c2]> m /\ co_state c2 = MCO_DEAD.
Proof.
  destruct (stop_back m wt p c k here MCO_DEAD at_) as (t2 & c2 & Ho & H1 & H2 & H3 & H4 & _). exists t2, c2. split; [| done].
  unfold _mco_main_end, bind, get_co, put_co. cbn [cos]. rewrite lookup_insert_eq. cbn [cos].
  rewrite lookup_insert_eq. unfold set_cos. cbn [cos mco_current_co t_pages]. rewrite insert_insert_eq. exact Ho.
Qed.

(** C17: What the scheduler assumes of coroutines (Scheduler.v: create, resume,
    yield, end of the handler, destroy, over blocks of a fixed size) is what the
    library does.  Creating one maps the same pages with the same result; a
    suspended one that is resumed from the thread's own stack gets control, and
    when it yields (wirecall_ctx_yield) or ends control is back after that resume, the coroutine
    suspended or dead, no coroutine running and every other one as it was;
    destroying it then gives back its pages. *)
Theorem scheduler_coroutines_sound (w : P) (t : thread) σ f :
  stands_for (pages_live w) t σ -> active σ = [] -> f <> 0 ->
  (let '(rc, sc, w') := Scheduler.mco_create (d_coro_size (mco_desc_init a f 0)) (t_pages t) in
   exists t' p, mco_create a true (Some (mco_desc_init a f 0)) t = (Ok (rc, p), t') /\ t_pages t' = w' /\
     match p, sc with
     | Some p, Some sc => exists c, cos t' !! p = Some c /\ seen_as c p sc
     | None, None => True
     | _, _ => False
     end) /\
  (forall p c here, cos t !! p = Some c -> co_state c = MCO_SUSPENDED ->
   exists k t1, mco_resume (Some p) here t = (Ok (Switched k), t1) /\ mco_running t1 = (Ok (Some p), t1) /\
     (forall sp at_, co_stack_base c <= sp <= size_t a (co_stack_base c + co_stack_size c) ->
      exists t2 c2, wirecall_ctx_yield a sp at_ t1 = (Ok (Some here), t2) /\ mco_current_co t2 = None /\ t_pages t2 = t_pages t /\
        cos t2 = <[p := c2]> (cos t) /\ co_state c2 = MCO_SUSPENDED /\ co_ctx c2 = Some at_) /\
     (forall at_,
      exists t2 c2, _mco_main_end p at_ t1 = (Ok (Switched here), t2) /\ mco_current_co t2 = None /\ t_pages t2 = t_pages t /\
        cos t2 = <[p := c2]> (cos t) /\ co_state c2 = MCO_DEAD)) /\
  (forall p c sc, cos t !! p = Some c -> seen_as c p sc ->
     exists t', mco_destroy (Some p) t = (Ok (Scheduler.mco_destroy (co_coro_size c) sc (t_pages t)).1, t') /\
       t_pages t' = (Scheduler.mco_destroy (co_coro_size c) sc (t_pages t)).2).
Proof.
  intros Hsf Ea Hf. pose proof Hsf as [Hb Hct]. split; [| split].
  - unfold Scheduler.mco_create. rewrite (create_run f 0 t Hf ltac:(lia) ltac:(lia) (bl_pages _ _ _ Hb)).
    destruct (pages_alloc _ (t_pages t)) as [[p|] w'] eqn:Ep; eexists _, _; (split; [done |]); split; try done.
    eexists. split; [apply lookup_insert_eq | done].
  - intros p c here Hc Es. destruct (ct_rest _ _ _ Hct _ _ Hc (or_introl Es)) as [Hprev Hk]. destruct (Hk Es) as [k Hk'].
    exists k. eexists. split; [by eapply switched_resume |]. split; [done |].
    destruct (bl_fields _ _ _ Hb _ _ Hc) as [Hmg _]. destruct t as [m cur wt]. cbn [cos t_pages] in *.
    split; [| intros at_; apply end_back]. intros sp at_ Hsp.
    destruct (yield_back m wt p c k here sp at_ Hmg Hsp) as (t2 & c2 & E & H). exists t2, c2. split; [| exact H].
    unfold wirecall_ctx_yield, mco_running, bind, gets. cbn [mco_current_co]. by rewrite E.
  - intros p c sc Hc [Hblk Hst]. destruct (bl_fields _ _ _ Hb _ _ Hc) as [_ Hdl].
    rewrite (destroy_run _ _ _ Hc Hdl). unfold Scheduler.mco_destroy. rewrite Hst, Hblk.
    destruct (co_state c); eexists; (split; [done |]); done.
Qed.
End Calls.

(** ** Concrete coroutines *)
Lemma x64_arch : X64.a ∈ archs.
Proof. apply list_elem_of_here. Qed.

Lemma block_layout_witness :
  let d := mco_desc_init X64.a 7 0 in
  stack_addr X64.a 4100 d mod 16 = 0 /\ stack_addr X64.a 4100 d + 1024 * 1024 <= 4100 + d_coro_size d /\
  within 4100 (d_coro_size d) (stack_high_ptr X64.a 4100 d) 8 = true.
Proof.
  intros d. destruct (block_layout X64.a x64_arch 7 0 4100 ltac:(lia) ltac:(by vm_compute) ltac:(lia) ltac:(by vm_compute))
    as (_ & _ & _ & H1 & _ & _ & H2 & _ & _ & _ & _ & _ & H3 & _). done.
Defined.

(** a thread with one coroutine, of function 7 *)
Definition toy_thread : @thread toy_pages Z := (run_op X64.a (OCreate 7 0) (no_coroutines toy_pages_empty)).2.

Lemma toy_created : exists σ : @calls Z, stands_for X64.a (pages_live toy_pages_empty) toy_thread σ /\ active σ = [].
Proof.
  destruct (sim_create X64.a x64_arch eq_refl (K := Z) _ 7 0 _ _ (no_calls_stand X64.a (PP := toy_pages_pages) x64_arch eq_refl toy_pages_empty toy_pages_empty_inv))
    as (r & t' & σ' & Hrun & Hs & Hsf); [by vm_compute |].
  assert (E : run_op X64.a (K := Z) (OCreate 7 0) (no_coroutines toy_pages_empty) = (Ok (ACreated MCO_SUCCESS (Some 4096)), toy_thread))
    by (by vm_compute).
  rewrite E in Hrun. injection Hrun as <- <-. exists σ'. split; [done |]. by inversion Hs.
Qed.

(** it is resumed, resumed again while it runs, and destroyed while it runs *)
Lemma coroutines_refine_calls_witness :
  let t0 : @thread toy_pages Z := no_coroutines toy_pages_empty in
  stands_for X64.a (pages_live toy_pages_empty) t0 no_calls /\
  simulated X64.a (pages_live toy_pages_empty) (OCreate 7 0) t0 no_calls /\
  (run_op X64.a (OResume 4096 (At 3)) toy_thread).1 = Ok (ACall (Switched (Start 4096))) /\
  let t1 := (run_op X64.a (OResume 4096 (At 3)) toy_thread).2 in
  (run_op X64.a (OResume 4096 (At 4)) t1).1 = Ok (ACall (Returned MCO_NOT_SUSPENDED)) /\
  (run_op X64.a (ODestroy 4096) t1).1 = Ok (ADestroyed MCO_INVALID_OPERATION) /\
  (run_op X64.a (OYield 4096 100000 (At 5)) t1).1 = Ok (ACall (Switched (At 3))) /\
  (run_op X64.a (OYield 4096 100 (At 5)) t1).1 = Ok (ACall (Returned MCO_STACK_OVERFLOW)).
Proof.
  intros t0. destruct (coroutines_refine_calls X64.a x64_arch eq_refl (PP := toy_pages_pages) (K := Z) toy_pages_empty toy_pages_empty_inv) as [H0 Hs].
  split; [exact H0 |]. split; [by apply Hs; [exact H0 | vm_compute] |]. vm_compute. done.
Defined.

Definition toy_co : mco_coro Z := set_storage 3 ([1; 2; 3] ++ zreplicate 1021 0) (new_co X64.a 7 0 4096).
Lemma storage_refines_bytes_witness :
  let t : @thread toy_pages Z := set_cos {[4096 := toy_co]} toy_thread in
  exists t', mco_push X64.a (Some 4096) (Some [4; 5]) 2 t = (Ok MCO_SUCCESS, t') /\ replaced t 4096 [1; 2; 3; 4; 5] t'.
Proof.
  intros t. destruct (storage_refines_bytes X64.a eq_refl t 4096 toy_co) as (Hpush & _ & _).
  - apply lookup_singleton_eq.
  - constructor; [by vm_compute | | by vm_compute]. change (0 <= 3 <= 1024). lia.
  - destruct (Hpush [4; 5]) as (r & t' & E & Hr); [by vm_compute | by vm_compute |].
    change (zlen (stored toy_co) + zlen [4; 5] <=? co_storage_size toy_co) with true in Hr. destruct Hr as [-> Hr]. by exists t'.
Defined.

Lemma scheduler_coroutines_sound_witness :
  exists k (t1 : @thread toy_pages Z), mco_resume (Some 4096) (At 3) toy_thread = (Ok (Switched k), t1) /\
    exists t2 c2, _mco_main_end 4096 (At 9) t1 = (Ok (Switched (At 3)), t2) /\ mco_current_co t2 = None /\
      cos t2 = <[4096 := c2]> (cos toy_thread) /\ co_state c2 = MCO_DEAD.
Proof.
  destruct toy_created as (σ & Hsf & Ha).
  destruct (scheduler_coroutines_sound X64.a x64_arch eq_refl toy_pages_empty toy_thread σ 7 Hsf Ha ltac:(lia)) as (_ & Hr & _).
  destruct (Hr 4096 (new_co X64.a 7 0 4096) (At 3)) as (k & t1 & E & _ & _ & He); [by vm_compute | done |].
  exists k, t1. split; [done |]. destruct (He (At 9)) as (t2 & c2 & E2 & H1 & _ & H2 & H3).
  exists t2, c2. split; [exact E2 |]. split; [exact H1 |]. split; [exact H2 | exact H3].
Defined.

(** a stack size near the end of the address space: the size of the block wraps to
    144 bytes, the checks pass and the context is written outside the block *)
Lemma stack_size_wraps :
  d_coro_size (mco_desc_init X64.a 7 (2 ^ 64 - 1168)) = 144 /\
  (mco_create X64.a true (Some (mco_desc_init X64.a 7 (2 ^ 64 - 1168))) (no_coroutines (K := Z) toy_pages_empty)).1 = UB.
Proof. vm_compute. done. Qed.
