(* ===== verification/TraceDump.v ===== *)
(** * TraceDump: printing the trace counters (src/trace.c)

    format_duration and wirecall_trace_dump.  The averages are doubles: a double
    is kept as its multiple of 2^-200, which is exact for every value these
    functions compute, conversions and divisions round to 53 significant bits, to
    even on a tie, as IEEE 754 says, and printf rounds the exact value to the
    digits asked for.  The dump is the bytes that are printed. *)

From stdpp Require Import strings pretty.
From Stdlib Require Import Floats.SpecFloat.
From S2P Require Import Prelude Words CString Trace.
#[global] Open Scope Z_scope.

(** ** Doubles *)
Definition SCALE : Z := 2 ^ 200.

(** the integer nearest to n / d, the even one of two *)
Definition rne (n d : Z) : Z :=
  let q := n / d in let r := n mod d in
  if 2 * r <? d then q else if d <? 2 * r then q + 1 else q + q mod 2.

(** n / d rounded to 53 significant bits *)
Definition round53 (n d : Z) : Z := let g := 2 ^ (Z.log2 (n / d) - 52) in g * rne n (d * g).

(** [(double)x] of an unsigned integer, and the quotient of doubles *)
Definition double_of (x : Z) : Z := round53 (x * SCALE) 1.
Definition double_div (x y : Z) : Z := round53 (x * SCALE) y.

(** ** printf *)
Definition pad_left (width : Z) (s : list Z) : list Z := zreplicate (width - zlen s) 32 ++ s.
Definition pad_right (width : Z) (s : list Z) : list Z := s ++ zreplicate (width - zlen s) 32.
(** the last [k] digits, with leading zeros *)
Fixpoint digits (k : nat) (n : Z) : list Z := match k with O => [] | S k => digits k (n / 10) ++ [48 + n mod 10] end.
(** "%.kf": the figures without the point, and the text *)
Definition figures (k : nat) (x : Z) : Z := rne (x * 10 ^ Z.of_nat k) SCALE.
Definition fixed (k : nat) (x : Z) : list Z := decimal (figures k x / 10 ^ Z.of_nat k) ++ [46] ++ digits k (figures k x).

(** ** Durations *)
Definition duration_text (ns : Z) : list Z :=
  if ns <? 1000 then decimal ns ++ cstring " ns"
  else if ns <? 1000000 then fixed 2 (double_div (double_of ns) (double_of 1000)) ++ cstring " us"
  else if ns <? 1000000000 then fixed 2 (double_div (double_of ns) (double_of 1000000)) ++ cstring " ms"
  else fixed 3 (double_div (double_of ns) (double_of 1000000000)) ++ cstring " s".
Definition format_duration (ns : Z) : list Z := snprintf_s 16 (duration_text ns).

(** ** The dump *)
Definition trace_avg_units (i : nat) : option string := match i with 6%nat => Some "evt"%string | _ => None end.
Definition trace_max_units (i : nat) : option string := match i with 6%nat => Some "events"%string | _ => None end.

(** unsigned division *)
Definition udiv (x y : Z) : res Z := if y =? 0 then UB else Ok (x / y).

Definition row (name count avg max : list Z) : list Z :=
  cstring "  " ++ pad_right 22 name ++ [32] ++ pad_left 12 count ++ [32] ++ pad_left 12 avg ++ [32] ++ pad_left 12 max ++ [10].

Definition dump_metric (i : nat) (st : wirecall_trace_stat) : res (list Z) :=
  if st_count st =? 0 then Ok [] else
  if negb (st_is_time st =? 0) then
    let? q := udiv (st_total st) (st_count st) in
    Ok (row (cstring (st_name st)) (decimal (st_count st)) (format_duration q) (format_duration (st_max st)))
  else
    let avg := double_div (double_of (st_total st)) (double_of (st_count st)) in
    match trace_avg_units i, trace_max_units i with
    | Some avg_unit, Some max_unit =>
        let avg_buf := snprintf_s 24 (fixed 2 avg ++ [32] ++ cstring avg_unit) in
        let max_buf := snprintf_s 24 (decimal (st_max st) ++ [32] ++ cstring max_unit) in
        Ok (row (cstring (st_name st)) (decimal (st_count st)) avg_buf max_buf)
    | _, _ => Ok (row (cstring (st_name st)) (decimal (st_count st)) (fixed 2 avg) (decimal (st_max st)))
    end.

Fixpoint dump_metrics (i : nat) (l : list wirecall_trace_stat) : res (list Z) :=
  match l with
  | [] => Ok []
  | st :: l => let? a := dump_metric i st in let? b := dump_metrics (S i) l in Ok (a ++ b)
  end.

Definition WORKER_POLL_EVENTS : nat := 0.
Definition WORKER_ACCEPTS : nat := 1.
Definition WORKER_READS : nat := 2.
Definition WORKER_RPCS : nat := 3.
Definition WORKER_WRITES : nat := 4.
Definition WORKER_ACTIVE : nat := 5.

Definition worker_heading : list Z :=
  cstring "  " ++ pad_left 6 (cstring "worker") ++ [32] ++ pad_left 8 (cstring "polls") ++ [32] ++ pad_left 14 (cstring "evt") ++ [32] ++
  pad_left 10 (cstring "max_ev") ++ [32] ++ pad_left 9 (cstring "accepts") ++ [32] ++ pad_left 9 (cstring "reads") ++ [32] ++
  pad_left 9 (cstring "rpcs") ++ [32] ++ pad_left 9 (cstring "writes") ++ [32] ++ pad_left 12 (cstring "active_avg") ++ [32] ++
  pad_left 12 (cstring "active_max") ++ [10].

(** the row of a worker; [None] when it has done nothing *)
Definition dump_worker (worker : Z) (cs : list wirecall_trace_counter) : res (option (list Z)) :=
  let c i := nth i cs counter_zero in
  let polls_count := tc_count (c WORKER_POLL_EVENTS) in
  let polls_total := tc_total_ns (c WORKER_POLL_EVENTS) in
  let polls_max := tc_max_ns (c WORKER_POLL_EVENTS) in
  let accept_total := tc_total_ns (c WORKER_ACCEPTS) in
  let read_total := tc_total_ns (c WORKER_READS) in
  let wirecall_total := tc_total_ns (c WORKER_RPCS) in
  let write_total := tc_total_ns (c WORKER_WRITES) in
  let active_count := tc_count (c WORKER_ACTIVE) in
  let active_total := tc_total_ns (c WORKER_ACTIVE) in
  let active_max := tc_max_ns (c WORKER_ACTIVE) in
  if (polls_count =? 0) && (accept_total =? 0) && (read_total =? 0) && (wirecall_total =? 0) && (write_total =? 0) && (active_count =? 0)
  then Ok None else
  let? active_avg := (if active_count =? 0 then Ok 0 else udiv active_total active_count) in
  let events_per_poll := if polls_count =? 0 then 0 else double_div (double_of polls_total) (double_of polls_count) in
  Ok (Some (cstring "  " ++ pad_left 6 (decimal worker) ++ [32] ++ pad_left 8 (decimal polls_count) ++ [32] ++
            pad_left 14 (fixed 2 events_per_poll) ++ [32] ++ pad_left 10 (decimal polls_max) ++ [32] ++
            pad_left 9 (decimal accept_total) ++ [32] ++ pad_left 9 (decimal read_total) ++ [32] ++
            pad_left 9 (decimal wirecall_total) ++ [32] ++ pad_left 9 (decimal write_total) ++ [32] ++
            pad_left 12 (format_duration active_avg) ++ [32] ++ pad_left 12 (format_duration active_max) ++ [10])).

(** [printed]: the heading has been printed (printed_workers) *)
Fixpoint dump_workers (worker : Z) (printed : bool) (l : list (list wirecall_trace_counter)) : res (list Z) :=
  match l with
  | [] => Ok []
  | cs :: l =>
      let? r := dump_worker worker cs in
      match r with
      | None => dump_workers (worker + 1) printed l
      | Some line =>
          let? rest := dump_workers (worker + 1) true l in
          Ok ((if printed then [] else [10] ++ cstring "worker trace:" ++ [10] ++ worker_heading) ++ line ++ rest)
      end
  end.

(** where it goes: the caller's file, or stderr *)
Inductive stream := Stderr | File (f : Z).
Definition wirecall_trace_dump (out : option Z) (t : trace) : stream * res (list Z) :=
  (match out with Some f => File f | None => Stderr end,
   let? metrics := dump_metrics 0 (wirecall_trace_snapshot t) in
   let? workers := dump_workers 0 false (worker_counters t) in
   Ok ([10] ++ cstring "trace:" ++ [10] ++ row (cstring "metric") (cstring "count") (cstring "avg") (cstring "max") ++ metrics ++ workers)).

(** ** Doubles agree with the IEEE 754 definition of the Standard Library *)
Definition scaled (f : spec_float) : Z :=
  match f with
  | S754_zero _ => 0
  | S754_finite false m e => Z.pos m * 2 ^ (e + 200)
  | _ => -1
  end.
Definition ieee_of (x : Z) : spec_float := binary_normalize 53 1024 x 0 false.
Example doubles_as_ieee :
  forallb (fun '(x, y) =>
    (double_of x =? scaled (ieee_of x)) && (double_of y =? scaled (ieee_of y)) &&
    (double_div (double_of x) (double_of y) =? scaled (SFdiv 53 1024 (ieee_of x) (ieee_of y))))
    [(0, 7); (1, 3); (2, 3); (999999, 1000); (123456789, 1000000); (2 ^ 53 + 1, 1); (2 ^ 53 + 3, 3); (2 ^ 54 + 6, 5);
     (2 ^ 64 - 1, 1000000000); (2 ^ 64 - 1, 2 ^ 64 - 1); (1, 2 ^ 64 - 1); (2 ^ 64 - 1025, 7); (10 ^ 18, 10 ^ 9); (31, 2 ^ 63 + 2 ^ 10)] = true.
Proof. vm_compute. reflexivity. Qed.

(** ** Rounding *)
Lemma rne_error n d : 0 < d -> Z.abs (2 * (rne n d * d - n)) <= d.
Proof.
  intros Hd. unfold rne. pose proof (Z.div_mod n d ltac:(lia)) as Hn. pose proof (Z.mod_pos_bound n d Hd) as Hr.
  pose proof (Z.mod_pos_bound (n / d) 2 ltac:(lia)) as H2. set (q := n / d) in *. set (r := n mod d) in *. clearbody q r.
  destruct (2 * r <? d) eqn:E1; [nia |]. destruct (d <? 2 * r) eqn:E2; [nia |].
  assert (q mod 2 = 0 \/ q mod 2 = 1) as [-> | ->] by lia; nia.
Qed.

Lemma rne_exact k d : 0 < d -> rne (k * d) d = k.
Proof. intros Hd. unfold rne. rewrite Z.div_mul, Z_mod_mult by lia. destruct (2 * 0 <? d) eqn:E; lia. Qed.

(** half an ulp is at most 2^-53 of the value *)
Lemma round53_error n d : 0 < d -> 2 ^ 52 * d <= n -> Z.abs (round53 n d * d - n) * 2 ^ 53 <= n.
Proof.
  intros Hd Hn. unfold round53. assert (Hq : 2 ^ 52 <= n / d) by (apply Z.div_le_lower_bound; lia).
  pose proof (Z.log2_spec (n / d) ltac:(lia)) as [Hl _]. pose proof (Z.log2_le_mono _ _ Hq) as H52.
  rewrite Z.log2_pow2 in H52 by lia. set (g := 2 ^ (Z.log2 (n / d) - 52)).
  assert (Hg : g * 2 ^ 52 = 2 ^ Z.log2 (n / d)) by (unfold g; rewrite <- Z.pow_add_r by lia; f_equal; lia).
  assert (0 < g) by (unfold g; apply Z.pow_pos_nonneg; lia).
  pose proof (rne_error n (d * g) ltac:(nia)) as He. pose proof (Z.mul_div_le n d ltac:(lia)).
  set (v := rne n (d * g)) in *. clearbody v g. replace (g * v * d - n) with (v * (d * g) - n) by ring.
  assert (2 ^ 53 = 2 * 2 ^ 52) as -> by reflexivity. assert (g * 2 ^ 52 * d <= n) by nia. lia.
Qed.

Lemma double_of_exact x : 0 < x < 2 ^ 53 -> double_of x = x * SCALE.
Proof.
  intros Hx. unfold double_of, round53, SCALE. rewrite Z.div_1_r, Z.mul_1_l.
  rewrite Z.log2_mul_pow2 by lia. pose proof (Z.log2_nonneg x). pose proof (Z.log2_lt_pow2 x 53 ltac:(lia)).
  replace (x * 2 ^ 200) with (x * 2 ^ (52 - Z.log2 x) * 2 ^ (200 + Z.log2 x - 52)).
  - rewrite rne_exact by (apply Z.pow_pos_nonneg; lia). ring.
  - rewrite <- Z.mul_assoc, <- Z.pow_add_r by lia. do 2 f_equal. lia.
Qed.

(** the quotient of two integers that doubles represent *)
Lemma double_div_error n u : 0 < n < 2 ^ 53 -> 0 < u < 2 ^ 53 ->
  Z.abs (double_div (double_of n) (double_of u) * u - n * SCALE) * 2 ^ 53 <= n * SCALE.
Proof.
  intros Hn Hu. unfold double_div. rewrite (double_of_exact n), (double_of_exact u) by done.
  assert (HS : 0 < SCALE) by done. assert (Hbig : 2 ^ 105 <= SCALE) by done.
  assert (Hle : 2 ^ 52 * (u * SCALE) <= n * SCALE * SCALE) by (assert (2 ^ 105 = 2 ^ 52 * 2 ^ 53) by reflexivity; nia).
  pose proof (round53_error (n * SCALE * SCALE) (u * SCALE) ltac:(nia) Hle) as He. set (V := round53 _ _) in *. clearbody V.
  replace (V * (u * SCALE) - n * SCALE * SCALE) with ((V * u - n * SCALE) * SCALE) in He by ring.
  rewrite Z.abs_mul, (Z.abs_eq SCALE) in He by lia. nia.
Qed.

(** its figures *)
Lemma figures_error k n u : 0 < n < 2 ^ 53 -> 0 < u < 2 ^ 53 ->
  let N := figures k (double_div (double_of n) (double_of u)) in
  2 * Z.abs (N * u - n * 10 ^ Z.of_nat k) * 2 ^ 53 <= u * 2 ^ 53 + 2 * n * 10 ^ Z.of_nat k.
Proof.
  intros Hn Hu. cbn zeta. pose proof (double_div_error n u Hn Hu) as He'. unfold figures.
  assert (HS : 0 < SCALE) by done. assert (HP : 0 < 10 ^ Z.of_nat k) by (apply Z.pow_pos_nonneg; lia).
  set (V := double_div _ _) in *. pose proof (rne_error (V * 10 ^ Z.of_nat k) SCALE HS) as Hf. set (N := rne _ _) in *.
  set (P := 10 ^ Z.of_nat k) in *. clearbody V N P.
  assert (Hsum : 2 * (N * u - n * P) * SCALE = 2 * (N * SCALE - V * P) * u + 2 * P * (V * u - n * SCALE)) by ring.
  set (a := N * u - n * P) in *. set (b := N * SCALE - V * P) in *. set (c := V * u - n * SCALE) in *. clearbody a b c.
  apply Z.mul_le_mono_pos_r with (p := SCALE); [done |].
  assert (2 * Z.abs a * SCALE <= SCALE * u + 2 * P * Z.abs c) by nia.
  nia.
Qed.

(** ** Text *)
Lemma zlen_digits k n : zlen (digits k n) = Z.of_nat k.
Proof. revert n. induction k as [|k IH]; intros n; cbn [digits]; [done |]. rewrite zlen_app, IH, zlen_cons, zlen_nil. lia. Qed.
#[local] Hint Rewrite zlen_digits : wlen.

Lemma cstring_String a s : cstring (String a s) = Z.of_nat (Ascii.nat_of_ascii a) :: cstring s.
Proof. done. Qed.

Lemma pretty_N_char_digit x : (x < 10)%N -> Z.of_nat (Ascii.nat_of_ascii (pretty_N_char x)) = 48 + Z.of_N x.
Proof.
  intros Hx.
  assert (x = 0 \/ x = 1 \/ x = 2 \/ x = 3 \/ x = 4 \/ x = 5 \/ x = 6 \/ x = 7 \/ x = 8 \/ x = 9)%N as Hc by lia.
  by repeat (destruct Hc as [-> | Hc]); [..| subst].
Qed.

Lemma pretty_N_go_digits k x s : (x < 10 ^ N.of_nat k)%N ->
  exists j, (j <= k)%nat /\ cstring (pretty_N_go x s) = digits j (Z.of_N x) ++ cstring s.
Proof.
  revert x s. induction k as [|k IH]; intros x s Hx.
  - assert (x = 0)%N as -> by (change (10 ^ N.of_nat 0)%N with 1%N in Hx; lia). by exists 0%nat.
  - destruct (decide (x = 0)%N) as [-> | H0]; [exists 0%nat; split; [lia | done] |].
    rewrite pretty_N_go_step by lia. destruct (IH (x / 10)%N (String (pretty_N_char (x mod 10)) s)) as (j & Hj & ->).
    { apply N.Div0.div_lt_upper_bound. rewrite Nat2N.inj_succ, N.pow_succ_r' in Hx. lia. }
    exists (S j). split; [lia |]. cbn [digits].
    rewrite cstring_String, pretty_N_char_digit, N2Z.inj_div, N2Z.inj_mod, <- app_assoc by (apply N.mod_lt; lia). done.
Qed.

(** "%llu" of a number below 10^k has at most k digits *)
Lemma decimal_digits k n : 0 <= n < 10 ^ Z.of_nat k -> exists j, (j <= Nat.max 1 k)%nat /\ decimal n = digits j n.
Proof.
  intros [H0 Hk]. destruct n as [|p|p]; [exists 1%nat; split; [lia | done] | | lia].
  unfold decimal, pretty, pretty_Z, pretty, pretty_positive, pretty, pretty_N. rewrite decide_False by lia.
  destruct (pretty_N_go_digits k (Npos p) "") as (j & Hj & ->); [| exists j; split; [lia | apply app_nil_r]].
  apply N2Z.inj_lt. rewrite N2Z.inj_pow, nat_N_Z. done.
Qed.

Lemma zlen_decimal k n : 0 <= n < 10 ^ Z.of_nat k -> zlen (decimal n) <= Z.max 1 (Z.of_nat k).
Proof. intros H. destruct (decimal_digits k n H) as (j & Hj & ->). autorewrite with wlen. lia. Qed.

Lemma snprintf_s_fits size s : zlen s < size -> snprintf_s size s = s.
Proof. intros H. apply ztake_ge. lia. Qed.

(** ** The text of a duration *)

(** [N] is the whole number nearest to [n / d], with an error of [e] halves of [1 / d] *)
Definition nearest (N n d e : Z) : Prop := Z.abs (2 * (N * d - n)) <= d + e.

Lemma figures_nearest k n u e : 0 < n < 2 ^ 53 -> 0 < u < 2 ^ 53 -> 2 * n * 10 ^ Z.of_nat k < (e + 1) * 2 ^ 53 ->
  nearest (figures k (double_div (double_of n) (double_of u))) (n * 10 ^ Z.of_nat k) u e.
Proof. intros Hn Hu He. pose proof (figures_error k n u Hn Hu) as Hf. cbn zeta in Hf. unfold nearest. nia. Qed.

(** a text with a point: what it says is the number [N] of units of 10^-k *)
Definition with_point (k : nat) (N : Z) : list Z := decimal (N / 10 ^ Z.of_nat k) ++ [46] ++ digits k N.

Lemma with_point_fits k N j unit : 0 <= N < 10 ^ Z.of_nat (j + k) -> (1 <= j)%nat -> Z.of_nat j + 1 + Z.of_nat k + zlen unit < 16 ->
  snprintf_s 16 (with_point k N ++ unit) = with_point k N ++ unit.
Proof.
  intros HN Hj Hlen. apply snprintf_s_fits. unfold with_point. rewrite Nat2Z.inj_add, Z.pow_add_r in HN by lia.
  assert (HP : 0 < 10 ^ Z.of_nat k) by (apply Z.pow_pos_nonneg; lia).
  assert (Hq : 0 <= N / 10 ^ Z.of_nat k < 10 ^ Z.of_nat j).
  { split; [apply Z.div_pos; lia | apply Z.div_lt_upper_bound; lia]. }
  pose proof (zlen_decimal j _ Hq) as Hd. autorewrite with wlen. lia.
Qed.

(** the figure of a duration of the unit [u] fits the buffer and is the nearest *)
Lemma duration_figure k j u e ns unit : 0 < ns < 2 ^ 53 -> 0 < u < 2 ^ 53 -> 0 <= e < u -> 2 * ns * 10 ^ Z.of_nat k < (e + 1) * 2 ^ 53 ->
  2 * (ns * 10 ^ Z.of_nat k) + u + e < 2 * u * 10 ^ Z.of_nat (j + k) -> (1 <= j)%nat -> Z.of_nat j + 1 + Z.of_nat k + zlen unit < 16 ->
  exists N, snprintf_s 16 (fixed k (double_div (double_of ns) (double_of u)) ++ unit) = with_point k N ++ unit /\
            nearest N (ns * 10 ^ Z.of_nat k) u e.
Proof.
  intros Hns Hu Heu He Hj Hj1 Hlen. pose proof (figures_nearest k ns u e Hns Hu He) as HN.
  exists (figures k (double_div (double_of ns) (double_of u))). split; [| done].
  apply (with_point_fits _ _ j); [| done..]. unfold nearest in HN.
  set (N := figures _ _) in *. set (x := ns * _) in *. set (T := 10 ^ _) in *.
  assert (0 <= x) by (unfold x; assert (0 < 10 ^ Z.of_nat k) by (apply Z.pow_pos_nonneg; lia); nia). clearbody N x T.
  split; apply Z.nlt_ge || apply Z.nle_gt; intros ?; nia.
Qed.

(** A duration of less than 2^53 ns (104 days) is printed whole and right:
    format_duration picks ns, us, ms or s by the size, the text fits its 16 bytes
    with the unit, and what it prints is the nearest hundredth of the unit, or,
    for seconds, the nearest thousandth but for 1000 ns. *)
Theorem format_duration_nearest ns : 0 <= ns < 2 ^ 53 ->
  (ns < 10 ^ 3 -> format_duration ns = decimal ns ++ cstring " ns") /\
  (10 ^ 3 <= ns < 10 ^ 6 -> exists N, format_duration ns = with_point 2 N ++ cstring " us" /\ nearest N (ns * 100) (10 ^ 3) 0) /\
  (10 ^ 6 <= ns < 10 ^ 9 -> exists N, format_duration ns = with_point 2 N ++ cstring " ms" /\ nearest N (ns * 100) (10 ^ 6) 0) /\
  (10 ^ 9 <= ns -> exists N, format_duration ns = with_point 3 N ++ cstring " s" /\ nearest N (ns * 1000) (10 ^ 9) 2000).
Proof.
  intros Hns. unfold format_duration, duration_text. repeat split; intros Hr.
  - rewrite (proj2 (Z.ltb_lt ns 1000)) by lia. apply snprintf_s_fits. pose proof (zlen_decimal 3 ns ltac:(cbn; lia)).
    autorewrite with wlen. change (zlen (cstring " ns")) with 3. lia.
  - rewrite (proj2 (Z.ltb_ge ns 1000)), (proj2 (Z.ltb_lt ns 1000000)) by lia.
    apply (duration_figure 2 4 1000 0); [lia | done | done | change (10 ^ Z.of_nat 2) with (10 ^ 2); lia |
      change (10 ^ Z.of_nat 2) with (10 ^ 2); change (10 ^ Z.of_nat (4 + 2)) with (10 ^ 6); lia | lia | reflexivity].
  - rewrite (proj2 (Z.ltb_ge ns 1000)), (proj2 (Z.ltb_ge ns 1000000)), (proj2 (Z.ltb_lt ns 1000000000)) by lia.
    apply (duration_figure 2 4 1000000 0); [lia | done | done | change (10 ^ Z.of_nat 2) with (10 ^ 2); lia |
      change (10 ^ Z.of_nat 2) with (10 ^ 2); change (10 ^ Z.of_nat (4 + 2)) with (10 ^ 6); lia | lia | reflexivity].
  - rewrite (proj2 (Z.ltb_ge ns 1000)), (proj2 (Z.ltb_ge ns 1000000)), (proj2 (Z.ltb_ge ns 1000000000)) by lia.
    apply (duration_figure 3 9 1000000000 2000); [lia | done | done | change (10 ^ Z.of_nat 3) with (10 ^ 3); lia |
      change (10 ^ Z.of_nat 3) with (10 ^ 3); change (10 ^ Z.of_nat (9 + 3)) with (10 ^ 12); lia | lia | reflexivity].
Qed.
Lemma format_duration_nearest_witness : format_duration 999 = cstring "999 ns" /\ (exists N, format_duration 1234567 = with_point 2 N ++ cstring " ms").
Proof.
  split.
  - assert (H : 0 <= 999 < 2 ^ 53) by lia. destruct (format_duration_nearest 999 H) as (Hns & _). rewrite Hns by lia. reflexivity.
  - assert (H : 0 <= 1234567 < 2 ^ 53) by lia. destruct (format_duration_nearest 1234567 H) as (_ & _ & Hms & _).
    destruct Hms as (N & HN & _); [lia |]. exists N. exact HN.
Defined.

(** from 10^18 ns (31 years) on the 16 bytes do not hold the unit *)
Lemma long_duration_loses_unit :
  format_duration (10 ^ 18 - 10 ^ 6) = cstring "999999999.999 s" /\ format_duration (10 ^ 18) = cstring "1000000000.000 " /\
  format_duration (2 ^ 64 - 1) = cstring "18446744073.710".
Proof. vm_compute. auto. Qed.

(** ** The lines of the dump *)
Definition newlines (l : list Z) : nat := count_occ Z.eq_dec l 10.
Definition no_newline (l : list Z) : Prop := Forall (fun b => b <> 10) l.

Lemma newlines_app l k : newlines (l ++ k) = (newlines l + newlines k)%nat.
Proof. apply count_occ_app. Qed.
Lemma newlines_none l : no_newline l -> newlines l = 0%nat.
Proof. intros H. apply count_occ_not_In. intros Hin. unfold no_newline in H. rewrite List.Forall_forall in H. by apply (H 10). Qed.

Lemma no_newline_app l k : no_newline l -> no_newline k -> no_newline (l ++ k).
Proof. apply Forall_app_2. Qed.
Lemma no_newline_ztake n l : no_newline l -> no_newline (ztake n l).
Proof. apply Forall_take. Qed.
Lemma no_newline_snprintf size l : no_newline l -> no_newline (snprintf_s size l).
Proof. apply no_newline_ztake. Qed.
Lemma no_newline_spaces n : no_newline (zreplicate n 32).
Proof. by apply Forall_replicate. Qed.
Lemma no_newline_digits k n : no_newline (digits k n).
Proof.
  revert n. induction k as [|k IH]; intros n; cbn [digits]; [constructor |]. apply no_newline_app; [apply IH |].
  repeat constructor. pose proof (Z.mod_pos_bound n 10). lia.
Qed.
Lemma no_newline_decimal n : no_newline (decimal n).
Proof.
  assert (Hpos : forall m, 0 <= m -> no_newline (decimal m)).
  { intros m Hm. destruct (decimal_digits (Z.to_nat (Z.log2 (m + 1) + 1)) m) as (j & _ & ->); [| apply no_newline_digits].
    split; [done |]. pose proof (Z.log2_nonneg (m + 1)). pose proof (Z.log2_spec (m + 1) ltac:(lia)) as [_ Hs].
    rewrite Z2Nat.id by lia. apply Z.lt_trans with (2 ^ (Z.log2 (m + 1) + 1)); [lia |]. apply Z.pow_lt_mono_l; lia. }
  destruct (decide (0 <= n)) as [H0 | H0]; [by apply Hpos |]. destruct n as [|p|p]; [lia | lia |].
  unfold decimal, pretty, pretty_Z. change ("-" +:+ pretty p)%string with (String (Ascii.ascii_of_nat 45) (pretty p)).
  rewrite cstring_String. constructor; [done |]. apply (Hpos (Z.pos p)). done.
Qed.
Lemma no_newline_char b : b <> 10 -> no_newline [b].
Proof. by repeat constructor. Qed.
Lemma no_newline_pad_left w l : no_newline l -> no_newline (pad_left w l).
Proof. intros. by apply no_newline_app; [apply no_newline_spaces |]. Qed.
Lemma no_newline_pad_right w l : no_newline l -> no_newline (pad_right w l).
Proof. intros. by apply no_newline_app; [| apply no_newline_spaces]. Qed.

Create HintDb lines.
#[export] Hint Resolve no_newline_app no_newline_snprintf no_newline_digits no_newline_decimal no_newline_pad_left no_newline_pad_right : lines.
(** a literal *)
#[export] Hint Extern 1 (no_newline (cstring (String _ _))) => (apply (bool_decide_eq_true_1 _); reflexivity) : lines.
#[export] Hint Extern 1 (no_newline [_]) => (apply no_newline_char; discriminate) : lines.

Lemma no_newline_fixed k x : no_newline (fixed k x).
Proof. unfold fixed. auto 10 with lines. Qed.
#[export] Hint Resolve no_newline_fixed : lines.
Lemma no_newline_duration ns : no_newline (format_duration ns).
Proof. unfold format_duration, duration_text. apply no_newline_snprintf. split_ifs; auto 10 with lines. Qed.
#[export] Hint Resolve no_newline_duration : lines.

Lemma newlines_row name count avg max : no_newline name -> no_newline count -> no_newline avg -> no_newline max ->
  newlines (row name count avg max) = 1%nat.
Proof.
  intros. unfold row. rewrite !app_assoc, newlines_app, newlines_none; [done |]. rewrite <- !app_assoc. auto 10 with lines.
Qed.

Lemma dump_metric_lines i st : no_newline (cstring (st_name st)) ->
  exists l, dump_metric i st = Ok l /\ newlines l = if st_count st =? 0 then 0%nat else 1%nat.
Proof.
  intros Hn. unfold dump_metric, udiv. destruct (st_count st =? 0) eqn:E; [by exists [] |].
  destruct (negb (st_is_time st =? 0)); cbn [res_bind].
  - eexists. split; [done |]. apply newlines_row; auto with lines.
  - unfold trace_avg_units, trace_max_units. repeat case_match; simplify_eq; eexists; (split; [done |]);
      apply newlines_row; auto 10 with lines.
Qed.

(** the metrics and the workers that have something to show *)
Definition counted (st : wirecall_trace_stat) : bool := negb (st_count st =? 0).
Definition worked (cs : list wirecall_trace_counter) : bool :=
  let c i := nth i cs counter_zero in
  existsb (fun x => negb (x =? 0))
    [tc_count (c WORKER_POLL_EVENTS); tc_total_ns (c WORKER_ACCEPTS); tc_total_ns (c WORKER_READS); tc_total_ns (c WORKER_RPCS);
     tc_total_ns (c WORKER_WRITES); tc_count (c WORKER_ACTIVE)].

Lemma dump_metrics_lines i l : Forall (fun st => no_newline (cstring (st_name st))) l ->
  exists text, dump_metrics i l = Ok text /\ newlines text = length (List.filter counted l).
Proof.
  intros Hl. revert i. induction Hl as [|st l Hst _ IH]; intros i; cbn [dump_metrics]; [by exists [] |].
  destruct (dump_metric_lines i st Hst) as (a & -> & Ha). destruct (IH (S i)) as (b & -> & Hb). cbn [res_bind].
  eexists. split; [done |]. rewrite newlines_app, Ha, Hb. cbn [List.filter]. unfold counted at 2. by destruct (st_count st =? 0).
Qed.

Lemma dump_worker_lines w cs :
  if worked cs then exists l, dump_worker w cs = Ok (Some l) /\ newlines l = 1%nat else dump_worker w cs = Ok None.
Proof.
  unfold worked, dump_worker, udiv. cbn [existsb]. rewrite orb_false_r, <- !negb_andb, !andb_assoc.
  match goal with |- context [negb ?b] => destruct b eqn:E; cbn [negb] end; [done |].
  destruct (tc_count (nth WORKER_ACTIVE cs counter_zero) =? 0); cbn [res_bind]; eexists; (split; [done |]);
    rewrite !app_assoc, newlines_app, newlines_none by (rewrite <- !app_assoc; auto 30 with lines); done.
Qed.

Lemma newlines_heading : newlines ([10] ++ cstring "worker trace:" ++ [10] ++ worker_heading) = 3%nat.
Proof. reflexivity. Qed.

Lemma dump_workers_lines w printed l : let n := length (List.filter worked l) in
  exists text, dump_workers w printed l = Ok text /\ newlines text = (n + if printed || (n =? 0)%nat then 0 else 3)%nat.
Proof.
  cbn zeta. revert w printed. induction l as [|cs l IH]; intros w printed; cbn [dump_workers List.filter].
  { exists []. split; [done |]. by destruct printed. }
  pose proof (dump_worker_lines w cs) as Hw. destruct (worked cs).
  - destruct Hw as (line & -> & Hl). destruct (IH (w + 1) true) as (rest & -> & Hr). cbn [res_bind]. eexists. split; [done |].
    rewrite !newlines_app, Hl, Hr. cbn [length]. destruct printed; [cbn; lia |]. rewrite newlines_heading. cbn. lia.
  - rewrite Hw. cbn [res_bind]. apply IH.
Qed.

Lemma snapshot_names t : Forall (fun st => no_newline (cstring (st_name st))) (wirecall_trace_snapshot t).
Proof.
  unfold wirecall_trace_snapshot. assert (Hn : Forall (fun s => no_newline (cstring s)) trace_names) by (repeat constructor; done).
  revert Hn. generalize trace_is_time as times, (counters t) as cs. induction trace_names as [|n names IH]; intros times cs Hn; [by destruct times |].
  inversion Hn; subst. destruct times as [|i times]; [constructor |]. destruct cs as [|c cs]; constructor; auto.
Qed.

(** A dump of any state of the counters runs to its end without a division by
    zero, and what it prints is one line for each metric and for each worker
    that has something to show, the lines of the two headings apart, the second
    of which is printed when a worker is: no name, number or unit breaks a line. *)
Theorem trace_dump_lines out t :
  let metrics := length (List.filter counted (wirecall_trace_snapshot t)) in
  let workers := length (List.filter worked (worker_counters t)) in
  exists text, wirecall_trace_dump out t = (match out with Some f => File f | None => Stderr end, Ok text) /\
    newlines text = (3 + metrics + workers + if (workers =? 0)%nat then 0 else 3)%nat.
Proof.
  cbn zeta. unfold wirecall_trace_dump.
  destruct (dump_metrics_lines 0 _ (snapshot_names t)) as (metrics & -> & Hm).
  destruct (dump_workers_lines 0 false (worker_counters t)) as (workers & -> & Hw). cbn [res_bind]. eexists. split; [done |].
  rewrite !newlines_app, Hm, Hw. cbn [orb]. change (newlines (cstring "trace:")) with 0%nat. change (newlines [10]) with 1%nat.
  rewrite newlines_row by auto with lines. lia.
Qed.
