(* ===== verification/AsyncDemo.v ===== *)
(** * AsyncDemo: the job queue of the asynchronous example (src/demos/async/server.c)

    The handler async_add puts a job, which is a variable of its own coroutine's
    stack, into a queue, and yields until it is done; a thread, queue_worker,
    takes the jobs out, adds the numbers and marks them done.  A pointer to a job
    is a number, [q_jobs] are the stack frames that exist, and an access to any
    other frame is undefined.  What the mutex covers is one step; between steps
    the handlers, the thread and the one that stops the queue interleave freely,
    pthread_cond_wait may wake up for no reason, and a signal wakes it. *)

From S2P Require Import Prelude Words Payload.
From stdpp Require Import list gmap.
#[global] Open Scope Z_scope.

(** ** Data *)
Record async_job := { job_a : Z; job_b : Z; job_result : Z; job_done : bool; job_next : option nat }.
Definition set_next (n : option nat) (j : async_job) : async_job :=
  {| job_a := job_a j; job_b := job_b j; job_result := job_result j; job_done := job_done j; job_next := n |}.
Definition set_result (r : Z) (j : async_job) : async_job :=
  {| job_a := job_a j; job_b := job_b j; job_result := r; job_done := job_done j; job_next := job_next j |}.
Definition set_done (j : async_job) : async_job :=
  {| job_a := job_a j; job_b := job_b j; job_result := job_result j; job_done := true; job_next := job_next j |}.

(** where the thread is: about to test the loop of queue_pop with the mutex
    held; asleep in pthread_cond_wait; with a job, before its result is stored;
    before [done] is; returned *)
Inductive worker_phase := WTest | WWait | WJob (j : nat) | WStored (j : nat) | WExit.
#[global] Instance worker_phase_eq_dec : EqDecision worker_phase.
Proof. solve_decision. Defined.

Record async_queue := {
  q_jobs : gmap nat async_job;
  q_head : option nat;
  q_tail : option nat;
  q_stopping : bool;
  q_worker : worker_phase;
  (** the jobs in the order they were pushed and popped, and the answers *)
  q_pushed : list nat;
  q_popped : list nat;
  q_returned : list (Z * Z * Z);
}.
(** memset in queue_start, and the thread that has just been created *)
Definition queue_empty : async_queue :=
  {| q_jobs := ∅; q_head := None; q_tail := None; q_stopping := false; q_worker := WTest; q_pushed := []; q_popped := []; q_returned := [] |}.

Definition with_jobs (jobs : gmap nat async_job) (q : async_queue) : async_queue :=
  {| q_jobs := jobs; q_head := q_head q; q_tail := q_tail q; q_stopping := q_stopping q; q_worker := q_worker q;
     q_pushed := q_pushed q; q_popped := q_popped q; q_returned := q_returned q |}.
Definition with_worker (w : worker_phase) (q : async_queue) : async_queue :=
  {| q_jobs := q_jobs q; q_head := q_head q; q_tail := q_tail q; q_stopping := q_stopping q; q_worker := w;
     q_pushed := q_pushed q; q_popped := q_popped q; q_returned := q_returned q |}.
Definition with_list (head tail : option nat) (q : async_queue) : async_queue :=
  {| q_jobs := q_jobs q; q_head := head; q_tail := tail; q_stopping := q_stopping q; q_worker := q_worker q;
     q_pushed := q_pushed q; q_popped := q_popped q; q_returned := q_returned q |}.
Definition with_stopping (q : async_queue) : async_queue :=
  {| q_jobs := q_jobs q; q_head := q_head q; q_tail := q_tail q; q_stopping := true; q_worker := q_worker q;
     q_pushed := q_pushed q; q_popped := q_popped q; q_returned := q_returned q |}.
Definition with_history (pushed popped : list nat) (returned : list (Z * Z * Z)) (q : async_queue) : async_queue :=
  {| q_jobs := q_jobs q; q_head := q_head q; q_tail := q_tail q; q_stopping := q_stopping q; q_worker := q_worker q;
     q_pushed := pushed; q_popped := popped; q_returned := returned |}.

(** ** Operations *)

(** a write through a job pointer *)
Definition store_job (p : nat) (f : async_job -> async_job) (q : async_queue) : res async_queue :=
  match q_jobs q !! p with Some j => Ok (with_jobs (<[p := f j]> (q_jobs q)) q) | None => UB end.

(** pthread_cond_signal and pthread_cond_broadcast: one thread waits at most *)
Definition cond_wake (q : async_queue) : async_queue := match q_worker q with WWait => with_worker WTest q | _ => q end.

Definition queue_push (p : nat) (q : async_queue) : res async_queue :=
  let? q := store_job p (set_next None) q in
  let? q := match q_tail q with
            | Some t => store_job t (set_next (Some p)) q
            | None => Ok (with_list (Some p) (q_tail q) q)
            end in
  let q := with_list (q_head q) (Some p) q in
  Ok (cond_wake (with_history (q_pushed q ++ [p]) (q_popped q) (q_returned q) q)).

(** queue_pop from the test of its loop on *)
Definition queue_pop (q : async_queue) : res async_queue :=
  match q_head q with
  | None => if negb (q_stopping q) then Ok (with_worker WWait q) else Ok (with_worker WExit q)
  | Some p =>
      match q_jobs q !! p with
      | None => UB
      | Some job =>
          let tail := match job_next job with None => None | Some _ => q_tail q end in
          Ok (with_worker (WJob p) (with_list (job_next job) tail (with_history (q_pushed q) (q_popped q ++ [p]) (q_returned q) q)))
      end
  end.

(** the sum of two int64_t, which must be one *)
Definition i64_add (a b : Z) : res Z := if (- 2 ^ 63 <=? a + b) && (a + b <? 2 ^ 63) then Ok (a + b) else UB.

(** one step of the thread; nothing while it waits and after it has returned *)
Definition queue_worker (q : async_queue) : res async_queue :=
  match q_worker q with
  | WTest => queue_pop q
  | WJob p =>
      match q_jobs q !! p with
      | None => UB
      | Some job =>
          let? r := i64_add (job_a job) (job_b job) in
          let? q := store_job p (set_result r) q in
          Ok (with_worker (WStored p) q)
      end
  | WStored p => let? q := store_job p set_done q in Ok (with_worker WTest q)
  | WWait | WExit => Err
  end.

(** the arguments async_add accepts *)
Definition async_args (args : list wirecall_value) : option (Z * Z) :=
  match args with [VI64 a; VI64 b] => Some (a, b) | _ => None end.

(** async_add up to its loop: [p] is where its variable [job] is *)
Definition async_add_start (p : nat) (a b : Z) (q : async_queue) : res async_queue :=
  match q_jobs q !! p with
  | Some _ => Err
  | None => queue_push p (with_jobs (<[p := {| job_a := a; job_b := b; job_result := 0; job_done := false; job_next := None |}]> (q_jobs q)) q)
  end.
(** one turn of its loop: it yields, or returns the result and its frame ends *)
Definition async_add_poll (p : nat) (q : async_queue) : res async_queue :=
  match q_jobs q !! p with
  | None => Err
  | Some job =>
      if negb (job_done job) then Ok q
      else Ok (with_history (q_pushed q) (q_popped q) (q_returned q ++ [(job_a job, job_b job, job_result job)]) (with_jobs (delete p (q_jobs q)) q))
  end.

(** queue_stop up to pthread_join *)
Definition queue_stop (q : async_queue) : async_queue := cond_wake (with_stopping q).

Inductive queue_action :=
| QAdd (p : nat) (args : list wirecall_value)
| QPoll (p : nat)
| QWorker
| QSpurious
| QStop
(** wirecall_server_destroy frees the stack of a handler that has not returned *)
| QKill (p : nat).

(** [Err]: the action is not possible in this state *)
Definition qstep (act : queue_action) (q : async_queue) : res async_queue :=
  match act with
  | QAdd p args => match async_args args with None => Ok q | Some (a, b) => async_add_start p a b q end
  | QPoll p => async_add_poll p q
  | QWorker => queue_worker q
  | QSpurious => match q_worker q with WWait => Ok (with_worker WTest q) | _ => Err end
  | QStop => Ok (queue_stop q)
  | QKill p => match q_jobs q !! p with Some _ => Ok (with_jobs (delete p (q_jobs q)) q) | None => Err end
  end.
Fixpoint qrun (l : list queue_action) (q : async_queue) : res async_queue :=
  match l with [] => Ok q | act :: l => let? q := qstep act q in qrun l q end.

(** *** Starting *)

(** the mutex, the condition variable and the thread that exist *)
Record queue_objects := { has_mutex : bool; has_cond : bool; has_thread : bool }.
Definition no_objects : queue_objects := {| has_mutex := false; has_cond := false; has_thread := false |}.
Definition mutex_init (o : queue_objects) : queue_objects := {| has_mutex := true; has_cond := has_cond o; has_thread := has_thread o |}.
Definition mutex_destroy (o : queue_objects) : queue_objects := {| has_mutex := false; has_cond := has_cond o; has_thread := has_thread o |}.
Definition cond_init (o : queue_objects) : queue_objects := {| has_mutex := has_mutex o; has_cond := true; has_thread := has_thread o |}.
Definition cond_destroy (o : queue_objects) : queue_objects := {| has_mutex := has_mutex o; has_cond := false; has_thread := has_thread o |}.
Definition thread_create (o : queue_objects) : queue_objects := {| has_mutex := has_mutex o; has_cond := has_cond o; has_thread := true |}.
Definition thread_join (o : queue_objects) : queue_objects := {| has_mutex := has_mutex o; has_cond := has_cond o; has_thread := false |}.

(** queue_start with the results of its three calls, and queue_stop from
    pthread_join on *)
Definition queue_start (mutex_rc cond_rc thread_rc : Z) (o : queue_objects) : Z * queue_objects :=
  if negb (mutex_rc =? 0) then (-1, o) else
  let o := mutex_init o in
  if negb (cond_rc =? 0) then (-1, mutex_destroy o) else
  let o := cond_init o in
  if negb (thread_rc =? 0) then (-1, mutex_destroy (cond_destroy o)) else (0, thread_create o).
Definition queue_stop_objects (o : queue_objects) : queue_objects := mutex_destroy (cond_destroy (thread_join o)).

(** what is left of the queue when the loop of main has ended: the server, with
    the handlers in [suspended], is destroyed, then the queue is stopped *)
Definition main_exit (suspended : list nat) : list queue_action := map QKill suspended ++ [QStop].

(** ** The linked list *)
Fixpoint chain (jobs : gmap nat async_job) (p : option nat) (l : list nat) : Prop :=
  match l with
  | [] => p = None
  | x :: l => p = Some x /\ exists job, jobs !! x = Some job /\ chain jobs (job_next job) l
  end.

Lemma chain_ext jobs jobs' p l : (forall x, x ∈ l -> job_next <$> jobs' !! x = job_next <$> jobs !! x) ->
  chain jobs p l -> chain jobs' p l.
Proof.
  revert p. induction l as [|x l IH]; intros p Hx; cbn [chain]; [done |]. intros (-> & job & Hj & Hc). split; [done |].
  pose proof (Hx x ltac:(left)) as Hn. rewrite Hj in Hn. destruct (jobs' !! x) as [job'|] eqn:E; [| done].
  injection Hn as Hn. exists job'. split; [done |]. rewrite Hn. apply IH; [| done]. intros y Hy. apply Hx. by right.
Qed.

Lemma chain_live jobs p l x : chain jobs p l -> x ∈ l -> is_Some (jobs !! x).
Proof.
  revert p. induction l as [|y l IH]; intros p Hc Hx; [by apply not_elem_of_nil in Hx |].
  destruct Hc as (-> & job & Hj & Hc). apply elem_of_cons in Hx as [-> | Hx]; [by exists job | by eapply IH].
Qed.

Lemma queue_chain_insert jobs p l x job : x ∉ l -> chain jobs p l -> chain (<[x := job]> jobs) p l.
Proof. intros Hx. apply chain_ext. intros y Hy. rewrite lookup_insert_ne; [done | by intros ->]. Qed.
Lemma chain_delete jobs p l x : x ∉ l -> chain jobs p l -> chain (delete x jobs) p l.
Proof. intros Hx. apply chain_ext. intros y Hy. rewrite lookup_delete_ne; [done | by intros ->]. Qed.

(** linking a job behind the last one *)
Lemma chain_snoc jobs p l t jt x jx : NoDup l -> x ∉ l -> chain jobs p l -> last l = Some t -> jobs !! t = Some jt ->
  jobs !! x = Some jx -> job_next jx = None -> chain (<[t := set_next (Some x) jt]> jobs) p (l ++ [x]).
Proof.
  intros Hnd Hx Hc Ht Hjt Hjx Hn. revert p Hnd Hx Hc Ht. induction l as [|y l IH]; intros p Hnd Hx Hc Ht; [done |].
  apply NoDup_cons in Hnd as [Hy Hnd]. apply not_elem_of_cons in Hx as [Hxy Hx]. destruct Hc as (-> & job & Hj & Hc).
  cbn [chain app]. split; [done |]. destruct l as [|z l].
  - injection Ht as ->. eexists. rewrite lookup_insert_eq. split; [done |]. cbn. split; [done |].
    exists jx. by rewrite lookup_insert_ne by done.
  - assert (t ∈ z :: l) as Htl by by apply last_Some_elem_of. exists job.
    rewrite lookup_insert_ne by (intros ->; done). split; [done |]. by apply IH.
Qed.

(** ** The invariant *)

(** the job the thread has *)
Definition held (w : worker_phase) : list nat := match w with WJob p | WStored p => [p] | _ => [] end.
Definition sum_ok (job : async_job) : Prop := - 2 ^ 63 <= job_a job + job_b job < 2 ^ 63.
(** a job that is done has its sum, the others are those in [l] *)
Definition job_ok (l : list nat) (p : nat) (job : async_job) : Prop :=
  sum_ok job /\ if job_done job then job_result job = job_a job + job_b job /\ p ∉ l else p ∈ l.

(** [l] are the jobs that wait, the first to be popped first *)
Record queue_inv (l : list nat) (q : async_queue) : Prop := {
  qi_chain : chain (q_jobs q) (q_head q) l;
  qi_tail : q_tail q = last l;
  qi_nodup : NoDup (l ++ held (q_worker q));
  qi_order : q_pushed q = q_popped q ++ l;
  qi_jobs : map_Forall (job_ok (l ++ held (q_worker q))) (q_jobs q);
  qi_held : Forall (fun p => is_Some (q_jobs q !! p)) (held (q_worker q));
  qi_stored : match q_worker q with
              | WStored p => forall job, q_jobs q !! p = Some job -> job_result job = job_a job + job_b job
              | WWait => l = [] /\ q_stopping q = false
              | WExit => q_stopping q = true
              | _ => True
              end;
  qi_returned : Forall (fun '(a, b, r) => r = a + b) (q_returned q);
}.

Lemma queue_empty_inv : queue_inv [] queue_empty.
Proof. split; cbn; try done; by constructor. Qed.

(** a change of one job that keeps what [job_ok] sees of it *)
Lemma jobs_change (l : list nat) (p : nat) (f : async_job -> async_job) job (jobs : gmap nat async_job) : jobs !! p = Some job -> (job_ok l p job -> job_ok l p (f job)) ->
  map_Forall (job_ok l) jobs -> map_Forall (job_ok l) (<[p := f job]> jobs).
Proof. intros Hj Hf H. apply map_Forall_insert_2; [apply Hf; by apply (H p) | done]. Qed.

Lemma live_insert (jobs : gmap nat async_job) (p : nat) (job : async_job) (l : list nat) : Forall (fun p => is_Some (jobs !! p)) l -> Forall (fun x => is_Some (<[p := job]> jobs !! x)) l.
Proof. intros H. eapply Forall_impl; [exact H |]. intros x Hx. apply lookup_insert_is_Some'. by right. Qed.

(** a job at the end of the list: what is left of queue_push *)
Lemma pushed_inv l p q jobs hd : queue_inv l q -> p ∉ l ++ held (q_worker q) ->
  chain jobs hd (l ++ [p]) -> map_Forall (job_ok ((l ++ [p]) ++ held (q_worker q))) jobs ->
  Forall (fun p => is_Some (jobs !! p)) (held (q_worker q)) ->
  (forall x, x ∈ held (q_worker q) -> jobs !! x = q_jobs q !! x) ->
  queue_inv (l ++ [p]) (cond_wake (with_history (q_pushed q ++ [p]) (q_popped q) (q_returned q) (with_list hd (Some p) (with_jobs jobs q)))).
Proof.
  intros [Hc Ht Hnd Ho Hj Hh Hs Hr] Hp Hc' Hj' Hl' Hsame.
  assert (Hnd' : NoDup ((l ++ [p]) ++ held (q_worker q))).
  { rewrite <- app_assoc. apply NoDup_app in Hnd as (H1 & H2 & H3). apply not_elem_of_app in Hp as [Hp1 Hp2].
    apply NoDup_app. split; [done |]. split; [intros x Hx [-> | Hx']%elem_of_cons; [done | by apply (H2 x)] | by apply NoDup_cons]. }
  assert (Hlast : Some p = last (l ++ [p])) by by rewrite last_snoc.
  unfold cond_wake. destruct q as [jobs0 hd0 tl0 st w pu po re]; cbn in *.
  destruct w as [| | j | j |]; split; cbn in *; try done; try (by rewrite Ho, app_assoc).
  intros job Hjob. apply Hs. rewrite <- Hjob. symmetry. apply Hsame. by left.
Qed.

(** a handler adds its job *)
Lemma add_inv l p a b q : queue_inv l q -> q_jobs q !! p = None -> - 2 ^ 63 <= a + b < 2 ^ 63 ->
  exists q', async_add_start p a b q = Ok q' /\ queue_inv (l ++ [p]) q'.
Proof.
  intros Hinv Hp Hsum. pose proof Hinv as [Hc Ht Hnd Ho Hj Hh Hs Hr].
  assert (Hpl : p ∉ l ++ held (q_worker q)).
  { intros [Hin | Hin]%elem_of_app; [destruct (chain_live _ _ _ _ Hc Hin) as [? ?] | rewrite Forall_forall in Hh; destruct (Hh p Hin) as [? ?]]; congruence. }
  pose proof Hpl as [Hp1 Hp2]%not_elem_of_app.
  unfold async_add_start, queue_push, store_job. rewrite Hp. cbn [with_jobs q_jobs]. rewrite lookup_insert_eq. cbn [res_bind with_jobs q_jobs q_tail].
  rewrite insert_insert_eq. unfold set_next at 1; cbn [job_a job_b job_result job_done].
  set (j0 := {| job_a := a |}).
  assert (Hok : map_Forall (job_ok ((l ++ [p]) ++ held (q_worker q))) (<[p := j0]> (q_jobs q))).
  { apply map_Forall_insert_2; [split; [done |]; cbn; set_solver |]. intros x jx Hx. specialize (Hj x jx Hx) as [Hsx Hjx]. split; [done |].
    assert (x <> p) by congruence. destruct (job_done jx); set_solver. }
  assert (Hlive : Forall (fun x => is_Some (<[p := j0]> (q_jobs q) !! x)) (held (q_worker q))) by exact (live_insert _ p j0 _ Hh).
  assert (Hsame : forall x, x ∈ held (q_worker q) -> <[p := j0]> (q_jobs q) !! x = q_jobs q !! x).
  { intros x Hx. apply lookup_insert_ne. by intros ->. }
  rewrite Ht. destruct (last l) as [t|] eqn:El.
  - assert (Htl : t ∈ l) by by apply last_Some_elem_of.
    destruct (chain_live _ _ _ _ Hc Htl) as [jt Hjt]. assert (t <> p) by by intros ->.
    rewrite lookup_insert_ne, Hjt by done. cbn [res_bind]. eexists. split; [reflexivity |].
    apply (pushed_inv l p q _ (q_head q)); try done.
    + eapply chain_snoc; try done; [by apply NoDup_app in Hnd as [? _] | by apply queue_chain_insert | by rewrite lookup_insert_ne | apply lookup_insert_eq | done].
    + apply jobs_change; [by rewrite lookup_insert_ne | done | done].
    + exact (live_insert _ t _ _ Hlive).
    + intros x Hx. rewrite lookup_insert_ne; [by apply Hsame |]. intros e. apply NoDup_app in Hnd as (_ & Hd & _). apply (Hd x); [by rewrite <- e | done].
  - apply last_None in El. subst l. cbn [res_bind]. eexists. split; [reflexivity |].
    apply (pushed_inv [] p q _ (Some p)); try done. cbn. split; [done |]. exists j0. by rewrite lookup_insert_eq.
Qed.

(** a step of the thread that is awake *)
Lemma pop_inv l q : queue_inv l q -> q_worker q = WTest ->
  exists l' q', queue_worker q = Ok q' /\ queue_inv l' q' /\
    match l with
    | [] => l' = [] /\ q_worker q' = (if q_stopping q then WExit else WWait)
    | p :: l => l' = l /\ q_worker q' = WJob p
    end /\ q_stopping q' = q_stopping q /\ q_pushed q' = q_pushed q.
Proof.
  intros [Hc Ht Hnd Ho Hj Hh Hs Hr] Hw. unfold queue_worker. rewrite Hw. unfold queue_pop.
  destruct q as [jobs hd tl st w pu po re]; cbn in *. subst w. cbn in *. destruct l as [|p l]; cbn in Hc.
  - subst hd. destruct st; cbn; eexists [], _; (split; [reflexivity |]); (split; [by split | done]).
  - destruct Hc as (-> & job & Hjob & Hc). rewrite Hjob. eexists l, _. split; [reflexivity |]. split; [| done].
    rewrite app_nil_r in Hnd, Hj. split; cbn; try done.
    + destruct l as [|x l]; cbn in Hc; [by rewrite Hc |]. destruct Hc as (-> & _). by rewrite Ht.
    + by rewrite (NoDup_Permutation_proper _ (p :: l)) by (by rewrite (comm _ l)).
    + by rewrite Ho, <- app_assoc.
    + intros x jx Hx. specialize (Hj x jx Hx) as [? Hjx]. split; [done |]. destruct (job_done jx); set_solver.
    + constructor; [by exists job | constructor].
Qed.

Lemma compute_inv l p q : queue_inv l q -> q_worker q = WJob p ->
  exists q', queue_worker q = Ok q' /\ queue_inv l q' /\ q_worker q' = WStored p /\ q_stopping q' = q_stopping q /\ q_pushed q' = q_pushed q.
Proof.
  intros [Hc Ht Hnd Ho Hj Hh Hs Hr] Hw. unfold queue_worker. rewrite Hw. unfold store_job, i64_add.
  destruct q as [jobs hd tl st w pu po re]; cbn in *. subst w. cbn in *. pose proof (Forall_inv Hh) as [job Hjob]. rewrite Hjob.
  pose proof (Hj p job Hjob) as [Hsum Hp]. unfold sum_ok in Hsum.
  rewrite (proj2 (Z.leb_le _ _)), (proj2 (Z.ltb_lt _ _)) by lia. cbn [andb res_bind].
  eexists. split; [reflexivity |]. split; [| done]. split; cbn; try done.
  - apply chain_ext with (jobs := jobs); [| done]. intros x _. destruct (decide (x = p)) as [-> | ?].
    + by rewrite lookup_insert_eq, Hjob.
    + by rewrite lookup_insert_ne.
  - apply jobs_change; [done | | done]. intros [? Hd]. split; [done |]. cbn. by destruct (job_done job); [destruct Hd; set_solver |].
  - exact (live_insert _ p _ _ Hh).
  - intros job'. rewrite lookup_insert_eq. by intros [= <-].
Qed.

Lemma finish_inv l p q : queue_inv l q -> q_worker q = WStored p ->
  exists q', queue_worker q = Ok q' /\ queue_inv l q' /\ q_worker q' = WTest /\ q_stopping q' = q_stopping q /\ q_pushed q' = q_pushed q.
Proof.
  intros [Hc Ht Hnd Ho Hj Hh Hs Hr] Hw. unfold queue_worker. rewrite Hw. unfold store_job.
  destruct q as [jobs hd tl st w pu po re]; cbn in *. subst w. cbn in *. pose proof (Forall_inv Hh) as [job Hjob]. rewrite Hjob.
  apply NoDup_app in Hnd as (Hnd & Hd & _). assert (Hpl : p ∉ l) by (intros Hin; apply (Hd p Hin); by left).
  cbn [res_bind]. eexists. split; [reflexivity |]. split; [| done]. split; cbn; rewrite ?app_nil_r; try done.
  - by apply queue_chain_insert.
  - intros x jx [[<- <-] | [Hne Hx]]%lookup_insert_Some.
    + destruct (Hj p job Hjob) as [? ?]. split; [done |]. cbn. split; [by apply Hs | done].
    + destruct (Hj x jx Hx) as [? Hjx]. split; [done |]. destruct (job_done jx); set_solver.
Qed.

(** a turn of a handler's loop *)
Lemma poll_inv l p job q : queue_inv l q -> q_jobs q !! p = Some job ->
  exists q', async_add_poll p q = Ok q' /\ queue_inv l q'.
Proof.
  intros Hinv Hjob. pose proof Hinv as [Hc Ht Hnd Ho Hj Hh Hs Hr]. unfold async_add_poll. rewrite Hjob.
  pose proof (Hj p job Hjob) as [_ Hp]. destruct (job_done job) eqn:Ed; cbn [negb]; [| by exists q].
  destruct Hp as [Hsum [Hpl Hph]%not_elem_of_app]. eexists. split; [reflexivity |].
  destruct q as [jobs hd tl st w pu po re]; cbn in *. split; cbn; try done.
  - by apply chain_delete.
  - intros x jx [Hne Hx]%lookup_delete_Some. by apply Hj.
  - rewrite Forall_forall in Hh |- *. intros x Hx. apply lookup_delete_is_Some. split; [by intros <- | by apply Hh].
  - destruct w; try done. intros jx [Hne Hx]%lookup_delete_Some. by apply Hs.
  - apply Forall_app. split; [done |]. by constructor.
Qed.

Lemma spurious_inv l q : queue_inv l q -> q_worker q = WWait -> queue_inv l (with_worker WTest q).
Proof. intros [Hc Ht Hnd Ho Hj Hh Hs Hr] Hw. destruct q as [jobs hd tl st w pu po re]; cbn in *. subst w. by split. Qed.

Lemma stop_inv l q : queue_inv l q -> queue_inv l (queue_stop q).
Proof.
  intros [Hc Ht Hnd Ho Hj Hh Hs Hr]. destruct q as [jobs hd tl st w pu po re]; cbn in *.
  unfold queue_stop, cond_wake. by destruct w; split.
Qed.

(** a frame is gone whose job is done: the thread does not come back to it *)
Lemma kill_inv l p job q : queue_inv l q -> q_jobs q !! p = Some job -> job_done job = true -> queue_inv l (with_jobs (delete p (q_jobs q)) q).
Proof.
  intros [Hc Ht Hnd Ho Hj Hh Hs Hr] Hjob Ed. pose proof (Hj p job Hjob) as [_ Hp]. rewrite Ed in Hp.
  destruct Hp as [Hsum [Hpl Hph]%not_elem_of_app]. destruct q as [jobs hd tl st w pu po re]; cbn in *. split; cbn; try done.
  - by apply chain_delete.
  - intros x jx [Hne Hx]%lookup_delete_Some. by apply Hj.
  - rewrite Forall_forall in Hh |- *. intros x Hx. apply lookup_delete_is_Some. split; [by intros <- | by apply Hh].
  - destruct w; try done. intros jx [Hne Hx]%lookup_delete_Some. by apply Hs.
Qed.

(** what the example's surroundings see to: the sum a handler is asked for is an
    int64_t, and no frame is freed whose job the thread has not done *)
Definition action_ok (q : async_queue) (act : queue_action) : Prop :=
  match act with
  | QAdd _ args => forall a b, async_args args = Some (a, b) -> - 2 ^ 63 <= a + b < 2 ^ 63
  | QKill p => forall job, q_jobs q !! p = Some job -> job_done job = true
  | _ => True
  end.
Fixpoint actions_ok (q : async_queue) (acts : list queue_action) : Prop :=
  match acts with [] => True | act :: acts => action_ok q act /\ forall q', qstep act q = Ok q' -> actions_ok q' acts end.

Lemma qstep_inv l act q : queue_inv l q -> action_ok q act ->
  match qstep act q with Ok q' => exists l', queue_inv l' q' | Err => True | UB => False end.
Proof.
  intros Hinv Ha. destruct act as [p args | p | | | | p]; cbn [qstep].
  - destruct (async_args args) as [[a b]|] eqn:E; [| by exists l]. destruct (q_jobs q !! p) eqn:Ep.
    { unfold async_add_start. by rewrite Ep. }
    destruct (add_inv l p a b q Hinv Ep (Ha a b E)) as (q' & -> & H). by eexists.
  - destruct (q_jobs q !! p) as [job|] eqn:Ep; [| unfold async_add_poll; by rewrite Ep].
    destruct (poll_inv l p job q Hinv Ep) as (q' & -> & H). by eexists.
  - destruct (q_worker q) as [| | p | p |] eqn:Ew.
    + destruct (pop_inv l q Hinv Ew) as (l' & q' & -> & H & _). by eexists.
    + unfold queue_worker. by rewrite Ew.
    + destruct (compute_inv l p q Hinv Ew) as (q' & -> & H & _). by eexists.
    + destruct (finish_inv l p q Hinv Ew) as (q' & -> & H & _). by eexists.
    + unfold queue_worker. by rewrite Ew.
  - destruct (q_worker q) eqn:Ew; try done. exists l. by apply spurious_inv.
  - exists l. by apply stop_inv.
  - destruct (q_jobs q !! p) as [job|] eqn:Ep; [| done]. exists l. eapply kill_inv; [done | exact Ep | by apply Ha].
Qed.

Lemma qrun_inv acts l q : queue_inv l q -> actions_ok q acts ->
  match qrun acts q with Ok q' => exists l', queue_inv l' q' | Err => True | UB => False end.
Proof.
  revert l q. induction acts as [|act acts IH]; intros l q Hinv; cbn [qrun actions_ok]; [by exists l |]. intros [Hact Hrest].
  pose proof (qstep_inv l act q Hinv Hact) as Hs. destruct (qstep act q) as [q'| |]; cbn [res_bind]; [| done | done].
  destruct Hs as [l' Hl']. apply (IH l'); [done | by apply Hrest].
Qed.

Lemma qrun_app a b q : qrun (a ++ b) q = let? q' := qrun a q in qrun b q'.
Proof. revert q. induction a as [|act a IH]; intros q; [done |]. cbn [app qrun]. destruct (qstep act q); cbn [res_bind]; [apply IH | done | done]. Qed.

(** the thread, left alone, does every job and goes to sleep or returns *)
Definition all_done (q : async_queue) : Prop := map_Forall (fun _ job => job_done job = true) (q_jobs q).

Lemma inv_all_done q : queue_inv [] q -> held (q_worker q) = [] -> all_done q /\ q_popped q = q_pushed q.
Proof.
  intros [Hc Ht Hnd Ho Hj Hh Hs Hr] Hw. rewrite Hw in Hj. split; [| by rewrite Ho, app_nil_r].
  intros p job Hjob. destruct (Hj p job Hjob) as [_ Hd]. destruct (job_done job); [done | by apply not_elem_of_nil in Hd].
Qed.

Lemma drain_test l q : queue_inv l q -> q_worker q = WTest ->
  exists n q', qrun (replicate n QWorker) q = Ok q' /\ queue_inv [] q' /\ q_worker q' = (if q_stopping q then WExit else WWait) /\ q_pushed q' = q_pushed q.
Proof.
  revert q. induction l as [|p l IH]; intros q Hinv Hw; destruct (pop_inv _ q Hinv Hw) as (l1 & q1 & E1 & H1 & (-> & W1) & S1 & P1).
  - exists 1%nat, q1. cbn [replicate qrun qstep]. rewrite E1. cbn. by rewrite W1.
  - destruct (compute_inv l p q1 H1 W1) as (q2 & E2 & H2 & W2 & S2 & P2).
    destruct (finish_inv l p q2 H2 W2) as (q3 & E3 & H3 & W3 & S3 & P3).
    destruct (IH q3 H3 W3) as (n & q4 & E4 & H4 & W4 & P4). exists (3 + n)%nat, q4.
    cbn [replicate Nat.add qrun qstep]. rewrite E1. cbn [res_bind]. rewrite E2. cbn [res_bind]. rewrite E3. cbn [res_bind].
    rewrite E4. split; [done |]. split; [done |]. split; [by rewrite W4, S3, S2, S1 | congruence].
Qed.

Lemma drain l q : queue_inv l q -> q_worker q <> WExit ->
  exists n q', qrun (replicate n QWorker) q = Ok q' /\ queue_inv [] q' /\ q_worker q' = (if q_stopping q then WExit else WWait) /\ q_pushed q' = q_pushed q.
Proof.
  intros Hinv Hw. destruct (q_worker q) as [| | p | p |] eqn:Ew; [| | | | done].
  - by apply (drain_test l).
  - pose proof (qi_stored l q Hinv) as Hs. rewrite Ew in Hs. destruct Hs as [-> Hst]. exists 0%nat, q. by rewrite Ew, Hst.
  - destruct (compute_inv l p q Hinv Ew) as (q1 & E1 & H1 & W1 & S1 & P1). destruct (finish_inv l p q1 H1 W1) as (q2 & E2 & H2 & W2 & S2 & P2).
    destruct (drain_test l q2 H2 W2) as (n & q3 & E3 & H3 & W3 & P3). exists (2 + n)%nat, q3.
    cbn [replicate Nat.add qrun qstep]. rewrite E1. cbn [res_bind]. rewrite E2. cbn [res_bind]. rewrite E3.
    split; [done |]. split; [done |]. split; [by rewrite W3, S2, S1 | congruence].
  - destruct (finish_inv l p q Hinv Ew) as (q1 & E1 & H1 & W1 & S1 & P1).
    destruct (drain_test l q1 H1 W1) as (n & q2 & E2 & H2 & W2 & P2). exists (1 + n)%nat, q2.
    cbn [replicate Nat.add qrun qstep]. rewrite E1. cbn [res_bind]. rewrite E2. split; [done |]. split; [done |]. split; [by rewrite W2, S1 | congruence].
Qed.

(** *** The end of main *)

(** the server is destroyed: the frames of the handlers are freed, whatever they wait for *)
Lemma kill_all suspended q : NoDup suspended -> (forall p, p ∈ suspended <-> is_Some (q_jobs q !! p)) ->
  qrun (map QKill suspended) q = Ok (with_jobs ∅ q).
Proof.
  revert q. induction suspended as [|p suspended IH]; intros q Hnd Hin; cbn [map qrun].
  - replace ∅ with (q_jobs q); [by destruct q |]. apply map_eq. intros p. rewrite lookup_empty. apply eq_None_not_Some. intros Hp%Hin. set_solver.
  - apply NoDup_cons in Hnd as [Hp Hnd]. destruct (proj1 (Hin p) ltac:(set_solver)) as [job Hjob]. cbn [qstep]. rewrite Hjob. cbn [res_bind].
    rewrite IH; [done | done |]. intros x. cbn. rewrite lookup_delete_is_Some, <- Hin, elem_of_cons. split; [intros Hx; split; [by intros -> | by right] | naive_solver].
Qed.

Lemma all_done_idle l q : queue_inv l q -> all_done q -> l = [] /\ held (q_worker q) = [].
Proof.
  intros [Hc Ht Hnd Ho Hj Hh Hs Hr] Hd.
  assert (Hno : forall p, p ∈ l ++ held (q_worker q) -> ~ is_Some (q_jobs q !! p)).
  { intros p Hp [job Hjob]. pose proof (Hj p job Hjob) as [_ H]. rewrite (Hd p job Hjob) in H. by destruct H. }
  split; apply elem_of_nil_inv; intros p Hp.
  - apply (Hno p); [set_solver | by eapply chain_live].
  - apply (Hno p); [set_solver |]. rewrite Forall_forall in Hh. by apply Hh.
Qed.

Lemma exit_safe l q suspended : queue_inv l q -> all_done q -> NoDup suspended -> (forall p, p ∈ suspended <-> is_Some (q_jobs q !! p)) ->
  exists n q', qrun (main_exit suspended ++ replicate n QWorker) q = Ok q' /\ q_worker q' = WExit.
Proof.
  intros Hinv Hd Hnd Hin. destruct (all_done_idle l q Hinv Hd) as [-> Hheld]. unfold main_exit.
  assert (H0 : queue_inv [] (queue_stop (with_jobs ∅ q))).
  { apply stop_inv. destruct Hinv as [Hc Ht Hnd' Ho Hj Hh Hs Hr]. destruct q as [jobs hd tl st w pu po re]; cbn in *. rewrite Hheld in *.
    split; cbn; rewrite ?Hheld; try done. destruct w; try done. }
  assert (Hst : q_stopping (queue_stop (with_jobs ∅ q)) = true) by (destruct q as [jobs hd tl st w pu po re]; unfold queue_stop, cond_wake; cbn; by destruct w).
  destruct (decide (q_worker q = WExit)) as [Hw | Hw].
  - exists 0%nat, (queue_stop (with_jobs ∅ q)). rewrite app_nil_r, qrun_app, (kill_all _ _ Hnd Hin). cbn [res_bind qrun qstep]. split; [done |].
    destruct q as [jobs hd tl st w pu po re]. unfold queue_stop, cond_wake. cbn in *. by subst w.
  - destruct (drain [] _ H0) as (n & q' & E & _ & W & _).
    { destruct q as [jobs hd tl st w pu po re]. unfold queue_stop, cond_wake. cbn in *. by destruct w. }
    rewrite Hst in W. exists n, q'. rewrite <- app_assoc, qrun_app, (kill_all _ _ Hnd Hin). cbn [res_bind app qrun qstep]. by rewrite E.
Qed.

Lemma exit_unsafe l q suspended : queue_inv l q -> q_stopping q = false -> ~ all_done q -> NoDup suspended -> (forall p, p ∈ suspended <-> is_Some (q_jobs q !! p)) ->
  qrun (main_exit suspended ++ [QWorker]) q = UB.
Proof.
  intros Hinv Hst Hd Hnd Hin. unfold main_exit. rewrite <- app_assoc, qrun_app, (kill_all _ _ Hnd Hin). cbn [res_bind app qrun qstep].
  assert (Hbusy : l <> [] \/ held (q_worker q) <> []).
  { destruct l; [| by left]. right. intros Hh. apply Hd. by apply (inv_all_done q). }
  destruct Hinv as [Hc Ht Hnd' Ho Hj Hh Hs Hr]. destruct q as [jobs hd tl st w pu po re]. unfold queue_stop, cond_wake. cbn in *.
  destruct w as [| | p | p |]; cbn in *.
  - destruct Hbusy as [Hl | []]; [| done]. destruct l as [|p l]; [done |]. destruct Hc as (-> & _). done.
  - destruct Hs as [-> _], Hbusy; done.
  - done.
  - done.
  - congruence.
Qed.

(** ** Theorems *)

(** C32: however the handlers, the thread, its wake-ups and queue_stop interleave,
    while no frame is freed whose job is not done and the sums fit: nothing is read
    or written through a dead frame; jobs are taken out in the order they were put
    in, each once; what a handler returns is the sum of its own arguments; and no
    wake-up is lost and no job either, because at every moment some number of
    steps of the thread alone, unless it has returned, brings it to sleep, or to
    its end when the queue is being stopped, with every job done.  The end of main
    frees all frames before it stops the queue: that brings the thread to its end
    if at that moment every job is done, and if one is not, the thread's next step
    uses a freed frame. *)
Theorem async_queue_correct acts : actions_ok queue_empty acts ->
  match qrun acts queue_empty with
  | UB => False
  | Err => True
  | Ok q =>
      (exists waiting, q_pushed q = q_popped q ++ waiting /\ NoDup waiting) /\
      Forall (fun '(a, b, r) => r = a + b) (q_returned q) /\
      (q_worker q = WWait -> all_done q /\ q_stopping q = false) /\
      (q_worker q <> WExit -> exists n q', qrun (replicate n QWorker) q = Ok q' /\ all_done q' /\
         q_popped q' = q_pushed q /\ q_worker q' = if q_stopping q then WExit else WWait) /\
      forall suspended, q_stopping q = false -> NoDup suspended -> (forall p, p ∈ suspended <-> is_Some (q_jobs q !! p)) ->
        (all_done q -> exists n q', qrun (main_exit suspended ++ replicate n QWorker) q = Ok q' /\ q_worker q' = WExit) /\
        (~ all_done q -> qrun (main_exit suspended ++ [QWorker]) q = UB)
  end.
Proof.
  intros Ha. pose proof (qrun_inv acts [] queue_empty queue_empty_inv Ha) as Hi. destruct (qrun acts queue_empty) as [q| |]; [| done | done].
  destruct Hi as [l Hinv]. pose proof Hinv as [Hc Ht Hnd Ho Hj Hh Hs Hr]. split; [exists l; split; [done |]; by apply NoDup_app in Hnd as [? _] |].
  split; [done |]. split; [| split].
  - intros Hw. rewrite Hw in Hs. destruct Hs as [-> Hst]. split; [| done]. apply inv_all_done; [done | by rewrite Hw].
  - intros Hw. destruct (drain l q Hinv Hw) as (n & q' & E & H' & W' & P'). exists n, q'. split; [done |].
    destruct (inv_all_done q' H') as [Hd Hp]; [rewrite W'; by destruct (q_stopping q) |]. split; [done |]. split; [congruence | done].
  - intros suspended Hst Hns Hin. split; intros Hd; [by eapply exit_safe | by eapply exit_unsafe].
Qed.
Definition sample_actions : list queue_action :=
  [QAdd 0 [VI64 20; VI64 22]; QWorker; QAdd 1 [VI64 1; VI64 2]; QWorker; QPoll 0; QWorker; QPoll 0; QWorker; QWorker; QWorker].
Definition sample_queue : async_queue := match qrun sample_actions queue_empty with Ok q => q | _ => queue_empty end.
Lemma async_queue_correct_witness :
  exists q, qrun sample_actions queue_empty = Ok q /\ q_returned q = [(20, 22, 42)] /\ is_Some (q_jobs q !! 1%nat) /\
    exists n q', qrun (main_exit [1%nat] ++ replicate n QWorker) q = Ok q' /\ q_worker q' = WExit.
Proof.
  assert (Ha : actions_ok queue_empty sample_actions).
  { unfold sample_actions. repeat (split; [first [exact I | intros a b [= <- <-]; lia] |]; intros ? E; vm_compute in E; injection E as <-). exact I. }
  pose proof (async_queue_correct _ Ha) as H. set (job1 := {| job_a := 1; job_b := 2; job_result := 3; job_done := true; job_next := None |}).
  assert (E : qrun sample_actions queue_empty = Ok sample_queue) by (by vm_compute). assert (Er : q_returned sample_queue = [(20, 22, 42)]) by (by vm_compute).
  assert (Hst : q_stopping sample_queue = false) by (by vm_compute). assert (Hjobs : q_jobs sample_queue = {[1%nat := job1]}) by (by vm_compute).
  exists sample_queue. split; [exact E |]. split; [exact Er |]. rewrite E in H. revert Hst Hjobs H. generalize sample_queue as q. intros q Hst Hjobs H. destruct H as (_ & _ & _ & _ & Hn).
  split; [rewrite Hjobs, lookup_singleton_eq; by eexists |]. destruct (Hn [1%nat] Hst) as [Hs _].
  - apply NoDup_singleton.
  - intros p. rewrite Hjobs, list_elem_of_singleton, lookup_singleton_is_Some. done.
  - apply Hs. intros p job. rewrite Hjobs. by intros [_ <-]%lookup_singleton_Some.
Defined.

(** the end of main with a handler that waits, which the thread then uses *)
Lemma shutdown_use_after_free a b (phase : nat) : (phase <= 1)%nat ->
  qrun ([QAdd 0 [VI64 a; VI64 b]] ++ replicate phase QWorker ++ main_exit [0%nat] ++ [QWorker]) queue_empty = UB.
Proof. intros H. destruct phase as [|[|phase]]; [reflexivity | reflexivity | lia]. Qed.

(** stopped first, the thread ends with every job done *)
Lemma shutdown_other_order acts q : actions_ok queue_empty acts -> qrun acts queue_empty = Ok q -> q_worker q <> WExit ->
  exists n q', qrun (QStop :: replicate n QWorker) q = Ok q' /\ all_done q' /\ q_worker q' = WExit.
Proof.
  intros Ha E Hw. pose proof (qrun_inv acts [] queue_empty queue_empty_inv Ha) as Hi. rewrite E in Hi. destruct Hi as [l Hinv].
  destruct (drain l (queue_stop q)) as (n & q' & E' & H' & W' & P'); [by apply stop_inv | |].
  - destruct q as [jobs hd tl st w pu po re]. unfold queue_stop, cond_wake. cbn in *. by destruct w.
  - assert (Hst : q_stopping (queue_stop q) = true) by (destruct q as [jobs hd tl st w pu po re]; unfold queue_stop, cond_wake; cbn; by destruct w).
    rewrite Hst in W'. exists n, q'. cbn [qrun qstep]. cbn [res_bind]. rewrite E'. split; [done |]. split; [| done].
    destruct (inv_all_done q' H'); [by rewrite W' | done].
Qed.

(** starting fails without leaving anything behind, and stopping undoes it *)
Lemma queue_start_balance m c t : let '(rc, o) := queue_start m c t no_objects in
  if rc =? 0 then queue_stop_objects o = no_objects else o = no_objects.
Proof. unfold queue_start. by destruct (m =? 0), (c =? 0), (t =? 0). Qed.
