(* ===== verification/WinPlatform.v ===== *)
(** * WinPlatform: the Windows half of include/platform.h, and what src/client.c has for it

    Winsock's recv and send take an int where the library has a size_t, and have
    error codes of their own.  A kernel of this kind, the class [Winsock], becomes
    one the library can work with, an instance of [Net] (Net.v), through the
    wrappers of the header; so what Client.v proves of the client holds over
    Windows sockets too, but for two places where the client's own code differs,
    which are below: it sends its two buffers one at a time, and it counts on
    WSAStartup.  The clock, the number of processors and the creation of threads
    follow. *)

From S2P Require Import Prelude Words Memory Payload Net Client.
#[global] Open Scope Z_scope.

Definition INT_MAX : Z := 2 ^ 31 - 1.
Definition WSAEINTR : Z := 10004.
Definition WSAEWOULDBLOCK : Z := 10035.
Definition INVALID_SOCKET : Z := 2 ^ 64 - 1.

(** the calls whose Windows form differs; the others are those of a [Net].
    Handles are below 2^31, so that [socket_int] below applies to them *)
Class Winsock (K : Type) `{NN : Net K} := {
  ws_recv : Z -> Z -> K -> recv_answer * K;
  ws_send : Z -> list Z -> K -> send_answer * K;
  ws_accept : Z -> K -> fd_answer * K;
  law_ws_recv : forall fd len n r n', 0 < len <= INT_MAX -> fd ∈ net_open n -> ws_recv fd len n = (r, n') ->
    match r with
    | RBytes bs =>
        0 < zlen bs <= len /\ bytes_ok bs /\ net_open n' = net_open n /\
        (forall d, net_received d n' = if decide (d = fd) then net_received d n ++ bs else net_received d n) /\
        (forall d, net_sent d n' = net_sent d n) /\ (net_work n' < net_work n)%nat
    | REof => net_quiet n n'
    | RErr e => net_quiet n n' /\ 10000 <= e /\ (e = WSAEINTR -> (net_work n' < net_work n)%nat)
    end;
  law_ws_send : forall fd data n r n', zlen data <= INT_MAX -> fd ∈ net_open n -> ws_send fd data n = (r, n') ->
    match r with
    | SSent k =>
        0 <= k <= zlen data /\ net_open n' = net_open n /\ (forall d, net_received d n' = net_received d n) /\
        (forall d, net_sent d n' = if decide (d = fd) then net_sent d n ++ ztake k data else net_sent d n) /\
        (net_work n' <= net_work n)%nat
    | SErr e => net_quiet n n' /\ 10000 <= e /\ (e = WSAEINTR -> (net_work n' < net_work n)%nat)
    end;
  law_ws_accept : forall lfd n r n', lfd ∈ net_open n -> ws_accept lfd n = (r, n') ->
    match r with
    | FOk fd =>
        0 <= fd /\ (fd ∉ net_open n) /\ net_open n' = {[fd]} ∪ net_open n /\
        net_received fd n' = [] /\ net_sent fd n' = [] /\
        (forall d, d <> fd -> net_received d n' = net_received d n /\ net_sent d n' = net_sent d n) /\
        (net_work n' < net_work n)%nat
    | FErr e => net_quiet n n' /\ 10000 <= e /\ (e = WSAEINTR -> (net_work n' < net_work n)%nat)
    end;
}.

Module Win.

(** ** Sockets *)
Definition wirecall_socket_interrupted (error : Z) : bool := error =? WSAEINTR.
Definition wirecall_socket_would_block (error : Z) : bool := error =? WSAEWOULDBLOCK.

(** [(int)(uintptr_t)socket], and [(SOCKET)(uintptr_t)fd] *)
Definition int_of (x : Z) : Z := let x := x mod 2 ^ 32 in if x <? 2 ^ 31 then x else x - 2 ^ 32.
Definition socket_of (fd : Z) : Z := fd mod 2 ^ 64.
(** what wirecall_socket_create and wirecall_socket_accept make of a SOCKET *)
Definition socket_result (socket_fd : Z) : Z := if socket_fd =? INVALID_SOCKET then -1 else int_of socket_fd.

(** the size that is passed on *)
Definition chunk (len : Z) : Z := if INT_MAX <? len then INT_MAX else len.

(** an error as the rest of the library, whose two tests are those of Net.v, sees it *)
Definition errno_of (e : Z) : Z :=
  if wirecall_socket_interrupted e then EINTR else if wirecall_socket_would_block e then EAGAIN else e.

Section Sockets.
Context `{WS : Winsock K}.
Definition wirecall_socket_recv (fd len : Z) (n : K) : recv_answer * K :=
  match ws_recv fd (chunk len) n with
  | (RErr e, n) => (RErr (errno_of e), n)
  | r => r
  end.
Definition wirecall_socket_send (fd : Z) (data : list Z) (n : K) : send_answer * K :=
  match ws_send fd (ztake (chunk (zlen data)) data) n with
  | (SErr e, n) => (SErr (errno_of e), n)
  | r => r
  end.
Definition wirecall_socket_accept (fd : Z) (n : K) : fd_answer * K :=
  match ws_accept fd n with
  | (FErr e, n) => (FErr (errno_of e), n)
  | r => r
  end.
End Sockets.

(** ** The clock and the processors *)

(** the answers of QueryPerformanceCounter and QueryPerformanceFrequency *)
Definition wirecall_time_ns (counter frequency : option Z) : Z :=
  match counter, frequency with
  | Some counter, Some frequency =>
      let seconds := u64 (Z.quot counter frequency) in
      let remainder := u64 (Z.rem counter frequency) in
      u64 (u64 (seconds * 1000000000) + u64 (remainder * 1000000000) / u64 frequency)
  | _, _ => 0
  end.
(** GetSystemInfo's dwNumberOfProcessors *)
Definition wirecall_cpu_count (dwNumberOfProcessors : Z) : Z := if dwNumberOfProcessors =? 0 then 1 else u32 dwNumberOfProcessors.

(** ** Threads *)
Section Threads.
Context `{HH : Host} `{HP : Heap W}.

(** wirecall_thread_start, a block and its two fields *)
Record thread_start := { ts_block : Z; ts_fn : Z; ts_arg : Z }.
Definition sizeof_thread_start : Z := 2 * size_bits / 8.

(** _beginthreadex's answer is [handle]; the result is the thread's handle and
    what the thread starts from *)
Definition wirecall_thread_create (fn arg handle : Z) : M W (Z * thread_start) := fun h =>
  match heap_alloc sizeof_thread_start h with
  | (None, h) => (Err, h)
  | (Some p, h) => if handle =? 0 then (Err, heap_free p h) else (Ok (handle, {| ts_block := p; ts_fn := fn; ts_arg := arg |}), h)
  end.
(** what the new thread does first: the function and the argument it goes on with *)
Definition wirecall_thread_entry (start : thread_start) : M W (Z * Z) := fun h => (Ok (ts_fn start, ts_arg start), heap_free (ts_block start) h).
(** WaitForSingleObject's answer is [wait]; the handle is closed whatever it is *)
Definition wirecall_thread_join (thread : option Z) (wait_ok : bool) (handles : gset Z) : res unit * gset Z :=
  match thread with
  | None => (Err, handles)
  | Some t => (if wait_ok then Ok tt else Err, handles ∖ {[t]})
  end.
End Threads.

(** ** The client *)
Section Client.
Context `{HH : Host} `{HP : Heap W} `{NN : Net K}.

(** send_iov_full: one buffer at a time *)
Fixpoint send_loop (fuel : nat) (fd : Z) (iov : list (list Z)) : M K unit :=
  match iov with
  | [] => ret tt
  | local0 :: _ =>
      match fuel with
      | O => ub
      | S fuel => fun n =>
          match net_send fd local0 n with
          | (SSent k, n) => if 0 <? k then send_loop fuel fd (iov_advance k iov) n else (Err, n)
          | (SErr e, n) => if Net.wirecall_socket_interrupted e then send_loop fuel fd iov n else (Err, n)
          end
      end
  end.
Definition send_iov_full (fd : Z) (iov : list (list Z)) : M K unit :=
  if (zlen iov <=? 0) || (2 <? zlen iov) then fail
  else fun n => send_loop (length (concat iov) + net_work n) fd iov n.

(** the client's world and how often WSAStartup has succeeded without a WSACleanup *)
Record wworld := { ww_world : @cworld W K; ww_started : Z; ww_ready : bool }.
Definition on_world {A} (m : M cworld A) : M wworld A := fun s =>
  let '(r, w) := m (ww_world s) in (r, {| ww_world := w; ww_started := ww_started s; ww_ready := ww_ready s |}).
(** [client->wsa_ready], and the calls *)
Definition set_wsa (started : Z) (ready : bool) : M wworld unit :=
  modify (fun s => {| ww_world := ww_world s; ww_started := started; ww_ready := ready |}).

(** WSACleanup comes just before the client's block is freed; [wsa_ready] is read from it *)
Definition wirecall_client_close : M wworld unit :=
  state <- gets (fun s => cw_client (ww_world s)) ;;
  match state with
  | None => ret tt
  | Some _ =>
      ready <- gets ww_ready ;;
      started <- gets ww_started ;;
      on_world Client.wirecall_client_close ;;;
      set_wsa (if ready then started - 1 else started) false
  end.

(** [startup]: wirecall_socket_startup's answer *)
Definition wirecall_client_connect (startup : Z) (out_client : bool) (host port : option (list Z)) : M wworld unit :=
  match port with
  | None => fail
  | Some port =>
      if negb out_client then fail
      else
        block <- on_world (on_heap (fun h => let '(b, h) := heap_calloc 1 sizeof_wirecall_client h in (Ok b, h))) ;;
        match block with
        | None => fail
        | Some p =>
            if negb (startup =? 0) then on_world (on_heap (modify (heap_free p))) ;;; fail
            else
              started <- gets ww_started ;;
              set_wsa (started + 1) true ;;;
              on_world (modify (fun s => {| cw_client := Some (p, new_client); cw_heap := cw_heap s; cw_net := cw_net s |})) ;;;
              res <- on_world (on_net (fun n => let '(r, n) := net_getaddrinfo host port false n in (Ok r, n))) ;;
              match res with
              | None => wirecall_client_close ;;; fail
              | Some res =>
                  fd <- on_world (on_net (connect_loop res)) ;;
                  match fd with
                  | None => wirecall_client_close ;;; fail
                  | Some fd => on_world (c <- deref ;; put_client (set_fd fd c))
                  end
              end
        end
  end.
End Client.
End Win.

(** ** Theorems *)
Lemma chunk_bounds len : 0 < len -> 0 < Win.chunk len <= INT_MAX /\ Win.chunk len <= len.
Proof. intros H. unfold Win.chunk. destruct (INT_MAX <? len) eqn:E; unfold INT_MAX in *; lia. Qed.
Lemma chunk_prefix {A} (data : list A) : zlen (ztake (Win.chunk (zlen data)) data) <= INT_MAX /\
  forall k, 0 <= k <= zlen (ztake (Win.chunk (zlen data)) data) -> k <= zlen data /\ ztake k (ztake (Win.chunk (zlen data)) data) = ztake k data.
Proof.
  pose proof (zlen_nonneg data). assert (Hc : 0 <= Win.chunk (zlen data) <= zlen data /\ Win.chunk (zlen data) <= INT_MAX).
  { unfold Win.chunk. destruct (INT_MAX <? zlen data) eqn:E; unfold INT_MAX in *; lia. }
  rewrite zlen_ztake by lia. split; [lia |]. intros k Hk. split; [lia |]. unfold ztake. rewrite take_take. f_equal. lia.
Qed.

(** the two tests of an error agree *)
Lemma errno_of_tests e : 10000 <= e ->
  Net.wirecall_socket_interrupted (Win.errno_of e) = Win.wirecall_socket_interrupted e /\
  Net.wirecall_socket_would_block (Win.errno_of e) = Win.wirecall_socket_would_block e.
Proof.
  intros He. unfold Win.errno_of, Win.wirecall_socket_interrupted, Win.wirecall_socket_would_block,
    Net.wirecall_socket_interrupted, Net.wirecall_socket_would_block, WSAEINTR, WSAEWOULDBLOCK, EINTR, EAGAIN, EWOULDBLOCK.
  destruct (Z.eqb_spec e 10004) as [-> | ?]; [done |]. destruct (Z.eqb_spec e 10035) as [-> | ?]; [done |].
  rewrite !(proj2 (Z.eqb_neq e _)) by lia. done.
Qed.
Lemma errno_of_interrupted e : 10000 <= e -> Win.errno_of e = EINTR -> e = WSAEINTR.
Proof.
  intros He Hi. destruct (errno_of_tests e He) as [Ht _]. rewrite Hi in Ht. symmetry in Ht. by apply Z.eqb_eq in Ht.
Qed.

(** a handle survives the way through int *)
Lemma socket_int s : 0 <= s < 2 ^ 31 -> Win.socket_result s = s /\ Win.socket_of (Win.socket_result s) = s.
Proof.
  intros Hs. unfold Win.socket_result, INVALID_SOCKET, Win.int_of, Win.socket_of. rewrite (proj2 (Z.eqb_neq _ _)) by lia.
  cbn zeta. rewrite (Z.mod_small s (2 ^ 32)) by lia. rewrite (proj2 (Z.ltb_lt _ _)) by lia. by rewrite Z.mod_small by lia.
Qed.

(** Winsock through the wrappers is a network like the others *)
Section WinNet.
Context `{WS : Winsock K}.

Lemma win_recv_law fd size n r n' : 0 < size -> fd ∈ net_open n -> Win.wirecall_socket_recv fd size n = (r, n') ->
  match r with
  | RBytes bs =>
      0 < zlen bs <= size /\ bytes_ok bs /\ net_open n' = net_open n /\
      (forall d, net_received d n' = if decide (d = fd) then net_received d n ++ bs else net_received d n) /\
      (forall d, net_sent d n' = net_sent d n) /\ (net_work n' < net_work n)%nat
  | REof => net_quiet n n'
  | RErr e => net_quiet n n' /\ (e = EINTR -> (net_work n' < net_work n)%nat)
  end.
Proof.
  intros Hs Hfd. destruct (chunk_bounds size Hs) as [Hc Hle]. unfold Win.wirecall_socket_recv.
  destruct (ws_recv fd (Win.chunk size) n) as [a n1] eqn:E. apply law_ws_recv in E; [| done | done].
  destruct a as [bs | | e]; intros [= <- <-]; [| done |].
  - destruct E as ([? ?] & H). split; [lia | done].
  - destruct E as (Hq & He & Hw). split; [done |]. intros Hi. apply Hw. by apply errno_of_interrupted.
Qed.

Lemma win_send_law fd data n r n' : fd ∈ net_open n -> Win.wirecall_socket_send fd data n = (r, n') ->
  match r with
  | SSent k =>
      0 <= k <= zlen data /\ net_open n' = net_open n /\ (forall d, net_received d n' = net_received d n) /\
      (forall d, net_sent d n' = if decide (d = fd) then net_sent d n ++ ztake k data else net_sent d n) /\
      (net_work n' <= net_work n)%nat
  | SErr e => net_quiet n n' /\ (e = EINTR -> (net_work n' < net_work n)%nat)
  end.
Proof.
  intros Hfd. destruct (chunk_prefix data) as [Hmax Hpre]. unfold Win.wirecall_socket_send.
  destruct (ws_send fd _ n) as [a n1] eqn:E. apply law_ws_send in E; [| done | done].
  destruct a as [k | e]; intros [= <- <-].
  - destruct E as (Hk & Ho & Hr & Hs & Hw). destruct (Hpre k Hk) as [Hk' Ht]. rewrite Ht in Hs. split; [lia | done].
  - destruct E as (Hq & He & Hw). split; [done |]. intros Hi. apply Hw. by apply errno_of_interrupted.
Qed.

Lemma win_accept_law lfd n r n' : lfd ∈ net_open n -> Win.wirecall_socket_accept lfd n = (r, n') ->
  match r with
  | FOk fd =>
      0 <= fd /\ (fd ∉ net_open n) /\ net_open n' = {[fd]} ∪ net_open n /\
      net_received fd n' = [] /\ net_sent fd n' = [] /\
      (forall d, d <> fd -> net_received d n' = net_received d n /\ net_sent d n' = net_sent d n) /\
      (net_work n' < net_work n)%nat
  | FErr e => net_quiet n n' /\ (e = EINTR -> (net_work n' < net_work n)%nat)
  end.
Proof.
  intros Hl. unfold Win.wirecall_socket_accept. destruct (ws_accept lfd n) as [a n1] eqn:E. apply law_ws_accept in E; [| done].
  destruct a as [fd | e]; intros [= <- <-].
  - done.
  - destruct E as (Hq & He & Hw). split; [done |]. intros Hi. apply Hw. by apply errno_of_interrupted.
Qed.

Definition win_net : Net K := {|
  net_recv := Win.wirecall_socket_recv; net_send := Win.wirecall_socket_send; net_accept := Win.wirecall_socket_accept;
  net_socket := net_socket; net_close := net_close; net_connect := net_connect; net_bind := net_bind; net_listen := net_listen;
  net_getfl := net_getfl; net_setfl := net_setfl; net_getsockname := net_getsockname; net_getaddrinfo := net_getaddrinfo;
  net_open := net_open; net_received := net_received; net_sent := net_sent; net_work := net_work;
  law_recv := win_recv_law; law_send := win_send_law; law_accept := win_accept_law;
  law_socket := law_socket; law_close := law_close; law_connect := law_connect; law_bind := law_bind; law_listen := law_listen;
  law_getfl := law_getfl; law_setfl := law_setfl; law_getsockname := law_getsockname; law_getaddrinfo := law_getaddrinfo |}.
End WinNet.

(** ** Sending one buffer at a time *)
Lemma win_send_loop_spec `{Net K} fuel fd iov (n : K) r n' :
  fd ∈ net_open n -> (length (concat iov) + net_work n <= fuel)%nat -> iov = [] \/ concat iov <> [] ->
  Win.send_loop fuel fd iov n = (r, n') ->
  exists bs rest, concat iov = bs ++ rest /\ sends fd bs n n' /\ match r with Ok _ => rest = [] | Err => True | UB => False end.
Proof.
  revert iov n. induction fuel as [|fuel IH]; intros iov n Hfd Hf Hlive.
  - destruct iov as [|b iov]; [intros [= <- <-]; exists [], []; split_and!; [done | apply sends_quiet, quiet_refl | done] |].
    exfalso. destruct Hlive as [? | Hc]; [done |]. destruct (concat (b :: iov)); [done | cbn [length] in Hf; lia].
  - destruct iov as [|b iov]; [intros [= <- <-]; exists [], []; split_and!; [done | apply sends_quiet, quiet_refl | done] |].
    destruct Hlive as [? | Hc]; [done |]. cbn [Win.send_loop]. set (data := concat (b :: iov)) in *.
    destruct (net_send fd b n) as [a n1] eqn:Es. pose proof (law_send _ _ _ _ _ Hfd Es) as Hl. destruct a as [k|e].
    + destruct Hl as (Hk & Ho & Hr & Hs & Hw).
      assert (Hk' : 0 <= k <= zlen data) by (unfold data; cbn [concat]; rewrite zlen_app; pose proof (zlen_nonneg (concat iov)); lia).
      assert (Hb : ztake k b = ztake k data) by (unfold data; cbn [concat]; by rewrite ztake_app_le).
      assert (Hsend : sends fd (ztake k data) n n1) by (constructor; [done | done | by rewrite <- Hb | done]).
      destruct (Z.ltb_spec 0 k) as [Hk0 | Hk0].
      * intros E. pose proof (iov_advance_concat k (b :: iov) Hk') as Hadv. fold data in Hadv.
        apply IH in E as (bs & rest & Eb & Hbs & Hres); [| by rewrite Ho | | apply iov_advance_live; lia].
        -- exists (ztake k data ++ bs), rest. split; [| split; [by eapply sends_trans | done]].
           rewrite <- app_assoc, <- Eb, Hadv. unfold ztake, zdrop. by rewrite take_drop.
        -- rewrite Hadv. pose proof (zlen_zdrop k data Hk') as Hz. unfold zlen in Hz, Hk'. lia.
      * intros [= <- <-]. exists (ztake k data), (zdrop k data). split_and!; [unfold ztake, zdrop; by rewrite take_drop | done | done].
    + destruct Hl as [Hq Hw]. unfold Net.wirecall_socket_interrupted. destruct (Z.eqb_spec e EINTR) as [He | He].
      * intros E. apply IH in E as (bs & rest & Eb & Hbs & Hres); [| by rewrite (quiet_open _ _ _ _ _ _ Hq) | specialize (Hw He); fold data; lia | by right].
        exists bs, rest. split; [done |]. split; [| done]. by apply (sends_trans fd [] bs n n1 n'); [apply sends_quiet |].
      * intros [= <- <-]. exists [], data. split_and!; [done | by apply sends_quiet | done].
Qed.

(** a network of Net.v with Winsock's errors, to evaluate the models *)
Definition wsa_of (e : Z) : Z := if e =? EINTR then WSAEINTR else if e =? EAGAIN then WSAEWOULDBLOCK else 11000 + Z.abs e.
Lemma wsa_of_ok e : 10000 <= wsa_of e /\ (wsa_of e = WSAEINTR -> e = EINTR).
Proof.
  unfold wsa_of, WSAEINTR, WSAEWOULDBLOCK. destruct (Z.eqb_spec e EINTR); [done |]. destruct (e =? EAGAIN); [done |]. split; [lia |]. intros ?. lia.
Qed.

Section NetWinsock.
Context `{NN : Net K}.
Definition net_ws_recv (fd len : Z) (n : K) : recv_answer * K :=
  match net_recv fd len n with (RErr e, n) => (RErr (wsa_of e), n) | r => r end.
Definition net_ws_send (fd : Z) (data : list Z) (n : K) : send_answer * K :=
  match net_send fd data n with (SErr e, n) => (SErr (wsa_of e), n) | r => r end.
Definition net_ws_accept (fd : Z) (n : K) : fd_answer * K :=
  match net_accept fd n with (FErr e, n) => (FErr (wsa_of e), n) | r => r end.

Program Definition net_winsock : Winsock K := {| ws_recv := net_ws_recv; ws_send := net_ws_send; ws_accept := net_ws_accept |}.
Next Obligation.
  intros fd len n r n' Hlen Hfd. unfold net_ws_recv. destruct (net_recv fd len n) as [a n1] eqn:E. apply law_recv in E; [| lia | done].
  destruct a as [bs | | e]; intros [= <- <-]; [done | done |]. destruct E as [Hq Hw]. destruct (wsa_of_ok e). auto.
Qed.
Next Obligation.
  intros fd data n r n' _ Hfd. unfold net_ws_send. destruct (net_send fd data n) as [a n1] eqn:E. apply law_send in E; [| done].
  destruct a as [k | e]; intros [= <- <-]; [done |]. destruct E as [Hq Hw]. destruct (wsa_of_ok e). auto.
Qed.
Next Obligation.
  intros fd n r n' Hfd. unfold net_ws_accept. destruct (net_accept fd n) as [a n1] eqn:E. apply law_accept in E; [| done].
  destruct a as [d | e]; intros [= <- <-]; [done |]. destruct E as [Hq Hw]. destruct (wsa_of_ok e). auto.
Qed.
End NetWinsock.

(** C39: the Windows client sends what the POSIX one does: through recv and send
    of Winsock, whose lengths are ints, and one buffer at a time, send_iov_full
    puts exactly its buffers on the connection, in order, or, when it fails, a
    prefix of them, whatever Winsock takes of each buffer, however long they are
    and however often it interrupts; nothing else of any connection changes. *)
Theorem win_send_exact `{WS : Winsock K} fd iov n r n' :
  fd ∈ net_open n -> concat iov <> [] -> (length iov <= 2)%nat -> Win.send_iov_full (NN := win_net) fd iov n = (r, n') ->
  exists bs rest, concat iov = bs ++ rest /\ net_open n' = net_open n /\
    (forall d, net_sent d n' = if decide (d = fd) then net_sent d n ++ bs else net_sent d n) /\
    (forall d, net_received d n' = net_received d n) /\
    match r with Ok _ => rest = [] | Err => True | UB => False end.
Proof.
  intros Hfd Hne Hlen. unfold Win.send_iov_full.
  replace ((zlen iov <=? 0) || (2 <? zlen iov)) with false.
  - intros E. apply (win_send_loop_spec (H := win_net)) in E; [| done | done | by right].
    destruct E as (bs & rest & Eb & [Ho Hr Hs _] & Hres). exists bs, rest. done.
  - unfold zlen. destruct iov as [|b iov]; [done |]. symmetry. apply orb_false_iff. split; [apply Z.leb_gt | apply Z.ltb_ge]; cbn [length] in *; lia.
Qed.
Lemma win_send_exact_witness :
  let run := Win.send_iov_full (NN := win_net (WS := net_winsock)) 3 sample_iov choppy in
  exists bs rest, concat sample_iov = bs ++ rest /\ net_open run.2 = net_open choppy /\
    (forall d, net_sent d run.2 = if decide (d = 3) then net_sent d choppy ++ bs else net_sent d choppy) /\
    (forall d, net_received d run.2 = net_received d choppy) /\
    match run.1 with Ok _ => rest = [] | Err => True | UB => False end.
Proof.
  cbn zeta. apply (win_send_exact (WS := net_winsock) 3 sample_iov choppy).
  - by_compute.
  - done.
  - cbn. lia.
  - apply surjective_pairing.
Defined.

(** ** WSAStartup and WSACleanup *)
Section Startup.
Context `{HH : Host} `{HP : Heap W} `{NN : Net K}.

(** with WSAStartup's success the client is the one of Client.v *)
Lemma win_close_world (s : @Win.wworld W K) : cw_client (Win.ww_world s) <> None ->
  Win.wirecall_client_close s =
    let '(r, w) := Client.wirecall_client_close (Win.ww_world s) in
    (r, {| Win.ww_world := w;
           Win.ww_started := match r with Ok _ => if Win.ww_ready s then Win.ww_started s - 1 else Win.ww_started s | _ => Win.ww_started s end;
           Win.ww_ready := match r with Ok _ => false | _ => Win.ww_ready s end |}).
Proof.
  intros Hc. unfold Win.wirecall_client_close, bind, gets, Win.on_world, Win.set_wsa, modify.
  destruct (cw_client (Win.ww_world s)); [| done]. by destruct (Client.wirecall_client_close (Win.ww_world s)) as [[[]| |] w].
Qed.

Lemma win_connect_world host port (s : @Win.wworld W K) r w : size_bits = 64 ->
  Client.wirecall_client_connect true host (Some port) (Win.ww_world s) = (r, w) -> Win.ww_ready s = false ->
  Win.wirecall_client_connect 0 true host (Some port) s =
    (r, {| Win.ww_world := w; Win.ww_started := Win.ww_started s + match r with Ok _ => 1 | _ => 0 end;
           Win.ww_ready := match r with Ok _ => true | _ => false end |}).
Proof.
  intros H64 E Hready. destruct s as [[c h n] started ready]. cbn in E, Hready. subst ready.
  unfold Client.wirecall_client_connect in E. unfold Win.wirecall_client_connect, Win.on_world, Win.set_wsa, Win.wirecall_client_close.
  unfold bind, on_heap, on_net, modify, gets in *. cbn [negb Z.eqb cw_client cw_heap cw_net put_heap put_net Win.ww_world Win.ww_started Win.ww_ready] in *.
  destruct (heap_calloc 1 sizeof_wirecall_client h) as [[p|] h1]; cbn in *; [| by injection E as <- <-; rewrite Z.add_0_r].
  destruct (net_getaddrinfo host port false n) as [[res|] n1]; cbn in *; [| injection E as <- <-; do 2 f_equal; lia].
  destruct (connect_loop res n1) as [o n2] eqn:El. apply (connect_loop_spec H64) in El.
  assert (Ho : exists x, o = Ok x) by (destruct El as [[-> _] | (fd & -> & _)]; by eexists). destruct Ho as [[fd|] ->];
    cbn in *; injection E as <- <-; [done |]; do 2 f_equal; lia.
Qed.
End Startup.

(** C40: on Windows too connecting and closing balance, the starts of Winsock
    included: wirecall_client_connect, when WSAStartup fails, when the allocator,
    the resolver or every address does, leaves blocks, descriptors and the number
    of starts as they were; a client that is connected has one start more, and
    closing it gives back that too. *)
Theorem win_connect_balance `{Host} `{Heap W} `{Net K} startup host port (s : @Win.wworld W K) r s1 :
  size_bits = 64 -> cw_client (Win.ww_world s) = None -> Win.ww_ready s = false -> heap_inv (cw_heap (Win.ww_world s)) ->
  Win.wirecall_client_connect startup true host (Some port) s = (r, s1) ->
  let w := Win.ww_world s in let w1 := Win.ww_world s1 in
  (r = Err /\ cw_client w1 = None /\ heap_live (cw_heap w1) = heap_live (cw_heap w) /\ net_open (cw_net w1) = net_open (cw_net w) /\
     Win.ww_started s1 = Win.ww_started s) \/
  startup = 0 /\ exists s2, r = Ok tt /\ Win.ww_started s1 = Win.ww_started s + 1 /\ cw_client w1 <> None /\
    Win.wirecall_client_close s1 = (Ok tt, s2) /\ cw_client (Win.ww_world s2) = None /\
    heap_live (cw_heap (Win.ww_world s2)) = heap_live (cw_heap w) /\ net_open (cw_net (Win.ww_world s2)) = net_open (cw_net w) /\
    Win.ww_started s2 = Win.ww_started s.
Proof.
  intros H64 Ec Hready Hi E. cbn zeta. destruct (Z.eqb_spec startup 0) as [-> | Hne].
  - destruct (Client.wirecall_client_connect true host (Some port) (Win.ww_world s)) as [r0 w0] eqn:E0.
    rewrite (win_connect_world _ _ _ _ _ H64 E0 Hready) in E. injection E as <- <-. cbn [Win.ww_world Win.ww_started].
    apply (connect_spec H64 (heap_live (cw_heap (Win.ww_world s))) []) in E0; [| done | by apply owns_start].
    destruct E0 as [(-> & Ec1 & Ho & En) | (p & fd & -> & Hfd & Hnew & Eo & _ & Hw)].
    + left. apply owns_nil in Ho as [_ Ho]. split_and!; try done. lia.
    + right. split; [done |]. destruct (close_spec _ _ _ _ _ _ Hw Hfd) as (s2 & E2 & Ec2 & Ho2 & Eo2 & _).
      apply owns_nil in Ho2 as [_ Ho2]. pose proof (wk_client _ _ _ _ _ _ Hw) as Hcl.
      eexists. split; [done |]. split; [done |]. split; [by rewrite Hcl |]. rewrite win_close_world by (cbn; by rewrite Hcl).
      cbn [Win.ww_world]. rewrite E2. cbn. split_and!; try done; cbn; [| lia].
      rewrite Eo2, Eo. cbn [set_fd cl_fd]. clear -Hnew. set_solver.
  - left. unfold Win.wirecall_client_connect, Win.on_world in E. unfold bind, on_heap, modify in E. cbn [negb] in E.
    rewrite (proj2 (Z.eqb_neq startup 0)) in E by done. cbn [negb] in E.
    unfold heap_calloc in E. destruct s as [[c h n] started ready]. cbn in *. subst c ready.
    destruct (SIZE_MAX / 1 <? sizeof_wirecall_client); [cbn in E; injection E as <- <-; done |].
    assert (Hsz : 0 <= usize (1 * sizeof_wirecall_client)) by (rewrite usize_small; rewrite ?H64; by_compute).
    pose proof (owns_start h Hi) as Ho. destruct (heap_alloc _ h) as [[p|] h1] eqn:Ea; cbn in E.
    + eapply owns_alloc in Ea; [| exact Hsz | exact Ho]. apply owns_free, owns_nil in Ea as [_ Ea]. injection E as <- <-. cbn. done.
    + eapply owns_alloc_none in Ea; [| exact Hsz | exact Ho]. apply owns_nil in Ea as [_ Ea]. injection E as <- <-. cbn. done.
Qed.

Definition win_unconnected (started : Z) : @Win.wworld toy toynet := {| Win.ww_world := unconnected_world; Win.ww_started := started; Win.ww_ready := false |}.
Lemma win_connect_balance_witness :
  let s1 := (Win.wirecall_client_connect (HH := host_lp64) 0 true None (Some [56; 48]) (win_unconnected 2)).2 in
  let s3 := (Win.wirecall_client_connect (HH := host_lp64) 5 true None (Some [56; 48]) (win_unconnected 2)).2 in
  (exists s2, Win.ww_started s1 = 3 /\ Win.wirecall_client_close (HH := host_lp64) s1 = (Ok tt, s2) /\ Win.ww_started s2 = 2) /\ Win.ww_started s3 = 2.
Proof.
  cbn zeta. assert (Hi : heap_inv (cw_heap (Win.ww_world (win_unconnected 2)))) by by_compute. split.
  - destruct (win_connect_balance (H := host_lp64) 0 None [56; 48] (win_unconnected 2) _ _ eq_refl eq_refl eq_refl Hi (surjective_pairing _))
      as [(Hr & _) | (_ & s2 & _ & H1 & _ & H2 & _ & _ & _ & H3)].
    + vm_compute in Hr. discriminate.
    + exists s2. split; [exact H1 |]. split; [exact H2 | exact H3].
  - destruct (win_connect_balance (H := host_lp64) 5 None [56; 48] (win_unconnected 2) _ _ eq_refl eq_refl eq_refl Hi (surjective_pairing _))
      as [(_ & _ & _ & _ & H1) | (H1 & _)]; [exact H1 | discriminate].
Defined.

(** ** The clock *)
(** a frequency for which the product of the remainder does not wrap: 18 GHz *)
Definition frequency_ok (f : Z) : Prop := 0 < f < 2 ^ 63 /\ f * 1000000000 <= 2 ^ 64.

Lemma time_ns_exact c f : frequency_ok f -> 0 <= c < 2 ^ 63 -> c * 1000000000 / f < 2 ^ 64 ->
  Win.wirecall_time_ns (Some c) (Some f) = c * 1000000000 / f.
Proof.
  intros [Hf Hw] Hc Hlt. unfold Win.wirecall_time_ns, u64. rewrite Z.quot_div_nonneg, Z.rem_mod_nonneg by lia.
  pose proof (Z.div_mod c f ltac:(lia)) as Hdm. pose proof (Z.mod_pos_bound c f ltac:(lia)) as Hr. pose proof (Z.div_pos c f ltac:(lia) ltac:(lia)) as Hq.
  assert (Hsplit : c * 1000000000 / f = c / f * 1000000000 + c mod f * 1000000000 / f).
  { rewrite <- Z.div_add_l by lia. f_equal. nia. }
  set (q := c / f) in *. set (r := c mod f) in *. clearbody q r.
  assert (Hr1 : 0 <= r * 1000000000 / f) by (apply Z.div_pos; lia).
  rewrite (Z.mod_small q), (Z.mod_small r), (Z.mod_small f), (Z.mod_small (r * 1000000000)), (Z.mod_small (q * 1000000000)) by nia.
  rewrite Hsplit in Hlt |- *. apply Z.mod_small. nia.
Qed.

(** the clock does not run backwards, and counts nanoseconds, until it reaches
    2^64 of them (584 years); a failing query reads as 0, which the trace takes
    for a start that was not recorded *)
Lemma time_ns_monotone c c' f : frequency_ok f -> 0 <= c <= c' -> c' < 2 ^ 63 -> c' * 1000000000 / f < 2 ^ 64 ->
  Win.wirecall_time_ns (Some c) (Some f) <= Win.wirecall_time_ns (Some c') (Some f).
Proof.
  intros Hf Hc Hc' Hlt. assert (Hle : c * 1000000000 / f <= c' * 1000000000 / f) by (apply Z.div_le_mono; [destruct Hf; lia | lia]).
  rewrite !time_ns_exact; try done; lia.
Qed.

(** the POSIX clock likewise *)
Lemma posix_time_ns_exact sec nsec : 0 <= sec -> 0 <= nsec < 1000000000 -> sec * 1000000000 + nsec < 2 ^ 64 ->
  Net.wirecall_time_ns sec nsec = sec * 1000000000 + nsec.
Proof. intros Hs Hn Hlt. unfold Net.wirecall_time_ns, u64. rewrite (Z.mod_small sec), (Z.mod_small nsec), (Z.mod_small (sec * 1000000000)) by lia. apply Z.mod_small. lia. Qed.

(** ** Threads *)
(** the block a thread starts from lives until the thread takes it, and a thread
    that cannot be created leaves none *)
Lemma thread_create_balance `{Host} `{Heap W} fn arg handle (h : W) r h' : 0 < size_bits -> heap_inv h ->
  Win.wirecall_thread_create fn arg handle h = (r, h') ->
  match r with
  | Ok (t, start) => t = handle /\ exists h'', Win.wirecall_thread_entry start h' = (Ok (fn, arg), h'') /\ heap_live h'' = heap_live h
  | Err => heap_live h' = heap_live h
  | UB => False
  end.
Proof.
  intros Hsz Hi. unfold Win.wirecall_thread_create. assert (Hz : 0 <= Win.sizeof_thread_start) by (apply Z.div_pos; lia).
  pose proof (owns_start h Hi) as Ho. destruct (heap_alloc _ h) as [[p|] h1] eqn:Ea.
  - eapply owns_alloc in Ea; [| exact Hz | exact Ho]. apply owns_free, owns_nil in Ea as [_ Ea].
    destruct (handle =? 0); intros [= <- <-]; [done |]. split; [done |]. by eexists.
  - eapply owns_alloc_none in Ea; [| exact Hz | exact Ho]. apply owns_nil in Ea as [_ Ea]. by intros [= <- <-].
Qed.
