(* ===== verification/Bench.v ===== *)
(** * Bench: the benchmark's arithmetic (src/demos/bench.c)

    Its arguments, how the requests are divided among the clients, the figures it
    prints, and the deadline of its gate.  Doubles and printf are those of
    TraceDump.v; strtoull is the C library's, in the C locale. *)

From stdpp Require Import strings.
From S2P Require Import Prelude Words CString TraceDump.
From stdpp Require Import list.
From Stdlib Require Import Sorting.Sorted.
#[global] Open Scope Z_scope.

(** ** Arguments *)
Definition is_space (c : Z) : bool := (c =? 32) || ((9 <=? c) && (c <=? 13)).
Definition is_digit (c : Z) : bool := (48 <=? c) && (c <=? 57).
Fixpoint skip_space (s : list Z) : list Z := match s with c :: r => if is_space c then skip_space r else s | [] => [] end.
Fixpoint digits_of (acc : Z) (s : list Z) : Z * list Z :=
  match s with c :: r => if is_digit c then digits_of (10 * acc + (c - 48)) r else (acc, s) | [] => (acc, []) end.
(** [strtoull(text, &end, 10)]: the value, what [end] points to, and whether errno is ERANGE *)
Definition strtoull (text : list Z) : Z * list Z * bool :=
  let s := skip_space text in
  let '(neg, s) := match s with 45 :: r => (true, r) | 43 :: r => (false, r) | _ => (false, s) end in
  match s with
  | c :: _ =>
      if is_digit c then
        let '(v, rest) := digits_of 0 s in
        if 2 ^ 64 <=? v then (2 ^ 64 - 1, rest, true) else (if neg then u64 (- v) else v, rest, false)
      else (0, text, false)
  | [] => (0, text, false)
  end.

Definition parse_u64_arg (text : option (list Z)) (fallback : Z) : Z :=
  match text with
  | None | Some [] => fallback
  | Some text =>
      let '(value, rest, erange) := strtoull text in
      if erange || negb (bool_decide (rest = [])) || (value =? 0) then fallback else value
  end.
Definition parse_bool_arg (text : option (list Z)) (fallback : Z) : Z :=
  match text with
  | None | Some [] => fallback
  | Some text =>
      let same s := bool_decide (text = cstring s) in
      if same "1"%string || same "true"%string || same "on"%string || same "yes"%string then 1
      else if same "0"%string || same "false"%string || same "off"%string || same "no"%string then 0
      else fallback
  end.

(** the numbers main works with *)
Record settings := { total_requests : Z; clients : Z; warmup_total : Z; server_workers : Z; pipeline : Z }.
Definition main_settings (args : list (list Z)) : settings :=
  let arg i := args !! i in
  let total := parse_u64_arg (arg 0%nat) 50000 in
  let clients := parse_u64_arg (arg 1%nat) 1 in
  {| total_requests := total; clients := if total <? clients then total else clients;
     warmup_total := parse_u64_arg (arg 2%nat) 1000; server_workers := parse_u64_arg (arg 3%nat) 0;
     pipeline := parse_u64_arg (arg 4%nat) 1 |}.

(** ** The clients' shares *)
Record worker_args := { wa_requests : Z; wa_warmup : Z; wa_latency_offset : Z }.

(** one turn of main's loop over the clients, for the rest of them *)
Fixpoint plan_loop (n : nat) (i offset : Z) (s : settings) : res (list worker_args) :=
  match n with
  | O => Ok []
  | S n =>
      let? warmup_base := udiv (warmup_total s) (clients s) in
      let? request_base := udiv (total_requests s) (clients s) in
      let warmup_rem := warmup_total s mod clients s in
      let request_rem := total_requests s mod clients s in
      let count := u64 (request_base + (if i <? request_rem then 1 else 0)) in
      let w := {| wa_requests := count; wa_warmup := u64 (warmup_base + (if i <? warmup_rem then 1 else 0)); wa_latency_offset := offset |} in
      let? rest := plan_loop n (i + 1) (u64 (offset + count)) s in Ok (w :: rest)
  end.
Definition plan (s : settings) : res (list worker_args) := plan_loop (Z.to_nat (clients s)) 0 0 s.

(** ** Figures *)
Definition timeval_ns (tv_sec tv_usec : Z) : Z := u64 (u64 (u64 tv_sec * 1000000000) + u64 (u64 tv_usec * 1000)).

Definition byte_units : list string := ["B"; "KiB"; "MiB"; "GiB"; "TiB"]%string.
(** [while (value >= 1024.0 && unit + 1 < 5)] *)
Fixpoint unit_loop (fuel : nat) (value : Z) (unit : nat) : Z * nat :=
  match fuel with
  | O => (value, unit)
  | S fuel =>
      if (1024 * SCALE <=? value) && (S unit <? length byte_units)%nat
      then unit_loop fuel (double_div value (double_of 1024)) (S unit) else (value, unit)
  end.
Definition bytes_text (bytes : Z) : list Z :=
  let '(value, unit) := unit_loop (length byte_units) (double_of bytes) 0 in
  let name := cstring (nth unit byte_units ""%string) in
  if (unit =? 0)%nat then decimal bytes ++ [32] ++ name else fixed 2 value ++ [32] ++ name.
Definition format_bytes (bytes : Z) : list Z := snprintf_s 16 (bytes_text bytes).

Definition double_mul (x y : Z) : Z := round53 (x * y) SCALE.
(** [values[idx]], where [idx] may be anything *)
Definition percentile (values : list Z) (pct : Z) : res Z :=
  let count := zlen values in
  if count =? 0 then Ok 0 else
  let idx := double_mul (double_div (double_of pct) (double_of 100)) (double_of (count - 1)) / SCALE in
  match values !! Z.to_nat idx with Some v => Ok v | None => UB end.

Definition cmp_u64 (x y : Z) : Z := (if y <? x then 1 else 0) - (if x <? y then 1 else 0).

(** clock_gettime's answer plus [ms] *)
Definition deadline_after_ms (tv_sec tv_nsec ms : Z) : Z * Z :=
  let tv_sec := tv_sec + Z.quot ms 1000 in
  let tv_nsec := tv_nsec + Z.rem ms 1000 * 1000000 in
  if 1000000000 <=? tv_nsec then (tv_sec + 1, tv_nsec - 1000000000) else (tv_sec, tv_nsec).

(** ** Theorems *)

(** *** Arguments *)
Lemma digits_of_nonneg acc s : 0 <= acc -> 0 <= (digits_of acc s).1.
Proof.
  revert acc. induction s as [|c s IH]; intros acc Ha; cbn [digits_of]; [done |]. unfold is_digit.
  destruct ((48 <=? c) && (c <=? 57)) eqn:E; [apply IH; lia | done].
Qed.
Lemma strtoull_range text : 0 <= (strtoull text).1.1 < 2 ^ 64.
Proof.
  unfold strtoull. destruct (match skip_space text with 45 :: r => (true, r) | 43 :: r => (false, r) | _ => (false, skip_space text) end) as [neg s].
  destruct s as [|c s]; [done |]. destruct (is_digit c); [| done]. pose proof (digits_of_nonneg 0 (c :: s) ltac:(lia)) as H.
  destruct (digits_of 0 (c :: s)) as [v rest]. cbn [fst] in H. destruct (Z.leb_spec (2 ^ 64) v); [done |].
  destruct neg; cbn [fst]; [| lia]. unfold u64. apply Z.mod_pos_bound. lia.
Qed.
Lemma parse_u64_arg_range text fallback : 0 < fallback < 2 ^ 64 -> 0 < parse_u64_arg text fallback < 2 ^ 64.
Proof.
  intros Hf. unfold parse_u64_arg. destruct text as [[|c text]|]; try done. pose proof (strtoull_range (c :: text)) as Hr.
  destruct (strtoull (c :: text)) as [[v rest] erange]. cbn [fst] in Hr. destruct (_ || (v =? 0)) eqn:E; [done |].
  apply orb_false_iff in E as [_ E]. lia.
Qed.

(** a negative number is taken for a huge one *)
Lemma parse_negative : parse_u64_arg (Some (cstring "-1")) 50000 = 2 ^ 64 - 1 /\ parse_u64_arg (Some (cstring "12x")) 50000 = 50000 /\
  parse_u64_arg (Some (cstring " 12")) 50000 = 12 /\ parse_u64_arg (Some (cstring "99999999999999999999")) 50000 = 50000.
Proof. vm_compute. auto. Qed.

(** *** Shares *)
Definition settings_ok (s : settings) : Prop :=
  0 < clients s <= total_requests s /\ total_requests s < 2 ^ 64 /\ 0 <= warmup_total s < 2 ^ 64.

Lemma main_settings_ok args : settings_ok (main_settings args).
Proof.
  unfold settings_ok, main_settings. cbn.
  pose proof (parse_u64_arg_range (args !! 0%nat) 50000 ltac:(lia)). pose proof (parse_u64_arg_range (args !! 1%nat) 1 ltac:(lia)).
  pose proof (parse_u64_arg_range (args !! 2%nat) 1000 ltac:(lia)).
  destruct (Z.ltb_spec (parse_u64_arg (args !! 0%nat) 50000) (parse_u64_arg (args !! 1%nat) 1)); lia.
Qed.

(** the shares follow one another from [off] to [stop] *)
Fixpoint covers (off : Z) (ws : list worker_args) (stop : Z) : Prop :=
  match ws with
  | [] => off = stop
  | w :: ws => wa_latency_offset w = off /\ 0 < wa_requests w /\ covers (off + wa_requests w) ws stop
  end.

(** what the first [i] of [n] get of [total] *)
Definition share (total n i : Z) : Z := total / n * i + Z.min i (total mod n).
Lemma share_next total n i : 0 <= i -> share total n (i + 1) = share total n i + (total / n + if i <? total mod n then 1 else 0).
Proof. intros Hi. unfold share. destruct (Z.ltb_spec i (total mod n)); lia. Qed.
Lemma share_all total n : 0 < n -> share total n n = total.
Proof. intros Hn. unfold share. pose proof (Z.div_mod total n). pose proof (Z.mod_pos_bound total n Hn). lia. Qed.
Lemma share_bounds total n i : 0 < n -> 0 <= total -> 0 <= i <= n -> 0 <= share total n i <= total.
Proof.
  intros Hn Ht Hi. unfold share. pose proof (Z.div_mod total n ltac:(lia)). pose proof (Z.mod_pos_bound total n Hn).
  pose proof (Z.div_pos total n Ht Hn). nia.
Qed.

Lemma plan_loop_ok s n i : settings_ok s -> 0 <= i -> i + Z.of_nat n = clients s ->
  exists ws, plan_loop n i (share (total_requests s) (clients s) i) s = Ok ws /\ length ws = n /\
    covers (share (total_requests s) (clients s) i) ws (total_requests s) /\
    share (warmup_total s) (clients s) i + foldr Z.add 0 (map wa_warmup ws) = warmup_total s.
Proof.
  intros Hs. pose proof Hs as (Hc & Ht & Hw). revert i. induction n as [|n IH]; intros i Hi Hn; cbn [plan_loop].
  - assert (i = clients s) as -> by lia. exists []. rewrite !share_all by lia. split_and!; [done | done | done | cbn; lia].
  - unfold udiv. rewrite (proj2 (Z.eqb_neq (clients s) 0)) by lia. cbn [res_bind].
    set (c := total_requests s / clients s + _). set (u := warmup_total s / clients s + _).
    assert (Hc1 : 1 <= total_requests s / clients s) by (apply Z.div_le_lower_bound; lia).
    pose proof (share_next (total_requests s) (clients s) i Hi) as Hsn. fold c in Hsn.
    pose proof (share_next (warmup_total s) (clients s) i Hi) as Hun. fold u in Hun.
    pose proof (share_bounds (total_requests s) (clients s) (i + 1) ltac:(lia) ltac:(lia) ltac:(lia)).
    pose proof (share_bounds (total_requests s) (clients s) i ltac:(lia) ltac:(lia) ltac:(lia)).
    pose proof (share_bounds (warmup_total s) (clients s) (i + 1) ltac:(lia) ltac:(lia) ltac:(lia)).
    pose proof (share_bounds (warmup_total s) (clients s) i ltac:(lia) ltac:(lia) ltac:(lia)).
    assert (0 < c) by (unfold c; destruct (i <? total_requests s mod clients s); lia).
    assert (0 <= u) by (unfold u; pose proof (Z.div_pos (warmup_total s) (clients s) ltac:(lia) ltac:(lia)); destruct (i <? warmup_total s mod clients s); lia).
    unfold u64. rewrite (Z.mod_small c), (Z.mod_small u) by lia. rewrite <- Hsn.
    rewrite (Z.mod_small (share (total_requests s) (clients s) (i + 1))) by lia.
    destruct (IH (i + 1)) as (ws & -> & Hl & Hcov & Hsum); [lia | lia |]. cbn [res_bind]. eexists. split; [done |].
    cbn [length covers map foldr wa_latency_offset wa_requests wa_warmup]. split; [lia |]. split; [| lia]. split; [done |]. split; [done |]. by rewrite <- Hsn.
Qed.

(** Whatever the benchmark is called with, its requests are divided among its
    clients without a division by zero or an overflow: each client gets at least
    one, their parts of the array of latencies follow one another and fill it
    exactly, so that no two write the same place, and the warm-up calls add up. *)
Theorem bench_shares args : let s := main_settings args in
  exists ws, plan s = Ok ws /\ zlen ws = clients s /\ covers 0 ws (total_requests s) /\ foldr Z.add 0 (map wa_warmup ws) = warmup_total s.
Proof.
  cbn zeta. pose proof (main_settings_ok args) as Hs. set (s := main_settings args) in *. clearbody s.
  destruct (plan_loop_ok s (Z.to_nat (clients s)) 0 Hs) as (ws & Hp & Hl & Hcov & Hsum); [lia | destruct Hs; lia |].
  assert (H0 : forall t, 0 <= t -> share t (clients s) 0 = 0) by (intros t Ht; unfold share; pose proof (Z.mod_pos_bound t (clients s) ltac:(destruct Hs; lia)); lia).
  rewrite H0 in Hp, Hcov by (destruct Hs; lia). rewrite H0 in Hsum by (destruct Hs; lia). exists ws. split; [exact Hp |]. split; [unfold zlen; destruct Hs; lia | done].
Qed.

(** places of different clients are different *)
Lemma covers_disjoint off ws stop : covers off ws stop -> forall i j wi wj x y,
  ws !! i = Some wi -> ws !! j = Some wj -> 0 <= x < wa_requests wi -> 0 <= y < wa_requests wj ->
  off <= wa_latency_offset wi + x < stop /\ (wa_latency_offset wi + x = wa_latency_offset wj + y -> i = j /\ x = y).
Proof.
  revert off. induction ws as [|w ws IH]; intros off Hc i j wi wj x y Hi Hj Hx Hy; [done |]. destruct Hc as (Ho & Hp & Hc).
  assert (Hb : forall off, covers off ws stop -> off <= stop) by (clear; induction ws as [|w ws IH]; intros off; cbn; [lia | intros (_ & Hp & Hc); apply IH in Hc; lia]).
  pose proof (Hb _ Hc). destruct i as [|i], j as [|j]; cbn in Hi, Hj; simplify_eq.
  - split; [lia |]. intros ?. split; [done | lia].
  - destruct (IH _ Hc j j wj wj y y Hj Hj Hy Hy) as [? _]. split; [lia |]. intros ?. lia.
  - destruct (IH _ Hc i i wi wi x x Hi Hi Hx Hx) as [? _]. split; [lia |]. intros ?. lia.
  - destruct (IH _ Hc i j wi wj x y Hi Hj Hx Hy) as [? He]. split; [lia |]. intros Heq. destruct (He Heq). split; [congruence | done].
Qed.

(** *** Percentiles *)

(** the place, and how far it is from the exact one *)
Definition percentile_index (count pct : Z) : Z := double_mul (double_div (double_of pct) (double_of 100)) (double_of (count - 1)) / SCALE.

Lemma percentile_value_error m pct : 0 < m < 2 ^ 53 -> 0 < pct < 100 ->
  let V := double_mul (double_div (double_of pct) (double_of 100)) (double_of m) in
  0 <= V /\ Z.abs (V * 100 - pct * m * SCALE) * 2 ^ 51 <= pct * m * SCALE.
Proof.
  intros Hm Hp. cbn zeta. pose proof (double_div_error pct 100 ltac:(lia) ltac:(lia)) as HP. set (P := double_div _ _) in *.
  unfold double_mul. rewrite double_of_exact by lia. assert (HS : 2 ^ 105 <= SCALE) by done. clearbody P.
  assert (HPp : SCALE <= P * 200) by nia.
  assert (HP1 : 2 ^ 52 <= P) by lia. assert (HPm : P * 1 <= P * m) by (apply Z.mul_le_mono_nonneg_l; lia).
  assert (Hle : 2 ^ 52 * SCALE <= P * (m * SCALE)) by (rewrite Z.mul_assoc; apply Z.mul_le_mono_nonneg_r; lia).
  pose proof (round53_error (P * (m * SCALE)) SCALE ltac:(lia) Hle) as HV. set (V := round53 _ _) in *. clearbody V.
  replace (V * SCALE - P * (m * SCALE)) with ((V - P * m) * SCALE) in HV by ring.
  rewrite Z.abs_mul, (Z.abs_eq SCALE) in HV by lia.
  assert (HV' : Z.abs (V - P * m) * 2 ^ 53 <= P * m) by nia.
  assert (HP' : P * 100 <= 2 * pct * SCALE) by nia.
  assert (Hsum : V * 100 - pct * m * SCALE = (V - P * m) * 100 + m * (P * 100 - pct * SCALE)) by ring.
  set (a := V - P * m) in *. set (b := P * 100 - pct * SCALE) in *. split; [nia |]. rewrite Hsum. clear Hsum.
  assert (Hb : Z.abs (m * b) * 2 ^ 53 <= m * (pct * SCALE)) by (rewrite Z.abs_mul, (Z.abs_eq m) by lia; nia).
  assert (Ha : Z.abs (a * 100) * 2 ^ 53 <= m * (2 * pct * SCALE)) by (rewrite Z.abs_mul; nia).
  set (x := a * 100) in *. set (y := m * b) in *. clearbody x y. assert (2 ^ 53 = 4 * 2 ^ 51) by reflexivity.
  replace (pct * m * SCALE) with (m * (pct * SCALE)) by ring. replace (m * (2 * pct * SCALE)) with (2 * (m * (pct * SCALE))) in Ha by ring.
  set (t := m * (pct * SCALE)) in *. clearbody t. lia.
Qed.

Lemma percentile_index_bounds n pct : 0 < n <= 2 ^ 40 -> 0 < pct < 100 ->
  0 <= percentile_index n pct <= n - 1 /\ pct * (n - 1) - 100 <= 100 * percentile_index n pct <= pct * (n - 1).
Proof.
  intros Hn Hp. unfold percentile_index. destruct (Z.eq_dec n 1) as [-> | Hn1].
  { change (double_of (1 - 1)) with 0. unfold double_mul. rewrite Z.mul_0_r. change (round53 0 SCALE / SCALE) with 0. lia. }
  destruct (percentile_value_error (n - 1) pct ltac:(lia) Hp) as [H0 He]. set (V := double_mul _ _) in *. clearbody V.
  assert (HS : 0 < SCALE) by done. pose proof (Z.div_mod V SCALE ltac:(lia)) as Hd. pose proof (Z.mod_pos_bound V SCALE HS) as Hm.
  pose proof (Z.div_pos V SCALE H0 HS) as Hi. set (i := V / SCALE) in *. set (r := V mod SCALE) in *. clearbody i r. subst V.
  set (q := pct * (n - 1)) in *. assert (Hq : 0 < q < 2 ^ 47) by nia.
  assert (Hsmall : Z.abs ((SCALE * i + r) * 100 - q * SCALE) < SCALE).
  { apply Z.mul_lt_mono_pos_r with (p := 2 ^ 51); [done |]. assert (q * SCALE < 2 ^ 51 * SCALE) by (apply Z.mul_lt_mono_pos_r; lia). lia. }
  assert (Hq1 : q <= 99 * (n - 1)) by nia. clearbody q. clear He. split; [split; [done |] |]; nia.
Qed.

(** each value of a sorted list is at most every later one *)
Lemma sorted_lookup (l : list Z) i j x y : Sorted Z.le l -> (i <= j)%nat -> l !! i = Some x -> l !! j = Some y -> x <= y.
Proof.
  intros Hs. apply Sorted_StronglySorted in Hs; [| intros ? ? ?; lia]. revert i j. induction Hs as [|z l Hs IH Hz]; intros i j Hij Hi Hj; [done |].
  rewrite Forall_forall in Hz. destruct i as [|i], j as [|j]; cbn in Hi, Hj; simplify_eq; try lia.
  - apply Hz. by eapply list_elem_of_lookup_2.
  - apply (IH i j); [lia | done | done].
Qed.

Lemma cmp_u64_sign x y : (cmp_u64 x y < 0 <-> x < y) /\ (cmp_u64 x y = 0 <-> x = y).
Proof. unfold cmp_u64. destruct (Z.ltb_spec y x), (Z.ltb_spec x y); lia. Qed.

(** Of the latencies that qsort has put in order the benchmark reads only
    places that exist, for any number of them up to 2^40, and reports a median,
    a 95th and a 99th percentile that are measured values, in this order and not
    above the maximum, at places that are the exact ones, or the ones before. *)
Theorem percentiles_ordered values latencies : values ≡ₚ latencies -> Sorted Z.le values -> 0 < zlen latencies <= 2 ^ 40 ->
  exists p50 p95 p99 mx, percentile values 50 = Ok p50 /\ percentile values 95 = Ok p95 /\ percentile values 99 = Ok p99 /\
    last values = Some mx /\ p50 <= p95 <= p99 /\ p99 <= mx /\ Forall (fun p => p ∈ latencies) [p50; p95; p99; mx] /\
    (forall pct p, 0 < pct < 100 -> percentile values pct = Ok p -> exists i, values !! i = Some p /\
       pct * (zlen latencies - 1) - 100 <= 100 * Z.of_nat i <= pct * (zlen latencies - 1)).
Proof.
  intros Hperm Hs Hlen. assert (Hl : zlen values = zlen latencies) by (unfold zlen; by rewrite Hperm). rewrite <- Hl in *.
  assert (Hp : forall pct, 0 < pct < 100 -> exists i p, percentile values pct = Ok p /\ values !! i = Some p /\
    (i <= length values - 1)%nat /\ pct * (zlen values - 1) - 100 <= 100 * Z.of_nat i <= pct * (zlen values - 1) /\ Z.of_nat i = percentile_index (zlen values) pct).
  { intros pct Hpct. destruct (percentile_index_bounds (zlen values) pct Hlen Hpct) as [Hi Hr]. unfold percentile.
    rewrite (proj2 (Z.eqb_neq _ _)) by lia. fold (percentile_index (zlen values) pct). set (i := percentile_index _ _) in *. clearbody i.
    destruct (lookup_lt_is_Some_2 values (Z.to_nat i)) as [p Ep]; [unfold zlen in Hi; lia |]. exists (Z.to_nat i), p. rewrite Ep.
    split_and!; try done; try lia. unfold zlen in *. lia. }
  destruct (Hp 50 ltac:(lia)) as (i50 & p50 & E50 & L50 & B50 & R50 & _). destruct (Hp 95 ltac:(lia)) as (i95 & p95 & E95 & L95 & B95 & R95 & _).
  destruct (Hp 99 ltac:(lia)) as (i99 & p99 & E99 & L99 & B99 & R99 & _). exists p50, p95, p99.
  destruct (lookup_lt_is_Some_2 values (length values - 1)) as [mx Em]; [unfold zlen in Hlen; lia |]. exists mx.
  assert (Hin : forall i p, values !! i = Some p -> p ∈ latencies) by (intros i p Hi; rewrite <- Hperm; by eapply list_elem_of_lookup_2).
  split; [done |]. split; [done |]. split; [done |]. split; [rewrite last_lookup, <- Em; f_equal; lia |].
  split; [split; [apply (sorted_lookup values i50 i95) | apply (sorted_lookup values i95 i99)]; try done; lia |].
  split; [apply (sorted_lookup values i99 (length values - 1)); done |].
  split; [repeat (apply Forall_cons_2; [by eapply Hin |]); apply Forall_nil_2 |].
  intros pct p Hpct Epct. destruct (Hp pct Hpct) as (i & p' & E & L & _ & R & _). rewrite E in Epct. injection Epct as <-. by exists i.
Qed.
Lemma percentiles_ordered_witness : exists p50 p95 p99, percentile [1; 2; 3; 5; 8; 13] 50 = Ok p50 /\ percentile [1; 2; 3; 5; 8; 13] 95 = Ok p95 /\
  percentile [1; 2; 3; 5; 8; 13] 99 = Ok p99 /\ p50 <= p95 <= p99 /\ p50 = 3.
Proof.
  destruct (percentiles_ordered [1; 2; 3; 5; 8; 13] [3; 1; 13; 2; 8; 5]) as (p50 & p95 & p99 & mx & H50 & H95 & H99 & _ & Hle & _).
  - apply (bool_decide_eq_true_1 _). vm_compute. reflexivity.
  - repeat constructor; lia.
  - vm_compute. split; [reflexivity | discriminate].
  - exists p50, p95, p99. split; [exact H50 |]. split; [exact H95 |]. split; [exact H99 |]. split; [exact Hle |].
    vm_compute in H50. injection H50 as <-. reflexivity.
Defined.

(** *** Sizes *)
Lemma double_of_error x : 0 < x < 2 ^ 64 -> 0 < double_of x /\ Z.abs (double_of x - x * SCALE) * 2 ^ 53 <= x * SCALE.
Proof.
  intros Hx. unfold double_of. assert (HS : 2 ^ 105 <= SCALE) by done.
  pose proof (round53_error (x * SCALE) 1 ltac:(lia) ltac:(nia)) as He. rewrite Z.mul_1_r in He. nia.
Qed.

(** a division by 1024 *)
Lemma div_1024_error v : 2 ^ 52 * 1024 <= v -> double_div v (double_of 1024) * 1024 * 2 ^ 53 <= v * (2 ^ 53 + 1) /\ 0 <= double_div v (double_of 1024).
Proof.
  intros Hv. unfold double_div. change (double_of 1024) with (1024 * SCALE). assert (HS : 0 < SCALE) by done.
  pose proof (round53_error (v * SCALE) (1024 * SCALE) ltac:(lia) ltac:(nia)) as He. set (V := round53 _ _) in *. clearbody V.
  replace (V * (1024 * SCALE) - v * SCALE) with ((V * 1024 - v) * SCALE) in He by ring. rewrite Z.abs_mul, (Z.abs_eq SCALE) in He by lia.
  assert (Z.abs (V * 1024 - v) * 2 ^ 53 <= v) by nia. nia.
Qed.

(** the value of a unit, and when the loop stops *)
Definition unit_ok (v : Z) (u : nat) : Prop := (u < 5)%nat /\ 0 <= v /\ v * 1024 ^ Z.of_nat u <= (2 ^ 64 + (Z.of_nat u + 1) * 2 ^ 12) * SCALE.
Lemma unit_loop_ok fuel v u : unit_ok v u -> (5 <= fuel + u)%nat ->
  let '(v', u') := unit_loop fuel v u in unit_ok v' u' /\ (v' < 1024 * SCALE \/ u' = 4%nat).
Proof.
  revert v u. induction fuel as [|fuel IH]; intros v u Hok Hf; cbn [unit_loop]; [destruct Hok; lia |].
  change (length byte_units) with 5%nat. destruct (Z.leb_spec (1024 * SCALE) v) as [Hv | Hv]; cbn [andb]; [| split; [done | by left]].
  destruct (Nat.ltb_spec (S u) 5) as [Hu | Hu]; [| split; [done | right; destruct Hok; lia]].
  apply IH; [| lia]. destruct Hok as (_ & H0 & Hb). assert (HS : 2 ^ 105 <= SCALE) by done. destruct (div_1024_error v ltac:(lia)) as [Hd Hd0].
  set (w := double_div v _) in *. clearbody w. split; [done |]. split; [done |].
  rewrite Nat2Z.inj_succ, Z.pow_succ_r by lia. set (P := 1024 ^ Z.of_nat u) in *. assert (0 < P) by (apply Z.pow_pos_nonneg; lia). clearbody P.
  assert (Hw : w * 1024 * P * 2 ^ 53 <= v * P * (2 ^ 53 + 1)) by nia.
  apply Z.mul_le_mono_pos_r with (p := 2 ^ 53); [done |].
  assert (Hs1 : v * P * (2 ^ 53 + 1) <= (2 ^ 64 + (Z.of_nat u + 1) * 2 ^ 12) * SCALE * (2 ^ 53 + 1)) by (apply Z.mul_le_mono_nonneg_r; lia).
  nia.
Qed.

Lemma unit_loop_unit fuel v u : (u <= (unit_loop fuel v u).2)%nat /\ ((unit_loop fuel v u).2 = u -> (unit_loop fuel v u).1 = v).
Proof.
  revert v u. induction fuel as [|fuel IH]; intros v u; cbn [unit_loop]; [done |].
  destruct (_ && _); [| done]. destruct (IH (double_div v (double_of 1024)) (S u)). split; [lia | intros ?; lia].
Qed.

Lemma figures_below v j : 0 <= v -> 2 * (v * 100) + SCALE < 2 * 10 ^ j * SCALE -> 0 <= figures 2 v < 10 ^ j.
Proof.
  intros Hv Hb. unfold figures. change (10 ^ Z.of_nat 2) with 100. assert (HS : 0 < SCALE) by done.
  pose proof (rne_error (v * 100) SCALE HS) as He. set (N := rne _ _) in *. clearbody N. set (T := 10 ^ j) in *. clearbody T.
  split; apply Z.nlt_ge || apply Z.nle_gt; intros ?; nia.
Qed.

Lemma large_bytes_fit v u : unit_ok v u -> v < 1024 * SCALE \/ u = 4%nat -> u <> 0%nat ->
  snprintf_s 16 (fixed 2 v ++ [32] ++ cstring (nth u byte_units ""%string)) = fixed 2 v ++ [32] ++ cstring (nth u byte_units ""%string).
Proof.
  intros (Hu & H0 & Hb) Hv Hne. assert (HS : 2 ^ 105 <= SCALE) by done.
  apply (with_point_fits 2 (figures 2 v) 8); [| lia |].
  - change (Z.of_nat (8 + 2)) with 10. apply figures_below; [done |]. destruct Hv as [Hv | ->]; [lia |].
    change (1024 ^ Z.of_nat 4) with (2 ^ 40) in Hb. lia.
  - assert (u = 1 \/ u = 2 \/ u = 3 \/ u = 4)%nat as [-> | [-> | [-> | ->]]] by lia; vm_compute; reflexivity.
Qed.

(** The size of any number of bytes fits the 16 bytes it is printed into, up
    to 16777216.00 TiB, and below 1 KiB it is the number itself: format_bytes
    never cuts its text. *)
Theorem format_bytes_fits bytes : 0 <= bytes < 2 ^ 64 ->
  format_bytes bytes = bytes_text bytes /\ (bytes < 1024 -> format_bytes bytes = decimal bytes ++ cstring " B").
Proof.
  intros Hb. unfold format_bytes, bytes_text. assert (HS : 2 ^ 105 <= SCALE) by done.
  assert (Hd : 0 <= double_of bytes /\ Z.abs (double_of bytes - bytes * SCALE) * 2 ^ 53 <= bytes * SCALE).
  { destruct (Z.eq_dec bytes 0) as [-> | ?]; [by vm_compute |]. destruct (double_of_error bytes) as [? ?]; [lia | split; [lia | done]]. }
  assert (Ht : bytes * SCALE <= 2 ^ 64 * SCALE) by (apply Z.mul_le_mono_nonneg_r; lia).
  assert (Hok : unit_ok (double_of bytes) 0) by (split; [lia |]; split; [lia |]; change (1024 ^ Z.of_nat 0) with 1; lia).
  pose proof (unit_loop_ok (length byte_units) (double_of bytes) 0 Hok ltac:(cbn; lia)) as Hl.
  pose proof (unit_loop_unit (length byte_units) (double_of bytes) 0) as [_ H0].
  assert (Hsmall : forall v, (v, 0%nat) = unit_loop (length byte_units) (double_of bytes) 0 -> v < 1024 * SCALE -> bytes < 1025).
  { intros v E Hv. rewrite <- E in H0. cbn [fst snd] in H0. rewrite (H0 eq_refl) in Hv. nia. }
  destruct (unit_loop _ _ 0) as [v u] eqn:E. cbn [fst snd] in H0. destruct Hl as [Hok' Hv]. destruct u as [|u]; cbn [Nat.eqb].
  - destruct Hv as [Hv | ?]; [| done]. specialize (Hsmall v eq_refl Hv).
    assert (H4 : 0 <= bytes < 10 ^ Z.of_nat 4) by (change (10 ^ Z.of_nat 4) with 10000; lia). pose proof (zlen_decimal 4 bytes H4) as Hz.
    assert (Hlt : zlen (decimal bytes ++ [32] ++ cstring (nth 0 byte_units ""%string)) < 16).
    { rewrite zlen_app. change (zlen ([32] ++ cstring (nth 0 byte_units ""%string))) with 2. lia. }
    split; [| intros _]; exact (snprintf_s_fits _ _ Hlt).
  - split; [by apply large_bytes_fit |]. intros Hlt. exfalso.
    assert (Hx : double_of bytes < 1024 * SCALE).
    { destruct (Z.eq_dec bytes 0) as [-> | ?]; [done |]. rewrite double_of_exact by lia. nia. }
    cbn [length byte_units unit_loop] in E. rewrite (proj2 (Z.leb_gt _ _)) in E by done. cbn [andb] in E. discriminate.
Qed.
Lemma format_bytes_fits_witness : format_bytes 1023 = cstring "1023 B" /\ format_bytes (2 ^ 64 - 1) = cstring "16777216.00 TiB".
Proof.
  split.
  - assert (H : 0 <= 1023 < 2 ^ 64) by lia. destruct (format_bytes_fits 1023 H) as [_ Hs]. rewrite Hs by lia. reflexivity.
  - assert (H : 0 <= 2 ^ 64 - 1 < 2 ^ 64) by lia. destruct (format_bytes_fits (2 ^ 64 - 1) H) as [Hs _]. rewrite Hs. vm_compute. reflexivity.
Defined.

(** *** The deadline *)
(** a time [ms] later, with the nanoseconds below a second *)
Lemma deadline_exact sec nsec ms : 0 <= nsec < 1000000000 -> 0 <= ms -> let '(s, n) := deadline_after_ms sec nsec ms in
  0 <= n < 1000000000 /\ s * 1000000000 + n = sec * 1000000000 + nsec + ms * 1000000.
Proof.
  intros Hn Hm. unfold deadline_after_ms. rewrite Z.quot_div_nonneg, Z.rem_mod_nonneg by lia.
  pose proof (Z.div_mod ms 1000 ltac:(lia)). pose proof (Z.mod_pos_bound ms 1000 ltac:(lia)).
  destruct (Z.leb_spec 1000000000 (nsec + ms mod 1000 * 1000000)); lia.
Qed.
