(* ===== verification/BenchRun.v ===== *)
(** * BenchRun: a client of the benchmark, and its gate (src/demos/bench.c)

    First one worker thread: it connects, warms up, waits at the gate and measures
    its calls, one at a time or with several on their way, whose call ids and
    start times it keeps in tables by the id's remainder.  The client object, the
    clock and the gate are the class [BenchIO]; its law, [BenchLaws], is that the
    client's ids count up, and a server that answers only calls that wait for an
    answer is a hypothesis of its own ([answers_calls]).  Then the gate: the threads that wait at it and main,
    interleaved. *)

From S2P Require Import Prelude Words Payload.
From stdpp Require Import list gmap.
#[global] Open Scope Z_scope.

(** ** A worker *)
Class BenchIO (K : Type) := {
  io_connect : K -> bool * K;
  io_set_integrity : K -> bool * K;
  (** the two wirecall_writer_i64 *)
  io_encode : K -> bool * K;
  io_now : K -> Z * K;
  (** wirecall_client_send_call_name: the call id, or a failure *)
  io_send : K -> option Z * K;
  (** wirecall_client_recv_response *)
  io_recv : K -> option (Z * list wirecall_value) * K;
  (** wirecall_client_call_name *)
  io_call : K -> option (list wirecall_value) * K;
  (** gate_ready_and_wait: whether it returned 0 *)
  io_gate : K -> bool * K;
  (** calloc of a table *)
  io_table : K -> bool * K;
}.

Definition validate_response (values : list wirecall_value) (expected : Z) : bool :=
  match values with [VI64 v] => v =? expected | _ => false end.

(** what worker_args says *)
Record job := { requests : Z; warmup : Z; pipeline : Z; latency_offset : Z }.

Section Worker.
Context `{IO : BenchIO K} (w : job).

Record wstate := {
  ws_io : K;
  call_ids : list Z;
  starts : list Z;
  sent : Z;
  received : Z;
  latencies_ns : list Z;
  failed : bool;
  (** for the theorems: the clock's reading before each send, the answers in the
      order they came with the reading after each, and how often the gate was entered *)
  g_starts : gmap Z Z;
  g_answers : list (Z * Z);
  g_gates : nat;
}.

Definition set_io (k : K) (s : wstate) : wstate :=
  {| ws_io := k; call_ids := call_ids s; starts := starts s; sent := sent s; received := received s; latencies_ns := latencies_ns s;
     failed := failed s; g_starts := g_starts s; g_answers := g_answers s; g_gates := g_gates s |}.
Definition set_tables (ids sts : list Z) (s : wstate) : wstate :=
  {| ws_io := ws_io s; call_ids := ids; starts := sts; sent := sent s; received := received s; latencies_ns := latencies_ns s;
     failed := failed s; g_starts := g_starts s; g_answers := g_answers s; g_gates := g_gates s |}.
Definition set_counts (n m : Z) (s : wstate) : wstate :=
  {| ws_io := ws_io s; call_ids := call_ids s; starts := starts s; sent := n; received := m; latencies_ns := latencies_ns s;
     failed := failed s; g_starts := g_starts s; g_answers := g_answers s; g_gates := g_gates s |}.
Definition set_latencies (l : list Z) (s : wstate) : wstate :=
  {| ws_io := ws_io s; call_ids := call_ids s; starts := starts s; sent := sent s; received := received s; latencies_ns := l;
     failed := failed s; g_starts := g_starts s; g_answers := g_answers s; g_gates := g_gates s |}.
Definition set_failed (s : wstate) : wstate :=
  {| ws_io := ws_io s; call_ids := call_ids s; starts := starts s; sent := sent s; received := received s; latencies_ns := latencies_ns s;
     failed := true; g_starts := g_starts s; g_answers := g_answers s; g_gates := g_gates s |}.
Definition set_ghost (st : gmap Z Z) (an : list (Z * Z)) (g : nat) (s : wstate) : wstate :=
  {| ws_io := ws_io s; call_ids := call_ids s; starts := starts s; sent := sent s; received := received s; latencies_ns := latencies_ns s;
     failed := failed s; g_starts := st; g_answers := an; g_gates := g |}.

Definition io {A} (f : K -> A * K) : M wstate A := fun s => let '(a, k) := f (ws_io s) in (Ok a, set_io k s).
(** [table[i] = x] *)
Definition put_at (i x : Z) (l : list Z) : res (list Z) := if (0 <=? i) && (i <? zlen l) then Ok (<[Z.to_nat i := x]> l) else UB.
Definition get_at (i : Z) (l : list Z) : res Z := match l !! Z.to_nat i with Some x => if 0 <=? i then Ok x else UB | None => UB end.

Definition write_latency (i x : Z) : M wstate unit :=
  l <- gets latencies_ns ;; l <- lift (put_at (u64 (latency_offset w + i)) x l) ;; modify (set_latencies l).

(** *** One call at a time *)
Definition run_one_call : M wstate unit :=
  values <- io io_call ;;
  match values with Some vs => if validate_response vs 42 then ret tt else fail | None => fail end.
Fixpoint warmup_loop (n : nat) : M wstate unit := match n with O => ret tt | S n => run_one_call ;;; warmup_loop n end.
Fixpoint simple_loop (n : nat) (i : Z) : M wstate unit :=
  match n with
  | O => ret tt
  | S n =>
      start <- io io_now ;;
      run_one_call ;;;
      t <- io io_now ;;
      write_latency i (u64 (t - start)) ;;;
      simple_loop n (i + 1)
  end.

(** *** Several calls on their way *)
Definition send_one : M wstate unit :=
  start <- io io_now ;;
  call_id <- io io_send ;;
  match call_id with
  | None => fail
  | Some call_id =>
      s <- gets id ;;
      let slot := call_id mod pipeline w in
      ids <- lift (put_at slot call_id (call_ids s)) ;;
      sts <- lift (put_at slot start (starts s)) ;;
      modify (set_tables ids sts) ;;;
      modify (set_counts (sent s + 1) (received s)) ;;;
      modify (set_ghost (<[call_id := start]> (g_starts s)) (g_answers s) (g_gates s))
  end.
(** [while (sent < requests && sent - received < pipeline)] *)
Fixpoint fill_loop (fuel : nat) : M wstate unit :=
  s <- gets id ;;
  if (sent s <? requests w) && (u64 (sent s - received s) <? pipeline w) then
    match fuel with O => ub | S fuel => send_one ;;; fill_loop fuel end
  else ret tt.

Definition recv_one : M wstate unit :=
  r <- io io_recv ;;
  match r with
  | None => fail
  | Some (call_id, values) =>
      if negb (validate_response values 42) then fail else
      s <- gets id ;;
      let slot := call_id mod pipeline w in
      kept <- lift (get_at slot (call_ids s)) ;;
      if negb (kept =? call_id) then fail else
      t <- io io_now ;;
      start <- lift (get_at slot (starts s)) ;;
      write_latency (received s) (u64 (t - start)) ;;;
      modify (set_counts (sent s) (received s + 1)) ;;;
      modify (set_ghost (g_starts s) (g_answers s ++ [(call_id, t)]) (g_gates s)) ;;;
      if sent s <? requests w then send_one else ret tt
  end.
(** [while (received < requests)] *)
Fixpoint drain_loop (fuel : nat) : M wstate unit :=
  s <- gets id ;;
  if received s <? requests w then match fuel with O => ub | S fuel => recv_one ;;; drain_loop fuel end else ret tt.

(** every turn sends a request, or receives one *)
Definition pipeline_run : M wstate unit :=
  ids_ok <- io io_table ;;
  starts_ok <- io io_table ;;
  if negb ids_ok || negb starts_ok then fail else
  modify (set_tables (zreplicate (pipeline w) 0) (zreplicate (pipeline w) 0)) ;;;
  modify (set_counts 0 0) ;;;
  fill_loop (Z.to_nat (requests w)) ;;;
  drain_loop (Z.to_nat (requests w)).

(** *** worker_main *)
Definition enter_gate : M wstate bool :=
  modify (fun s => set_ghost (g_starts s) (g_answers s) (S (g_gates s)) s) ;;; io io_gate.
Definition measure : M wstate unit := if pipeline w <=? 1 then simple_loop (Z.to_nat (requests w)) 0 else pipeline_run.

(** from the writer to the label done; the answer is announced_gate *)
Definition worker_body : M wstate bool :=
  r <- attempt (ok <- io io_encode ;; if negb ok then fail else warmup_loop (Z.to_nat (warmup w))) ;;
  match r with
  | None => modify set_failed ;;; ret false
  | Some _ =>
      ok <- enter_gate ;;
      if negb ok then modify set_failed ;;; ret true
      else r <- attempt measure ;; match r with None => modify set_failed ;;; ret true | Some _ => ret true end
  end.
Definition worker_main : M wstate unit :=
  connected <- io io_connect ;;
  if negb connected then modify set_failed ;;; enter_gate ;;; ret tt else
  ok <- io io_set_integrity ;;
  if negb ok then modify set_failed ;;; enter_gate ;;; ret tt else
  announced_gate <- worker_body ;;
  if negb announced_gate then enter_gate ;;; ret tt else ret tt.
End Worker.

(** ** The gate *)
Inductive gate_phase := GRun | GTest | GSleep | GOut (ok : bool).
(** main: before gate_wait_ready; testing its loop; asleep; after it, with its
    result; after gate_start or gate_abort *)
Inductive main_phase := MBefore | MTest | MSleep | MReady (ok : bool) | MAfter.
#[global] Instance gate_phase_eq_dec : EqDecision gate_phase.
Proof. solve_decision. Defined.
#[global] Instance main_phase_eq_dec : EqDecision main_phase.
Proof. solve_decision. Defined.

Record bench_gate := {
  g_ready : Z;
  g_total : Z;
  g_start : bool;
  g_abort : bool;
  g_workers : list gate_phase;
  g_main : main_phase;
}.
Definition gate_zero (n : nat) : bench_gate :=
  {| g_ready := 0; g_total := 0; g_start := false; g_abort := false; g_workers := replicate n GRun; g_main := MBefore |}.

(** pthread_cond_broadcast *)
Definition wake_worker (p : gate_phase) : gate_phase := match p with GSleep => GTest | _ => p end.
Definition broadcast (g : bench_gate) : bench_gate :=
  {| g_ready := g_ready g; g_total := g_total g; g_start := g_start g; g_abort := g_abort g; g_workers := map wake_worker (g_workers g);
     g_main := match g_main g with MSleep => MTest | p => p end |}.
Definition set_worker (i : nat) (p : gate_phase) (g : bench_gate) : bench_gate :=
  {| g_ready := g_ready g; g_total := g_total g; g_start := g_start g; g_abort := g_abort g; g_workers := <[i := p]> (g_workers g); g_main := g_main g |}.
Definition set_main (p : main_phase) (g : bench_gate) : bench_gate :=
  {| g_ready := g_ready g; g_total := g_total g; g_start := g_start g; g_abort := g_abort g; g_workers := g_workers g; g_main := p |}.
Definition set_flags (start abort : bool) (g : bench_gate) : bench_gate :=
  {| g_ready := g_ready g; g_total := g_total g; g_start := start; g_abort := abort; g_workers := g_workers g; g_main := g_main g |}.
Definition set_numbers (ready total : Z) (g : bench_gate) : bench_gate :=
  {| g_ready := ready; g_total := total; g_start := g_start g; g_abort := g_abort g; g_workers := g_workers g; g_main := g_main g |}.

(** the loop of gate_ready_and_wait with the mutex held: it ends, or waits *)
Definition gate_test (i : nat) (g : bench_gate) : bench_gate :=
  set_worker i (if g_start g || g_abort g then GOut (negb (g_abort g)) else GSleep) g.
Definition gate_ready_and_wait (i : nat) (g : bench_gate) : bench_gate :=
  gate_test i (broadcast (set_numbers (u64 (g_ready g + 1)) (g_total g) g)).
(** the loop of gate_wait_ready *)
Definition ready_test (g : bench_gate) : bench_gate :=
  set_main (if (g_ready g <? g_total g) && negb (g_abort g) then MSleep else MReady (negb (g_abort g))) g.
Definition gate_wait_ready (total : Z) (g : bench_gate) : bench_gate := ready_test (set_numbers (g_ready g) total g).
(** pthread_cond_timedwait has answered ETIMEDOUT *)
Definition gate_timeout (g : bench_gate) : bench_gate := set_main (MReady false) (broadcast (set_flags (g_start g) true g)).
Definition gate_start (g : bench_gate) : bench_gate := broadcast (set_flags true (g_abort g) g).
Definition gate_abort (g : bench_gate) : bench_gate := broadcast (set_flags (g_start g) true g).

Inductive gate_action :=
| GEnter (i : nat) | GWake (i : nat) | GSpurious (i : nat)
| GWaitReady (total : Z) | GMainWake | GMainSpurious | GTimeout | GStart | GAbort.

(** [None]: not possible.  When everybody is ready main starts, or, when a worker
    has failed, aborts; after a time-out the gate is aborted already *)
Definition gate_step (a : gate_action) (g : bench_gate) : option bench_gate :=
  match a with
  | GEnter i => match g_workers g !! i with Some GRun => Some (gate_ready_and_wait i g) | _ => None end
  | GWake i => match g_workers g !! i with Some GTest => Some (gate_test i g) | _ => None end
  | GSpurious i => match g_workers g !! i with Some GSleep => Some (set_worker i GTest g) | _ => None end
  | GWaitReady total => match g_main g with MBefore => Some (gate_wait_ready total g) | _ => None end
  | GMainWake => match g_main g with MTest => Some (ready_test g) | _ => None end
  | GMainSpurious => match g_main g with MSleep => Some (set_main MTest g) | _ => None end
  | GTimeout => match g_main g with MSleep | MTest => Some (gate_timeout g) | _ => None end
  | GStart => match g_main g with MReady true => Some (gate_start (set_main MAfter g)) | _ => None end
  | GAbort => match g_main g with MReady true => Some (gate_abort (set_main MAfter g)) | _ => None end
  end.
Fixpoint gate_run (l : list gate_action) (g : bench_gate) : option bench_gate :=
  match l with [] => Some g | a :: l => match gate_step a g with Some g => gate_run l g | None => None end end.

(** ** Theorems: measuring *)

(** what the client promises: its ids count up, in 64 bits *)
Class BenchLaws (K : Type) `{IO : BenchIO K} := {
  io_next : K -> Z;
  io_pending : K -> list Z;
  law_now : forall k, io_next (io_now k).2 = io_next k /\ io_pending (io_now k).2 = io_pending k;
  law_table : forall k, io_next (io_table k).2 = io_next k /\ io_pending (io_table k).2 = io_pending k;
  law_send : forall k id k', io_send k = (Some id, k') -> id = io_next k /\ io_next k' = u64 (id + 1) /\ io_pending k' = io_pending k ++ [id];
  law_recv : forall k, io_next (io_recv k).2 = io_next k;
  (** a new client's first id is 1; a call that is answered has taken an id and waited for its answer *)
  law_connect : forall k, io_next (io_connect k).2 = 1 /\ io_pending (io_connect k).2 = [];
  law_call : forall k vs k', io_call k = (Some vs, k') -> io_next k' = u64 (io_next k + 1) /\ io_pending k' = io_pending k;
  law_other : forall k, (io_next (io_set_integrity k).2 = io_next k /\ io_pending (io_set_integrity k).2 = io_pending k) /\
    (io_next (io_encode k).2 = io_next k /\ io_pending (io_encode k).2 = io_pending k) /\
    (io_next (io_gate k).2 = io_next k /\ io_pending (io_gate k).2 = io_pending k);
}.
(** what a server promises: an answer is to a call that waits for one *)
Definition answers_calls (K : Type) `{BenchLaws K} : Prop :=
  forall k id vs k', io_recv k = (Some (id, vs), k') -> io_pending k ≡ₚ id :: io_pending k'.
(** memory is there, sending works, and the server answers 42 to its calls in their order *)
Record in_order (K : Type) `{BenchLaws K} : Prop := {
  ord_table : forall k, (io_table k).1 = true;
  ord_send : forall k, (io_send k).1 <> None;
  ord_answers : answers_calls K;
  ord_recv : forall k id rest, io_pending k = id :: rest -> exists k', io_recv k = (Some (id, [VI64 42]), k') /\ io_pending k' = rest;
}.

Section Measure.
Context `{BL : BenchLaws K} (w : job) (first : Z) (lat0 : list Z) (gates : nat) (flag : bool).
Hypothesis Hfirst : 1 <= first.
Hypothesis Hlast : first + requests w < 2 ^ 64.
Hypothesis Hpipe : 1 < pipeline w < 2 ^ 64.
Hypothesis Hreq : 0 <= requests w.
Hypothesis Hroom : 0 <= latency_offset w /\ latency_offset w + requests w <= zlen lat0 < 2 ^ 64.

(** the first [n] answers are in their places *)
Definition answers_written (s : @wstate K) : Prop :=
  forall i id t, g_answers s !! i = Some (id, t) ->
    exists start, g_starts s !! id = Some start /\ latencies_ns s !! (Z.to_nat (latency_offset w) + i)%nat = Some (u64 (t - start)).
(** nothing else of the array has changed *)
Definition others_kept (s : @wstate K) : Prop :=
  length (latencies_ns s) = length lat0 /\
  forall j, (j < Z.to_nat (latency_offset w) \/ Z.to_nat (latency_offset w) + length (g_answers s) <= j)%nat -> latencies_ns s !! j = lat0 !! j.

Record measuring (s : @wstate K) : Prop := {
  ms_counts : 0 <= received s <= requests w /\ 0 <= sent s <= requests w;
  ms_next : io_next (ws_io s) = first + sent s;
  ms_ids : answers_calls K -> map fst (g_answers s) ++ io_pending (ws_io s) ≡ₚ seqZ first (sent s);
  ms_received : Z.of_nat (length (g_answers s)) = received s;
  ms_starts : forall id, first <= id < first + sent s -> is_Some (g_starts s !! id);
  ms_tables : zlen (call_ids s) = pipeline w /\ zlen (starts s) = pipeline w;
  ms_slots : forall slot c, call_ids s !! slot = Some c -> c < first + sent s /\ (first <= c -> g_starts s !! c = starts s !! slot);
  ms_written : answers_calls K -> answers_written s;
  ms_kept : others_kept s;
  ms_flags : g_gates s = gates /\ failed s = flag;
  ms_order : in_order K -> io_pending (ws_io s) = seqZ (first + received s) (sent s - received s) /\ 0 <= sent s - received s <= pipeline w /\
    forall c, first + received s <= c < first + sent s -> call_ids s !! Z.to_nat (c mod pipeline w) = Some c;
}.

(** the share of the others *)
Definition shares_kept (l : list Z) : Prop :=
  length l = length lat0 /\
  forall j, (j < Z.to_nat (latency_offset w) \/ Z.to_nat (latency_offset w + requests w) <= j)%nat -> l !! j = lat0 !! j.
(** after a failure *)
Definition broken (s : @wstate K) : Prop := ~ in_order K /\ shares_kept (latencies_ns s) /\ g_gates s = gates /\ failed s = flag.

Lemma measuring_shares s : measuring s -> shares_kept (latencies_ns s).
Proof. intros [Hc _ _ Hrc _ _ _ _ [Hl Hk] _ _]. split; [done |]. intros j Hj. apply Hk. lia. Qed.
Lemma measuring_broken s s' : measuring s -> ~ in_order K -> latencies_ns s' = latencies_ns s -> g_gates s' = g_gates s -> failed s' = failed s -> broken s'.
Proof. intros Hm Ho El Eg Ef. destruct (ms_flags s Hm). split_and!; [done | rewrite El; by apply measuring_shares | congruence | congruence]. Qed.

Lemma measuring_io k s : measuring s -> io_next k = io_next (ws_io s) -> io_pending k = io_pending (ws_io s) -> measuring (set_io k s).
Proof. intros [] E1 E2. split; cbn; rewrite ?E1, ?E2; done. Qed.

Lemma call_slot_range c : 0 <= c mod pipeline w < pipeline w.
Proof. apply Z.mod_pos_bound. lia. Qed.

(** two ids that share a slot are a round apart *)
Lemma slot_same c id : c mod pipeline w = id mod pipeline w -> id - pipeline w < c < id -> False.
Proof.
  intros He Hc. pose proof (Z.div_mod c (pipeline w) ltac:(lia)). pose proof (Z.div_mod id (pipeline w) ltac:(lia)).
  assert (pipeline w * (id / pipeline w - c / pipeline w) = id - c) by lia.
  assert (0 < id / pipeline w - c / pipeline w < 1) by nia. lia.
Qed.
Lemma wp_io {A} (f : K -> A * K) Q E (s : @wstate K) : Q (f (ws_io s)).1 (set_io (f (ws_io s)).2 s) -> wp (io f) Q E s.
Proof. unfold wp, io. by destruct (f (ws_io s)). Qed.

Lemma put_at_ok i x l : 0 <= i < zlen l -> put_at i x l = Ok (<[Z.to_nat i := x]> l).
Proof. intros Hi. unfold put_at. by rewrite (proj2 (Z.leb_le _ _)), (proj2 (Z.ltb_lt _ _)) by lia. Qed.
Lemma zlen_insert (l : list Z) i x : zlen (<[i := x]> l) = zlen l.
Proof. unfold zlen. by rewrite length_insert. Qed.

Lemma seqZ_snoc m n : 0 <= n -> seqZ m (n + 1) = seqZ m n ++ [m + n].
Proof. intros Hn. rewrite <- (Z2Nat.id n) by lia. rewrite <- seqZ_S. f_equal. lia. Qed.

Lemma send_one_wp s : measuring s -> sent s < requests w -> (in_order K -> sent s - received s < pipeline w) ->
  wp (send_one w) (fun _ s' => measuring s' /\ sent s' = sent s + 1 /\ received s' = received s) broken s.
Proof.
  intros Hm Hs Hfit. unfold send_one. apply wp_bind, wp_io. destruct (law_now (ws_io s)) as [En Ep].
  set (start := (io_now (ws_io s)).1). set (k1 := (io_now (ws_io s)).2) in *.
  pose proof (measuring_io k1 s Hm En Ep) as Hm1. set (s1 := set_io k1 s) in *. change (sent s) with (sent s1) in *. change (received s) with (received s1) in *.
  clearbody s1 start. clear Hm En Ep. apply wp_bind, wp_io. destruct (io_send (ws_io s1)) as [[id|] k2] eqn:E; cbn [fst snd].
  2: { apply wp_fail. apply (measuring_broken s1); [done | | done | done | done]. intros Ho. apply (ord_send _ Ho (ws_io s1)). by rewrite E. }
  apply law_send in E as (-> & En & Ep). pose proof Hm1 as [Hc Hn Hids Hrc Hst [Ht1 Ht2] Hsl Hwr Hkp Hfl Hor].
  rewrite Hn in *. set (id := first + sent s1) in *. rewrite u64_small in En by lia. pose proof (call_slot_range id) as Hslot.
  unfold wp, bind, gets, lift, modify, Datatypes.id. cbn [set_io call_ids starts sent received g_starts g_answers g_gates set_tables set_counts].
  rewrite !put_at_ok by lia. cbn [set_tables set_counts set_ghost sent received g_starts]. split; [| done].
  assert (Hfresh : forall c, c < id -> <[id := start]> (g_starts s1) !! c = g_starts s1 !! c) by (intros c Hlt; apply lookup_insert_ne; lia).
  assert (Hans : answers_calls K -> forall i c t, g_answers s1 !! i = Some (c, t) -> c < id).
  { intros Hh i c t Hi. assert (Hin : c ∈ seqZ first (sent s1)).
    { rewrite <- Hids by done. apply elem_of_app. left. apply list_elem_of_fmap. exists (c, t). split; [done | by eapply list_elem_of_lookup_2]. }
    apply elem_of_seqZ in Hin. lia. }
  split; cbn [set_tables set_counts set_ghost set_io ws_io call_ids starts sent received latencies_ns g_starts g_answers].
  - lia.
  - lia.
  - intros Hh. rewrite Ep, app_assoc, Hids by done. by rewrite seqZ_snoc by lia.
  - done.
  - intros c Hcr. destruct (decide (c = id)) as [-> | ?]; [by rewrite lookup_insert_eq |]. rewrite Hfresh by lia. apply Hst. lia.
  - by rewrite !zlen_insert.
  - intros slot c Hsc. destruct (decide (slot = Z.to_nat (id mod pipeline w))) as [-> | Hne].
    + rewrite list_lookup_insert_eq in Hsc by (unfold zlen in Ht1; lia). injection Hsc as <-. split; [lia |]. intros _.
      rewrite lookup_insert_eq, list_lookup_insert_eq by (unfold zlen in Ht2; lia). done.
    + rewrite list_lookup_insert_ne in Hsc by done. destruct (Hsl _ _ Hsc) as [Hlt Hst']. split; [lia |]. intros Hf.
      rewrite Hfresh, list_lookup_insert_ne by done. by apply Hst'.
  - intros Hh i c t Hi. cbn. destruct (Hwr Hh i c t Hi) as (st & Hg & Hl). exists st. rewrite Hfresh by (by eapply Hans). done.
  - exact Hkp.
  - exact Hfl.
  - intros Ho. destruct (Hor Ho) as (Hpend & Hfit' & Hslots). specialize (Hfit Ho). split; [| split; [lia |]].
    + rewrite Ep, Hpend. replace (sent s1 + 1 - received s1) with (sent s1 - received s1 + 1) by lia.
      rewrite seqZ_snoc by lia. do 2 f_equal. lia.
    + intros c Hcr. destruct (decide (c = id)) as [-> | Hne].
      * apply list_lookup_insert_eq. unfold zlen in Ht1. lia.
      * rewrite list_lookup_insert_ne; [apply Hslots; lia |]. intros He. apply (slot_same c id); [| lia].
        pose proof (call_slot_range c). lia.
Qed.

Lemma fill_wp fuel s : measuring s -> received s = 0 -> requests w - sent s <= Z.of_nat fuel ->
  wp (fill_loop w fuel) (fun _ s' => measuring s' /\ received s' = 0 /\ (sent s' = requests w \/ pipeline w <= sent s')) broken s.
Proof.
  revert s. induction fuel as [|fuel IH]; intros s Hm Hr Hf; cbn [fill_loop]; apply wp_bind; unfold wp at 1, gets, Datatypes.id.
  all: pose proof (ms_counts s Hm) as Hc; rewrite Hr, Z.sub_0_r.
  - rewrite (proj2 (Z.ltb_ge _ _)) by lia. cbn [andb]. apply wp_ret. split; [done |]. split; [done | left; lia].
  - rewrite u64_small by lia. destruct (Z.ltb_spec (sent s) (requests w)) as [Hs | Hs]; cbn [andb];
      [| apply wp_ret; split; [done |]; split; [done | left; lia]].
    destruct (Z.ltb_spec (sent s) (pipeline w)) as [Hp | Hp]; [| apply wp_ret; split; [done |]; split; [done | by right]].
    apply wp_bind. eapply wp_mono; [apply send_one_wp; [done | done | lia] | | done].
    intros _ s' (Hm' & Hs' & Hr'). apply IH; [done | lia | lia].
Qed.
(** an answer that is accepted: the state before the next request *)
Definition answered (k : K) (lat : list Z) (id t : Z) (s : @wstate K) : @wstate K :=
  set_ghost (g_starts s) (g_answers s ++ [(id, t)]) (g_gates s) (set_counts (sent s) (received s + 1) (set_latencies lat (set_io k s))).

Lemma answered_ok s k id t start pend : measuring s -> received s < requests w ->
  io_next k = io_next (ws_io s) -> (answers_calls K -> io_pending (ws_io s) ≡ₚ id :: pend) -> io_pending k = pend ->
  call_ids s !! Z.to_nat (id mod pipeline w) = Some id -> starts s !! Z.to_nat (id mod pipeline w) = Some start ->
  (in_order K -> io_pending (ws_io s) = id :: pend) ->
  measuring (answered k (<[Z.to_nat (latency_offset w + received s) := u64 (t - start)]> (latencies_ns s)) id t s).
Proof.
  intros [Hc Hn Hids Hrc Hst Ht Hsl Hwr [Hkl Hkp] Hfl Hor] Hr En Ep Ek Hslot Hstart Hord.
  assert (Hid : answers_calls K -> first <= id).
  { intros Hh. enough (id ∈ seqZ first (sent s)) as ?%elem_of_seqZ by lia. rewrite <- Hids, Ep by done. set_solver. }
  assert (Hlt : answers_calls K -> received s < sent s).
  { intros Hh. specialize (Hids Hh). apply Permutation_length in Hids. rewrite length_app, length_map, Ep, length_seqZ in Hids by done. cbn [length] in Hids. lia. }
  assert (Hpos : Z.to_nat (latency_offset w + received s) = (Z.to_nat (latency_offset w) + length (g_answers s))%nat) by lia.
  split; unfold answered; cbn [set_ghost set_counts set_latencies set_io ws_io call_ids starts sent received latencies_ns g_starts g_answers].
  - lia.
  - by rewrite En.
  - intros Hh. rewrite Ek, map_app, <- app_assoc. cbn [map fst app]. rewrite <- Ep by done. by apply Hids.
  - rewrite length_app. cbn [length]. lia.
  - done.
  - done.
  - done.
  - intros Hh i c t' Hi. cbn. specialize (Hid Hh). rewrite Hpos. apply lookup_app_Some in Hi as [Hi | [Hge Hi]].
    + destruct (Hwr Hh i c t' Hi) as (st & Hg & Hl). exists st. split; [done |]. apply lookup_lt_Some in Hi. rewrite list_lookup_insert_ne by lia. done.
    + apply list_lookup_singleton_Some in Hi as [Hi [= <- <-]]. exists start. destruct (Hsl _ _ Hslot) as [_ Hs].
      rewrite Hs by lia. split; [done |]. replace i with (length (g_answers s)) by lia. apply list_lookup_insert_eq. unfold zlen in Hroom. lia.
  - split; cbn; [by rewrite length_insert |]. intros j Hj. rewrite length_app in Hj. cbn [length] in Hj.
    rewrite Hpos, list_lookup_insert_ne by lia. apply Hkp. lia.
  - exact Hfl.
  - intros Ho. specialize (Hlt (ord_answers _ Ho)). destruct (Hor Ho) as (Hpend & Hfit & Hslots). rewrite (Hord Ho), seqZ_cons in Hpend by lia. injection Hpend as _ Hpend.
    split; [rewrite Ek, Hpend; f_equal; lia |]. split; [lia |]. intros c Hcr. apply Hslots. lia.
Qed.

Lemma recv_one_wp s : measuring s -> received s < requests w -> (in_order K -> received s < sent s) ->
  wp (recv_one w) (fun _ s' => measuring s' /\ received s' = received s + 1 /\ sent s' = Z.min (sent s + 1) (requests w)) broken s.
Proof.
  intros Hm Hr Hlt. pose proof Hm as [Hc Hn Hids Hrc Hst [Ht1 Ht2] Hsl Hwr [Hkl Hkp] Hfl Hor]. unfold recv_one.
  assert (Hordered : in_order K -> exists k rest, io_pending (ws_io s) = (first + received s) :: rest /\
    io_recv (ws_io s) = (Some (first + received s, [VI64 42]), k) /\ io_pending k = rest).
  { intros Ho. destruct (Hor Ho) as (Hpend & _ & _). specialize (Hlt Ho). rewrite seqZ_cons in Hpend by lia.
    destruct (ord_recv _ Ho _ _ _ Hpend) as (k & Er & Ek). by eexists _, _. }
  apply wp_bind, wp_io. destruct (io_recv (ws_io s)) as [[[id vs]|] k1] eqn:E; cbn [fst snd].
  2: { apply wp_fail. apply (measuring_broken s); [done | | done | done | done]. intros Ho. destruct (Hordered Ho) as (k & rest & _ & Er & _). discriminate. }
  destruct (validate_response vs 42) eqn:Ev; cbn [negb].
  2: { apply wp_fail. apply (measuring_broken s); [done | | done | done | done]. intros Ho. destruct (Hordered Ho) as (k & rest & _ & Er & _). injection Er as _ -> _. discriminate. }
  pose proof (law_recv (ws_io s)) as En. rewrite E in En. cbn in En.
  assert (Ep : answers_calls K -> io_pending (ws_io s) ≡ₚ id :: io_pending k1) by (intros Hh; by eapply Hh).
  assert (Hord : in_order K -> io_pending (ws_io s) = id :: io_pending k1 /\ call_ids s !! Z.to_nat (id mod pipeline w) = Some id).
  { intros Ho. destruct (Hordered Ho) as (k & rest & Hp & Er & Ek). injection Er as Eid _ Ekk. subst k rest id. split; [done |]. destruct (Hor Ho) as (_ & _ & Hslots). apply Hslots.
    specialize (Hlt Ho). lia. }
  pose proof (call_slot_range id) as Hslot.
  apply wp_bind. unfold wp at 1, gets, Datatypes.id. cbn [set_io call_ids starts sent received g_starts g_answers g_gates].
  destruct (lookup_lt_is_Some_2 (call_ids s) (Z.to_nat (id mod pipeline w))) as [kept Ek]; [unfold zlen in Ht1; lia |].
  destruct (lookup_lt_is_Some_2 (starts s) (Z.to_nat (id mod pipeline w))) as [start Es]; [unfold zlen in Ht2; lia |].
  apply wp_bind. unfold wp at 1, lift, get_at. rewrite Ek, (proj2 (Z.leb_le _ _)) by lia.
  destruct (Z.eqb_spec kept id) as [-> | Hne]; cbn [negb].
  2: { apply wp_fail. apply (measuring_broken s); [done | | done | done | done]. intros Ho. destruct (Hord Ho) as [_ Hk]. congruence. }
  apply wp_bind, wp_io. cbn [set_io ws_io]. destruct (law_now k1) as [En2 Ep2]. set (t := (io_now k1).1). set (k2 := (io_now k1).2) in *. clearbody t k2.
  apply wp_bind. unfold wp at 1. rewrite Es.
  pose proof (answered_ok s k2 id t start (io_pending k1) Hm Hr ltac:(congruence) Ep Ep2 Ek Es (fun Ho => proj1 (Hord Ho))) as Ha.
  apply wp_bind. unfold wp at 1, write_latency, bind, gets, lift, modify. cbn [set_io latencies_ns].
  rewrite u64_small, put_at_ok by (unfold zlen in *; lia).
  set (s3 := answered _ _ _ _ _) in Ha.
  match goal with |- wp _ ?Q ?E _ => change (wp (if sent s3 <? requests w then send_one w else ret tt) Q E s3) end.
  change (sent s) with (sent s3) in *. change (received s + 1) with (received s3). destruct (Z.ltb_spec (sent s3) (requests w)) as [Hs | Hs].
  - eapply wp_mono; [apply send_one_wp; [done | done |] | | done].
    + intros Ho. destruct (Hor Ho) as (_ & Hfit & _). change (received s3) with (received s + 1). lia.
    + intros _ s' (Hm' & Hs' & Hr'). split; [done |]. split; [done | lia].
  - apply wp_ret. split; [done |]. split; [done |]. pose proof (ms_counts s3 Ha). lia.
Qed.

Lemma drain_wp fuel s : measuring s -> requests w - received s <= Z.of_nat fuel -> (in_order K -> received s < requests w -> received s < sent s) ->
  wp (drain_loop w fuel) (fun _ s' => measuring s' /\ received s' = requests w) broken s.
Proof.
  revert s. induction fuel as [|fuel IH]; intros s Hm Hf Ho; cbn [drain_loop]; apply wp_bind; unfold wp at 1, gets, Datatypes.id.
  all: pose proof (ms_counts s Hm) as Hc.
  - rewrite (proj2 (Z.ltb_ge _ _)) by lia. apply wp_ret. split; [done | lia].
  - destruct (Z.ltb_spec (received s) (requests w)) as [Hr | Hr]; [| apply wp_ret; split; [done | lia]].
    apply wp_bind. eapply wp_mono; [apply recv_one_wp; [done | done | intros; by apply Ho] | | done].
    intros _ s' (Hm' & Hr' & Hs'). pose proof (ms_counts s' Hm'). apply IH; [done | lia |]. intros Hord Hlt. specialize (Ho Hord Hr). lia.
Qed.

(** several calls on their way: every request is measured once, by its own start *)
Definition all_measured (s : @wstate K) : Prop :=
  answers_calls K -> map fst (g_answers s) ≡ₚ seqZ first (requests w) /\ answers_written s.

Lemma pipeline_wp s : io_next (ws_io s) = first -> io_pending (ws_io s) = [] -> latencies_ns s = lat0 -> g_answers s = [] ->
  g_gates s = gates -> failed s = flag ->
  wp (pipeline_run w) (fun _ s' => all_measured s' /\ shares_kept (latencies_ns s') /\ g_gates s' = gates /\ failed s' = flag) broken s.
Proof.
  intros En Ep El Ea Eg Ef. unfold pipeline_run. apply wp_bind, wp_io. destruct (law_table (ws_io s)) as [N1 P1].
  destruct (io_table (ws_io s)) as [ok1 k1] eqn:E1. cbn [fst snd] in *. apply wp_bind, wp_io. cbn [set_io ws_io]. destruct (law_table k1) as [N2 P2].
  destruct (io_table k1) as [ok2 k2] eqn:E2. cbn [fst snd] in *. destruct (negb ok1 || negb ok2) eqn:Eok.
  { apply wp_fail. split_and!; [| cbn; rewrite El; by split | done | done]. intros Ho.
    pose proof (ord_table _ Ho (ws_io s)) as T1. pose proof (ord_table _ Ho k1) as T2. rewrite E1 in T1. rewrite E2 in T2. cbn in T1, T2. by subst. }
  apply wp_bind. unfold wp at 1, modify. apply wp_bind. unfold wp at 1. apply wp_bind.
  match goal with |- wp _ _ _ ?x => set (s1 := x) end.
  assert (Hm : measuring s1).
  { split; unfold s1; cbn [set_tables set_counts set_io ws_io call_ids starts sent received latencies_ns g_starts g_answers g_gates failed]; try done.
    - by rewrite N2, N1, En, Z.add_0_r.
    - intros _. by rewrite Ea, P2, P1, Ep.
    - by rewrite Ea.
    - intros id Hid. lia.
    - rewrite !zlen_zreplicate by lia. done.
    - intros slot c Hsc. unfold zreplicate in Hsc. apply lookup_replicate in Hsc as [-> _]. split; [lia |]. intros ?. lia.
    - intros _ i id t Hi. cbn in Hi. by rewrite Ea in Hi.
    - split; cbn; [by rewrite El |]. intros j _. by rewrite El.
    - intros Ho. rewrite P2, P1, Ep. split; [done |]. split; [lia |]. intros c Hc. lia. }
  assert (Hr : received s1 = 0) by done. assert (Hs : sent s1 = 0) by done. clearbody s1.
  eapply wp_mono; [apply fill_wp; [done | done | lia] | | done]. intros _ s2 (Hm2 & Hr2 & Hs2). pose proof (ms_counts s2 Hm2).
  eapply wp_mono; [apply drain_wp; [done | lia | intros; lia] | | done]. intros _ s3 (Hm3 & Hr3). destruct (ms_flags s3 Hm3).
  split; [| split; [by apply measuring_shares | done]]. intros Hh. split; [| by apply ms_written].
  pose proof (ms_counts s3 Hm3). pose proof (ms_ids s3 Hm3 Hh) as Hids. pose proof (ms_received s3 Hm3).
  assert (Es : sent s3 = requests w).
  { apply Permutation_length in Hids. rewrite length_app, length_map, length_seqZ in Hids. lia. }
  rewrite Es in Hids.
  assert (Hnil : io_pending (ws_io s3) = []).
  { apply length_zero_iff_nil. apply Permutation_length in Hids. rewrite length_app, length_map, length_seqZ in Hids. lia. }
  by rewrite Hnil, app_nil_r in Hids.
Qed.

End Measure.

(** *** Calls one at a time, and the whole worker *)
Section Main.
Context `{BL : BenchLaws K} (w : job) (lat0 : list Z).
Hypothesis Hreq : 0 <= requests w.
Hypothesis Hwarm : 0 <= warmup w /\ 1 + warmup w + requests w < 2 ^ 64.
Hypothesis Hpipe : 0 < pipeline w < 2 ^ 64.
Hypothesis Hroom : 0 <= latency_offset w /\ latency_offset w + requests w <= zlen lat0 < 2 ^ 64.

Lemma run_one_call_wp (s : @wstate K) :
  wp run_one_call (fun _ s' => exists k, io_call (ws_io s) = (Some [VI64 42], k) /\ s' = set_io k s) (fun s' => exists k, s' = set_io k s) s.
Proof.
  unfold run_one_call. apply wp_bind, wp_io. destruct (io_call (ws_io s)) as [[vs|] k] eqn:E; cbn [fst snd]; [| apply wp_fail; by exists k].
  destruct (validate_response vs 42) eqn:Ev; [| apply wp_fail; by exists k]. apply wp_ret. exists k. split; [| done].
  unfold validate_response in Ev. destruct vs as [|[| |v| | | |] []]; try discriminate. by apply Z.eqb_eq in Ev as ->.
Qed.

(** warming up takes ids, and leaves nothing waiting *)
Lemma warmup_wp n (s : @wstate K) : 0 <= io_next (ws_io s) -> io_next (ws_io s) + Z.of_nat n < 2 ^ 64 ->
  wp (warmup_loop n) (fun _ s' => exists k, s' = set_io k s /\ io_next k = io_next (ws_io s) + Z.of_nat n /\ io_pending k = io_pending (ws_io s))
    (fun s' => exists k, s' = set_io k s) s.
Proof.
  revert s. induction n as [|n IH]; intros s H0 Hn; cbn [warmup_loop].
  { apply wp_ret. exists (ws_io s). split; [by destruct s |]. split; [lia | done]. }
  apply wp_bind. eapply wp_mono; [apply run_one_call_wp | | done]. intros _ s' (k & E & ->).
  apply law_call in E as [Ek Ep]. rewrite u64_small in Ek by lia.
  eapply wp_mono; [apply IH; cbn; lia | |].
  - intros _ s' (k' & -> & En & Ep'). exists k'. cbn in *. split_and!; [done | lia | congruence].
  - intros s' (k' & ->). by exists k'.
Qed.

(** what a run that measures may change *)
Definition in_share (s s' : @wstate K) : Prop :=
  shares_kept w lat0 (latencies_ns s') /\ g_gates s' = g_gates s /\ failed s' = failed s.

(** calls one after the other, each answered with 42, and for each the time from
    the reading of the clock before it to the one after it *)
Inductive timed_calls : K -> list Z -> K -> Prop :=
| timed_none k : timed_calls k [] k
| timed_call k start k1 k2 stop k3 l k' :
    io_now k = (start, k1) -> io_call k1 = (Some [VI64 42], k2) -> io_now k2 = (stop, k3) -> timed_calls k3 l k' ->
    timed_calls k (u64 (stop - start) :: l) k'.

(** [l] is at [i] in the share of the array *)
Definition written_at (i : Z) (l : list Z) (s : @wstate K) : Prop :=
  forall j x, l !! j = Some x -> latencies_ns s !! (Z.to_nat (latency_offset w + i) + j)%nat = Some x.

Lemma simple_wp n i (s : @wstate K) : 0 <= i -> i + Z.of_nat n <= requests w -> shares_kept w lat0 (latencies_ns s) ->
  wp (simple_loop w n i) (fun _ s' => in_share s s' /\
      (forall j, (j < Z.to_nat (latency_offset w + i))%nat -> latencies_ns s' !! j = latencies_ns s !! j) /\
      exists l, timed_calls (ws_io s) l (ws_io s') /\ length l = n /\ written_at i l s')
    (in_share s) s.
Proof.
  revert i s. induction n as [|n IH]; intros i s Hi Hn Hl; cbn [simple_loop].
  { apply wp_ret. split; [done |]. split; [done |]. exists []. split; [constructor | done]. }
  apply wp_bind, wp_io. destruct (io_now (ws_io s)) as [start k1] eqn:E1. cbn [fst snd].
  apply wp_bind. eapply wp_mono; [apply run_one_call_wp | | intros s' (k & ->); done]. intros _ s' (k2 & E2 & ->).
  apply wp_bind, wp_io. cbn [set_io ws_io] in *. destruct (io_now k2) as [stop k3] eqn:E3. cbn [fst snd].
  apply wp_bind. unfold wp at 1, write_latency, bind, gets, lift, modify. cbn [set_io latencies_ns]. pose proof Hl as [Hlen Hk].
  assert (Hz : zlen (latencies_ns s) = zlen lat0) by (unfold zlen; lia).
  rewrite u64_small, put_at_ok by lia. set (x := u64 (stop - start)).
  assert (Hpos : Z.to_nat (latency_offset w + (i + 1)) = S (Z.to_nat (latency_offset w + i))) by lia.
  eapply wp_mono; [apply IH; [lia | lia |] | |]; [| | intros ?; exact (fun H => H)].
  - cbn [set_latencies latencies_ns]. split; [by rewrite length_insert |]. intros j Hj. rewrite list_lookup_insert_ne by lia. by apply Hk.
  - cbn [set_latencies latencies_ns set_io ws_io]. intros _ s' (Hs & Hbefore & l & Ht & Hlen' & Hw). split; [exact Hs |]. rewrite Hpos in Hbefore. split.
    + intros j Hj. rewrite Hbefore by lia. apply list_lookup_insert_ne. lia.
    + exists (x :: l). split; [by econstructor |]. split; [cbn; congruence |]. intros [|j] y; cbn [lookup list_lookup].
      * intros [= <-]. rewrite Nat.add_0_r, Hbefore by lia. apply list_lookup_insert_eq. unfold zlen in *. lia.
      * intros Hy. specialize (Hw j y Hy). rewrite Hpos in Hw. by rewrite Nat.add_succ_r.
Qed.

Definition measured (s : @wstate K) : Prop := exists first, 1 <= first /\ all_measured w first s.
Definition measured_singly (k : K) (s : @wstate K) : Prop :=
  exists l, timed_calls k l (ws_io s) /\ Z.of_nat (length l) = requests w /\ written_at 0 l s.

Lemma measure_wp (s : @wstate K) : 1 <= io_next (ws_io s) -> io_next (ws_io s) + requests w < 2 ^ 64 -> io_pending (ws_io s) = [] -> latencies_ns s = lat0 -> g_answers s = [] ->
  wp (measure w) (fun _ s' => in_share s s' /\ (1 < pipeline w -> measured s') /\ (pipeline w <= 1 -> measured_singly (ws_io s) s')) (in_share s) s.
Proof.
  intros Hn Hlast Hp Hl Ha. unfold measure. destruct (Z.leb_spec (pipeline w) 1) as [H1 | H1].
  - eapply wp_mono; [apply simple_wp; [lia | lia | by rewrite Hl] | | done]. intros ? s' (Hs & _ & l & Ht & Hlen & Hw). split; [done |]. split; [lia |].
    intros _. exists l. split; [done |]. split; [lia | done].
  - eapply wp_mono; [apply (pipeline_wp w (io_next (ws_io s)) lat0 (g_gates s) (failed s)); try done; lia | |].
    + intros ? s' (Hm & Hk & Hg & Hf). split; [done |]. split; [| lia]. intros _. by exists (io_next (ws_io s)).
    + intros s' (_ & Hk & Hg & Hf). done.
Qed.

Lemma enter_gate_wp (s : @wstate K) :
  wp enter_gate (fun ok s' => exists k, s' = set_io k (set_ghost (g_starts s) (g_answers s) (S (g_gates s)) s) /\
    io_gate (ws_io s) = (ok, k) /\ io_next k = io_next (ws_io s) /\ io_pending k = io_pending (ws_io s)) (fun _ => False) s.
Proof.
  unfold enter_gate. apply wp_bind. unfold wp at 1, modify. apply wp_io. cbn [set_ghost ws_io].
  destruct (law_other (ws_io s)) as (_ & _ & Hg). exists (io_gate (ws_io s)).2. split; [done |]. split; [apply surjective_pairing | done].
Qed.

(** what holds at the end of a worker that has entered the gate [n] times *)
Definition worker_done (n : nat) (s : @wstate K) : Prop :=
  g_gates s = n /\ shares_kept w lat0 (latencies_ns s) /\ (failed s = false -> 1 < pipeline w -> measured s) /\
  (failed s = false -> pipeline w <= 1 -> exists k, (io_gate k).1 = true /\ measured_singly (io_gate k).2 s).

Lemma body_wp (s : @wstate K) : io_next (ws_io s) = 1 -> io_pending (ws_io s) = [] -> latencies_ns s = lat0 -> g_answers s = [] -> failed s = false ->
  wp (worker_body w) (fun announced s' => worker_done ((if announced then 1 else 0) + g_gates s) s' /\ (announced = false -> failed s' = true)) (fun _ => False) s.
Proof.
  intros Hn Hp Hl Ha Hf. unfold worker_body. apply wp_bind, wp_attempt.
  assert (Hkept : shares_kept w lat0 (latencies_ns s)) by (by rewrite Hl).
  assert (Hbad : forall k, worker_done (g_gates s) (set_failed (set_io k s))) by (intros k; by split).
  apply wp_bind, wp_io. destruct (law_other (ws_io s)) as (_ & [Ne Pe] & _). destruct (negb (io_encode (ws_io s)).1).
  { apply wp_fail. apply wp_bind. unfold wp at 1, modify. apply wp_ret. by split; [apply Hbad |]. }
  eapply wp_mono; [apply warmup_wp; cbn; lia | |].
  2: { intros s' (k & ->). apply wp_bind. unfold wp at 1, modify. apply wp_ret. by split; [apply (Hbad k) |]. }
  intros ? s' (k & -> & Hk & Hkp). cbn [set_io ws_io] in *. apply wp_bind. eapply wp_mono; [apply enter_gate_wp | | done].
  intros ok s2 (k2 & -> & Hgate & Hk2 & Hkp2). cbn [set_io ws_io set_ghost] in *. destruct ok; cbn [negb].
  2: { apply wp_bind. unfold wp at 1, modify. apply wp_ret. by split. }
  apply wp_bind, wp_attempt. match goal with |- wp _ _ _ ?x => set (s3 := x) end.
  eapply wp_mono; [apply (measure_wp s3); [cbn; lia | cbn; lia | cbn; congruence | done | done] | |].
  - intros ? s4 ((Hs & Hg & Hf4) & Hm & Hm1). apply wp_ret. split; [| done]. split; [done |]. split; [done |]. split; [done |].
    intros _ H1. exists k. rewrite Hgate. split; [done | by apply Hm1].
  - intros s4 (Hs & Hg & Hf4). apply wp_bind. unfold wp at 1, modify. apply wp_ret. split; [| done]. by split.
Qed.
End Main.

(** C38: a client thread of the benchmark, whatever the network, the server and
    its memory do: it comes to its end without an access outside its tables or
    the array of latencies, of which it changes only its own share; it enters the
    gate exactly once, on every path, so that main, which waits for every thread
    it has started, does not wait for one that has failed.  When it has not failed:
    calling one at a time, the latencies in its share are, in order, those of its
    calls, made one after the other from the opening of the gate on, each answered
    with 42 and timed from the reading before it to the one after it; with several
    calls on their way, and a server that answers only calls that wait for an
    answer, every one of its requests was answered once, and the latency at its
    place is the time from the reading before that very request was sent to the one
    after its answer. *)
Theorem worker_main_measures `{BL : BenchLaws K} w lat0 (s : @wstate K) :
  0 <= requests w -> 0 <= warmup w -> 1 + warmup w + requests w < 2 ^ 64 -> 0 < pipeline w < 2 ^ 64 ->
  0 <= latency_offset w -> latency_offset w + requests w <= zlen lat0 < 2 ^ 64 ->
  latencies_ns s = lat0 -> g_answers s = [] -> failed s = false ->
  exists s', worker_main w s = (Ok tt, s') /\ g_gates s' = S (g_gates s) /\ shares_kept w lat0 (latencies_ns s') /\
    (failed s' = false -> pipeline w <= 1 -> exists k l, (io_gate k).1 = true /\ timed_calls (io_gate k).2 l (ws_io s') /\
      Z.of_nat (length l) = requests w /\ forall i x, l !! i = Some x -> latencies_ns s' !! (Z.to_nat (latency_offset w) + i)%nat = Some x) /\
    (answers_calls K -> failed s' = false -> 1 < pipeline w -> exists first, map fst (g_answers s') ≡ₚ seqZ first (requests w) /\
      forall i id t, g_answers s' !! i = Some (id, t) -> exists start, g_starts s' !! id = Some start /\
        latencies_ns s' !! (Z.to_nat (latency_offset w) + i)%nat = Some (u64 (t - start))).
Proof.
  intros Hreq Hwarm Hlast Hpipe Hoff Hroom Hl Ha Hf.
  enough (Hwp : wp (worker_main w) (fun _ => worker_done w lat0 (S (g_gates s))) (fun _ => False) s).
  { unfold wp in Hwp. destruct (worker_main w s) as [[[]| |] s']; [| done | done]. exists s'. destruct Hwp as (Hg & Hk & Hm & Hm1).
    split; [done |]. split; [done |]. split; [done |]. split.
    - intros Hf' H1. destruct (Hm1 Hf' H1) as (k & Hgate & l & Ht & Hlen & Hw). exists k, l. split_and!; try done.
      intros i x Hx. rewrite <- (Hw i x Hx). by rewrite Z.add_0_r.
    - intros Hh Hf' H1. destruct (Hm Hf' H1) as (first & _ & Hall). destruct (Hall Hh) as [Hids Hw]. by exists first. }
  assert (Hgate : forall s', latencies_ns s' = lat0 -> g_gates s' = g_gates s -> failed s' = true ->
    wp (enter_gate ;;; ret tt) (fun _ => worker_done w lat0 (S (g_gates s))) (fun _ => False) s').
  { intros s' El Eg Ef. apply wp_bind. eapply wp_mono; [apply enter_gate_wp | | done]. intros ok s2 (k & -> & _). apply wp_ret.
    split; cbn; [by rewrite Eg |]. rewrite El, Ef. by split_and!. }
  unfold worker_main. apply wp_bind, wp_io. destruct (law_connect (ws_io s)) as [Nc Pc]. destruct (negb _).
  { apply wp_bind. unfold wp at 1, modify. by apply Hgate. }
  apply wp_bind, wp_io. cbn [set_io ws_io]. destruct (law_other (io_connect (ws_io s)).2) as ([Ni Pi] & _). destruct (negb _).
  { apply wp_bind. unfold wp at 1, modify. by apply Hgate. }
  apply wp_bind. eapply wp_mono; [apply (body_wp w lat0); try done; cbn; [congruence ..] | | done].
  intros announced s' (Hd & Hfa). cbn [set_io g_gates] in Hd. destruct announced; cbn [negb]; [by apply wp_ret |].
  destruct Hd as (Hg & Hk & _). apply wp_bind. eapply wp_mono; [apply enter_gate_wp | | done]. intros ok s2 (k & -> & _). apply wp_ret.
  split; cbn; [by rewrite Hg |]. split; [done |]. by rewrite Hfa.
Qed.

(** a client to evaluate the model: a clock that goes by tens, and a server that
    answers in order or the last request first *)
Record toy_io := { ti_next : Z; ti_pending : list Z; ti_clock : Z; ti_last : bool }.
Definition ti_set (n : Z) (p : list Z) (c : Z) (k : toy_io) : toy_io := {| ti_next := n; ti_pending := p; ti_clock := c; ti_last := ti_last k |}.
#[global] Instance toy_bench : BenchIO toy_io := {
  io_connect k := (true, ti_set 1 [] (ti_clock k) k);
  io_set_integrity k := (true, k);
  io_encode k := (true, k);
  io_now k := (ti_clock k, ti_set (ti_next k) (ti_pending k) (ti_clock k + 10) k);
  io_send k := (Some (ti_next k), ti_set (u64 (ti_next k + 1)) (ti_pending k ++ [ti_next k]) (ti_clock k + 1) k);
  io_recv k := match (if ti_last k then rev (ti_pending k) else ti_pending k) with
               | [] => (None, k)
               | id :: rest => (Some (id, [VI64 42]), ti_set (ti_next k) (if ti_last k then rev rest else rest) (ti_clock k + 3) k)
               end;
  io_call k := (Some [VI64 42], ti_set (u64 (ti_next k + 1)) (ti_pending k) (ti_clock k + 5) k);
  io_gate k := (true, k);
  io_table k := (true, k);
}.
#[global] Instance toy_laws : BenchLaws toy_io.
Proof.
  refine {| io_next := ti_next; io_pending := ti_pending |}; try by intros k.
  - by intros k id k' [= <- <-].
  - intros k. cbn. by destruct (if ti_last k then rev (ti_pending k) else ti_pending k).
  - by intros k vs k' [= <- <-].
Defined.
Lemma toy_answers : answers_calls toy_io.
Proof.
  intros k id vs k'. cbn. destruct (ti_last k).
  - destruct (rev (ti_pending k)) as [|x rest] eqn:E; [done |]. intros [= <- <- <-]. cbn.
    rewrite <- (rev_involutive (ti_pending k)), E. cbn [rev]. by rewrite Permutation_app_comm.
  - destruct (ti_pending k) as [|x rest]; [done |]. by intros [= <- <- <-].
Qed.

Definition toy_job : job := {| requests := 5; warmup := 2; pipeline := 3; latency_offset := 1 |}.
Definition toy_worker (last : bool) : @wstate toy_io :=
  {| ws_io := {| ti_next := 0; ti_pending := []; ti_clock := 100; ti_last := last |}; call_ids := []; starts := []; sent := 0; received := 0;
     latencies_ns := [7; 0; 0; 0; 0; 0; 7]; failed := false; g_starts := ∅; g_answers := []; g_gates := 0 |}.

Definition toy_job_1 : job := {| requests := 5; warmup := 2; pipeline := 1; latency_offset := 1 |}.

Lemma worker_main_measures_witness :
  (exists s', worker_main toy_job (toy_worker false) = (Ok tt, s') /\ g_gates s' = 1%nat /\ failed s' = false /\
    latencies_ns s' = [7; 36; 49; 62; 51; 40; 7] /\ exists first, map fst (g_answers s') ≡ₚ seqZ first 5) /\
  exists s' k l, worker_main toy_job_1 (toy_worker false) = (Ok tt, s') /\ latencies_ns s' = [7; 15; 15; 15; 15; 15; 7] /\
    timed_calls (io_gate k).2 l (ws_io s') /\ length l = 5%nat.
Proof.
  split.
  - destruct (worker_main_measures toy_job [7; 0; 0; 0; 0; 0; 7] (toy_worker false)) as (s' & E & Hg & _ & _ & Hm);
      [by vm_compute | by vm_compute | by vm_compute | by vm_compute | by vm_compute | by vm_compute | done | done | done |].
    assert (E' := E). vm_compute in E'. injection E' as E'.
    exists s'. split; [exact E |]. split; [exact Hg |]. split; [by rewrite <- E' |]. split; [by rewrite <- E' |].
    destruct (Hm toy_answers) as (first & Hids & _); [by rewrite <- E' | by vm_compute |]. exists first. exact Hids.
  - destruct (worker_main_measures toy_job_1 [7; 0; 0; 0; 0; 0; 7] (toy_worker false)) as (s' & E & _ & _ & Hm & _);
      [by vm_compute | by vm_compute | by vm_compute | by vm_compute | by vm_compute | by vm_compute | done | done | done |].
    assert (E' := E). vm_compute in E'. injection E' as E'.
    destruct Hm as (k & l & _ & Ht & Hl & _); [by rewrite <- E' | by vm_compute |].
    exists s', k, l. split; [exact E |]. split; [by rewrite <- E' |]. split; [exact Ht |]. change (requests toy_job_1) with 5 in Hl. lia.
Defined.

(** the tables hold answers that come in order: an answer that overtakes another
    by enough fails the client, for an id that is waiting has lost its slot *)
Lemma overtaking_fails : exists s', worker_main toy_job (toy_worker true) = (Ok tt, s') /\ failed s' = true.
Proof. eexists. split; [vm_compute; reflexivity | reflexivity]. Qed.

(** ** Theorems: the gate *)
Definition is_in (p : gate_phase) : nat := match p with GRun => 0 | _ => 1 end.
(** how many have entered *)
Fixpoint entered (l : list gate_phase) : nat := match l with [] => O | p :: l => (is_in p + entered l)%nat end.

Lemma entered_insert l i p q : l !! i = Some p -> (entered (<[i := q]> l) + is_in p = entered l + is_in q)%nat.
Proof.
  revert i. induction l as [|x l IH]; intros [|i] Hi; try done.
  - injection Hi as ->. cbn. lia.
  - specialize (IH i Hi). change (<[S i := q]> (x :: l)) with (x :: <[i := q]> l). cbn [entered]. lia.
Qed.
Lemma entered_wake l : entered (map wake_worker l) = entered l.
Proof. induction l as [|x l IH]; [done |]. cbn. rewrite IH. by destruct x. Qed.
Lemma entered_bound l : (entered l <= length l)%nat.
Proof. induction l as [|x l IH]; cbn; [lia |]. destruct x; cbn; lia. Qed.
Lemma entered_all l : length l = entered l -> GRun ∉ l.
Proof.
  induction l as [|x l IH]; intros He; [set_solver |]. cbn in He. pose proof (entered_bound l). apply not_elem_of_cons.
  destruct x; cbn in He; (split; [try done; lia | apply IH; lia]).
Qed.
Lemma entered_some l : (entered l < length l)%nat -> GRun ∈ l.
Proof. induction l as [|x l IH]; cbn; intros He; [lia |]. destruct x; cbn in He; [left | ..]; right; apply IH; lia. Qed.

Record gate_inv (n : nat) (g : bench_gate) : Prop := {
  gi_workers : length (g_workers g) = n;
  gi_ready : g_ready g = Z.of_nat (entered (g_workers g));
  (** who sleeps has nothing to wake for *)
  gi_sleep : GSleep ∈ g_workers g -> g_start g = false /\ g_abort g = false;
  gi_out : forall ok, GOut ok ∈ g_workers g -> g_abort g = negb ok /\ (ok = true -> g_start g = true);
  gi_start : g_start g = true \/ g_main g = MReady true -> entered (g_workers g) = n;
  gi_total : g_main g <> MBefore -> g_total g = Z.of_nat n;
  gi_main : match g_main g with
            | MBefore | MTest | MReady true => g_start g = false /\ g_abort g = false
            | MSleep => (entered (g_workers g) < n)%nat /\ g_start g = false /\ g_abort g = false
            | MReady false => g_start g = false /\ g_abort g = true
            | MAfter => g_start g = negb (g_abort g)
            end;
}.

Lemma not_sleeping l : GSleep ∉ map wake_worker l.
Proof. rewrite list_elem_of_fmap. intros ([| | |] & He & _); discriminate. Qed.
Lemma still_out l ok : GOut ok ∈ map wake_worker l -> GOut ok ∈ l.
Proof.
  rewrite list_elem_of_fmap. intros ([| | |ok'] & He & Hx); cbn in He; congruence.
Qed.
Lemma elem_of_insert_phase (l : list gate_phase) i p q : q ∈ <[i := p]> l -> q = p \/ q ∈ l.
Proof. intros (j & Hj)%list_elem_of_lookup. apply list_lookup_insert_Some in Hj as [(_ & <- & _) | (_ & Hj)]; [by left | right]. by eapply list_elem_of_lookup_2. Qed.

Lemma gate_inv_zero n : gate_inv n (gate_zero n).
Proof.
  assert (He : entered (replicate n GRun) = O) by (induction n; cbn; congruence).
  assert (Hr : forall p, p ∈ replicate n GRun -> p = GRun) by (intros p Hp; by apply elem_of_replicate in Hp as [-> _]).
  split; cbn; rewrite ?length_replicate, ?He; try done.
  - intros ok H. by apply Hr in H.
  - by intros [|].
Qed.

Lemma broadcast_inv n g : gate_inv n g -> gate_inv n (broadcast g) /\ g_main (broadcast g) <> MSleep.
Proof.
  intros [Hw Hr Hs Ho Hst Ht Hm]. split; [| cbn; by destruct (g_main g)]. split; cbn; rewrite ?length_map, ?entered_wake; try done.
  - by intros ?%not_sleeping.
  - intros ok H. apply Ho. by apply still_out.
  - intros [? | H]; apply Hst; [by left | right]. by destruct (g_main g).
  - intros H. apply Ht. by intros E; rewrite E in H.
  - destruct (g_main g) as [| | |[]|]; tauto.
Qed.

(** a worker with the mutex tests the flags, on entering or once awake *)
Lemma test_inv n g i p : gate_inv n g -> g_workers g !! i = Some p -> p = GRun /\ g_main g <> MSleep \/ p = GTest ->
  gate_inv n (gate_test i (set_numbers (g_ready g + Z.of_nat (1 - is_in p)) (g_total g) g)).
Proof.
  intros [Hw Hr Hs Ho Hst Ht Hm] Hi Hp. unfold gate_test. cbn [g_start g_abort set_numbers].
  set (q := if g_start g || g_abort g then GOut (negb (g_abort g)) else GSleep).
  assert (Hq : is_in q = 1%nat) by (unfold q; by destruct (g_start g || g_abort g)).
  pose proof (entered_insert _ _ _ q Hi) as He. rewrite Hq in He.
  assert (Hrun : p = GRun -> entered (g_workers g) <> n).
  { intros -> E. apply (entered_all (g_workers g)); [congruence |]. by eapply list_elem_of_lookup_2. }
  assert (Hpp : is_in p = O /\ p = GRun \/ is_in p = 1%nat /\ p = GTest) by (destruct Hp as [[-> _] | ->]; cbn; tauto).
  split; cbn [set_worker set_numbers g_workers g_ready g_total g_start g_abort g_main].
  - by rewrite length_insert.
  - lia.
  - intros [Hsl | Hsl]%elem_of_insert_phase; [| by apply Hs]. unfold q in Hsl. by destruct (g_start g), (g_abort g).
  - intros ok [Hok | Hok]%elem_of_insert_phase; [| by apply Ho]. unfold q in Hok. destruct (g_start g), (g_abort g); cbn in Hok; simplify_eq; by split.
  - intros H. specialize (Hst H). destruct Hpp as [[_ Hpr] | [Hpi _]]; [by apply Hrun in Hpr | lia].
  - done.
  - destruct (g_main g) as [| | |[]|] eqn:Em; try done. destruct Hp as [[_ Hne] | ->]; [done |]. cbn in He. split; [lia | tauto].
Qed.

Lemma wait_ready_inv n g : gate_inv n g -> g_main g = MBefore \/ g_main g = MTest -> gate_inv n (gate_wait_ready (Z.of_nat n) g).
Proof.
  intros [Hw Hr Hs Ho Hst Ht Hm] Hmain. assert (Hfl : g_start g = false /\ g_abort g = false) by (destruct Hmain as [E | E]; by rewrite E in Hm).
  pose proof (entered_bound (g_workers g)). destruct Hfl as [Es Ea].
  unfold gate_wait_ready, ready_test. cbn [set_numbers g_ready g_total g_abort]. rewrite Ea. cbn [negb]. rewrite andb_true_r.
  destruct (Z.ltb_spec (g_ready g) (Z.of_nat n)) as [Hlt | Hge]; split; cbn [set_main set_numbers g_workers g_ready g_total g_start g_abort g_main]; try done; rewrite ?Es, ?Ea.
  - by intros [|].
  - split; [lia | done].
  - intros _. lia.
Qed.

(** main gives the sign, or calls the run off *)
Lemma sign_inv n g start abort m : gate_inv n g -> g_start g = false -> g_abort g = false ->
  (m = MAfter /\ start = negb abort /\ g_main g = MReady true) \/ (m = MReady false /\ start = false /\ abort = true /\ g_main g <> MBefore) ->
  gate_inv n (set_main m (broadcast (set_flags start abort g))).
Proof.
  intros [Hw Hr Hs Ho Hst Ht Hm] Es Ea Hm'.
  assert (Hnone : forall ok, GOut ok ∉ g_workers g).
  { intros ok H. destruct (Ho ok H) as [H1 H2]. destruct ok; [specialize (H2 eq_refl) | cbn in H1]; congruence. }
  split; cbn; rewrite ?length_map, ?entered_wake; try done.
  - by intros ?%not_sleeping.
  - intros ok H. by apply (still_out _ ok), Hnone in H.
  - intros H. apply Hst. right. destruct Hm' as [(-> & -> & ->) | (-> & -> & -> & _)]; [done |]. by destruct H.
  - intros _. apply Ht. destruct Hm' as [(_ & _ & ->) | (_ & _ & _ & H)]; done.
  - destruct Hm' as [(-> & -> & _) | (-> & -> & -> & _)]; done.
Qed.

Definition knows_total (n : nat) (a : gate_action) : Prop := match a with GWaitReady total => total = Z.of_nat n | _ => True end.
Lemma gate_step_inv n a g g' : Z.of_nat n < 2 ^ 64 -> knows_total n a -> gate_inv n g -> gate_step a g = Some g' -> gate_inv n g'.
Proof.
  intros Hn Hk Hg. destruct a as [i | i | i | total | | | | |]; cbn [gate_step].
  - destruct (g_workers g !! i) as [[| | |]|] eqn:Ei; try done. intros [= <-].
    pose proof (gi_ready n g Hg) as Hr. pose proof (gi_workers n g Hg) as Hw. pose proof (entered_bound (g_workers g)).
    unfold gate_ready_and_wait. rewrite u64_small.
    2: { assert (entered (g_workers g) <> n); [| lia]. intros E. apply (entered_all (g_workers g)); [congruence |]. by eapply list_elem_of_lookup_2. }
    destruct (broadcast_inv n g Hg) as [Hb Hne]. apply (test_inv n (broadcast g) i GRun Hb); [| by left].
    cbn. by rewrite list_lookup_fmap, Ei.
  - destruct (g_workers g !! i) as [[| | |]|] eqn:Ei; try done. intros [= <-].
    pose proof (test_inv n g i GTest Hg Ei (or_intror eq_refl)) as H. cbn [is_in] in H. rewrite Z.add_0_r in H. by destruct g.
  - destruct (g_workers g !! i) as [[| | |]|] eqn:Ei; try done. intros [= <-]. destruct Hg as [Hw Hr Hs Ho Hst Ht Hm].
    pose proof (entered_insert _ _ _ GTest Ei) as He. cbn [is_in] in He.
    split; cbn; rewrite ?length_insert; try done.
    + lia.
    + intros [? | ?]%elem_of_insert_phase; [done | by apply Hs].
    + intros ok [? | H]%elem_of_insert_phase; [done | by apply Ho].
    + intros ?%Hst. lia.
    + destruct (g_main g); try done. split; [lia | tauto].
  - destruct (g_main g) eqn:Em; try done. intros [= <-]. cbn in Hk. subst total. apply wait_ready_inv; [done | by left].
  - destruct (g_main g) eqn:Em; try done. intros [= <-]. pose proof (wait_ready_inv n g Hg (or_intror Em)) as H.
    rewrite <- (gi_total n g Hg) in H by congruence. by destruct g.
  - destruct (g_main g) eqn:Em; try done. intros [= <-]. destruct Hg as [Hw Hr Hs Ho Hst Ht Hm]. rewrite Em in *.
    split; cbn; try tauto; [intros [? | ?]; [apply Hst; by left | done] | intros _; by apply Ht].
  - intros E. assert (Hfl : g_start g = false /\ g_abort g = false /\ g_main g <> MBefore /\ g' = gate_timeout g).
    { pose proof (gi_main n g Hg) as Hm. destruct (g_main g); try done; injection E as <-; split_and!; tauto || done. }
    destruct Hfl as (Es & Ea & Hb & ->). unfold gate_timeout. apply sign_inv; try done. right. by split_and!.
  - destruct (g_main g) as [| | |[]|] eqn:Em; try done. intros [= <-]. pose proof (gi_main n g Hg) as Hm. rewrite Em in Hm. destruct Hm as [Es Ea].
    change (gate_start (set_main MAfter g)) with (set_main MAfter (broadcast (set_flags true (g_abort g) g))). rewrite Ea.
    apply sign_inv; try done. by left.
  - destruct (g_main g) as [| | |[]|] eqn:Em; try done. intros [= <-]. pose proof (gi_main n g Hg) as Hm. rewrite Em in Hm. destruct Hm as [Es Ea].
    change (gate_abort (set_main MAfter g)) with (set_main MAfter (broadcast (set_flags (g_start g) true g))). rewrite Es.
    apply sign_inv; try done. by left.
Qed.
Lemma gate_run_inv n l g g' : Z.of_nat n < 2 ^ 64 -> Forall (knows_total n) l -> gate_inv n g -> gate_run l g = Some g' -> gate_inv n g'.
Proof.
  intros Hn Hl. revert g. induction Hl as [|a l Ha _ IH]; intros g Hg; cbn [gate_run]; [by intros [= <-] |].
  destruct (gate_step a g) as [g1|] eqn:E; [| done]. apply IH. by eapply gate_step_inv.
Qed.

(** C37: the gate of the benchmark, in any order of its threads' steps, with main
    asking for all [n] of them: no worker goes on to measure before every worker
    is ready and main has given the sign; those that leave agree on whether the
    run is on; no signal is lost, that is, no worker sleeps once there is a sign,
    and main sleeps only while a worker has still to come; and after the sign, or
    after main has given up, a worker that is not out yet, whether it is awake in
    the gate or has still to enter it, leaves with its own next step. *)
Theorem gate_barrier n l g : Z.of_nat n < 2 ^ 64 -> Forall (knows_total n) l -> gate_run l (gate_zero n) = Some g ->
  (GOut true ∈ g_workers g -> g_start g = true /\ GRun ∉ g_workers g) /\
  (forall ok, GOut ok ∈ g_workers g -> ok = negb (g_abort g)) /\
  (GSleep ∈ g_workers g -> g_start g = false /\ g_abort g = false) /\
  (g_main g = MSleep -> GRun ∈ g_workers g) /\
  (g_main g = MAfter \/ g_main g = MReady false -> forall i, (i < n)%nat ->
    g_workers g !! i = Some (GOut (negb (g_abort g))) \/
    exists a g', (a = GEnter i \/ a = GWake i) /\ gate_step a g = Some g' /\ g_workers g' !! i = Some (GOut (negb (g_abort g)))).
Proof.
  intros Hn Hl E. destruct (gate_run_inv n l _ g Hn Hl (gate_inv_zero n) E) as [Hw Hr Hs Ho Hst Ht Hm].
  split_and!.
  - intros Hout. destruct (Ho true Hout) as [_ H]. specialize (H eq_refl). split; [done |]. apply entered_all. rewrite Hw. symmetry. apply Hst. by left.
  - intros ok Hok. destruct (Ho ok Hok) as [-> _]. by rewrite negb_involutive.
  - done.
  - intros Em. rewrite Em in Hm. apply entered_some. lia.
  - intros Em i Hi. assert (Hsign : g_start g || g_abort g = true).
    { destruct Em as [Em | Em]; rewrite Em in Hm; [rewrite Hm | destruct Hm as [-> ->]]; by destruct (g_abort g). }
    destruct (lookup_lt_is_Some_2 (g_workers g) i) as [p Hp]; [lia |]. rewrite Hp. destruct p as [| | |ok]; [right | right | | left].
    + exists (GEnter i). eexists. cbn [gate_step]. rewrite Hp. split; [by left |]. split; [done |].
      unfold gate_ready_and_wait, gate_test. cbn. rewrite Hsign. apply list_lookup_insert_eq. rewrite length_map. lia.
    + exists (GWake i). eexists. cbn [gate_step]. rewrite Hp. split; [by right |]. split; [done |].
      unfold gate_test. cbn. rewrite Hsign. apply list_lookup_insert_eq. lia.
    + exfalso. apply list_elem_of_lookup_2, Hs in Hp as [E1 E2]. by rewrite E1, E2 in Hsign.
    + destruct (Ho ok) as [E' _]; [by eapply list_elem_of_lookup_2 |]. by rewrite E', negb_involutive.
Qed.

(** two workers: one sleeps and wakes for nothing, main sleeps until the second is
    there, and gives the sign *)
Definition toy_gate_run : list gate_action :=
  [GEnter 0%nat; GWaitReady 2; GSpurious 0%nat; GWake 0%nat; GMainSpurious; GMainWake; GEnter 1%nat; GMainWake; GStart; GWake 1%nat].
Lemma gate_barrier_witness :
  exists g, gate_run toy_gate_run (gate_zero 2) = Some g /\ g_workers g = [GTest; GOut true] /\ g_start g = true /\ GRun ∉ g_workers g /\
    exists a g', gate_step a g = Some g' /\ g_workers g' !! 0%nat = Some (GOut true).
Proof.
  destruct (gate_run toy_gate_run (gate_zero 2)) as [g|] eqn:E; [| by vm_compute in E].
  destruct (gate_barrier 2 toy_gate_run g) as (Ho & _ & _ & _ & Hl); [by vm_compute | by repeat constructor | exact E |].
  assert (E' := E). vm_compute in E'. injection E' as <-. eexists. split; [reflexivity |]. split; [reflexivity |].
  destruct Ho as [Hst Hr]; [right; left |]. split; [exact Hst |]. split; [exact Hr |].
  destruct (Hl (or_introl eq_refl) 0%nat) as [H | (a & g' & _ & Ha & Hg)]; [lia | discriminate |]. exists a, g'. by split.
Defined.
