(* ===== verification/Demos.v ===== *)
(** * Demos: the example programs (src/demos)

    Their handlers, the two clients and the parts of the servers that set up and
    take down, as programs over the models of the library: what the library's
    theorems say of the calls is put together to what they say of a program.
    Names of procedures are C strings; signals and printing are left out, but for
    what a client prints. *)

From stdpp Require Import strings.
From S2P Require Import Prelude Words CString Protocol Integrity Memory Payload Arena Routes Scheduler Net Client Connection ConnInv Server Lifecycle.
From S2P Require Import ServerInv ServerLoop LifecycleInv ServerProps AsyncDemo Bench.
#[global] Open Scope Z_scope.

Definition c_string (s : string) : list Z := cstring s ++ [0].

(** ** Handlers *)
Section Handlers.
Context `{HH : Host} `{HP : Heap W}.

(** demos/server.c, and add_handler of demos/bench.c *)
Definition add_i64 (args : list wirecall_value) : M (wirecall_writer * W) unit :=
  match async_args args with
  | None => fail
  | Some (a, b) => sum <- lift (i64_add a b) ;; wirecall_writer_i64 sum
  end.
(** demos/embed.c: [bias] is that of the route's state, [None] for NULL *)
Definition add_with_bias (bias : option Z) (args : list wirecall_value) : M (wirecall_writer * W) unit :=
  match bias, async_args args with
  | Some bias, Some (a, b) => sum <- lift (i64_add a b) ;; sum <- lift (i64_add sum bias) ;; wirecall_writer_i64 sum
  | _, _ => fail
  end.

(** a handler as the server calls it: 0 or -1.  An overflow of the sum, which C
    does not define, counts as -1 here; the theorems are about sums that fit *)
Definition as_handler (f : list wirecall_value -> M (wirecall_writer * W) unit) (args : value_array) (w : wirecall_writer) (h : W)
    : Z * wirecall_writer * W :=
  let '(r, (w, h)) := f (cell_values (va_cells args)) (w, h) in (match r with Ok _ => 0 | _ => -1 end, w, h).

Definition HANDLER_ADD : Z := 1.
Definition HANDLER_ADD_WITH_BIAS : Z := 2.
Definition demo_handlers (bias : Z -> option Z) (handler data call_id proc_id : Z) (args : value_array) (w : wirecall_writer) (h : W)
    : Z * wirecall_writer * W :=
  if handler =? HANDLER_ADD then as_handler add_i64 args w h
  else if handler =? HANDLER_ADD_WITH_BIAS then as_handler (add_with_bias (bias data)) args w h
  else (-1, w, h).
End Handlers.

(** ** The clients: demos/client.c and demos/async/client.c *)
Section Client.
Context `{HH : Host} `{HP : Heap W} `{NN : Net K}.

(** the two wirecall_writer_i64, whose results are ignored *)
Definition write_args (a b : Z) : M (@cworld W K) wirecall_writer :=
  on_heap (fun h =>
    let '(r, (w, h)) := (attempt (wirecall_writer_i64 a) ;;; attempt (wirecall_writer_i64 b)) (wirecall_writer_init, h) in
    (match r with UB => UB | _ => Ok w end, h)).
(** wirecall_writer_free, wirecall_client_close *)
Definition client_done (args : wirecall_writer) : M (@cworld W K) unit :=
  on_heap (fun h => (Ok tt, (wirecall_writer_free args h).2)) ;;; wirecall_client_close.
Definition printed (values : list wirecall_value) : option Z := match values with [VI64 v] => Some v | _ => None end.

(** main after its arguments: its result, and the sum it prints *)
Definition run_client (host port : list Z) (a b : Z) : M (@cworld W K) (Z * option Z) :=
  connected <- attempt (wirecall_client_connect true (Some host) (Some port)) ;;
  match connected with
  | None => ret (1, None)
  | Some _ =>
      args <- write_args a b ;;
      result <- attempt (wirecall_client_call_name (Some (c_string "add")) (Some args) true true) ;;
      match result with
      | None => client_done args ;;; ret (1, None)
      | Some result =>
          let out := printed (cell_values (va_cells result)) in
          on_heap (wirecall_values_free (va_ptr result) (va_cells result)) ;;; client_done args ;;; ret (0, out)
      end
  end.

(** strtoll, base 10, which clamps; [argc > i ? argv[i] : default] *)
Definition strtoll (text : list Z) : Z :=
  let s := skip_space text in
  let '(negative, s) := match s with 45 :: r => (true, r) | 43 :: r => (false, r) | _ => (false, s) end in
  let value := (digits_of 0 s).1 in
  Z.max (- 2 ^ 63) (Z.min (if negative then - value else value) (2 ^ 63 - 1)).
Definition arg (argv : list (list Z)) (i : nat) (fallback : list Z) : list Z := nth i argv fallback.
Definition int_arg (argv : list (list Z)) (i : nat) (fallback : Z) : Z := match argv !! i with Some text => strtoll text | None => fallback end.

Definition client_main (fallback_port : list Z) (argv : list (list Z)) : M (@cworld W K) (Z * option Z) :=
  run_client (arg argv 1 (c_string "127.0.0.1")) (arg argv 2 fallback_port) (int_arg argv 3 20) (int_arg argv 4 22).
Definition demo_client : list (list Z) -> M (@cworld W K) (Z * option Z) := client_main (c_string "7000").
Definition async_client : list (list Z) -> M (@cworld W K) (Z * option Z) := client_main (c_string "7001").
End Client.

(** ** The servers: demos/server.c, demos/async/server.c, demos/embed.c and demos/bench.c *)
Definition HANDLER_ECHO : Z := 3.
Definition HANDLER_ASYNC_ADD : Z := 4.
Definition STATE_FINALIZER : Z := 5.

(** the calls of main between wirecall_server_init and wirecall_server_run, in
    their order; the finalizer is that of demos/embed.c *)
Definition demo_calls (workers : Z) (host port : list Z) : list setup_op :=
  (if workers =? 0 then [] else [SSetWorkers workers]) ++
  [SAddRoute (Some (c_string "add")) (Some HANDLER_ADD) 0 None;
   SAddAsyncRoute (Some (c_string "echo")) (Some HANDLER_ECHO) 0 None;
   SBind (Some host) (Some port); SListen].
Definition async_calls (queue workers : Z) (host port : list Z) : list setup_op :=
  [SSetWorkers workers; SAddAsyncRoute (Some (c_string "add")) (Some HANDLER_ASYNC_ADD) queue None; SBind (Some host) (Some port); SListen].
Definition embed_calls (first second : Z) : list setup_op :=
  [SSetWorkers 1;
   SAddRoute (Some (c_string "add")) (Some HANDLER_ADD_WITH_BIAS) first (Some STATE_FINALIZER);
   SAddRoute (Some (c_string "add")) (Some HANDLER_ADD_WITH_BIAS) second (Some STATE_FINALIZER);
   SBind (Some (c_string "127.0.0.1")) (Some (c_string "0")); SListen].
Definition bench_calls (workers integrity : Z) (mac_key : list Z) : list setup_op :=
  [SSetIntegrity integrity (Some mac_key)] ++ (if workers =? 0 then [] else [SSetWorkers workers]) ++
  [SAddRoute (Some (c_string "add")) (Some HANDLER_ADD) 0 None; SBind (Some (c_string "127.0.0.1")) (Some (c_string "0")); SListen].

Section Servers.
Context `{HH : Host} `{HP : Heap W} `{PP : Pages P} `{NN : Net K} `{BB : Backend B}.
Variable coro_size nproc : Z.
Variable rm : bool.
Variable mutex_ok : Z -> bool * bool.
(** wirecall_server_run, back with a status or not back *)
Variable run : M (system W P K B) (option Z).

(** [a() != 0 || b() != 0 || ...]: the first call that fails is the last *)
Fixpoint all_succeed (calls : list setup_op) : M (system W P K B) bool :=
  match calls with
  | [] => ret true
  | op :: calls => r <- attempt (setup_exec coro_size nproc mutex_ok op) ;; match r with Some _ => all_succeed calls | None => ret false end
  end.
Definition start_server (calls : list setup_op) : M (system W P K B) bool :=
  r <- attempt (wirecall_server_init coro_size nproc rm true) ;;
  match r with Some _ => all_succeed calls | None => ret false end.

(** main of demos/server.c after its arguments and, but for its queue, of
    demos/async/server.c *)
Definition demo_server (calls : list setup_op) : M (system W P K B) (option Z) :=
  started <- start_server calls ;;
  if negb started then wirecall_server_destroy coro_size ;;; ret (Some 1)
  else
    rc <- run ;;
    match rc with
    | None => ret None
    | Some rc => wirecall_server_destroy coro_size ;;; ret (Some (if rc =? 0 then 0 else 1))
    end.

(** main of demos/server.c; strtoul is strtoull where unsigned long has 64 bits *)
Definition workers_arg (argv : list (list Z)) (fallback : Z) : Z := match argv !! 3%nat with Some text => u32 (strtoull text).1.1 | None => fallback end.
Definition server_main (argv : list (list Z)) : M (system W P K B) (option Z) :=
  demo_server (demo_calls (workers_arg argv 0) (arg argv 1 (c_string "127.0.0.1")) (arg argv 2 (c_string "7000"))).

(** demos/embed.c up to the server's thread: [Some]: main has returned.  The log
    of [system] says which finalizers have run; that they free the states is
    left out *)
Definition state_new : M (system W P K B) (option Z) := proc_heap (heap_alloc 24).
Definition embed_setup : M (system W P K B) (option Z) :=
  first <- state_new ;;
  second <- state_new ;;
  match first, second with
  | Some first, Some second =>
      started <- start_server (embed_calls first second) ;;
      if negb started then wirecall_server_destroy coro_size ;;; ret (Some 1) else ret None
  | _, _ => proc_heap (fun h => (tt, heap_free_opt second (heap_free_opt first h))) ;;; ret (Some 1)
  end.
End Servers.

(** ** Theorems: handlers *)

(** the encoding of a list of values says what the values are *)
Lemma encode_values_inj (vs ws : list pvalue) :
  Forall pvalue_ok vs -> Forall pvalue_ok ws -> zlen (encode_values vs) < 2 ^ 56 -> encode_values vs = encode_values ws -> vs = ws.
Proof.
  intros Hv Hw Hl E. pose proof (toy_empty_inv []) as Hi. apply (owns_start (HP := toy_heap)) in Hi as Ho.
  assert (Hb : bytes_ok (encode_values vs)) by (apply Forall_concat, Forall_map; eapply Forall_impl; [exact encode_value_ok | exact Hv]).
  destruct (decode_framed_complete (HH := host_lp64) eq_refl _ _ _ (toy_empty []) _ vs (toy_reliable) eq_refl Ho Hb Hl Hv eq_refl) as (a & h & E1 & _ & <-).
  destruct (decode_framed_complete (HH := host_lp64) eq_refl _ _ _ (toy_empty []) _ ws (toy_reliable) eq_refl Ho Hb Hl Hw E) as (a' & h' & E2 & _ & <-).
  rewrite E1 in E2. by injection E2 as -> _.
Qed.

Section HandlerFacts.
Context `{HH : Host} `{HP : Heap W}.

Lemma i64_add_ok a b sum : i64_add a b = Ok sum -> sum = a + b /\ pvalue_ok (PI64 sum).
Proof. unfold i64_add. destruct (_ && _) eqn:E; [| done]. intros [= <-]. cbn. lia. Qed.

Definition handler_lawful (f : list wirecall_value -> M (wirecall_writer * W) unit) : Prop :=
  forall vals w h r w' h' base l, writer_ok w -> owns base (option_list (w_data w) ++ l) h -> f vals (w, h) = (r, (w', h')) ->
    writer_ok w' /\ owns base (option_list (w_data w') ++ l) h'.

Lemma i64_lawful v w h r w' h' base l : pvalue_ok (PI64 v) -> writer_ok w -> owns base (option_list (w_data w) ++ l) h ->
  wirecall_writer_i64 v (w, h) = (r, (w', h')) -> writer_ok w' /\ owns base (option_list (w_data w') ++ l) h'.
Proof. intros Hv Hw Ho E. by destruct (write_value_spec base l (PI64 v) w h r w' h' Hv Hw Ho E) as (? & ? & _). Qed.

Lemma add_lawful : handler_lawful add_i64.
Proof.
  intros vals w h r w' h' base l Hw Ho. unfold add_i64. destruct (async_args vals) as [[a b]|]; [| by intros [= <- <- <-]].
  unfold bind, lift. destruct (i64_add a b) as [sum| |] eqn:E; [| by intros [= <- <- <-] ..]. apply i64_add_ok in E as [_ Hs].
  by apply i64_lawful.
Qed.
Lemma bias_lawful bias : handler_lawful (add_with_bias bias).
Proof.
  intros vals w h r w' h' base l Hw Ho. unfold add_with_bias. destruct bias as [n|]; [| by intros [= <- <- <-]].
  destruct (async_args vals) as [[a b]|]; [| by intros [= <- <- <-]].
  unfold bind, lift. destruct (i64_add a b) as [sum| |]; [| by intros [= <- <- <-] ..].
  destruct (i64_add sum n) as [sum'| |] eqn:E; [| by intros [= <- <- <-] ..]. apply i64_add_ok in E as [_ Hs]. by apply i64_lawful.
Qed.
Lemma demo_handlers_lawful bias : sync_lawful (demo_handlers bias).
Proof.
  assert (Has : forall f args w h r w' h' base l, handler_lawful f -> writer_ok w -> owns base (option_list (w_data w) ++ l) h ->
    as_handler f args w h = (r, w', h') -> writer_ok w' /\ owns base (option_list (w_data w') ++ l) h').
  { intros f args w h r w' h' base l Hf Hw Ho. unfold as_handler. destruct (f _ (w, h)) as [r1 [w1 h1]] eqn:E. intros [= <- <- <-]. by eapply Hf. }
  intros hd dt ci pi args w h r w' h' base l Hw Ho. unfold demo_handlers.
  destruct (hd =? HANDLER_ADD); [eapply Has; [apply add_lawful | done ..] |]. destruct (hd =? HANDLER_ADD_WITH_BIAS); [eapply Has; [apply bias_lawful | done ..] |].
  by intros [= <- <- <-].
Qed.

(** what is written when there was room for it *)
Lemma pushed data h w' h' : writer_push data (wirecall_writer_init, h) = (Ok tt, (w', h')) -> w_bytes w' = data.
Proof.
  unfold writer_push, bind. destruct (writer_reserve (zlen data) (wirecall_writer_init, h)) as [[[]| |] [w1 h1]] eqn:E; try done.
  assert (Hb : w_bytes w1 = []).
  { unfold writer_reserve in E. destruct (_ || _); [done |]. destruct (_ <=? _); [by injection E as <- <- |].
    destruct (reserve_loop _ _ _); [| done]. destruct (heap_realloc _ _ h) as [[q|] h2]; [by injection E as <- <- | done]. }
  unfold writer_copy. destruct data; [by intros [= <- <-] |]. destruct (_ || _); [done |]. intros [= <- <-]. cbn. by rewrite Hb.
Qed.
Lemma i64_written v h w' h' : wirecall_writer_i64 v (wirecall_writer_init, h) = (Ok tt, (w', h')) -> w_bytes w' = encode_values [PI64 v].
Proof. intros H%pushed. rewrite H. unfold encode_values. cbn [map concat]. by rewrite app_nil_r, put_u64_split. Qed.

Lemma add_written vals a b h w' h' : map erase vals = [PI64 a; PI64 b] -> - 2 ^ 63 <= a + b < 2 ^ 63 ->
  add_i64 vals (wirecall_writer_init, h) = (Ok tt, (w', h')) -> w_bytes w' = encode_values [PI64 (a + b)].
Proof.
  intros Ev Hs. destruct vals as [|[| |x| | | |] [|[| |y| | | |] []]]; try discriminate. injection Ev as -> ->.
  unfold add_i64, i64_add, bind, lift. cbn [async_args]. rewrite (proj2 (andb_true_iff _ _)) by lia. apply i64_written.
Qed.
Lemma bias_written vals a b n h w' h' : map erase vals = [PI64 a; PI64 b] -> pvalue_ok (PI64 (a + b)) -> pvalue_ok (PI64 (a + b + n)) ->
  add_with_bias (Some n) vals (wirecall_writer_init, h) = (Ok tt, (w', h')) -> w_bytes w' = encode_values [PI64 (a + b + n)].
Proof.
  intros Ev Hs Hn. destruct vals as [|[| |x| | | |] [|[| |y| | | |] []]]; try discriminate. injection Ev as -> ->. cbn in Hs, Hn.
  unfold add_with_bias, i64_add, bind, lift. cbn [async_args]. rewrite !(proj2 (andb_true_iff _ _)) by lia. apply i64_written.
Qed.
End HandlerFacts.

(** the route adds the two numbers, and the bias of its state *)
Definition adds (bias : Z -> option Z) (rt : wirecall_route) (n : Z) : Prop :=
  rt_is_deferred rt = false /\
  (rt_handler rt = Some HANDLER_ADD /\ n = 0 \/ rt_handler rt = Some HANDLER_ADD_WITH_BIAS /\ bias (rt_user_data rt) = Some n).

Lemma adds_written `{Host} `{Heap W} bias rt n f ci pi args a b w' (h h' : W) : adds bias rt n -> rt_handler rt = Some f ->
  map erase (cell_values (va_cells args)) = [PI64 a; PI64 b] -> pvalue_ok (PI64 (a + b)) -> pvalue_ok (PI64 (a + b + n)) ->
  demo_handlers bias f (rt_user_data rt) ci pi args wirecall_writer_init h = (0, w', h') -> w_bytes w' = encode_values [PI64 (a + b + n)].
Proof.
  intros [_ Hrt] Hf Ev Hs Hn. unfold demo_handlers, as_handler. destruct Hrt as [[Hh ->] | [Hh Hb]]; rewrite Hh in Hf; injection Hf as <-.
  - rewrite Z.eqb_refl, Z.add_0_r. destruct (add_i64 _ _) as [[[]| |] [w1 h1]] eqn:E; [| discriminate ..]. intros [= <- _]. by eapply add_written.
  - cbn [Z.eqb HANDLER_ADD HANDLER_ADD_WITH_BIAS Pos.eqb]. rewrite Hb.
    destruct (add_with_bias _ _ _) as [[[]| |] [w1 h1]] eqn:E; [| discriminate ..]. intros [= <- _]. by eapply bias_written.
Qed.

(** what a worker queues for the request of the example client *)
Lemma add_served `{Host} `{Heap W} `{Pages P} `{Net K} `{Backend B} coro_size bias deferred_handler
    base fbase p c (s : worker (W := W) (P := P) (K := K) (B := B)) r s' (client : wirecall_client) w a b n rt :
  size_bits = 64 -> address_limited -> deferred_lawful deferred_handler ->
  worker_ok base fbase s -> conns (s_client s) !! p = Some c -> cn_detached c = false -> b_bytes (cn_read c) = [] ->
  cl_integrity client = sv_integrity (s_client s) -> cl_mac_key client = sv_mac_key (s_client s) -> 0 <= cl_next_call_id client < 2 ^ 64 ->
  writer_ok w -> w_bytes w = encode_values [PI64 a; PI64 b] -> pvalue_ok (PI64 a) -> pvalue_ok (PI64 b) ->
  pvalue_ok (PI64 (a + b)) -> pvalue_ok (PI64 (a + b + n)) ->
  route_of (sv_routes (s_client s)) (wirecall_proc_id (Some (c_string "add"))) = Some rt -> adds bias rt n ->
  connection_read coro_size (demo_handlers bias) deferred_handler p s = (r, s') ->
  net_received (cn_fd c) (wk_net (s_client s')) = net_received (cn_fd c) (wk_net (s_client s)) ++
    request client WIRECALL_OP_RPC (wirecall_proc_id (Some (c_string "add"))) (cl_next_call_id client) (Some w) ->
  r = Ok tt /\ exists c', conns (s_client s') !! p = Some c' /\
    (cn_closing c' = false -> exists hd body, unsent c' = unsent c ++ header_bytes hd ++ body /\ genuine client hd body /\
       h_call_id hd = cl_next_call_id client /\
       (h_op hd = op_code WIRECALL_OP_RESPONSE /\ body = encode_values [PI64 (a + b + n)] \/
        h_op hd = op_code WIRECALL_OP_ERROR /\ exists message, body = error_text (cstring message))).
Proof.
  intros H64 Hlim Hde Hw Hc Hd Hempty Hint Hkey Hid Hwr Hbytes Ha Hb Hs Hn Hrt Hadds E Hrecv.
  assert (Hargs : forall w', Some w = Some w' -> writer_ok w') by by intros w' [= <-].
  assert (exists f, rt_handler rt = Some f) as [f Hf] by (destruct Hadds as [_ [[? _] | [? _]]]; by eexists).
  destruct (request_served coro_size (demo_handlers bias) deferred_handler base fbase p c s r s' client _ (Some w) rt f H64 Hlim
    (demo_handlers_lawful bias) Hde Hw Hc Hd Hempty Hint Hkey Hid Hargs Hrt (proj1 Hadds) Hf E Hrecv) as (-> & c' & Hc' & Hans).
  split; [done |]. exists c'. split; [done |]. intros Hcl. destruct (Hans Hcl) as (hd & [op body] & Eu & Hg & Hci & Hop & Hh). cbn [fst snd] in *.
  exists hd, body. split_and!; try done. destruct Hh as [[= -> ->] | (args & h1 & result & response & h2 & Hwf & Henc & Eh & Ea)]; [right; by eauto |].
  destruct (result =? 0) eqn:Er; injection Ea as -> ->; [left | right; by eauto]. split; [done |]. zb. subst result.
  cbn [payload_bytes] in Henc. rewrite Hbytes in Henc. destruct Hwf as (cap & vals & Harr & _ & Hgood).
  apply encode_values_inj in Henc; [| | by constructor; [exact Ha | constructor; [exact Hb | constructor]] |].
  2: { rewrite (array_values args cap vals Harr). apply Forall_map. eapply Forall_impl; [| exact Hgood]. by intros v [_ ?]. }
  2: { by rewrite Henc. }
  by eapply adds_written.
Qed.

(** ** Theorems: the clients *)
Section ClientFacts.
Context `{HH : Host} `{HP : Heap W} `{NN : Net K}.
Hypothesis H64 : size_bits = 64.
Implicit Types (s : @cworld W K).

Lemma attempt_i64 base l v w h : pvalue_ok (PI64 v) -> writer_ok w -> owns base (option_list (w_data w) ++ l) h ->
  exists o w' h', attempt (wirecall_writer_i64 v) (w, h) = (Ok o, (w', h')) /\ writer_ok w' /\ owns base (option_list (w_data w') ++ l) h'.
Proof.
  intros Hv Hw Ho. unfold attempt. destruct (wirecall_writer_i64 v (w, h)) as [r [w' h']] eqn:E.
  destruct (write_value_spec base l (PI64 v) w h r w' h' Hv Hw Ho E) as (Hw' & Ho' & Hr). destruct r; [| | done]; by eexists _, _, _.
Qed.
Lemma write_args_ok base p c consumed a b s : pvalue_ok (PI64 a) -> pvalue_ok (PI64 b) -> world_ok base [] p c consumed s ->
  exists w s', write_args a b s = (Ok w, s') /\ writer_ok w /\ world_ok base (option_list (w_data w)) p c consumed s' /\ cw_net s' = cw_net s.
Proof.
  intros Ha Hb Hw. pose proof (wk_owns _ _ _ _ _ _ Hw) as Ho.
  destruct (attempt_i64 base (p :: option_list (cl_read_buf c) ++ []) a wirecall_writer_init (cw_heap s) Ha writer_init_ok Ho) as (o1 & w1 & h1 & E1 & Hw1 & Ho1).
  destruct (attempt_i64 base _ b w1 h1 Hb Hw1 Ho1) as (o2 & w2 & h2 & E2 & Hw2 & Ho2).
  unfold write_args, on_heap, bind. rewrite E1, E2. eexists _, _. split; [done |]. split; [done |]. split; [| done].
  eapply world_heap; [exact Hw |]. eapply owns_perm; [| reflexivity | exact Ho2]. rewrite app_nil_r. rewrite app_comm_cons. apply Permutation_app_comm.
Qed.

(** the writer and the client are given back *)
Lemma client_done_ok base p c consumed w s : world_ok base (option_list (w_data w)) p c consumed s -> 0 <= cl_fd c ->
  exists s', client_done w s = (Ok tt, s') /\ cw_client s' = None /\ owns base [] (cw_heap s') /\ net_open (cw_net s') = net_open (cw_net s) ∖ {[cl_fd c]} /\
    net_received (cl_fd c) (cw_net s') = consumed ++ unread c.
Proof.
  intros Hw Hfd. unfold client_done, on_heap, bind. cbn [wirecall_writer_free snd].
  assert (Hw' : world_ok base [] p c consumed (put_heap (heap_free_opt (w_data w) (cw_heap s)) s)).
  { eapply world_heap; [exact Hw |]. apply owns_free_opt. eapply owns_perm; [| reflexivity | apply (wk_owns _ _ _ _ _ _ Hw)].
    rewrite app_nil_r. rewrite app_comm_cons. apply Permutation_app_comm. }
  destruct (close_spec _ _ _ _ _ _ Hw' Hfd) as (s' & E & Ec & Ho & En & Er & _). exists s'. split_and!; try done.
  rewrite Er. apply (wk_stream _ _ _ _ _ _ Hw').
Qed.
End ClientFacts.

Lemma int_arg_ok argv i fallback : pvalue_ok (PI64 fallback) -> pvalue_ok (PI64 (int_arg argv i fallback)).
Proof.
  intros Hf. unfold int_arg. destruct (argv !! i); [| done]. unfold strtoll.
  match goal with |- context [let '(_, _) := ?x in _] => destruct x as [neg s] end. cbn [pvalue_ok]. lia.
Qed.

(** C23: an example client, whatever its arguments and whatever the network, the
    server and its memory do, comes to its end without an undefined access, with
    every block and descriptor given back; it fails with status 1, or ends with
    status 0; and when it prints a number as the sum, what it has received on its
    own, new, connection begins with the packet of a genuine response to its call
    that encodes just that number. *)
Theorem demo_client_balance `{Host} `{Heap W} `{Net K} fallback_port argv (s : @cworld W K) :
  size_bits = 64 -> cw_client s = None -> heap_inv (cw_heap s) ->
  exists status out s', client_main fallback_port argv s = (Ok (status, out), s') /\ (status = 0 \/ status = 1 /\ out = None) /\
    cw_client s' = None /\ heap_live (cw_heap s') = heap_live (cw_heap s) /\ net_open (cw_net s') = net_open (cw_net s) /\
    forall sum, out = Some sum -> exists fd hd rest, (fd ∉ net_open (cw_net s)) /\ genuine new_client hd (encode_values [PI64 sum]) /\
      h_op hd = op_code WIRECALL_OP_RESPONSE /\ h_call_id hd = cl_next_call_id new_client /\
      net_received fd (cw_net s') = header_bytes hd ++ encode_values [PI64 sum] ++ rest.
Proof.
  intros H64 Ec Hi. unfold client_main. set (a := int_arg argv 3 20). set (b := int_arg argv 4 22).
  assert (Ha : pvalue_ok (PI64 a)) by (by apply int_arg_ok; by_compute). assert (Hb : pvalue_ok (PI64 b)) by (by apply int_arg_ok; by_compute).
  clearbody a b. generalize (arg argv 1 (c_string "127.0.0.1")), (arg argv 2 fallback_port). intros host port. unfold run_client, bind at 1, attempt at 1.
  destruct (wirecall_client_connect true (Some host) (Some port) s) as [r s1] eqn:E.
  apply (connect_spec H64 (heap_live (cw_heap s)) []) in E; [| done | by apply owns_start].
  destruct E as [(-> & Ec1 & Ho1 & En1) | (p & fd & -> & Hfd & Hnew & Eo & _ & Hw)].
  { apply owns_nil in Ho1 as [_ Ho1]. eexists 1, None, s1. split_and!; by try right. }
  destruct (write_args_ok _ _ _ _ a b s1 Ha Hb Hw) as (w & s2 & E2 & Hwr & Hw2 & En2). unfold bind at 1. rewrite E2.
  unfold bind at 1, attempt at 1. destruct (wirecall_client_call_name _ (Some w) true true s2) as [r s3] eqn:E3.
  assert (Hargs : forall w', Some w = Some w' -> writer_ok w') by by intros w' [= <-].
  apply (call_spec H64 _ _ _ _ _ _ _ _ _ _ Hw2 Hfd Hargs (proc_id_range _)) in E3 as (c3 & bs & rest & [Hf3 _ _ _] & En3 & _ & _ & Hr).
  assert (Hend : forall consumed s4, world_ok (heap_live (cw_heap s)) (option_list (w_data w)) p c3 consumed s4 -> net_open (cw_net s4) = net_open (cw_net s3) ->
    exists s', client_done w s4 = (Ok tt, s') /\ cw_client s' = None /\ heap_live (cw_heap s') = heap_live (cw_heap s) /\ net_open (cw_net s') = net_open (cw_net s) /\
    exists rest, net_received fd (cw_net s') = consumed ++ rest).
  { intros consumed s4 Hw4 En4. cbn in Hf3. destruct (client_done_ok _ _ _ _ _ _ Hw4) as (s' & E' & Ec' & Ho' & En' & Er'); [by rewrite Hf3 |].
    exists s'. apply owns_nil in Ho' as [_ Ho']. split_and!; try done; [rewrite En', Hf3, En4, En3, En2, Eo; clear -Hnew; set_solver |].
    exists (unread c3). by rewrite <- Hf3. }
  destruct r as [values| |]; [| | done].
  - destruct Hr as (_ & hd & body & Hg & Hop & Hci & Hwf & Henc & Hw3).
    unfold bind at 1, on_heap at 1. destruct (values_free_blocks values (heap_live (cw_heap s)) (p :: option_list (cl_read_buf c3) ++ option_list (w_data w)) (cw_heap s3) Hwf) as (h4 & E4 & Ho4).
    { eapply owns_perm; [| reflexivity | apply (wk_owns _ _ _ _ _ _ Hw3)]. clear. solve_Permutation. }
    rewrite E4. destruct (Hend ([] ++ header_bytes hd ++ body) (put_heap h4 s3)) as (s' & E' & Ec' & Eh' & En' & rest' & Er'); [by eapply world_heap | done |].
    unfold bind at 1. rewrite E'. eexists _, _, s'. split; [done |]. split; [by left |]. split_and!; try done.
    intros sum Hp. exists fd, hd, rest'. split; [done |]. assert (Eb : encode_values [PI64 sum] = body); [| rewrite Eb; split_and!; try done; by rewrite <- app_assoc in Er'].
    destruct (cell_values (va_cells values)) as [|[| |v| | | |] []] eqn:Ev; try discriminate.
    injection Hp as ->. cbn [map erase] in Henc. by rewrite <- Henc.
  - destruct Hr as (packet & Hw3). destruct (Hend ([] ++ packet) s3 Hw3) as (s' & E' & Ec' & Eh' & En' & _); [done |].
    unfold bind at 1. rewrite E'. eexists _, _, s'. split; [done |]. split; [by right |]. by split_and!.
Qed.

(** ** Theorems: the servers *)
Section ServerFacts.
Context `{HH : Host} `{HP : Heap W} `{PP : Pages P} `{NN : Net K} `{BB : Backend B}.
Hypothesis H64 : size_bits = 64.
Variable coro_size nproc : Z.
Variable rm : bool.
Variable mutex_ok : Z -> bool * bool.
Implicit Types (s : system W P K B) (v : wirecall_server).

(** configuring and procedures first, one bind, then listen *)
Fixpoint calls_ok (bound : bool) (calls : list setup_op) : Prop :=
  match calls with
  | [] => True
  | op :: calls =>
      match op with
      | SSetWorkers n => bound = false /\ 0 <= n
      | SSetIntegrity _ key => bound = false /\ forall bytes, key = Some bytes -> bytes_ok bytes /\ 16 <= zlen bytes
      | SAddRoute _ _ _ _ | SAddAsyncRoute _ _ _ _ | SAddDeferredRoute _ _ _ _ | SBind _ _ => bound = false
      | SListen => bound = true
      | SRemoveRoute _ | SStop => False
      end /\ calls_ok (match op with SBind _ _ => true | _ => bound end) calls
  end.

(** nobody looks procedures up yet, and there are workers once main has bound *)
Definition setting_up (bound : bool) b v s : Prop :=
  pr_server s = Some (b, v) /\ active_readers (sr_routes v) = 0 /\ (bound = true -> sr_workers v <> None).

Lemma kept_setting_up base fbase b v want s s' : kept base fbase b want s s' -> active_readers (sr_routes v) = 0 ->
  (forall v', want v' -> sr_routes v' = sr_routes v) -> exists v', setting_up false b v' s' /\ sr_routes v' = sr_routes v.
Proof. intros (v' & Hok & Hw & _) Hr Hwant. exists v'. split; [| by apply Hwant]. split; [by apply Hok |]. by rewrite (Hwant v' Hw). Qed.
Lemma bound_setting_up base fbase b v bound s s' : kept base fbase b (has_array (sr_routes v)) s s' -> active_readers (sr_routes v) = 0 ->
  exists v', setting_up bound b v' s' /\ sr_routes v' = sr_routes v.
Proof. intros (v' & Hok & [Hw Ht] & _) Hr. exists v'. split; [| done]. split; [by apply Hok |]. by rewrite Ht. Qed.
Lemma add_setting_up base fbase b v s route s' : setup_ok base fbase [] b v s -> setting_up false b v s -> proc_routes (add_node route) s = (Ok tt, s') ->
  exists v', setting_up false b v' s' /\ updated (sr_routes v) (sr_routes v') (rt_proc_id route) (Some route).
Proof.
  intros Hok (Hs & Hr & _). unfold proc_routes, bind at 1, get_server. rewrite Hs.
  pose proof (readers_add_node route (table_env v s)) as Hn. pose proof (setup_routes _ _ _ _ _ Hok) as Hro.
  assert (Hb : 32 <= size_bits) by lia.
  destruct (add_node route (table_env v s)) as [r1 e] eqn:E. pose proof (add_node_spec route _ r1 e base _ Hb Hro E) as Ha.
  unfold table_env in *. unfold readers in Hn. cbn in Hn. rewrite E.
  unfold bind, put_server, lift. cbn [pr_server]. rewrite Hs. intros [= -> <-]. eexists. split; [split; [done |]; cbn; by rewrite Hn |]. cbn. by apply Ha.
Qed.

(** what a call that succeeds registers, and the route of a procedure after calls *)
Definition registration (op : setup_op) : option wirecall_route :=
  match op with
  | SAddRoute name (Some h) ud f => Some (sync_route (wirecall_proc_id name) h ud f false)
  | SAddAsyncRoute name (Some h) ud f => Some (sync_route (wirecall_proc_id name) h ud f true)
  | SAddDeferredRoute name (Some h) ud f => Some (deferred_route (wirecall_proc_id name) h ud f)
  | _ => None
  end.
Definition routed (op : setup_op) (id : Z) (found : option wirecall_route) : option wirecall_route :=
  match registration op with Some rt => if id =? rt_proc_id rt then Some rt else found | None => found end.
Definition routed_all (calls : list setup_op) (id : Z) (found : option wirecall_route) : option wirecall_route :=
  fold_left (fun found op => routed op id found) calls found.

Lemma has_server_run {A} (m n : M (system W P K B) A) b v s x : pr_server s = Some (b, v) -> (ok <- has_server ;; if negb ok then n else m) s = x -> m s = x.
Proof. unfold has_server, gets, bind. by intros ->. Qed.
Lemma refused_setting_up b v s (m : M (routes_env W P) unit) s' : pr_server s = Some (b, v) -> (forall e, m e = (Err, e)) -> proc_routes m s = (Ok tt, s') -> False.
Proof. intros Hs Hm. unfold proc_routes, bind at 1, get_server. rewrite Hs, Hm. unfold bind, put_server, lift. cbn [pr_server]. by rewrite Hs. Qed.

Lemma exec_setting_up base fbase bound b v s op calls r s' :
  setup_ok base fbase [] b v s -> setting_up bound b v s -> calls_ok bound (op :: calls) -> setup_exec coro_size nproc mutex_ok op s = (r, s') ->
  setup_may op v /\ r <> UB /\
    (r = Ok tt -> exists v', setting_up (match op with SBind _ _ => true | _ => bound end) b v' s' /\
       forall id, route_of (sr_routes v') id = routed op id (route_of (sr_routes v) id)).
Proof.
  intros Hok Hset [Hop _] E. pose proof Hset as (Hs & Hr & Hb).
  assert (Hmay : setup_may op v) by (destruct op; cbn in *; try tauto; by apply Hb).
  pose proof (wp_run _ _ _ _ _ _ E (setup_exec_spec H64 coro_size nproc mutex_ok base fbase b v s op Hok Hmay)) as Hspec.
  split; [done |]. split; [by destruct r |]. intros ->.
  assert (Hk : forall bd, (exists v', setting_up bd b v' s' /\ sr_routes v' = sr_routes v) -> registration op = None ->
    exists v', setting_up bd b v' s' /\ forall id, route_of (sr_routes v') id = routed op id (route_of (sr_routes v) id)).
  { intros bd (v' & ? & Ht) Hn. exists v'. split; [done |]. intros id. unfold routed. by rewrite Hn, Ht. }
  assert (Ha : forall route, registration op = Some route -> bound = false -> proc_routes (add_node route) s = (Ok tt, s') ->
    exists v', setting_up false b v' s' /\ forall id, route_of (sr_routes v') id = routed op id (route_of (sr_routes v) id)).
  { intros route Hreg -> Ea. destruct (add_setting_up _ _ _ _ _ _ _ Hok Hset Ea) as (v' & ? & Hup). exists v'. split; [done |]. intros id.
    unfold routed. by rewrite Hreg, Hup. }
  destruct op as [n|i key|name h ud f|name h ud f|name h ud f|name|host port| |]; cbn [setup_exec] in E.
  - destruct Hop as [-> Hn]. eapply wp_run in E; [| by apply (set_workers_spec base fbase b v s n)]. apply Hk; [| done]. eapply kept_setting_up; [exact E | exact Hr | by intros v' Hv'].
  - destruct Hop as [-> Hn]. eapply wp_run in E; [| by apply (set_integrity_spec base fbase b v s i key)]. apply Hk; [| done]. eapply kept_setting_up; [exact E | exact Hr | by intros v' Hv'].
  - eapply has_server_run in E; [| exact Hs]. destruct h as [h|]; [| by eapply refused_setting_up in E]. subst bound. by eapply Ha.
  - eapply has_server_run in E; [| exact Hs]. destruct h as [h|]; [| by eapply refused_setting_up in E]. subst bound. by eapply Ha.
  - eapply has_server_run in E; [| exact Hs]. destruct h as [h|]; [| by eapply refused_setting_up in E]. subst bound. by eapply Ha.
  - done.
  - eapply wp_run in E; [| by apply (bind_spec H64 coro_size base fbase mutex_ok nproc b v s host port)]. apply Hk; [| done]. eapply bound_setting_up; [exact E | exact Hr].
  - eapply wp_run in E; [| by apply (listen_spec base fbase b v s (sr_routes v))]. subst bound. apply Hk; [| done]. eapply bound_setting_up; [exact E | exact Hr].
  - done.
Qed.
Notation set_up := (set_up coro_size nproc rm mutex_ok).
Definition owed (calls : list setup_op) : list (Z * Z) := concat (map setup_finals calls).

Lemma all_succeed_sound s0 calls : forall bound b v regs s r s',
  pr_server s0 = None -> heap_inv (pr_heap s0) -> set_up s0 regs s -> setting_up bound b v s -> calls_ok bound calls ->
  all_succeed coro_size nproc mutex_ok calls s = (r, s') ->
  exists ok called regs', r = Ok ok /\ called `prefix_of` calls /\ set_up s0 regs' s' /\ regs' ≡ₚ owed called ++ regs /\
    (ok = true -> called = calls /\ exists v', pr_server s' = Some (b, v') /\ forall id, route_of (sr_routes v') id = routed_all calls id (route_of (sr_routes v) id)).
Proof.
  induction calls as [|op calls IH]; intros bound b v regs s r s' Hn Hi Hset Hup Hcalls; cbn [all_succeed].
  { intros [= <- <-]. exists true, [], regs. split_and!; [done .. |]. intros _. split; [done |]. exists v. split; [apply Hup | done]. }
  unfold bind, attempt. destruct (setup_exec coro_size nproc mutex_ok op s) as [r1 s1] eqn:E.
  destruct (set_up_ok H64 coro_size nproc rm mutex_ok s0 regs s Hn Hi Hset) as (b0 & v0 & Hok & _).
  assert (Some (b0, v0) = Some (b, v)) as [= -> ->] by (destruct Hup as [<- _]; symmetry; apply Hok).
  destruct (exec_setting_up _ _ bound b v s op calls r1 s1 Hok Hup Hcalls E) as (Hmay & Hub & Hnext). destruct Hup as [Hs _].
  pose proof (set_up_step coro_size nproc rm mutex_ok s0 regs b v s op r1 s1 Hset Hs Hmay E) as Hset1.
  destruct r1 as [[]| |]; [| | done]; cbn [app] in Hset1.
  - destruct (Hnext eq_refl) as (v1 & Hup1 & Hrt). destruct Hcalls as [_ Hcalls]. intros E2.
    destruct (IH _ b v1 _ s1 r s' Hn Hi Hset1 Hup1 Hcalls E2) as (ok & called & regs' & -> & Hpre & Hset' & Hp & Hall).
    exists ok, (op :: called), regs'. split; [done |]. split; [by apply prefix_cons |]. split; [done |]. split.
    + rewrite Hp. unfold owed. cbn [map concat]. rewrite !app_assoc. f_equiv. apply Permutation_app_comm.
    + intros Hok1. destruct (Hall Hok1) as (-> & v' & Hs' & Hrts). split; [done |]. exists v'. split; [done |]. intros id. by rewrite Hrts, Hrt.
  - intros [= <- <-]. exists false, [], regs. split; [done |]. split; [apply prefix_nil |]. by split_and!.
Qed.
End ServerFacts.

(** the four programs *)
Inductive demo_program : list setup_op -> Prop :=
| program_demo workers host port : 0 <= workers -> demo_program (demo_calls workers host port)
| program_async queue workers host port : 0 <= workers -> demo_program (async_calls queue workers host port)
| program_embed first second : demo_program (embed_calls first second)
| program_bench workers integrity mac_key : 0 <= workers -> bytes_ok mac_key -> zlen mac_key = 16 -> demo_program (bench_calls workers integrity mac_key).

Lemma demo_program_ok calls : demo_program calls -> calls_ok false calls.
Proof.
  destruct 1 as [workers host port Hw | queue workers host port Hw | first second | workers integrity key Hw Hk Hl]; unfold demo_calls, bench_calls.
  - destruct (workers =? 0); cbn; tauto.
  - cbn. tauto.
  - cbn. split_and!; done.
  - assert (Hkey : forall bytes, Some key = Some bytes -> bytes_ok bytes /\ 16 <= zlen bytes) by (intros bytes [= <-]; split; [done | lia]).
    destruct (workers =? 0); cbn; tauto.
Qed.

(** main up to wirecall_server_run *)
Lemma start_server_sound `{Host} `{Heap W} `{Pages P} `{Net K} `{Backend B} coro_size nproc rm mutex_ok calls (s0 s : system W P K B) r :
  size_bits = 64 -> pr_server s0 = None -> heap_inv (pr_heap s0) -> demo_program calls ->
  start_server coro_size nproc rm mutex_ok calls s0 = (r, s) ->
  exists ok called, r = Ok ok /\ called `prefix_of` calls /\
    (ok = true -> called = calls /\ exists regs b v, set_up coro_size nproc rm mutex_ok s0 regs s /\ regs ≡ₚ owed calls /\
       pr_server s = Some (b, v) /\ forall id, route_of (sr_routes v) id = routed_all calls id None) /\
    exists s', wirecall_server_destroy coro_size s = (Ok tt, s') /\ pr_server s' = None /\
      heap_live (pr_heap s') = heap_live (pr_heap s0) /\ net_open (pr_net s') = net_open (pr_net s0) /\ pr_log s' ≡ₚ owed called ++ pr_log s0.
Proof.
  intros H64 Hn Hi Hprog. unfold start_server, bind, attempt.
  destruct (wirecall_server_init coro_size nproc rm true s0) as [r0 s1] eqn:E0.
  pose proof (wp_run _ _ _ _ _ _ E0 (server_init_spec H64 coro_size rm nproc s0 Hn Hi)) as Hinit. destruct r0 as [[]| |]; [| | done].
  - destruct Hinit as (b & v & Hok & Hr & Hempty & _). intros E.
    destruct (all_succeed_sound H64 coro_size nproc rm mutex_ok s0 calls false b v [] s1 r s Hn Hi) as (ok & called & regs & -> & Hpre & Hset & Hp & Hall); try done.
    { by apply set_up_init. }
    { split; [by apply Hok | by split]. }
    { by apply demo_program_ok. }
    rewrite app_nil_r in Hp. exists ok, called. split; [done |]. split; [done |]. split.
    + intros Hok1. destruct (Hall Hok1) as (-> & v' & Hs & Hrt). split; [done |]. exists regs, b, v'. split_and!; [done .. |].
      intros id. by rewrite Hrt, Hempty.
    + destruct (set_up_destroyed coro_size nproc rm mutex_ok s0 s regs H64 Hn Hi Hset) as (s' & E' & Hs' & Hh & Ho & Hl). exists s'. by rewrite <- Hp.
  - destruct Hinit as (Hs1 & Hh & Ho & Hl). intros [= <- <-]. exists false, []. split; [done |]. split; [apply prefix_nil |]. split; [done |].
    exists s1. split; [| by rewrite Hl]. unfold wirecall_server_destroy, bind at 1, has_server, gets. by rewrite Hs1.
Qed.

(** C25: every server of the examples starts, or gives back what it has taken:
    whatever memory, mutexes, backends, the resolver and sockets do, its calls
    up to wirecall_server_listen end without an undefined access, the first
    that fails being the last; the server is then one of those the theorems about
    set up servers speak of, with the procedures of the calls that have
    succeeded, which are all of them if main goes on to run it; and
    wirecall_server_destroy, which main calls (but that of the benchmark after a
    failure), frees and closes everything and has run the finalizer of each
    state that was registered, once. *)
Theorem demo_servers_start `{Host} `{Heap W} `{Pages P} `{Net K} `{Backend B} coro_size nproc rm mutex_ok calls (s0 s : system W P K B) r :
  size_bits = 64 -> pr_server s0 = None -> heap_inv (pr_heap s0) -> demo_program calls ->
  start_server coro_size nproc rm mutex_ok calls s0 = (r, s) ->
  exists ok called, r = Ok ok /\ called `prefix_of` calls /\
    (ok = true -> called = calls /\ exists regs, set_up coro_size nproc rm mutex_ok s0 regs s /\ regs ≡ₚ owed calls) /\
    exists s', wirecall_server_destroy coro_size s = (Ok tt, s') /\ pr_server s' = None /\
      heap_live (pr_heap s') = heap_live (pr_heap s0) /\ net_open (pr_net s') = net_open (pr_net s0) /\ pr_log s' ≡ₚ owed called ++ pr_log s0.
Proof.
  intros H64 Hn Hi Hprog E. destruct (start_server_sound coro_size nproc rm mutex_ok calls s0 s r H64 Hn Hi Hprog E) as (ok & called & -> & Hpre & Hall & Hend).
  exists ok, called. split; [done |]. split; [done |]. split; [| done]. intros Hok. destruct (Hall Hok) as (-> & regs & b & v & Hset & Hp & _). by eauto.
Qed.

(** the servers whose procedure "add" is the only one: that of demos/bench.c, and
    that of demos/embed.c, which registers it twice *)
Inductive adding (bias : Z -> option Z) : list setup_op -> Z -> Prop :=
| adding_bench workers integrity key : 0 <= workers -> bytes_ok key -> zlen key = 16 -> adding bias (bench_calls workers integrity key) 0
| adding_embed first second n : bias second = Some n -> adding bias (embed_calls first second) n.

Lemma adding_program bias calls n : adding bias calls n -> demo_program calls.
Proof. by destruct 1; constructor. Qed.
Lemma adding_routes bias calls n : adding bias calls n -> exists rt, adds bias rt n /\ route_served rt /\
  forall id, routed_all calls id None = if id =? wirecall_proc_id (Some (c_string "add")) then Some rt else None.
Proof.
  set (add := c_string "add"). destruct 1 as [workers integrity key _ _ _ | first second n Hn]; unfold routed_all, bench_calls, embed_calls; fold add; clearbody add.
  - exists (sync_route (wirecall_proc_id (Some add)) HANDLER_ADD 0 None false). split; [split; [done | by left] |]. split; [by split; eauto |].
    intros id. by destruct (workers =? 0).
  - exists (sync_route (wirecall_proc_id (Some add)) HANDLER_ADD_WITH_BIAS second (Some STATE_FINALIZER) false). split; [split; [done | by right] |].
    split; [by split; eauto |]. intros id. unfold routed. cbn [registration fold_left app rt_proc_id sync_route].
    by destruct (id =? wirecall_proc_id (Some add)).
Qed.

(** C4: the servers of demos/bench.c and demos/embed.c add.  When the calls of
    main have set the server up, whatever turns one of its workers has made, as
    long as its backend reports batches the event loop can take, and that worker
    reads, in whatever pieces, what the example client sends for the procedure
    "add", that is the two numbers a and b, then, unless the connection is to be
    closed because memory ran out, exactly one packet is queued, which this
    client takes for genuine and for the answer to this call: a response that
    holds a + b, and for the embedded server the bias of the state it registered
    last on top, or, when memory ran out, an error packet with a message.  The
    server of demos/server.c has an asynchronous procedure as well, which the
    invariant of the worker leaves out. *)
Theorem demo_add_served `{Host} `{Heap W} `{Pages P} `{Net K} `{Backend B} coro_size nproc rm mutex_ok segment bias deferred_handler
    calls n (s0 s : system W P K B) b v wb l i w fuel k p c r k' (client : wirecall_client) args x y :
  size_bits = 64 -> address_limited -> deferred_lawful deferred_handler ->
  pr_server s0 = None -> heap_inv (pr_heap s0) -> adding bias calls n ->
  start_server coro_size nproc rm mutex_ok calls s0 = (Ok true, s) ->
  pr_server s = Some (b, v) -> sr_workers v = Some (wb, l) -> l !! i = Some w ->
  turns coro_size segment (demo_handlers bias) deferred_handler (net_open (pr_net s0) ∪ list_to_set (server_fds v)) fuel (focus v w s) k ->
  conns (s_client k) !! p = Some c -> cn_detached c = false -> b_bytes (cn_read c) = [] ->
  cl_integrity client = sr_integrity v -> cl_mac_key client = sr_mac_key v -> 0 <= cl_next_call_id client < 2 ^ 64 ->
  writer_ok args -> w_bytes args = encode_values [PI64 x; PI64 y] -> pvalue_ok (PI64 x) -> pvalue_ok (PI64 y) ->
  pvalue_ok (PI64 (x + y)) -> pvalue_ok (PI64 (x + y + n)) ->
  connection_read coro_size (demo_handlers bias) deferred_handler p k = (r, k') ->
  net_received (cn_fd c) (wk_net (s_client k')) = net_received (cn_fd c) (wk_net (s_client k)) ++
    request client WIRECALL_OP_RPC (wirecall_proc_id (Some (c_string "add"))) (cl_next_call_id client) (Some args) ->
  r = Ok tt /\ exists c', conns (s_client k') !! p = Some c' /\
    (cn_closing c' = false -> exists hd body, unsent c' = unsent c ++ header_bytes hd ++ body /\ genuine client hd body /\
       h_call_id hd = cl_next_call_id client /\
       (h_op hd = op_code WIRECALL_OP_RESPONSE /\ body = encode_values [PI64 (x + y + n)] \/
        h_op hd = op_code WIRECALL_OP_ERROR /\ exists message, body = error_text (cstring message))).
Proof.
  intros H64 Hlim Hde Hn Hi Hadd Es Eb Ev Ew Ht Hc Hd Hempty Hint Hkey Hid.
  destruct (start_server_sound coro_size nproc rm mutex_ok calls s0 s _ H64 Hn Hi (adding_program _ _ _ Hadd) Es) as (ok & called & [= <-] & _ & Hall & _).
  destruct (Hall eq_refl) as (_ & regs & b1 & v1 & Hset & _ & Eb1 & Hroutes). assert (Some (b1, v1) = Some (b, v)) as [= -> ->] by congruence.
  destruct (adding_routes _ _ _ Hadd) as (rt & Hrt & Hsv & Hall').
  assert (Hserved : forall id rt', route_of (sr_routes v) id = Some rt' -> route_served rt').
  { intros id rt'. rewrite Hroutes, Hall'. destruct (_ =? _); [by intros [= <-] | done]. }
  pose proof (set_up_worker_ok H64 coro_size nproc rm mutex_ok s0 regs s b v wb l i w Hn Hi Hset Eb Ev Ew Hserved) as Hw.
  destruct (turns_ok H64 Hlim coro_size segment (demo_handlers bias) deferred_handler (demo_handlers_lawful bias) Hde _ _ fuel _ _ Hw Ht) as [Hk Hf].
  destruct (wf_config _ _ _ Hf) as (Ei & Ek & _). pose proof (wf_routes _ _ _ Hf (wirecall_proc_id (Some (c_string "add")))) as Er.
  destruct (focus_client v w s) as [Ex _]. rewrite Ex in Ei, Ek, Er. cbn [sv_integrity sv_mac_key sv_routes] in Ei, Ek, Er.
  rewrite Hroutes, Hall', Z.eqb_refl in Er. rewrite <- Ei in Hint. rewrite <- Ek in Hkey. intros. by eapply add_served.
Qed.

(** ** The programs at work *)
#[local] Existing Instance host_lp64.
#[local] Existing Instance toy_limited | 0.

(** the answer of the example server, in two pieces *)
Definition toy_answer_42 : list Z := toy_packet WIRECALL_OP_RESPONSE (wirecall_proc_id (Some (c_string "add"))) 1 (encode_values [PI64 42]).
Definition demo_world (answer : list Z) (memory : list bool) : @cworld toy toynet :=
  {| cw_client := None; cw_heap := toy_empty memory;
     cw_net := {| tn_open := ∅; tn_next := 3; tn_recvs := [TBytes (ztake 20 answer); TErr EINTR; TBytes (zdrop 20 answer)]; tn_blocks := false; tn_sends := [TTake 7];
                  tn_accepts := []; tn_status := []; tn_addrs := Some [sample_addr]; tn_received := ∅; tn_sent := ∅ |} |}.

Lemma demo_client_balance_witness :
  exists s', demo_client [] (demo_world toy_answer_42 []) = (Ok (0, Some 42), s') /\
    heap_live (cw_heap s') = ∅ /\ net_open (cw_net s') = ∅ /\
    exists fd hd rest, genuine new_client hd (encode_values [PI64 42]) /\ h_call_id hd = 1 /\
      net_received fd (cw_net s') = header_bytes hd ++ encode_values [PI64 42] ++ rest.
Proof.
  destruct (demo_client_balance (c_string "7000") [] (demo_world toy_answer_42 [])) as (status & out & s' & E & _ & _ & Hh & Hn & Hsum);
    [reflexivity | reflexivity | apply toy_empty_inv |].
  assert (Hout : (demo_client [] (demo_world toy_answer_42 [])).1 = Ok (0, Some 42)) by (by vm_compute).
  unfold demo_client in *. rewrite E in Hout. injection Hout as -> ->. exists s'. split; [exact E |]. split; [exact Hh |]. split; [exact Hn |].
  destruct (Hsum 42 eq_refl) as (fd & hd & rest & _ & Hg & _ & Hid & Hr). exists fd, hd, rest. split; [exact Hg |]. split; [exact Hid | exact Hr].
Defined.

(** the server of demos/embed.c, on a machine where all goes well, and one whose
    resolver has no address *)
Definition toy_embed := start_server 4096 4 true (fun _ => (true, true)) (embed_calls 100 200).
Lemma demo_servers_start_witness :
  (toy_embed toy_begin).1 = Ok true /\
  exists s', wirecall_server_destroy 4096 (toy_embed toy_begin).2 = (Ok tt, s') /\ heap_live (pr_heap s') = ∅ /\
    pr_log s' ≡ₚ [(STATE_FINALIZER, 100); (STATE_FINALIZER, 200)].
Proof.
  destruct (demo_servers_start 4096 4 true (fun _ => (true, true)) (embed_calls 100 200) toy_begin (toy_embed toy_begin).2 (toy_embed toy_begin).1)
    as (ok & called & E & _ & Hall & s' & Ed & _ & Hh & _ & Hl).
  - reflexivity.
  - reflexivity.
  - apply toy_empty_inv.
  - constructor.
  - apply surjective_pairing.
  - assert (Hok : (toy_embed toy_begin).1 = Ok true) by (by vm_compute). split; [exact Hok |].
    rewrite Hok in E. injection E as <-. destruct (Hall eq_refl) as [-> _]. exists s'. split; [exact Ed |]. split; [exact Hh | exact Hl].
Defined.

(** the server of demos/bench.c with one worker, a client that has connected, and
    what the example client sends, in two pieces *)
Definition no_bias (_ : Z) : option Z := None.
Definition demo_args : wirecall_writer :=
  ((wirecall_writer_i64 20 ;;; wirecall_writer_i64 22) (wirecall_writer_init, toy_empty [])).2.1.
Definition demo_request : list Z := request sample_client WIRECALL_OP_RPC (wirecall_proc_id (Some (c_string "add"))) 1 (Some demo_args).
Definition demo_begin : toy_system :=
  toy_start [TBytes (ztake 20 demo_request); TErr EINTR; TBytes (zdrop 20 demo_request)] [] [None; Some EAGAIN] [].
Definition demo_setup : list setup_op := bench_calls 1 WIRECALL_INTEGRITY_DEFAULT (zreplicate 16 0).
Definition demo_up : toy_system := (start_server 4096 4 true (fun _ => (true, true)) demo_setup demo_begin).2.
Notation demo_worker_0 := (focus (the_server demo_up) (the_worker demo_up) demo_up).
Definition demo_worker_1 :=
  (worker_turn 4096 (K := toynet) (P := toy_pages) (B := toybackend) toy_async (demo_handlers no_bias) toy_deferred 1 toy_accepting demo_worker_0).2.
Definition demo_conn : Z := match map_to_list (conns (s_client demo_worker_1)) with (p, _) :: _ => p | [] => 0 end.
Definition demo_connection : wirecall_connection := default zero_connection (conns (s_client demo_worker_1) !! demo_conn).
Notation demo_read := (connection_read 4096 (K := toynet) (P := toy_pages) (B := toybackend) (demo_handlers no_bias) toy_deferred demo_conn demo_worker_1).

Definition demo_fbase : gset Z := net_open (pr_net demo_begin) ∪ list_to_set (server_fds (the_server demo_up)).
Lemma demo_turns : turns 4096 toy_async (demo_handlers no_bias) toy_deferred demo_fbase 0 demo_worker_0 demo_worker_1.
Proof.
  assert (Hf : demo_fbase = {[3]}) by by_compute.
  apply (turns_step _ _ _ _ _ 0 demo_worker_0 demo_worker_0 toy_accepting (Ok (Some tt))); [apply turns_start | | vm_compute; reflexivity].
  rewrite Hf. apply batch_once; [| by_compute]. repeat constructor.
Qed.

Lemma demo_add_served_witness :
  demo_read.1 = Ok tt /\ exists c', conns (s_client demo_read.2) !! demo_conn = Some c' /\
    (cn_closing c' = false -> exists hd body, unsent c' = unsent demo_connection ++ header_bytes hd ++ body /\ genuine sample_client hd body /\
       h_call_id hd = cl_next_call_id sample_client /\
       (h_op hd = op_code WIRECALL_OP_RESPONSE /\ body = encode_values [PI64 (20 + 22 + 0)] \/
        h_op hd = op_code WIRECALL_OP_ERROR /\ exists message, body = error_text (cstring message))).
Proof.
  apply (demo_add_served 4096 4 true (fun _ => (true, true)) toy_async no_bias toy_deferred demo_setup 0 demo_begin demo_up 1 (the_server demo_up)
    (match sr_workers (the_server demo_up) with Some (wb, _) => wb | None => 0 end)
    (match sr_workers (the_server demo_up) with Some (_, l) => l | None => [] end) 0 (the_worker demo_up) 0 demo_worker_1
    demo_conn demo_connection demo_read.1 demo_read.2 sample_client demo_args 20 22).
  - reflexivity.
  - apply limited_heap_limited.
  - apply toy_deferred_lawful.
  - reflexivity.
  - apply toy_empty_inv.
  - apply adding_bench; by_compute.
  - vm_compute. reflexivity.
  - by vm_compute.
  - by vm_compute.
  - by vm_compute.
  - exact demo_turns.
  - by vm_compute.
  - by vm_compute.
  - by vm_compute.
  - by vm_compute.
  - by vm_compute.
  - by_compute.
  - by_compute.
  - by vm_compute.
  - by_compute.
  - by_compute.
  - by_compute.
  - by_compute.
  - apply surjective_pairing.
  - vm_compute. reflexivity.
Defined.

(** ** What the programs lose *)

(** demos/embed.c: when wirecall_server_init fails no finalizer knows the two
    states, and main returns without freeing them *)
Definition embed_poor : toy_system :=
  {| pr_server := None; pr_heap := toy_empty [true; true; false]; pr_pages := pr_pages toy_begin; pr_net := pr_net toy_begin;
     pr_backend := pr_backend toy_begin; pr_log := [] |}.
Lemma embed_setup_leaks : exists s, embed_setup 4096 4 true (fun _ => (true, true)) embed_poor = (Ok (Some 1), s) /\
  pr_log s = [] /\ heap_live (pr_heap s) = {[1; 2]}.
Proof. eexists. split; [vm_compute; reflexivity |]. split; vm_compute; reflexivity. Qed.

(** demos/bench.c: when a call after wirecall_server_init fails, start_server
    fails without destroying the server, and main returns *)
Definition no_address : toy_system :=
  {| pr_server := None; pr_heap := pr_heap demo_begin; pr_pages := pr_pages demo_begin;
     pr_net := {| tn_open := ∅; tn_next := 3; tn_recvs := []; tn_blocks := true; tn_sends := []; tn_accepts := []; tn_status := []; tn_addrs := None; tn_received := ∅; tn_sent := ∅ |};
     pr_backend := pr_backend demo_begin; pr_log := [] |}.
Lemma bench_setup_leaks : exists s, start_server 4096 4 true (fun _ => (true, true)) demo_setup no_address = (Ok false, s) /\
  pr_server s <> None /\ 1 ∈ heap_live (pr_heap s).
Proof. eexists. split; [vm_compute; reflexivity |]. split; [vm_compute; discriminate | by_compute]. Qed.
